(* ===== verification/_CoqProject ===== *)
-Q . S2P
Prelude.v
ApiTypes.v
Driver.v
GraphApi.v
Rtp.v
Gmio.v
Dma.v
HostMem.v
PortImpl.v
ExternalBuffer.v
SimGraph.v
Regs.v
ConfigBin.v
MetaPack.v
Cdo.v
Configure.v
Event.v
Profile.v
AieGraph.v
AieApi.v
AieFacts.v
AieReach.v
SimBackend.v
Target.v
GenEvents.v
Txn.v
KLog.v
AdfHeaders.v
AdfTool.v
FileXfer.v
Proxy.v
Mock.v
HostQueue.v
CertHost.v
CertDelivery.v
Barrier.v
CertElf.v
CertLayout.v
TestStubs.v
Ipc.v
IpcFacts.v
IpcServer.v
XIoUtils.v
UartRx.v
Classify.v
Echo.v
Net.v
Windows.v
Chain.v
Core.v
Tiles.v
RowProduct.v
Oob.v
OobHost.v
Gemm.v
GemmRow.v
GemmHost.v
