(* ===== verification/Prelude.v ===== *)
(** A verification of aiebaremetal, the bare-metal runtime for graphs on the AI Engine (AIE)
    array of Versal devices.

    * The program

    A compiled graph is a set of AIE cores, buffers and ports described by static tables.  The
    runtime ([src/common_layer/aeg_runtime_api.cpp]) enables the cores, waits for them,
    updates run-time parameters and moves data through DMA channels, all through the driver
    aie-rt, which is not in the repository.  The port objects of the public API
    ([src/include/*apiimpl.h]) add host memory and cache maintenance; in simulation the same
    API is served by a backend loaded from a shared library ([src/include/aiebaremetal.h]).
    Control code for the firmware of the array's microcontrollers is submitted through a
    queue in shared memory ([src/cert_host.cc], [src/include/host_queue.h]); it comes from an
    ELF file ([src/cert_elf_loader.cc]).  A program reaches all of this through the objects of
    [src/aeg_aiebaremetal.cc], which read the tables a script has packed into the binary
    ([script/aiemetacpp.py], [src/aeg_configure.cc]), apply the compiler's configuration blobs and
    service error interrupts.  In simulation the application runs in a process of its own and
    talks to the simulator over a socket ([src/ipc]).  Around this core: programmable-logic
    kernels, profiling, a log kept in tile memory, serialized transactions, a generator of error
    events, file transfer over TCP, host tools, a console driver, a converter of ADF host programs
    ([src/tools/adftoaeg]), an image classification application, two matrix multiplication examples
    that run on rows of cores ([example/example_oob], [example/example_oob_4x4]) and the doubles the
    unit tests link instead of the driver.

    * Conventions

    A [w]-bit integer is a [Z] with its wrap-around written out ([wrap_u], [wrap_s] below); a
    pointer is an address and null is zero, unless a file says otherwise.  Code outside the
    repository is a parameter.  The driver, the register accessors and shared memory are one
    environment, [AieRt] of Driver.v: it answers a call from the whole history of calls and
    answers, so a theorem over [AieRt] holds for every device.  Code that calls it is written
    in the monad [M], which threads the history; [None] is a loop that used up its fuel or an
    operation the language leaves undefined.  Logging is left out.  A source location
    [[path:first-last]] before a definition names the lines it translates, relative to the
    root of the repository.

    * Files

    - Prelude.v: machine integers, bytes, lists, the hint database [aeg].
    - ApiTypes.v: error codes, configuration tables, buffer descriptors.
    - Driver.v: the environment, the monad [M], traces of straight-line code and of polling loops,
      the tactic [run_m].
    - GraphApi.v: [config_manager] and [graph_api] run, wait, resume, end.
    - Rtp.v: [graph_api] update and read of run-time parameters and shared buffers.
    - Gmio.v: [gmio_api], the buffer descriptor queues of a GMIO channel.
    - Dma.v: [dma_api] and [lock_api].
    - HostMem.v: [XAieMem].  PortImpl.v: the GMIO, RTP and shared buffer port objects.
      ExternalBuffer.v: external buffers.
    - SimGraph.v: the simulator backend as a type class, its ports and its loader.
    - Regs.v: CDO register helpers and PL kernels.  Cdo.v: the parser of configuration blobs and
      the commands it executes.
    - ConfigBin.v: the packed configuration tables as bytes and their reader.  MetaPack.v: the
      packing script and its round trips.  Configure.v: the objects of a graph built from the
      tables.
    - Event.v: the profiling handle table over a type class of the profiling layer.  Profile.v:
      the profiling layer, an instance of that class.
    - AieGraph.v: a graph of the hardware build (init, run, ports, errors).  AieApi.v: the public
      class, its ports and the error interrupt.  AieFacts.v: start-up and error reports.
      AieReach.v: a program as a state machine over all of these, and its invariant.
      SimBackend.v: the simulator build of the same classes, an instance of the class of
      SimGraph.v.  Target.v: the differences of the real-time processor and of Zephyr.
    - GenEvents.v: the generator of error events.  Txn.v: the interpreter, the printer and the file
      format of serialized transactions.  KLog.v: the kernels' log and its reader.
    - AdfHeaders.v: the header graph of the conversion tool.  AdfTool.v: its visitors, the texts they
      write and the whole conversion of a file.
    - HostQueue.v: the queue and handshake formats as bytes, byte memory, and the reader the
      format description gives.  CertHost.v: [cert_api].  CertDelivery.v: what a submitted
      command delivers to the device.  Barrier.v: the barriers, and the order in which the stores
      of a submission become visible.  CertElf.v: the ELF loader and its relocations.
      CertLayout.v: the layout of the loaded code and its delivery.
    - Ipc.v: the protocol between the application and the simulator, client, server and channels.
      IpcFacts.v: what the application observes.  IpcServer.v: the threads of the server.
      XIoUtils.v: the simulator's entry points.
    - FileXfer.v: checksum, receiver and senders of the file transfer.  Proxy.v: the TCP proxy and
      the echo test client.  Echo.v: the lwIP echo server.  Net.v: the network bring-up and the
      service loop.  UartRx.v: the console receiver.
    - Classify.v: the image classification application, over an interface of the graph object.
    - Windows.v: cores that pass windows of data over bounded connections, as a transition system, and
      the independence of the order of their moves.  Chain.v: rows of cores that forward and absorb.
      Core.v: the common shape of the kernels of a row.  Tiles.v: lists cut into equal pieces.
      RowProduct.v: the product computed by a row, for any kernels of that shape.  Oob.v: the kernels
      for 32-bit numbers.  OobHost.v: their host programs.  Gemm.v: the kernels for 8-bit numbers and
      the loops of the matrix engine.  GemmRow.v: a row of them.  GemmHost.v: their host program.
    - Mock.v: the driver mock of the unit tests.  TestStubs.v: the memory stub of the
      command-queue tests.

    * What is proved

    - Graphs: run, wait and end perform exactly the intended driver calls in the intended order
      for every core and report an error exactly when a call failed; iteration counts reach
      data memory before a core starts; polling ends when the cores finish; the cycle budget
      of a timed wait is respected.
    - Run-time parameters: an update writes the buffer the kernel does not read and then flips
      the selector, so consecutive updates alternate, as long as the selector word is 0 or 1; the
      accesses lie between the acquisition and the release of the lock, on every device
      generation; a read returns the buffer selected under the lock.
    - GMIO: buffer descriptors are conserved, reused oldest first and only once completed; waiting
      drains the channel; the non-blocking wait frees descriptors in flight.
    - DMA, ports, external buffers: descriptors are written complete, tasks start only after a
      successful set-up, memory is flushed before a transfer starts and synchronised after.
    - Simulator: CDO blobs are applied before the graph is initialised, every operation of the
      wrapper is guarded, for every backend; the backend of the repository forwards a session
      unchanged.
    - Registers: masked writes change masked bits only; polling is bounded by the timeout, with its
      overflow.  Configuration blobs: loading one performs exactly the register accesses of its
      commands in order, and nothing when the header is wrong.
    - Configuration: the tables the script packs are the tables the program reads, on a 64-bit
      target; every GMIO port of the tables gets a configured object.
    - Programs: blobs are applied before a graph is configured; every pointer between the public
      objects, the ports and the graphs stays valid; an error interrupt reports the errors of
      every graph.
    - Profiling: counter differences are exact modulo 2^32 wraps; resources are released in order.
    - Commands: following the packet through its levels of indirection in the memory the device
      sees, the firmware finds the code of every column, from the moment the write index moves
      until the call returns, for a device that after the index has moved keeps what the host
      stored and sets the completion word within a number of polls; the exact set of entry addresses the format of the code can
      express; the handshake tells the first column where the queue is; the code of an ELF file is
      laid out and relocated as its sections say and arrives at the device.
    - Simulation in two processes: a session over the socket is the session of a simulator in the
      same process, for every segmentation and interruption; the server's threads are
      linearizable; the application is always answered; host buffers resolve to their device
      memory.
    - Transfer and tools: the receiver works for every segmentation as long as a segment arrives in
      one packet buffer (of a chain it reads the first only), the transfer is correct end to end, the checksum detects a corrupted byte, the proxy forwards in order.
    - Order: on the architectures with a working barrier the firmware cannot see the new queue index
      before everything stored ahead of it, and sees all of it once the queue operation returns,
      although stores may overtake each other and reach the memory of the device only when their
      line is written back, by a flush of the code or at any other moment.
    - Transactions: submitting one does to the registers what its operations say; files and dumps
      agree with it.  Classification: a round resolves the buffer numbers of the transaction to the
      published buffers and reports the first best class, on every device on which its polls are
      answered in time; a session frees what it allocated.
    - Log: what the kernels log is what the host prints.  Events: every selected error is raised.
    - Conversion tool: the inclusions that lead to the ADF declarations are guarded, for every order
      of the hash tables; on supported programs no step but the erase at the end of a vector is
      undefined, the graph names are distinct, and they are printed where the variables are
      declared, once each; a port call becomes the call on the graph object with the port's path,
      its set-up line in front of the statement.
    - Network: the bring-up ends with an address; a raised timer flag is served within one turn of
      the loop, whatever the interrupts.  Targets: blobs reach the same registers through the
      alias of the real-time processor.
    - Matrix multiplication: for every interleaving of the cores, any number of buffers per connection
      and any number of calls, a row comes to an end within a fixed number of moves, no core waits for
      ever or leaves an array, and the results are the inner products in the order the host reads them;
      with the host programs around the rows, the test of the 32-bit example passes on every shipped
      configuration but the one for the first AIE generation, and that of the 8-bit example exactly for matrices of one panel.
    - Console: the receiver ends up enabled with the self-test off; input is first in, first out.
    - Test doubles: a log of the mock decodes to the calls made; scripts are played back.

    Theorems that describe a defect say so in their comment (GMIO wait, file size byte order,
    entry addresses, loading errors, a second start-up, transfers of 4 GiB, the hold after a run,
    unknown transaction operations, long log lines, barriers without hardware order, converted
    waits, the transposed operand and the narrowed panels of the matrix multiplication).

    * Fuel

    Loops the source leaves unbounded (polling a done bit, a completion word, a busy flag) take a
    fuel argument.  Theorems about them assume that the environment satisfies the loop's
    condition within [n] iterations and that the fuel exceeds [n], and conclude that the loop
    returns; counted loops are structural.  The receiver's loop has fuel one above the
    segment's length, and the search of the header graph one above the number of nodes, which is
    proved to be enough.  The rows of cores need no fuel: a schedule is a finite list of moves, and
    the bound on its length is part of the theorems.

    * Not modelled

    The Linux build of [src/aeg_aiebaremetal.cc] and its debug helpers, the set-up of sockets in
    [src/ipc], the printing of configurations and other logging, [BracesInserter] of the conversion
    tool (never traversed), clang and lwIP (parameters), the floating-point statistics of the
    benchmark, the vendored ELF library (a parameter of CertElf.v), the other example programs, the
    variants of the matrix multiplication kernels for the first AIE generation (they add up over
    cascade streams), the timing report of the 8-bit example and the waits of its host between two
    iterations, AIE kernels written for the array's vector instructions (convolutions), generated
    tables and control code, and test suites. *)
From stdpp Require Import base list gmap strings.
From Stdlib Require Import ZArith Lia.
Local Open Scope Z_scope.

Declare Scope aeg_scope.
Delimit Scope aeg_scope with aeg.

(** * Machine integers

    A [w]-bit integer is a [Z]; every C cast of the sources is written out as
    the wrap-around of its target type. *)

Definition wrap_u (w z : Z) : Z := z mod 2 ^ w.
Definition wrap_s (w z : Z) : Z := (z + 2 ^ (w - 1)) mod 2 ^ w - 2 ^ (w - 1).

Abbreviation u8 := (wrap_u 8).
Abbreviation u16 := (wrap_u 16).
Abbreviation u32 := (wrap_u 32).
Abbreviation u64 := (wrap_u 64).
Abbreviation s8 := (wrap_s 8).
Abbreviation s16 := (wrap_s 16).
Abbreviation s32 := (wrap_s 32).

Lemma pow2_pos w : 0 <= w -> 0 < 2 ^ w.
Proof. intros; apply Z.pow_pos_nonneg; lia. Qed.

Lemma wrap_u_range w z : 0 <= w -> 0 <= wrap_u w z < 2 ^ w.
Proof. intros; apply Z.mod_pos_bound, pow2_pos; lia. Qed.

Lemma wrap_u_small w z : 0 <= z < 2 ^ w -> wrap_u w z = z.
Proof. apply Z.mod_small. Qed.

Lemma wrap_u_idemp w z : 0 <= w -> wrap_u w (wrap_u w z) = wrap_u w z.
Proof. intros; apply wrap_u_small, wrap_u_range; lia. Qed.

Lemma wrap_s_range w z :
  0 < w -> - 2 ^ (w - 1) <= wrap_s w z < 2 ^ (w - 1).
Proof.
  intros Hw; unfold wrap_s.
  assert (E : 2 ^ w = 2 * 2 ^ (w - 1)).
  { rewrite <- Z.pow_succ_r by lia; f_equal; lia. }
  pose proof (Z.mod_pos_bound (z + 2 ^ (w - 1)) (2 ^ w) (pow2_pos w ltac:(lia))).
  lia.
Qed.

Lemma wrap_s_small w z :
  0 < w -> - 2 ^ (w - 1) <= z < 2 ^ (w - 1) -> wrap_s w z = z.
Proof.
  intros Hw Hz; unfold wrap_s.
  assert (E : 2 ^ w = 2 * 2 ^ (w - 1)).
  { rewrite <- Z.pow_succ_r by lia; f_equal; lia. }
  rewrite Z.mod_small; lia.
Qed.

(** The C idiom [status |= rc] keeps zero exactly when every code was zero. *)
Lemma lor_zero_iff a b : Z.lor a b = 0 <-> a = 0 /\ b = 0.
Proof. apply Z.lor_eq_0_iff. Qed.

(** [x & mask] never exceeds the mask and [x | y] of two [w]-bit values is a
    [w]-bit value. *)
Lemma lor_range w a b :
  0 <= w -> 0 <= a < 2 ^ w -> 0 <= b < 2 ^ w -> 0 <= Z.lor a b < 2 ^ w.
Proof.
  intros Hw Ha Hb.
  assert (H : wrap_u w (Z.lor a b) = Z.lor a b).
  { unfold wrap_u; rewrite <- Z.land_ones, Z.land_lor_distr_l, !Z.land_ones by lia.
    rewrite !Z.mod_small by lia; done. }
  rewrite <- H; apply wrap_u_range; lia.
Qed.

Lemma land_range w a b :
  0 <= w -> 0 <= b < 2 ^ w -> 0 <= Z.land a b < 2 ^ w.
Proof.
  intros Hw Hb.
  assert (H : wrap_u w (Z.land a b) = Z.land a b).
  { unfold wrap_u; rewrite <- Z.land_ones, <- Z.land_assoc, Z.land_ones by lia.
    rewrite Z.mod_small by lia; done. }
  rewrite <- H; apply wrap_u_range; lia.
Qed.

Lemma lxor_range w a b :
  0 <= w -> 0 <= a < 2 ^ w -> 0 <= b < 2 ^ w -> 0 <= Z.lxor a b < 2 ^ w.
Proof.
  intros Hw Ha Hb.
  assert (H : wrap_u w (Z.lxor a b) = Z.lxor a b).
  { unfold wrap_u; apply Z.bits_inj'; intros i Hi.
    destruct (decide (i < w)); [by rewrite Z.mod_pow2_bits_low by lia|].
    rewrite Z.mod_pow2_bits_high, Z.lxor_spec by lia.
    rewrite <- (Z.mod_small a (2 ^ w)), <- (Z.mod_small b (2 ^ w)) by lia.
    rewrite !Z.mod_pow2_bits_high by lia; done. }
  rewrite <- H; apply wrap_u_range; lia.
Qed.

Lemma lxor_inj_l a b c : Z.lxor a c = Z.lxor b c -> a = b.
Proof.
  intros H; apply (f_equal (fun x => Z.lxor x c)) in H.
  rewrite !Z.lxor_assoc, Z.lxor_nilpotent, !Z.lxor_0_r in H; done.
Qed.

(** Putting a value above [k] bits is an addition. *)
Lemma lor_shiftl_add a b k :
  0 <= k -> 0 <= a < 2 ^ k -> Z.lor a (Z.shiftl b k) = a + b * 2 ^ k.
Proof.
  intros Hk Ha.
  assert (E : Z.land a (Z.shiftl b k) = 0).
  { apply Z.bits_inj'; intros i Hi; rewrite Z.land_spec, Z.bits_0.
    destruct (decide (i < k)) as [Hlt|Hge].
    - rewrite Z.shiftl_spec_low by lia; apply andb_false_r.
    - rewrite <- (Z.mod_small a (2 ^ k)) by lia.
      rewrite Z.mod_pow2_bits_high by lia; done. }
  rewrite <- Z.shiftl_mul_pow2 by lia; pose proof (Z.add_lor_land a (Z.shiftl b k)); lia.
Qed.

(** ** Byte sequences

    A byte is a [Z] in [0, 256); a word is stored little-endian by the hosts
    the runtime runs on and big-endian on the wire ([htonl]). *)

Definition is_byte (b : Z) : Prop := 0 <= b < 256.
Abbreviation bytes_ok := (Forall is_byte).

Fixpoint le_bytes (n : nat) (z : Z) : list Z :=
  match n with
  | O => []
  | S n => z mod 256 :: le_bytes n (z / 256)
  end.

Fixpoint le_val (bs : list Z) : Z :=
  match bs with
  | [] => 0
  | b :: bs => b + 256 * le_val bs
  end.

Definition be_bytes (n : nat) (z : Z) : list Z := rev (le_bytes n z).
Definition be_val (bs : list Z) : Z := le_val (rev bs).

Lemma le_bytes_length n z : length (le_bytes n z) = n.
Proof. revert z; induction n; intros; simpl; auto. Qed.

Lemma le_bytes_ok n z : bytes_ok (le_bytes n z).
Proof.
  revert z; induction n; intros; simpl; constructor; auto.
  apply Z.mod_pos_bound; lia.
Qed.

Lemma le_val_bytes n z : le_val (le_bytes n z) = z mod 256 ^ Z.of_nat n.
Proof.
  revert z; induction n as [|n IH]; intros z.
  - by rewrite Z.mod_1_r.
  - cbn [le_bytes le_val]; rewrite IH, Nat2Z.inj_succ, Z.pow_succ_r by lia.
    rewrite Z.rem_mul_r by (try apply Z.pow_nonzero; lia). lia.
Qed.

Lemma le_val_range bs : bytes_ok bs -> 0 <= le_val bs < 256 ^ Z.of_nat (length bs).
Proof.
  induction 1 as [|b bs Hb _ IH]; simpl le_val.
  - simpl; lia.
  - cbn [length]; rewrite Nat2Z.inj_succ, Z.pow_succ_r by lia.
    unfold is_byte in Hb; nia.
Qed.

Lemma le_val_app a b : le_val (a ++ b) = le_val a + 256 ^ Z.of_nat (length a) * le_val b.
Proof.
  induction a as [|x a IH]; [simpl; lia|].
  cbn [app le_val length]; rewrite IH, Nat2Z.inj_succ, Z.pow_succ_r by lia; ring.
Qed.

Lemma le_bytes_val bs : bytes_ok bs -> le_bytes (length bs) (le_val bs) = bs.
Proof.
  induction 1 as [|b bs Hb Hbs IH]; [done|].
  cbn [length le_bytes le_val]; unfold is_byte in Hb.
  f_equal.
  - rewrite Z.mul_comm, Z.mod_add, Z.mod_small; lia.
  - rewrite Z.mul_comm, Z.div_add, Z.div_small by lia; rewrite Z.add_0_l; done.
Qed.

Lemma le_bytes_app a b z :
  le_bytes (a + b) z = le_bytes a z ++ le_bytes b (z / 256 ^ Z.of_nat a).
Proof.
  revert z; induction a as [|a IH]; intros z; [by rewrite Z.div_1_r|].
  cbn [Nat.add le_bytes app]; rewrite IH, Nat2Z.inj_succ, Z.pow_succ_r by lia.
  rewrite Z.div_div by (try apply Z.pow_pos_nonneg; lia); done.
Qed.

Lemma le_val_zero bs : bytes_ok bs -> le_val bs = 0 <-> Forall (fun b => b = 0) bs.
Proof.
  induction 1 as [|b bs Hb Hbs IH]; [done|]; pose proof (le_val_range bs Hbs).
  unfold is_byte in Hb; cbn [le_val]; rewrite Forall_cons, <- IH; lia.
Qed.

Lemma be_val_bytes n z : be_val (be_bytes n z) = z mod 256 ^ Z.of_nat n.
Proof. unfold be_val, be_bytes; rewrite rev_involutive; apply le_val_bytes. Qed.

Lemma be_bytes_length n z : length (be_bytes n z) = n.
Proof. unfold be_bytes; rewrite length_rev; apply le_bytes_length. Qed.

(** ** Lists and queues *)

(** [std::queue::pop] after [front]; [None] is the undefined behaviour of an
    empty queue. *)
Definition front_pop {A} (q : list A) : option (A * list A) :=
  match q with
  | [] => None
  | x :: q => Some (x, q)
  end.

Lemma front_pop_Some {A} (q : list A) x q' :
  front_pop q = Some (x, q') <-> q = x :: q'.
Proof. destruct q; simpl; split; intros; simplify_eq; done. Qed.

Lemma filter_nil_Forall {A} (f : A -> bool) l :
  Forall (fun x => f x = false) l -> List.filter f l = [].
Proof. induction 1 as [|x l H _ IH]; simpl; [done|]; by rewrite H. Qed.

Create HintDb aeg.
#[export] Hint Resolve wrap_u_range wrap_u_idemp wrap_s_range pow2_pos
  le_bytes_ok le_bytes_length : aeg.
