(* ===== verification/ApiTypes.v ===== *)
(** The data model shared by the runtime: the error codes of
    [aeg_api_message.h] and [aeg_baremetal_api.h], the configuration structures
    the graph compiler emits ([aeg_api_config.h]) and the DMA buffer descriptor
    of [aeg_aie_control_api.h].  Integer fields are [Z]; the width of a field is
    applied where the code casts it. *)
From stdpp Require Import base list strings.
From Stdlib Require Import ZArith Lia.
From S2P Require Import Prelude.
Local Open Scope Z_scope.

(** * Error codes *)

(** [src/include/common_layer/aeg_api_message.h:26-32] [abr::err_code] *)
Inductive err_code :=
| ok
| user_error
| internal_error
| aie_driver_error
| resource_unavailable.

#[export] Instance err_code_eq_dec : EqDecision err_code.
Proof. solve_decision. Defined.

Definition is_ok (e : err_code) : bool := bool_decide (e = ok).

(** [src/include/common_layer/aeg_api_message.h:57-61] [aeg_api_message::errorMsg]
    The message is dropped, the code is returned. *)
Definition errorMsg (code : err_code) : err_code := code.

(** [src/include/aeg_baremetal_api.h:39-51] [aeg::aeg_err]
    The public error type: the runtime's codes and the argument and state
    errors of the public API. *)
Inductive aeg_err :=
| aeg_ok
| aeg_user_error
| aeg_internal_error
| aeg_aie_driver_error
| aeg_resource_unavailable
| aeg_invalid_state
| aeg_null_argument
| aeg_invalid_length
| aeg_invalid_name
| aeg_backend_not_ready
| aeg_postcondition_failed.

#[export] Instance aeg_err_eq_dec : EqDecision aeg_err.
Proof. solve_decision. Defined.

Definition aeg_is_ok (e : aeg_err) : bool := bool_decide (e = aeg_ok).

(** * Device and compiler configuration *)

(** [src/include/common_layer/aeg_api_config.h:30-50] [driver_config] *)
Record driver_config := {
  hw_gen : Z;
  base_address : Z;
  column_shift : Z;
  row_shift : Z;
  num_columns : Z;
  num_rows : Z;
  shim_row : Z;
  mem_row_start : Z;
  mem_num_rows : Z;
  aie_tile_row_start : Z;
  aie_tile_num_rows : Z;
  partition_num_cols : Z;
  partition_overlay_start_cols : list Z
}.

(** [src/include/common_layer/aeg_api_config.h:52-55] [aiecompiler_options] *)
Record aiecompiler_options := {
  opt_broadcast_enable_core : bool;
  event_trace : string
}.

(** [src/include/common_layer/aeg_api_config.h:57-74] [graph_config] *)
Record graph_config := {
  gc_id : Z;
  gc_name : string;
  coreColumns : list Z;
  coreRows : list Z;
  iterMemColumns : list Z;
  iterMemRows : list Z;
  iterMemAddrs : list Z;
  triggered : list Z;
  broadcast_column : Z
}.

(** [src/include/common_layer/aeg_api_config.h:76-80] [aiecompiler_config] *)
Record aiecompiler_config := {
  cfg_broadcast_enable_core : bool;
  graph_iterator_event : bool;
  enable_multi_layer : bool
}.

(** * Ports, buffers and DMA *)

(** [src/include/common_layer/aeg_api_config.h:83-122] [rtp_config::elementType] *)
Inductive elementType :=
| et_voidty | et_int4 | et_int8 | et_int16 | et_int32 | et_int64
| et_uint4 | et_uint8 | et_uint16 | et_uint32 | et_uint64
| et_cint16 | et_cint32 | et_float | et_cfloat | et_cbfloat16 | et_double
| et_bfp16ebs8 | et_bfp16ebs16 | et_mx9 | et_mx4 | et_mx6 | et_mx6b
| et_mxint8 | et_mxfp4 | et_mxfp6 | et_mxfp8
| et_bfloat16 | et_float16 | et_bfloat8 | et_float8 | et_float6 | et_float4
| et_bool | et_int1 | et_int2 | et_uint1 | et_uint2.

(** [src/include/common_layer/aeg_api_config.h:82-148] [rtp_config] *)
Record rtp_config := {
  portId : Z;
  aliasId : Z;
  portName : string;
  aliasName : string;
  rtp_graphId : Z;
  isInput : bool;
  isAsync : bool;
  isConnect : bool;
  rtp_numBytes : Z;
  isPL : bool;
  hasLock : bool;
  selectorColumn : Z;
  selectorRow : Z;
  selectorAddr : Z;
  selectorLockId : Z;
  pingColumn : Z;
  pingRow : Z;
  pingAddr : Z;
  pingLockId : Z;
  pongColumn : Z;
  pongRow : Z;
  pongAddr : Z;
  pongLockId : Z
}.

(** [src/include/common_layer/aeg_api_config.h:150-180] [shared_buffer_config] *)
Record shared_buffer_config := {
  sb_id : Z;
  sb_name : string;
  sb_graphId : Z;
  sb_numBytes : Z;
  sb_column : Z;
  sb_row : Z;
  numInputs : Z;
  numOutputs : Z;
  elemType : elementType;
  initialized : bool;
  sb_addr : list Z;
  producerLocks : list Z;
  consumerLocks : list Z
}.

(** [src/include/common_layer/aeg_api_config.h:183-183] [gmio_config::gmio_type] *)
Inductive gmio_type := gm2aie | aie2gm | gm2pl | pl2gm.

#[export] Instance gmio_type_eq_dec : EqDecision gmio_type.
Proof. solve_decision. Defined.

(** [src/include/common_layer/aeg_api_config.h:182-203] [gmio_config] *)
Record gmio_config := {
  gmio_id : Z;
  gmio_name : string;
  gmio_logicalName : string;
  type : gmio_type;
  shimColumn : Z;
  channelNum : Z;
  streamId : Z;
  burstLength : Z
}.

(** [src/include/common_layer/aeg_api_config.h:205-211] [kernel_config] *)
Record kernel_config := {
  kernel_id : Z;
  kernel_hierarchicalGraphIds : list Z;
  kernel_column : Z;
  kernel_row : Z
}.

(** [src/include/common_layer/aeg_api_config.h:213-219] [dma_config] *)
Record dma_config := {
  dma_column : Z;
  dma_row : Z;
  dma_hierarchicalGraphIds : list Z;
  dma_channel : list Z
}.

(** [src/include/common_layer/aeg_api_config.h:221-234] [plio_config] *)
Record plio_config := {
  plio_id : Z;
  plio_name : string;
  plio_logicalName : string;
  plio_shimColumn : Z;
  slaveOrMaster : Z;
  plio_streamId : Z
}.

(** [src/include/common_layer/aeg_api_config.h:236-245] [trace_unit_config] *)
Record trace_unit_config := {
  trace_column : Z;
  trace_row : Z;
  trace_module : Z;
  packetId : Z
}.

(** [src/include/common_layer/aeg_api_config.h:247-256] [shimBDInfo] *)
Record shimBDInfo := {
  bd_id : Z;
  buf_idx : Z;
  offset : Z;
  transaction_size : Z
}.

(** [src/include/common_layer/aeg_api_config.h:258-281] [shim_port_config] *)
Record shim_port_config := {
  sp_portId : Z;
  sp_portName : string;
  sp_column : Z;
  S2MMOrMM2S : Z;
  sp_channel : Z;
  taskRepetition : Z;
  enable_task_complete_token : bool;
  shimBDInfos : list shimBDInfo
}.

(** [src/include/common_layer/aeg_api_config.h:283-296] [external_buffer_config] *)
Record external_buffer_config := {
  eb_id : Z;
  eb_name : string;
  shimPortConfigs : list shim_port_config
}.

(** [src/include/common_layer/aeg_api_config.h:298-304] [partition_config] *)
Record partition_config := {
  startColumn : Z;
  numColumns : Z;
  uuid : string;
  aie_pl_intf_id : Z;
  name_space : string
}.

(** [src/include/common_layer/aeg_aie_control_api.h:36-80] [dma_api::buffer_descriptor] *)
Record buffer_descriptor := {
  address : Z;
  bd_length : Z;
  stepsize : list Z;
  wrap : list Z;
  padding : list (Z * Z);
  enable_packet : bool;
  packet_id : Z;
  out_of_order_bd_id : Z;
  tlast_suppress : bool;
  iteration_stepsize : Z;
  iteration_wrap : Z;
  iteration_current : Z;
  enable_compression : bool;
  lock_acq_enable : bool;
  lock_acq_value : Z;
  lock_acq_id : Z;
  lock_rel_value : Z;
  lock_rel_id : Z;
  use_next_bd : bool;
  next_bd : Z;
  burst_length : Z
}.
