(* ===== verification/Driver.v ===== *)
(** The boundary to code outside the repository: the AIE driver (aie-rt,
    [XAie_*]), the standalone BSP register accessors ([Xil_In32]/[Xil_Out32])
    and [usleep].

    A call is a value of [call]; the environment is the parameter [drv], which
    answers a call from the whole history of calls and answers so far.  Every
    theorem that quantifies over [AieRt] therefore holds for every device,
    whatever state it keeps.  The runtime's code is written in the monad [M],
    which threads the history and has one failure, [None]: a polling loop that
    used up its fuel without leaving, or an operation C++ leaves undefined (a null
    dereference, the front of an empty queue). *)
From stdpp Require Import base list strings.
From Stdlib Require Import ZArith Lia.
From S2P Require Import Prelude.
Local Open Scope Z_scope.

(** * Calls and answers *)

(** A tile location; [XAie_TileLoc] takes two [u8]. *)
Record loc := mkLoc { Col : Z; Row : Z }.
Definition XAie_TileLoc (col row : Z) : loc := mkLoc (u8 col) (u8 row).

(** A lock; [XAie_LockInit] takes a [u16] id and an [s8] value. *)
Record lock := mkLock { LockId : Z; LockVal : Z }.
Definition XAie_LockInit (id val : Z) : lock := mkLock (u16 id) (s8 val).

Inductive xmodule := XAIE_CORE_MOD | XAIE_PL_MOD | XAIE_MEM_MOD.
Inductive xevent :=
| XAIE_EVENT_NONE_CORE
| XAIE_EVENT_BROADCAST_7_CORE
| XAIE_EVENT_BROADCAST_A_8_PL.
(** Events of the PL module of a shim tile; a numbered event carries its number. *)
Inductive pl_event :=
| XAIE_EVENT_PORT_RUNNING_PL (i : Z)
| XAIE_EVENT_PORT_IDLE_PL (i : Z)
| XAIE_EVENT_BROADCAST_A_PL (i : Z)
| XAIE_EVENT_PERF_CNT_1_PL
| XAIE_EVENT_USER_EVENT_0_PL.
(** Broadcast switches of a shim tile and the directions an event leaves them. *)
Inductive bcast_switch := XAIE_EVENT_SWITCH_A | XAIE_EVENT_SWITCH_B.
Inductive bcast_dir := BROADCAST_SOUTH | BROADCAST_WEST | BROADCAST_NORTH | BROADCAST_EAST.
Inductive pad_pos := DMA_ZERO_PADDING_BEFORE | DMA_ZERO_PADDING_AFTER.

Definition DMA_S2MM : Z := 0.
Definition DMA_MM2S : Z := 1.

(** The calls the modelled code makes.  A pointer to a driver-owned object (a
    DMA descriptor) is the [Z] that identifies it; a pointer to data carries
    the data; an output parameter is part of the answer. *)
Inductive call :=
(* cores and timers *)
| XAie_ReadTimer (l : loc) (m : xmodule)
| XAie_WaitCycles (l : loc) (m : xmodule) (cycles : Z)
| XAie_StartTransaction
| XAie_SubmitTransaction
| XAie_ClearCoreDisableEventOccurred (l : loc)
| XAie_CoreConfigureEnableEvent (l : loc) (e : xevent)
| XAie_EventGenerate (l : loc) (m : xmodule) (e : xevent)
| XAie_CoreEnable (l : loc)
| XAie_CoreDisable (l : loc)
| XAie_CoreWaitForDone (l : loc) (timeout : Z)
| XAie_CoreReadDoneBit (l : loc)
(* data memory and locks *)
| XAie_DataMemWrWord (l : loc) (addr data : Z)
| XAie_DataMemRdWord (l : loc) (addr : Z)
| XAie_DataMemBlockWrite (l : loc) (addr : Z) (data : list Z) (size : Z)
| XAie_DataMemBlockRead (l : loc) (addr size : Z)
| XAie_LockAcquire (l : loc) (k : lock) (timeout : Z)
| XAie_LockRelease (l : loc) (k : lock) (timeout : Z)
| XAie_LockSetValue (l : loc) (k : lock)
(* DMA *)
| XAie_DmaDescInit (desc : Z) (l : loc)
| XAie_DmaSetAxi (desc smid burst qos cache secure : Z)
| XAie_DmaSetAddrLen (desc addr len : Z)
| XAie_DmaSetMultiDimAddr (desc : Z) (dims : list (Z * Z)) (addr len : Z)
| XAie_DmaSetZeroPadding (desc dim : Z) (pos : pad_pos) (n : Z)
| XAie_DmaSetPkt (desc pkt_id pkt_type : Z)
| XAie_DmaSetOutofOrderBdId (desc id : Z)
| XAie_DmaTlastDisable (desc : Z)
| XAie_DmaSetBdIteration (desc step wrap cur : Z)
| XAie_DmaEnableCompression (desc : Z)
| XAie_DmaSetLock (desc : Z) (acq rel : lock)
| XAie_DmaSetNextBd (desc next enable : Z)
| XAie_DmaEnableBd (desc : Z)
| XAie_DmaWriteBd (desc : Z) (l : loc) (bd : Z)
| XAie_DmaUpdateBdAddr (l : loc) (addr bd : Z)
| XAie_DmaChannelEnable (l : loc) (ch dir : Z)
| XAie_DmaGetMaxQueueSize (l : loc)
| XAie_DmaGetPendingBdCount (l : loc) (ch dir : Z)
| XAie_DmaChannelPushBdToQueue (l : loc) (ch dir bd : Z)
| XAie_DmaChannelSetStartQueue (l : loc) (ch dir bd repeat token : Z)
| XAie_DmaWaitForDone (l : loc) (ch dir timeout : Z)
(* host memory *)
| XAie_MemAllocate (size : Z)
| XAie_MemFreeVAddr (vaddr : Z)
| XAie_MemSyncForCPUVAddr (vaddr size : Z)
| XAie_MemSyncForDevVAddr (vaddr size : Z)
| XAie_MemGetDevAddrFromVAddr (vaddr : Z)
(* memory instances: [XAie_MemAllocate] answering the instance, and the bytes the
   host stores and loads in shared memory *)
| mem_allocate_inst (size : Z)
| XAie_MemGetVAddr (mi : Z)
| XAie_MemGetDevAddr (mi : Z)
| XAie_MemSyncForCPU (mi : Z)
| XAie_MemSyncForDev (mi : Z)
| XAie_MemFree (mi : Z)
| cpu_store (addr : Z) (data : list Z)
| cpu_load (addr size : Z)
| smp_wmb
(* microcontrollers, through the function pointers of the device description *)
| uc_tile_type (l : loc)
| uc_wakeup (l : loc)
| uc_core_status (l : loc)
| XAie_LoadUcMem (l : loc)
(* host memory of the process-to-process backend, through function pointers *)
| ipc_alloc_host (size : Z)
| ipc_free_host (host : Z)
| ipc_dev_addr (host : Z)
| ipc_write_gm (addr host size : Z)
| ipc_read_gm (addr host size : Z)
(* the rest of that backend, found by name, and the simulator's own entry points *)
| ipc_backend_get_fd
| ipc_backend_connect (path : string)
| ipc_backend_disconnect (code : Z)
| ipc_graph_init_ipc (name : string) (len : Z)
| aiesim_StartPlios
| XAie_UpdateNpiAddr (addr : Z)
(* interrupts of the Zephyr kernel and its UART driver *)
| irq_disable (irq : Z)
| irq_enable (irq : Z)
| uart_irq_rx_disable
| uart_irq_tx_disable
| uart_irq_callback_set
| uart_irq_rx_enable
(* device set-up, clocks and logs *)
| XAie_SetupPartitionConfig (base start_col num_cols : Z)
| XAie_CfgInitialize (cfg : list Z)
| fal_util_initialize
| XAie_Finish
| XAie_PmSetColumnClk (start_col num_cols enable : Z)
| rlog (row col : Z)
(* error reports: the two backtracking calls and the application's callback *)
| XAie_BacktrackErrorInterrupts (start_col num_cols size : Z)
| XAie_BacktrackErrorInterruptsCb
| error_handler (cb : Z) (payloads : list Z) (priv : Z)
(* exceptions and the interrupt controller of the standalone BSP *)
| Xil_ExceptionInit
| Xil_ExceptionDisable
| Xil_ExceptionEnable
| Xil_ExceptionRegisterHandler
| XScuGic_DeviceInitialize
| XScuGic_LookupConfig
| XScuGic_CfgInitialize
| XScuGic_Connect (irq : Z)
| XScuGic_Enable (irq : Z)
| XScuGic_Disable (irq : Z)
(* resources of the function abstraction layer: objects are made, reserved and released *)
| fal_sswitchPort (col row : Z)
| fal_perfCounter (col row : Z)
| fal_broadcast (tiles : list loc)
| fal_reserve (obj : Z)
| fal_getRscId (obj : Z)
| fal_getBc (obj : Z)
| fal_getChannel (obj : Z)
| fal_release (obj : Z)
(* performance counters, stream-port events and event broadcast of the PL module *)
| XAie_EventSelectStrmPort (l : loc) (id : Z) (master : bool) (port : Z)
| XAie_EventSelectStrmPortReset (l : loc) (id : Z)
| XAie_EventPCReset (l : loc) (id : Z)
| XAie_PerfCounterControlSet (l : loc) (counter : Z) (start stop : pl_event)
| XAie_PerfCounterEventValueSet (l : loc) (counter value : Z)
| XAie_PerfCounterGet (l : loc) (module counter : Z)
| XAie_PerfCounterReset (l : loc) (module counter : Z)
| XAie_PerfCounterResetControlReset (l : loc) (module counter : Z)
| XAie_EventBroadcast (l : loc) (id : Z) (e : pl_event)
| XAie_EventBroadcastReset (l : loc) (id : Z)
| XAie_EventBroadcastBlockMapDir (l : loc) (sw : bcast_switch) (mask : Z) (dirs : list bcast_dir)
| XAie_EventBroadcastUnblockDir (l : loc) (sw : bcast_switch) (id : Z) (dirs : list bcast_dir)
| XAie_EventGenerate_PL (l : loc) (e : pl_event)
(* event generation by number, tile power, error handling, the console *)
| XAie_EventGenerate_ord (l : loc) (m : xmodule) (ord : Z)
| XAie_PmRequestTiles
| XAie_ErrorHandlingInit
| getchar
(* registers through the driver, tile offsets, the data cache *)
| XAie_GetTileAddr (row col : Z)
| XAie_Write32 (addr val : Z)
| XAie_Read32 (addr : Z)
| Xil_DCacheFlushRange (addr len : Z)
| Xil_DCacheInvalidateRange (addr len : Z)
| XTime_GetTime
(* memory attributes and mappings *)
| Xil_SetMPURegion (addr size attrib : Z)
| k_mem_map_phys_bare (phys size flags : Z)
(* registers and time *)
| Xil_Out32 (addr val : Z)
| Xil_In32 (addr : Z)
| usleep (us : Z).

(** An answer: the return code, the scalar output parameter and the bytes of a
    block output parameter. *)
Record resp := mkResp { rc : Z; out : Z; outb : list Z }.

Definition event : Type := call * resp.
Abbreviation hist := (list event).

(** What the runtime uses of the driver: its behaviour and the constants of its
    headers.  [XAIE_OK] is zero. *)
Class AieRt := {
  drv : hist -> call -> resp;
  XAIE_ERR : Z;
  XAIE_CORE_STATUS_TIMEOUT : Z;
  XAIE_LOCK_WITH_NO_VALUE : Z;
  XAIE_DEV_GEN_AIE : Z;
  XAIE_DEV_GEN_AIEML : Z;
  XAIE_DEV_GEN_S100 : Z;
  XAIE_DEV_GEN_S200 : Z
}.

Definition XAIE_OK : Z := 0.

(** * The monad *)

Definition M (A : Type) : Type := hist -> option (A * hist).

Definition ret {A} (a : A) : M A := fun h => Some (a, h).
Definition bind {A B} (m : M A) (k : A -> M B) : M B := fun h =>
  match m h with
  | Some (a, h') => k a h'
  | None => None
  end.
Definition out_of_fuel {A} : M A := fun _ => None.
Definition undefined {A} : M A := fun _ => None.

Notation "x <-- m ;; k" := (bind m (fun x => k))
  (at level 100, m at next level, right associativity) : aeg_scope.
Notation "'let*' p := m 'in' k" := (bind m (fun x => let p := x in k))
  (at level 100, p pattern, m at next level, right associativity) : aeg_scope.
Notation "m ;;; k" := (bind m (fun _ => k))
  (at level 100, right associativity) : aeg_scope.
Local Open Scope aeg_scope.

Section Exec.
Context `{rt : AieRt}.

Definition exec (c : call) : M resp := fun h =>
  let r := drv h c in Some (r, h ++ [(c, r)]).

(** [static_cast<void>(c)] *)
Definition exec_ (c : call) : M unit := exec c ;;; ret tt.

(** [driverStatus |= static_cast<uint32_t>(c)] *)
Definition status (c : call) (ds : Z) : M Z :=
  r <-- exec c ;; ret (Z.lor ds (u32 (rc r))).

(** the same for a call with an output parameter *)
Definition status_out (c : call) (ds : Z) : M (resp * Z) :=
  r <-- exec c ;; ret (r, Z.lor ds (u32 (rc r))).

(** A counted loop over a list, with an accumulator. *)
Fixpoint for_each {A B} (f : A -> B -> M B) (l : list A) (b : B) : M B :=
  match l with
  | [] => ret b
  | a :: l => b' <-- f a b ;; for_each f l b'
  end.

(** [do r = c; while (!stop(r))], accumulating the status codes. *)
Fixpoint poll_until (fuel : nat) (c : call) (stop : resp -> bool) (ds : Z)
  : M (resp * Z) :=
  match fuel with
  | O => out_of_fuel
  | S fuel =>
      let* (r, ds') := status_out c ds in
      if stop r then ret (r, ds') else poll_until fuel c stop ds'
  end.

(** The events a fixed sequence of calls produces. *)
Fixpoint events (h : hist) (cs : list call) : list event :=
  match cs with
  | [] => []
  | c :: cs => (c, drv h c) :: events (h ++ [(c, drv h c)]) cs
  end.

(** The history after a fixed sequence of calls. *)
Definition after (h : hist) (cs : list call) : hist := h ++ events h cs.

(** The disjunction of the codes of such a sequence. *)
Fixpoint codes (ds : Z) (h : hist) (cs : list call) : Z :=
  match cs with
  | [] => ds
  | c :: cs => codes (Z.lor ds (u32 (rc (drv h c)))) (after h [c]) cs
  end.

(** Every call of the sequence is answered with [XAIE_OK]. *)
Fixpoint all_ok (h : hist) (cs : list call) : Prop :=
  match cs with
  | [] => True
  | c :: cs => u32 (rc (drv h c)) = XAIE_OK /\ all_ok (after h [c]) cs
  end.
End Exec.

(** * Laws of the monad and of the loops *)

Lemma bind_Some {A B} (m : M A) (k : A -> M B) h a h' :
  m h = Some (a, h') -> bind m k h = k a h'.
Proof. intros H; unfold bind; by rewrite H. Qed.

Lemma bind_assoc {A B C} (m : M A) (k : A -> M B) (k' : B -> M C) h :
  bind (bind m k) k' h = bind m (fun x => bind (k x) k') h.
Proof. unfold bind; destruct (m h) as [[a h']|]; done. Qed.

Lemma bind_inv {A B} (m : M A) (k : A -> M B) h b h'' :
  bind m k h = Some (b, h'') ->
  exists a h', m h = Some (a, h') /\ k a h' = Some (b, h'').
Proof. unfold bind; intros H; destruct (m h) as [[a h']|]; naive_solver. Qed.

Section ExecFacts.
Context `{rt : AieRt}.

Lemma events_length h cs : length (events h cs) = length cs.
Proof. revert h; induction cs; intros; simpl; auto. Qed.

Lemma events_calls h cs : map fst (events h cs) = cs.
Proof. revert h; induction cs; intros; simpl; f_equal; auto. Qed.

Lemma events_app h cs cs' :
  events h (cs ++ cs') = events h cs ++ events (after h cs) cs'.
Proof.
  unfold after; revert h; induction cs as [|c cs IH]; intros h; simpl.
  - by rewrite app_nil_r.
  - rewrite IH, <- app_assoc; done.
Qed.

Lemma after_nil h : after h [] = h.
Proof. unfold after; simpl; apply app_nil_r. Qed.

Lemma after_app h cs cs' : after (after h cs) cs' = after h (cs ++ cs').
Proof. unfold after; rewrite events_app, app_assoc; done. Qed.

Lemma after_calls h cs : map fst (after h cs) = map fst h ++ cs.
Proof. unfold after; rewrite map_app, events_calls; done. Qed.

Lemma codes_app ds h cs cs' :
  codes ds h (cs ++ cs') = codes (codes ds h cs) (after h cs) cs'.
Proof.
  revert ds h; induction cs as [|c cs IH]; intros ds h; simpl.
  - by rewrite after_nil.
  - rewrite IH, after_app; done.
Qed.

Lemma all_ok_app h cs cs' :
  all_ok h (cs ++ cs') <-> all_ok h cs /\ all_ok (after h cs) cs'.
Proof.
  revert h; induction cs as [|c cs IH]; intros h; simpl.
  - rewrite after_nil; tauto.
  - rewrite IH, after_app; tauto.
Qed.

(** [driverStatus] ends as [XAIE_OK] exactly when every call returned it. *)
Lemma codes_zero ds h cs : codes ds h cs = XAIE_OK <-> ds = XAIE_OK /\ all_ok h cs.
Proof.
  revert ds h; induction cs as [|c cs IH]; intros ds h; simpl; [tauto|].
  rewrite IH; unfold XAIE_OK; rewrite lor_zero_iff; tauto.
Qed.

Lemma exec_eq c h : exec c h = Some (drv h c, after h [c]).
Proof. done. Qed.

Lemma exec__eq c h : exec_ c h = Some (tt, after h [c]).
Proof. done. Qed.

Lemma status_eq c ds h : status c ds h = Some (codes ds h [c], after h [c]).
Proof. done. Qed.

Lemma status_out_eq c ds h :
  status_out c ds h = Some ((drv h c, codes ds h [c]), after h [c]).
Proof. done. Qed.

(** A counted loop of status calls performs the calls in order and returns the
    disjunction of their codes. *)
Lemma for_each_status {A} (f : A -> call) l ds h :
  for_each (fun a ds => status (f a) ds) l ds h =
  Some (codes ds h (map f l), after h (map f l)).
Proof.
  revert ds h; induction l as [|a l IH]; intros ds h; simpl.
  - by rewrite after_nil.
  - rewrite (bind_Some _ _ _ _ _ (status_eq _ _ _)), IH, after_app; done.
Qed.

(** A counted loop whose body performs a fixed block of calls. *)
Lemma for_each_block {A} (body : A -> M unit) (f : A -> list call) l h :
  (forall a h, body a h = Some (tt, after h (f a))) ->
  for_each (fun a _ => body a) l tt h = Some (tt, after h (flat_map f l)).
Proof.
  intros Hb; revert h; induction l as [|a l IH]; intros h; simpl.
  - by rewrite after_nil.
  - rewrite (bind_Some _ _ _ _ _ (Hb _ _)), IH, after_app; done.
Qed.

Lemma for_each_exec_ {A} (f : A -> call) l h :
  for_each (fun a _ => exec_ (f a)) l tt h = Some (tt, after h (map f l)).
Proof.
  rewrite (for_each_block _ (fun a => [f a])) by (intros; apply exec__eq).
  do 3 f_equal; induction l; simpl; congruence.
Qed.

(** A polling loop leaves at the first answer that stops it: what it returns,
    the history it leaves, and that the earlier answers did not stop it. *)
Lemma poll_until_first k fuel c stop ds h :
  (k < fuel)%nat ->
  (forall j, (j < k)%nat -> stop (drv (after h (replicate j c)) c) = false) ->
  stop (drv (after h (replicate k c)) c) = true ->
  poll_until fuel c stop ds h =
    Some ((drv (after h (replicate k c)) c, codes ds h (replicate (S k) c)),
          after h (replicate (S k) c)).
Proof.
  revert fuel ds h; induction k as [|k IH]; intros [|fuel] ds h Hk Hbefore Hstop;
    try lia; cbn [poll_until]; rewrite (bind_Some _ _ _ _ _ (status_out_eq _ _ _)).
  - simpl in *; rewrite after_nil in *; rewrite Hstop; done.
  - pose proof (Hbefore O ltac:(lia)) as H0; simpl in H0; rewrite after_nil in H0.
    rewrite H0, (IH fuel), !after_app; [done|lia| |].
    + intros j Hj; rewrite after_app; apply (Hbefore (S j)); lia.
    + rewrite after_app; done.
Qed.

(** Whatever the fuel, a loop that returns did so at such an answer. *)
Lemma poll_until_inv fuel c stop ds h r ds' h' :
  poll_until fuel c stop ds h = Some ((r, ds'), h') ->
  exists k, (k < fuel)%nat /\ r = drv (after h (replicate k c)) c /\ stop r = true /\
    (forall j, (j < k)%nat -> stop (drv (after h (replicate j c)) c) = false) /\
    h' = after h (replicate (S k) c) /\ ds' = codes ds h (replicate (S k) c).
Proof.
  revert ds h; induction fuel as [|fuel IH]; intros ds h; [done|].
  cbn [poll_until]; rewrite (bind_Some _ _ _ _ _ (status_out_eq _ _ _)).
  destruct (stop (drv h c)) eqn:Hs; intros H.
  - unfold ret in H; simplify_eq; exists O; simpl; rewrite after_nil.
    repeat split; try done; [lia|intros; lia].
  - destruct (IH _ _ H) as (k & Hk & -> & Hstop & Hb & -> & ->).
    rewrite after_app in *; exists (S k); repeat split; try done; [lia| |].
    + intros [|j] Hj; simpl; [rewrite after_nil; done|].
      specialize (Hb j ltac:(lia)); rewrite after_app in Hb; done.
    + rewrite after_app; done.
Qed.

(** The environment eventually stops the loop: within [n] repetitions of the
    call some answer satisfies [stop]. *)
Definition stops_within (n : nat) (c : call) (stop : resp -> bool) : Prop :=
  forall h, exists k, (k <= n)%nat /\ stop (drv (after h (replicate k c)) c) = true.

Lemma poll_until_total n fuel c stop ds h :
  stops_within n c stop -> (n < fuel)%nat ->
  exists r ds' h', poll_until fuel c stop ds h = Some ((r, ds'), h').
Proof.
  intros Hs Hfuel; destruct (Hs h) as (k & Hk & Hstop).
  assert (Hleast : exists k0, (k0 <= k)%nat /\
      stop (drv (after h (replicate k0 c)) c) = true /\
      forall j, (j < k0)%nat -> stop (drv (after h (replicate j c)) c) = false).
  { clear Hk; induction k as [k IH] using lt_wf_ind.
    destruct (List.existsb (fun j => stop (drv (after h (replicate j c)) c)) (seq 0 k)) eqn:E.
    - apply existsb_exists in E as (j & Hj & Hsj); apply in_seq in Hj.
      destruct (IH j ltac:(lia) Hsj) as (k0 & ? & ? & ?); exists k0; split; [lia|done].
    - exists k; split; [lia|split; [done|]]; intros j Hj.
      destruct (stop (drv (after h (replicate j c)) c)) eqn:Ej; [|done].
      exfalso; rewrite <- not_true_iff_false in E; apply E, existsb_exists.
      exists j; split; [apply in_seq; lia|done]. }
  destruct Hleast as (k0 & Hk0 & Hst & Hbefore).
  rewrite (poll_until_first k0) by (done || lia); eauto.
Qed.
End ExecFacts.

(** * Automation

    [run_m] runs the straight-line part of a monadic program, leaving the
    history as [after h calls] and the status as [codes 0 h calls]. *)
Create Rewrite HintDb drv.
#[export] Hint Rewrite @status_eq @exec__eq @exec_eq @status_out_eq
  @for_each_status @for_each_exec_ @after_app @after_nil : drv.

Ltac run_step :=
  match goal with
  | |- context [bind (bind ?m ?k) ?k' ?h] => rewrite (bind_assoc m k k' h)
  | |- context [bind (ret ?a) ?k ?h] =>
      change (bind (ret a) k h) with (k a h)
  | |- context [bind ?m ?k ?h] =>
      let H := fresh in
      eassert (m h = Some _) as H by (autorewrite with drv; reflexivity);
      rewrite (bind_Some m k h _ _ H); clear H; cbv beta iota
  end.
Ltac run_m := repeat (run_step; cbv beta iota).

(** * A concrete environment

    A device that answers every call with success and zero, used to evaluate the
    model on concrete inputs. *)
Definition ok_rt : AieRt := {|
  drv := fun _ _ => mkResp 0 0 [];
  XAIE_ERR := 1;
  XAIE_CORE_STATUS_TIMEOUT := 12;
  XAIE_LOCK_WITH_NO_VALUE := -1;
  XAIE_DEV_GEN_AIE := 1;
  XAIE_DEV_GEN_AIEML := 2;
  XAIE_DEV_GEN_S100 := 6;
  XAIE_DEV_GEN_S200 := 7
|}.
