(* ===== verification/GraphApi.v ===== *)
(** The graph controller: [config_manager] and the run/wait/resume/end
    operations of [graph_api] ([src/common_layer/aeg_runtime_api.cpp]).

    A graph owns a set of AIE cores.  Running it writes an iteration count into
    each core's data memory and enables the cores; waiting polls the cores'
    done status and disables them; ending raises the end signal next to the
    iteration count and lets every core run once more. *)
From stdpp Require Import base list strings.
From Stdlib Require Import ZArith Lia.
From S2P Require Import Prelude ApiTypes Driver.
Local Open Scope Z_scope.
Local Open Scope aeg_scope.

(** * State *)

(** The device instance; [DevProp.DevGen] is the only field the runtime reads. *)
Record DevInst := { DevGen : Z }.

(** [src/include/common_layer/aeg_runtime_api.h:28-45] [config_manager] *)
Record config_manager := {
  s_pDevInst : option DevInst;
  s_bInitialized : bool;
  s_num_reserved_rows : Z;
  s_broadcast_enable_core : bool
}.

(** [src/common_layer/aeg_runtime_api.cpp:91-94] [config_manager::s_pDevInst] *)
Definition config_manager_initial : config_manager :=
  {| s_pDevInst := None; s_bInitialized := false;
     s_num_reserved_rows := 0; s_broadcast_enable_core := false |}.

(** [src/common_layer/aeg_runtime_api.cpp:96-110] [config_manager::initialize] *)
Definition config_manager_initialize (cm : config_manager)
    (devInst : option DevInst) (num_reserved_rows : Z) (broadcast_enable_core : bool)
  : err_code * config_manager :=
  if negb (s_bInitialized cm) then
    match devInst with
    | None => (errorMsg internal_error, cm)
    | Some d =>
        (ok, {| s_pDevInst := Some d; s_bInitialized := true;
                s_num_reserved_rows := num_reserved_rows;
                s_broadcast_enable_core := broadcast_enable_core |})
    end
  else (ok, cm).

(** [src/include/common_layer/aeg_runtime_api.h:47-78] [graph_api] *)
Record graph_api := {
  pGraphConfig : option graph_config;
  isConfigured : bool;
  isRunning : bool;
  startTime : Z;
  coreTiles : list loc;
  iterMemTiles : list loc;
  asyncNotFirstTimePorts : list Z
}.

(** [src/common_layer/aeg_runtime_api.cpp:114-115] [graph_api::graph_api] *)
Definition graph_api_new (pConfig : option graph_config) : graph_api :=
  {| pGraphConfig := pConfig; isConfigured := false; isRunning := false;
     startTime := 0; coreTiles := []; iterMemTiles := [];
     asyncNotFirstTimePorts := [] |}.

Definition set_running (b : bool) (g : graph_api) : graph_api :=
  {| pGraphConfig := pGraphConfig g; isConfigured := isConfigured g; isRunning := b;
     startTime := startTime g; coreTiles := coreTiles g; iterMemTiles := iterMemTiles g;
     asyncNotFirstTimePorts := asyncNotFirstTimePorts g |}.

Definition set_startTime (t : Z) (g : graph_api) : graph_api :=
  {| pGraphConfig := pGraphConfig g; isConfigured := isConfigured g;
     isRunning := isRunning g; startTime := t; coreTiles := coreTiles g;
     iterMemTiles := iterMemTiles g;
     asyncNotFirstTimePorts := asyncNotFirstTimePorts g |}.

Definition add_async_port (p : Z) (g : graph_api) : graph_api :=
  {| pGraphConfig := pGraphConfig g; isConfigured := isConfigured g;
     isRunning := isRunning g; startTime := startTime g; coreTiles := coreTiles g;
     iterMemTiles := iterMemTiles g;
     asyncNotFirstTimePorts := asyncNotFirstTimePorts g ++ [p] |}.

(** The tile of a core whose row is given relative to the first AIE row: row 0
    of the array is the shim row and [reserved] rows of memory tiles follow. *)
Definition abs_tile (reserved col row : Z) : loc :=
  XAie_TileLoc (u8 col) (u8 (row + s32 reserved + 1)).

(** The configuration lists one entry per core. *)
Definition sizes_consistent (cfg : graph_config) : bool :=
  let n := length (coreColumns cfg) in
  (length (coreRows cfg) =? n)%nat && (length (iterMemAddrs cfg) =? n)%nat &&
  (length (triggered cfg) =? n)%nat && (length (iterMemColumns cfg) =? n)%nat &&
  (length (iterMemRows cfg) =? n)%nat.

(** [src/common_layer/aeg_runtime_api.cpp:117-141] [graph_api::configure] *)
Definition configure (cm : config_manager) (g : graph_api) : err_code * graph_api :=
  match pGraphConfig g with
  | None => (errorMsg internal_error, g)
  | Some cfg =>
      if negb (sizes_consistent cfg) then (errorMsg internal_error, g)
      else
        let numCores := length (coreColumns cfg) in
        let reserved := s_num_reserved_rows cm in
        (ok,
         {| pGraphConfig := pGraphConfig g; isConfigured := true;
            isRunning := isRunning g; startTime := startTime g;
            coreTiles :=
              map (fun i => abs_tile reserved (nth i (coreColumns cfg) 0)
                                     (nth i (coreRows cfg) 0)) (seq 0 numCores);
            iterMemTiles :=
              map (fun i => abs_tile reserved (nth i (iterMemColumns cfg) 0)
                                     (nth i (iterMemRows cfg) 0)) (seq 0 numCores);
            asyncNotFirstTimePorts := asyncNotFirstTimePorts g |})
  end.

Definition tile0 : loc := XAie_TileLoc 0 0.
Definition core_at (g : graph_api) (i : nat) : loc := nth i (coreTiles g) tile0.
Definition iter_at (g : graph_api) (i : nat) : loc := nth i (iterMemTiles g) tile0.
Definition core_ids (g : graph_api) : list nat := seq 0 (length (coreTiles g)).
Definition is_triggered (cfg : graph_config) (i : nat) : bool :=
  negb (nth i (triggered cfg) 0 =? 0).

Section Run.
Context `{rt : AieRt}.

(** Snapshot of the time of core 0, when there is one. *)
Definition read_start_time (g : graph_api) (ds : Z) : M (graph_api * Z) :=
  if (length (coreTiles g) =? 0)%nat then ret (g, ds)
  else
    let* (r, ds) := status_out (XAie_ReadTimer (core_at g 0) XAIE_CORE_MOD) ds in
    ret (set_startTime (out r) g, ds).

(** The broadcast branch of [run]: arm every core on broadcast event 7, fire
    it from the shim, wait until 150 shim cycles have passed, disarm. *)
Definition run_broadcast (fuel : nat) (cfg : graph_config) (g : graph_api) (ds : Z)
  : M Z :=
  let shim := XAie_TileLoc (u8 (broadcast_column cfg)) 0 in
  exec_ XAie_StartTransaction ;;;
  for_each (fun i _ =>
    exec_ (XAie_ClearCoreDisableEventOccurred (core_at g i)) ;;;
    exec_ (XAie_CoreConfigureEnableEvent (core_at g i) XAIE_EVENT_BROADCAST_7_CORE))
    (core_ids g) tt ;;;
  exec_ XAie_SubmitTransaction ;;;
  exec_ (XAie_EventGenerate shim XAIE_PL_MOD XAIE_EVENT_BROADCAST_A_8_PL) ;;;
  let* (r0, ds) := status_out (XAie_ReadTimer shim XAIE_PL_MOD) ds in
  let* (_, ds) := poll_until fuel (XAie_ReadTimer shim XAIE_PL_MOD)
                    (fun r => negb (u64 (out r - out r0) <=? 150)) ds in
  exec_ XAie_StartTransaction ;;;
  for_each (fun i _ =>
    exec_ (XAie_CoreConfigureEnableEvent (core_at g i) XAIE_EVENT_NONE_CORE))
    (core_ids g) tt ;;;
  exec_ XAie_SubmitTransaction ;;;
  ret ds.

(** The direct branch of [run]: enable every core in one transaction. *)
Definition run_direct (g : graph_api) (ds : Z) : M Z :=
  exec_ XAie_StartTransaction ;;;
  ds <-- for_each (fun i ds => status (XAie_CoreEnable (core_at g i)) ds)
           (core_ids g) ds ;;
  exec_ XAie_SubmitTransaction ;;;
  ret ds.

(** [src/common_layer/aeg_runtime_api.cpp:143-204] [graph_api::run()] *)
Definition run (fuel : nat) (cm : config_manager) (g : graph_api)
  : M (err_code * graph_api) :=
  match pGraphConfig g, isConfigured g with
  | Some cfg, true =>
      let* (g, ds) := read_start_time g XAIE_OK in
      ds <-- (if s_broadcast_enable_core cm then run_broadcast fuel cfg g ds
              else run_direct g ds) ;;
      if negb (ds =? XAIE_OK) then ret (errorMsg aie_driver_error, g)
      else ret (ok, set_running true g)
  | _, _ => ret (errorMsg aie_driver_error, g)
  end.

(** [src/common_layer/aeg_runtime_api.cpp:206-227] [graph_api::run(int32_t)] *)
Definition run_iter (fuel : nat) (cm : config_manager) (testIter : Z) (g : graph_api)
  : M (err_code * graph_api) :=
  match pGraphConfig g, isConfigured g with
  | Some cfg, true =>
      exec_ XAie_StartTransaction ;;;
      ds <-- for_each (fun i ds =>
               status (XAie_DataMemWrWord (iter_at g i)
                         (u32 (nth i (iterMemAddrs cfg) 0)) (u32 testIter)) ds)
               (core_ids g) XAIE_OK ;;
      exec_ XAie_SubmitTransaction ;;;
      if negb (ds =? XAIE_OK) then ret (errorMsg aie_driver_error, g)
      else run fuel cm g
  | _, _ => ret (errorMsg aie_driver_error, g)
  end.

(** Block until a core leaves its run: [XAie_CoreWaitForDone] is retried for as
    long as it reports its own timeout; the other codes are not collected. *)
Definition wait_core_done (fuel : nat) (l : loc) : M unit :=
  poll_until fuel (XAie_CoreWaitForDone l (u32 0))
    (fun r => negb (rc r =? XAIE_CORE_STATUS_TIMEOUT)) 0 ;;; ret tt.

Definition wait_core (fuel : nat) (cfg : graph_config) (g : graph_api) (i : nat) (ds : Z)
  : M Z :=
  if is_triggered cfg i then ret ds
  else
    wait_core_done fuel (core_at g i) ;;;
    status (XAie_CoreDisable (core_at g i)) ds.

(** [src/common_layer/aeg_runtime_api.cpp:229-255] [graph_api::wait()] *)
Definition wait (fuel : nat) (g : graph_api) : M (err_code * graph_api) :=
  match pGraphConfig g, isConfigured g with
  | Some cfg, true =>
      ds <-- for_each (wait_core fuel cfg g) (core_ids g) XAIE_OK ;;
      if negb (ds =? XAIE_OK) then ret (errorMsg aie_driver_error, g)
      else ret (ok, set_running false g)
  | _, _ => ret (errorMsg aie_driver_error, g)
  end.

(** Wait for what is left of the cycle budget since the start time. *)
Definition spend_budget (cycleTimeout : Z) (g : graph_api) (ds : Z) : M Z :=
  if (length (coreTiles g) =? 0)%nat then ret ds
  else
    let* (r, ds) := status_out (XAie_ReadTimer (core_at g 0) XAIE_CORE_MOD) ds in
    let elapsedTime := u64 (out r - startTime g) in
    if elapsedTime <? cycleTimeout then
      status (XAie_WaitCycles (core_at g 0) XAIE_CORE_MOD
                (u64 (cycleTimeout - elapsedTime))) ds
    else ret ds.

(** [src/common_layer/aeg_runtime_api.cpp:257-291] [graph_api::wait(uint64_t)] *)
Definition wait_cycles (cycleTimeout : Z) (g : graph_api) : M (err_code * graph_api) :=
  if negb (isConfigured g) then ret (errorMsg aie_driver_error, g)
  else if 0xFFFFFFFFFFFF <? cycleTimeout then ret (errorMsg user_error, g)
  else
    ds <-- spend_budget cycleTimeout g XAIE_OK ;;
    ds <-- for_each (fun i ds => status (XAie_CoreDisable (core_at g i)) ds)
             (core_ids g) ds ;;
    if negb (ds =? XAIE_OK) then ret (errorMsg aie_driver_error, g)
    else ret (ok, set_running false g).

Definition resume_core (g : graph_api) (i : nat) (ds : Z) : M Z :=
  let* (r, ds) := status_out (XAie_CoreReadDoneBit (core_at g i)) ds in
  if u8 (out r) =? 0 then status (XAie_CoreEnable (core_at g i)) ds else ret ds.

(** [src/common_layer/aeg_runtime_api.cpp:293-319] [graph_api::resume] *)
Definition resume (g : graph_api) : M (err_code * graph_api) :=
  if negb (isConfigured g) then ret (errorMsg aie_driver_error, g)
  else
    let* (g, ds) := read_start_time g XAIE_OK in
    ds <-- for_each (resume_core g) (core_ids g) ds ;;
    if negb (ds =? XAIE_OK) then ret (errorMsg aie_driver_error, g)
    else ret (ok, g).

(** The end signal of core [i] lives in the word below its iteration count. *)
Definition end_signal (cfg : graph_config) (g : graph_api) (i : nat) : call :=
  XAie_DataMemWrWord (iter_at g i) (u32 (u64 (nth i (iterMemAddrs cfg) 0 - 4))) (u32 1).

Definition end_core (fuel : nat) (wasRunning : bool) (cfg : graph_config)
    (g : graph_api) (i : nat) (ds : Z) : M Z :=
  if wasRunning && negb (is_triggered cfg i) then
    ds <-- status (end_signal cfg g i) ds ;;
    ds <-- status (XAie_CoreEnable (core_at g i)) ds ;;
    wait_core_done fuel (core_at g i) ;;;
    status (XAie_CoreDisable (core_at g i)) ds
  else ret ds.

(** [src/common_layer/aeg_runtime_api.cpp:321-356] [graph_api::end()] *)
Definition end_ (fuel : nat) (g : graph_api) : M (err_code * graph_api) :=
  match pGraphConfig g, isConfigured g with
  | Some cfg, true =>
      let isRunningBefore := isRunning g in
      let* (ret_, g) := wait fuel g in
      if negb (is_ok ret_) then ret (ret_, g)
      else
        ds <-- for_each (end_core fuel isRunningBefore cfg g) (core_ids g) XAIE_OK ;;
        if negb (ds =? XAIE_OK) then ret (errorMsg aie_driver_error, g)
        else ret (ok, g)
  | _, _ => ret (errorMsg aie_driver_error, g)
  end.

(** [src/common_layer/aeg_runtime_api.cpp:358-382] [graph_api::end(uint64_t)] *)
Definition end_cycles (cycleTimeout : Z) (g : graph_api) : M (err_code * graph_api) :=
  match pGraphConfig g, isConfigured g with
  | Some cfg, true =>
      let* (ret_, g) := wait_cycles cycleTimeout g in
      if negb (is_ok ret_) then ret (ret_, g)
      else
        ds <-- for_each (fun i ds => status (end_signal cfg g i) ds)
                 (seq 0 (length (iterMemTiles g))) XAIE_OK ;;
        if negb (ds =? XAIE_OK) then ret (errorMsg aie_driver_error, g)
        else ret (ok, g)
  | _, _ => ret (errorMsg aie_driver_error, g)
  end.
End Run.

(** * Properties *)

Section RunFacts.
Context `{rt : AieRt}.

Definition timer_calls (g : graph_api) : list call :=
  if (length (coreTiles g) =? 0)%nat then []
  else [XAie_ReadTimer (core_at g 0) XAIE_CORE_MOD].

Definition enable_calls (g : graph_api) : list call :=
  map (fun i => XAie_CoreEnable (core_at g i)) (core_ids g).

Definition iter_calls (cfg : graph_config) (testIter : Z) (g : graph_api) : list call :=
  map (fun i => XAie_DataMemWrWord (iter_at g i) (u32 (nth i (iterMemAddrs cfg) 0))
                  (u32 testIter)) (core_ids g).

(** The graph after its start time was taken from the first answer. *)
Definition timed (h : hist) (g : graph_api) : graph_api :=
  if (length (coreTiles g) =? 0)%nat then g
  else set_startTime (out (drv h (XAie_ReadTimer (core_at g 0) XAIE_CORE_MOD))) g.

Lemma read_start_time_eq g ds h :
  read_start_time g ds h =
  Some ((timed h g, codes ds h (timer_calls g)), after h (timer_calls g)).
Proof.
  unfold read_start_time, timed, timer_calls.
  destruct (length (coreTiles g) =? 0)%nat; [by rewrite after_nil|].
  run_m; done.
Qed.

Lemma timed_tiles h g : coreTiles (timed h g) = coreTiles g.
Proof. unfold timed; destruct (_ =? _)%nat; done. Qed.

Lemma timed_running h g : isRunning (timed h g) = isRunning g.
Proof. unfold timed; destruct (_ =? _)%nat; done. Qed.

Lemma core_at_timed h g i : core_at (timed h g) i = core_at g i.
Proof. unfold core_at; by rewrite timed_tiles. Qed.

Lemma enable_calls_timed h g : enable_calls (timed h g) = enable_calls g.
Proof.
  unfold enable_calls, core_ids; rewrite timed_tiles.
  apply map_ext; intros; by rewrite core_at_timed.
Qed.

Lemma run_direct_eq g ds h :
  run_direct g ds h =
  Some (codes ds (after h [XAie_StartTransaction]) (enable_calls g),
        after h ([XAie_StartTransaction] ++ enable_calls g ++ [XAie_SubmitTransaction])).
Proof. unfold run_direct; run_m; rewrite <- app_assoc; done. Qed.
End RunFacts.
#[export] Hint Rewrite @read_start_time_eq @run_direct_eq : drv.

Section GraphProperties.
Context `{rt : AieRt}.

(** The calls of a direct run: a time stamp, then one transaction that enables
    every core of the graph in order. *)
Definition run_calls (g : graph_api) : list call :=
  timer_calls g ++ [XAie_StartTransaction] ++ enable_calls g ++ [XAie_SubmitTransaction].

(** C28: running a configured graph without broadcast stamps the time, enables
    every core of the graph exactly once, in order, inside one transaction,
    and nothing else; it reports success exactly when the time stamp and all
    the enables succeeded, and only then marks the graph as running. *)
Theorem run_enables_all_cores fuel cm g cfg h :
  pGraphConfig g = Some cfg -> isConfigured g = true ->
  s_broadcast_enable_core cm = false ->
  exists e g', run fuel cm g h = Some ((e, g'), after h (run_calls g)) /\
    (e = ok <-> all_ok h (timer_calls g) /\
                all_ok (after h (timer_calls g ++ [XAie_StartTransaction])) (enable_calls g)) /\
    (e = ok -> g' = set_running true (timed h g)) /\
    (e <> ok -> e = aie_driver_error /\ g' = timed h g).
Proof.
  intros Hcfg Hconf Hb; unfold run; rewrite Hcfg, Hconf, Hb; run_m.
  rewrite enable_calls_timed.
  set (ds := codes _ _ (enable_calls g)).
  assert (Hds : ds = XAIE_OK <-> all_ok h (timer_calls g) /\
      all_ok (after h (timer_calls g ++ [XAie_StartTransaction])) (enable_calls g)).
  { unfold ds; rewrite codes_zero, codes_zero; unfold XAIE_OK; tauto. }
  clearbody ds; unfold run_calls.
  destruct (ds =? XAIE_OK) eqn:E; [apply Z.eqb_eq in E|apply Z.eqb_neq in E]; simpl.
  - exists ok, (set_running true (timed h g)).
    split; [done|]; split; [tauto|]; split; [done|]; intros []; done.
  - exists aie_driver_error, (timed h g).
    split; [done|]; split; [|split; [done|done]].
    split; [done|]; intros H; exfalso; tauto.
Qed.

Definition iter_txn (cfg : graph_config) (testIter : Z) (g : graph_api) : list call :=
  [XAie_StartTransaction] ++ iter_calls cfg testIter g ++ [XAie_SubmitTransaction].

(** [run(testIter)] writes the iteration count of every core in one
    transaction before any core is started; when a write fails no core is
    touched and the graph state is unchanged, otherwise it continues as
    [run()] from there. *)
Theorem run_iter_writes_before_enable fuel cm n g cfg h :
  pGraphConfig g = Some cfg -> isConfigured g = true ->
  let h1 := after h (iter_txn cfg n g) in
  (all_ok (after h [XAie_StartTransaction]) (iter_calls cfg n g) /\
     run_iter fuel cm n g h = run fuel cm g h1) \/
  (~ all_ok (after h [XAie_StartTransaction]) (iter_calls cfg n g) /\
     run_iter fuel cm n g h = Some ((aie_driver_error, g), h1)).
Proof.
  intros Hcfg Hconf h1; unfold run_iter; rewrite Hcfg, Hconf; run_m.
  fold (iter_calls cfg n g); rewrite <- app_assoc; fold (iter_txn cfg n g); fold h1.
  destruct (_ =? XAIE_OK) eqn:E; simpl;
    [apply Z.eqb_eq in E|apply Z.eqb_neq in E]; rewrite codes_zero in E.
  - left; split; [tauto|done].
  - right; split; [intros ?; apply E; done|done].
Qed.
End GraphProperties.

(** A two-core graph on which the theorems are evaluated. *)
Definition demo_config : graph_config :=
  {| gc_id := 0; gc_name := "g"; coreColumns := [6; 7]; coreRows := [0; 1];
     iterMemColumns := [6; 7]; iterMemRows := [0; 1]; iterMemAddrs := [4; 8];
     triggered := [0; 1]; broadcast_column := 0 |}.
Definition demo_cm : config_manager :=
  {| s_pDevInst := Some {| DevGen := 2 |}; s_bInitialized := true;
     s_num_reserved_rows := 1; s_broadcast_enable_core := false |}.
Definition demo_graph : graph_api := snd (configure demo_cm (graph_api_new (Some demo_config))).

Lemma run_enables_all_cores_witness :
  exists e g', @run ok_rt 0 demo_cm demo_graph [] =
    Some ((e, g'), @after ok_rt [] (run_calls demo_graph)) /\ length (run_calls demo_graph) = 5%nat.
Proof.
  destruct (@run_enables_all_cores ok_rt 0 demo_cm demo_graph demo_config []
              eq_refl eq_refl eq_refl) as (e & g' & H & _).
  exists e, g'; split; [exact H|reflexivity].
Defined.

Lemma run_iter_writes_before_enable_witness :
  @run_iter ok_rt 0 demo_cm 3 demo_graph [] =
  @run ok_rt 0 demo_cm demo_graph (@after ok_rt [] (iter_txn demo_config 3 demo_graph)).
Proof.
  destruct (@run_iter_writes_before_enable ok_rt 0 demo_cm 3 demo_graph demo_config []
              eq_refl eq_refl) as [[_ H]|[H _]].
  - exact H.
  - exfalso; apply H; vm_compute; auto.
Defined.

(** ** Waiting *)

Section WaitProperties.
Context `{rt : AieRt}.

Definition untriggered (cfg : graph_config) (l : list nat) : list nat :=
  List.filter (fun i => negb (is_triggered cfg i)) l.

Definition poll_core (g : graph_api) (i : nat) : call :=
  XAie_CoreWaitForDone (core_at g i) (u32 0).
Definition core_left (r : resp) : bool := negb (rc r =? XAIE_CORE_STATUS_TIMEOUT).

(** Core [i] was polled [k] times without result, then once with one. *)
Definition left_after (g : graph_api) (ik : nat * nat) (h : hist) : Prop :=
  let c := poll_core g (fst ik) in
  (forall j, (j < snd ik)%nat -> core_left (drv (after h (replicate j c)) c) = false) /\
  core_left (drv (after h (replicate (snd ik) c)) c) = true.

Definition poll_calls (g : graph_api) (ik : nat * nat) : list call :=
  replicate (S (snd ik)) (poll_core g (fst ik)).

Definition wait_calls (g : graph_api) (ik : nat * nat) : list call :=
  poll_calls g ik ++ [XAie_CoreDisable (core_at g (fst ik))].

(** Each core of [l] is disabled only after it left its run. *)
Fixpoint waited (g : graph_api) (l : list (nat * nat)) (h : hist) : Prop :=
  match l with
  | [] => True
  | ik :: l => left_after g ik h /\ waited g l (after h (wait_calls g ik))
  end.

Lemma wait_core_done_inv fuel g i h h' :
  wait_core_done fuel (core_at g i) h = Some (tt, h') ->
  exists k, left_after g (i, k) h /\ h' = after h (poll_calls g (i, k)).
Proof.
  intros H; apply bind_inv in H as ([r ds] & h1 & H & Hr); unfold ret in Hr; simplify_eq.
  apply poll_until_inv in H as (k & _ & -> & Hs & Hb & -> & _).
  exists k; done.
Qed.

Lemma wait_core_inv fuel cfg g i ds h ds' h' :
  wait_core fuel cfg g i ds h = Some (ds', h') ->
  (is_triggered cfg i = true /\ h' = h) \/
  (is_triggered cfg i = false /\
   exists k, left_after g (i, k) h /\ h' = after h (wait_calls g (i, k))).
Proof.
  unfold wait_core; destruct (is_triggered cfg i); intros H.
  - unfold ret in H; simplify_eq; auto.
  - right; split; [done|]; apply bind_inv in H as ([] & h1 & H & Hr).
    apply wait_core_done_inv in H as (k & Hk & ->); exists k; split; [done|].
    rewrite status_eq, after_app in Hr; unfold wait_calls; naive_solver.
Qed.

Lemma wait_loop_inv fuel cfg g l ds h ds' h' :
  for_each (wait_core fuel cfg g) l ds h = Some (ds', h') ->
  exists iks, map fst iks = untriggered cfg l /\ waited g iks h /\
    h' = after h (flat_map (wait_calls g) iks).
Proof.
  revert ds h; induction l as [|i l IH]; intros ds h H; simpl in H.
  - unfold ret in H; simplify_eq; exists []; by rewrite after_nil.
  - apply bind_inv in H as (ds1 & h1 & H1 & H2).
    destruct (IH _ _ H2) as (iks & Hm & Hw & ->).
    apply wait_core_inv in H1 as [[Ht ->]|[Ht (k & Hk & ->)]];
      unfold untriggered; simpl; rewrite Ht; simpl.
    + exists iks; done.
    + exists ((i, k) :: iks); simpl; rewrite Hm, after_app; done.
Qed.

(** Every core of the graph leaves its run within [n] further polls. *)
Definition cores_done_within (n : nat) (g : graph_api) : Prop :=
  forall i, stops_within n (poll_core g i) core_left.

Lemma wait_core_done_total n fuel g i h :
  cores_done_within n g -> (n < fuel)%nat ->
  exists h', wait_core_done fuel (core_at g i) h = Some (tt, h').
Proof.
  intros Hn Hf; unfold wait_core_done.
  destruct (poll_until_total n fuel (poll_core g i) core_left 0 h (Hn i) Hf)
    as (r & ds & h' & H).
  exists h'; rewrite (bind_Some _ _ _ _ _ H); done.
Qed.

Lemma for_each_total {A B} (f : A -> B -> M B) l b h :
  (forall a b h, exists b' h', f a b h = Some (b', h')) ->
  exists b' h', for_each f l b h = Some (b', h').
Proof.
  intros Hf; revert b h; induction l as [|a l IH]; intros b h; simpl.
  - eexists _, _; done.
  - destruct (Hf a b h) as (b1 & h1 & H1); rewrite (bind_Some _ _ _ _ _ H1); apply IH.
Qed.

Lemma wait_core_total n fuel cfg g i ds h :
  cores_done_within n g -> (n < fuel)%nat ->
  exists ds' h', wait_core fuel cfg g i ds h = Some (ds', h').
Proof.
  intros Hn Hf; unfold wait_core; destruct (is_triggered cfg i).
  - eexists _, _; done.
  - destruct (wait_core_done_total n fuel g i h Hn Hf) as (h1 & H1).
    rewrite (bind_Some _ _ _ _ _ H1), status_eq; eauto.
Qed.

Lemma wait_inv fuel g cfg h e g' h' :
  pGraphConfig g = Some cfg -> isConfigured g = true ->
  wait fuel g h = Some ((e, g'), h') ->
  exists iks, map fst iks = untriggered cfg (core_ids g) /\ waited g iks h /\
    h' = after h (flat_map (wait_calls g) iks) /\
    ((e = ok /\ g' = set_running false g) \/ (e = aie_driver_error /\ g' = g)).
Proof.
  intros Hc Hi H; unfold wait in H; rewrite Hc, Hi in H.
  apply bind_inv in H as (ds & h1 & H & H2).
  apply wait_loop_inv in H as (iks & Hm & Hw & ->).
  exists iks; destruct (ds =? XAIE_OK); unfold ret in H2; simpl in H2; simplify_eq;
    repeat split; auto.
Qed.

(** C29: [wait] returns once every core leaves its run within [n] polls (total
    for any larger fuel); it visits exactly the cores that are not triggered,
    in order, and disables a core only after the driver stopped reporting the
    timeout for it; on success the graph is no longer running, on failure its
    state is unchanged. *)
Theorem wait_disables_finished_cores n fuel g cfg h :
  pGraphConfig g = Some cfg -> isConfigured g = true ->
  cores_done_within n g -> (n < fuel)%nat ->
  exists e g' iks, wait fuel g h = Some ((e, g'), after h (flat_map (wait_calls g) iks)) /\
    map fst iks = untriggered cfg (core_ids g) /\ waited g iks h /\
    ((e = ok /\ g' = set_running false g) \/ (e = aie_driver_error /\ g' = g)).
Proof.
  intros Hc Hi Hn Hf.
  destruct (for_each_total (wait_core fuel cfg g) (core_ids g) XAIE_OK h
              (fun i ds h => wait_core_total n fuel cfg g i ds h Hn Hf)) as (ds & h1 & H1).
  assert (exists e g', wait fuel g h = Some ((e, g'), h1)) as (e & g' & H).
  { unfold wait; rewrite Hc, Hi, (bind_Some _ _ _ _ _ H1).
    destruct (_ =? _); eexists _, _; done. }
  destruct (wait_inv _ _ _ _ _ _ _ Hc Hi H) as (iks & Hm & Hw & -> & He).
  exists e, g', iks; done.
Qed.
End WaitProperties.

Lemma ok_rt_cores_done n g : @cores_done_within ok_rt n g.
Proof. intros i h; exists O; split; [lia|reflexivity]. Qed.

Lemma wait_disables_finished_cores_witness :
  exists e g' iks, @wait ok_rt 1 demo_graph [] =
      Some ((e, g'), @after ok_rt [] (flat_map (wait_calls demo_graph) iks)) /\
    map fst iks = [O].
Proof.
  destruct (@wait_disables_finished_cores ok_rt 0 1 demo_graph demo_config []
              eq_refl eq_refl (ok_rt_cores_done 0 demo_graph) ltac:(lia))
    as (e & g' & iks & H & Hm & _).
  exists e, g', iks; split; [exact H|exact Hm].
Defined.

(** ** Ending *)

Section EndProperties.
Context `{rt : AieRt}.

Definition end_calls (cfg : graph_config) (g : graph_api) (ik : nat * nat) : list call :=
  [end_signal cfg g (fst ik); XAie_CoreEnable (core_at g (fst ik))] ++ wait_calls g ik.

Lemma end_core_idle fuel cfg g l ds h :
  for_each (end_core fuel false cfg g) l ds h = Some (ds, h).
Proof. induction l as [|i l IH]; [done|exact IH]. Qed.

Lemma end_core_inv fuel cfg g i ds h ds' h' :
  end_core fuel true cfg g i ds h = Some (ds', h') ->
  (is_triggered cfg i = true /\ h' = h) \/
  (is_triggered cfg i = false /\ exists k,
     left_after g (i, k) (after h [end_signal cfg g i; XAie_CoreEnable (core_at g i)]) /\
     h' = after h (end_calls cfg g (i, k))).
Proof.
  unfold end_core; destruct (is_triggered cfg i); simpl; intros H.
  - unfold ret in H; simplify_eq; auto.
  - right; split; [done|].
    rewrite (bind_Some _ _ _ _ _ (status_eq _ _ _)),
      (bind_Some _ _ _ _ _ (status_eq _ _ _)), after_app in H.
    apply bind_inv in H as ([] & h1 & H & Hr).
    apply wait_core_done_inv in H as (k & Hk & ->); exists k; split; [done|].
    rewrite status_eq, !after_app in Hr; unfold end_calls, wait_calls; simpl in *.
    naive_solver.
Qed.

Lemma end_loop_inv fuel cfg g l ds h ds' h' :
  for_each (end_core fuel true cfg g) l ds h = Some (ds', h') ->
  exists iks, map fst iks = untriggered cfg l /\
    h' = after h (flat_map (end_calls cfg g) iks).
Proof.
  revert ds h; induction l as [|i l IH]; intros ds h H; simpl in H.
  - unfold ret in H; simplify_eq; exists []; by rewrite after_nil.
  - apply bind_inv in H as (ds1 & h1 & H1 & H2).
    destruct (IH _ _ H2) as (iks & Hm & ->).
    apply end_core_inv in H1 as [[Ht ->]|[Ht (k & _ & ->)]];
      unfold untriggered; simpl; rewrite Ht; simpl.
    + exists iks; done.
    + exists ((i, k) :: iks); simpl; rewrite Hm, after_app; done.
Qed.

(** ending a running graph waits for every core, then raises the end signal
    of each core that is not triggered (the word below its iteration count),
    starts the core and waits for it again, in core order; ending a graph that
    is not running raises no end signal and starts no core, so [end] may be
    repeated. *)
Theorem end_signals_once fuel g cfg h g' h' :
  pGraphConfig g = Some cfg -> isConfigured g = true ->
  end_ fuel g h = Some ((ok, g'), h') ->
  isRunning g' = false /\
  exists waits ends,
    map fst waits = untriggered cfg (core_ids g) /\
    map fst ends = (if isRunning g then untriggered cfg (core_ids g) else []) /\
    h' = after h (flat_map (wait_calls g) waits ++ flat_map (end_calls cfg g) ends).
Proof.
  intros Hc Hi H; unfold end_ in H; rewrite Hc, Hi in H.
  apply bind_inv in H as ([e g1] & h1 & Hw & H).
  destruct (wait_inv _ _ _ _ _ _ _ Hc Hi Hw) as (iks & Hm & _ & -> & [[-> ->]|[-> ->]]);
    [|done].
  simpl in H; apply bind_inv in H as (ds & h2 & He & H).
  assert (g' = set_running false g /\ h2 = h') as [-> ->].
  { destruct (_ =? _); unfold ret in H; simpl in H; simplify_eq; done. }
  split; [done|]; exists iks.
  destruct (isRunning g).
  - apply end_loop_inv in He as (iks' & Hm' & ->); exists iks'.
    rewrite after_app; done.
  - rewrite end_core_idle in He; simplify_eq; exists []; simpl.
    rewrite app_nil_r; done.
Qed.
End EndProperties.

Lemma end_signals_once_witness :
  isRunning (set_running false demo_graph) = false /\
  exists waits ends, map fst waits = [O] /\ map fst ends = [O] /\
    @after ok_rt [] (flat_map (wait_calls demo_graph) waits ++
                     flat_map (end_calls demo_config demo_graph) ends) =
    @after ok_rt [] (poll_calls demo_graph (O, O) ++ [XAie_CoreDisable (core_at demo_graph 0)]
                     ++ end_calls demo_config demo_graph (O, O)).
Proof.
  destruct (@end_signals_once ok_rt 1 (set_running true demo_graph) demo_config []
              (set_running false demo_graph)
              (@after ok_rt [] (poll_calls demo_graph (O, O) ++
                                [XAie_CoreDisable (core_at demo_graph 0)]
                                ++ end_calls demo_config demo_graph (O, O)))
              eq_refl eq_refl eq_refl) as (Hr & waits & ends & Hw & He & H).
  split; [exact Hr|]; exists waits, ends; split; [exact Hw|]; split; [exact He|].
  symmetry; exact H.
Defined.

(** ** Broadcast start *)

Section BroadcastProperties.
Context `{rt : AieRt}.

Definition shim_of (cfg : graph_config) : loc :=
  XAie_TileLoc (u8 (broadcast_column cfg)) 0.
Definition shim_timer (cfg : graph_config) : call :=
  XAie_ReadTimer (shim_of cfg) XAIE_PL_MOD.

Definition arm_calls (g : graph_api) : list call :=
  flat_map (fun i =>
    [XAie_ClearCoreDisableEventOccurred (core_at g i);
     XAie_CoreConfigureEnableEvent (core_at g i) XAIE_EVENT_BROADCAST_7_CORE])
    (core_ids g).
Definition disarm_calls (g : graph_api) : list call :=
  map (fun i => XAie_CoreConfigureEnableEvent (core_at g i) XAIE_EVENT_NONE_CORE)
    (core_ids g).
Definition fire_calls (cfg : graph_config) (g : graph_api) : list call :=
  [XAie_StartTransaction] ++ arm_calls g ++
  [XAie_SubmitTransaction;
   XAie_EventGenerate (shim_of cfg) XAIE_PL_MOD XAIE_EVENT_BROADCAST_A_8_PL].

(** 150 shim cycles have passed since [t0]. *)
Definition elapsed (t0 : Z) (r : resp) : bool := negb (u64 (out r - t0) <=? 150).

(** The shim timer advances past any snapshot within [n] reads. *)
Definition timer_advances (n : nat) (cfg : graph_config) : Prop :=
  forall t0, stops_within n (shim_timer cfg) (elapsed t0).

(** The part of the broadcast start before the polling loop. *)
Lemma run_broadcast_start fuel cfg g ds h :
  let t := shim_timer cfg in let h0 := after h (fire_calls cfg g) in
  run_broadcast fuel cfg g ds h =
  bind (poll_until fuel t (elapsed (out (drv h0 t))) (codes ds h0 [t]))
    (fun x => exec_ XAie_StartTransaction ;;;
      for_each (fun i _ =>
        exec_ (XAie_CoreConfigureEnableEvent (core_at g i) XAIE_EVENT_NONE_CORE))
        (core_ids g) tt ;;;
      exec_ XAie_SubmitTransaction ;;; ret (snd x)) (after h0 [t]).
Proof.
  intros t h0; unfold run_broadcast; fold (shim_of cfg); fold (shim_timer cfg); fold t.
  rewrite (bind_Some _ _ _ _ _ (exec__eq _ _)).
  erewrite bind_Some
    by (apply (for_each_block _ (fun i =>
          [XAie_ClearCoreDisableEventOccurred (core_at g i);
           XAie_CoreConfigureEnableEvent (core_at g i) XAIE_EVENT_BROADCAST_7_CORE]));
        intros; run_m; rewrite exec__eq, after_app; done).
  fold (arm_calls g); rewrite after_app.
  do 2 (erewrite bind_Some by apply exec__eq; rewrite after_app).
  rewrite <- !app_assoc.
  change (after h ([XAie_StartTransaction] ++ arm_calls g ++ _)) with h0.
  erewrite bind_Some by apply status_out_eq; cbv beta iota.
  unfold bind; fold (elapsed (out (drv h0 t))).
  destruct (poll_until _ _ _ _ _) as [[[r ds1] h1]|]; done.
Qed.

Lemma run_broadcast_inv fuel cfg g ds h ds' h' :
  run_broadcast fuel cfg g ds h = Some (ds', h') ->
  exists k, let h0 := after h (fire_calls cfg g) in
    elapsed (out (drv h0 (shim_timer cfg)))
      (drv (after h0 (replicate (S k) (shim_timer cfg))) (shim_timer cfg)) = true /\
    h' = after h (fire_calls cfg g ++ replicate (S (S k)) (shim_timer cfg) ++
           [XAie_StartTransaction] ++ disarm_calls g ++ [XAie_SubmitTransaction]).
Proof.
  rewrite run_broadcast_start; intros H; apply bind_inv in H as ([r ds1] & h1 & Hp & H).
  apply poll_until_inv in Hp as (k & _ & -> & Hs & _ & -> & ->).
  rewrite !after_app in *; revert H; run_m; intros H.
  exists k; cbv zeta; split; [rewrite after_app, <- app_assoc in *; exact Hs|].
  unfold ret in H; simplify_eq; rewrite <- !app_assoc; done.
Qed.

Lemma run_broadcast_total n fuel cfg g ds h :
  timer_advances n cfg -> (n < fuel)%nat ->
  exists ds' h', run_broadcast fuel cfg g ds h = Some (ds', h').
Proof.
  intros Hn Hf; rewrite run_broadcast_start; cbv zeta.
  match goal with |- context [bind (poll_until _ _ (elapsed ?t) ?d) _ ?h0] =>
    destruct (poll_until_total n fuel (shim_timer cfg) (elapsed t) d h0 (Hn t) Hf)
      as (r & ds1 & h1 & Hp) end.
  erewrite bind_Some by exact Hp; run_m; eexists _, _; done.
Qed.

(** C30: with broadcast start, [run] returns whenever the shim timer advances,
    arms every core on the broadcast event in one transaction before the event
    is fired, disarms them only after more than 150 shim cycles were observed,
    and enables no core directly. *)
Theorem run_broadcast_arms_then_fires n fuel cm g cfg h :
  pGraphConfig g = Some cfg -> isConfigured g = true ->
  s_broadcast_enable_core cm = true -> timer_advances n cfg -> (n < fuel)%nat ->
  exists e g' k, run fuel cm g h = Some ((e, g'),
      after h (timer_calls g ++ fire_calls cfg g ++ replicate (S (S k)) (shim_timer cfg) ++
        [XAie_StartTransaction] ++ disarm_calls g ++ [XAie_SubmitTransaction])) /\
    (let h0 := after h (timer_calls g ++ fire_calls cfg g) in
     elapsed (out (drv h0 (shim_timer cfg)))
       (drv (after h0 (replicate (S k) (shim_timer cfg))) (shim_timer cfg)) = true) /\
    (e = ok -> isRunning g' = true).
Proof.
  intros Hc Hi Hb Hn Hf; unfold run; rewrite Hc, Hi, Hb; run_m.
  match goal with |- context [bind (run_broadcast fuel cfg ?g0 ?d) _ ?h0] =>
    destruct (run_broadcast_total n fuel cfg g0 d h0 Hn Hf) as (ds' & h' & H) end.
  rewrite (bind_Some _ _ _ _ _ H).
  apply run_broadcast_inv in H as (k & Hel & ->); cbv zeta in Hel.
  assert (Hfire : fire_calls cfg (timed h g) = fire_calls cfg g).
  { unfold fire_calls, arm_calls, core_ids; rewrite timed_tiles.
    do 2 f_equal; apply flat_map_ext; intros i; by rewrite core_at_timed. }
  assert (Hdis : disarm_calls (timed h g) = disarm_calls g).
  { unfold disarm_calls, core_ids; rewrite timed_tiles.
    apply map_ext; intros i; by rewrite core_at_timed. }
  rewrite Hfire, Hdis, !after_app in *.
  destruct (_ =? _); simpl negb; cbv iota; eexists _, _, k;
    (split; [reflexivity|split; [cbv zeta; rewrite after_app; exact Hel|done]]).
Qed.
End BroadcastProperties.

(** A device whose timers advance by 200 cycles per call. *)
Definition tick_rt : AieRt := {|
  drv := fun h _ => mkResp 0 (200 * Z.of_nat (length h)) [];
  XAIE_ERR := 1; XAIE_CORE_STATUS_TIMEOUT := 12; XAIE_LOCK_WITH_NO_VALUE := -1;
  XAIE_DEV_GEN_AIE := 1; XAIE_DEV_GEN_AIEML := 2; XAIE_DEV_GEN_S100 := 6;
  XAIE_DEV_GEN_S200 := 7 |}.

Lemma tick_rt_advances cfg : @timer_advances tick_rt 1 cfg.
Proof.
  intros t0 h; unfold elapsed.
  destruct (Z.leb_spec (u64 (200 * Z.of_nat (length h) - t0)) 150) as [H|H].
  - exists 1%nat; split; [lia|]; unfold after; simpl; rewrite length_app; simpl.
    pose proof (wrap_u_range 64 (200 * Z.of_nat (length h) - t0) ltac:(lia)) as Hx.
    replace (200 * Z.of_nat (length h + 1) - t0)
      with ((200 * Z.of_nat (length h) - t0) + 200) by lia.
    unfold wrap_u in *; rewrite Z.add_mod, (Z.mod_small 200) by lia.
    rewrite Z.mod_small by lia; apply negb_true_iff, Z.leb_gt; lia.
  - exists O; split; [lia|]; simpl; rewrite after_nil; apply negb_true_iff, Z.leb_gt; lia.
Qed.

Lemma run_broadcast_arms_then_fires_witness :
  exists e g' k,
    @run tick_rt 2 {| s_pDevInst := None; s_bInitialized := true; s_num_reserved_rows := 1;
                      s_broadcast_enable_core := true |} demo_graph [] =
    Some ((e, g'), @after tick_rt [] (timer_calls demo_graph ++
      fire_calls demo_config demo_graph ++ replicate (S (S k)) (shim_timer demo_config) ++
      [XAie_StartTransaction] ++ disarm_calls demo_graph ++ [XAie_SubmitTransaction])).
Proof.
  destruct (@run_broadcast_arms_then_fires tick_rt 1 2
    {| s_pDevInst := None; s_bInitialized := true; s_num_reserved_rows := 1;
       s_broadcast_enable_core := true |} demo_graph demo_config []
    eq_refl eq_refl eq_refl (tick_rt_advances demo_config) ltac:(lia))
    as (e & g' & k & H & _).
  exists e, g', k; exact H.
Defined.

(** ** Waiting with a cycle budget *)

Section WaitCyclesProperties.
Context `{rt : AieRt}.

Definition disable_calls (g : graph_api) : list call :=
  map (fun i => XAie_CoreDisable (core_at g i)) (core_ids g).

(** The calls of [wait(cycleTimeout)] before the cores are disabled: the rest
    of the budget is waited for only when it is positive. *)
Definition budget_calls (cycleTimeout : Z) (g : graph_api) (h : hist) : list call :=
  if (length (coreTiles g) =? 0)%nat then []
  else
    let t := XAie_ReadTimer (core_at g 0) XAIE_CORE_MOD in
    let spent := u64 (out (drv h t) - startTime g) in
    if spent <? cycleTimeout
    then [t; XAie_WaitCycles (core_at g 0) XAIE_CORE_MOD (cycleTimeout - spent)]
    else [t].

Lemma spend_budget_eq cycleTimeout g ds h :
  0 <= cycleTimeout < 2 ^ 64 ->
  spend_budget cycleTimeout g ds h =
  Some (codes ds h (budget_calls cycleTimeout g h), after h (budget_calls cycleTimeout g h)).
Proof.
  intros Hr; unfold spend_budget, budget_calls.
  destruct (_ =? _)%nat; [by rewrite after_nil|].
  run_m; set (e := u64 _).
  pose proof (wrap_u_range 64 (out (drv h (XAie_ReadTimer (core_at g 0) XAIE_CORE_MOD))
                                 - startTime g) ltac:(lia)) as He; fold e in He.
  destruct (e <? cycleTimeout) eqn:E; [|done].
  rewrite wrap_u_small, status_eq, after_app by lia; done.
Qed.

(** [wait(cycleTimeout)] rejects a budget above 48 bits without touching
    the device; otherwise it waits exactly for what is left of the budget since
    the start time (not at all when it is spent) and then disables every core;
    the graph stops running exactly when all of that succeeded. *)
Theorem wait_cycles_budget cycleTimeout g h :
  isConfigured g = true -> 0 <= cycleTimeout < 2 ^ 64 ->
  (0xFFFFFFFFFFFF < cycleTimeout -> wait_cycles cycleTimeout g h = Some ((user_error, g), h)) /\
  (cycleTimeout <= 0xFFFFFFFFFFFF ->
   let cs := budget_calls cycleTimeout g h ++ disable_calls g in
   (all_ok h cs /\ wait_cycles cycleTimeout g h = Some ((ok, set_running false g), after h cs)) \/
   (~ all_ok h cs /\ wait_cycles cycleTimeout g h = Some ((aie_driver_error, g), after h cs))).
Proof.
  intros Hi Hr; unfold wait_cycles; rewrite Hi; simpl negb; cbv iota; split; intros Hc.
  { rewrite (proj2 (Z.ltb_lt _ _)) by lia; done. }
  rewrite (proj2 (Z.ltb_ge _ _)) by lia.
  set (cs := budget_calls cycleTimeout g h ++ disable_calls g).
  change (negb true) with false; cbv iota.
  rewrite (bind_Some _ _ _ _ _ (spend_budget_eq _ _ _ _ Hr)); run_m; fold (disable_calls g); rewrite <- codes_app; fold cs.
  destruct (_ =? XAIE_OK) eqn:E; [apply Z.eqb_eq in E|apply Z.eqb_neq in E];
    rewrite codes_zero in E; simpl.
  - left; tauto.
  - right; split; [intros ?; apply E; done|done].
Qed.
End WaitCyclesProperties.

Lemma wait_cycles_budget_witness :
  @wait_cycles ok_rt (2 ^ 48) demo_graph [] = Some ((user_error, demo_graph), []) /\
  exists e g' h', @wait_cycles ok_rt 100 demo_graph [] = Some ((e, g'), h').
Proof.
  split.
  - apply (@wait_cycles_budget ok_rt (2 ^ 48) demo_graph []); [reflexivity|lia|lia].
  - destruct (proj2 (@wait_cycles_budget ok_rt 100 demo_graph [] eq_refl ltac:(lia)) ltac:(lia))
      as [[_ H]|[_ H]]; eexists _, _, _; exact H.
Defined.
