(* ===== verification/Rtp.v ===== *)
(** Run-time parameters and shared buffers: the argument checks, [update] and
    [read] of [graph_api] ([src/common_layer/aeg_runtime_api.cpp]).

    A run-time parameter is double buffered: a selector word names the buffer the
    kernel reads.  The host writes the other buffer and then flips the selector;
    hardware locks keep kernel and host apart while the graph runs. *)
From stdpp Require Import base list strings gmap.
From Stdlib Require Import ZArith Lia.
From S2P Require Import Prelude ApiTypes Driver GraphApi.
Local Open Scope Z_scope.
Local Open Scope aeg_scope.

(** [src/common_layer/aeg_runtime_api.cpp:60-67] [ACQ_WRITE] *)
Definition ACQ_WRITE : Z := 0.
Definition ACQ_READ : Z := 1.
Definition REL_READ : Z := 1.
Definition REL_WRITE : Z := 0.
Definition AIE_ML_REL_WRITE : Z := -1.
Definition AIE_ML_ASYNC_ACQ : Z := -1.
Definition AIE_ML_ASYNC_ACQ_FIRST_TIME : Z := 0.
Definition LOCK_TIMEOUT : Z := 0x7FFFFFFF.

(** * Argument checks *)

(** [src/common_layer/aeg_runtime_api.cpp:384-436] [checkRTPConfigForUpdate] *)
Definition checkRTPConfigForUpdate (pRTPConfig : option rtp_config)
    (pGraphConfig : option graph_config) (numBytes : Z) (isRunning : bool) : err_code :=
  match pRTPConfig, pGraphConfig with
  | Some p, Some gc =>
      if negb (rtp_graphId p =? gc_id gc) then errorMsg user_error
      else if negb (isInput p) then errorMsg user_error
      else if negb (numBytes =? rtp_numBytes p) then errorMsg user_error
      else if isConnect p then
        if isPL p then errorMsg user_error
        else if isAsync p then
          if isRunning then errorMsg user_error else ok
        else errorMsg user_error
      else ok
  | _, _ => errorMsg internal_error
  end.

(** [src/common_layer/aeg_runtime_api.cpp:438-469] [checkSharedBufferConfigForUpdate] *)
Definition checkSharedBufferConfigForUpdate (pSharedBufferConfig : option shared_buffer_config)
    (pGraphConfig : option graph_config) (numBytes : Z) : err_code :=
  match pSharedBufferConfig, pGraphConfig with
  | Some b, Some gc =>
      if negb (sb_graphId b =? gc_id gc) then errorMsg user_error
      else if negb (numInputs b =? 0) || (numOutputs b =? 0) then errorMsg user_error
      else if negb (numBytes =? sb_numBytes b) then errorMsg user_error
      else ok
  | _, _ => errorMsg internal_error
  end.

(** [src/common_layer/aeg_runtime_api.cpp:652-681] [checkRTPConfigForRead] *)
Definition checkRTPConfigForRead (pRTPConfig : option rtp_config)
    (pGraphConfig : option graph_config) (numBytes : Z) : err_code :=
  match pRTPConfig, pGraphConfig with
  | Some p, Some gc =>
      if negb (rtp_graphId p =? gc_id gc) then errorMsg user_error
      else if isInput p then errorMsg user_error
      else if negb (numBytes =? rtp_numBytes p) then errorMsg user_error
      else if isConnect p then errorMsg user_error
      else ok
  | _, _ => errorMsg internal_error
  end.

Section Operations.
Context `{rt : AieRt}.

(** [src/common_layer/aeg_runtime_api.cpp:80-86] [getNormalizedDevGen] *)
Definition getNormalizedDevGen (devGen : Z) : Z :=
  if (devGen =? XAIE_DEV_GEN_S100) || (devGen =? XAIE_DEV_GEN_S200)
  then XAIE_DEV_GEN_AIE else devGen.

(** [getNormalizedDevGen(s_pDevInst->DevProp.DevGen) >= XAIE_DEV_GEN_AIEML]; the
    dereference of a null instance is undefined. *)
Definition is_aieml (cm : config_manager) : M bool :=
  match s_pDevInst cm with
  | Some d => ret (XAIE_DEV_GEN_AIEML <=? getNormalizedDevGen (DevGen d))
  | None => undefined
  end.

Definition acquire (l : loc) (id val : Z) : call :=
  XAie_LockAcquire l (XAie_LockInit (u16 id) (s8 val)) LOCK_TIMEOUT.
Definition release (l : loc) (id val : Z) : call :=
  XAie_LockRelease l (XAie_LockInit (u16 id) (s8 val)) LOCK_TIMEOUT.

(** [if (b) driverStatus |= c] *)
Definition status_if (b : bool) (c : call) (ds : Z) : M Z :=
  if b then status c ds else ret ds.

Definition result (ds : Z) : err_code :=
  if negb (ds =? XAIE_OK) then errorMsg aie_driver_error else ok.

(** * Shared buffers *)

(** The ids of the read-only shared buffers that were already updated; the
    source keeps them in a static set. *)
Abbreviation initialized_set := (gset Z).

(** Lock values of a shared-buffer update: the first update of a buffer that
    has no initial value takes both locks unconditionally. *)
Definition shared_lock_values (done : initialized_set) (b : shared_buffer_config) : Z * Z :=
  if decide (sb_id b ∈ done) then (-1, - numOutputs b)
  else if negb (initialized b) then (0, 0) else (-1, - numOutputs b).

(** [src/common_layer/aeg_runtime_api.cpp:471-532] [graph_api::update(shared_buffer_config)] *)
Definition update_shared (pSharedBufferConfig : option shared_buffer_config)
    (pValue : list Z) (numBytes : Z) (done : initialized_set) (g : graph_api)
  : M (err_code * initialized_set) :=
  match pGraphConfig g with
  | None => ret (errorMsg internal_error, done)
  | Some gc =>
      let check := checkSharedBufferConfigForUpdate pSharedBufferConfig (Some gc) numBytes in
      match pSharedBufferConfig with
      | Some b =>
          if negb (is_ok check) then ret (check, done)
          else
            let tile := XAie_TileLoc (u8 (sb_column b)) (u8 (sb_row b + 1)) in
            let '(prd, cns) := shared_lock_values done b in
            let done := {[sb_id b]} ∪ done in
            match producerLocks b, consumerLocks b, sb_addr b with
            | pl :: _, cl :: _, addr :: _ =>
                ds <-- status (acquire tile pl prd) XAIE_OK ;;
                ds <-- status (acquire tile cl cns) ds ;;
                ds <-- status (XAie_DataMemBlockWrite tile (u32 addr) pValue (u32 numBytes)) ds ;;
                ds <-- status (release tile pl 1) ds ;;
                ds <-- status (release tile cl (numOutputs b)) ds ;;
                ret (result ds, done)
            | _, _, _ => undefined
            end
      | None => ret (check, done)
      end
  end.

(** * Run-time parameters *)

Definition selector_tile (cm : config_manager) (p : rtp_config) : loc :=
  abs_tile (s_num_reserved_rows cm) (selectorColumn p) (selectorRow p).
Definition ping_tile (cm : config_manager) (p : rtp_config) : loc :=
  abs_tile (s_num_reserved_rows cm) (pingColumn p) (pingRow p).
Definition pong_tile (cm : config_manager) (p : rtp_config) : loc :=
  abs_tile (s_num_reserved_rows cm) (pongColumn p) (pongRow p).

(** [src/common_layer/aeg_runtime_api.cpp:595-615] [graph_api::update(rtp_config)] the buffer
    of the branch [selector == 1U]: tile, address, lock. *)
Definition buffer_of (cm : config_manager) (p : rtp_config) (selector : Z) : loc * Z * Z :=
  if selector =? 1 then (pong_tile cm p, pongAddr p, pongLockId p)
  else (ping_tile cm p, pingAddr p, pingLockId p).

(** Do not lock an asynchronous parameter of a suspended graph. *)
Definition acquires (p : rtp_config) (g : graph_api) : bool :=
  negb (isAsync p && negb (isRunning g)).

(** [src/common_layer/aeg_runtime_api.cpp:562-577] [graph_api::update(rtp_config)]
    The value an update acquires its locks with, and the graph with the port
    recorded as updated (AIE-ML, asynchronous ports). *)
Definition update_acquire_val (aieml : bool) (p : rtp_config) (g : graph_api)
  : Z * graph_api :=
  let versal := if isAsync p then s8 XAIE_LOCK_WITH_NO_VALUE else s8 ACQ_WRITE in
  if aieml && isAsync p then
    if decide (portId p ∈ asyncNotFirstTimePorts g) then (s8 AIE_ML_ASYNC_ACQ, g)
    else (s8 AIE_ML_ASYNC_ACQ_FIRST_TIME, add_async_port (portId p) g)
  else (versal, g).

(** [src/common_layer/aeg_runtime_api.cpp:534-650] [graph_api::update(rtp_config)] *)
Definition update_rtp (cm : config_manager) (pRTPConfig : option rtp_config)
    (pValue : list Z) (numBytes : Z) (g : graph_api) : M (err_code * graph_api) :=
  match pGraphConfig g with
  | None => ret (errorMsg internal_error, g)
  | Some gc =>
      let check := checkRTPConfigForUpdate pRTPConfig (Some gc) numBytes (isRunning g) in
      match pRTPConfig with
      | Some p =>
          if negb (is_ok check) then ret (check, g)
          else
            let sel := selector_tile cm p in
            let bAcquireLock := acquires p g in
            aieml <-- is_aieml cm ;;
            let '(acquireVal, g) := update_acquire_val aieml p g in
            let releaseVal := s8 REL_READ in
            ds <-- status_if (hasLock p && bAcquireLock)
                     (acquire sel (selectorLockId p) acquireVal) XAIE_OK ;;
            let* (r, ds) := status_out (XAie_DataMemRdWord sel (u32 (selectorAddr p))) ds in
            let selector := u32 (1 - out r) in
            let '(bufTile, bufAddr, bufLock) := buffer_of cm p selector in
            ds <-- status_if (hasLock p && bAcquireLock)
                     (acquire bufTile bufLock acquireVal) ds ;;
            ds <-- status (XAie_DataMemBlockWrite bufTile (u32 bufAddr) pValue (u32 numBytes)) ds ;;
            ds <-- status (XAie_DataMemWrWord sel (u32 (selectorAddr p)) (u32 selector)) ds ;;
            ds <-- status_if (hasLock p) (release sel (selectorLockId p) releaseVal) ds ;;
            ds <-- status_if (hasLock p) (release bufTile bufLock releaseVal) ds ;;
            ret (result ds, g)
      | None => ret (check, g)
      end
  end.

Definition read_lock_values (aieml : bool) (p : rtp_config) : Z * Z :=
  let acq := s8 ACQ_READ in
  let rel := if isAsync p then s8 REL_READ else s8 REL_WRITE in
  if aieml then
    if isAsync p then (s8 AIE_ML_ASYNC_ACQ, rel) else (acq, s8 AIE_ML_REL_WRITE)
  else (acq, rel).

(** [src/common_layer/aeg_runtime_api.cpp:683-787] [graph_api::read]
    The bytes read are returned with the error code. *)
Definition read_rtp (cm : config_manager) (pRTPConfig : option rtp_config)
    (numBytes : Z) (g : graph_api) : M (err_code * list Z) :=
  match pGraphConfig g with
  | None => ret (errorMsg internal_error, [])
  | Some gc =>
      let check := checkRTPConfigForRead pRTPConfig (Some gc) numBytes in
      match pRTPConfig with
      | Some p =>
          if negb (is_ok check) then ret (check, [])
          else
            let bHasAndAcquireLock := acquires p g && hasLock p in
            let sel := selector_tile cm p in
            aieml <-- is_aieml cm ;;
            let '(acquireVal, releaseVal) := read_lock_values aieml p in
            ds <-- status_if bHasAndAcquireLock
                     (acquire sel (selectorLockId p) acquireVal) XAIE_OK ;;
            let* (r, ds) := status_out (XAie_DataMemRdWord sel (u32 (selectorAddr p))) ds in
            let '(bufTile, bufAddr, bufLock) := buffer_of cm p (out r) in
            ds <-- status_if bHasAndAcquireLock (acquire bufTile bufLock acquireVal) ds ;;
            ds <-- status_if bHasAndAcquireLock
                     (release sel (selectorLockId p) releaseVal) ds ;;
            let* (d, ds) := status_out
                     (XAie_DataMemBlockRead bufTile (u32 bufAddr) (u32 numBytes)) ds in
            ds <-- status_if bHasAndAcquireLock (release bufTile bufLock releaseVal) ds ;;
            ret (result ds, outb d)
      | None => ret (check, [])
      end
  end.
End Operations.

(** * Properties *)

Definition opt (b : bool) (c : call) : list call := if b then [c] else [].

Lemma status_if_eq `{rt : AieRt} b c ds h :
  status_if b c ds h = Some (codes ds h (opt b c), after h (opt b c)).
Proof. destruct b; [apply status_eq|]; unfold status_if, opt; by rewrite after_nil. Qed.
#[export] Hint Rewrite @status_if_eq : drv.

(** Writes to data memory, and lock operations, among a list of calls. *)
Definition is_data_write (c : call) : bool :=
  match c with XAie_DataMemWrWord _ _ _ | XAie_DataMemBlockWrite _ _ _ _ => true | _ => false end.
Definition data_writes : list call -> list call := List.filter is_data_write.

Definition acquired (cs : list call) : list (loc * Z) :=
  flat_map (fun c => match c with XAie_LockAcquire l k _ => [(l, LockId k)] | _ => [] end) cs.
Definition released (cs : list call) : list (loc * Z) :=
  flat_map (fun c => match c with XAie_LockRelease l k _ => [(l, LockId k)] | _ => [] end) cs.

Lemma data_writes_app a b : data_writes (a ++ b) = data_writes a ++ data_writes b.
Proof. apply List.filter_app. Qed.
Lemma acquired_app a b : acquired (a ++ b) = acquired a ++ acquired b.
Proof. apply flat_map_app. Qed.
Lemma released_app a b : released (a ++ b) = released a ++ released b.
Proof. apply flat_map_app. Qed.

Create Rewrite HintDb calls.
#[export] Hint Rewrite data_writes_app acquired_app released_app : calls.

Ltac calls_simpl := autorewrite with calls; unfold opt; simpl.

Section UpdateFacts.
Context `{rt : AieRt}.

Lemma result_ok ds : result ds = ok <-> ds = XAIE_OK.
Proof. unfold result; destruct (Z.eqb_spec ds XAIE_OK); simpl; split; done. Qed.

Lemma result_cases ds : result ds = ok \/ result ds = aie_driver_error.
Proof. unfold result; destruct (_ =? _); auto. Qed.

(** The contract of double buffering: selector 1 names the pong buffer, every
    other value the ping buffer. *)
Definition named_buffer (cm : config_manager) (p : rtp_config) (s : Z) : loc * Z * Z :=
  let pong := bool_decide (s = 1) in
  ((if pong then pong_tile cm p else ping_tile cm p),
   (if pong then pongAddr p else pingAddr p),
   (if pong then pongLockId p else pingLockId p)).

Lemma buffer_of_named cm p s : named_buffer cm p s = buffer_of cm p s.
Proof.
  unfold named_buffer, buffer_of; destruct (Z.eqb_spec s 1) as [->|H]; [done|].
  rewrite bool_decide_false by done; done.
Qed.

(** The lock ids as the driver sees them. *)
Definition sel_lock (cm : config_manager) (p : rtp_config) : loc * Z :=
  (selector_tile cm p, u16 (u16 (selectorLockId p))).
Definition buf_lock (cm : config_manager) (p : rtp_config) (s : Z) : loc * Z :=
  let '(t, _, k) := named_buffer cm p s in (t, u16 (u16 k)).

(** The two data-memory writes of an update that selects buffer [s]. *)
Definition update_writes (cm : config_manager) (p : rtp_config) (v : list Z) (n s : Z)
  : list call :=
  let '(t, a, _) := named_buffer cm p s in
  [XAie_DataMemBlockWrite t (u32 a) v (u32 n);
   XAie_DataMemWrWord (selector_tile cm p) (u32 (selectorAddr p)) (u32 s)].

(** The selector answer an update works from. *)
Definition pre_calls (cm : config_manager) (p : rtp_config) (acq : Z) (g : graph_api) : list call :=
  opt (hasLock p && acquires p g) (acquire (selector_tile cm p) (selectorLockId p) acq).
Definition read_selector (cm : config_manager) (p : rtp_config) : call :=
  XAie_DataMemRdWord (selector_tile cm p) (u32 (selectorAddr p)).

Definition rest_calls (cm : config_manager) (p : rtp_config) (v : list Z) (n acq s : Z)
    (g : graph_api) : list call :=
  let '(t, a, k) := buffer_of cm p s in
  opt (hasLock p && acquires p g) (acquire t k acq) ++ update_writes cm p v n s ++
  opt (hasLock p) (release (selector_tile cm p) (selectorLockId p) (s8 REL_READ)) ++
  opt (hasLock p) (release t k (s8 REL_READ)).

Lemma update_rtp_trace cm d p gc v n g h :
  pGraphConfig g = Some gc -> s_pDevInst cm = Some d ->
  checkRTPConfigForUpdate (Some p) (Some gc) n (isRunning g) = ok ->
  let aieml := XAIE_DEV_GEN_AIEML <=? getNormalizedDevGen (DevGen d) in
  let '(acq, g') := update_acquire_val aieml p g in
  let h1 := after h (pre_calls cm p acq g) in
  let s := u32 (1 - out (drv h1 (read_selector cm p))) in
  let cs := pre_calls cm p acq g ++ [read_selector cm p] ++ rest_calls cm p v n acq s g in
  update_rtp cm (Some p) v n g h = Some ((result (codes XAIE_OK h cs), g'), after h cs).
Proof.
  intros Hgc Hd Hck aieml.
  destruct (update_acquire_val aieml p g) as [acq g'] eqn:Ha; intros h1 s cs.
  unfold update_rtp; rewrite Hgc, Hck; change (negb (is_ok ok)) with false; cbv iota.
  unfold is_aieml; rewrite Hd; fold aieml.
  change (bind (ret aieml) ?k h) with (k aieml h); cbv beta; rewrite Ha.
  run_m; fold (pre_calls cm p acq g); fold h1; fold (read_selector cm p); fold s.
  unfold cs, rest_calls, update_writes; rewrite ?buffer_of_named.
  destruct (buffer_of cm p s) as [[t a] k]; run_m.
  unfold h1; rewrite ?after_app, <- !codes_app, <- !app_assoc; done.
Qed.

(** The word an update stores in the selector: the other of 0 and 1, and for any other word neither. *)
Lemma flip_selector cm p o : let s := u32 (1 - o) in
  (o = 0 \/ o = 1 -> s = 1 - o) /\
  (1 < o < 2 ^ 32 -> named_buffer cm p s = named_buffer cm p o).
Proof.
  cbv zeta; split; [intros [-> | ->]; reflexivity|].
  intros Ho; assert (Hs : u32 (1 - o) = 2 ^ 32 + (1 - o)).
  { unfold wrap_u; symmetry; apply (Z.mod_unique_pos _ _ (-1)); lia. }
  rewrite !buffer_of_named, Hs; unfold buffer_of.
  destruct (Z.eqb_spec (2 ^ 32 + (1 - o)) 1), (Z.eqb_spec o 1); done || lia.
Qed.

(** C2: let [o] be the selector word an update that passes the checks reads; 1 names the pong buffer,
    every other word the ping buffer.  The update writes data memory exactly twice, after that read:
    first the value into the buffer that [1 - o], as an unsigned word, names, and then that word into
    the selector; it succeeds exactly when every driver call did.  When [o] is 0 or 1 the buffer
    written is the other one, so the buffer the selector named is not written; for any other word [o]
    the update writes the very buffer [o] names. *)
Theorem update_writes_other_buffer_then_flips cm d p gc v n g h :
  pGraphConfig g = Some gc -> s_pDevInst cm = Some d ->
  checkRTPConfigForUpdate (Some p) (Some gc) n (isRunning g) = ok ->
  exists e g' cs pre post,
    let o := out (drv (after h pre) (read_selector cm p)) in
    let s := u32 (1 - o) in
    update_rtp cm (Some p) v n g h = Some ((e, g'), after h cs) /\
    cs = pre ++ [read_selector cm p] ++ post /\ data_writes pre = [] /\
    data_writes cs = update_writes cm p v n s /\
    (e = ok <-> all_ok h cs) /\
    (o = 0 \/ o = 1 -> s = 1 - o) /\
    (1 < o < 2 ^ 32 -> named_buffer cm p s = named_buffer cm p o).
Proof.
  intros Hgc Hd Hck.
  pose proof (update_rtp_trace cm d p gc v n g h Hgc Hd Hck) as H; cbv zeta in H.
  destruct (update_acquire_val _ p g) as [acq g'].
  set (o := out (drv (after h (pre_calls cm p acq g)) (read_selector cm p))) in H.
  eexists _, g', _, (pre_calls cm p acq g), _; cbv zeta; fold o; split; [exact H|].
  split; [reflexivity|]. split; [unfold pre_calls; destruct (_ && _); done|].
  split; [|split; [|apply flip_selector]].
  - unfold pre_calls, rest_calls, update_writes; rewrite ?buffer_of_named.
    destruct (buffer_of cm p (u32 (1 - o))) as [[t a] k].
    calls_simpl; destruct (hasLock p && acquires p g), (hasLock p); done.
  - rewrite result_ok, codes_zero; unfold XAIE_OK; tauto.
Qed.

#[export] Instance loc_eq_dec : EqDecision loc.
Proof. solve_decision. Defined.

(** ** Locks

    A trace obeys the locks [sel] of the selector word and [buf] of a buffer when every access to a
    word of data memory happens while [sel] is held, every access to a block while [buf] is held, and
    only what is held is released; the result is what is held at the end. *)
Definition needs (sel buf : loc * Z) (c : call) : option (loc * Z) :=
  match c with
  | XAie_DataMemRdWord _ _ | XAie_DataMemWrWord _ _ _ => Some sel
  | XAie_DataMemBlockWrite _ _ _ _ | XAie_DataMemBlockRead _ _ _ => Some buf
  | _ => None
  end.

Fixpoint remove_one (x : loc * Z) (l : list (loc * Z)) : option (list (loc * Z)) :=
  match l with
  | [] => None
  | y :: l => if decide (x = y) then Some l else cons y <$> remove_one x l
  end.

Definition lock_step (sel buf : loc * Z) (held : list (loc * Z)) (c : call) : option (list (loc * Z)) :=
  match c with
  | XAie_LockAcquire l k _ => Some ((l, LockId k) :: held)
  | XAie_LockRelease l k _ => remove_one (l, LockId k) held
  | _ => match needs sel buf c with
         | Some x => if decide (x ∈ held) then Some held else None
         | None => Some held
         end
  end.

Fixpoint locked (sel buf : loc * Z) (held : list (loc * Z)) (cs : list call) : option (list (loc * Z)) :=
  match cs with
  | [] => Some held
  | c :: cs => held' ← lock_step sel buf held c; locked sel buf held' cs
  end.

Definition is_release (c : call) : bool :=
  match c with XAie_LockRelease _ _ _ => true | _ => false end.

Lemma remove_one_head x l : remove_one x (x :: l) = Some l.
Proof. cbn; by rewrite decide_True. Qed.

Lemma remove_one_second x y : remove_one x [y; x] = Some [y].
Proof. cbn; destruct (decide (x = y)) as [->|]; [done|]; by rewrite decide_True. Qed.

Lemma locked_update sel buf l1 l2 k1 k2 k1' k2' t1 t2 t3 t4 a b c e f g i j m :
  sel = (l1, LockId k1) -> buf = (l2, LockId k2) -> LockId k1' = LockId k1 -> LockId k2' = LockId k2 ->
  locked sel buf []
    [XAie_LockAcquire l1 k1 t1; XAie_DataMemRdWord a b; XAie_LockAcquire l2 k2 t2;
     XAie_DataMemBlockWrite c e f g; XAie_DataMemWrWord i j m;
     XAie_LockRelease l1 k1' t3; XAie_LockRelease l2 k2' t4] = Some [].
Proof.
  intros -> -> E1 E2; cbn [locked lock_step needs mbind option_bind].
  rewrite E1, E2.
  do 3 (rewrite decide_True by set_solver; cbn [mbind option_bind]).
  rewrite remove_one_second; cbn [mbind option_bind]; by rewrite remove_one_head.
Qed.

Lemma locked_read sel buf l1 l2 k1 k2 k1' k2' t1 t2 t3 t4 a b c e f :
  sel = (l1, LockId k1) -> buf = (l2, LockId k2) -> LockId k1' = LockId k1 -> LockId k2' = LockId k2 ->
  locked sel buf []
    [XAie_LockAcquire l1 k1 t1; XAie_DataMemRdWord a b; XAie_LockAcquire l2 k2 t2;
     XAie_LockRelease l1 k1' t3; XAie_DataMemBlockRead c e f; XAie_LockRelease l2 k2' t4] = Some [].
Proof.
  intros -> -> E1 E2; cbn [locked lock_step needs mbind option_bind].
  rewrite E1, E2, decide_True by set_solver; cbn [mbind option_bind].
  rewrite remove_one_second; cbn [mbind option_bind]; rewrite decide_True by set_solver.
  cbn [mbind option_bind]; by rewrite remove_one_head.
Qed.

(** C31: lock discipline of an update that passes the checks.  While the graph runs (or the parameter is
    synchronous) a locked parameter acquires its selector lock and then the lock of the buffer it
    writes, reads and writes the selector word only while it holds the one and the buffer only while
    it holds the other, and in the end has released exactly these two.  An asynchronous parameter of
    a suspended graph acquires nothing and still releases both, so that the kernel can proceed; a
    parameter without locks touches none.  In every case nothing is released before the last access
    to data memory. *)
Theorem update_lock_discipline cm d p gc v n g h :
  pGraphConfig g = Some gc -> s_pDevInst cm = Some d ->
  checkRTPConfigForUpdate (Some p) (Some gc) n (isRunning g) = ok ->
  exists e g' cs s, update_rtp cm (Some p) v n g h = Some ((e, g'), after h cs) /\
    data_writes cs = update_writes cm p v n s /\
    acquired cs = (if hasLock p && acquires p g then [sel_lock cm p; buf_lock cm p s] else []) /\
    released cs = (if hasLock p then [sel_lock cm p; buf_lock cm p s] else []) /\
    (hasLock p && acquires p g = true -> locked (sel_lock cm p) (buf_lock cm p s) [] cs = Some []) /\
    (exists accesses post, cs = accesses ++ post /\ released accesses = [] /\ forallb is_release post = true).
Proof.
  intros Hgc Hd Hck.
  pose proof (update_rtp_trace cm d p gc v n g h Hgc Hd Hck) as H; cbv zeta in H.
  destruct (update_acquire_val _ p g) as [acq g'].
  set (s := u32 (1 - _)) in H.
  eexists _, g', _, s; split; [exact H|].
  unfold pre_calls, rest_calls, update_writes, buf_lock, sel_lock; rewrite ?buffer_of_named.
  destruct (buffer_of cm p s) as [[t a] k].
  split; [calls_simpl; destruct (hasLock p), (acquires p g); done|].
  split; [calls_simpl; destruct (hasLock p), (acquires p g); done|].
  split; [calls_simpl; destruct (hasLock p), (acquires p g); done|]. split.
  - intros Hl; rewrite Hl; apply andb_true_iff in Hl as [Hk _]; rewrite Hk.
    unfold opt, acquire, release, read_selector; cbn [app]; eapply locked_update; reflexivity.
  - exists (opt (hasLock p && acquires p g) (acquire (selector_tile cm p) (selectorLockId p) acq) ++
      [read_selector cm p] ++ opt (hasLock p && acquires p g) (acquire t k acq) ++
      [XAie_DataMemBlockWrite t (u32 a) v (u32 n);
       XAie_DataMemWrWord (selector_tile cm p) (u32 (selectorAddr p)) (u32 s)]),
      (opt (hasLock p) (release (selector_tile cm p) (selectorLockId p) (s8 REL_READ)) ++
       opt (hasLock p) (release t k (s8 REL_READ))).
    split; [by rewrite <- !app_assoc|].
    calls_simpl; destruct (hasLock p), (acquires p g); done.
Qed.
End UpdateFacts.

(** ** Reading *)

Section ReadFacts.
Context `{rt : AieRt}.

Lemma read_rtp_trace cm d p gc n g h :
  pGraphConfig g = Some gc -> s_pDevInst cm = Some d ->
  checkRTPConfigForRead (Some p) (Some gc) n = ok ->
  let lk := acquires p g && hasLock p in
  let '(acq, rel) :=
    read_lock_values (XAIE_DEV_GEN_AIEML <=? getNormalizedDevGen (DevGen d)) p in
  let pre := opt lk (acquire (selector_tile cm p) (selectorLockId p) acq) in
  let s := out (drv (after h pre) (read_selector cm p)) in
  let '(t, a, k) := buffer_of cm p s in
  let mid := pre ++ [read_selector cm p] ++ opt lk (acquire t k acq) ++
             opt lk (release (selector_tile cm p) (selectorLockId p) rel) in
  let rd := XAie_DataMemBlockRead t (u32 a) (u32 n) in
  let cs := mid ++ [rd] ++ opt lk (release t k rel) in
  read_rtp cm (Some p) n g h =
  Some ((result (codes XAIE_OK h cs), outb (drv (after h mid) rd)), after h cs).
Proof.
  intros Hgc Hd Hck lk.
  destruct (read_lock_values _ p) as [acq rel] eqn:Ha; intros pre s.
  destruct (buffer_of cm p s) as [[t a] k] eqn:Hb; intros mid rd cs.
  unfold read_rtp; rewrite Hgc, Hck; change (negb (is_ok ok)) with false; cbv iota.
  unfold is_aieml; rewrite Hd.
  change (bind (ret ?b) ?k h) with (k b h); cbv beta; rewrite Ha; fold lk.
  run_m; fold pre; fold (read_selector cm p); fold s; rewrite Hb; run_m.
  unfold cs, mid; rewrite <- !codes_app, <- !app_assoc; done.
Qed.

(** C32: a read that passes the checks writes no data memory and returns the bytes of the buffer the
    selector names (1 names the pong buffer, every other word the ping buffer).  While the graph runs
    (or the parameter is synchronous) a locked parameter acquires its selector lock and that buffer's
    lock, reads the selector word only while it holds the one and the buffer only while it holds the
    other, and in the end has released exactly these two; a parameter without locks, or an
    asynchronous one of a suspended graph, is read without touching any lock. *)
Theorem read_returns_selected_buffer cm d p gc n g h :
  pGraphConfig g = Some gc -> s_pDevInst cm = Some d ->
  checkRTPConfigForRead (Some p) (Some gc) n = ok ->
  exists e v cs pre mid, let s := out (drv (after h pre) (read_selector cm p)) in
    let '(t, a, k) := named_buffer cm p s in
    let rd := XAie_DataMemBlockRead t (u32 a) (u32 n) in
    read_rtp cm (Some p) n g h = Some ((e, v), after h cs) /\
    v = outb (drv (after h mid) rd) /\
    (exists rest, cs = mid ++ [rd] ++ rest) /\
    (exists rest, mid = pre ++ [read_selector cm p] ++ rest) /\
    data_writes cs = [] /\ (e = ok <-> all_ok h cs) /\
    acquired cs = released cs /\
    acquired cs = (if acquires p g && hasLock p
                   then [sel_lock cm p; buf_lock cm p s] else []) /\
    (acquires p g && hasLock p = true -> locked (sel_lock cm p) (buf_lock cm p s) [] cs = Some []).
Proof.
  intros Hgc Hd Hck.
  pose proof (read_rtp_trace cm d p gc n g h Hgc Hd Hck) as H; cbv zeta in H.
  destruct (read_lock_values _ p) as [acq rel].
  set (pre := opt _ _) in H.
  destruct (buffer_of cm p (out (drv (after h pre) (read_selector cm p)))) as [[t a] k] eqn:Hb.
  eexists _, _, _, pre, _; cbv zeta; rewrite buffer_of_named, Hb; split; [exact H|].
  split; [reflexivity|]; split; [eexists; rewrite <- !app_assoc; reflexivity|].
  split; [eexists; reflexivity|].
  rewrite result_ok, codes_zero.
  unfold buf_lock; rewrite buffer_of_named, Hb; unfold sel_lock, pre.
  split; [calls_simpl; destruct (_ && _); done|]. split; [unfold XAIE_OK; tauto|].
  split; [calls_simpl; destruct (_ && _); done|]. split; [calls_simpl; destruct (_ && _); done|].
  intros Hl; rewrite Hl.
  unfold opt, acquire, release, read_selector; cbn [app]; eapply locked_read; reflexivity.
Qed.
End ReadFacts.

(** ** Selector memory

    The history determines what the host last stored in a word of data memory;
    [None] when it stored nothing there or a block write may have covered it. *)
Fixpoint stored_word (rev_h : hist) (l : loc) (a : Z) : option Z :=
  match rev_h with
  | [] => None
  | (c, r) :: rev_h =>
      match c with
      | XAie_DataMemWrWord l' a' v =>
          if decide (Col l = Col l' /\ Row l = Row l') then
            if decide (a' = a) then Some v
            else if decide (a' + 4 <= a \/ a + 4 <= a') then stored_word rev_h l a else None
          else stored_word rev_h l a
      | XAie_DataMemBlockWrite l' a' _ size =>
          if decide (Col l = Col l' /\ Row l = Row l') then
            if decide (a' + size <= a \/ a + 4 <= a') then stored_word rev_h l a else None
          else stored_word rev_h l a
      | _ => stored_word rev_h l a
      end
  end.

(** The device returns a word the host stored, until the host stores again. *)
Class WordMemory `{rt : AieRt} : Prop := {
  read_stored : forall h l a v,
    stored_word (rev h) l a = Some v -> out (drv h (XAie_DataMemRdWord l a)) = v
}.

Lemma stored_word_skip `{rt : AieRt} h cs l a :
  Forall (fun c => is_data_write c = false) cs ->
  stored_word (rev (after h cs)) l a = stored_word (rev h) l a.
Proof.
  revert h; induction cs as [|c cs IH]; intros h Hf; [by rewrite after_nil|].
  inversion_clear Hf as [|? ? Hc Hcs].
  change (c :: cs) with ([c] ++ cs); rewrite <- after_app, IH by done.
  unfold after; simpl; rewrite rev_app_distr; destruct c; done.
Qed.

Lemma stored_word_last `{rt : AieRt} h l a v cs :
  Forall (fun c => is_data_write c = false) cs ->
  stored_word (rev (after h (XAie_DataMemWrWord l a v :: cs))) l a = Some v.
Proof.
  intros Hcs; change (XAie_DataMemWrWord l a v :: cs) with ([XAie_DataMemWrWord l a v] ++ cs).
  rewrite <- after_app, stored_word_skip by done.
  unfold after; simpl; rewrite rev_app_distr; simpl.
  rewrite decide_True, decide_True by auto; done.
Qed.

Section Alternation.
Context `{rt : AieRt} {word_memory : WordMemory}.

(** on a device that keeps stored words, two consecutive updates of a
    parameter whose selector holds 0 or 1 write two different buffers: the
    second update finds the selector of the first, so a kernel reading the value
    of the first update is not disturbed by the second. *)
Theorem consecutive_updates_alternate cm d p gc v1 v2 n g h :
  pGraphConfig g = Some gc -> s_pDevInst cm = Some d ->
  checkRTPConfigForUpdate (Some p) (Some gc) n (isRunning g) = ok ->
  exists e1 g1 cs1 e2 g2 cs2 s,
    update_rtp cm (Some p) v1 n g h = Some ((e1, g1), after h cs1) /\
    update_rtp cm (Some p) v2 n g1 (after h cs1) = Some ((e2, g2), after h (cs1 ++ cs2)) /\
    data_writes cs1 = update_writes cm p v1 n (u32 s) /\
    data_writes cs2 = update_writes cm p v2 n (u32 (1 - u32 s)) /\
    (u32 s = 0 \/ u32 s = 1 -> (u32 (1 - u32 s) =? 1) = negb (u32 s =? 1)).
Proof.
  intros Hgc Hd Hck.
  pose proof (update_rtp_trace cm d p gc v1 n g h Hgc Hd Hck) as H; cbv zeta in H.
  destruct (update_acquire_val _ p g) as [acq g1] eqn:Ha.
  assert (Hg1 : pGraphConfig g1 = pGraphConfig g /\ isRunning g1 = isRunning g).
  { unfold update_acquire_val in Ha; repeat case_match; simplify_eq; done. }
  destruct Hg1 as [Hg1 Hr1].
  set (s0 := out (drv _ _)) in H.
  set (cs1 := pre_calls cm p acq g ++ _) in H.
  rewrite <- Hg1 in Hgc; rewrite <- Hr1 in Hck.
  pose proof (update_rtp_trace cm d p gc v2 n g1 (after h cs1) Hgc Hd Hck) as H'; cbv zeta in H'.
  destruct (update_acquire_val _ p g1) as [acq' g2].
  assert (Hs : out (drv (after (after h cs1) (pre_calls cm p acq' g1)) (read_selector cm p))
               = u32 (1 - s0)).
  { apply read_stored.
    rewrite stored_word_skip
      by (unfold pre_calls, opt; destruct (_ && _); repeat constructor).
    unfold cs1, rest_calls, update_writes; rewrite ?buffer_of_named.
    destruct (buffer_of cm p (u32 (1 - s0))) as [[t a] k].
    rewrite !app_assoc, <- (app_assoc _ (opt (hasLock p) _)).
    match goal with |- context [(?x ++ [?b; ?w]) ++ ?rest] =>
      replace ((x ++ [b; w]) ++ rest) with ((x ++ [b]) ++ (w :: rest))
        by (rewrite <- !app_assoc; done) end.
    rewrite <- after_app, stored_word_last, wrap_u_idemp by
      (lia || (unfold opt; destruct (hasLock p); repeat constructor)); done. }
  rewrite Hs in H'; rewrite !after_app in H'.
  eexists _, g1, cs1, _, g2, _, (1 - s0); split; [exact H|].
  split; [exact H'|]; split.
  - unfold cs1, pre_calls, rest_calls, update_writes; rewrite ?buffer_of_named.
    destruct (buffer_of cm p (u32 (1 - s0))) as [[t a] k].
    calls_simpl; destruct (hasLock p), (acquires p g); done.
  - split; [|intros [-> | ->]; done].
    unfold pre_calls, rest_calls, update_writes; rewrite ?buffer_of_named.
    destruct (buffer_of cm p _) as [[t a] k].
    calls_simpl; destruct (hasLock p), (acquires p g1); done.
Qed.
End Alternation.

(** A device with word memory: unwritten words read as zero. *)
Definition mem_rt : AieRt := {|
  drv := fun h c =>
    match c with
    | XAie_DataMemRdWord l a => mkResp 0 (default 0 (stored_word (rev h) l a)) []
    | _ => mkResp 0 0 []
    end;
  XAIE_ERR := 1; XAIE_CORE_STATUS_TIMEOUT := 12; XAIE_LOCK_WITH_NO_VALUE := -1;
  XAIE_DEV_GEN_AIE := 1; XAIE_DEV_GEN_AIEML := 2; XAIE_DEV_GEN_S100 := 6;
  XAIE_DEV_GEN_S200 := 7 |}.

Lemma mem_rt_words : @WordMemory mem_rt.
Proof. constructor; intros h l a v H; simpl; by rewrite H. Qed.

(** An asynchronous input parameter and an output parameter of the demo graph. *)
Definition demo_rtp (input : bool) : rtp_config :=
  {| portId := 3; aliasId := 0; portName := "g.k.in[0]"; aliasName := ""; rtp_graphId := 0;
     isInput := input; isAsync := true; isConnect := false; rtp_numBytes := 4; isPL := false;
     hasLock := true; selectorColumn := 6; selectorRow := 0; selectorAddr := 0x100;
     selectorLockId := 1; pingColumn := 6; pingRow := 0; pingAddr := 0x200; pingLockId := 2;
     pongColumn := 6; pongRow := 0; pongAddr := 0x300; pongLockId := 3 |}.
Definition demo_running : graph_api := set_running true demo_graph.

Lemma update_writes_other_buffer_then_flips_witness :
  exists cs, data_writes cs = update_writes demo_cm (demo_rtp true) [1; 2; 3; 4] 4 1.
Proof.
  destruct (@update_writes_other_buffer_then_flips mem_rt demo_cm {| DevGen := 2 |}
    (demo_rtp true) demo_config [1; 2; 3; 4] 4 demo_running [] eq_refl eq_refl eq_refl)
    as (e & g' & cs & pre & post & _ & _ & Hp & Hw & _).
  exists cs; rewrite Hw.
  assert (E : @drv mem_rt (@after mem_rt [] pre) (read_selector demo_cm (demo_rtp true)) = mkResp 0 0 []).
  { simpl; rewrite stored_word_skip; [reflexivity|].
    apply List.Forall_forall; intros c Hc; destruct (is_data_write c) eqn:E; [|done].
    exfalso; assert (Hin : In c (data_writes pre)) by (apply filter_In; done).
    rewrite Hp in Hin; exact Hin. }
  rewrite E; reflexivity.
Defined.

Lemma update_lock_discipline_witness :
  exists e g' cs s,
    @update_rtp mem_rt demo_cm (Some (demo_rtp true)) [1; 2; 3; 4] 4 demo_running [] =
      Some ((e, g'), @after mem_rt [] cs) /\
    acquired cs = released cs /\ acquired cs = [sel_lock demo_cm (demo_rtp true);
                                                buf_lock demo_cm (demo_rtp true) s].
Proof.
  destruct (@update_lock_discipline mem_rt demo_cm {| DevGen := 2 |} (demo_rtp true) demo_config
    [1; 2; 3; 4] 4 demo_running [] eq_refl eq_refl eq_refl) as (e & g' & cs & s & H & _ & Ha & Hr & _).
  exists e, g', cs, s; split; [exact H|]; rewrite Ha, Hr; split; reflexivity.
Defined.

Lemma read_returns_selected_buffer_witness :
  exists e v cs, @read_rtp mem_rt demo_cm (Some (demo_rtp false)) 4 demo_running [] =
    Some ((e, v), @after mem_rt [] cs) /\ data_writes cs = [].
Proof.
  destruct (@read_returns_selected_buffer mem_rt demo_cm {| DevGen := 2 |} (demo_rtp false)
    demo_config 4 demo_running [] eq_refl eq_refl eq_refl) as (e & v & cs & pre & mid & H).
  cbv zeta in H; destruct (named_buffer _ _ _) as [[t a] k].
  destruct H as (H & _ & _ & _ & Hw & _); exists e, v, cs; split; [exact H|exact Hw].
Defined.

Lemma consecutive_updates_alternate_witness :
  exists cs1 cs2 s,
    data_writes cs1 = update_writes demo_cm (demo_rtp true) [1; 2; 3; 4] 4 (u32 s) /\
    data_writes cs2 = update_writes demo_cm (demo_rtp true) [5; 6; 7; 8] 4 (u32 (1 - u32 s)).
Proof.
  destruct (@consecutive_updates_alternate mem_rt mem_rt_words demo_cm {| DevGen := 2 |}
    (demo_rtp true) demo_config [1; 2; 3; 4] [5; 6; 7; 8] 4 demo_running []
    eq_refl eq_refl eq_refl) as (e1 & g1 & cs1 & e2 & g2 & cs2 & s & _ & _ & H1 & H2 & _).
  exists cs1, cs2, s; split; [exact H1|exact H2].
Defined.

(** ** First update of an asynchronous port, and argument checks *)

Section AcquireValues.
Context `{rt : AieRt}.

(** on AIE-ML the first update of an asynchronous port acquires its locks
    with value 0 and records the port, every later one with -1 and records
    nothing; so after any number of updates a port is recorded once. *)
Theorem async_first_time_once p g :
  isAsync p = true -> NoDup (asyncNotFirstTimePorts g) ->
  let '(v, g') := update_acquire_val true p g in
  NoDup (asyncNotFirstTimePorts g') /\ portId p ∈ asyncNotFirstTimePorts g' /\
  (v = 0 <-> portId p ∉ asyncNotFirstTimePorts g) /\
  (v = -1 <-> portId p ∈ asyncNotFirstTimePorts g) /\
  update_acquire_val true p g' = (-1, g').
Proof.
  intros Ha Hnd; unfold update_acquire_val at 1; rewrite Ha; simpl.
  case_decide as Hin; simpl.
  - split; [done|]; split; [done|].
    split; [split; [done|intros []; done]|]; split; [done|].
    unfold update_acquire_val; rewrite Ha; simpl; rewrite decide_True by done; done.
  - split; [apply NoDup_app; split; [done|]; split;
            [intros x Hx Hx2; apply list_elem_of_singleton in Hx2; congruence
            |apply NoDup_singleton]|].
    assert (Hin' : portId p ∈ asyncNotFirstTimePorts g ++ [portId p]) by set_solver.
    split; [done|]; split; [done|]; split; [split; [done|intros; done]|].
    unfold update_acquire_val; rewrite Ha; simpl; rewrite decide_True by done; done.
Qed.

(** [checkRTPConfigForUpdate] accepts exactly an input port of the graph
    with the right size that is unconnected, or connected inside the AIE array
    asynchronously while the graph is not running. *)
Theorem rtp_update_accepts p gc n running :
  checkRTPConfigForUpdate (Some p) (Some gc) n running = ok <->
  rtp_graphId p = gc_id gc /\ isInput p = true /\ n = rtp_numBytes p /\
  (isConnect p = true -> isPL p = false /\ isAsync p = true /\ running = false).
Proof.
  unfold checkRTPConfigForUpdate, errorMsg.
  destruct (Z.eqb_spec (rtp_graphId p) (gc_id gc)), (isInput p),
    (Z.eqb_spec n (rtp_numBytes p)), (isConnect p), (isPL p), (isAsync p), running;
    simpl; intuition congruence.
Qed.
End AcquireValues.

Lemma async_first_time_once_witness :
  isAsync (demo_rtp true) = true /\ NoDup (asyncNotFirstTimePorts demo_running) /\
  let '(v, g') := @update_acquire_val ok_rt true (demo_rtp true) demo_running in
  portId (demo_rtp true) ∈ asyncNotFirstTimePorts g'.
Proof.
  split; [reflexivity|]; split; [apply NoDup_nil_2|].
  pose proof (@async_first_time_once ok_rt (demo_rtp true) demo_running eq_refl (NoDup_nil_2)) as H.
  destruct (update_acquire_val true (demo_rtp true) demo_running); apply H.
Defined.

(** ** Shared buffers *)

Section SharedBuffer.
Context `{rt : AieRt}.

Definition shared_tile (b : shared_buffer_config) : loc :=
  XAie_TileLoc (u8 (sb_column b)) (u8 (sb_row b + 1)).

(** The calls of a shared-buffer update with lock values [prd], [cns]. *)
Definition shared_calls (b : shared_buffer_config) (pl cl addr prd cns : Z)
    (v : list Z) (n : Z) : list call :=
  [acquire (shared_tile b) pl prd; acquire (shared_tile b) cl cns;
   XAie_DataMemBlockWrite (shared_tile b) (u32 addr) v (u32 n);
   release (shared_tile b) pl 1; release (shared_tile b) cl (numOutputs b)].

(** updating a shared buffer takes the producer lock and the consumer lock,
    writes the value, and releases both, in this order.  The consumer lock is
    taken once per reader, except on the first update of a buffer without an
    initial value, which takes both locks unconditionally; the buffer is
    recorded, so this happens at most once. *)
Theorem update_shared_protocol b gc v n inited g h pl pls cl cls addr addrs :
  pGraphConfig g = Some gc ->
  checkSharedBufferConfigForUpdate (Some b) (Some gc) n = ok ->
  producerLocks b = pl :: pls -> consumerLocks b = cl :: cls -> sb_addr b = addr :: addrs ->
  exists prd cns, let cs := shared_calls b pl cl addr prd cns v n in
    update_shared (Some b) v n inited g h =
      Some ((result (codes XAIE_OK h cs), {[sb_id b]} ∪ inited), after h cs) /\
    ((prd, cns) = (0, 0) \/ (prd, cns) = (-1, - numOutputs b)) /\
    (sb_id b ∈ inited -> (prd, cns) = (-1, - numOutputs b)) /\
    (initialized b = true -> (prd, cns) = (-1, - numOutputs b)).
Proof.
  intros Hgc Hck Hp Hc Ha; unfold update_shared; rewrite Hgc, Hck, Hp, Hc, Ha.
  change (negb (is_ok ok)) with false; cbv iota.
  destruct (shared_lock_values inited b) as [prd cns] eqn:Hv; exists prd, cns; split.
  - run_m; rewrite <- !codes_app, <- !app_assoc; done.
  - unfold shared_lock_values in Hv; case_decide; destruct (initialized b);
      simpl in Hv; simplify_eq; repeat split; intros; first [by auto|contradiction|discriminate].
Qed.
End SharedBuffer.

Definition demo_shared : shared_buffer_config :=
  {| sb_id := 5; sb_name := "mt"; sb_graphId := 0; sb_numBytes := 4; sb_column := 6; sb_row := 0;
     numInputs := 0; numOutputs := 2; elemType := et_int32; initialized := false;
     sb_addr := [0x40]; producerLocks := [0]; consumerLocks := [1] |}.

Lemma update_shared_protocol_witness :
  exists prd cns,
    @update_shared ok_rt (Some demo_shared) [1; 2; 3; 4] 4 ∅ demo_graph [] =
      Some ((ok, {[5]} ∪ ∅), @after ok_rt []
              (shared_calls demo_shared 0 1 0x40 prd cns [1; 2; 3; 4] 4)).
Proof.
  destruct (@update_shared_protocol ok_rt demo_shared demo_config [1; 2; 3; 4] 4 ∅ demo_graph []
    0 [] 1 [] 0x40 [] eq_refl eq_refl eq_refl eq_refl eq_refl) as (prd & cns & H & _).
  exists prd, cns; exact H.
Defined.
