(* ===== verification/Gmio.v ===== *)
(** The GMIO controller ([gmio_api], [src/common_layer/aeg_runtime_api.cpp]).

    A GMIO port streams between global memory and the array through one channel
    of a shim DMA.  It owns as many buffer descriptors (BDs) as the channel's
    start queue has entries and recycles them through two queues: the BDs that
    may be programmed and the BDs handed to the hardware, oldest first. *)
From stdpp Require Import base list strings relations.
From Stdlib Require Import ZArith Lia.
From S2P Require Import Prelude ApiTypes Driver GraphApi Rtp.
Local Open Scope Z_scope.
Local Open Scope aeg_scope.

(** [src/common_layer/aeg_runtime_api.cpp:793-797] [convertLogicalToPhysicalDMAChNum] *)
Definition convertLogicalToPhysicalDMAChNum (logicalChNum : Z) : Z :=
  let physical := if 1 <? logicalChNum then s16 (logicalChNum - 2) else logicalChNum in
  u8 physical.

(** [src/common_layer/aeg_runtime_api.cpp:801-805] [frontAndPop] *)
Definition frontAndPop (bdQueue : list Z) : option (Z * list Z) := front_pop bdQueue.

(** [src/include/common_layer/aeg_runtime_api.h:79-107] [gmio_api]
    [shimDmaInst] is the identity of the object's own descriptor. *)
Record gmio_api := {
  pGMIOConfig : option gmio_config;
  shimDmaInst : Z;
  gmioTileLoc : loc;
  gmio_isConfigured : bool;
  dmaStartQMaxSize : Z;
  enqueuedBDs : list Z;
  availableBDs : list Z
}.

(** [src/common_layer/aeg_runtime_api.cpp:808-808] [gmio_api::gmio_api] *)
Definition gmio_api_new (pConfig : option gmio_config) (desc : Z) : gmio_api :=
  {| pGMIOConfig := pConfig; shimDmaInst := desc; gmioTileLoc := mkLoc 0 0;
     gmio_isConfigured := false; dmaStartQMaxSize := 4;
     enqueuedBDs := []; availableBDs := [] |}.

Definition set_queues (enq avail : list Z) (g : gmio_api) : gmio_api :=
  {| pGMIOConfig := pGMIOConfig g; shimDmaInst := shimDmaInst g;
     gmioTileLoc := gmioTileLoc g; gmio_isConfigured := gmio_isConfigured g;
     dmaStartQMaxSize := dmaStartQMaxSize g;
     enqueuedBDs := enq; availableBDs := avail |}.

Definition to_aie (c : gmio_config) : bool :=
  bool_decide (type c = gm2aie) || bool_decide (type c = aie2gm).

(** [(pGMIOConfig->type == gmio_config::gm2aie) ? DMA_MM2S : DMA_S2MM] *)
Definition gmio_dir (c : gmio_config) : Z :=
  if bool_decide (type c = gm2aie) then DMA_MM2S else DMA_S2MM.
Definition gmio_channel (c : gmio_config) : Z :=
  convertLogicalToPhysicalDMAChNum (channelNum c).

(** The BD numbers [channelNum * queueSize + j]; [push] converts the [int32_t]
    number to the queue's [size_t]. *)
Definition bd_numbers (c : gmio_config) (queueSize : Z) : list Z :=
  map (fun j => u64 (channelNum c * queueSize + Z.of_nat j)) (seq 0 (Z.to_nat queueSize)).

Section Operations.
Context `{rt : AieRt}.

Definition axi_call (c : gmio_config) (g : gmio_api) : call :=
  XAie_DmaSetAxi (shimDmaInst g) 0 (u8 (burstLength c)) 0 0 0.

(** [src/common_layer/aeg_runtime_api.cpp:810-850] [gmio_api::configure] *)
Definition gmio_configure (g : gmio_api) : M (err_code * gmio_api) :=
  match pGMIOConfig g with
  | None => ret (errorMsg internal_error, g)
  | Some c =>
      if to_aie c then
        let tile := XAie_TileLoc (u8 (shimColumn c)) (u8 0) in
        ds <-- status (XAie_DmaDescInit (shimDmaInst g) tile) XAIE_OK ;;
        ds <-- status (XAie_DmaChannelEnable tile (gmio_channel c) (gmio_dir c)) ds ;;
        let* (r, ds) := status_out (XAie_DmaGetMaxQueueSize tile) ds in
        let queueSize := u8 (out r) in
        ds <-- for_each (fun _ ds => status (axi_call c g) ds)
                 (seq 0 (Z.to_nat queueSize)) ds ;;
        let g' := {| pGMIOConfig := pGMIOConfig g; shimDmaInst := shimDmaInst g;
                     gmioTileLoc := tile; gmio_isConfigured := gmio_isConfigured g;
                     dmaStartQMaxSize := queueSize; enqueuedBDs := enqueuedBDs g;
                     availableBDs := availableBDs g ++ bd_numbers c queueSize |} in
        if negb (ds =? XAIE_OK) then ret (errorMsg aie_driver_error, g')
        else ret (ok, {| pGMIOConfig := pGMIOConfig g'; shimDmaInst := shimDmaInst g';
                         gmioTileLoc := gmioTileLoc g'; gmio_isConfigured := true;
                         dmaStartQMaxSize := dmaStartQMaxSize g';
                         enqueuedBDs := enqueuedBDs g'; availableBDs := availableBDs g' |})
      else ret (errorMsg aie_driver_error, g)
  end.

(** [n] iterations of [availableBDs.push(frontAndPop(enqueuedBDs))]
    ([src/common_layer/aeg_runtime_api.cpp:876-879]); an empty queue is undefined. *)
Fixpoint recycle (n : nat) (enq avail : list Z) : option (list Z * list Z) :=
  match n with
  | O => Some (enq, avail)
  | S n =>
      match frontAndPop enq with
      | None => None
      | Some (bd, enq) => recycle n enq (avail ++ [bd])
      end
  end.

(** How many BDs the hardware has finished: an [int32_t] difference of a
    [uint32_t] subtraction. *)
Definition numBDCompleted (g : gmio_api) (pending : Z) : Z :=
  s32 (u32 (dmaStartQMaxSize g - u8 pending)).

(** The loop that waits for an available BD
    ([src/common_layer/aeg_runtime_api.cpp:864-880]). *)
Fixpoint wait_available (fuel : nat) (c : gmio_config) (g : gmio_api) (ds : Z)
  : M (gmio_api * Z) :=
  match availableBDs g with
  | _ :: _ => ret (g, ds)
  | [] =>
      match fuel with
      | O => out_of_fuel
      | S fuel =>
          let* (r, ds) := status_out
            (XAie_DmaGetPendingBdCount (gmioTileLoc g) (gmio_channel c) (gmio_dir c)) ds in
          match recycle (Z.to_nat (numBDCompleted g (out r))) (enqueuedBDs g) [] with
          | None => undefined
          | Some (enq, avail) => wait_available fuel c (set_queues enq avail g) ds
          end
      end
  end.

Definition bd_lock_value (aieml : bool) : Z := if aieml then 0 else XAIE_LOCK_WITH_NO_VALUE.

(** The calls that program BD [bd] and hand it to the channel. *)
Definition bd_calls (aieml : bool) (c : gmio_config) (g : gmio_api) (bd addr size : Z)
  : list call :=
  let k := XAie_LockInit (u16 bd) (s8 (bd_lock_value aieml)) in
  [XAie_DmaSetAddrLen (shimDmaInst g) (u64 addr) (u32 size);
   XAie_DmaSetLock (shimDmaInst g) k k;
   XAie_DmaEnableBd (shimDmaInst g);
   XAie_DmaWriteBd (shimDmaInst g) (gmioTileLoc g) (u16 bd);
   XAie_DmaChannelPushBdToQueue (gmioTileLoc g) (gmio_channel c) (gmio_dir c) (u16 bd)].

(** [src/common_layer/aeg_runtime_api.cpp:855-926] [gmio_api::enqueueBD] *)
Definition enqueueBD (fuel : nat) (cm : config_manager) (addr size : Z) (g : gmio_api)
  : M (err_code * gmio_api) :=
  match pGMIOConfig g, gmio_isConfigured g with
  | Some c, true =>
      let* (g, ds) := wait_available fuel c g XAIE_OK in
      match frontAndPop (availableBDs g) with
      | None => undefined
      | Some (bd, avail) =>
          let g' := set_queues (enqueuedBDs g) avail g in
          aieml <-- is_aieml cm ;;
          ds <-- for_each (fun k ds => status k ds) (bd_calls aieml c g' bd addr size) ds ;;
          let g'' := set_queues (enqueuedBDs g' ++ [bd]) avail g' in
          if negb (ds =? XAIE_OK) then ret (errorMsg aie_driver_error, g'')
          else ret (ok, g'')
      end
  | _, _ => ret (errorMsg internal_error, g)
  end.

(** The loop that returns every enqueued BD
    ([src/common_layer/aeg_runtime_api.cpp:953-956]). *)
Fixpoint drain (enq avail : list Z) : list Z :=
  match enq with
  | [] => avail
  | bd :: enq => drain enq (avail ++ [bd])
  end.

Definition gmio_done_call (c : gmio_config) (g : gmio_api) : call :=
  XAie_DmaWaitForDone (gmioTileLoc g) (gmio_channel c) (gmio_dir c) (u32 0).

(** [src/common_layer/aeg_runtime_api.cpp:928-959] [gmio_api::wait] *)
Definition gmio_wait (fuel : nat) (syncmode : bool) (g : gmio_api)
  : M (err_code * gmio_api) :=
  match pGMIOConfig g, gmio_isConfigured g with
  | Some c, true =>
      if bool_decide (type c = gm2pl) || bool_decide (type c = pl2gm)
      then ret (errorMsg user_error, g)
      else
        e <-- (if syncmode then
                 poll_until fuel (gmio_done_call c g) (fun r => rc r =? XAIE_OK) 0 ;;;
                 ret ok
               else
                 r <-- exec (gmio_done_call c g) ;;
                 ret (if negb (rc r =? XAIE_OK) then resource_unavailable else ok)) ;;
        ret (e, set_queues [] (drain (enqueuedBDs g) (availableBDs g)) g)
  | _, _ => ret (errorMsg internal_error, g)
  end.
End Operations.

(** * Properties *)

(** The BDs of a configured port are split between its two queues. *)
Definition gmio_inv (c : gmio_config) (g : gmio_api) : Prop :=
  pGMIOConfig g = Some c /\ gmio_isConfigured g = true /\
  0 <= dmaStartQMaxSize g < 256 /\
  availableBDs g ++ enqueuedBDs g ≡ₚ bd_numbers c (dmaStartQMaxSize g).

Lemma recycle_spec n enq avail :
  (n <= length enq)%nat -> recycle n enq avail = Some (drop n enq, avail ++ take n enq).
Proof.
  revert enq avail; induction n as [|n IH]; intros enq avail Hn; simpl.
  - by rewrite app_nil_r.
  - destruct enq as [|bd enq]; simpl in *; [lia|].
    rewrite IH, <- app_assoc by lia; done.
Qed.

Lemma drain_eq enq avail : drain enq avail = avail ++ enq.
Proof.
  revert avail; induction enq as [|bd enq IH]; intros; simpl; [by rewrite app_nil_r|].
  rewrite IH, <- app_assoc; done.
Qed.

Lemma bd_numbers_length c q : 0 <= q -> length (bd_numbers c q) = Z.to_nat q.
Proof. intros; unfold bd_numbers; rewrite length_map, length_seq; done. Qed.

Lemma bd_numbers_NoDup c q : 0 <= q < 256 -> NoDup (bd_numbers c q).
Proof.
  intros Hq; unfold bd_numbers; apply NoDup_ListNoDup, Finite.Injective_map_NoDup_in.
  - intros i j Hi Hj; apply in_seq in Hi, Hj; unfold wrap_u; intros E.
    set (a := channelNum c * q) in *.
    pose proof (Z.div_mod (a + Z.of_nat i) (2 ^ 64) ltac:(lia)).
    pose proof (Z.div_mod (a + Z.of_nat j) (2 ^ 64) ltac:(lia)).
    rewrite E in *; nia.
  - apply seq_NoDup.
Qed.

Lemma gmio_inv_length c g :
  gmio_inv c g ->
  Z.of_nat (length (availableBDs g) + length (enqueuedBDs g)) = dmaStartQMaxSize g.
Proof.
  intros (_ & _ & Hq & HP); apply Permutation_length in HP.
  rewrite length_app, bd_numbers_length in HP by lia; lia.
Qed.

Lemma gmio_inv_NoDup c g :
  gmio_inv c g -> NoDup (availableBDs g ++ enqueuedBDs g).
Proof. intros (_ & _ & Hq & HP); rewrite HP; apply bd_numbers_NoDup; done. Qed.

Lemma gmio_inv_set_queues c g enq avail :
  gmio_inv c g -> avail ++ enq ≡ₚ availableBDs g ++ enqueuedBDs g ->
  gmio_inv c (set_queues enq avail g).
Proof.
  intros (? & ? & ? & HP) HQ; repeat split; simpl; try done; try lia.
  rewrite HQ; exact HP.
Qed.

Section GmioFacts.
Context `{rt : AieRt}.

Lemma result_ok_iff h cs : result (codes XAIE_OK h cs) = ok <-> all_ok h cs.
Proof. rewrite result_ok, codes_zero; unfold XAIE_OK; tauto. Qed.

Definition pending_call (c : gmio_config) (g : gmio_api) : call :=
  XAie_DmaGetPendingBdCount (gmioTileLoc g) (gmio_channel c) (gmio_dir c).

(** An answer that reports a completed BD. *)
Definition has_completed (g : gmio_api) (r : resp) : bool :=
  u8 (out r) <? dmaStartQMaxSize g.

Lemma numBDCompleted_eq g p :
  0 <= dmaStartQMaxSize g < 256 ->
  Z.to_nat (numBDCompleted g p) = Z.to_nat (dmaStartQMaxSize g - u8 p).
Proof.
  intros Hq; unfold numBDCompleted.
  pose proof (wrap_u_range 8 p ltac:(lia)); set (x := u8 p) in *.
  destruct (decide (x <= dmaStartQMaxSize g)).
  - rewrite (wrap_u_small 32), wrap_s_small; lia.
  - assert (E : u32 (dmaStartQMaxSize g - x) = dmaStartQMaxSize g - x + 2 ^ 32).
    { unfold wrap_u; rewrite <- (Z.mod_add _ 1) by lia; apply Z.mod_small; lia. }
    rewrite E; unfold wrap_s.
    rewrite <- (Z.mod_add _ (-1)) by lia; rewrite Z.mod_small; lia.
Qed.

(** The queues after an answer [r]: the oldest BDs were completed. *)
Definition recycled (g : gmio_api) (r : resp) : gmio_api :=
  let k := Z.to_nat (dmaStartQMaxSize g - u8 (out r)) in
  set_queues (drop k (enqueuedBDs g)) (take k (enqueuedBDs g)) g.

(** With every BD in flight the loop is a poll for a completed BD. *)
Lemma wait_available_poll fuel c g ds h :
  gmio_inv c g -> availableBDs g = [] ->
  wait_available fuel c g ds h =
    match poll_until fuel (pending_call c g) (has_completed g) ds h with
    | Some ((r, ds'), h') => Some ((recycled g r, ds'), h')
    | None => None
    end.
Proof.
  intros Hinv Hav; pose proof (gmio_inv_length _ _ Hinv) as Hlen.
  pose proof Hinv as (_ & _ & Hq & _); rewrite Hav in Hlen; simpl in Hlen.
  revert ds h; induction fuel as [|fuel IH]; intros ds h;
    cbn [wait_available poll_until]; rewrite Hav; [done|].
  rewrite !(bind_Some _ _ _ _ _ (status_out_eq _ _ _)).
  change (XAie_DmaGetPendingBdCount _ _ _) with (pending_call c g).
  set (r := drv h (pending_call c g)); rewrite numBDCompleted_eq by done.
  pose proof (wrap_u_range 8 (out r) ltac:(lia)).
  rewrite recycle_spec by lia; unfold has_completed at 1.
  destruct (Z.ltb_spec (u8 (out r)) (dmaStartQMaxSize g)) as [Hlt|Hge].
  - unfold recycled; set (k := Z.to_nat _).
    destruct (enqueuedBDs g) as [|b l] eqn:E; [simpl in Hlen; lia|].
    unfold ret; fold k; destruct k as [|k0] eqn:Ek; [lia|]; destruct fuel; done.
  - replace (Z.to_nat _) with O by lia; rewrite drop_0, take_0.
    replace (set_queues (enqueuedBDs g) ([] ++ []) g) with g
      by (destruct g; simpl in *; subst; done).
    apply IH.
Qed.

(** The port after BD [bd], the head of the available queue, was handed over. *)
Definition pushed (g : gmio_api) : gmio_api :=
  match availableBDs g with
  | [] => g
  | bd :: avail => set_queues (enqueuedBDs g ++ [bd]) avail g
  end.

Definition lowest_bd (g : gmio_api) : Z := hd 0 (availableBDs g).

(** The part of [enqueueBD] after a BD became available. *)
Lemma enqueueBD_tail fuel cm d c g g1 ds1 addr size h h1 :
  gmio_inv c g -> s_pDevInst cm = Some d ->
  wait_available fuel c g XAIE_OK h = Some ((g1, ds1), h1) ->
  availableBDs g1 <> [] ->
  let aieml := XAIE_DEV_GEN_AIEML <=? getNormalizedDevGen (DevGen d) in
  let cs := bd_calls aieml c g1 (lowest_bd g1) addr size in
  enqueueBD fuel cm addr size g h =
    Some ((result (codes ds1 h1 cs), pushed g1), after h1 cs).
Proof.
  intros (Hc & Hconf & _) Hd Hw Hne; unfold enqueueBD; rewrite Hc, Hconf.
  rewrite (bind_Some _ _ _ _ _ Hw); unfold pushed, lowest_bd.
  destruct (availableBDs g1) as [|bd avail]; [done|]; change (frontAndPop (bd :: avail)) with (Some (bd, avail)); cbv iota beta.
  unfold is_aieml; rewrite Hd; run_m.
  rewrite map_id; unfold result; simpl hd.
  change (bd_calls _ c (set_queues _ _ g1) bd addr size) with
    (bd_calls (XAIE_DEV_GEN_AIEML <=? getNormalizedDevGen (DevGen d)) c g1 bd addr size).
  destruct (_ =? XAIE_OK); reflexivity.
Qed.

Lemma gmio_inv_pushed c g : gmio_inv c g -> gmio_inv c (pushed g).
Proof.
  intros H; unfold pushed; destruct (availableBDs g) as [|bd avail] eqn:E; [done|].
  apply gmio_inv_set_queues; [done|]; rewrite E, app_assoc; simpl.
  by rewrite <- Permutation_cons_append.
Qed.

Lemma gmio_inv_recycled c g r :
  gmio_inv c g -> availableBDs g = [] -> gmio_inv c (recycled g r).
Proof.
  intros H E; apply gmio_inv_set_queues; [done|]; rewrite E, take_drop; done.
Qed.

(** What the wait loop returns, when it returns. *)
Lemma wait_available_inv fuel c g ds h g1 ds1 h1 :
  gmio_inv c g -> wait_available fuel c g ds h = Some ((g1, ds1), h1) ->
  gmio_inv c g1 /\ availableBDs g1 <> [].
Proof.
  intros Hinv Hw; destruct (availableBDs g) as [|bd l] eqn:E.
  - rewrite wait_available_poll in Hw by done.
    destruct (poll_until _ _ _ _ _) as [[[r ds'] h']|] eqn:Hp; [|done]; simplify_eq.
    split; [by apply gmio_inv_recycled|]; intros E'; simpl in E'.
    destruct (poll_until_inv _ _ _ _ _ _ _ _ Hp) as (k & _ & _ & Hs & _).
    pose proof (gmio_inv_length _ _ Hinv) as Hl; rewrite E in Hl; simpl in Hl.
    unfold has_completed in Hs; apply Z.ltb_lt in Hs.
    apply (f_equal length) in E'; rewrite length_take in E'; simpl in E'.
    pose proof (wrap_u_range 8 (out r) ltac:(lia)); lia.
  - destruct fuel; simpl in Hw; rewrite E in Hw; unfold ret in Hw; simplify_eq;
      rewrite E; done.
Qed.

Lemma enqueueBD_inv fuel cm c addr size g h e g' h' :
  gmio_inv c g -> enqueueBD fuel cm addr size g h = Some ((e, g'), h') -> gmio_inv c g'.
Proof.
  intros Hinv He; pose proof Hinv as (Hc & Hconf & _).
  unfold enqueueBD in He; rewrite Hc, Hconf in He.
  apply bind_inv in He as ([g1 ds1] & h1 & Hw & He).
  destruct (wait_available_inv _ _ _ _ _ _ _ _ Hinv Hw) as [Hinv1 Hne].
  destruct (s_pDevInst cm) as [d|] eqn:Hd.
  - pose proof (enqueueBD_tail _ _ _ _ _ _ _ addr size _ _ Hinv Hd Hw Hne) as Ht.
    unfold enqueueBD in Ht; rewrite Hc, Hconf, (bind_Some _ _ _ _ _ Hw) in Ht.
    rewrite He in Ht; simplify_eq; by apply gmio_inv_pushed.
  - destruct (frontAndPop (availableBDs g1)) as [[? ?]|]; [|done].
    unfold is_aieml, undefined, bind in He; rewrite Hd in He; done.
Qed.

Lemma gmio_wait_inv fuel sync c g h e g' h' :
  gmio_inv c g -> gmio_wait fuel sync g h = Some ((e, g'), h') -> gmio_inv c g'.
Proof.
  intros Hinv; pose proof Hinv as (Hc & Hconf & _).
  unfold gmio_wait; rewrite Hc, Hconf; destruct (_ || _); intros Hw.
  - unfold ret in Hw; simplify_eq; done.
  - apply bind_inv in Hw as (? & ? & _ & Hw); unfold ret in Hw; simplify_eq.
    apply gmio_inv_set_queues; [done|]; rewrite drain_eq, app_nil_r; done.
Qed.

(** A complete [enqueueBD]: some polls, then the calls of one BD. *)
Lemma enqueueBD_run n fuel cm d c g addr size h :
  gmio_inv c g -> s_pDevInst cm = Some d ->
  stops_within n (pending_call c g) (has_completed g) -> (n < fuel)%nat ->
  exists j g1,
    let cs := replicate j (pending_call c g) ++
      bd_calls (XAIE_DEV_GEN_AIEML <=? getNormalizedDevGen (DevGen d)) c g
        (lowest_bd g1) addr size in
    enqueueBD fuel cm addr size g h =
      Some ((result (codes XAIE_OK h cs), pushed g1), after h cs) /\
    gmio_inv c (pushed g1) /\ gmioTileLoc (pushed g1) = gmioTileLoc g /\
    dmaStartQMaxSize (pushed g1) = dmaStartQMaxSize g.
Proof.
  intros Hinv Hd Hs Hf.
  assert (Hw : exists j g1, gmioTileLoc g1 = gmioTileLoc g /\ shimDmaInst g1 = shimDmaInst g /\
      dmaStartQMaxSize g1 = dmaStartQMaxSize g /\
      wait_available fuel c g XAIE_OK h =
        Some ((g1, codes XAIE_OK h (replicate j (pending_call c g))),
              after h (replicate j (pending_call c g)))).
  { destruct (availableBDs g) as [|bd l] eqn:E.
    - destruct (poll_until_total n fuel _ _ XAIE_OK h Hs Hf) as (r & ds & h1 & Hp).
      rewrite wait_available_poll by done; rewrite Hp.
      destruct (poll_until_inv _ _ _ _ _ _ _ _ Hp) as (k & _ & _ & _ & _ & -> & ->).
      exists (S k), (recycled g r); done.
    - exists O, g; simpl; rewrite after_nil; destruct fuel; simpl; rewrite E; done. }
  destruct Hw as (j & g1 & Ht & Hdm & Hq & Hw).
  destruct (wait_available_inv _ _ _ _ _ _ _ _ Hinv Hw) as [Hinv1 Hne].
  pose proof (enqueueBD_tail _ _ _ _ _ _ _ addr size _ _ Hinv Hd Hw Hne) as He.
  exists j, g1; cbv zeta in He |- *; rewrite after_app, <- codes_app in He.
  replace (bd_calls _ c g1) with
    (bd_calls (XAIE_DEV_GEN_AIEML <=? getNormalizedDevGen (DevGen d)) c g) in He
    by (unfold bd_calls; rewrite Ht, Hdm; done).
  split; [exact He|]; split; [by apply gmio_inv_pushed|].
  unfold pushed; destruct (availableBDs g1); done.
Qed.

(** ** Reachable states *)

(** The operations a client interleaves on a configured port. *)
Inductive gmio_step (cm : config_manager) : gmio_api * hist -> gmio_api * hist -> Prop :=
| step_enqueueBD fuel addr size g h e g' h' :
    enqueueBD fuel cm addr size g h = Some ((e, g'), h') ->
    gmio_step cm (g, h) (g', h')
| step_wait fuel syncmode g h e g' h' :
    gmio_wait fuel syncmode g h = Some ((e, g'), h') ->
    gmio_step cm (g, h) (g', h').

Lemma gmio_configure_inv c desc h e g h' :
  gmio_configure (gmio_api_new (Some c) desc) h = Some ((e, g), h') ->
  e = ok -> gmio_inv c g /\ enqueuedBDs g = [].
Proof.
  unfold gmio_configure; simpl; destruct (to_aie c); [|intros; unfold ret in *; simplify_eq].
  intros H; repeat (apply bind_inv in H as (? & ? & ? & H)).
  match type of H with context [let '(_, _) := ?y in _] => destruct y as [r ds] end.
  apply bind_inv in H as (? & ? & ? & H).
  destruct (negb _); unfold ret in H; simplify_eq; intros; [done|].
  pose proof (wrap_u_range 8 (out r) ltac:(lia)).
  repeat split; simpl; try done; try lia; rewrite app_nil_r; done.
Qed.

(** C3: the BDs of a port are conserved: after a successful configuration of
    a fresh port and any sequence of [enqueueBD] and [wait], on any device, the
    available and the enqueued BDs together are exactly the BDs assigned to
    the channel, each once. *)
Theorem gmio_bds_conserved c desc cm h0 g0 h1 g h :
  gmio_configure (gmio_api_new (Some c) desc) h0 = Some ((ok, g0), h1) ->
  rtc (gmio_step cm) (g0, h1) (g, h) ->
  availableBDs g ++ enqueuedBDs g ≡ₚ bd_numbers c (dmaStartQMaxSize g) /\
  NoDup (availableBDs g ++ enqueuedBDs g).
Proof.
  intros Hc Hs; destruct (gmio_configure_inv _ _ _ _ _ _ Hc eq_refl) as [Hinv _].
  assert (H : gmio_inv c g); [|split; [apply H|by eapply gmio_inv_NoDup]].
  clear Hc; remember (g0, h1) as x; remember (g, h) as y; revert g0 h1 g h Heqx Heqy Hinv.
  induction Hs as [|x y z Hxy _ IH]; intros; simplify_eq; [done|].
  inversion Hxy; subst; eapply IH; eauto using enqueueBD_inv, gmio_wait_inv.
Qed.

(** C33: with every BD in flight, [enqueueBD] polls the pending count until the
    hardware has finished at least one BD, and then programs and enqueues the
    oldest one; the BDs still pending stay enqueued, and the reused BD is not
    among them.  It returns whenever the device eventually reports a
    completed BD. *)
Theorem enqueueBD_reuses_oldest_completed n fuel cm d c g addr size h :
  gmio_inv c g -> availableBDs g = [] -> s_pDevInst cm = Some d ->
  stops_within n (pending_call c g) (has_completed g) -> (n < fuel)%nat ->
  exists k e g' bd rest,
    let polls := replicate (S k) (pending_call c g) in
    let cs := bd_calls (XAIE_DEV_GEN_AIEML <=? getNormalizedDevGen (DevGen d))
                c g bd addr size in
    let pending := u8 (out (drv (after h (replicate k (pending_call c g)))
                                (pending_call c g))) in
    enqueueBD fuel cm addr size g h = Some ((e, g'), after h (polls ++ cs)) /\
    (e = ok <-> all_ok h (polls ++ cs)) /\
    enqueuedBDs g = bd :: rest /\
    pending < dmaStartQMaxSize g /\
    exists inflight, enqueuedBDs g' = inflight ++ [bd] /\
      inflight = drop (length (enqueuedBDs g) - Z.to_nat pending) (enqueuedBDs g) /\
      Z.of_nat (length inflight) = pending /\ bd ∉ inflight.
Proof.
  intros Hinv Hav Hd Hstop Hfuel.
  destruct (poll_until_total n fuel _ _ XAIE_OK h Hstop Hfuel) as (r & ds & h1 & Hp).
  pose proof (wait_available_poll fuel c g XAIE_OK h Hinv Hav) as Hw; rewrite Hp in Hw.
  destruct (wait_available_inv _ _ _ _ _ _ _ _ Hinv Hw) as [_ Hne].
  pose proof (enqueueBD_tail _ _ _ _ _ _ _ addr size _ _ Hinv Hd Hw Hne) as He.
  destruct (poll_until_inv _ _ _ _ _ _ _ _ Hp) as (k & _ & Hr & Hs & _ & -> & ->).
  apply Z.ltb_lt in Hs; pose proof (wrap_u_range 8 (out r) ltac:(lia)).
  pose proof (gmio_inv_length _ _ Hinv) as Hl; rewrite Hav in Hl; simpl in Hl.
  pose proof (gmio_inv_NoDup _ _ Hinv) as Hnd; rewrite Hav in Hnd; simpl in Hnd.
  destruct (enqueuedBDs g) as [|bd rest] eqn:Eq; [simpl in Hl; lia|].
  assert (Ek : exists m, Z.to_nat (dmaStartQMaxSize g - u8 (out r)) = S m)
    by (exists (pred (Z.to_nat (dmaStartQMaxSize g - u8 (out r)))); lia).
  destruct Ek as [m Em].
  assert (Ea : availableBDs (recycled g r) = bd :: take m rest)
    by (unfold recycled; rewrite Em, Eq; done).
  unfold pushed, lowest_bd in He; rewrite Ea in He; simpl hd in He.
  eexists k, _, _, bd, rest; rewrite <- Hr; cbv zeta.
  split; [rewrite He, after_app; reflexivity|].
  split; [rewrite <- codes_app; apply result_ok_iff|].
  split; [done|]; split; [done|]; eexists; split; [reflexivity|].
  unfold recycled; simpl enqueuedBDs; rewrite Em, Eq.
  replace (length (bd :: rest) - _)%nat with (S m) by (simpl in *; lia).
  split; [done|]; split; [rewrite length_drop; simpl in *; lia|].
  apply NoDup_cons in Hnd as [Hni _]; intros Hin; apply Hni.
  eapply subseteq_drop, Hin.
Qed.

(** A complete blocking [wait]. *)
Lemma gmio_wait_run n fuel c g h :
  gmio_inv c g -> to_aie c = true ->
  stops_within n (gmio_done_call c g) (fun r => rc r =? XAIE_OK) -> (n < fuel)%nat ->
  exists k, gmio_wait fuel true g h =
      Some ((ok, set_queues [] (availableBDs g ++ enqueuedBDs g) g),
            after h (replicate (S k) (gmio_done_call c g))) /\
    rc (drv (after h (replicate k (gmio_done_call c g))) (gmio_done_call c g)) = XAIE_OK.
Proof.
  intros Hinv Hty Hs Hf; pose proof Hinv as (Hc & Hconf & _ & HP).
  destruct (poll_until_total n fuel _ _ 0 h Hs Hf) as (r & ds & h1 & Hp).
  destruct (poll_until_inv _ _ _ _ _ _ _ _ Hp) as (k & _ & Hr & Hst & _ & Hh & _).
  exists k; unfold gmio_wait; rewrite Hc, Hconf.
  replace (bool_decide _ || _) with false by (unfold to_aie in Hty; destruct (type c); done).
  unfold bind at 1; rewrite (bind_Some _ _ _ _ _ Hp); simpl; rewrite drain_eq.
  subst h1 r; apply Z.eqb_eq in Hst; done.
Qed.

(** C34: a blocking [wait] repeats the wait call until the channel is idle, which
    it reaches whenever the device eventually reports it, and then every BD of
    the port is available. *)
Theorem gmio_wait_drains n fuel c g h :
  gmio_inv c g -> to_aie c = true ->
  stops_within n (gmio_done_call c g) (fun r => rc r =? XAIE_OK) -> (n < fuel)%nat ->
  exists k g', gmio_wait fuel true g h =
      Some ((ok, g'), after h (replicate (S k) (gmio_done_call c g))) /\
    rc (drv (after h (replicate k (gmio_done_call c g))) (gmio_done_call c g)) = XAIE_OK /\
    enqueuedBDs g' = [] /\ availableBDs g' ≡ₚ bd_numbers c (dmaStartQMaxSize g).
Proof.
  intros Hinv Hty Hs Hf; destruct (gmio_wait_run n fuel c g h Hinv Hty Hs Hf) as (k & Hw & Hr).
  eexists k, _; split; [exact Hw|]; split; [exact Hr|]; split; [done|]; apply Hinv.
Qed.

(** a non-blocking [wait] makes every BD available even when the channel is
    still busy, which it reports as [resource_unavailable]: the next
    [enqueueBD] then reprograms the oldest BD without asking the device. *)
Theorem gmio_wait_nonblocking_frees_busy_bds cm d c g h fuel fuel' addr size bd rest :
  gmio_inv c g -> to_aie c = true -> s_pDevInst cm = Some d ->
  availableBDs g = [] -> enqueuedBDs g = bd :: rest ->
  rc (drv h (gmio_done_call c g)) <> XAIE_OK ->
  exists g1 e g2,
    gmio_wait fuel false g h =
      Some ((resource_unavailable, g1), after h [gmio_done_call c g]) /\
    enqueuedBDs g1 = [] /\
    enqueueBD fuel' cm addr size g1 (after h [gmio_done_call c g]) =
      Some ((e, g2), after h (gmio_done_call c g ::
        bd_calls (XAIE_DEV_GEN_AIEML <=? getNormalizedDevGen (DevGen d)) c g bd addr size)) /\
    enqueuedBDs g2 = [bd].
Proof.
  intros Hinv Hty Hd Hav Henq Hrc; pose proof Hinv as (Hc & Hconf & _).
  set (g1 := set_queues [] (bd :: rest) g).
  assert (Hinv1 : gmio_inv c g1)
    by (apply gmio_inv_set_queues; [done|]; rewrite app_nil_r, Hav, Henq; done).
  assert (Hw1 : forall h1, wait_available fuel' c g1 XAIE_OK h1 = Some ((g1, XAIE_OK), h1))
    by (intros; destruct fuel'; done).
  eexists g1, _, (set_queues [bd] rest g1); split; [|split; [done|split]].
  - unfold gmio_wait; rewrite Hc, Hconf.
    replace (bool_decide _ || _) with false by (unfold to_aie in Hty; destruct (type c); done).
    run_m; rewrite drain_eq, Hav, Henq; simpl.
    destruct (Z.eqb_spec (rc (drv h (gmio_done_call c g))) XAIE_OK); done.
  - rewrite (enqueueBD_tail _ _ _ _ _ _ _ addr size _ _ Hinv1 Hd (Hw1 _)) by done.
    rewrite after_app; reflexivity.
  - done.
Qed.
End GmioFacts.

(** ** A concrete port *)

(** A device whose start queues have two entries; one entry is pending whenever
    it is asked, and a wait call finds the channel busy when [busy]. *)
Definition queue_rt (busy : bool) : AieRt := {|
  drv := fun _ c => match c with
                    | XAie_DmaGetMaxQueueSize _ => mkResp 0 2 []
                    | XAie_DmaGetPendingBdCount _ _ _ => mkResp 0 1 []
                    | XAie_DmaWaitForDone _ _ _ _ => mkResp (if busy then 1 else 0) 0 []
                    | _ => mkResp 0 0 []
                    end;
  XAIE_ERR := 1; XAIE_CORE_STATUS_TIMEOUT := 12; XAIE_LOCK_WITH_NO_VALUE := -1;
  XAIE_DEV_GEN_AIE := 1; XAIE_DEV_GEN_AIEML := 2; XAIE_DEV_GEN_S100 := 6;
  XAIE_DEV_GEN_S200 := 7
|}.

Definition demo_gmio : gmio_config :=
  {| gmio_id := 0; gmio_name := "in"; gmio_logicalName := "in"; type := gm2aie;
     shimColumn := 3; channelNum := 2; streamId := 0; burstLength := 1 |}.

(** The port with both BDs (4 and 5) in flight. *)
Definition demo_busy_port : gmio_api :=
  {| pGMIOConfig := Some demo_gmio; shimDmaInst := 0; gmioTileLoc := mkLoc 3 0;
     gmio_isConfigured := true; dmaStartQMaxSize := 2;
     enqueuedBDs := [4; 5]; availableBDs := [] |}.

Lemma demo_busy_inv : gmio_inv demo_gmio demo_busy_port.
Proof. repeat split; simpl; lia || reflexivity. Qed.

Lemma gmio_bds_conserved_witness :
  exists g h, (let g0 := gmio_api_new (Some demo_gmio) 0 in
    @gmio_configure (queue_rt false) g0 [] = Some ((ok, g), h)) /\
    availableBDs g = [4; 5] /\ NoDup (availableBDs g ++ enqueuedBDs g).
Proof.
  eexists _, _; split; [vm_compute; reflexivity|]; split; [reflexivity|].
  eapply (@gmio_bds_conserved (queue_rt false) demo_gmio 0 demo_cm []);
    [vm_compute; reflexivity|apply rtc_refl].
Defined.

Lemma enqueueBD_reuses_oldest_completed_witness :
  exists k e g', @enqueueBD (queue_rt false) 1 demo_cm 0x1000 64 demo_busy_port [] =
    Some ((e, g'), @after (queue_rt false) []
      (replicate (S k) (pending_call demo_gmio demo_busy_port) ++
       @bd_calls (queue_rt false) true demo_gmio demo_busy_port 4 0x1000 64)).
Proof.
  destruct (@enqueueBD_reuses_oldest_completed (queue_rt false) 0 1 demo_cm {| DevGen := 2 |}
    demo_gmio demo_busy_port 0x1000 64 [] demo_busy_inv eq_refl eq_refl)
    as (k & e & g' & bd & rest & H & _ & Hbd & _).
  - intros h; exists O; split; [lia|reflexivity].
  - lia.
  - injection Hbd as <- _; exists k, e, g'; exact H.
Defined.

Lemma gmio_wait_drains_witness :
  exists g', enqueuedBDs g' = [] /\ availableBDs g' ≡ₚ [4; 5].
Proof.
  destruct (@gmio_wait_drains (queue_rt false) 0 1 demo_gmio demo_busy_port []
    demo_busy_inv eq_refl) as (k & g' & _ & _ & H1 & H2).
  - intros h; exists O; split; [lia|reflexivity].
  - lia.
  - exists g'; split; [exact H1|exact H2].
Defined.

Lemma gmio_wait_nonblocking_frees_busy_bds_witness :
  exists g1 h1, @gmio_wait (queue_rt true) 0 false demo_busy_port [] =
    Some ((resource_unavailable, g1), h1) /\ enqueuedBDs g1 = [].
Proof.
  destruct (@gmio_wait_nonblocking_frees_busy_bds (queue_rt true) demo_cm {| DevGen := 2 |}
    demo_gmio demo_busy_port [] 0 0 0x1000 64 4 [5] demo_busy_inv eq_refl eq_refl eq_refl
    eq_refl ltac:(discriminate)) as (g1 & e & g2 & H & H1 & _).
  eexists g1, _; split; [exact H|exact H1].
Defined.
