(* ===== verification/Dma.v ===== *)
(** Direct control of tile DMAs and locks: [dma_api] and [lock_api]
    ([src/common_layer/aeg_runtime_api.cpp]). *)
From stdpp Require Import base list strings sets.
From Stdlib Require Import ZArith Lia.
From S2P Require Import Prelude ApiTypes Driver GraphApi Rtp Gmio.
Local Open Scope Z_scope.
Local Open Scope aeg_scope.

(** [src/common_layer/aeg_runtime_api.cpp:964-976] [relativeToAbsoluteRow] *)
Definition relativeToAbsoluteRow (cm : config_manager) (tileType row : Z) : Z :=
  if tileType =? 0 then u8 (u32 (row + 1 + u32 (s_num_reserved_rows cm)))
  else if tileType =? 2 then u8 (row + 1)
  else row.

Definition dma_tile (cm : config_manager) (tileType column row : Z) : loc :=
  XAie_TileLoc (u8 column) (u8 (relativeToAbsoluteRow cm tileType row)).

(** The descriptor on the stack of [configureBD]. *)
Definition dmaInst : Z := 0.
Definition XAIE_ENABLE : Z := 1.

(** The dimensions of a descriptor: [wrap] may be shorter than [stepsize]. *)
Definition dimDescs (b : buffer_descriptor) : list (Z * Z) :=
  map (fun j => (u32 (nth j (stepsize b) 0),
                 u16 (if (j <? length (wrap b))%nat then nth j (wrap b) 0 else 0)))
      (seq 0 (length (stepsize b))).

Section Operations.
Context `{rt : AieRt}.

(** The zero-padding loop of [configureBD]
    ([src/common_layer/aeg_runtime_api.cpp:1047-1053]). *)
Definition set_padding (b : buffer_descriptor) (ds : Z) : M Z :=
  for_each (fun j ds =>
    let '(before, behind) := nth j (padding b) (0, 0) in
    ds <-- status (XAie_DmaSetZeroPadding dmaInst (u8 (Z.of_nat j))
                     DMA_ZERO_PADDING_BEFORE (u8 before)) ds ;;
    status (XAie_DmaSetZeroPadding dmaInst (u8 (Z.of_nat j))
              DMA_ZERO_PADDING_AFTER (u8 behind)) ds)
    (seq 0 (length (padding b))) ds.

Definition iterates (b : buffer_descriptor) : bool :=
  (0 <? iteration_stepsize b) || (0 <? u32 (iteration_wrap b)) ||
  (0 <? u32 (iteration_current b)).

(** [src/common_layer/aeg_runtime_api.cpp:1020-1121] [dma_api::configureBD] *)
Definition configureBD (cm : config_manager) (tileType column row bdId : Z)
    (b : buffer_descriptor) : M err_code :=
  let tileLoc := dma_tile cm tileType column row in
  ds <-- status (XAie_DmaDescInit dmaInst tileLoc) XAIE_OK ;;
  ds <-- status (XAie_DmaSetMultiDimAddr dmaInst (dimDescs b) (u64 (address b))
                   (u32 (bd_length b))) ds ;;
  ds <-- set_padding b ds ;;
  ds <-- status_if (enable_packet b) (XAie_DmaSetPkt dmaInst (u8 (packet_id b)) (u8 0)) ds ;;
  ds <-- status_if (enable_packet b)
           (XAie_DmaSetOutofOrderBdId dmaInst (u8 (out_of_order_bd_id b))) ds ;;
  ds <-- status_if (tlast_suppress b) (XAie_DmaTlastDisable dmaInst) ds ;;
  ds <-- status_if (iterates b)
           (XAie_DmaSetBdIteration dmaInst (iteration_stepsize b) (iteration_wrap b)
              (iteration_current b)) ds ;;
  ds <-- status_if (enable_compression b) (XAie_DmaEnableCompression dmaInst) ds ;;
  ds <-- status_if (lock_acq_enable b)
           (XAie_DmaSetLock dmaInst
              (XAie_LockInit (u16 (lock_acq_id b)) (s8 (lock_acq_value b)))
              (XAie_LockInit (u16 (lock_rel_id b)) (s8 (lock_rel_value b)))) ds ;;
  ds <-- status_if (u32 (Row tileLoc) =? 0)
           (XAie_DmaSetAxi dmaInst 0 (u8 (burst_length b)) 0 0 0) ds ;;
  ds <-- status_if (use_next_bd b)
           (XAie_DmaSetNextBd dmaInst (u16 (next_bd b)) (u8 XAIE_ENABLE)) ds ;;
  ds <-- status (XAie_DmaEnableBd dmaInst) ds ;;
  ds <-- status (XAie_DmaWriteBd dmaInst tileLoc (u16 bdId)) ds ;;
  ret (result ds).

Definition start_call (cm : config_manager) (tileType column row dir channel repeatCount : Z)
    (token : bool) (startBdId : Z) : call :=
  XAie_DmaChannelSetStartQueue (dma_tile cm tileType column row) (u8 channel) dir
    (u16 startBdId) (u32 repeatCount) (u8 (if token then 1 else 0)).

(** [src/common_layer/aeg_runtime_api.cpp:1123-1143] [dma_api::enqueueTask] *)
Definition enqueueTask (cm : config_manager) (tileType column row dir channel repeatCount : Z)
    (enableTaskCompleteToken : bool) (startBdId : Z) : M err_code :=
  ds <-- status (start_call cm tileType column row dir channel repeatCount
                   enableTaskCompleteToken startBdId) XAIE_OK ;;
  ret (result ds).

Definition queue_call (cm : config_manager) (tileType column row dir channel : Z) : call :=
  XAie_DmaGetPendingBdCount (dma_tile cm tileType column row) (u8 channel) dir.

(** [src/common_layer/aeg_runtime_api.cpp:1145-1166] [dma_api::waitDMAChannelTaskQueue]
    The count starts at 4, so the call is made at least once. *)
Definition waitDMAChannelTaskQueue (fuel : nat) (cm : config_manager)
    (tileType column row dir channel : Z) : M err_code :=
  let* (_, ds) := poll_until fuel (queue_call cm tileType column row dir channel)
                    (fun r => negb (3 <? u8 (out r))) XAIE_OK in
  ret (result ds).

Definition channel_done_call (cm : config_manager) (tileType column row dir channel : Z) : call :=
  XAie_DmaWaitForDone (dma_tile cm tileType column row) (u8 channel) dir (u32 0).

(** [src/common_layer/aeg_runtime_api.cpp:1168-1184] [dma_api::waitDMAChannelDone] *)
Definition waitDMAChannelDone (fuel : nat) (cm : config_manager)
    (tileType column row dir channel : Z) : M err_code :=
  poll_until fuel (channel_done_call cm tileType column row dir channel)
    (fun r => u32 (rc r) =? XAIE_OK) 0 ;;;
  ret ok.

(** [src/common_layer/aeg_runtime_api.cpp:1186-1200] [dma_api::updateBDAddress] *)
Definition updateBDAddress (cm : config_manager) (tileType column row bdId addr : Z)
  : M err_code :=
  ds <-- status (XAie_DmaUpdateBdAddr (dma_tile cm tileType column row) (u64 addr) (u16 bdId))
           XAIE_OK ;;
  ret (result ds).

(** [if (status == err_code::ok) status = m] *)
Definition if_ok (e : err_code) (m : M err_code) : M err_code :=
  if is_ok e then m else ret e.

(** [src/common_layer/aeg_runtime_api.cpp:979-1018] [dma_api::configureBdWaitQueueEnqueueTask] *)
Definition configureBdWaitQueueEnqueueTask (fuel : nat) (cm : config_manager)
    (tileType column row dir channel repeatCount : Z) (enableTaskCompleteToken : bool)
    (bdIds : list Z) (bdParams : list buffer_descriptor) : M err_code :=
  match s_pDevInst cm with
  | None => undefined
  | Some d =>
      if getNormalizedDevGen (DevGen d) =? XAIE_DEV_GEN_AIE then ret (errorMsg internal_error)
      else if (length bdParams =? 0)%nat then ret (errorMsg internal_error)
      else if negb (length bdIds =? length bdParams)%nat then ret (errorMsg internal_error)
      else
        e <-- for_each (fun '(bdId, b) e =>
                if_ok e (configureBD cm tileType column row bdId b))
                (combine bdIds bdParams) ok ;;
        e <-- if_ok e (waitDMAChannelTaskQueue fuel cm tileType column row dir channel) ;;
        if_ok e (enqueueTask cm tileType column row dir channel repeatCount
                   enableTaskCompleteToken (hd 0 bdIds))
  end.

(** [src/common_layer/aeg_runtime_api.cpp:1203-1215] [lock_api::initializeLock] *)
Definition initializeLock (cm : config_manager) (tileType column row lockId initVal : Z)
  : M err_code :=
  ds <-- status (XAie_LockSetValue (dma_tile cm tileType column row)
                   (XAie_LockInit (u16 lockId) (s8 initVal))) 0 ;;
  ret (result ds).

(** [src/common_layer/aeg_runtime_api.cpp:1217-1234] [lock_api::acquireLock] *)
Definition acquireLock (cm : config_manager) (tileType column row lockId acqVal : Z)
  : M err_code :=
  ds <-- status (acquire (dma_tile cm tileType column row) lockId acqVal) 0 ;;
  ret (result ds).

(** [src/common_layer/aeg_runtime_api.cpp:1236-1249] [lock_api::releaseLock] *)
Definition releaseLock (cm : config_manager) (tileType column row lockId relVal : Z)
  : M err_code :=
  ds <-- status (release (dma_tile cm tileType column row) lockId relVal) 0 ;;
  ret (result ds).
End Operations.

(** * Properties *)

Section DmaFacts.
Context `{rt : AieRt}.

Lemma opt_elem b c x : x ∈ opt b c -> b = true /\ x = c.
Proof.
  destruct b; simpl; intros H; [by apply list_elem_of_singleton in H|by apply elem_of_nil in H].
Qed.

Definition padding_calls (b : buffer_descriptor) : list call :=
  flat_map (fun j => let '(before, behind) := nth j (padding b) (0, 0) in
    [XAie_DmaSetZeroPadding dmaInst (u8 (Z.of_nat j)) DMA_ZERO_PADDING_BEFORE (u8 before);
     XAie_DmaSetZeroPadding dmaInst (u8 (Z.of_nat j)) DMA_ZERO_PADDING_AFTER (u8 behind)])
    (seq 0 (length (padding b))).

(** A counted loop whose body performs a block of status calls. *)
Lemma for_each_status_block {A} (body : A -> Z -> M Z) (f : A -> list call) l ds h :
  (forall a ds h, body a ds h = Some (codes ds h (f a), after h (f a))) ->
  for_each body l ds h = Some (codes ds h (flat_map f l), after h (flat_map f l)).
Proof.
  intros Hb; revert ds h; induction l as [|a l IH]; intros ds h; simpl.
  - by rewrite after_nil.
  - rewrite (bind_Some _ _ _ _ _ (Hb _ _ _)), IH, codes_app, after_app; done.
Qed.

Lemma set_padding_eq b ds h :
  set_padding b ds h = Some (codes ds h (padding_calls b), after h (padding_calls b)).
Proof.
  apply for_each_status_block; intros j ds' h'.
  destruct (nth j (padding b) (0, 0)); run_m; rewrite status_eq, after_app; done.
Qed.
End DmaFacts.
#[export] Hint Rewrite @set_padding_eq : drv.

Section Configure.
Context `{rt : AieRt} (cm : config_manager) (tileType column row : Z).

Definition is_write_bd (c : call) : bool :=
  match c with XAie_DmaWriteBd _ _ _ => true | _ => false end.
Definition is_start (c : call) : bool :=
  match c with XAie_DmaChannelSetStartQueue _ _ _ _ _ _ => true | _ => false end.
Definition bd_writes (cs : list call) : list call := List.filter is_write_bd cs.
Definition starts (cs : list call) : list call := List.filter is_start cs.

(** The optional settings of a descriptor, between its initialisation and the
    moment it is marked valid. *)
Definition bd_settings (b : buffer_descriptor) : list call :=
  padding_calls b ++
  opt (enable_packet b) (XAie_DmaSetPkt dmaInst (u8 (packet_id b)) (u8 0)) ++
  opt (enable_packet b) (XAie_DmaSetOutofOrderBdId dmaInst (u8 (out_of_order_bd_id b))) ++
  opt (tlast_suppress b) (XAie_DmaTlastDisable dmaInst) ++
  opt (iterates b) (XAie_DmaSetBdIteration dmaInst (iteration_stepsize b)
                      (iteration_wrap b) (iteration_current b)) ++
  opt (enable_compression b) (XAie_DmaEnableCompression dmaInst) ++
  opt (lock_acq_enable b) (XAie_DmaSetLock dmaInst
         (XAie_LockInit (u16 (lock_acq_id b)) (s8 (lock_acq_value b)))
         (XAie_LockInit (u16 (lock_rel_id b)) (s8 (lock_rel_value b)))) ++
  opt (u32 (Row (dma_tile cm tileType column row)) =? 0)
      (XAie_DmaSetAxi dmaInst 0 (u8 (burst_length b)) 0 0 0) ++
  opt (use_next_bd b) (XAie_DmaSetNextBd dmaInst (u16 (next_bd b)) (u8 XAIE_ENABLE)).

Definition config_calls (bdId : Z) (b : buffer_descriptor) : list call :=
  [XAie_DmaDescInit dmaInst (dma_tile cm tileType column row);
   XAie_DmaSetMultiDimAddr dmaInst (dimDescs b) (u64 (address b)) (u32 (bd_length b))] ++
  bd_settings b ++
  [XAie_DmaEnableBd dmaInst;
   XAie_DmaWriteBd dmaInst (dma_tile cm tileType column row) (u16 bdId)].

Lemma configureBD_eq bdId b h :
  configureBD cm tileType column row bdId b h =
  Some (result (codes XAIE_OK h (config_calls bdId b)), after h (config_calls bdId b)).
Proof.
  unfold configureBD, config_calls, bd_settings; run_m.
  rewrite <- !codes_app, <- !app_assoc; done.
Qed.
End Configure.

Section TaskFacts.
Context `{rt : AieRt} (cm : config_manager) (tileType column row : Z).

Abbreviation conf := (fun '(bdId, b) => config_calls cm tileType column row bdId b).

Lemma result_codes_cases h cs :
  (result (codes XAIE_OK h cs) = ok /\ all_ok h cs) \/
  (result (codes XAIE_OK h cs) = aie_driver_error /\ ~ all_ok h cs).
Proof.
  pose proof (result_ok_iff h cs) as H; revert H; unfold result.
  destruct (negb _); intros H; [right|left]; split; try done.
  - by intros Ho; apply H in Ho.
  - by apply H.
Qed.

Lemma if_ok_ok m : if_ok ok m = m.
Proof. reflexivity. Qed.

Lemma if_ok_err m : if_ok aie_driver_error m = ret aie_driver_error.
Proof. reflexivity. Qed.

Lemma bd_writes_settings b : bd_writes (bd_settings cm tileType column row b) = [].
Proof.
  unfold bd_writes, bd_settings, padding_calls; rewrite !List.filter_app.
  set (l := flat_map _ _).
  assert (E : List.filter is_write_bd l = []).
  { unfold l; generalize (seq 0 (length (padding b))); intros js.
    induction js as [|j js IH]; [done|]; simpl.
    destruct (nth j (padding b) (0, 0)); exact IH. }
  rewrite E; unfold opt; repeat case_match; done.
Qed.

Lemma starts_config bdId b : starts (config_calls cm tileType column row bdId b) = [].
Proof.
  unfold starts, config_calls, bd_settings, padding_calls; rewrite !List.filter_app.
  set (l := flat_map _ _).
  assert (E : List.filter is_start l = []).
  { unfold l; generalize (seq 0 (length (padding b))); intros js.
    induction js as [|j js IH]; [done|]; simpl.
    destruct (nth j (padding b) (0, 0)); exact IH. }
  rewrite E; unfold opt; repeat case_match; done.
Qed.

(** configuring a BD initialises a descriptor, writes it to the hardware
    exactly once, as the very last call and right after marking it valid, with
    the optional settings its fields enable in between; it succeeds exactly
    when every driver call did. *)
Theorem configureBD_writes_bd_last bdId b h :
  exists cs pre e,
    configureBD cm tileType column row bdId b h = Some (e, after h cs) /\
    (e = ok <-> all_ok h cs) /\
    cs = XAie_DmaDescInit dmaInst (dma_tile cm tileType column row) :: pre ++
         [XAie_DmaEnableBd dmaInst;
          XAie_DmaWriteBd dmaInst (dma_tile cm tileType column row) (u16 bdId)] /\
    bd_writes pre = [] /\
    (lock_acq_enable b = true ->
     XAie_DmaSetLock dmaInst (XAie_LockInit (u16 (lock_acq_id b)) (s8 (lock_acq_value b)))
       (XAie_LockInit (u16 (lock_rel_id b)) (s8 (lock_rel_value b))) ∈ pre) /\
    (use_next_bd b = true ->
     XAie_DmaSetNextBd dmaInst (u16 (next_bd b)) (u8 XAIE_ENABLE) ∈ pre) /\
    (forall k k', XAie_DmaSetLock dmaInst k k' ∈ pre -> lock_acq_enable b = true).
Proof.
  eexists _, (_ :: bd_settings cm tileType column row b), _.
  split; [apply configureBD_eq|]; split; [apply result_ok_iff|].
  split; [done|]; split; [apply bd_writes_settings|].
  unfold bd_settings; split; [intros ->; simpl; set_solver|].
  split; [intros ->; simpl; set_solver|]; intros k k' Hin.
  destruct (lock_acq_enable b) eqn:Hl; [done|exfalso]; revert Hin.
  rewrite elem_of_cons; intros [?|Hin]; [done|].
  apply elem_of_app in Hin as [Hin|Hin].
  - unfold padding_calls in Hin; apply list_elem_of_In, in_flat_map in Hin as (j & _ & Hin).
    destruct (nth j (padding b) (0, 0)); simpl in Hin; intuition discriminate.
  - repeat (apply elem_of_app in Hin as [Hin|Hin]; [by apply opt_elem in Hin as [? ?]|]).
    by apply opt_elem in Hin as [_ ?].
Qed.

Lemma configure_all_spec l h :
  exists dn rest e, l = dn ++ rest /\
    for_each (fun '(bdId, b) e => if_ok e (configureBD cm tileType column row bdId b)) l ok h =
      Some (e, after h (flat_map conf dn)) /\
    ((e = ok /\ rest = [] /\ all_ok h (flat_map conf dn)) \/
     (e = aie_driver_error /\ ~ all_ok h (flat_map conf dn))).
Proof.
  revert h; induction l as [|[bdId b] l IH]; intros h.
  - exists [], [], ok; simpl; rewrite after_nil; split; [done|]; split; [done|]; by left.
  - simpl; rewrite if_ok_ok.
    rewrite (bind_Some _ _ _ _ _ (configureBD_eq _ _ _ _ _ _ _)).
    destruct (result_codes_cases h (config_calls cm tileType column row bdId b)) as [[-> Ho]|[-> Hn]].
    + destruct (IH (after h (config_calls cm tileType column row bdId b)))
        as (dn & rest & e & -> & -> & He).
      exists ((bdId, b) :: dn), rest, e; split; [done|]; cbn [flat_map]; rewrite after_app.
      split; [done|]; rewrite all_ok_app; tauto.
    + exists [(bdId, b)], l, aie_driver_error; cbn [flat_map]; rewrite app_nil_r; split; [done|].
      split; [|right; done].
      clear IH; generalize (after h (config_calls cm tileType column row bdId b)).
      induction l as [|[? ?] l IHl]; intros h'; simpl; [done|]; apply IHl.
Qed.

(** a task is enqueued only as the last step, exactly once, with the first
    BD as start BD, and only after every BD was configured without an error and
    the channel's task queue was seen with room; any failure before that stops
    the sequence with [aie_driver_error] and no task is started.  The call
    returns whenever the queue eventually has room. *)
Theorem dma_task_started_only_after_setup n fuel d dir channel repeat token bdIds bds h :
  let poll := queue_call cm tileType column row dir channel in
  s_pDevInst cm = Some d -> getNormalizedDevGen (DevGen d) <> XAIE_DEV_GEN_AIE ->
  bds <> [] -> length bdIds = length bds ->
  stops_within n poll (fun r => negb (3 <? u8 (out r))) -> (n < fuel)%nat ->
  exists e cs,
    configureBdWaitQueueEnqueueTask fuel cm tileType column row dir channel repeat token
      bdIds bds h = Some (e, after h cs) /\
    ((starts cs = [] /\ e = aie_driver_error) \/
     exists k, let setup := flat_map conf (combine bdIds bds) in
       cs = setup ++ replicate (S k) poll ++
            [start_call cm tileType column row dir channel repeat token (hd 0 bdIds)] /\
       all_ok h (setup ++ replicate (S k) poll) /\
       starts setup = [] /\
       u8 (out (drv (after h (setup ++ replicate k poll)) poll)) <= 3 /\
       (e = ok <-> all_ok h cs)).
Proof.
  intros poll Hd Hgen Hne Hlen Hs Hf.
  assert (Hst : forall l, starts (flat_map conf l) = []).
  { induction l as [|[i b] l IH]; [done|]; cbn [flat_map].
    pose proof (starts_config i b) as H; unfold starts in *.
    rewrite List.filter_app, IH, H; done. }
  unfold configureBdWaitQueueEnqueueTask; rewrite Hd.
  destruct (Z.eqb_spec (getNormalizedDevGen (DevGen d)) XAIE_DEV_GEN_AIE); [done|].
  destruct (Nat.eqb_spec (length bds) 0); [destruct bds; done|].
  rewrite Hlen, Nat.eqb_refl; cbv beta iota delta [negb].
  destruct (configure_all_spec (combine bdIds bds) h) as (dn & rest & e & El & Hc & He).
  rewrite (bind_Some _ _ _ _ _ Hc).
  destruct He as [(-> & -> & Hok)|[-> Hbad]].
  2: { eexists _, _; split; [reflexivity|left]; rewrite Hst; done. }
  rewrite app_nil_r in El; subst dn.
  rewrite if_ok_ok; unfold waitDMAChannelTaskQueue; fold poll.
  set (setup := flat_map conf (combine bdIds bds)) in *.
  destruct (poll_until_total n fuel poll _ XAIE_OK (after h setup) Hs Hf)
    as (r & ds & h1 & Hp).
  destruct (poll_until_inv _ _ _ _ _ _ _ _ Hp) as (k & _ & -> & Hstop & _ & -> & ->).
  rewrite bind_assoc, (bind_Some _ _ _ _ _ Hp); cbv beta iota.
  change (bind (ret ?x) ?k ?h) with (k x h); cbv beta.
  destruct (result_codes_cases (after h setup) (replicate (S k) poll)) as [[-> Hq]|[-> Hq]];
    rewrite ?if_ok_ok, ?if_ok_err, after_app.
  - unfold enqueueTask; run_m; eexists _, _; split; [reflexivity|right]; exists k; cbv zeta.
    rewrite <- app_assoc; split; [done|]; split; [by apply all_ok_app|].
    split; [apply Hst|]; rewrite after_app in Hstop.
    apply negb_true_iff, Z.ltb_ge in Hstop; split; [done|].
    rewrite result_ok_iff, !all_ok_app, after_app; tauto.
  - eexists _, _; split; [reflexivity|left]; split; [|done].
    unfold starts; rewrite List.filter_app; fold (starts setup); unfold setup; rewrite Hst.
    simpl; clear; induction k; done.
Qed.
End TaskFacts.

(** The start row of the array is the shim row, so a memory tile and an AIE tile
    with the same relative row are different tiles. *)
Lemma relativeToAbsoluteRow_types cm row :
  0 <= row -> 1 <= s_num_reserved_rows cm -> row + 1 + s_num_reserved_rows cm < 256 ->
  relativeToAbsoluteRow cm 2 row < relativeToAbsoluteRow cm 0 row /\
  relativeToAbsoluteRow cm 1 row < relativeToAbsoluteRow cm 2 row.
Proof.
  intros; unfold relativeToAbsoluteRow; simpl Z.eqb; cbv iota.
  rewrite (wrap_u_small 32 (s_num_reserved_rows cm)), (wrap_u_small 32), !(wrap_u_small 8); lia.
Qed.

(** ** A concrete task *)

Definition demo_bd : buffer_descriptor :=
  {| address := 0x4000; bd_length := 256; stepsize := [1; 16]; wrap := [16]; padding := [(1, 2)];
     enable_packet := false; packet_id := 0; out_of_order_bd_id := 0; tlast_suppress := false;
     iteration_stepsize := 0; iteration_wrap := 0; iteration_current := 0;
     enable_compression := false; lock_acq_enable := true; lock_acq_value := -1;
     lock_acq_id := 3; lock_rel_value := 1; lock_rel_id := 4; use_next_bd := false;
     next_bd := 0; burst_length := 4 |}.

Lemma dma_task_started_only_after_setup_witness :
  exists e cs, @configureBdWaitQueueEnqueueTask ok_rt 1 demo_cm 2 5 0 1 0 0 false [7] [demo_bd] [] =
    Some (e, @after ok_rt [] cs) /\ (starts cs = [] \/ e = ok \/ e = aie_driver_error).
Proof.
  destruct (@dma_task_started_only_after_setup ok_rt demo_cm 2 5 0 0 1 {| DevGen := 2 |} 1 0 0
    false [7] [demo_bd] [] eq_refl ltac:(discriminate) ltac:(discriminate) eq_refl)
    as (e & cs & H & _).
  - intros h; exists O; split; [lia|reflexivity].
  - lia.
  - exists e, cs; split; [exact H|]; destruct e; tauto || idtac.
    all: vm_compute in H; injection H as He _; discriminate He.
Defined.
