(* ===== verification/HostMem.v ===== *)
(** Host memory shared with the device ([XAieMem], [src/include/xaiemem.h]).

    Addresses are integers and the null pointer is zero.  In the driver build
    memory comes from [XAie_Mem*]; in the inter-process build from five function
    pointers the backend installs, which are calls of the environment too. *)
From stdpp Require Import base list strings.
From Stdlib Require Import ZArith Lia.
From S2P Require Import Prelude ApiTypes Driver.
Local Open Scope Z_scope.
Local Open Scope aeg_scope.

(** [src/include/xaiemem.h:24-37] [XAieMem] *)
Record XAieMem := { ipc_ : bool }.

Section HostMem.
Context `{rt : AieRt}.

(** [src/include/xaiemem.h:39-48] [XAieMem::malloc]
    A null [XAie_MemInst] is an answer with a non-zero code, otherwise the
    scalar answer is its [VAddr]. *)
Definition mem_malloc (m : XAieMem) (Size : Z) : M Z :=
  if ipc_ m then
    r <-- exec (ipc_alloc_host (u32 Size)) ;; ret (out r)
  else
    r <-- exec (XAie_MemAllocate (u64 Size)) ;;
    ret (if rc r =? 0 then out r else 0).

(** [src/include/xaiemem.h:50-56] [XAieMem::free] *)
Definition mem_free (m : XAieMem) (Addr : Z) : M Z :=
  if ipc_ m then exec_ (ipc_free_host Addr) ;;; ret 0
  else r <-- exec (XAie_MemFreeVAddr Addr) ;; ret (s32 (rc r)).

(** [src/include/xaiemem.h:58-68] [XAieMem::sync_for_cpu] *)
Definition sync_for_cpu (m : XAieMem) (VAddr Size : Z) : M Z :=
  if ipc_ m then
    r <-- exec (ipc_dev_addr VAddr) ;;
    if out r =? 0 then ret (-1)
    else exec_ (ipc_read_gm (out r) VAddr (u64 Size)) ;;; ret 0
  else r <-- exec (XAie_MemSyncForCPUVAddr VAddr (u64 Size)) ;; ret (s32 (rc r)).

(** [src/include/xaiemem.h:70-80] [XAieMem::sync_for_dev] *)
Definition sync_for_dev (m : XAieMem) (VAddr Size : Z) : M Z :=
  if ipc_ m then
    r <-- exec (ipc_dev_addr VAddr) ;;
    if out r =? 0 then ret (-1)
    else exec_ (ipc_write_gm (out r) VAddr (u64 Size)) ;;; ret 0
  else r <-- exec (XAie_MemSyncForDevVAddr VAddr (u64 Size)) ;; ret (s32 (rc r)).

(** [src/include/xaiemem.h:82-92] [XAieMem::get_dev_addr]
    Returns the code and the contents of [*DevAddr], which was [old]. *)
Definition get_dev_addr (m : XAieMem) (VAddr old : Z) : M (Z * Z) :=
  if ipc_ m then
    r <-- exec (ipc_dev_addr VAddr) ;;
    if out r =? 0 then ret (-1, old) else ret (0, out r)
  else r <-- exec (XAie_MemGetDevAddrFromVAddr VAddr) ;; ret (s32 (rc r), out r).

(** ** The calls of each operation *)

Definition addr_call (m : XAieMem) (v : Z) : call :=
  if ipc_ m then ipc_dev_addr v else XAie_MemGetDevAddrFromVAddr v.

(** Whether an address query succeeded, and the address it found. *)
Definition addr_found (m : XAieMem) (r : resp) : bool :=
  if ipc_ m then negb (out r =? 0) else s32 (rc r) =? 0.

Definition dev_sync_calls (m : XAieMem) (h : hist) (v n : Z) : list call :=
  if ipc_ m then
    let a := out (drv h (ipc_dev_addr v)) in
    ipc_dev_addr v :: (if a =? 0 then [] else [ipc_write_gm a v (u64 n)])
  else [XAie_MemSyncForDevVAddr v (u64 n)].

Definition cpu_sync_calls (m : XAieMem) (h : hist) (v n : Z) : list call :=
  if ipc_ m then
    let a := out (drv h (ipc_dev_addr v)) in
    ipc_dev_addr v :: (if a =? 0 then [] else [ipc_read_gm a v (u64 n)])
  else [XAie_MemSyncForCPUVAddr v (u64 n)].

Lemma get_dev_addr_eq m v old h :
  exists c a, get_dev_addr m v old h = Some ((c, a), after h [addr_call m v]) /\
    (c = 0 <-> addr_found m (drv h (addr_call m v)) = true) /\
    (addr_found m (drv h (addr_call m v)) = true -> a = out (drv h (addr_call m v))).
Proof.
  unfold get_dev_addr, addr_call, addr_found; destruct (ipc_ m); run_m.
  - destruct (Z.eqb_spec (out (drv h (ipc_dev_addr v))) 0) as [E|E].
    + exists (-1), old; done.
    + exists 0, (out (drv h (ipc_dev_addr v))); done.
  - eexists _, _; split; [reflexivity|]; split; [|done]; by rewrite Z.eqb_eq.
Qed.

Lemma sync_for_dev_eq m v n h :
  exists c, sync_for_dev m v n h = Some (c, after h (dev_sync_calls m h v n)).
Proof.
  unfold sync_for_dev, dev_sync_calls; destruct (ipc_ m); run_m; [|eauto].
  destruct (_ =? 0); run_m; eauto.
Qed.

Lemma sync_for_cpu_eq m v n h :
  exists c, sync_for_cpu m v n h = Some (c, after h (cpu_sync_calls m h v n)).
Proof.
  unfold sync_for_cpu, cpu_sync_calls; destruct (ipc_ m); run_m; [|eauto].
  destruct (_ =? 0); run_m; eauto.
Qed.
End HostMem.

(** ** Calls that move buffer descriptors *)

(** A call that hands a BD or a task to a DMA channel. *)
Definition is_dma_start (c : call) : bool :=
  match c with
  | XAie_DmaChannelPushBdToQueue _ _ _ _ | XAie_DmaChannelSetStartQueue _ _ _ _ _ _ => true
  | _ => false
  end.
Definition dma_starts (cs : list call) : list call := List.filter is_dma_start cs.

Lemma dma_starts_app cs cs' : dma_starts (cs ++ cs') = dma_starts cs ++ dma_starts cs'.
Proof. apply List.filter_app. Qed.

Lemma dma_starts_replicate n c : is_dma_start c = false -> dma_starts (replicate n c) = [].
Proof. intros H; unfold dma_starts; induction n; simpl; [done|]; by rewrite H. Qed.

Lemma dev_sync_no_start `{rt : AieRt} m h v n : dma_starts (dev_sync_calls m h v n) = [].
Proof. unfold dev_sync_calls; destruct (ipc_ m); [destruct (_ =? 0)|]; done. Qed.

Lemma cpu_sync_no_start `{rt : AieRt} m h v n : dma_starts (cpu_sync_calls m h v n) = [].
Proof. unfold cpu_sync_calls; destruct (ipc_ m); [destruct (_ =? 0)|]; done. Qed.

Lemma addr_call_no_start m v : dma_starts [addr_call m v] = [].
Proof. unfold addr_call; destruct (ipc_ m); done. Qed.
