(* ===== verification/PortImpl.v ===== *)
(** The port objects a graph hands out: GMIO ([src/include/gmioapiimpl.h]),
    run-time parameter ([src/include/rtpapiimpl.h]) and shared buffer
    ([src/include/sharedbufferapiimpl.h]).

    [AIESIM] is the build against the simulator: it has no coherent memory, so a
    buffer the array writes is queued and copied back by the next [wait]. *)
From stdpp Require Import base list strings gmap.
From Stdlib Require Import ZArith Lia.
From S2P Require Import Prelude ApiTypes Driver GraphApi Rtp Gmio HostMem.
Local Open Scope Z_scope.
Local Open Scope aeg_scope.

(** [src/include/gmioapiimpl.h:31-34] [AIE_GMIO_DIR] *)
Inductive AIE_GMIO_DIR := AIE2GM | GM2AIE.

(** [src/include/gmioapiimpl.h:36-45] [MemMap] *)
Record MemMap := { sim_phy_addr : Z; host_virtual_addr : Z; len : Z }.

(** [src/include/gmioapiimpl.h:47-51] [GmioApiImpl::GmioApiImpl] *)
Record GmioApiImpl := {
  aie2gm_buf_queue : list MemMap;
  impl_gmio : gmio_api;
  gmioconfig : gmio_config;
  gmio_mem : XAieMem
}.

Definition set_gmio (g : gmio_api) (p : GmioApiImpl) : GmioApiImpl :=
  {| aie2gm_buf_queue := aie2gm_buf_queue p; impl_gmio := g;
     gmioconfig := gmioconfig p; gmio_mem := gmio_mem p |}.
Definition set_buf_queue (q : list MemMap) (p : GmioApiImpl) : GmioApiImpl :=
  {| aie2gm_buf_queue := q; impl_gmio := impl_gmio p;
     gmioconfig := gmioconfig p; gmio_mem := gmio_mem p |}.

(** [static_cast<std::int32_t>(err_code)]: the codes are [errno] numbers, here those of newlib. *)
Definition EIO : Z := 5.
Definition EAGAIN : Z := 11.
Definition EINVAL : Z := 22.
Definition ENOTSUP : Z := 134.
Definition err_int (e : err_code) : Z :=
  match e with
  | ok => 0 | user_error => EINVAL | internal_error => ENOTSUP
  | aie_driver_error => EIO | resource_unavailable => EAGAIN
  end.

Section GmioImpl.
Context `{rt : AieRt} (AIESIM : bool) (cm : config_manager).

(** [src/include/gmioapiimpl.h:55-59] [GmioApiImpl::wait] the loop that copies
    the queued buffers back. *)
Fixpoint copy_back (m : XAieMem) (q : list MemMap) : M unit :=
  match q with
  | [] => ret tt
  | b :: q => sync_for_cpu m (host_virtual_addr b) (len b) ;;; copy_back m q
  end.

(** [src/include/gmioapiimpl.h:52-62] [GmioApiImpl::wait] *)
Definition impl_wait (fuel : nat) (syncmode : bool) (p : GmioApiImpl) : M (Z * GmioApiImpl) :=
  let* (e, g) := gmio_wait fuel syncmode (impl_gmio p) in
  let p := set_gmio g p in
  if AIESIM then
    copy_back (gmio_mem p) (aie2gm_buf_queue p) ;;; ret (err_int e, set_buf_queue [] p)
  else ret (err_int e, p).

(** [src/include/gmioapiimpl.h:113-130] [GmioApiImpl::gmio_sync_nb]
    A direction that does not match the port only logs an error. *)
Definition gmio_sync_nb (fuel : nat) (dir : AIE_GMIO_DIR) (data n : Z) (p : GmioApiImpl)
  : M (err_code * GmioApiImpl) :=
  let* (e, g) := enqueueBD fuel cm data (u64 n) (impl_gmio p) in
  ret (e, set_gmio g p).

(** [src/include/gmioapiimpl.h:64-75] [GmioApiImpl::gm2aie_nb] *)
Definition gm2aie_nb (fuel : nat) (data n : Z) (p : GmioApiImpl) : M (err_code * GmioApiImpl) :=
  let* (c, phy_data) := get_dev_addr (gmio_mem p) data 0 in
  if negb (c =? 0) then ret (aie_driver_error, p)
  else
    sync_for_dev (gmio_mem p) data (u64 n) ;;;
    let* (_, p) := gmio_sync_nb fuel GM2AIE phy_data n p in
    ret (ok, p).

(** [src/include/gmioapiimpl.h:77-95] [GmioApiImpl::aie2gm_nb] *)
Definition aie2gm_nb (fuel : nat) (data n : Z) (p : GmioApiImpl) : M (err_code * GmioApiImpl) :=
  let* (c, phy_data) := get_dev_addr (gmio_mem p) data 0 in
  if negb (c =? 0) then ret (aie_driver_error, p)
  else if AIESIM then
    gmio_sync_nb fuel AIE2GM phy_data n
      (set_buf_queue (aie2gm_buf_queue p ++
         [{| sim_phy_addr := phy_data; host_virtual_addr := data; len := u64 n |}]) p)
  else
    sync_for_cpu (gmio_mem p) data (u64 n) ;;;
    gmio_sync_nb fuel AIE2GM phy_data n p.

(** [src/include/gmioapiimpl.h:97-103] [GmioApiImpl::aie2gm] *)
Definition impl_aie2gm (fuel : nat) (data n : Z) (p : GmioApiImpl) : M (err_code * GmioApiImpl) :=
  let* (e, p) := aie2gm_nb fuel data n p in
  if is_ok e then let* (_, p) := impl_wait fuel true p in ret (e, p)
  else ret (e, p).

(** [src/include/gmioapiimpl.h:105-111] [GmioApiImpl::gm2aie] *)
Definition impl_gm2aie (fuel : nat) (data n : Z) (p : GmioApiImpl) : M (err_code * GmioApiImpl) :=
  let* (e, p) := gm2aie_nb fuel data n p in
  if is_ok e then let* (_, p) := impl_wait fuel true p in ret (e, p)
  else ret (e, p).
End GmioImpl.

(** * Run-time parameter and shared-buffer objects *)

(** [src/include/rtpapiimpl.h:32-35] [RtpApiImpl::RtpApiImpl]
    The graph is shared, so it is threaded through the operations. *)
Record RtpApiImpl := { impl_rtpConfig : rtp_config; impl_portName : string }.

(** [src/include/sharedbufferapiimpl.h:32-36] [SharedBufferApiImpl::SharedBufferApiImpl] *)
Record SharedBufferApiImpl := { impl_bufferConfig : shared_buffer_config; impl_bufferName : string }.

Section ParamImpl.
Context `{rt : AieRt} (cm : config_manager).

(** [src/include/rtpapiimpl.h:43-48] [RtpApiImpl::update] *)
Definition impl_update (p : RtpApiImpl) (data : list Z) (n : Z) (g : option graph_api)
  : M (err_code * option graph_api) :=
  match g with
  | None => ret (internal_error, None)
  | Some g => let* (e, g) := update_rtp cm (Some (impl_rtpConfig p)) data n g in ret (e, Some g)
  end.

(** [src/include/rtpapiimpl.h:56-61] [RtpApiImpl::read] *)
Definition impl_read (p : RtpApiImpl) (n : Z) (g : option graph_api) : M (err_code * list Z) :=
  match g with
  | None => ret (internal_error, [])
  | Some g => read_rtp cm (Some (impl_rtpConfig p)) (u64 n) g
  end.

(** [src/include/sharedbufferapiimpl.h:44-49] [SharedBufferApiImpl::update] *)
Definition impl_update_shared (p : SharedBufferApiImpl) (data : list Z) (n : Z)
    (inited : gset Z) (g : option graph_api) : M (err_code * gset Z) :=
  match g with
  | None => ret (internal_error, inited)
  | Some g => update_shared (Some (impl_bufferConfig p)) data n inited g
  end.
End ParamImpl.

(** * Properties *)

Section GmioImplFacts.
Context `{rt : AieRt} (AIESIM : bool) (cm : config_manager) (d : DevInst).
Context (Hdev : s_pDevInst cm = Some d).

Abbreviation aieml := (XAIE_DEV_GEN_AIEML <=? getNormalizedDevGen (DevGen d)).

(** The port is usable and the device makes progress within [n] polls. *)
Definition port_ready (n : nat) (c : gmio_config) (p : GmioApiImpl) : Prop :=
  gmio_inv c (impl_gmio p) /\ to_aie c = true /\
    stops_within n (pending_call c (impl_gmio p)) (has_completed (impl_gmio p)) /\
    stops_within n (gmio_done_call c (impl_gmio p)) (fun r => rc r =? XAIE_OK).

Lemma gmio_sync_nb_run n c fuel dir data m p h :
  port_ready n c p -> (n < fuel)%nat ->
  exists j bd e p', let cs := replicate j (pending_call c (impl_gmio p)) ++
        bd_calls aieml c (impl_gmio p) bd data (u64 m) in
    gmio_sync_nb cm fuel dir data m p h = Some ((e, p'), after h cs) /\
    (e = ok <-> all_ok h cs) /\ (e = ok \/ e = aie_driver_error) /\
    port_ready n c p' /\ gmio_mem p' = gmio_mem p /\
    aie2gm_buf_queue p' = aie2gm_buf_queue p /\
    gmio_done_call c (impl_gmio p') = gmio_done_call c (impl_gmio p).
Proof.
  intros (Hinv & Hty & Hs1 & Hs2) Hf.
  destruct (enqueueBD_run n fuel cm d c (impl_gmio p) data (u64 m) h Hinv Hdev Hs1 Hf)
    as (j & g1 & He & Hinv' & Ht & Hq).
  eexists j, (lowest_bd g1), _, (set_gmio (pushed g1) p); cbv zeta.
  split; [unfold gmio_sync_nb; rewrite (bind_Some _ _ _ _ _ He); reflexivity|].
  split; [apply result_ok_iff|]; split; [apply result_cases|].
  split; [|split; [done|split; [done|]]].
  - unfold port_ready, pending_call, gmio_done_call, has_completed in *; simpl.
    rewrite Ht, Hq; done.
  - unfold gmio_done_call; simpl; rewrite Ht; done.
Qed.

Lemma bd_calls_starts c g bd data m :
  dma_starts (bd_calls aieml c g bd data m) =
  [XAie_DmaChannelPushBdToQueue (gmioTileLoc g) (gmio_channel c) (gmio_dir c) (u16 bd)].
Proof. done. Qed.

(** C35: a transfer to the array looks up the device address of the buffer, flushes
    it to memory, and only then starts the DMA, exactly once, with that address.
    If the address is unknown the call fails and nothing is started.  Otherwise it
    returns [ok], whatever the driver answered to the BD programming. *)
Theorem gm2aie_flushes_before_start n c fuel data m p h :
  port_ready n c p -> (n < fuel)%nat ->
  let h1 := after h [addr_call (gmio_mem p) data] in
  let r := drv h (addr_call (gmio_mem p) data) in
  if addr_found (gmio_mem p) r then
    exists j bd p',
      let pre := addr_call (gmio_mem p) data :: dev_sync_calls (gmio_mem p) h1 data (u64 m) ++
                 replicate j (pending_call c (impl_gmio p)) in
      gm2aie_nb cm fuel data m p h =
        Some ((ok, p'), after h (pre ++ bd_calls aieml c (impl_gmio p) bd (out r) (u64 m))) /\
      dma_starts pre = [] /\ port_ready n c p'
  else gm2aie_nb cm fuel data m p h = Some ((aie_driver_error, p), h1).
Proof.
  intros Hready Hf h1 r; unfold gm2aie_nb.
  destruct (get_dev_addr_eq (gmio_mem p) data 0 h) as (c0 & a & Hg & Hc & Ha).
  rewrite (bind_Some _ _ _ _ _ Hg); fold h1; fold r in Hc, Ha; cbv beta iota.
  destruct (addr_found (gmio_mem p) r).
  - rewrite (proj2 Hc eq_refl), (Ha eq_refl); change (negb (0 =? 0)) with false; cbv iota.
    destruct (sync_for_dev_eq (gmio_mem p) data (u64 m) h1) as (c1 & Hs).
    rewrite (bind_Some _ _ _ _ _ Hs).
    destruct (gmio_sync_nb_run n c fuel GM2AIE (out r) m p
      (after h1 (dev_sync_calls (gmio_mem p) h1 data (u64 m))) Hready Hf)
      as (j & bd & e & p' & He & _ & _ & Hr & _).
    cbv zeta in He; rewrite (bind_Some _ _ _ _ _ He).
    exists j, bd, p'; cbv zeta; split; [|split; [|done]].
    + unfold h1; rewrite !after_app; unfold ret; simpl; rewrite <- !app_assoc; done.
    + change (?x :: ?l ++ ?l') with ([x] ++ l ++ l').
      rewrite !dma_starts_app, dev_sync_no_start, addr_call_no_start.
      by rewrite dma_starts_replicate.
  - destruct (Z.eqb_spec c0 0) as [E|E]; [by apply Hc in E|done].
Qed.

(** The calls that copy a queue of buffers back, oldest first. *)
Fixpoint copy_calls (m : XAieMem) (h : hist) (q : list MemMap) : list call :=
  match q with
  | [] => []
  | b :: q =>
      let cs := cpu_sync_calls m h (host_virtual_addr b) (len b) in
      cs ++ copy_calls m (after h cs) q
  end.

Lemma copy_back_eq m q h : copy_back m q h = Some (tt, after h (copy_calls m h q)).
Proof.
  revert h; induction q as [|b q IH]; intros h; simpl; [by rewrite after_nil|].
  destruct (sync_for_cpu_eq m (host_virtual_addr b) (len b) h) as (c & Hs).
  rewrite (bind_Some _ _ _ _ _ Hs), IH, after_app; done.
Qed.

Lemma impl_wait_run n c fuel p h :
  port_ready n c p -> (n < fuel)%nat ->
  exists k p',
    let polls := replicate (S k) (gmio_done_call c (impl_gmio p)) in
    impl_wait AIESIM fuel true p h =
      Some ((0, p'), after h (polls ++
        if AIESIM then copy_calls (gmio_mem p) (after h polls) (aie2gm_buf_queue p) else [])) /\
    rc (drv (after h (replicate k (gmio_done_call c (impl_gmio p))))
            (gmio_done_call c (impl_gmio p))) = XAIE_OK /\
    enqueuedBDs (impl_gmio p') = [] /\
    aie2gm_buf_queue p' = (if AIESIM then [] else aie2gm_buf_queue p).
Proof.
  intros (Hinv & Hty & _ & Hs) Hf.
  destruct (gmio_wait_run n fuel c (impl_gmio p) h Hinv Hty Hs Hf) as (k & Hw & Hr).
  unfold impl_wait; exists k; cbv zeta.
  rewrite (bind_Some _ _ _ _ _ Hw); destruct AIESIM; cbv iota beta.
  - rewrite (bind_Some _ _ _ _ _ (copy_back_eq _ _ _)).
    eexists; split; [rewrite after_app; reflexivity|done].
  - eexists; split; [rewrite app_nil_r; reflexivity|done].
Qed.

(** The buffer an [aie2gm] transfer queues in the simulator build. *)
Definition queued_buf (p : GmioApiImpl) (data m : Z) (h : hist) : MemMap :=
  {| sim_phy_addr := out (drv h (addr_call (gmio_mem p) data));
     host_virtual_addr := data; len := u64 m |}.

Lemma aie2gm_nb_run n c fuel data m p h :
  port_ready n c p -> (n < fuel)%nat ->
  exists e p' pre, aie2gm_nb AIESIM cm fuel data m p h = Some ((e, p'), after h pre) /\
    (e = ok -> length (dma_starts pre) = 1%nat /\ port_ready n c p' /\
      gmio_mem p' = gmio_mem p /\
      gmio_done_call c (impl_gmio p') = gmio_done_call c (impl_gmio p) /\
      aie2gm_buf_queue p' =
        aie2gm_buf_queue p ++ (if AIESIM then [queued_buf p data m h] else [])).
Proof.
  intros Hready Hf; unfold aie2gm_nb.
  destruct (get_dev_addr_eq (gmio_mem p) data 0 h) as (c0 & a & Hg & Hc & Ha).
  rewrite (bind_Some _ _ _ _ _ Hg); cbv beta iota.
  destruct (Z.eqb_spec c0 0) as [E|E]; [|by eexists _, _, _].
  rewrite (Ha (proj1 Hc E)); change (negb true) with false; cbv iota; clear Hg Hc Ha.
  set (a0 := addr_call (gmio_mem p) data).
  assert (Ha0 : dma_starts [a0] = []) by apply addr_call_no_start; destruct AIESIM.
  - set (p0 := set_buf_queue _ p).
    destruct (gmio_sync_nb_run n c fuel AIE2GM (out (drv h a0)) m p0 (after h [a0]) Hready Hf)
      as (j & bd & e & p1 & He & _ & _ & Hr1 & Hm & Hq & Hdn).
    rewrite He, after_app; eexists _, _, _; split; [reflexivity|]; intros _.
    rewrite Hq, !dma_starts_app, dma_starts_replicate, Ha0 by done; done.
  - destruct (sync_for_cpu_eq (gmio_mem p) data (u64 m) (after h [a0])) as (c1 & Hs).
    rewrite (bind_Some _ _ _ _ _ Hs).
    destruct (gmio_sync_nb_run n c fuel AIE2GM (out (drv h a0)) m p
      (after (after h [a0]) (cpu_sync_calls (gmio_mem p) (after h [a0]) data (u64 m))) Hready Hf)
      as (j & bd & e & p1 & He & _ & _ & Hr1 & Hm & Hq & Hdn).
    rewrite He, !after_app; eexists _, _, _; split; [reflexivity|]; intros _.
    rewrite Hq, !dma_starts_app, dma_starts_replicate, Ha0,
      cpu_sync_no_start, app_nil_r by done; done.
Qed.

(** a blocking transfer from the array always returns; when it reports [ok] it
    has started one DMA transfer, has then seen the channel idle and holds no BD
    any more; in the simulator build every queued buffer, this one last, is copied
    back to the host after that, in the order they were queued. *)
Theorem aie2gm_blocking_completes n c fuel data m p h :
  port_ready n c p -> (n < fuel)%nat ->
  let done_call := gmio_done_call c (impl_gmio p) in
  exists e p' h', impl_aie2gm AIESIM cm fuel data m p h = Some ((e, p'), h') /\
    (e = ok -> exists k pre,
      let polls := replicate (S k) done_call in
      h' = after h (pre ++ polls ++
             if AIESIM then copy_calls (gmio_mem p) (after h (pre ++ polls))
                              (aie2gm_buf_queue p ++ [queued_buf p data m h]) else []) /\
      length (dma_starts pre) = 1%nat /\
      rc (drv (after h (pre ++ replicate k done_call)) done_call) = XAIE_OK /\
      enqueuedBDs (impl_gmio p') = [] /\
      (AIESIM = true -> aie2gm_buf_queue p' = [])).
Proof.
  intros Hready Hf done_call; unfold impl_aie2gm.
  destruct (aie2gm_nb_run n c fuel data m p h Hready Hf) as (e & p1 & pre & He & Hok).
  rewrite (bind_Some _ _ _ _ _ He); cbv beta iota.
  destruct (is_ok e) eqn:Eok; [|eexists _, _, _; split; [reflexivity|by intros ->]].
  apply bool_decide_eq_true in Eok; subst e.
  destruct (Hok eq_refl) as (Hst & Hr1 & Hm & Hdn & Hq); clear Hok.
  destruct (impl_wait_run n c fuel p1 (after h pre) Hr1 Hf) as (k & p2 & Hw & Hrc & Henq & Hbq).
  cbv zeta in Hw; rewrite (bind_Some _ _ _ _ _ Hw); unfold ret.
  eexists _, _, _; split; [reflexivity|]; intros _; exists k, pre; cbv zeta.
  rewrite Hdn, Hm, Hq, !after_app in *; fold done_call in Hrc |- *.
  split; [destruct AIESIM; done|]; split; [done|]; split; [done|]; split; [done|].
  intros E; rewrite E in Hbq; done.
Qed.
End GmioImplFacts.

(** ** A concrete port *)

(** A device like [queue_rt false] that knows every host address. *)
Definition mem_queue_rt : AieRt := {|
  drv := fun _ c => match c with
                    | XAie_DmaGetPendingBdCount _ _ _ => mkResp 0 1 []
                    | XAie_MemGetDevAddrFromVAddr v => mkResp 0 (v + 0x1000) []
                    | _ => mkResp 0 0 []
                    end;
  XAIE_ERR := 1; XAIE_CORE_STATUS_TIMEOUT := 12; XAIE_LOCK_WITH_NO_VALUE := -1;
  XAIE_DEV_GEN_AIE := 1; XAIE_DEV_GEN_AIEML := 2; XAIE_DEV_GEN_S100 := 6;
  XAIE_DEV_GEN_S200 := 7
|}.

Definition demo_port : GmioApiImpl :=
  {| aie2gm_buf_queue := []; impl_gmio := demo_busy_port; gmioconfig := demo_gmio;
     gmio_mem := {| ipc_ := false |} |}.

Lemma demo_port_ready : @port_ready mem_queue_rt 0 demo_gmio demo_port.
Proof.
  repeat split; try (simpl; lia || reflexivity);
    intros h; exists O; (split; [lia|reflexivity]).
Qed.

Lemma gm2aie_flushes_before_start_witness :
  exists j bd p', @gm2aie_nb mem_queue_rt demo_cm 1 64 16 demo_port [] =
    Some ((ok, p'), @after mem_queue_rt []
      ((XAie_MemGetDevAddrFromVAddr 64 :: XAie_MemSyncForDevVAddr 64 16 ::
        replicate j (pending_call demo_gmio demo_busy_port)) ++
       @bd_calls mem_queue_rt true demo_gmio demo_busy_port bd (64 + 0x1000) 16)).
Proof.
  pose proof (@gm2aie_flushes_before_start mem_queue_rt demo_cm {| DevGen := 2 |} eq_refl
    0 demo_gmio 1 64 16 demo_port [] demo_port_ready ltac:(lia)) as H.
  destruct H as (j & bd & p' & H & _); exists j, bd, p'; exact H.
Defined.

Lemma aie2gm_blocking_completes_witness :
  exists p' h', @impl_aie2gm mem_queue_rt true demo_cm 1 64 16 demo_port [] = Some ((ok, p'), h') /\
    enqueuedBDs (impl_gmio p') = [] /\ aie2gm_buf_queue p' = [].
Proof.
  destruct (@aie2gm_blocking_completes mem_queue_rt true demo_cm {| DevGen := 2 |} eq_refl
    0 demo_gmio 1 64 16 demo_port [] demo_port_ready ltac:(lia)) as (e & p' & h' & H & Hok).
  assert (E : e = ok) by (vm_compute in H; injection H; auto); subst e.
  destruct (Hok eq_refl) as (k & pre & _ & _ & _ & H1 & H2).
  exists p', h'; split; [exact H|split; [exact H1|exact (H2 eq_refl)]].
Defined.
