(* ===== verification/ExternalBuffer.v ===== *)
(** External buffers ([src/include/externalbufferapiimpl.h]): buffers in global
    memory whose transfers the compiler has already described by shim BDs.  The
    host patches the BDs with the buffer's device address and starts the task. *)
From stdpp Require Import base list strings.
From Stdlib Require Import ZArith Lia.
From S2P Require Import Prelude ApiTypes Driver GraphApi Rtp Gmio Dma HostMem.
Local Open Scope Z_scope.
Local Open Scope aeg_scope.

(** [src/include/externalbufferapiimpl.h:36-48] [TransactionInfo] *)
Record TransactionInfo := { virtualAddr : Z; physicalAddr : Z; tr_size : Z }.

(** [src/include/externalbufferapiimpl.h:50-58] [ExternalBufferApiImpl] *)
Record ExternalBufferApiImpl := {
  eb_config : external_buffer_config;
  ddr_address : Z;
  pingpong_address : Z * Z;
  eb_mem : XAieMem;
  aie2gm_trs : list TransactionInfo;
  gm2aie_trs : list TransactionInfo
}.

(** [src/include/externalbufferapiimpl.h:69-70] [ExternalBufferApiImpl::ExternalBufferApiImpl] *)
Definition external_buffer_new (c : external_buffer_config) (m : XAieMem) : ExternalBufferApiImpl :=
  {| eb_config := c; ddr_address := 0; pingpong_address := (0, 0); eb_mem := m;
     aie2gm_trs := []; gm2aie_trs := [] |}.

Definition set_trs (a2g g2a : list TransactionInfo) (b : ExternalBufferApiImpl)
  : ExternalBufferApiImpl :=
  {| eb_config := eb_config b; ddr_address := ddr_address b;
     pingpong_address := pingpong_address b; eb_mem := eb_mem b;
     aie2gm_trs := a2g; gm2aie_trs := g2a |}.

(** [src/include/externalbufferapiimpl.h:72-79] [ExternalBufferApiImpl::setAddress] *)
Definition setAddress (ptr : Z) (b : ExternalBufferApiImpl) : ExternalBufferApiImpl :=
  if ddr_address b =? 0 then
    {| eb_config := eb_config b; ddr_address := ptr;
       pingpong_address := pingpong_address b; eb_mem := eb_mem b;
       aie2gm_trs := aie2gm_trs b; gm2aie_trs := gm2aie_trs b |}
  else b.

(** The first port with the given name
    ([src/include/externalbufferapiimpl.h:88-94]). *)
Fixpoint find_port (port_name : string) (ports : list shim_port_config)
  : option shim_port_config :=
  match ports with
  | [] => None
  | p :: ports => if String.eqb port_name (sp_portName p) then Some p
                  else find_port port_name ports
  end.

(** The byte address of a BD: the offset counts 32-bit words. *)
Definition bd_address (phy : Z) (i : shimBDInfo) : Z := u64 (phy + u64 (u64 (offset i) * 4)).

Section ExternalBuffer.
Context `{rt : AieRt} (AIESIM : bool) (cm : config_manager).

(** [src/include/externalbufferapiimpl.h:59-67] [ExternalBufferApiImpl::getAddress] *)
Definition getAddress (m : XAieMem) (phy_address ddr_mem : Z) : M (err_code * Z) :=
  let* (c, a) := get_dev_addr m ddr_mem phy_address in
  ret (if negb (c =? 0) then aie_driver_error else ok, a).

(** What the loops over [shimBDInfos] carry: the transaction size and the first
    BD, [-1] before there is one. *)
Record bd_loop := { transaction_total : Z; start_bd : Z }.
Definition bd_loop_init : bd_loop := {| transaction_total := 0; start_bd := -1 |}.
Definition bd_loop_next (i : shimBDInfo) (l : bd_loop) : bd_loop :=
  {| transaction_total := u64 (transaction_total l + transaction_size i);
     start_bd := if start_bd l <? 0 then s32 (bd_id i) else start_bd l |}.

(** [src/include/externalbufferapiimpl.h:154-169] [ExternalBufferApiImpl::gm2aie_nb]
    the loop that patches the BDs; its status is overwritten by [enqueueTask]. *)
Fixpoint patch_bds (p : shim_port_config) (phy : Z) (infos : list shimBDInfo) (l : bd_loop)
  : M bd_loop :=
  match infos with
  | [] => ret l
  | i :: infos =>
      updateBDAddress cm 1 (u8 (sp_column p)) 0 (u8 (bd_id i)) (bd_address phy i) ;;;
      patch_bds p phy infos (bd_loop_next i l)
  end.

Definition start_task (p : shim_port_config) (l : bd_loop) : M err_code :=
  enqueueTask cm 1 (u8 (sp_column p)) 0 (S2MMOrMM2S p) (u8 (sp_channel p))
    (u32 (taskRepetition p)) (enable_task_complete_token p) (u8 (start_bd l)).

(** [src/include/externalbufferapiimpl.h:107-117] [ExternalBufferApiImpl::wait]
    the simulator's loops that copy the finished transactions back. *)
Fixpoint copy_back_trs (m : XAieMem) (q : list TransactionInfo) : M unit :=
  match q with
  | [] => ret tt
  | t :: q => sync_for_cpu m (virtualAddr t) (tr_size t) ;;; copy_back_trs m q
  end.

(** [src/include/externalbufferapiimpl.h:80-122] [ExternalBufferApiImpl::wait]
    No port, or an unknown one, is reported as [ok]. *)
Definition eb_wait (fuel : nat) (port_name : string) (b : ExternalBufferApiImpl)
  : M (err_code * ExternalBufferApiImpl) :=
  match find_port port_name (shimPortConfigs (eb_config b)) with
  | None => ret (ok, b)
  | Some p =>
      e <-- waitDMAChannelDone fuel cm 1 (u8 (sp_column p)) 0 (S2MMOrMM2S p) (u8 (sp_channel p)) ;;
      if AIESIM then
        if negb (S2MMOrMM2S p =? 0) then
          copy_back_trs (eb_mem b) (gm2aie_trs b) ;;; ret (e, set_trs (aie2gm_trs b) [] b)
        else
          copy_back_trs (eb_mem b) (aie2gm_trs b) ;;; ret (e, set_trs [] (gm2aie_trs b) b)
      else ret (e, b)
  end.

(** [src/include/externalbufferapiimpl.h:124-185] [ExternalBufferApiImpl::gm2aie_nb] *)
Definition eb_gm2aie_nb (port_name : string) (b : ExternalBufferApiImpl)
  : M (err_code * ExternalBufferApiImpl) :=
  match find_port port_name (shimPortConfigs (eb_config b)) with
  | None => ret (ok, b)
  | Some p =>
      let* (_, phy) := getAddress (eb_mem b) 0 (ddr_address b) in
      l <-- patch_bds p phy (shimBDInfos p) bd_loop_init ;;
      let b := if AIESIM then
        set_trs (aie2gm_trs b) (gm2aie_trs b ++
          [{| virtualAddr := ddr_address b; physicalAddr := phy; tr_size := transaction_total l |}]) b
        else b in
      sync_for_dev (eb_mem b) (ddr_address b) (transaction_total l) ;;;
      e <-- start_task p l ;;
      ret (e, b)
  end.

(** [src/include/externalbufferapiimpl.h:187-247] [ExternalBufferApiImpl::aie2gm_nb]
    The cache is synchronised with the device address instead of the buffer's. *)
Definition eb_aie2gm_nb (port_name : string) (b : ExternalBufferApiImpl)
  : M (err_code * ExternalBufferApiImpl) :=
  match find_port port_name (shimPortConfigs (eb_config b)) with
  | None => ret (ok, b)
  | Some p =>
      let* (_, phy) := getAddress (eb_mem b) 0 (ddr_address b) in
      l <-- patch_bds p phy (shimBDInfos p) bd_loop_init ;;
      b <-- (if AIESIM then
               ret (set_trs (aie2gm_trs b ++
                 [{| virtualAddr := ddr_address b; physicalAddr := phy;
                     tr_size := transaction_total l |}]) (gm2aie_trs b) b)
             else sync_for_dev (eb_mem b) phy (transaction_total l) ;;; ret b) ;;
      e <-- start_task p l ;;
      ret (e, b)
  end.

(** [src/include/externalbufferapiimpl.h:249-255] [ExternalBufferApiImpl::gm2aie] *)
Definition eb_gm2aie (fuel : nat) (port_name : string) (b : ExternalBufferApiImpl)
  : M (err_code * ExternalBufferApiImpl) :=
  let* (e, b) := eb_gm2aie_nb port_name b in
  if is_ok e then let* (_, b) := eb_wait fuel port_name b in ret (e, b)
  else ret (e, b).

(** [src/include/externalbufferapiimpl.h:257-263] [ExternalBufferApiImpl::aie2gm] *)
Definition eb_aie2gm (fuel : nat) (port_name : string) (b : ExternalBufferApiImpl)
  : M (err_code * ExternalBufferApiImpl) :=
  let* (e, b) := eb_aie2gm_nb port_name b in
  if is_ok e then let* (_, b) := eb_wait fuel port_name b in ret (e, b)
  else ret (e, b).

(** [pingpong_address[buf_idx]]; an index past the array is undefined. *)
Definition pingpong_at (b : ExternalBufferApiImpl) (i : Z) : option Z :=
  if i =? 0 then Some (fst (pingpong_address b))
  else if i =? 1 then Some (snd (pingpong_address b)) else None.

(** [src/include/externalbufferapiimpl.h:287-313] [ExternalBufferApiImpl::setupPingPongBuffers]
    the loop over the BDs of a port; it carries the last device address and the
    simulator's transaction. *)
Fixpoint patch_pingpong (b : ExternalBufferApiImpl) (p : shim_port_config)
    (infos : list shimBDInfo) (phy : Z) (t : TransactionInfo) (l : bd_loop)
  : M (Z * TransactionInfo * bd_loop) :=
  match infos with
  | [] => ret (phy, t, l)
  | i :: infos =>
      match pingpong_at b (buf_idx i) with
      | None => undefined
      | Some v =>
          let* (_, phy) := getAddress (eb_mem b) phy v in
          updateBDAddress cm 1 (u8 (sp_column p)) 0 (u8 (bd_id i)) (bd_address phy i) ;;;
          let l := bd_loop_next i l in
          patch_pingpong b p infos phy
            {| virtualAddr := v; physicalAddr := phy; tr_size := transaction_total l |} l
      end
  end.

Definition setup_port (sync_cache : bool) (p : shim_port_config) (s : err_code * ExternalBufferApiImpl)
  : M (err_code * ExternalBufferApiImpl) :=
  let '(_, b) := s in
  let* (pt, l) := patch_pingpong b p (shimBDInfos p) 0
    {| virtualAddr := 0; physicalAddr := 0; tr_size := 0 |} bd_loop_init in
  let '(phy, t) := pt in
  b <-- (if AIESIM then
           ret (if S2MMOrMM2S p =? 0 then set_trs (aie2gm_trs b ++ [t]) (gm2aie_trs b) b
                else set_trs (aie2gm_trs b) (gm2aie_trs b ++ [t]) b)
         else if sync_cache then sync_for_dev (eb_mem b) phy (transaction_total l) ;;; ret b
         else ret b) ;;
  e <-- start_task p l ;;
  ret (e, b).

(** [src/include/externalbufferapiimpl.h:265-339] [ExternalBufferApiImpl::setupPingPongBuffers] *)
Definition setupPingPongBuffers (ptr1 ptr2 : Z) (sync_cache : bool) (b : ExternalBufferApiImpl)
  : M (err_code * ExternalBufferApiImpl) :=
  let '(ping, pong) := pingpong_address b in
  let b := if (ping =? 0) && (pong =? 0) then
             {| eb_config := eb_config b; ddr_address := ddr_address b;
                pingpong_address := (ptr1, ptr2); eb_mem := eb_mem b;
                aie2gm_trs := aie2gm_trs b; gm2aie_trs := gm2aie_trs b |}
           else b in
  for_each (setup_port sync_cache) (shimPortConfigs (eb_config b)) (ok, b).
End ExternalBuffer.

(** * Properties *)

(** The loop state after a list of BDs. *)
Definition bd_loop_run (infos : list shimBDInfo) (l : bd_loop) : bd_loop :=
  fold_left (fun l i => bd_loop_next i l) infos l.

Definition total_size (infos : list shimBDInfo) : Z :=
  foldr (fun i z => transaction_size i + z) 0 infos.

Lemma bd_loop_run_total infos l :
  0 <= transaction_total l < 2 ^ 64 ->
  transaction_total (bd_loop_run infos l) = u64 (transaction_total l + total_size infos).
Proof.
  revert l; induction infos as [|i infos IH]; intros l Hl.
  - simpl; rewrite Z.add_0_r, wrap_u_small; done.
  - unfold bd_loop_run; simpl; fold (bd_loop_run infos (bd_loop_next i l)).
    rewrite IH by (apply wrap_u_range; lia); simpl transaction_total.
    unfold wrap_u; rewrite Zplus_mod_idemp_l; f_equal; lia.
Qed.

Lemma bd_loop_run_start infos l :
  0 <= start_bd l -> start_bd (bd_loop_run infos l) = start_bd l.
Proof.
  revert l; induction infos as [|i infos IH]; intros l Hl; [done|].
  assert (E : start_bd (bd_loop_next i l) = start_bd l)
    by (simpl; destruct (Z.ltb_spec (start_bd l) 0); [lia|done]).
  unfold bd_loop_run; simpl; fold (bd_loop_run infos (bd_loop_next i l)).
  rewrite IH; [exact E|rewrite E; exact Hl].
Qed.

(** The compiler lists the BDs of a port in order, so the first one starts it. *)
Lemma bd_loop_start_first i infos :
  0 <= bd_id i < 2 ^ 31 -> start_bd (bd_loop_run (i :: infos) bd_loop_init) = bd_id i.
Proof.
  intros Hi; unfold bd_loop_run; simpl.
  fold (bd_loop_run infos (bd_loop_next i bd_loop_init)).
  assert (E : start_bd (bd_loop_next i bd_loop_init) = bd_id i)
    by (simpl; apply wrap_s_small; lia).
  rewrite bd_loop_run_start; [exact E|lia].
Qed.

Section ExternalBufferFacts.
Context `{rt : AieRt} (AIESIM : bool) (cm : config_manager).

Definition patch_call (p : shim_port_config) (phy : Z) (i : shimBDInfo) : call :=
  XAie_DmaUpdateBdAddr (dma_tile cm 1 (u8 (sp_column p)) 0) (u64 (bd_address phy i))
    (u16 (u8 (bd_id i))).
Definition task_call (p : shim_port_config) (bd : Z) : call :=
  start_call cm 1 (u8 (sp_column p)) 0 (S2MMOrMM2S p) (u8 (sp_channel p))
    (u32 (taskRepetition p)) (enable_task_complete_token p) (u8 bd).

Lemma patch_bds_eq p phy infos l h :
  patch_bds cm p phy infos l h =
  Some (bd_loop_run infos l, after h (map (patch_call p phy) infos)).
Proof.
  revert l h; induction infos as [|i infos IH]; intros l h; simpl.
  - by rewrite after_nil.
  - unfold updateBDAddress; rewrite bind_assoc, (bind_Some _ _ _ _ _ (status_eq _ _ _)).
    change (bind (ret ?x) ?k ?h) with (k x h); cbv beta; rewrite IH, after_app; done.
Qed.

Lemma patch_calls_no_start p phy infos : dma_starts (map (patch_call p phy) infos) = [].
Proof. induction infos; done. Qed.

Lemma start_task_eq p l h :
  start_task cm p l h = Some (result (codes XAIE_OK h [task_call p (start_bd l)]),
                              after h [task_call p (start_bd l)]).
Proof. unfold start_task, enqueueTask; run_m; done. Qed.

Lemma getAddress_eq m old v h :
  exists e a, getAddress m old v h = Some ((e, a), after h [addr_call m v]) /\
    (addr_found m (drv h (addr_call m v)) = true -> a = out (drv h (addr_call m v))).
Proof.
  unfold getAddress; destruct (get_dev_addr_eq m v old h) as (c & a & Hg & _ & Ha).
  rewrite (bind_Some _ _ _ _ _ Hg); unfold ret; eauto.
Qed.

(** a transfer to the array through a port of an external buffer patches every
    BD of the port with its byte address inside the buffer, flushes the whole
    transaction, and then starts the task, once and last, with the port's first
    BD.  Its status is the status of that last call: a failed address lookup or BD
    update does not stop the transfer and is not reported. *)
Theorem external_gm2aie_patches_flushes_starts port_name b p i infos h :
  find_port port_name (shimPortConfigs (eb_config b)) = Some p ->
  shimBDInfos p = i :: infos -> 0 <= bd_id i < 2 ^ 31 ->
  exists e b' phy,
    let total := u64 (total_size (i :: infos)) in
    let patch := addr_call (eb_mem b) (ddr_address b) :: map (patch_call p phy) (i :: infos) in
    let pre := patch ++ dev_sync_calls (eb_mem b) (after h patch) (ddr_address b) total in
    eb_gm2aie_nb AIESIM cm port_name b h = Some ((e, b'), after h (pre ++ [task_call p (bd_id i)])) /\
    dma_starts pre = [] /\
    (e = ok <-> all_ok (after h pre) [task_call p (bd_id i)]) /\
    (addr_found (eb_mem b) (drv h (addr_call (eb_mem b) (ddr_address b))) = true ->
     phy = out (drv h (addr_call (eb_mem b) (ddr_address b)))).
Proof.
  intros Hp Hi Hid; unfold eb_gm2aie_nb; rewrite Hp.
  destruct (getAddress_eq (eb_mem b) 0 (ddr_address b) h) as (e0 & phy & Hg & Hphy).
  rewrite (bind_Some _ _ _ _ _ Hg); cbv beta iota.
  rewrite (bind_Some _ _ _ _ _ (patch_bds_eq _ _ _ _ _)), Hi.
  set (l := bd_loop_run (i :: infos) bd_loop_init).
  assert (Ht : transaction_total l = u64 (total_size (i :: infos)))
    by (unfold l; rewrite bd_loop_run_total; [done|simpl; lia]).
  set (b' := if AIESIM then _ else b).
  assert (Eb : eb_mem b' = eb_mem b /\ ddr_address b' = ddr_address b)
    by (unfold b'; destruct AIESIM; done).
  destruct Eb as [Em Ed]; rewrite Em, Ed, Ht.
  set (patch := addr_call (eb_mem b) (ddr_address b) :: map (patch_call p phy) (i :: infos)).
  assert (Eh : after (after h [addr_call (eb_mem b) (ddr_address b)])
                 (map (patch_call p phy) (i :: infos)) = after h patch) by apply after_app.
  rewrite Eh; clear Eh.
  edestruct (sync_for_dev_eq (eb_mem b) (ddr_address b) (u64 (total_size (i :: infos)))
    (after h patch)) as (c1 & Hs).
  rewrite (bind_Some _ _ _ _ _ Hs), (bind_Some _ _ _ _ _ (start_task_eq _ _ _)).
  eexists _, b', phy; cbv zeta; fold patch.
  unfold l; rewrite bd_loop_start_first by done; rewrite !after_app.
  split; [reflexivity|]; split; [|split; [apply result_ok_iff|exact Hphy]].
  rewrite dma_starts_app, dev_sync_no_start, app_nil_r; unfold patch.
  change (?x :: ?m) with ([x] ++ m).
  rewrite dma_starts_app, addr_call_no_start, patch_calls_no_start; done.
Qed.

(** ** Ping-pong buffers *)

Definition buf_indices_ok (infos : list shimBDInfo) : Prop :=
  Forall (fun i => buf_idx i = 0 \/ buf_idx i = 1) infos.

(** The buffer a BD belongs to. *)
Definition buffer_for (b : ExternalBufferApiImpl) (i : shimBDInfo) : Z :=
  if buf_idx i =? 0 then fst (pingpong_address b) else snd (pingpong_address b).

(** The BD updates among a list of calls. *)
Definition bd_updates (cs : list call) : list Z :=
  flat_map (fun c => match c with XAie_DmaUpdateBdAddr _ _ bd => [bd] | _ => [] end) cs.

Lemma bd_updates_app cs cs' : bd_updates (cs ++ cs') = bd_updates cs ++ bd_updates cs'.
Proof. apply flat_map_app. Qed.

Lemma dev_sync_no_update m h v n : bd_updates (dev_sync_calls m h v n) = [].
Proof. unfold dev_sync_calls; destruct (ipc_ m); [destruct (_ =? 0)|]; done. Qed.

Lemma addr_call_no_update m v : bd_updates [addr_call m v] = [].
Proof. unfold addr_call; destruct (ipc_ m); done. Qed.

Lemma patch_pingpong_run b p infos phy t l h :
  buf_indices_ok infos ->
  exists phy' t' cs, patch_pingpong cm b p infos phy t l h =
      Some ((phy', t', bd_loop_run infos l), after h cs) /\
    dma_starts cs = [] /\ bd_updates cs = map (fun i => u16 (u8 (bd_id i))) infos.
Proof.
  intros Hi; revert phy t l h; induction Hi as [|i infos Hi _ IH]; intros phy t l h.
  - eexists _, _, []; rewrite after_nil; done.
  - simpl; assert (Ev : exists v, pingpong_at b (buf_idx i) = Some v)
      by (unfold pingpong_at; destruct Hi as [-> | ->]; simpl; eauto).
    destruct Ev as [v ->].
    destruct (getAddress_eq (eb_mem b) phy v h) as (e0 & a & Hg & _).
    rewrite (bind_Some _ _ _ _ _ Hg); cbv beta iota.
    unfold updateBDAddress at 1; rewrite bind_assoc, (bind_Some _ _ _ _ _ (status_eq _ _ _)).
    change (bind (ret ?x) ?k ?h) with (k x h); cbv beta.
    edestruct IH as (phy' & t' & cs & H & Hst & Hup).
    rewrite H, !after_app; eexists _, _, _; split; [reflexivity|].
    rewrite !dma_starts_app, !bd_updates_app, Hst, Hup, addr_call_no_start, addr_call_no_update.
    done.
Qed.

Lemma setup_port_run sync p e0 b h :
  buf_indices_ok (shimBDInfos p) ->
  exists e b' cs, setup_port AIESIM cm sync p (e0, b) h = Some ((e, b'), after h cs) /\
    dma_starts cs = [task_call p (start_bd (bd_loop_run (shimBDInfos p) bd_loop_init))] /\
    bd_updates cs = map (fun i => u16 (u8 (bd_id i))) (shimBDInfos p) /\
    eb_config b' = eb_config b /\ pingpong_address b' = pingpong_address b.
Proof.
  intros Hi; unfold setup_port.
  edestruct (patch_pingpong_run b p (shimBDInfos p)) as (phy & t & cs & H & Hst & Hup); [done|].
  rewrite (bind_Some _ _ _ _ _ H); cbv beta iota.
  set (l := bd_loop_run (shimBDInfos p) bd_loop_init).
  assert (Hm : forall h0, exists b' cs', (if AIESIM then
           ret (if S2MMOrMM2S p =? 0 then set_trs (aie2gm_trs b ++ [t]) (gm2aie_trs b) b
                else set_trs (aie2gm_trs b) (gm2aie_trs b ++ [t]) b)
         else if sync then sync_for_dev (eb_mem b) phy (transaction_total l) ;;; ret b
         else ret b) h0 = Some (b', after h0 cs') /\ dma_starts cs' = [] /\ bd_updates cs' = [] /\
         eb_config b' = eb_config b /\ pingpong_address b' = pingpong_address b).
  { intros h0; destruct AIESIM; [|destruct sync].
    - destruct (_ =? 0); eexists _, []; rewrite after_nil; done.
    - destruct (sync_for_dev_eq (eb_mem b) phy (transaction_total l) h0) as (c & Hs).
      rewrite (bind_Some _ _ _ _ _ Hs); eexists _, _; split; [reflexivity|].
      rewrite dev_sync_no_start, dev_sync_no_update; done.
    - eexists _, []; rewrite after_nil; done. }
  destruct (Hm (after h cs)) as (b' & cs' & Hb & Hst' & Hup' & Hc & Hpp).
  rewrite (bind_Some _ _ _ _ _ Hb), (bind_Some _ _ _ _ _ (start_task_eq _ _ _)), !after_app.
  eexists _, b', _; split; [reflexivity|].
  rewrite !dma_starts_app, !bd_updates_app, Hst, Hup, Hst', Hup'; simpl.
  rewrite ?app_nil_r; done.
Qed.

(** setting up ping-pong buffers records the two buffers unless some were set
    before, and then, for every port in order, updates all its BDs and starts its
    task once with its first BD; when every BD names buffer 0 or 1 no access
    leaves the array of the two addresses. *)
Theorem pingpong_starts_every_port ptr1 ptr2 sync b h :
  Forall (fun p => buf_indices_ok (shimBDInfos p)) (shimPortConfigs (eb_config b)) ->
  exists e b' cs,
    setupPingPongBuffers AIESIM cm ptr1 ptr2 sync b h = Some ((e, b'), after h cs) /\
    pingpong_address b' =
      (if bool_decide (pingpong_address b = (0, 0)) then (ptr1, ptr2) else pingpong_address b) /\
    dma_starts cs =
      map (fun p => task_call p (start_bd (bd_loop_run (shimBDInfos p) bd_loop_init)))
          (shimPortConfigs (eb_config b)) /\
    bd_updates cs =
      flat_map (fun p => map (fun i => u16 (u8 (bd_id i))) (shimBDInfos p))
               (shimPortConfigs (eb_config b)).
Proof.
  intros Hok; unfold setupPingPongBuffers; destruct (pingpong_address b) as [ping pong] eqn:Epp.
  match goal with |- context [for_each _ (shimPortConfigs (eb_config ?x)) _] => set (b0 := x) end.
  assert (E0 : eb_config b0 = eb_config b /\ pingpong_address b0 =
    (if bool_decide ((ping, pong) = (0, 0)) then (ptr1, ptr2) else (ping, pong))).
  { unfold b0; destruct (Z.eqb_spec ping 0), (Z.eqb_spec pong 0);
      first [rewrite bool_decide_true by congruence|rewrite bool_decide_false by congruence];
      simpl; auto. }
  destruct E0 as [Ec Ep]; rewrite Ec, <- Ep; clear Ec Ep Epp; clearbody b0.
  generalize ok as e0; revert b0 h; induction Hok as [|p ports Hp _ IH]; intros b0 h e0.
  - eexists _, _, []; simpl; rewrite after_nil; done.
  - destruct (setup_port_run sync p e0 b0 h Hp) as (e & b' & cs & H & Hst & Hup & _ & Hpp).
    simpl; rewrite (bind_Some _ _ _ _ _ H).
    destruct (IH b' (after h cs) e) as (e' & b'' & cs' & H' & Hpp' & Hst' & Hup').
    rewrite H', after_app; eexists _, _, _; split; [reflexivity|].
    rewrite dma_starts_app, bd_updates_app, Hst, Hup, Hst', Hup', Hpp', Hpp; done.
Qed.
End ExternalBufferFacts.

(** ** A concrete buffer *)

Definition demo_shim_port : shim_port_config :=
  {| sp_portId := 0; sp_portName := "in"; sp_column := 4; S2MMOrMM2S := 1; sp_channel := 0;
     taskRepetition := 1; enable_task_complete_token := false;
     shimBDInfos := [{| bd_id := 3; buf_idx := 0; offset := 0; transaction_size := 64 |};
                     {| bd_id := 4; buf_idx := 1; offset := 16; transaction_size := 64 |}] |}.
Definition demo_ext : ExternalBufferApiImpl :=
  {| eb_config := {| eb_id := 0; eb_name := "ddr"; shimPortConfigs := [demo_shim_port] |};
     ddr_address := 0x100; pingpong_address := (0, 0); eb_mem := {| ipc_ := false |};
     aie2gm_trs := []; gm2aie_trs := [] |}.

Lemma external_gm2aie_patches_flushes_starts_witness :
  exists e b' phy, @eb_gm2aie_nb ok_rt false demo_cm "in" demo_ext [] =
    Some ((e, b'), @after ok_rt []
      ([XAie_MemGetDevAddrFromVAddr 0x100; patch_call demo_cm demo_shim_port phy
          {| bd_id := 3; buf_idx := 0; offset := 0; transaction_size := 64 |};
        patch_call demo_cm demo_shim_port phy
          {| bd_id := 4; buf_idx := 1; offset := 16; transaction_size := 64 |};
        XAie_MemSyncForDevVAddr 0x100 128; task_call demo_cm demo_shim_port 3])).
Proof.
  destruct (@external_gm2aie_patches_flushes_starts ok_rt false demo_cm "in" demo_ext demo_shim_port
    {| bd_id := 3; buf_idx := 0; offset := 0; transaction_size := 64 |}
    [{| bd_id := 4; buf_idx := 1; offset := 16; transaction_size := 64 |}] []
    eq_refl eq_refl ltac:(simpl; lia)) as (e & b' & phy & H & _).
  exists e, b', phy; exact H.
Defined.

Lemma pingpong_starts_every_port_witness :
  exists e b' cs, @setupPingPongBuffers ok_rt false demo_cm 0x200 0x300 true demo_ext [] =
      Some ((e, b'), @after ok_rt [] cs) /\
    pingpong_address b' = (0x200, 0x300) /\ bd_updates cs = [3; 4].
Proof.
  destruct (@pingpong_starts_every_port ok_rt false demo_cm 0x200 0x300 true demo_ext [])
    as (e & b' & cs & H & Hp & _ & Hu).
  - repeat (constructor; try (simpl; tauto)).
  - exists e, b', cs; split; [exact H|split; [exact Hp|exact Hu]].
Defined.
