(* ===== verification/SimGraph.v ===== *)
(** The simulator front end: the abstract backend [BaremetalGraphSimBase], the port
    classes written against it ([src/include/aeg_baremetal_graph_sim_base.h]) and
    the wrapper [BaremetalGraphSim] that loads a backend from a shared library
    and guards it ([src/include/aiebaremetal.h]).

    The abstract class is a type class: a backend answers each request with a
    result of the request's own type and a new state.  Everything here is proved
    for every backend. *)
From stdpp Require Import base list strings.
From Stdlib Require Import ZArith Lia.
From S2P Require Import Prelude ApiTypes.
Local Open Scope Z_scope.

(** * The backend interface *)

(** [src/include/aeg_baremetal_api.h:79-82] [cdo_blob] *)
Record cdo_blob := { blob_data : Z; blob_len : Z }.

(** [src/include/aeg_baremetal_graph_sim_base.h:30-38] [BaremetalGraphSimBase]
    One request per virtual method; a pointer is an integer and null is zero. *)
Inductive breq :=
| B_selftestexit
| B_clock_enable
| B_clock_disable
| B_error_handling_cb_init (cb priv : Z)
| B_init
| B_load_cdo (addr len : Z)
| B_init_blobs (blobs : option (list cdo_blob)) (count : nat)
| B_run (num : Z)
| B_gm2aie_nb (name : string) (data len : Z)
| B_aie2gm_nb (name : string) (data len : Z)
| B_gm2aie (name : string) (data len : Z)
| B_aie2gm (name : string) (data len : Z)
| B_wait
| B_setAddress (name : string) (ptr : Z)
| B_eb_wait (name port_name : string)
| B_eb_gm2aie_nb (name port_name : string)
| B_eb_aie2gm_nb (name port_name : string)
| B_setupPingPongBuffers (name : string) (ptr1 ptr2 : Z) (sync_cache : bool)
| B_end
| B_gmio_wait (name : string) (syncmode : bool)
| B_malloc (len : Z)
| B_free (addr : Z)
| B_update (port_name : string) (data len : Z)
| B_read (port_name : string) (data len : Z)
| B_dumpcorelog (row col : Z)
| B_getaiedevinst
| B_BacktrackErrors
| B_gdbpoint
| B_start_profiling (port_name : string) (option_ value : Z)
| B_start_profiling2 (port_name1 port_name2 : string) (option_ value : Z)
| B_read_profiling (h : Z)
| B_stop_profiling (h : Z)
| B_getGraphSimImpl.

(** [src/include/aeg_baremetal_graph_sim_base.h:63-96] [BaremetalGraphSimBase]
    The return type of each method: an error code, or an integer or pointer. *)
Definition bres (r : breq) : Type :=
  match r with
  | B_malloc _ | B_dumpcorelog _ _ | B_getaiedevinst | B_BacktrackErrors
  | B_start_profiling _ _ _ | B_start_profiling2 _ _ _ _ | B_read_profiling _
  | B_getGraphSimImpl => Z
  | B_gdbpoint => unit
  | _ => aeg_err
  end.

Class BaremetalGraphSimBase (S : Type) := {
  invoke : forall r : breq, S -> bres r * S
}.

Section Base.
Context {S : Type} `{B : BaremetalGraphSimBase S}.

(** The loop of the default [init]: apply the blobs in order. *)
Fixpoint load_blobs (blobs : list cdo_blob) (s : S) : aeg_err * S :=
  match blobs with
  | [] => (aeg_ok, s)
  | b :: blobs =>
      if blob_data b =? 0 then (aeg_null_argument, s)
      else
        let '(status, s) := invoke (B_load_cdo (blob_data b) (blob_len b)) s in
        if negb (aeg_is_ok status) then (status, s) else load_blobs blobs s
  end.

(** [src/include/aeg_baremetal_graph_sim_base.h:47-62] [BaremetalGraphSimBase::init]
    [blobs] holds at least [count] entries, as the caller promises. *)
Definition base_init (blobs : option (list cdo_blob)) (count : nat) (s : S) : aeg_err * S :=
  match blobs with
  | None => if negb (count =? 0)%nat then (aeg_null_argument, s) else invoke B_init s
  | Some l =>
      let '(e, s) := load_blobs (take count l) s in
      if negb (aeg_is_ok e) then (e, s) else invoke B_init s
  end.

(** * Ports *)

(** [src/include/aeg_baremetal_api.h:232-257] [BasePort]
    [graphImpl] is null or the backend, whose state is threaded. *)
Record BasePort := { port_portName : string; port_bound : bool }.

(** [auto *g = graphImpl; if (!g) return e; return g->r(...)] *)
Definition with_backend {A} (p : BasePort) (dflt : A) (k : S -> A * S) (s : S) : A * S :=
  if port_bound p then k s else (dflt, s).

(** [src/include/aeg_baremetal_graph_sim_base.h:103-114] [BasePort::start_profiling] *)
Definition port_start_profiling (p : BasePort) (option_ value : Z) (s : S) : Z * S :=
  if String.eqb (port_portName p) "" then (-1, s)
  else with_backend p (-1) (invoke (B_start_profiling (port_portName p) option_ value)) s.

(** [src/include/aeg_baremetal_graph_sim_base.h:116-127] [BasePort::read_profiling] *)
Definition port_read_profiling (p : BasePort) (h : Z) (s : S) : Z * S :=
  if h <? 0 then (-1, s) else with_backend p (-1) (invoke (B_read_profiling h)) s.

(** [src/include/aeg_baremetal_graph_sim_base.h:129-140] [BasePort::stop_profiling] *)
Definition port_stop_profiling (p : BasePort) (h : Z) (s : S) : aeg_err * S :=
  if h <? 0 then (aeg_invalid_state, s)
  else with_backend p aeg_backend_not_ready (invoke (B_stop_profiling h)) s.

(** [src/include/aeg_baremetal_graph_sim_base.h:142-157] [InputGMIO::gm2aie_nb] *)
Definition InputGMIO_gm2aie_nb (p : BasePort) (data len : Z) (s : S) : aeg_err * S :=
  if data =? 0 then (aeg_null_argument, s)
  else if len <=? 0 then (aeg_invalid_length, s)
  else with_backend p aeg_backend_not_ready (invoke (B_gm2aie_nb (port_portName p) data len)) s.

(** [src/include/aeg_baremetal_graph_sim_base.h:159-174] [InputGMIO::gm2aie] *)
Definition InputGMIO_gm2aie (p : BasePort) (data len : Z) (s : S) : aeg_err * S :=
  if data =? 0 then (aeg_null_argument, s)
  else if len <=? 0 then (aeg_invalid_length, s)
  else with_backend p aeg_backend_not_ready (invoke (B_gm2aie (port_portName p) data len)) s.

(** [src/include/aeg_baremetal_graph_sim_base.h:176-191] [OutputGMIO::aie2gm_nb] *)
Definition OutputGMIO_aie2gm_nb (p : BasePort) (data len : Z) (s : S) : aeg_err * S :=
  if data =? 0 then (aeg_null_argument, s)
  else if len <=? 0 then (aeg_invalid_length, s)
  else with_backend p aeg_backend_not_ready (invoke (B_aie2gm_nb (port_portName p) data len)) s.

(** [src/include/aeg_baremetal_graph_sim_base.h:193-208] [OutputGMIO::aie2gm] *)
Definition OutputGMIO_aie2gm (p : BasePort) (data len : Z) (s : S) : aeg_err * S :=
  if data =? 0 then (aeg_null_argument, s)
  else if len <=? 0 then (aeg_invalid_length, s)
  else with_backend p aeg_backend_not_ready (invoke (B_aie2gm (port_portName p) data len)) s.

(** [src/include/aeg_baremetal_graph_sim_base.h:210-221] [OutputGMIO::gmio_wait]
    A port only waits in blocking mode. *)
Definition OutputGMIO_gmio_wait (p : BasePort) (syncmode : bool) (s : S) : aeg_err * S :=
  if negb syncmode then (aeg_user_error, s)
  else with_backend p aeg_backend_not_ready (invoke (B_gmio_wait (port_portName p) syncmode)) s.

(** [src/include/aeg_baremetal_graph_sim_base.h:223-238] [RTP::update] *)
Definition RTP_update (p : BasePort) (data len : Z) (s : S) : aeg_err * S :=
  if data =? 0 then (aeg_null_argument, s)
  else if len =? 0 then (aeg_invalid_length, s)
  else with_backend p aeg_backend_not_ready (invoke (B_update (port_portName p) data len)) s.

(** [src/include/aeg_baremetal_graph_sim_base.h:240-255] [RTP::read] *)
Definition RTP_read (p : BasePort) (data len : Z) (s : S) : aeg_err * S :=
  if data =? 0 then (aeg_null_argument, s)
  else if len <=? 0 then (aeg_invalid_length, s)
  else with_backend p aeg_backend_not_ready (invoke (B_read (port_portName p) data len)) s.

(** [src/include/aeg_baremetal_graph_sim_base.h:257-272] [SharedBuffer::update] *)
Definition SharedBuffer_update (p : BasePort) (data len : Z) (s : S) : aeg_err * S :=
  if data =? 0 then (aeg_null_argument, s)
  else if len =? 0 then (aeg_invalid_length, s)
  else with_backend p aeg_backend_not_ready (invoke (B_update (port_portName p) data len)) s.
End Base.

(** ** Names of external buffers and their ports *)

Definition dot : Ascii.ascii := Eval cbv in Ascii.ascii_of_nat 46.

(** [std::string_view::rfind] *)
Fixpoint rfind (c : Ascii.ascii) (s : string) : option nat :=
  match s with
  | EmptyString => None
  | String a s =>
      match rfind c s with
      | Some n => Some (S n)
      | None => if Ascii.eqb a c then Some O else None
      end
  end.

(** The copy loops into a 256-byte array: at most [limit] characters of [s], and
    no more than [room]. *)
Fixpoint copy_chars (room limit : nat) (s : string) : string :=
  match room, limit, s with
  | S room, S limit, String a s => String a (copy_chars room limit s)
  | _, _, _ => EmptyString
  end.

(** [src/include/aeg_baremetal_graph_sim_base.h:280-290] [ExternalBufferPort::wait]
    The buffer a port name belongs to: what stands before its last dot. *)
Definition bufferName (portName : string) : option string :=
  match rfind dot portName with
  | None => None
  | Some lastDot => Some (copy_chars 255 lastDot portName)
  end.

(** [src/include/aeg_baremetal_graph_sim_base.h:404-419] [ExternalBuffer::gm2aie_nb]
    The name of the default port of a buffer: the buffer's name and a suffix. *)
Definition default_port (suffix portName : string) : string :=
  let buf := copy_chars 255 (String.length portName) portName in
  String.append buf (copy_chars (255 - String.length buf) (String.length suffix) suffix).

Section ExternalPorts.
Context {S : Type} `{B : BaremetalGraphSimBase S}.

(** [src/include/aeg_baremetal_graph_sim_base.h:274-292] [ExternalBufferPort::wait] *)
Definition ExternalBufferPort_wait (p : BasePort) (s : S) : aeg_err * S :=
  with_backend p aeg_backend_not_ready (fun s =>
    match bufferName (port_portName p) with
    | None => (aeg_invalid_name, s)
    | Some b => invoke (B_eb_wait b (port_portName p)) s
    end) s.

(** [src/include/aeg_baremetal_graph_sim_base.h:294-312] [ExternalBufferPort::gm2aie_nb] *)
Definition ExternalBufferPort_gm2aie_nb (p : BasePort) (s : S) : aeg_err * S :=
  with_backend p aeg_backend_not_ready (fun s =>
    match bufferName (port_portName p) with
    | None => (aeg_invalid_name, s)
    | Some b => invoke (B_eb_gm2aie_nb b (port_portName p)) s
    end) s.

(** [src/include/aeg_baremetal_graph_sim_base.h:314-332] [ExternalBufferPort::aie2gm_nb] *)
Definition ExternalBufferPort_aie2gm_nb (p : BasePort) (s : S) : aeg_err * S :=
  with_backend p aeg_backend_not_ready (fun s =>
    match bufferName (port_portName p) with
    | None => (aeg_invalid_name, s)
    | Some b => invoke (B_eb_aie2gm_nb b (port_portName p)) s
    end) s.

(** [src/include/aeg_baremetal_graph_sim_base.h:334-345] [ExternalBuffer::setAddress] *)
Definition ExternalBuffer_setAddress (p : BasePort) (ptr : Z) (s : S) : aeg_err * S :=
  if ptr =? 0 then (aeg_null_argument, s)
  else with_backend p aeg_backend_not_ready (invoke (B_setAddress (port_portName p) ptr)) s.

(** [src/include/aeg_baremetal_graph_sim_base.h:347-358] [ExternalBuffer::wait] *)
Definition ExternalBuffer_wait (p : BasePort) (port_name : string) (s : S) : aeg_err * S :=
  if String.eqb port_name "" then (aeg_invalid_name, s)
  else with_backend p aeg_backend_not_ready (invoke (B_eb_wait (port_portName p) port_name)) s.

(** [src/include/aeg_baremetal_graph_sim_base.h:360-371] [ExternalBuffer::gm2aie_nb] *)
Definition ExternalBuffer_gm2aie_nb (p : BasePort) (port_name : string) (s : S) : aeg_err * S :=
  if String.eqb port_name "" then (aeg_invalid_name, s)
  else with_backend p aeg_backend_not_ready (invoke (B_eb_gm2aie_nb (port_portName p) port_name)) s.

(** [src/include/aeg_baremetal_graph_sim_base.h:373-384] [ExternalBuffer::aie2gm_nb] *)
Definition ExternalBuffer_aie2gm_nb (p : BasePort) (port_name : string) (s : S) : aeg_err * S :=
  if String.eqb port_name "" then (aeg_invalid_name, s)
  else with_backend p aeg_backend_not_ready (invoke (B_eb_aie2gm_nb (port_portName p) port_name)) s.

(** [src/include/aeg_baremetal_graph_sim_base.h:386-397] [ExternalBuffer::setupPingPongBuffers] *)
Definition ExternalBuffer_setupPingPongBuffers (p : BasePort) (ptr1 ptr2 : Z) (sync_cache : bool)
    (s : S) : aeg_err * S :=
  if (ptr1 =? 0) || (ptr2 =? 0) then (aeg_null_argument, s)
  else with_backend p aeg_backend_not_ready
         (invoke (B_setupPingPongBuffers (port_portName p) ptr1 ptr2 sync_cache)) s.

(** [src/include/aeg_baremetal_graph_sim_base.h:399-420] [ExternalBuffer::gm2aie_nb] *)
Definition ExternalBuffer_gm2aie_nb_default (p : BasePort) (s : S) : aeg_err * S :=
  if String.eqb (port_portName p) "" then (aeg_invalid_name, s)
  else ExternalBuffer_gm2aie_nb p (default_port ".out[0]" (port_portName p)) s.

(** [src/include/aeg_baremetal_graph_sim_base.h:422-443] [ExternalBuffer::aie2gm_nb] *)
Definition ExternalBuffer_aie2gm_nb_default (p : BasePort) (s : S) : aeg_err * S :=
  if String.eqb (port_portName p) "" then (aeg_invalid_name, s)
  else ExternalBuffer_aie2gm_nb p (default_port ".in[0]" (port_portName p)) s.
End ExternalPorts.

(** * The wrapper *)

(** The handle of the shared library: [dlclose] does not reset it. *)
Inductive dl_handle := h_null | h_open | h_closed.

(** What the environment offers when the library is loaded: no environment
    variable, a library that does not load, one without the factory symbol, or
    the instance the factory returns. *)
Inductive lib_outcome (S : Type) :=
| no_env
| dlopen_failed
| no_symbol
| created (inst : option S).
Arguments no_env {S}.
Arguments dlopen_failed {S}.
Arguments no_symbol {S}.
Arguments created {S} inst.

(** [src/include/aiebaremetal.h:476-481] [BaremetalGraphSim] *)
Record BaremetalGraphSim (S : Type) := mkSim {
  handle : dl_handle;
  bgraph : option S;
  sim_isInitialized : bool
}.
Arguments mkSim {S}.
Arguments handle {S}.
Arguments bgraph {S}.
Arguments sim_isInitialized {S}.

Section Wrapper.
Context {S : Type} `{B : BaremetalGraphSimBase S}.

(** [src/include/aiebaremetal.h:491-521] [BaremetalGraphSim::createBGraphInstance] *)
Definition createBGraphInstance (o : lib_outcome S) (b : BaremetalGraphSim S)
  : option S * BaremetalGraphSim S :=
  match o with
  | no_env => (None, b)
  | dlopen_failed => (None, mkSim h_null (bgraph b) (sim_isInitialized b))
  | no_symbol => (None, mkSim h_closed (bgraph b) (sim_isInitialized b))
  | created inst => (inst, mkSim h_open (bgraph b) (sim_isInitialized b))
  end.

Definition set_bgraph (s : option S) (b : BaremetalGraphSim S) : BaremetalGraphSim S :=
  mkSim (handle b) s (sim_isInitialized b).

(** [src/include/aiebaremetal.h:61-66] [BaremetalGraphSim::BaremetalGraphSim]
    the build with a simulator *)
Definition sim_new (o : lib_outcome S) : BaremetalGraphSim S :=
  let '(inst, b) := createBGraphInstance o (mkSim h_null None false) in set_bgraph inst b.

(** [src/include/aiebaremetal.h:68-77] [BaremetalGraphSim::~BaremetalGraphSim]
    Closing a handle that is already closed is undefined ([None]). *)
Definition sim_delete (b : BaremetalGraphSim S) : option unit :=
  match handle b with
  | h_closed => None
  | _ => Some tt
  end.

(** [src/include/aiebaremetal.h:483-489] [BaremetalGraphSim::check_initialized_impl] *)
Definition check_initialized_impl (b : BaremetalGraphSim S) : bool := sim_isInitialized b.

(** [if (bgraph) return bgraph->r(...); else return dflt;] *)
Definition via_backend {A} (dflt : A) (k : S -> A * S) (b : BaremetalGraphSim S)
  : A * BaremetalGraphSim S :=
  match bgraph b with
  | Some s => let '(a, s) := k s in (a, set_bgraph (Some s) b)
  | None => (dflt, b)
  end.

(** The pattern of the guarded methods: [uninit] before a successful [init],
    [dflt] without a backend. *)
Definition guarded {A} (uninit dflt : A) (k : S -> A * S) (b : BaremetalGraphSim S)
  : A * BaremetalGraphSim S :=
  if negb (check_initialized_impl b) then (uninit, b) else via_backend dflt k b.

(** A guarded method that drops the backend's code. *)
Definition guarded_ok (k : S -> aeg_err * S) (b : BaremetalGraphSim S)
  : aeg_err * BaremetalGraphSim S :=
  guarded aeg_user_error aeg_user_error (fun s => let '(_, s) := k s in (aeg_ok, s)) b.

(** [src/include/aiebaremetal.h:128-144] [BaremetalGraphSim::init] *)
Definition sim_init (o : lib_outcome S) (blobs : option (list cdo_blob)) (count : nat)
    (b : BaremetalGraphSim S) : aeg_err * BaremetalGraphSim S :=
  let b := match bgraph b with
           | Some _ => b
           | None => let '(inst, b) := createBGraphInstance o b in set_bgraph inst b
           end in
  match bgraph b with
  | Some s =>
      let '(e, s) := invoke (B_init_blobs blobs count) s in
      let b := set_bgraph (Some s) b in
      if negb (aeg_is_ok e) then (e, b) else (aeg_ok, mkSim (handle b) (bgraph b) true)
  | None => (aeg_internal_error, b)
  end.

(** [src/include/aiebaremetal.h:146-151] [BaremetalGraphSim::load_cdo] *)
Definition sim_load_cdo (addr len : Z) : BaremetalGraphSim S -> aeg_err * BaremetalGraphSim S :=
  via_backend aeg_user_error (invoke (B_load_cdo addr len)).

(** [src/include/aiebaremetal.h:79-89] [BaremetalGraphSim::selftestexit] *)
Definition sim_selftestexit := guarded aeg_user_error aeg_internal_error (invoke B_selftestexit).

(** [src/include/aiebaremetal.h:91-100] [BaremetalGraphSim::clock_enable] *)
Definition sim_clock_enable := guarded aeg_user_error aeg_internal_error (invoke B_clock_enable).

(** [src/include/aiebaremetal.h:102-111] [BaremetalGraphSim::clock_disable] *)
Definition sim_clock_disable := guarded aeg_user_error aeg_internal_error (invoke B_clock_disable).

(** [src/include/aiebaremetal.h:113-123] [BaremetalGraphSim::error_handling_cb_init] *)
Definition sim_error_handling_cb_init (cb priv : Z) :=
  guarded aeg_user_error aeg_internal_error (invoke (B_error_handling_cb_init cb priv)).

(** [src/include/aiebaremetal.h:153-163] [BaremetalGraphSim::run] *)
Definition sim_run (num : Z) := guarded aeg_user_error aeg_internal_error (invoke (B_run num)).

(** [src/include/aiebaremetal.h:165-176] [BaremetalGraphSim::gm2aie_nb] *)
Definition sim_gm2aie_nb (name : string) (data len : Z) :=
  guarded aeg_user_error aeg_internal_error (invoke (B_gm2aie_nb name data len)).

(** [src/include/aiebaremetal.h:178-188] [BaremetalGraphSim::aie2gm_nb] *)
Definition sim_aie2gm_nb (name : string) (data len : Z) :=
  guarded aeg_user_error aeg_internal_error (invoke (B_aie2gm_nb name data len)).

(** [src/include/aiebaremetal.h:190-200] [BaremetalGraphSim::gm2aie] *)
Definition sim_gm2aie (name : string) (data len : Z) :=
  guarded aeg_user_error aeg_internal_error (invoke (B_gm2aie name data len)).

(** [src/include/aiebaremetal.h:202-212] [BaremetalGraphSim::aie2gm] *)
Definition sim_aie2gm (name : string) (data len : Z) :=
  guarded aeg_user_error aeg_internal_error (invoke (B_aie2gm name data len)).

(** [src/include/aiebaremetal.h:214-226] [BaremetalGraphSim::gmio_wait] *)
Definition sim_gmio_wait (name : string) (syncmode : bool) :=
  guarded aeg_user_error aeg_internal_error (invoke (B_gmio_wait name syncmode)).

(** [src/include/aiebaremetal.h:229-240] [BaremetalGraphSim::setAddress] *)
Definition sim_setAddress (name : string) (ptr : Z) :=
  guarded aeg_user_error aeg_internal_error (invoke (B_setAddress name ptr)).

(** [src/include/aiebaremetal.h:242-253] [BaremetalGraphSim::wait] *)
Definition sim_eb_wait (name port_name : string) := guarded_ok (invoke (B_eb_wait name port_name)).

(** [src/include/aiebaremetal.h:255-266] [BaremetalGraphSim::gm2aie_nb] *)
Definition sim_eb_gm2aie_nb (name port_name : string) :=
  guarded_ok (invoke (B_eb_gm2aie_nb name port_name)).

(** [src/include/aiebaremetal.h:268-279] [BaremetalGraphSim::aie2gm_nb] *)
Definition sim_eb_aie2gm_nb (name port_name : string) :=
  guarded_ok (invoke (B_eb_aie2gm_nb name port_name)).

(** [src/include/aiebaremetal.h:281-292] [BaremetalGraphSim::setupPingPongBuffers] *)
Definition sim_setupPingPongBuffers (name : string) (ptr1 ptr2 : Z) (sync_cache : bool) :=
  guarded_ok (invoke (B_setupPingPongBuffers name ptr1 ptr2 sync_cache)).

(** [src/include/aiebaremetal.h:295-305] [BaremetalGraphSim::wait] *)
Definition sim_wait := guarded aeg_user_error aeg_internal_error (invoke B_wait).

(** [src/include/aiebaremetal.h:307-318] [BaremetalGraphSim::end] *)
Definition sim_end := guarded aeg_user_error aeg_user_error (invoke B_end).

(** [src/include/aiebaremetal.h:320-327] [BaremetalGraphSim::malloc] *)
Definition sim_malloc (len : Z) : BaremetalGraphSim S -> Z * BaremetalGraphSim S :=
  via_backend 0 (invoke (B_malloc len)).

(** [src/include/aiebaremetal.h:329-338] [BaremetalGraphSim::free] *)
Definition sim_free (addr : Z) : BaremetalGraphSim S -> aeg_err * BaremetalGraphSim S :=
  via_backend aeg_internal_error (invoke (B_free addr)).

(** [src/include/aiebaremetal.h:340-350] [BaremetalGraphSim::update] *)
Definition sim_update (port_name : string) (data len : Z) :=
  guarded aeg_user_error aeg_user_error (invoke (B_update port_name data len)).

(** [src/include/aiebaremetal.h:352-363] [BaremetalGraphSim::read] *)
Definition sim_read (port_name : string) (data len : Z) :=
  guarded aeg_user_error aeg_user_error (invoke (B_read port_name data len)).

(** [src/include/aiebaremetal.h:365-375] [BaremetalGraphSim::dumpcorelog] *)
Definition sim_dumpcorelog (row col : Z) := guarded 0 0 (invoke (B_dumpcorelog row col)).

(** [src/include/aiebaremetal.h:377-387] [BaremetalGraphSim::getaiedevinst] *)
Definition sim_getaiedevinst := guarded 0 0 (invoke B_getaiedevinst).

(** [src/include/aiebaremetal.h:389-399] [BaremetalGraphSim::BacktrackErrors] *)
Definition sim_BacktrackErrors := guarded 0 0 (invoke B_BacktrackErrors).

(** [src/include/aiebaremetal.h:401-411] [BaremetalGraphSim::gdbpoint] *)
Definition sim_gdbpoint := guarded tt tt (invoke B_gdbpoint).

(** [src/include/aiebaremetal.h:413-423] [BaremetalGraphSim::start_profiling] *)
Definition sim_start_profiling (port_name : string) (option_ value : Z) :=
  guarded (-1) (-1) (invoke (B_start_profiling port_name option_ value)).

(** [src/include/aiebaremetal.h:425-437] [BaremetalGraphSim::start_profiling] *)
Definition sim_start_profiling2 (port_name1 port_name2 : string) (option_ value : Z) :=
  guarded (-1) (-1) (invoke (B_start_profiling2 port_name1 port_name2 option_ value)).

(** [src/include/aiebaremetal.h:439-450] [BaremetalGraphSim::read_profiling] *)
Definition sim_read_profiling (h : Z) := guarded (-1) (-1) (invoke (B_read_profiling h)).

(** [src/include/aiebaremetal.h:452-463] [BaremetalGraphSim::stop_profiling] *)
Definition sim_stop_profiling (h : Z) :=
  guarded aeg_user_error aeg_internal_error (invoke (B_stop_profiling h)).

(** [src/include/aiebaremetal.h:465-470] [BaremetalGraphSim::getGraphSimImpl] *)
Definition sim_getGraphSimImpl : BaremetalGraphSim S -> Z * BaremetalGraphSim S :=
  via_backend 0 (invoke B_getGraphSimImpl).

(** The wrapper's method for each request; [init] has its own signature. *)
Definition sim_dispatch (r : breq) : BaremetalGraphSim S -> bres r * BaremetalGraphSim S :=
  match r with
  | B_selftestexit => sim_selftestexit
  | B_clock_enable => sim_clock_enable
  | B_clock_disable => sim_clock_disable
  | B_error_handling_cb_init cb priv => sim_error_handling_cb_init cb priv
  | B_init => sim_init no_env None 0
  | B_init_blobs blobs count => sim_init no_env blobs count
  | B_load_cdo addr len => sim_load_cdo addr len
  | B_run num => sim_run num
  | B_gm2aie_nb name data len => sim_gm2aie_nb name data len
  | B_aie2gm_nb name data len => sim_aie2gm_nb name data len
  | B_gm2aie name data len => sim_gm2aie name data len
  | B_aie2gm name data len => sim_aie2gm name data len
  | B_wait => sim_wait
  | B_setAddress name ptr => sim_setAddress name ptr
  | B_eb_wait name port => sim_eb_wait name port
  | B_eb_gm2aie_nb name port => sim_eb_gm2aie_nb name port
  | B_eb_aie2gm_nb name port => sim_eb_aie2gm_nb name port
  | B_setupPingPongBuffers name p1 p2 sc => sim_setupPingPongBuffers name p1 p2 sc
  | B_end => sim_end
  | B_gmio_wait name sync => sim_gmio_wait name sync
  | B_malloc len => sim_malloc len
  | B_free addr => sim_free addr
  | B_update name data len => sim_update name data len
  | B_read name data len => sim_read name data len
  | B_dumpcorelog row col => sim_dumpcorelog row col
  | B_getaiedevinst => sim_getaiedevinst
  | B_BacktrackErrors => sim_BacktrackErrors
  | B_gdbpoint => sim_gdbpoint
  | B_start_profiling name o v => sim_start_profiling name o v
  | B_start_profiling2 n1 n2 o v => sim_start_profiling2 n1 n2 o v
  | B_read_profiling h => sim_read_profiling h
  | B_stop_profiling h => sim_stop_profiling h
  | B_getGraphSimImpl => sim_getGraphSimImpl
  end.
End Wrapper.

(** * The C entry points for generated code

    [None] is a null graph. *)
Section EntryPoints.
Context {S : Type} `{B : BaremetalGraphSimBase S}.

(** [src/include/aiebaremetal.h:525-528] [abr_port_start_profiling] *)
Definition abr_port_start_profiling (name : string) (option_ value : Z) (g : option S)
  : Z * option S :=
  match g with
  | Some s => let '(z, s) := invoke (B_start_profiling name option_ value) s in (z, Some s)
  | None => (-1, None)
  end.

(** [src/include/aiebaremetal.h:529-532] [abr_port_read_profiling] *)
Definition abr_port_read_profiling (h : Z) (g : option S) : Z * option S :=
  match g with
  | Some s => let '(z, s) := invoke (B_read_profiling h) s in (z, Some s)
  | None => (-1, None)
  end.

(** [src/include/aiebaremetal.h:533-537] [abr_port_stop_profiling] *)
Definition abr_port_stop_profiling (h : Z) (g : option S) : option S :=
  match g with Some s => Some (snd (invoke (B_stop_profiling h) s)) | None => None end.

(** [src/include/aiebaremetal.h:538-542] [abr_gmio_gm2aie_nb] *)
Definition abr_gmio_gm2aie_nb (name : string) (data len : Z) (g : option S) : option S :=
  match g with Some s => Some (snd (invoke (B_gm2aie_nb name data len) s)) | None => None end.

(** [src/include/aiebaremetal.h:543-547] [abr_gmio_aie2gm_nb] *)
Definition abr_gmio_aie2gm_nb (name : string) (data len : Z) (g : option S) : option S :=
  match g with Some s => Some (snd (invoke (B_aie2gm_nb name data len) s)) | None => None end.

(** [src/include/aiebaremetal.h:548-552] [abr_gmio_gmio_wait] *)
Definition abr_gmio_gmio_wait (name : string) (syncmode : Z) (g : option S) : option S :=
  match g with
  | Some s => Some (snd (invoke (B_gmio_wait name (negb (syncmode =? 0))) s))
  | None => None
  end.
End EntryPoints.

(** * Properties *)

Section InitFacts.
Context {S : Type} `{B : BaremetalGraphSimBase S}.

Definition load1 (b : cdo_blob) (s : S) : aeg_err * S :=
  invoke (B_load_cdo (blob_data b) (blob_len b)) s.

(** The state after loading some blobs, and that each was accepted. *)
Definition after_loads (l : list cdo_blob) (s : S) : S :=
  fold_left (fun s b => snd (load1 b s)) l s.
Fixpoint loads_ok (l : list cdo_blob) (s : S) : Prop :=
  match l with
  | [] => True
  | b :: l => blob_data b <> 0 /\ fst (load1 b s) = aeg_ok /\ loads_ok l (snd (load1 b s))
  end.

Lemma load_blobs_spec l s :
  let '(e, s') := load_blobs l s in
  exists dn rest, l = dn ++ rest /\ s' = after_loads dn s /\
    ((e = aeg_ok /\ rest = [] /\ loads_ok dn s) \/
     (e <> aeg_ok /\ ~ loads_ok l s)).
Proof.
  revert s; induction l as [|b l IH]; intros s; simpl.
  - exists [], []; simpl; tauto.
  - destruct (Z.eqb_spec (blob_data b) 0) as [E|E].
    + exists [], (b :: l); split; [done|]; split; [done|]; right; split; [done|tauto].
    + fold (load1 b s); destruct (load1 b s) as [e s1] eqn:El.
      unfold aeg_is_ok; case_bool_decide as He; simpl.
      * specialize (IH s1); destruct (load_blobs l s1) as [e' s'].
        destruct IH as (dn & rest & -> & -> & H); exists (b :: dn), rest.
        split; [done|]; split; [simpl; rewrite El; done|].
        simpl; rewrite El; simpl; destruct H as [(? & ? & ?)|[? ?]]; [left|right]; tauto.
      * exists [b], l; split; [done|]; split; [simpl; rewrite El; done|].
        right; split; [done|]; tauto.
Qed.

(** [init] with CDO blobs applies them in order and configures the graph only
    when every one was accepted: then its result is the one of [init] in the state
    the blobs left.  Otherwise it reports an error, [init] is not called, and the
    blobs after the offending one are not applied. *)
Theorem init_applies_cdos_first l count s :
  let blobs := take count l in
  (loads_ok blobs s -> base_init (Some l) count s = invoke B_init (after_loads blobs s)) /\
  (~ loads_ok blobs s -> exists e dn rest, e <> aeg_ok /\ blobs = dn ++ rest /\
     base_init (Some l) count s = (e, after_loads dn s)).
Proof.
  intros blobs; unfold base_init; fold blobs.
  pose proof (load_blobs_spec blobs s) as H; destruct (load_blobs blobs s) as [e s'].
  destruct H as (dn & rest & Hl & -> & H); unfold aeg_is_ok.
  destruct H as [(-> & -> & Hok)|[He Hno]].
  - rewrite app_nil_r in Hl; subst dn; split; [done|tauto].
  - split; [tauto|]; intros _; rewrite bool_decide_false by done; simpl.
    exists e, dn, rest; done.
Qed.

(** ** The wrapper as a state machine *)

(** The requests that are answered without a backend until [init] succeeded. *)
Definition is_guarded (r : breq) : bool :=
  match r with
  | B_init | B_init_blobs _ _ | B_load_cdo _ _ | B_malloc _ | B_free _ | B_getGraphSimImpl => false
  | _ => true
  end.
(** The requests whose code the wrapper drops. *)
Definition drops_code (r : breq) : bool :=
  match r with
  | B_eb_wait _ _ | B_eb_gm2aie_nb _ _ | B_eb_aie2gm_nb _ _ | B_setupPingPongBuffers _ _ _ _ => true
  | _ => false
  end.

Inductive sim_reachable : BaremetalGraphSim S -> Prop :=
| reach_new o : sim_reachable (sim_new o)
| reach_init o blobs count b :
    sim_reachable b -> sim_reachable (snd (sim_init o blobs count b))
| reach_request r b : sim_reachable b -> sim_reachable (snd (sim_dispatch r b)).

Lemma via_backend_keeps {A} (dflt : A) k (b : BaremetalGraphSim S) :
  sim_isInitialized (snd (via_backend dflt k b)) = sim_isInitialized b /\
  (is_Some (bgraph b) -> is_Some (bgraph (snd (via_backend dflt k b)))).
Proof.
  unfold via_backend; destruct (bgraph b) as [s|] eqn:E; [destruct (k s); simpl; eauto|].
  simpl; rewrite E; done.
Qed.

Lemma guarded_keeps {A} (u dflt : A) k (b : BaremetalGraphSim S) :
  sim_isInitialized (snd (guarded u dflt k b)) = sim_isInitialized b /\
  (is_Some (bgraph b) -> is_Some (bgraph (snd (guarded u dflt k b)))).
Proof. unfold guarded; destruct (negb _); [done|apply via_backend_keeps]. Qed.

Lemma sim_init_backend o blobs count (b : BaremetalGraphSim S) :
  (sim_isInitialized b = true -> is_Some (bgraph b)) ->
  let b' := snd (sim_init o blobs count b) in
  sim_isInitialized b' = true -> is_Some (bgraph b').
Proof.
  intros Hb; unfold sim_init.
  set (b0 := match bgraph b with Some _ => b | None => _ end).
  assert (H0 : sim_isInitialized b0 = true -> is_Some (bgraph b0)).
  { unfold b0; destruct (bgraph b) eqn:E; [rewrite E; eauto|].
    destruct (createBGraphInstance o b) as [inst b1] eqn:Ec; simpl; intros Hi.
    assert (Hb1 : sim_isInitialized b1 = sim_isInitialized b)
      by (destruct o; simpl in Ec; simplify_eq; done).
    rewrite Hb1 in Hi; destruct (Hb Hi); done. }
  clearbody b0; destruct (bgraph b0) as [s|] eqn:E; [|simpl; rewrite E; exact H0].
  destruct (invoke (B_init_blobs blobs count) s) as [e s']; destruct (negb _); simpl; eauto.
Qed.

Definition is_init (r : breq) : bool :=
  match r with B_init | B_init_blobs _ _ => true | _ => false end.

Lemma dispatch_keeps r (b : BaremetalGraphSim S) :
  is_init r = false ->
  sim_isInitialized (snd (sim_dispatch r b)) = sim_isInitialized b /\
  (is_Some (bgraph b) -> is_Some (bgraph (snd (sim_dispatch r b)))).
Proof.
  destruct r; try discriminate; intros _;
    first [exact (guarded_keeps _ _ _ b)|exact (via_backend_keeps _ _ b)].
Qed.

Lemma reachable_backend b :
  sim_reachable b -> sim_isInitialized b = true -> is_Some (bgraph b).
Proof.
  induction 1 as [o|o blobs count b Hr IH|r b Hr IH].
  - unfold sim_new; destruct o; discriminate.
  - apply sim_init_backend, IH.
  - destruct (is_init r) eqn:E.
    + destruct r; try discriminate; apply sim_init_backend, IH.
    + destruct (dispatch_keeps r b E) as [H1 H2]; rewrite H1; auto.
Qed.

(** The answer of a request that is refused. *)
Definition refusal (r : breq) : bres r :=
  match r with
  | B_dumpcorelog _ _ | B_getaiedevinst | B_BacktrackErrors => 0
  | B_start_profiling _ _ _ | B_start_profiling2 _ _ _ _ | B_read_profiling _ => -1
  | B_gdbpoint => tt
  | B_malloc _ | B_getGraphSimImpl => 0
  | _ => aeg_user_error
  end.

(** in every state the wrapper can reach, a guarded request reaches the backend
    only after a successful [init], and then there is a backend: before it the
    request is refused and nothing changes; after it the backend's state is the
    one after the request and its answer is passed on, except that the four
    external-buffer operations always answer [ok]. *)
Theorem wrapper_guards_backend b r :
  sim_reachable b -> is_guarded r = true ->
  (sim_isInitialized b = false -> sim_dispatch r b = (refusal r, b)) /\
  (sim_isInitialized b = true -> exists s, bgraph b = Some s /\
     snd (sim_dispatch r b) = set_bgraph (Some (snd (invoke r s))) b /\
     (drops_code r = false -> fst (sim_dispatch r b) = fst (invoke r s))).
Proof.
  intros Hr Hg; split; intros Hi.
  - destruct r; try discriminate Hg; unfold sim_dispatch;
      cbv delta [sim_selftestexit sim_clock_enable sim_clock_disable sim_error_handling_cb_init
        sim_run sim_gm2aie_nb sim_aie2gm_nb sim_gm2aie sim_aie2gm sim_wait sim_setAddress
        sim_eb_wait sim_eb_gm2aie_nb sim_eb_aie2gm_nb sim_setupPingPongBuffers sim_end
        sim_gmio_wait sim_update sim_read sim_dumpcorelog sim_getaiedevinst
        sim_BacktrackErrors sim_gdbpoint sim_start_profiling sim_start_profiling2
        sim_read_profiling sim_stop_profiling guarded_ok guarded check_initialized_impl];
      cbv beta; rewrite Hi; reflexivity.
  - destruct (reachable_backend b Hr Hi) as [s Hs]; exists s; split; [done|].
    assert (Hv : forall A (d : A) k, via_backend d k b =
        (fst (k s), set_bgraph (Some (snd (k s))) b))
      by (intros A d k; unfold via_backend; rewrite Hs; destruct (k s); done).
    assert (Hu : forall A (u d : A) k, guarded u d k b =
        (fst (k s), set_bgraph (Some (snd (k s))) b))
      by (intros; unfold guarded, check_initialized_impl; rewrite Hi; apply Hv).
    destruct r; try discriminate Hg;
      (split; [|intros Hd; try discriminate Hd]);
      first [exact (f_equal snd (Hu _ _ _ _))|exact (f_equal fst (Hu _ _ _ _))
            |etransitivity; [exact (f_equal snd (Hu _ _ _ _))|]; simpl; by destruct (invoke _ s)].
Qed.

(** A library without the factory symbol is closed but its handle is kept, so the
    destructor closes it a second time. *)
Lemma missing_symbol_closed_twice : sim_delete (sim_new (S := S) no_symbol) = None.
Proof. done. Qed.
End InitFacts.

(** ** Port names *)

Lemma copy_chars_prefix a b room limit :
  (String.length a <= room)%nat -> limit = String.length a ->
  copy_chars room limit (String.append a b) = a.
Proof.
  intros Hr ->; revert room Hr; induction a as [|c a IH]; intros [|room] Hr; simpl in *;
    try done; try lia.
  f_equal; apply IH; lia.
Qed.

Lemma append_nil a : String.append a EmptyString = a.
Proof. induction a as [|c a IH]; [done|exact (f_equal (String c) IH)]. Qed.

Lemma copy_chars_all a room :
  (String.length a <= room)%nat -> copy_chars room (String.length a) a = a.
Proof. intros; rewrite <- (append_nil a) at 2; by apply copy_chars_prefix. Qed.

Lemma rfind_append c a b n :
  rfind c b = Some n -> rfind c (String.append a b) = Some (String.length a + n)%nat.
Proof. intros Hb; induction a as [|x a IH]; simpl; [done|]; by rewrite IH. Qed.

(** the default port of an external buffer whose name leaves room for the
    suffix in the 256-byte array is its name followed by the suffix, and taking
    the buffer name out of that port name gives the buffer back; so the port
    operations of such a port address the buffer it came from. *)
Theorem default_port_roundtrip {S} `{B : BaremetalGraphSimBase S} name suffix p (s : S) :
  suffix = ".out[0]" \/ suffix = ".in[0]" ->
  (String.length name + String.length suffix <= 255)%nat ->
  port_portName p = default_port suffix name -> port_bound p = true ->
  default_port suffix name = String.append name suffix /\
  bufferName (default_port suffix name) = Some name /\
  ExternalBufferPort_wait p s = invoke (B_eb_wait name (port_portName p)) s.
Proof.
  intros Hs Hlen Hp Hb.
  assert (E : default_port suffix name = String.append name suffix).
  { unfold default_port; rewrite copy_chars_all by lia; f_equal; apply copy_chars_all; lia. }
  assert (Hn : bufferName (default_port suffix name) = Some name).
  { rewrite E; unfold bufferName.
    rewrite (rfind_append dot name suffix 0) by (destruct Hs as [-> | ->]; reflexivity).
    f_equal; apply copy_chars_prefix; lia. }
  split; [done|]; split; [done|]; unfold ExternalBufferPort_wait, with_backend.
  rewrite Hb, Hp, Hn; done.
Qed.

(** ** A concrete backend *)

(** A backend that records the requests it gets and accepts them. *)
#[export] Instance log_backend : BaremetalGraphSimBase (list breq) := {
  invoke r s := (match r return bres r with
                 | B_gdbpoint => tt
                 | B_malloc _ | B_dumpcorelog _ _ | B_getaiedevinst | B_BacktrackErrors
                 | B_start_profiling _ _ _ | B_start_profiling2 _ _ _ _ | B_read_profiling _
                 | B_getGraphSimImpl => 0
                 | _ => aeg_ok
                 end, s ++ [r])
}.

Lemma init_applies_cdos_first_witness :
  base_init (Some [{| blob_data := 8; blob_len := 4 |}]) 1 ([] : list breq) =
    (aeg_ok, [B_load_cdo 8 4; B_init]).
Proof.
  destruct (init_applies_cdos_first [{| blob_data := 8; blob_len := 4 |}] 1 ([] : list breq))
    as [H _].
  rewrite H; [reflexivity|]; simpl; repeat split; discriminate.
Defined.

Lemma wrapper_guards_backend_witness :
  let b := snd (sim_init no_env None 0 (sim_new (created (Some ([] : list breq))))) in
  snd (sim_dispatch (B_run 5) b) = set_bgraph (Some [B_init_blobs None 0; B_run 5]) b.
Proof.
  destruct (wrapper_guards_backend
    (snd (sim_init no_env None 0 (sim_new (created (Some ([] : list breq)))))) (B_run 5)
    (reach_init _ _ _ _ (reach_new _)) eq_refl) as [_ H].
  destruct (H eq_refl) as (s & Hs & Hd & _); simpl in Hs; injection Hs as <-; exact Hd.
Defined.

Lemma default_port_roundtrip_witness :
  ExternalBufferPort_wait {| port_portName := "ddr.out[0]"; port_bound := true |} ([] : list breq) =
    (aeg_ok, [B_eb_wait "ddr" "ddr.out[0]"]).
Proof.
  destruct (default_port_roundtrip "ddr" ".out[0]"
    {| port_portName := "ddr.out[0]"; port_bound := true |} ([] : list breq)
    (or_introl eq_refl) ltac:(simpl; lia) eq_refl eq_refl) as (_ & _ & H); exact H.
Defined.
