(* ===== verification/Regs.v ===== *)
(** Register access outside the AIE driver: the helpers a CDO loader applies
    ([src/aeg_cdo.h]) and the control of programmable-logic kernels through their
    AXI-Lite registers ([src/aeg_pl_kernel.cc], [src/include/aeg_baremetal_api_pl.h]).

    A device address is an integer of [uintptr_t], 64 bits wide. *)
From stdpp Require Import base list.
From Stdlib Require Import ZArith Lia.
From S2P Require Import Prelude ApiTypes Driver.
Local Open Scope Z_scope.
Local Open Scope aeg_scope.

(** * Bounded polling

    Both components poll a register every 200 us: [count] times a read and, if it
    did not match, a sleep; then a last read. *)
Section TimedPoll.
Context `{rt : AieRt}.

Fixpoint timed_poll (count : nat) (c : call) (good : resp -> bool) : M bool :=
  match count with
  | O => r <-- exec c ;; ret (good r)
  | S count =>
      r <-- exec c ;;
      if good r then ret true
      else exec_ (usleep 200) ;;; timed_poll count c good
  end.

(** [k] reads that did not match, each followed by a sleep. *)
Definition misses (k : nat) (c : call) : list call := concat (replicate k [c; usleep 200]).

Lemma misses_succ k c : misses (S k) c = [c; usleep 200] ++ misses k c.
Proof. done. Qed.

Lemma timed_poll_spec count c good h :
  exists b k, timed_poll count c good h = Some (b, after h (misses k c ++ [c])) /\
    (k <= count)%nat /\
    b = good (drv (after h (misses k c)) c) /\
    (forall j, (j < k)%nat -> good (drv (after h (misses j c)) c) = false) /\
    (b = false -> k = count).
Proof.
  revert h; induction count as [|count IH]; intros h; cbn [timed_poll].
  - exists (good (drv h c)), O; rewrite (bind_Some _ _ _ _ _ (exec_eq _ _)).
    simpl; rewrite after_nil; repeat split; auto; intros; lia.
  - rewrite (bind_Some _ _ _ _ _ (exec_eq _ _)); cbv beta.
    destruct (good (drv h c)) eqn:E.
    + exists true, O; simpl; rewrite after_nil; repeat split; auto; intros; lia || discriminate.
    + rewrite (bind_Some _ _ _ _ _ (exec__eq _ _)), after_app.
      destruct (IH (after h ([c] ++ [usleep 200]))) as (b & k & Hp & Hk & Hb & Hbefore & Hend).
      exists b, (S k); rewrite misses_succ, Hp; rewrite !after_app in *.
      split; [rewrite <- app_assoc; done|]; split; [lia|].
      split; [rewrite Hb; done|]; split; [|intros; f_equal; auto].
      intros [|j] Hj; [simpl; rewrite after_nil; done|].
      specialize (Hbefore j ltac:(lia)); rewrite after_app in Hbefore; exact Hbefore.
Qed.

(** The time spent sleeping in a list of calls. *)
Definition slept1 (c : call) : Z := match c with usleep us => us | _ => 0 end.
Definition slept (cs : list call) : Z := foldr (fun c z => slept1 c + z) 0 cs.

Lemma slept_misses k c : slept1 c = 0 -> slept (misses k c ++ [c]) = 200 * Z.of_nat k.
Proof.
  intros Hc; induction k as [|k IH]; [simpl; lia|].
  rewrite misses_succ, <- app_assoc; cbn [app slept foldr]; fold (slept (misses k c ++ [c])).
  rewrite IH, Hc; simpl slept1; lia.
Qed.
End TimedPoll.

(** [(timeout_us + 200 - 1) / 200] in a [w]-bit unsigned type. *)
Definition poll_iterations (w timeout_us : Z) : Z :=
  wrap_u w (wrap_u w (timeout_us + 200) - 1) / 200.

Lemma poll_iterations_bounds w t :
  8 <= w -> 0 <= t < 2 ^ w ->
  0 <= poll_iterations w t /\ 200 * poll_iterations w t <= t + 199 /\
  (t <= 2 ^ w - 200 -> t <= 200 * poll_iterations w t).
Proof.
  intros Hw Ht; assert (Hp : 2 ^ 8 <= 2 ^ w) by (apply Z.pow_le_mono_r; lia).
  unfold poll_iterations.
  pose proof (wrap_u_range w (wrap_u w (t + 200) - 1) ltac:(lia)) as Hr.
  set (x := wrap_u w (wrap_u w (t + 200) - 1)) in *.
  pose proof (Z.mul_div_le x 200 ltac:(lia)).
  pose proof (Z.mul_succ_div_gt x 200 ltac:(lia)).
  pose proof (Z.div_pos x 200 ltac:(lia) ltac:(lia)).
  assert (Hx : t <= 2 ^ w - 200 -> x = t + 199).
  { intros Hle; unfold x; destruct (decide (t = 2 ^ w - 200)) as [->|].
    - replace (2 ^ w - 200 + 200) with (1 * 2 ^ w) by lia.
      unfold wrap_u; rewrite Z.mod_mul, <- (Z.mod_add _ 1) by lia; rewrite Z.mod_small; lia.
    - rewrite (wrap_u_small w (t + 200)), wrap_u_small by lia; lia. }
  assert (x <= t + 199) by (destruct (decide (t <= 2 ^ w - 200)); [rewrite Hx; lia|lia]).
  split; [lia|]; split; [lia|]; intros Hle; specialize (Hx Hle); lia.
Qed.

(** The largest timeouts overflow the rounding: there is no iteration. *)
Lemma poll_iterations_overflow w t :
  8 <= w -> 2 ^ w - 199 <= t < 2 ^ w -> poll_iterations w t = 0.
Proof.
  intros Hw Ht; assert (Hp : 2 ^ 8 <= 2 ^ w) by (apply Z.pow_le_mono_r; lia).
  unfold poll_iterations.
  assert (E : wrap_u w (t + 200) = t + 200 - 2 ^ w).
  { unfold wrap_u; rewrite <- (Z.mod_add _ (-1)) by lia; rewrite Z.mod_small; lia. }
  rewrite E, wrap_u_small by lia; apply Z.div_small; lia.
Qed.

(** * CDO register helpers *)

Section Cdo.
Context `{rt : AieRt}.

(** [src/aeg_cdo.h:82-87] [cdo_reg_write32_raw] *)
Definition cdo_reg_write32_raw (addr val : Z) : M unit := exec_ (Xil_Out32 addr val).

(** [src/aeg_cdo.h:99-108] [cdo_reg_maskwrite32_raw]
    [~mask] of a [uint32_t] is the 32-bit complement. *)
Definition cdo_reg_maskwrite32_raw (addr mask val : Z) : M unit :=
  r <-- exec (Xil_In32 addr) ;;
  let regval := u32 (out r) in
  cdo_reg_write32_raw addr
    (Z.lor (Z.land regval (u32 (Z.lnot mask))) (Z.land val mask)).

(** [src/aeg_cdo.h:117-123] [cdo_reg_read32] *)
Definition cdo_reg_read32 (addr : Z) : M Z :=
  r <-- exec (Xil_In32 addr) ;; ret (u32 (out r)).

(** [src/aeg_cdo.h:133-141] [cdo_reg_write32] *)
Definition cdo_reg_write32 (cdo_reg_off val : Z) : M Z :=
  cdo_reg_write32_raw (u64 cdo_reg_off) val ;;; ret XAIE_OK.

(** [src/aeg_cdo.h:153-161] [cdo_reg_maskwrite32] *)
Definition cdo_reg_maskwrite32 (cdo_reg_off mask val : Z) : M Z :=
  cdo_reg_maskwrite32_raw (u64 cdo_reg_off) mask val ;;; ret XAIE_OK.

(** [src/aeg_cdo.h:175-185] [cdo_reg_blockwrite32]
    [src] holds at least [count] words; [i * 4U] is a [uint32_t] product. *)
Definition cdo_reg_blockwrite32 (cdo_reg_off : Z) (src : list Z) (count : nat) : M Z :=
  for_each (fun i _ =>
    cdo_reg_write32_raw (u64 (u64 cdo_reg_off + u32 (Z.of_nat i * 4))) (nth i src 0))
    (seq 0 count) tt ;;;
  ret XAIE_OK.

Abbreviation poll_count := (poll_iterations 32).

(** [src/aeg_cdo.h:199-223] [cdo_reg_maskpoll] *)
Definition cdo_reg_maskpoll (cdo_reg_off mask value timeout_us : Z) : M Z :=
  b <-- timed_poll (Z.to_nat (poll_count timeout_us)) (Xil_In32 (u64 cdo_reg_off))
          (fun r => Z.land (u32 (out r)) mask =? value) ;;
  ret (if b then XAIE_OK else XAIE_ERR).

(** ** Properties *)

(** a mask write reads the register once and writes it once, at the same
    address, changing exactly the bits of the mask: each bit of the written word is
    the bit of the value where the mask is set and the old bit elsewhere. *)
Theorem maskwrite_changes_masked_bits off mask val h :
  0 <= mask < 2 ^ 32 ->
  exists w, cdo_reg_maskwrite32 off mask val h =
      Some (XAIE_OK, after h [Xil_In32 (u64 off); Xil_Out32 (u64 off) w]) /\
    forall i, 0 <= i < 32 ->
      Z.testbit w i = if Z.testbit mask i then Z.testbit val i
                      else Z.testbit (out (drv h (Xil_In32 (u64 off)))) i.
Proof.
  intros Hm; unfold cdo_reg_maskwrite32, cdo_reg_maskwrite32_raw, cdo_reg_write32_raw; run_m.
  eexists; split; [reflexivity|]; intros i Hi.
  rewrite Z.lor_spec, !Z.land_spec; unfold wrap_u.
  rewrite !Z.mod_pow2_bits_low, Z.lnot_spec by lia.
  destruct (Z.testbit mask i), (Z.testbit val i), (Z.testbit (out _) i); done.
Qed.

(** a block write puts the words at consecutive 4-byte addresses, in order, as
    long as the block is shorter than 2^30 words. *)
Theorem blockwrite_consecutive off src count h :
  0 <= off -> off + 4 * Z.of_nat count <= 2 ^ 64 -> Z.of_nat count <= 2 ^ 30 ->
  (count <= length src)%nat ->
  cdo_reg_blockwrite32 off src count h =
    Some (XAIE_OK, after h (imap (fun i w => Xil_Out32 (off + 4 * Z.of_nat i) w)
                                 (take count src))).
Proof.
  intros H0 Hoff Hc Hlen; unfold cdo_reg_blockwrite32, cdo_reg_write32_raw.
  rewrite (bind_Some _ _ _ _ _ (for_each_exec_ _ _ _)); unfold ret; do 3 f_equal.
  apply list_eq; intros i; rewrite list_lookup_fmap, list_lookup_imap.
  destruct (decide (i < count)%nat) as [Hi|Hi].
  - rewrite lookup_seq_lt, lookup_take_lt by done; simpl.
    destruct (lookup_lt_is_Some_2 src i ltac:(lia)) as [w Hw]; rewrite Hw; simpl.
    rewrite (nth_lookup_Some src i 0 w Hw), (wrap_u_small 64 off), (wrap_u_small 32) by lia.
    rewrite wrap_u_small by lia; do 2 f_equal; lia.
  - rewrite lookup_seq_ge, lookup_take_ge by lia; done.
Qed.

Definition matches (mask value : Z) (r : resp) : bool := Z.land (u32 (out r)) mask =? value.

(** a mask poll always ends.  It returns [XAIE_OK] exactly when its last read
    matches, all earlier reads having failed; it returns the error only after
    [poll_count + 1] reads, none of which matched, and, unless the rounded-up timeout
    overflows 32 bits, only after sleeping at least the requested time and less
    than 200 us longer. *)
Theorem maskpoll_bounded off mask value timeout h :
  0 <= timeout < 2 ^ 32 ->
  let c := Xil_In32 (u64 off) in
  exists e k, let cs := misses k c ++ [c] in
    cdo_reg_maskpoll off mask value timeout h = Some (e, after h cs) /\
    (forall j, (j < k)%nat -> matches mask value (drv (after h (misses j c)) c) = false) /\
    e = (if matches mask value (drv (after h (misses k c)) c) then XAIE_OK else XAIE_ERR) /\
    slept cs <= timeout + 199 /\
    (matches mask value (drv (after h (misses k c)) c) = false ->
     Z.of_nat k = poll_count timeout /\
     (timeout <= 2 ^ 32 - 200 -> timeout <= slept cs)).
Proof.
  intros Ht c; unfold cdo_reg_maskpoll.
  destruct (timed_poll_spec (Z.to_nat (poll_count timeout)) c (matches mask value) h)
    as (b & k & Hp & Hk & Hb & Hbefore & Hend).
  pose proof (poll_iterations_bounds 32 timeout ltac:(lia) Ht) as (Hc0 & Hc1 & Hc2).
  exists (if b then XAIE_OK else XAIE_ERR), k; cbv zeta.
  rewrite (bind_Some _ _ _ _ _ Hp); rewrite <- Hb, slept_misses by done.
  split; [done|]; split; [done|]; split; [done|]; split; [lia|]; intros Hf.
  specialize (Hend Hf); subst k; rewrite Z2Nat.id by lia; split; [done|lia].
Qed.

(** A poll with such a timeout reads the register once and gives up. *)
Lemma maskpoll_overflow_single_read off mask value t h :
  2 ^ 32 - 199 <= t < 2 ^ 32 ->
  exists e, cdo_reg_maskpoll off mask value t h = Some (e, after h [Xil_In32 (u64 off)]).
Proof.
  intros Ht; unfold cdo_reg_maskpoll; rewrite poll_iterations_overflow by lia; simpl.
  unfold bind, exec; eexists; reflexivity.
Qed.
End Cdo.

(** * Programmable-logic kernels *)

(** [src/aeg_pl_kernel.cc:46-50] [kCtrlOffset] *)
Definition kCtrlOffset : Z := 0.
Definition kApStartBit : Z := 1.
Definition kApDoneBit : Z := 2.
Definition kApIdleBit : Z := 4.

(** [src/aeg_pl_kernel.cc:58-68] [kApIdleStartRetries] *)
Definition kApIdleStartRetries : nat := 64.
Definition kRegAlignMask : Z := 3.
Definition kLow32Mask : Z := 0xFFFFFFFF.
Definition kU32BitWidth : Z := 32.

(** [src/include/aeg_baremetal_api_pl.h:48-50] [kWaitTimeoutUs] *)
Definition kWaitTimeoutUs : Z := 5000000.

(** [src/aeg_pl_kernel.cc:74-76] [kPollIntervalUs] *)
Definition kPollIntervalUs : Z := 200.

(** [src/aeg_pl_kernel.cc:86-98] [copy_from_bytes]
    [size] is [sizeof(T)]; byte [i] is shifted into place. *)
Definition copy_from_bytes (size : nat) (bytes : list Z) : Z :=
  fold_left (fun result i =>
    wrap_u (8 * Z.of_nat size)
      (Z.lor result (Z.shiftl (nth i bytes 0) (Z.of_nat i * 8))))
    (seq 0 size) 0.

Section PlKernel.
Context `{rt : AieRt} (AIESIM : bool) (base_ : Z).

Definition reg (off : Z) : Z := u64 (base_ + off).

(** [src/aeg_pl_kernel.cc:108-169] [pl_kernel_impl::set_arg_raw]
    [None] is a null [data]; the simulator build checks the arguments only. *)
Definition set_arg_raw (offset : Z) (data : option (list Z)) (bytes : Z) : M aeg_err :=
  match data with
  | None => ret aeg_null_argument
  | Some d =>
      if negb (bytes =? 4) && negb (bytes =? 8) then ret aeg_invalid_length
      else if negb (Z.land offset kRegAlignMask =? 0) then ret aeg_user_error
      else if AIESIM then ret aeg_ok
      else if bytes =? 4 then
        let value := copy_from_bytes 4 d in
        exec_ (Xil_Out32 (reg offset) value) ;;;
        r <-- exec (Xil_In32 (reg offset)) ;;
        ret (if negb (u32 (out r) =? value) then aeg_postcondition_failed else aeg_ok)
      else
        let value := copy_from_bytes 8 d in
        let low := u32 (Z.land value kLow32Mask) in
        let high := u32 (Z.shiftr value kU32BitWidth) in
        exec_ (Xil_Out32 (reg offset) low) ;;;
        exec_ (Xil_Out32 (reg (offset + 4)) high) ;;;
        low_rb <-- exec (Xil_In32 (reg offset)) ;;
        high_rb <-- exec (Xil_In32 (reg (offset + 4))) ;;
        ret (if negb (u32 (out low_rb) =? low) || negb (u32 (out high_rb) =? high)
             then aeg_postcondition_failed else aeg_ok)
  end.

(** [src/include/aeg_baremetal_api_pl.h:185-193] [pl_kernel::set_arg]
    The value's object representation, little-endian. *)
Definition set_arg (offset : Z) (size : nat) (value : Z) : M aeg_err :=
  set_arg_raw offset (Some (le_bytes size value)) (Z.of_nat size).

(** [src/aeg_pl_kernel.cc:183-188] [pl_kernel_impl::start] the retry loop *)
Fixpoint wait_not_idle (retries : nat) : M bool :=
  match retries with
  | O => ret false
  | S retries =>
      r <-- exec (Xil_In32 (reg kCtrlOffset)) ;;
      if Z.land (u32 (out r)) kApIdleBit =? 0 then ret true else wait_not_idle retries
  end.

(** [src/aeg_pl_kernel.cc:171-195] [pl_kernel_impl::start] *)
Definition start : M aeg_err :=
  if AIESIM then ret aeg_ok
  else
    exec_ (Xil_Out32 (reg kCtrlOffset) 0) ;;;
    exec_ (Xil_Out32 (reg kCtrlOffset) kApStartBit) ;;;
    b <-- wait_not_idle kApIdleStartRetries ;;
    if b then ret aeg_ok
    else exec_ (Xil_In32 (reg kCtrlOffset)) ;;; ret aeg_backend_not_ready.

Definition ap_done (r : resp) : bool := negb (Z.land (u32 (out r)) kApDoneBit =? 0).
Abbreviation pl_poll_count := (poll_iterations 64).

(** [src/aeg_pl_kernel.cc:197-227] [pl_kernel_impl::wait] *)
Definition pl_wait (timeout_us : Z) : M aeg_err :=
  if AIESIM then ret aeg_ok
  else
    b <-- timed_poll (Z.to_nat (pl_poll_count timeout_us)) (Xil_In32 (reg kCtrlOffset)) ap_done ;;
    ret (if b then aeg_ok else aeg_resource_unavailable).

(** [src/aeg_pl_kernel.cc:229-235] [pl_kernel_impl::stop] *)
Definition pl_stop : M aeg_err := pl_wait kWaitTimeoutUs.

(** [src/aeg_pl_kernel.cc:237-249] [pl_kernel_impl::done] *)
Definition pl_done : M bool :=
  if AIESIM then ret true
  else r <-- exec (Xil_In32 (reg kCtrlOffset)) ;; ret (ap_done r).
End PlKernel.

(** ** Properties *)

Lemma copy_from_bytes_val size bytes :
  length bytes = size -> bytes_ok bytes -> copy_from_bytes size bytes = le_val bytes.
Proof.
  intros Hlen Hb; unfold copy_from_bytes.
  assert (H : forall i, (i <= size)%nat -> fold_left (fun result i =>
      wrap_u (8 * Z.of_nat size) (Z.lor result (Z.shiftl (nth i bytes 0) (Z.of_nat i * 8))))
      (seq 0 i) 0 = le_val (take i bytes)).
  { induction i as [|i IH]; intros Hi; [done|].
    rewrite seq_S, fold_left_app, IH by lia; simpl.
    destruct (lookup_lt_is_Some_2 bytes i ltac:(lia)) as [b Hlk].
    rewrite (take_S_r _ _ _ Hlk), le_val_app, (nth_lookup_Some _ _ _ _ Hlk).
    assert (Hr : 0 <= le_val (take i bytes) < 256 ^ Z.of_nat i).
    { pose proof (le_val_range (take i bytes) (Forall_take _ i _ Hb)) as Hr.
      rewrite length_take, Nat.min_l in Hr by lia; exact Hr. }
    assert (Hby : 0 <= b < 256) by (exact (proj1 (Forall_lookup _ _) Hb i b Hlk)).
    assert (E : 256 ^ Z.of_nat i = 2 ^ (Z.of_nat i * 8))
      by (replace 256 with (2 ^ 8) by done; rewrite <- Z.pow_mul_r by lia; f_equal; lia).
    rewrite lor_shiftl_add by (rewrite <- ?E; lia); rewrite <- E.
    rewrite length_take, Nat.min_l by lia; simpl le_val.
    rewrite wrap_u_small; [ring|].
    assert (Hs : 256 ^ Z.of_nat (S i) <= 2 ^ (8 * Z.of_nat size)).
    { replace (2 ^ (8 * Z.of_nat size)) with (256 ^ Z.of_nat size)
        by (rewrite Z.pow_mul_r by lia; done).
      apply Z.pow_le_mono_r; lia. }
    rewrite Nat2Z.inj_succ, Z.pow_succ_r in Hs by lia; nia. }
  rewrite H, take_ge by lia; done.
Qed.

Lemma copy_from_le_bytes size v :
  0 <= v < 256 ^ Z.of_nat size -> copy_from_bytes size (le_bytes size v) = v.
Proof.
  intros Hv; rewrite copy_from_bytes_val, le_val_bytes by auto with aeg.
  apply Z.mod_small; exact Hv.
Qed.

Lemma verify_ok x y a b :
  (if negb (x =? a) || negb (y =? b) then aeg_postcondition_failed else aeg_ok) = aeg_ok <->
  x = a /\ y = b.
Proof. destruct (Z.eqb_spec x a), (Z.eqb_spec y b); simpl; intuition discriminate. Qed.

Section PlFacts.
Context `{rt : AieRt} (base_ : Z).

(** setting a 64-bit argument at an aligned offset writes its low word there and
    its high word in the next register, whose combination is the value, then reads
    both back; it succeeds exactly when both registers hold what was written. *)
Theorem set_arg64_splits_and_verifies offset v h :
  Z.land offset kRegAlignMask = 0 -> 0 <= v < 2 ^ 64 ->
  exists low high e,
    let a := reg base_ offset in let a' := reg base_ (offset + 4) in
    let h2 := after h [Xil_Out32 a low; Xil_Out32 a' high] in
    set_arg false base_ offset 8 v h =
      Some (e, after h [Xil_Out32 a low; Xil_Out32 a' high; Xil_In32 a; Xil_In32 a']) /\
    low + 2 ^ 32 * high = v /\ 0 <= low < 2 ^ 32 /\ 0 <= high < 2 ^ 32 /\
    (e = aeg_ok <-> u32 (out (drv h2 (Xil_In32 a))) = low /\
                    u32 (out (drv (after h2 [Xil_In32 a]) (Xil_In32 a'))) = high) /\
    (e = aeg_ok \/ e = aeg_postcondition_failed).
Proof.
  intros Hal Hv; unfold set_arg, set_arg_raw; rewrite Hal; change (Z.of_nat 8) with 8.
  cbn [Z.eqb Pos.eqb negb andb]; cbv iota.
  rewrite copy_from_le_bytes by (simpl; lia); cbv zeta.
  assert (Hlow : Z.land v kLow32Mask = v mod 2 ^ 32)
    by (change kLow32Mask with (Z.ones 32); apply Z.land_ones; lia).
  assert (Hhigh : Z.shiftr v kU32BitWidth = v / 2 ^ 32) by (apply Z.shiftr_div_pow2; done).
  pose proof (Z.mod_pos_bound v (2 ^ 32) ltac:(lia)) as Hm.
  pose proof (Z.div_mod v (2 ^ 32) ltac:(lia)) as Hd.
  assert (Hq : 0 <= v / 2 ^ 32 < 2 ^ 32)
    by (split; [apply Z.div_pos; lia|apply Z.div_lt_upper_bound; lia]).
  rewrite Hlow, Hhigh, !wrap_u_small by lia.
  exists (v mod 2 ^ 32), (v / 2 ^ 32); run_m.
  eexists; split; [reflexivity|]; split; [lia|]; split; [lia|]; split; [lia|].
  rewrite after_app; split; [apply verify_ok|by case_match; auto].
Qed.

Lemma wait_not_idle_spec n h :
  let c := Xil_In32 (reg base_ kCtrlOffset) in
  let idle r := negb (Z.land (u32 (out r)) kApIdleBit =? 0) in
  exists b k, wait_not_idle base_ n h = Some (b, after h (replicate k c)) /\ (k <= n)%nat /\
    (b = true -> exists k', k = S k' /\ idle (drv (after h (replicate k' c)) c) = false) /\
    (b = false -> k = n /\
       forall j, (j < n)%nat -> idle (drv (after h (replicate j c)) c) = true).
Proof.
  intros c idle; revert h; induction n as [|n IH]; intros h; cbn [wait_not_idle].
  - exists false, O; simpl; rewrite after_nil; repeat split; auto; intros; lia || discriminate.
  - rewrite (bind_Some _ _ _ _ _ (exec_eq _ _)); fold c; cbv beta.
    destruct (Z.land (u32 (out (drv h c))) kApIdleBit =? 0) eqn:E.
    + exists true, 1%nat; split; [done|]; split; [lia|]; split; [|discriminate]; intros _.
      exists O; simpl; rewrite after_nil; unfold idle; rewrite E; done.
    + destruct (IH (after h [c])) as (b & k & H & Hk & Ht & Hf).
      exists b, (S k); rewrite H, after_app; split; [done|]; split; [lia|]; split.
      * intros Hb; destruct (Ht Hb) as (k' & -> & Hi); exists (S k'); split; [done|].
        rewrite after_app in Hi; exact Hi.
      * intros Hb; destruct (Hf Hb) as [-> Hall]; split; [done|].
        intros [|j] Hj; [simpl; rewrite after_nil; unfold idle; rewrite E; done|].
        specialize (Hall j ltac:(lia)); rewrite after_app in Hall; exact Hall.
Qed.

(** starting a kernel clears the control register and then sets the start bit,
    so the kernel sees a rising edge, and polls the register at most 64 times;
    it reports [ok] exactly when one of these reads shows the kernel no longer idle,
    and otherwise [backend_not_ready] after one more read. *)
Theorem start_edge_then_bounded_poll h :
  let a := reg base_ kCtrlOffset in
  let c := Xil_In32 a in
  let h2 := after h [Xil_Out32 a 0; Xil_Out32 a kApStartBit] in
  let left_idle j := Z.land (u32 (out (drv (after h2 (replicate j c)) c))) kApIdleBit = 0 in
  exists e k, start false base_ h =
      Some (e, after h ([Xil_Out32 a 0; Xil_Out32 a kApStartBit] ++ replicate k c)) /\
    ((e = aeg_ok /\ (1 <= k <= 64)%nat /\ left_idle (pred k)) \/
     (e = aeg_backend_not_ready /\ k = 65%nat /\ forall j, (j < 64)%nat -> ~ left_idle j)).
Proof.
  intros a c h2 left_idle; unfold start; fold a; fold c; run_m.
  change (after h ([Xil_Out32 a 0] ++ [Xil_Out32 a kApStartBit])) with h2.
  destruct (wait_not_idle_spec kApIdleStartRetries h2) as (b & k & H & Hk & Ht & Hf).
  fold a in H, Ht, Hf; fold c in H, Ht, Hf; rewrite (bind_Some _ _ _ _ _ H).
  unfold h2 in *; destruct b.
  - exists aeg_ok, k; rewrite after_app; split; [done|]; left.
    destruct (Ht eq_refl) as (k' & -> & Hi); unfold kApIdleStartRetries in Hk.
    split; [done|]; split; [lia|]; apply negb_false_iff, Z.eqb_eq in Hi; exact Hi.
  - destruct (Hf eq_refl) as [-> Hall]; rewrite (bind_Some _ _ _ _ _ (exec__eq _ _)), !after_app.
    exists aeg_backend_not_ready, 65%nat; split; [|right; split; [done|split; [done|]]].
    + unfold ret; do 2 f_equal; rewrite <- app_assoc; done.
    + intros j Hj Hl; specialize (Hall j Hj); apply negb_true_iff, Z.eqb_neq in Hall; done.
Qed.

(** waiting for a kernel always ends: with [ok] when a read shows it done, and
    otherwise with [resource_unavailable], after every read of the poll failed and
    after sleeping at least the timeout, which holds for every timeout below
    2^64 - 199 us. *)
Theorem pl_wait_bounded timeout h :
  0 <= timeout <= 2 ^ 64 - 200 ->
  let c := Xil_In32 (reg base_ kCtrlOffset) in
  exists e k, let cs := misses k c ++ [c] in
    pl_wait false base_ timeout h = Some (e, after h cs) /\
    slept cs <= timeout + 199 /\
    ((e = aeg_ok /\ ap_done (drv (after h (misses k c)) c) = true) \/
     (e = aeg_resource_unavailable /\ timeout <= slept cs /\
      forall j, (j <= k)%nat -> ap_done (drv (after h (misses j c)) c) = false)).
Proof.
  intros Ht c; unfold pl_wait; fold c.
  destruct (timed_poll_spec (Z.to_nat (poll_iterations 64 timeout)) c ap_done h)
    as (b & k & Hp & Hk & Hb & Hbefore & Hend).
  destruct (poll_iterations_bounds 64 timeout ltac:(lia) ltac:(lia)) as (Hc0 & Hc1 & Hc2).
  rewrite (bind_Some _ _ _ _ _ Hp); eexists _, k; cbv zeta; rewrite slept_misses by done.
  split; [reflexivity|]; split; [lia|]; destruct b; [left; done|right].
  specialize (Hend eq_refl); split; [done|]; split; [lia|]; intros j Hj.
  destruct (decide (j = k)) as [->|]; [done|apply Hbefore; lia].
Qed.

(** The largest timeouts overflow and give up after a single read. *)
Lemma pl_wait_overflow_single_read t h :
  2 ^ 64 - 199 <= t < 2 ^ 64 ->
  exists e, pl_wait false base_ t h = Some (e, after h [Xil_In32 (reg base_ kCtrlOffset)]).
Proof.
  intros Ht; unfold pl_wait; rewrite poll_iterations_overflow by lia; simpl.
  unfold bind, exec; eexists; reflexivity.
Qed.
End PlFacts.

(** ** Witnesses *)

Lemma maskwrite_changes_masked_bits_witness :
  exists w, @cdo_reg_maskwrite32 ok_rt 0x1000 0xF0 0xA5 [] =
    Some (XAIE_OK, @after ok_rt [] [Xil_In32 0x1000; Xil_Out32 0x1000 w]) /\
    Z.testbit w 5 = true.
Proof.
  destruct (@maskwrite_changes_masked_bits ok_rt 0x1000 0xF0 0xA5 [] ltac:(lia)) as (w & H & Hw).
  exists w; split; [exact H|]; rewrite (Hw 5 ltac:(lia)); reflexivity.
Defined.

Lemma blockwrite_consecutive_witness :
  @cdo_reg_blockwrite32 ok_rt 0x1000 [1; 2; 3] 2 [] =
    Some (XAIE_OK, @after ok_rt [] [Xil_Out32 0x1000 1; Xil_Out32 0x1004 2]).
Proof.
  exact (@blockwrite_consecutive ok_rt 0x1000 [1; 2; 3] 2 [] ltac:(lia) ltac:(simpl; lia)
    ltac:(simpl; lia) ltac:(simpl; lia)).
Defined.

Lemma maskpoll_bounded_witness :
  exists e k, @cdo_reg_maskpoll ok_rt 0x1000 1 1 400 [] =
    Some (e, @after ok_rt [] (misses k (Xil_In32 0x1000) ++ [Xil_In32 0x1000])).
Proof.
  destruct (@maskpoll_bounded ok_rt 0x1000 1 1 400 [] ltac:(lia)) as (e & k & H & _).
  exists e, k; exact H.
Defined.

Lemma set_arg64_splits_and_verifies_witness :
  exists low high e, @set_arg ok_rt false 0x4000 0x10 8 0x123456789 [] =
    Some (e, @after ok_rt [] [Xil_Out32 0x4010 low; Xil_Out32 0x4014 high;
                              Xil_In32 0x4010; Xil_In32 0x4014]) /\
    low + 2 ^ 32 * high = 0x123456789.
Proof.
  destruct (@set_arg64_splits_and_verifies ok_rt 0x4000 0x10 0x123456789 [] eq_refl ltac:(lia))
    as (low & high & e & H & Hv & _).
  exists low, high, e; split; [exact H|exact Hv].
Defined.

Lemma pl_wait_bounded_witness :
  exists e k, @pl_wait ok_rt false 0x4000 1000 [] =
    Some (e, @after ok_rt [] (misses k (Xil_In32 0x4000) ++ [Xil_In32 0x4000])).
Proof.
  destruct (@pl_wait_bounded ok_rt 0x4000 1000 [] ltac:(lia)) as (e & k & H & _).
  exists e, k; exact H.
Defined.
