(* ===== verification/ConfigBin.v ===== *)
(** The binary tables of the graph compiler's metadata and their readers: [UnpackUtils] and
    the static parsers of [src/aeg_configure.cc].

    A table is the array of bytes linked into the program, of the size its size variable
    says.  A reader consumes a prefix of the bytes that are left; [None] is a read outside
    the array, which is undefined in C++, or a length that makes a container throw.  The
    width of [size_t], in bytes, is a parameter: the runtime is built for 64-bit and for
    32-bit processors. *)
From stdpp Require Import base list gmap strings.
From Stdlib Require Import ZArith Lia Ascii String.
From S2P Require Import Prelude ApiTypes.
Local Open Scope Z_scope.

(** * Readers *)

Definition R (A : Type) : Type := list Z -> option (A * list Z).

Definition rret {A} (a : A) : R A := fun bs => Some (a, bs).
Definition rfail {A} : R A := fun _ => None.
Definition rbind {A B} (m : R A) (k : A -> R B) : R B := fun bs =>
  match m bs with
  | Some (a, bs') => k a bs'
  | None => None
  end.

Notation "x <~ m ;; k" := (rbind m (fun x => k))
  (at level 100, m at next level, right associativity) : aeg_scope.
Local Open Scope aeg_scope.

Fixpoint read_n {A} (n : nat) (m : R A) : R (list A) :=
  match n with
  | O => rret []
  | S n => a <~ m ;; l <~ read_n n m ;; rret (a :: l)
  end.

(** A character is a byte; a [string_view] into the table is the string of its bytes. *)
Fixpoint string_of_bytes (bs : list Z) : string :=
  match bs with
  | [] => EmptyString
  | b :: bs => String (ascii_of_N (Z.to_N b)) (string_of_bytes bs)
  end.

Fixpoint bytes_of_string (s : string) : list Z :=
  match s with
  | EmptyString => []
  | String a s => Z.of_N (N_of_ascii a) :: bytes_of_string s
  end.

(** ** [UnpackUtils] *)

(** [src/aeg_configure.cc:28-34] [UnpackUtils::copy_bytes] *)
Definition copy_bytes (n : nat) : R (list Z) := fun bs =>
  if (n <=? List.length bs)%nat then Some (take n bs, drop n bs) else None.

(** [src/aeg_configure.cc:36-41] [UnpackUtils::unpackUInt8] *)
Definition unpackUInt8 : R Z := bs <~ copy_bytes 1 ;; rret (le_val bs).

(** [src/aeg_configure.cc:43-50] [UnpackUtils::unpackString]
    A negative length becomes a [size_t] beyond the array. *)
Definition unpackString : R string :=
  bs <~ copy_bytes 4 ;;
  let str_length := s32 (le_val bs) in
  if str_length <? 0 then rfail
  else s <~ copy_bytes (Z.to_nat str_length) ;; rret (string_of_bytes s).

(** [src/aeg_configure.cc:52-57] [UnpackUtils::unpackUInt64] *)
Definition unpackUInt64 : R Z := bs <~ copy_bytes 8 ;; rret (le_val bs).

(** [src/aeg_configure.cc:59-64] [UnpackUtils::unpackUInt32]
    The name notwithstanding, the value is returned as [int32_t]. *)
Definition unpackUInt32 : R Z := bs <~ copy_bytes 4 ;; rret (s32 (le_val bs)).

(** [src/aeg_configure.cc:66-72] [UnpackUtils::unpackShort] *)
Definition unpackShort : R Z := bs <~ copy_bytes 2 ;; rret (s16 (le_val bs)).

(** [src/aeg_configure.cc:74-80] [UnpackUtils::unpackBool] *)
Definition unpackBool : R bool := bs <~ copy_bytes 1 ;; rret (negb (s8 (le_val bs) =? 0)).

(** [src/aeg_configure.cc:92-97] [UnpackUtils::unpackValue]
    [size] is [sizeof(T)] and [sgn] whether [T] is signed. *)
Definition unpackValue (size : nat) (sgn : bool) : R Z :=
  bs <~ copy_bytes size ;;
  rret (if sgn then wrap_s (8 * Z.of_nat size) (le_val bs) else le_val bs).

(** [src/aeg_configure.cc:83-89] [UnpackUtils::unpackVector]
    A negative length becomes a [size_t] no vector can have. *)
Definition unpackVector (size : nat) (sgn : bool) (length : Z) : R (list Z) :=
  if length <? 0 then rfail else read_n (Z.to_nat length) (unpackValue size sgn).

(** A vector preceded by its length. *)
Definition counted_vector (size : nat) (sgn : bool) : R (list Z) :=
  n <~ unpackUInt32 ;; unpackVector size sgn n.

(** * The parsers *)

(** [src/aeg_configure.cc:131-138] [DriverConfigStaticParser::load], a partition *)
Definition load_partition : R partition_config :=
  start <~ unpackUInt32 ;; num <~ unpackUInt32 ;; id <~ unpackString ;;
  intf <~ unpackUInt32 ;; ns <~ unpackString ;;
  rret {| startColumn := u32 start; numColumns := u32 num; uuid := id;
          aie_pl_intf_id := u32 intf; name_space := ns |}.

(** [src/aeg_configure.cc:102-142] [DriverConfigStaticParser::load]
    The partitions are appended to [partitions]; they are read when the table has bytes
    left. *)
Definition load_driver_config (partitions : list partition_config)
  : R (driver_config * list partition_config) :=
  gen <~ unpackUInt8 ;; base <~ unpackUInt64 ;; cs <~ unpackUInt8 ;; rs <~ unpackUInt8 ;;
  nc <~ unpackUInt8 ;; nr <~ unpackUInt8 ;; sr <~ unpackUInt8 ;; ms <~ unpackUInt8 ;;
  mn <~ unpackUInt8 ;; ats <~ unpackUInt8 ;; atn <~ unpackUInt8 ;; pn <~ unpackUInt8 ;;
  cols <~ counted_vector 2 true ;;
  let dconfig :=
    {| hw_gen := gen; base_address := base; column_shift := cs; row_shift := rs;
       num_columns := nc; num_rows := nr; shim_row := sr; mem_row_start := ms;
       mem_num_rows := mn; aie_tile_row_start := ats; aie_tile_num_rows := atn;
       partition_num_cols := pn; partition_overlay_start_cols := cols |} in
  fun bs =>
    match bs with
    | [] => Some ((dconfig, partitions), [])
    | _ :: _ =>
        (_ <~ unpackUInt32 ;; _ <~ unpackUInt32 ;; partition_len <~ unpackUInt32 ;;
         ps <~ read_n (Z.to_nat partition_len) load_partition ;;
         rret (dconfig, partitions ++ ps)) bs
    end.

(** [src/include/aeg_configure.h:61-61] [default_start_column] *)
Definition default_start_column : Z := 0.

(** [src/aeg_configure.cc:149-164] [abr::get_partition_start_column] *)
Definition get_partition_start_column (partitions : list partition_config) (column : Z) : Z :=
  match partitions with
  | [] => default_start_column
  | _ =>
      match List.find (fun part => (startColumn part <=? u32 column) &&
                                   (u32 column <? u32 (startColumn part + numColumns part)))
              partitions with
      | Some part => startColumn part
      | None => default_start_column
      end
  end.

(** [src/aeg_configure.cc:171-180] [AiecompilerConfigStaticParser::load] *)
Definition load_aiecompiler_config : R aiecompiler_config :=
  b <~ unpackBool ;; g <~ unpackBool ;; m <~ unpackBool ;;
  rret {| cfg_broadcast_enable_core := b; graph_iterator_event := g; enable_multi_layer := m |}.

Section Parsers.
Context (size_t : nat).
Abbreviation to_size_t := (wrap_u (8 * Z.of_nat size_t)).

(** [src/aeg_configure.cc:236-241] [GraphConfigStaticParser::load], the broadcast column
    [coreColumns[0]] of a graph without cores is undefined. *)
Definition broadcast_column_of (partitions : list partition_config) (psc : Z) (cols : list Z)
  : R Z :=
  match partitions, cols with
  | [], _ => rret 0
  | _, [] => rfail
  | _, c :: _ => rret (u32 (get_partition_start_column partitions (s32 (c + psc)) - u32 psc))
  end.

(** [src/aeg_configure.cc:199-244] [GraphConfigStaticParser::load]
    The iteration memory addresses are read unsigned and stored through [int32_t]. *)
Definition load_graph_config (partitions : list partition_config) (psc : Z) : R graph_config :=
  id <~ unpackUInt32 ;; name <~ unpackString ;;
  cc <~ counted_vector 2 true ;; cr <~ counted_vector 2 true ;;
  ic <~ counted_vector 2 true ;; ir <~ counted_vector 2 true ;;
  ia <~ counted_vector 4 false ;; tr <~ counted_vector 1 false ;;
  bc <~ broadcast_column_of partitions psc cc ;;
  rret {| gc_id := id; gc_name := name; coreColumns := cc; coreRows := cr;
          iterMemColumns := ic; iterMemRows := ir;
          iterMemAddrs := map (fun v => to_size_t (s32 v)) ia; triggered := tr;
          broadcast_column := bc |}.

(** The value of the enumeration; other values of its underlying type are left out. *)
Definition gmio_type_of (z : Z) : option gmio_type :=
  if z =? 0 then Some gm2aie else if z =? 1 then Some aie2gm
  else if z =? 2 then Some gm2pl else if z =? 3 then Some pl2gm else None.

(** [src/aeg_configure.cc:263-279] [GMIOsConfigStaticParser::load] *)
Definition load_gmio_config : R gmio_config :=
  id <~ unpackUInt32 ;; name <~ unpackString ;; lname <~ unpackString ;;
  t <~ unpackShort ;; col <~ unpackShort ;; ch <~ unpackShort ;; st <~ unpackShort ;;
  bl <~ unpackShort ;;
  match gmio_type_of (u8 t) with
  | Some ty =>
      rret {| gmio_id := id; gmio_name := name; gmio_logicalName := lname; type := ty;
              shimColumn := col; channelNum := ch; streamId := st; burstLength := bl |}
  | None => rfail
  end.

(** [src/aeg_configure.cc:298-310] [PLIOsConfigStaticParser::load] *)
Definition load_plio_config : R plio_config :=
  id <~ unpackUInt32 ;; name <~ unpackString ;; lname <~ unpackString ;;
  col <~ unpackShort ;; sm <~ unpackShort ;; st <~ unpackShort ;;
  rret {| plio_id := id; plio_name := name; plio_logicalName := lname;
          plio_shimColumn := col; slaveOrMaster := sm; plio_streamId := st |}.

(** [src/aeg_configure.cc:360-366] [ExternalbuffersConfigStaticParser::load], a descriptor *)
Definition load_shim_bd_info : R shimBDInfo :=
  bd <~ unpackUInt32 ;; bi <~ unpackUInt32 ;; off <~ unpackUInt32 ;; ts <~ unpackUInt64 ;;
  rret {| bd_id := u32 bd; buf_idx := u32 bi; offset := u32 off; transaction_size := ts |}.

(** [src/aeg_configure.cc:348-369] [ExternalbuffersConfigStaticParser::load], a port *)
Definition load_shim_port_config : R shim_port_config :=
  id <~ unpackUInt32 ;; name <~ unpackString ;; dir <~ unpackUInt32 ;; col <~ unpackShort ;;
  ch <~ unpackShort ;; rep <~ unpackUInt32 ;; tok <~ unpackBool ;; n <~ unpackUInt32 ;;
  bds <~ read_n (Z.to_nat n) load_shim_bd_info ;;
  rret {| sp_portId := id; sp_portName := name; sp_column := col; S2MMOrMM2S := dir;
          sp_channel := ch; taskRepetition := rep; enable_task_complete_token := tok;
          shimBDInfos := bds |}.

(** [src/aeg_configure.cc:335-373] [ExternalbuffersConfigStaticParser::load] *)
Definition load_external_buffer_config : R external_buffer_config :=
  id <~ unpackShort ;; name <~ unpackString ;; n <~ unpackUInt32 ;;
  ports <~ read_n (Z.to_nat n) load_shim_port_config ;;
  rret {| eb_id := id; eb_name := name; shimPortConfigs := ports |}.

(** [src/aeg_configure.cc:398-484] [SharedBuffersConfigStaticParser::load]
    The element type keeps the value of its initialisation. *)
Definition load_shared_buffer_config : R shared_buffer_config :=
  id <~ unpackShort ;; name <~ unpackString ;; gid <~ unpackUInt32 ;; nb <~ unpackUInt64 ;;
  col <~ unpackShort ;; row <~ unpackShort ;; ni <~ unpackShort ;; no <~ unpackShort ;;
  ini <~ unpackBool ;; addr <~ counted_vector size_t false ;;
  pl <~ counted_vector 4 true ;; cl <~ counted_vector 4 true ;;
  rret {| sb_id := id; sb_name := name; sb_graphId := gid; sb_numBytes := to_size_t nb;
          sb_column := col; sb_row := row; numInputs := ni; numOutputs := no;
          elemType := et_voidty; initialized := ini; sb_addr := addr;
          producerLocks := pl; consumerLocks := cl |}.

(** [src/aeg_configure.cc:506-538] [RTPsConfigStaticParser::load] *)
Definition load_rtp_config : R rtp_config :=
  pid <~ unpackUInt32 ;; aid <~ unpackUInt32 ;; pname <~ unpackString ;; aname <~ unpackString ;;
  gid <~ unpackUInt32 ;; inp <~ unpackBool ;; asy <~ unpackBool ;; con <~ unpackBool ;;
  nb <~ unpackUInt32 ;; pl <~ unpackBool ;; lk <~ unpackBool ;;
  sc <~ unpackShort ;; sr <~ unpackShort ;; sa <~ unpackUInt32 ;; sl <~ unpackShort ;;
  pic <~ unpackShort ;; pir <~ unpackShort ;; pia <~ unpackUInt32 ;; pil <~ unpackShort ;;
  poc <~ unpackShort ;; por <~ unpackShort ;; poa <~ unpackUInt32 ;; pol <~ unpackShort ;;
  rret {| portId := pid; aliasId := aid; portName := pname; aliasName := aname;
          rtp_graphId := gid; isInput := inp; isAsync := asy; isConnect := con;
          rtp_numBytes := u32 nb; isPL := pl; hasLock := lk;
          selectorColumn := sc; selectorRow := sr; selectorAddr := u32 sa;
          selectorLockId := u16 sl; pingColumn := pic; pingRow := pir; pingAddr := u32 pia;
          pingLockId := u16 pil; pongColumn := poc; pongRow := por; pongAddr := u32 poa;
          pongLockId := u16 pol |}.

(** ** Whole tables

    Every [loadAll] reads configurations until the table is used up and stores each in an
    [unordered_map]; a configuration takes at least one byte, so the length of the table
    is enough fuel. *)
Fixpoint load_all {A} (fuel : nat) (load : R A) (put : A -> gmap string A -> gmap string A)
    (m : gmap string A) (bs : list Z) : option (gmap string A) :=
  match bs with
  | [] => Some m
  | _ :: _ =>
      match fuel with
      | O => None
      | S fuel =>
          match load bs with
          | Some (a, bs) => load_all fuel load put (put a m) bs
          | None => None
          end
      end
  end.

Definition by_name {A} (name : A -> string) (a : A) (m : gmap string A) : gmap string A :=
  <[name a := a]> m.

Definition table {A} (load : R A) (put : A -> gmap string A -> gmap string A) (bs : list Z)
  : option (gmap string A) := load_all (List.length bs) load put ∅ bs.

(** [src/aeg_configure.cc:185-196] [GraphConfigStaticParser::loadAll] *)
Definition load_graphs (partitions : list partition_config) (psc : Z) (bs : list Z) :=
  table (load_graph_config partitions psc) (by_name gc_name) bs.

(** [src/aeg_configure.cc:249-260] [GMIOsConfigStaticParser::loadAll] *)
Definition load_gmios (bs : list Z) := table load_gmio_config (by_name gmio_name) bs.

(** [src/aeg_configure.cc:284-295] [PLIOsConfigStaticParser::loadAll] *)
Definition load_plios (bs : list Z) := table load_plio_config (by_name plio_name) bs.

(** [src/aeg_configure.cc:315-332] [ExternalbuffersConfigStaticParser::loadAll] *)
Definition load_external_buffers (bs : list Z) :=
  table load_external_buffer_config (by_name eb_name) bs.

(** [src/aeg_configure.cc:378-395] [SharedBuffersConfigStaticParser::loadAll] *)
Definition load_shared_buffers (bs : list Z) :=
  table load_shared_buffer_config (by_name sb_name) bs.

(** [src/aeg_configure.cc:497-500] [RTPsConfigStaticParser::loadAll], the entries of a port *)
Definition put_rtp (c : rtp_config) (m : gmap string rtp_config) : gmap string rtp_config :=
  let m := <[portName c := c]> m in
  if decide (aliasName c = EmptyString) then m else <[aliasName c := c]> m.

(** [src/aeg_configure.cc:489-503] [RTPsConfigStaticParser::loadAll] *)
Definition load_rtps (bs : list Z) := table load_rtp_config put_rtp bs.
End Parsers.
