(* ===== verification/MetaPack.v ===== *)
(** The writer of the configuration tables, [script/aiemetacpp.py], against their readers.

    The script turns the metadata of the graph compiler into the bytes ConfigBin.v reads,
    with Python's [struct.pack] in little-endian order; [None] is the exception it raises
    for a value outside the range of its format, or a name that is too long.  The metadata
    of a table are the configurations themselves, with the keys of an object in the order
    of the script's lists; names are ASCII, so that characters and bytes agree. *)
From stdpp Require Import base list gmap strings.
From Stdlib Require Import ZArith Lia Ascii String.
From S2P Require Import Prelude ApiTypes ConfigBin.
Local Open Scope Z_scope.
Local Open Scope aeg_scope.

(** * [struct.pack] *)

Definition pack_int (lo hi : Z) (n : nat) (v : Z) : option (list Z) :=
  if (lo <=? v) && (v <? hi) then Some (le_bytes n v) else None.

Abbreviation pack_B := (pack_int 0 (2 ^ 8) 1).
Abbreviation pack_h := (pack_int (- 2 ^ 15) (2 ^ 15) 2).
Abbreviation pack_i := (pack_int (- 2 ^ 31) (2 ^ 31) 4).
Abbreviation pack_I := (pack_int 0 (2 ^ 32) 4).
Abbreviation pack_Q := (pack_int 0 (2 ^ 64) 8).

(** The values of one call, one after the other. *)
Fixpoint pack (vs : list (option (list Z))) : option (list Z) :=
  match vs with
  | [] => Some []
  | v :: vs =>
      match v, pack vs with
      | Some b, Some bs => Some (b ++ bs)
      | _, _ => None
      end
  end.

(** [script/aiemetacpp.py:93-97] [get_name_len] *)
Definition NAME_MAX_LEN : nat := 1024.

Definition is_ascii (s : string) : bool := forallb (fun b => b <? 128) (bytes_of_string s).

(** [script/aiemetacpp.py:384-391] [pack_shim_port_config], a name with its length *)
Definition pack_name (s : string) : option (list Z) :=
  if is_ascii s && (List.length (bytes_of_string s) <=? NAME_MAX_LEN)%nat then
    pack [pack_i (Z.of_nat (List.length (bytes_of_string s))); Some (bytes_of_string s)]
  else None.

(** A list with its length, each element in the same format. *)
Definition pack_list {A} (f : A -> option (list Z)) (l : list A) : option (list Z) :=
  pack (pack_i (Z.of_nat (List.length l)) :: map f l).

Definition pack_bool (b : bool) : option (list Z) := pack_B (Z.b2z b).

(** * The tables *)

Definition gmio_type_code (t : gmio_type) : Z :=
  match t with gm2aie => 0 | aie2gm => 1 | gm2pl => 2 | pl2gm => 3 end.

(** [script/aiemetacpp.py:275-307] [ParseGmiosConfig], one entry *)
Definition pack_gmio (c : gmio_config) : option (list Z) :=
  pack [pack_i (gmio_id c); pack_name (gmio_name c); pack_name (gmio_logicalName c);
        pack_h (gmio_type_code (type c)); pack_h (shimColumn c); pack_h (channelNum c);
        pack_h (streamId c); pack_h (burstLength c)].

(** [script/aiemetacpp.py:327-359] [ParsePliosConfig], one entry *)
Definition pack_plio (c : plio_config) : option (list Z) :=
  pack [pack_i (plio_id c); pack_name (plio_name c); pack_name (plio_logicalName c);
        pack_h (plio_shimColumn c); pack_h (slaveOrMaster c); pack_h (plio_streamId c)].

(** [script/aiemetacpp.py:373-374] [pack_shim_bd_info] *)
Definition pack_shim_bd_info (b : shimBDInfo) : option (list Z) :=
  pack [pack_I (bd_id b); pack_I (buf_idx b); pack_I (offset b); pack_Q (transaction_size b)].

(** [script/aiemetacpp.py:376-406] [pack_shim_port_config] *)
Definition pack_shim_port_config (p : shim_port_config) : option (list Z) :=
  pack [pack_i (sp_portId p); pack_name (sp_portName p); pack_i (S2MMOrMM2S p);
        pack_h (sp_column p); pack_h (sp_channel p); pack_i (taskRepetition p);
        pack_bool (enable_task_complete_token p);
        pack_list pack_shim_bd_info (shimBDInfos p)].

(** [script/aiemetacpp.py:408-436] [pack_external_buffer_config] *)
Definition pack_external_buffer (c : external_buffer_config) : option (list Z) :=
  pack [pack_h (eb_id c); pack_name (eb_name c);
        pack_list pack_shim_port_config (shimPortConfigs c)].

(** [script/aiemetacpp.py:451-490] [pack_shared_buffer_config] *)
Definition pack_shared_buffer (c : shared_buffer_config) : option (list Z) :=
  pack [pack_h (sb_id c); pack_name (sb_name c); pack_i (sb_graphId c); pack_Q (sb_numBytes c);
        pack_h (sb_column c); pack_h (sb_row c); pack_h (numInputs c); pack_h (numOutputs c);
        pack_bool (initialized c); pack_list pack_Q (sb_addr c);
        pack_list pack_i (producerLocks c); pack_list pack_i (consumerLocks c)].

(** [script/aiemetacpp.py:592-622] [ParseRtpsConfig], one entry *)
Definition pack_rtp (c : rtp_config) : option (list Z) :=
  pack [pack_i (portId c); pack_i (aliasId c); pack_name (portName c); pack_name (aliasName c);
        pack_i (rtp_graphId c); pack_bool (isInput c); pack_bool (isAsync c);
        pack_bool (isConnect c); pack_i (rtp_numBytes c); pack_bool (isPL c);
        pack_bool (hasLock c); pack_h (selectorColumn c); pack_h (selectorRow c);
        pack_i (selectorAddr c); pack_h (selectorLockId c); pack_h (pingColumn c);
        pack_h (pingRow c); pack_i (pingAddr c); pack_h (pingLockId c); pack_h (pongColumn c);
        pack_h (pongRow c); pack_i (pongAddr c); pack_h (pongLockId c)].

(** A value of the metadata where the script packs a truth value. *)
Inductive json := JBool (b : bool) | JInt (z : Z) | JStr (s : string).

(** [script/aiemetacpp.py:99-105] [convert_if_bool] *)
Definition convert_if_bool (v : json) : json :=
  match v with
  | JBool b => JStr (if b then "true" else "false")
  | v => v
  end.

(** The format [?] packs the truth value of its argument; a string is true unless empty. *)
Definition truth (v : json) : bool :=
  match v with
  | JBool b => b
  | JInt z => negb (z =? 0)
  | JStr s => negb (String.eqb s "")
  end.

(** The metadata of a graph. *)
Record json_graph := {
  jg_id : Z; jg_name : string;
  core_columns : list Z; core_rows : list Z;
  iteration_memory_columns : list Z; iteration_memory_rows : list Z;
  iteration_memory_addresses : list Z;
  multirate_triggers : list json
}.

(** [script/aiemetacpp.py:223-256] [ParseGraphConfig], one graph *)
Definition pack_graph (g : json_graph) : option (list Z) :=
  pack [pack_i (jg_id g); pack_name (jg_name g); pack_list pack_h (core_columns g);
        pack_list pack_h (core_rows g); pack_list pack_h (iteration_memory_columns g);
        pack_list pack_h (iteration_memory_rows g);
        pack_list pack_I (iteration_memory_addresses g);
        pack_list (fun v => pack_bool (truth v)) (map convert_if_bool (multirate_triggers g))].

(** [script/aiemetacpp.py:183-208] [ParseAiecompilerOptions] *)
Definition pack_aiecompiler (c : aiecompiler_config) : option (list Z) :=
  pack [pack_bool (cfg_broadcast_enable_core c); pack_bool (graph_iterator_event c);
        pack_bool (enable_multi_layer c)].

(** [script/aiemetacpp.py:509-550] [ParsePartition] *)
Definition pack_partition (p : partition_config) : option (list Z) :=
  pack [pack_I (startColumn p); pack_I (numColumns p); pack_name (uuid p);
        pack_I (aie_pl_intf_id p); pack_name (name_space p)].

(** [script/aiemetacpp.py:123-176] [ParseDriverConfig]
    [parts] is [None] when the metadata has no partitions; with them come the columns of
    the whole array. *)
Definition pack_driver (c : driver_config) (parts : option (Z * Z * list partition_config))
  : option (list Z) :=
  pack [pack_B (hw_gen c); pack_Q (base_address c); pack_B (column_shift c);
        pack_B (row_shift c); pack_B (num_columns c); pack_B (num_rows c);
        pack_B (shim_row c); pack_B (mem_row_start c); pack_B (mem_num_rows c);
        pack_B (aie_tile_row_start c); pack_B (aie_tile_num_rows c);
        pack_B (partition_num_cols c); pack_list pack_h (partition_overlay_start_cols c);
        match parts with
        | None => Some []
        | Some (start, num, ps) =>
            pack [pack_I start; pack_I num; pack_list pack_partition ps]
        end].

(** * Round trips

    [decodes load a bs]: at the front of any bytes, [load] takes [bs] for [a]. *)
Definition decodes {A} (load : R A) (a : A) (bs : list Z) : Prop :=
  forall rest, load (bs ++ rest) = Some (a, rest).

Lemma decodes_ret {A} (a : A) : decodes (rret a) a [].
Proof. done. Qed.

Lemma decodes_bind {A B} (m : R A) (k : A -> R B) a b bs1 bs2 :
  decodes m a bs1 -> decodes (k a) b bs2 -> decodes (rbind m k) b (bs1 ++ bs2).
Proof. intros H1 H2 rest; unfold rbind; rewrite <- app_assoc, H1; apply H2. Qed.

Lemma pack_int_inv lo hi n v bs :
  pack_int lo hi n v = Some bs -> lo <= v < hi /\ bs = le_bytes n v.
Proof.
  unfold pack_int; destruct (Z.leb_spec lo v), (Z.ltb_spec v hi); simpl; intros; simplify_eq; done.
Qed.

Lemma pack_cons_inv v vs bs :
  pack (v :: vs) = Some bs -> exists b bs', v = Some b /\ pack vs = Some bs' /\ bs = b ++ bs'.
Proof. cbn [pack]; destruct v as [b|], (pack vs) as [bs'|]; naive_solver. Qed.

Lemma copy_bytes_app a rest : copy_bytes (List.length a) (a ++ rest) = Some (a, rest).
Proof.
  unfold copy_bytes; rewrite length_app.
  destruct (Nat.leb_spec (List.length a) (List.length a + List.length rest)); [|lia].
  by rewrite take_app_length, drop_app_length.
Qed.

(** Reading back [n] bytes of an integer. *)
Lemma decodes_int {A} n v (f : list Z -> A) a :
  f (le_bytes n v) = a -> decodes (bs <~ copy_bytes n ;; rret (f bs)) a (le_bytes n v).
Proof.
  intros Hf rest; unfold rbind; rewrite <- (le_bytes_length n v) at 1.
  rewrite copy_bytes_app; unfold rret; by rewrite Hf.
Qed.

Lemma wrap_s_le_val n v :
  (0 < n)%nat -> - 2 ^ (8 * Z.of_nat n - 1) <= v < 2 ^ (8 * Z.of_nat n - 1) ->
  wrap_s (8 * Z.of_nat n) (le_val (le_bytes n v)) = v.
Proof.
  intros Hn Hv; rewrite le_val_bytes; replace (256 ^ Z.of_nat n) with (2 ^ (8 * Z.of_nat n))
    by (rewrite Z.pow_mul_r by lia; done).
  unfold wrap_s; rewrite Z.add_mod_idemp_l by (apply Z.pow_nonzero; lia).
  change (wrap_s (8 * Z.of_nat n) v = v); apply wrap_s_small; lia.
Qed.

Lemma le_val_small n v : 0 <= v < 2 ^ (8 * Z.of_nat n) -> le_val (le_bytes n v) = v.
Proof.
  intros Hv; rewrite le_val_bytes; replace (256 ^ Z.of_nat n) with (2 ^ (8 * Z.of_nat n))
    by (rewrite Z.pow_mul_r by lia; done).
  by apply Z.mod_small.
Qed.

Lemma decodes_B v bs : pack_B v = Some bs -> decodes unpackUInt8 v bs.
Proof. intros [Hv ->]%pack_int_inv; apply decodes_int, le_val_small; simpl; lia. Qed.

Lemma decodes_h v bs : pack_h v = Some bs -> decodes unpackShort v bs.
Proof. intros [Hv ->]%pack_int_inv; apply decodes_int, (wrap_s_le_val 2); simpl; lia. Qed.

Lemma decodes_i v bs : pack_i v = Some bs -> decodes unpackUInt32 v bs.
Proof. intros [Hv ->]%pack_int_inv; apply decodes_int, (wrap_s_le_val 4); simpl; lia. Qed.

Lemma decodes_Q v bs : pack_Q v = Some bs -> decodes unpackUInt64 v bs.
Proof. intros [Hv ->]%pack_int_inv; apply decodes_int, le_val_small; simpl; lia. Qed.

Lemma decodes_I v bs : pack_I v = Some bs -> decodes unpackUInt32 (s32 v) bs.
Proof.
  intros [Hv ->]%pack_int_inv; apply decodes_int; rewrite le_val_small by (simpl; lia); done.
Qed.

Lemma decodes_bool b bs : pack_bool b = Some bs -> decodes unpackBool b bs.
Proof. intros [Hv ->]%pack_int_inv; apply decodes_int; by destruct b. Qed.

Lemma string_bytes s : string_of_bytes (bytes_of_string s) = s.
Proof.
  induction s as [|a s IH]; [done|]; cbn [bytes_of_string string_of_bytes].
  by rewrite N2Z.id, ascii_N_embedding, IH.
Qed.

Lemma decodes_name s bs : pack_name s = Some bs -> decodes unpackString s bs.
Proof.
  unfold pack_name; pose proof (string_bytes s) as Hs; destruct (is_ascii s); [|done].
  revert Hs; generalize (bytes_of_string s) as b; intros b Hs.
  destruct (Nat.leb_spec (List.length b) NAME_MAX_LEN) as [Hn|]; [|done].
  assert (List.length b <= 1024)%nat by exact Hn; cbn [andb].
  intros (b1 & bs' & H1 & H2 & ->)%pack_cons_inv.
  apply pack_cons_inv in H2 as (b2 & bs2 & [= <-] & [= <-] & ->).
  apply pack_int_inv in H1 as [_ ->]; intros rest; unfold unpackString, rbind.
  rewrite <- app_assoc, <- (le_bytes_length 4 (Z.of_nat (List.length b))) at 1.
  rewrite copy_bytes_app, (wrap_s_le_val 4) by (simpl; lia).
  destruct (Z.ltb_spec (Z.of_nat (List.length b)) 0); [lia|].
  rewrite Nat2Z.id, app_nil_r, copy_bytes_app; unfold rret; by rewrite Hs.
Qed.

Lemma decodes_value_signed n v lo hi bs :
  (0 < n)%nat -> lo = - 2 ^ (8 * Z.of_nat n - 1) -> hi = 2 ^ (8 * Z.of_nat n - 1) ->
  pack_int lo hi n v = Some bs -> decodes (unpackValue n true) v bs.
Proof. intros Hn -> -> [Hv ->]%pack_int_inv; apply decodes_int, wrap_s_le_val; lia. Qed.

Lemma decodes_value_unsigned n v hi bs :
  hi = 2 ^ (8 * Z.of_nat n) -> pack_int 0 hi n v = Some bs -> decodes (unpackValue n false) v bs.
Proof. intros -> [Hv ->]%pack_int_inv; apply decodes_int, le_val_small; lia. Qed.

(** A packed list reads back element by element; [g] is what an element becomes. *)
Lemma decodes_elements {A B} (f : A -> option (list Z)) (m : R B) (g : A -> B) l bs :
  (forall a b, a ∈ l -> f a = Some b -> decodes m (g a) b) ->
  pack (map f l) = Some bs -> decodes (read_n (List.length l) m) (map g l) bs.
Proof.
  revert bs; induction l as [|a l IH]; intros bs Hm H; [cbn in H; simplify_eq; apply decodes_ret|].
  apply pack_cons_inv in H as (b & bs' & Ha & Hl & ->); cbn [List.length read_n map].
  apply (decodes_bind _ _ (g a)); [apply Hm; [left|done]|].
  rewrite <- (app_nil_r bs'); apply (decodes_bind _ _ (map g l)); [|apply decodes_ret].
  apply IH; [|done]; intros; apply Hm; [right|]; done.
Qed.

Lemma decodes_list {A B} (f : A -> option (list Z)) (m : R B) (g : A -> B) l bs :
  (forall a b, a ∈ l -> f a = Some b -> decodes m (g a) b) ->
  pack_list f l = Some bs ->
  decodes (n <~ unpackUInt32 ;; read_n (Z.to_nat n) m) (map g l) bs.
Proof.
  intros Hm (b & bs' & Hn & Hl & ->)%pack_cons_inv.
  apply (decodes_bind _ _ (Z.of_nat (List.length l))); [by apply decodes_i|].
  rewrite Nat2Z.id; by apply (decodes_elements f).
Qed.

Lemma decodes_vector {A} n sgn (f : A -> option (list Z)) (g : A -> Z) l bs :
  (forall a b, a ∈ l -> f a = Some b -> decodes (unpackValue n sgn) (g a) b) ->
  pack_list f l = Some bs -> decodes (counted_vector n sgn) (map g l) bs.
Proof.
  intros Hm (b & bs' & Hn & Hl & ->)%pack_cons_inv.
  apply (decodes_bind _ _ (Z.of_nat (List.length l))); [by apply decodes_i|].
  unfold unpackVector; destruct (Z.ltb_spec (Z.of_nat (List.length l)) 0); [lia|].
  rewrite Nat2Z.id; by apply (decodes_elements f).
Qed.

Lemma decodes_vector_id n sgn (f : Z -> option (list Z)) l bs :
  (forall a b, a ∈ l -> f a = Some b -> decodes (unpackValue n sgn) a b) ->
  pack_list f l = Some bs -> decodes (counted_vector n sgn) l bs.
Proof. intros H Hp; rewrite <- (map_id l); by apply (decodes_vector n sgn f id). Qed.

Lemma decodes_list_id {A} (f : A -> option (list Z)) (m : R A) l bs :
  (forall a b, a ∈ l -> f a = Some b -> decodes m a b) -> pack_list f l = Some bs ->
  decodes (n <~ unpackUInt32 ;; read_n (Z.to_nat n) m) l bs.
Proof. intros H Hp; rewrite <- (map_id l); by apply (decodes_list f m id). Qed.

Lemma decodes_vector_h l bs : pack_list pack_h l = Some bs -> decodes (counted_vector 2 true) l bs.
Proof. apply decodes_vector_id; intros; by eapply decodes_value_signed; [lia|..]. Qed.

Lemma decodes_vector_i l bs : pack_list pack_i l = Some bs -> decodes (counted_vector 4 true) l bs.
Proof. apply decodes_vector_id; intros; by eapply decodes_value_signed; [lia|..]. Qed.

Lemma decodes_vector_I l bs : pack_list pack_I l = Some bs -> decodes (counted_vector 4 false) l bs.
Proof. apply decodes_vector_id; intros; by eapply decodes_value_unsigned. Qed.

Lemma decodes_vector_Q l bs : pack_list pack_Q l = Some bs -> decodes (counted_vector 8 false) l bs.
Proof. apply decodes_vector_id; intros; by eapply decodes_value_unsigned. Qed.

Create HintDb codec.
#[export] Hint Resolve decodes_B decodes_h decodes_i decodes_I decodes_Q decodes_bool
  decodes_name decodes_vector_h decodes_vector_i decodes_vector_I decodes_vector_Q : codec.

(** A counted list in the middle of a record. *)
Lemma decodes_counted {A B C} (f : A -> option (list Z)) (m : R B) (g : A -> B)
    (k : list B -> R C) l c bs1 bs2 :
  (forall a b, a ∈ l -> f a = Some b -> decodes m (g a) b) ->
  pack_list f l = Some bs1 -> decodes (k (map g l)) c bs2 ->
  decodes (n <~ unpackUInt32 ;; x <~ read_n (Z.to_nat n) m ;; k x) c (bs1 ++ bs2).
Proof.
  intros Hm Hl Hk rest; pose proof (decodes_list f m g l bs1 Hm Hl (bs2 ++ rest)) as H.
  rewrite <- app_assoc; unfold rbind in H |- *.
  destruct (unpackUInt32 _) as [[n bs]|]; [|done].
  destruct (read_n _ _ _) as [[x bs']|]; simplify_eq; apply Hk.
Qed.

Lemma u32_s32 v : 0 <= v < 2 ^ 32 -> u32 (s32 v) = v.
Proof.
  intros Hv; unfold wrap_u, wrap_s; change (32 - 1) with 31.
  rewrite Zminus_mod, Z.mod_mod, <- Zminus_mod by lia.
  replace (v + 2 ^ 31 - 2 ^ 31) with v by lia; by apply Z.mod_small.
Qed.

(** Splits a packed record into the bytes of its fields. *)
Ltac unpack_fields :=
  repeat match goal with
  | H : pack (_ :: _) = Some _ |- _ =>
      let b := fresh "b" in let bs := fresh "bs" in let Hb := fresh "Hb" in
      apply pack_cons_inv in H as (b & bs & Hb & H & ->)
  | H : pack [] = Some _ |- _ => injection H as <-
  end.

(** Runs a reader over the fields that are packed in the same order. *)
Ltac decode_fields :=
  unpack_fields;
  repeat (eapply decodes_bind; [solve [eauto with codec]|cbv beta]).

Lemma decodes_gmio c bs : pack_gmio c = Some bs -> decodes load_gmio_config c bs.
Proof.
  unfold pack_gmio, load_gmio_config; intros H; decode_fields.
  assert (E : gmio_type_of (u8 (gmio_type_code (type c))) = Some (type c)) by by destruct (type c).
  rewrite E; destruct c; apply decodes_ret.
Qed.

Lemma decodes_plio c bs : pack_plio c = Some bs -> decodes load_plio_config c bs.
Proof. unfold pack_plio, load_plio_config; intros H; decode_fields; destruct c; apply decodes_ret. Qed.

Lemma decodes_shim_bd_info c bs : pack_shim_bd_info c = Some bs -> decodes load_shim_bd_info c bs.
Proof.
  unfold pack_shim_bd_info, load_shim_bd_info; intros H; decode_fields.
  repeat match goal with H : pack_I _ = Some _ |- _ => apply pack_int_inv in H as [? _] end.
  rewrite !u32_s32 by done; destruct c; apply decodes_ret.
Qed.

Lemma decodes_shim_port_config c bs :
  pack_shim_port_config c = Some bs -> decodes load_shim_port_config c bs.
Proof.
  unfold pack_shim_port_config, load_shim_port_config; intros H; decode_fields.
  eapply (decodes_counted _ _ id); [|eassumption|].
  - intros; by apply decodes_shim_bd_info.
  - rewrite map_id; destruct c; apply decodes_ret.
Qed.

Lemma decodes_external_buffer c bs :
  pack_external_buffer c = Some bs -> decodes load_external_buffer_config c bs.
Proof.
  unfold pack_external_buffer, load_external_buffer_config; intros H; decode_fields.
  eapply (decodes_counted _ _ id); [|eassumption|].
  - intros; by apply decodes_shim_port_config.
  - rewrite map_id; destruct c; apply decodes_ret.
Qed.

(** Sizes, addresses and lock ids are unsigned in the program and signed in the table. *)
Record rtp_unsigned (c : rtp_config) : Prop := {
  ru_bytes : 0 <= rtp_numBytes c;
  ru_sel : 0 <= selectorAddr c; ru_sel_lock : 0 <= selectorLockId c;
  ru_ping : 0 <= pingAddr c; ru_ping_lock : 0 <= pingLockId c;
  ru_pong : 0 <= pongAddr c; ru_pong_lock : 0 <= pongLockId c
}.

Lemma decodes_rtp c bs : rtp_unsigned c -> pack_rtp c = Some bs -> decodes load_rtp_config c bs.
Proof.
  intros [] H; unfold pack_rtp, load_rtp_config in *; decode_fields.
  repeat match goal with
  | H : pack_int _ _ _ (?f c) = Some _ |- _ => apply pack_int_inv in H as [? _]
  end.
  rewrite !wrap_u_small by lia; destruct c; apply decodes_ret.
Qed.

Lemma decodes_shared_buffer c bs :
  elemType c = et_voidty -> pack_shared_buffer c = Some bs ->
  decodes (load_shared_buffer_config 8) c bs.
Proof.
  intros He H; unfold pack_shared_buffer, load_shared_buffer_config in *; decode_fields.
  match goal with H : pack_Q (sb_numBytes c) = Some _ |- _ => apply pack_int_inv in H as [? _] end.
  rewrite wrap_u_small by (simpl; lia); destruct c; simpl in He; subst; apply decodes_ret.
Qed.

Lemma decodes_partition c bs : pack_partition c = Some bs -> decodes load_partition c bs.
Proof.
  unfold pack_partition, load_partition; intros H; decode_fields.
  repeat match goal with H : pack_I _ = Some _ |- _ => apply pack_int_inv in H as [? _] end.
  rewrite !u32_s32 by done; destruct c; apply decodes_ret.
Qed.

(** What the reader makes of the metadata of a graph. *)
Definition graph_of (size_t : nat) (partitions : list partition_config) (psc : Z) (g : json_graph)
  : graph_config :=
  {| gc_id := jg_id g; gc_name := jg_name g; coreColumns := core_columns g;
     coreRows := core_rows g; iterMemColumns := iteration_memory_columns g;
     iterMemRows := iteration_memory_rows g;
     iterMemAddrs := map (fun v => wrap_u (8 * Z.of_nat size_t) (s32 v))
                       (iteration_memory_addresses g);
     triggered := map (fun v => Z.b2z (truth (convert_if_bool v))) (multirate_triggers g);
     broadcast_column :=
       match partitions with
       | [] => 0
       | _ => u32 (get_partition_start_column partitions
                     (s32 (hd 0 (core_columns g) + psc)) - u32 psc)
       end |}.

Lemma decodes_triggers l bs :
  pack_list (fun v => pack_bool (truth v)) (map convert_if_bool l) = Some bs ->
  decodes (counted_vector 1 false) (map (fun v => Z.b2z (truth (convert_if_bool v))) l) bs.
Proof.
  intros H; rewrite <- (map_map convert_if_bool (fun v => Z.b2z (truth v))).
  eapply decodes_vector; [|exact H]; intros v b _ Hv; by eapply decodes_value_unsigned.
Qed.

Lemma decodes_graph size_t partitions psc g bs :
  core_columns g <> [] -> pack_graph g = Some bs ->
  decodes (load_graph_config size_t partitions psc) (graph_of size_t partitions psc g) bs.
Proof.
  intros Hc H; unfold pack_graph, load_graph_config in *; decode_fields.
  eapply decodes_bind; [by apply decodes_triggers|cbv beta].
  change (@nil Z) with ([] ++ @nil Z); eapply decodes_bind; [|apply decodes_ret].
  unfold broadcast_column_of; destruct partitions, (core_columns g); done || apply decodes_ret.
Qed.

(** ** Tables *)

(** The keys a configuration is stored under. *)
Definition put_keys {A} (keys : A -> list string) (a : A) (m : gmap string A) : gmap string A :=
  fold_left (fun m k => <[k := a]> m) (keys a) m.

Definition rtp_names (c : rtp_config) : list string :=
  portName c :: (if decide (aliasName c = EmptyString) then [] else [aliasName c]).

Lemma put_rtp_keys c m : put_rtp c m = put_keys rtp_names c m.
Proof. unfold put_rtp, put_keys, rtp_names; case_decide; done. Qed.

Section Table.
Context {A : Type} (keys : A -> list string).
Abbreviation put_all := (fold_left (fun m a => put_keys keys a m)).

Lemma insert_other (a : A) ks (m : gmap string A) k :
  k ∉ ks -> fold_left (fun m k => <[k := a]> m) ks m !! k = m !! k.
Proof.
  revert m; induction ks as [|k' ks IH]; intros m Hk; [done|]; cbn.
  apply not_elem_of_cons in Hk as [Hne Hk]; rewrite IH by done.
  by apply lookup_insert_ne.
Qed.

Lemma insert_own (a : A) ks (m : gmap string A) k :
  k ∈ ks -> fold_left (fun m k => <[k := a]> m) ks m !! k = Some a.
Proof.
  revert m; induction ks as [|k' ks IH]; intros m Hk; [by apply elem_of_nil in Hk|]; cbn.
  destruct (decide (k ∈ ks)) as [Hin|Hin]; [by apply IH|].
  rewrite insert_other by done; apply elem_of_cons in Hk as [->|]; [apply lookup_insert_eq|done].
Qed.

Lemma put_all_other l m k : k ∉ List.concat (map keys l) -> put_all l m !! k = m !! k.
Proof.
  revert m; induction l as [|a l IH]; intros m Hk; [done|]; cbn in *.
  apply not_elem_of_app in Hk as [Ha Hk]; rewrite IH by done; by apply insert_other.
Qed.

Lemma put_all_own l m a k :
  NoDup (List.concat (map keys l)) -> a ∈ l -> k ∈ keys a -> put_all l m !! k = Some a.
Proof.
  revert m; induction l as [|a' l IH]; intros m Hnd Ha Hk; [set_solver|]; cbn in *.
  apply NoDup_app in Hnd as (_ & Hdisj & Hnd).
  destruct (decide (k ∈ List.concat (map keys l))) as [Hin|Hin].
  - apply IH; [done| |done]; apply elem_of_cons in Ha as [->|Ha]; [|done].
    exfalso; eapply Hdisj; eauto.
  - rewrite put_all_other by done; apply elem_of_cons in Ha as [->|Ha].
    + by apply insert_own.
    + exfalso; apply Hin, list_elem_of_In, in_concat; exists (keys a).
      split; [by apply in_map, list_elem_of_In|by apply list_elem_of_In].
Qed.

Lemma put_all_inv l m k a :
  put_all l m !! k = Some a -> m !! k = Some a \/ (a ∈ l /\ k ∈ keys a).
Proof.
  revert m; induction l as [|a' l IH]; intros m H; [by left|]; cbn in H.
  destruct (IH _ H) as [Hm|[??]]; [|right; set_solver].
  destruct (decide (k ∈ keys a')) as [Hk|Hk].
  - unfold put_keys in Hm; rewrite insert_own in Hm by done; simplify_eq; right; set_solver.
  - unfold put_keys in Hm; rewrite insert_other in Hm by done; by left.
Qed.

Context (f : A -> option (list Z)) {B : Type} (load : R B) (g : A -> B).
Context (put : B -> gmap string B -> gmap string B).

(** Reading the bytes of a packed list of records stores each of them. *)
Lemma load_all_packed l m bs fuel :
  (forall a b, a ∈ l -> f a = Some b -> b <> [] /\ decodes load (g a) b) ->
  pack (map f l) = Some bs -> (List.length bs <= fuel)%nat ->
  load_all fuel load put m bs = Some (fold_left (fun m a => put (g a) m) l m).
Proof.
  revert m bs fuel; induction l as [|a l IH]; intros m bs fuel Hf H Hfuel.
  - cbn in H; simplify_eq; destruct fuel; done.
  - apply pack_cons_inv in H as (b & bs' & Ha & Hl & ->).
    destruct (Hf a b) as [Hne Hd]; [left|done|]; rewrite length_app in Hfuel.
    destruct b as [|z b]; [done|]; destruct fuel as [|fuel]; [simpl in Hfuel; lia|].
    change ((z :: b) ++ bs') with (z :: (b ++ bs')); cbn [load_all fold_left].
    change (z :: (b ++ bs')) with ((z :: b) ++ bs'); rewrite Hd.
    apply IH; [intros; apply Hf; [right|]; done|done|simpl in Hfuel; lia].
Qed.
End Table.

Lemma pack_int_nonempty lo hi n v vs bs :
  pack (pack_int lo hi (S n) v :: vs) = Some bs -> bs <> [].
Proof. intros (b & bs' & [_ ->]%pack_int_inv & _ & ->)%pack_cons_inv; done. Qed.

(** A table, read back, holds exactly the packed configurations under their keys. *)
Definition table_of {A} (keys : A -> list string) (l : list A) (m : gmap string A) : Prop :=
  (forall a k, a ∈ l -> k ∈ keys a -> m !! k = Some a) /\
  (forall k a, m !! k = Some a -> a ∈ l /\ k ∈ keys a).

Lemma table_roundtrip_map {A B} keys (f : A -> option (list Z)) (g : A -> B) load put l bs :
  (forall a m, put a m = put_keys keys a m) ->
  (forall a b, a ∈ l -> f a = Some b -> b <> [] /\ decodes load (g a) b) ->
  NoDup (List.concat (map keys (map g l))) -> pack (map f l) = Some bs ->
  exists m, table load put bs = Some m /\ table_of keys (map g l) m.
Proof.
  intros Hput Hf Hnd Hp; eexists; split.
  - unfold table; by apply (load_all_packed f load g).
  - assert (E : forall m, fold_left (fun m a => put (g a) m) l m =
                          fold_left (fun m a => put_keys keys a m) (map g l) m).
    { clear -Hput; induction l as [|a l IH]; intros m; [done|]; cbn; by rewrite Hput, IH. }
    rewrite E; split; intros.
    + by apply put_all_own.
    + apply put_all_inv in H as [H|H]; [by rewrite lookup_empty in H|done].
Qed.

Lemma table_roundtrip {A} keys (f : A -> option (list Z)) load put l bs :
  (forall a m, put a m = put_keys keys a m) ->
  (forall a b, a ∈ l -> f a = Some b -> b <> [] /\ decodes load a b) ->
  NoDup (List.concat (map keys l)) -> pack (map f l) = Some bs ->
  exists m, table load put bs = Some m /\ table_of keys l m.
Proof.
  intros Hput Hf Hnd Hp; rewrite <- (map_id l) in Hnd; rewrite <- (map_id l).
  apply (table_roundtrip_map keys f id); done.
Qed.

Lemma concat_singletons {A} (name : A -> string) l :
  List.concat (map (fun a => [name a]) l) = map name l.
Proof. induction l as [|a l IH]; [done|]; cbn; by rewrite IH. Qed.

(** the GMIO, PLIO and external buffer tables survive the trip through the binary
    format: the reader finds every packed configuration under its name, with every field,
    port and buffer descriptor, and nothing else. *)
Theorem port_tables_roundtrip gs ps es bg bp be :
  NoDup (map gmio_name gs) -> NoDup (map plio_name ps) -> NoDup (map eb_name es) ->
  pack (map pack_gmio gs) = Some bg -> pack (map pack_plio ps) = Some bp ->
  pack (map pack_external_buffer es) = Some be ->
  exists mg mp me,
    load_gmios bg = Some mg /\ table_of (fun c => [gmio_name c]) gs mg /\
    load_plios bp = Some mp /\ table_of (fun c => [plio_name c]) ps mp /\
    load_external_buffers be = Some me /\ table_of (fun c => [eb_name c]) es me.
Proof.
  rewrite <- !concat_singletons; intros Hg Hp He Bg Bp Be.
  destruct (table_roundtrip (fun c => [gmio_name c]) pack_gmio load_gmio_config
    (by_name gmio_name) gs bg) as (mg & ? & ?); try done.
  { intros a b _ Ha; split; [exact (pack_int_nonempty _ _ _ _ _ _ Ha)|by apply decodes_gmio]. }
  destruct (table_roundtrip (fun c => [plio_name c]) pack_plio load_plio_config
    (by_name plio_name) ps bp) as (mp & ? & ?); try done.
  { intros a b _ Ha; split; [exact (pack_int_nonempty _ _ _ _ _ _ Ha)|by apply decodes_plio]. }
  destruct (table_roundtrip (fun c => [eb_name c]) pack_external_buffer load_external_buffer_config
    (by_name eb_name) es be) as (me & ? & ?); try done.
  { intros a b _ Ha; split;
      [exact (pack_int_nonempty _ _ _ _ _ _ Ha)|by apply decodes_external_buffer]. }
  exists mg, mp, me; done.
Qed.

(** the table of run-time parameters reads back exactly, each port under its name and,
    if it has one, its alias, for tables in which no name is used twice. *)
Theorem rtp_table_roundtrip cs bs :
  Forall rtp_unsigned cs -> NoDup (List.concat (map rtp_names cs)) ->
  pack (map pack_rtp cs) = Some bs ->
  exists m, load_rtps bs = Some m /\ table_of rtp_names cs m.
Proof.
  intros Hu Hnd Hp; apply (table_roundtrip rtp_names pack_rtp); try done.
  - intros; apply put_rtp_keys.
  - intros a b Ha Hb; split; [exact (pack_int_nonempty _ _ _ _ _ _ Hb)|].
    apply decodes_rtp; [|done]; revert Hu Ha; rewrite Forall_forall; auto.
Qed.

(** C37: the table of graphs reads back with every core, iteration address and name; the
    broadcast column is computed from the partitions.  Two fields do not survive as
    written: an iteration address from 2^31 is sign-extended, and a trigger that the
    metadata gives as a boolean is stored as true, whatever its value, because the script
    turns booleans into non-empty strings. *)
Theorem graph_table_roundtrip size_t partitions psc gs bs :
  Forall (fun g => core_columns g <> []) gs -> NoDup (map jg_name gs) ->
  pack (map pack_graph gs) = Some bs ->
  (exists m, load_graphs size_t partitions psc bs = Some m /\
     table_of (fun c => [gc_name c]) (map (graph_of size_t partitions psc) gs) m) /\
  Forall (fun g =>
    let c := graph_of size_t partitions psc g in
    coreColumns c = core_columns g /\ coreRows c = core_rows g /\
    iterMemColumns c = iteration_memory_columns g /\ iterMemRows c = iteration_memory_rows g /\
    (size_t = 8%nat -> Forall (fun a => 0 <= a < 2 ^ 31) (iteration_memory_addresses g) ->
     iterMemAddrs c = iteration_memory_addresses g) /\
    (Forall (fun v => exists b, v = JBool b) (multirate_triggers g) ->
     Forall (fun t => t = 1) (triggered c))) gs.
Proof.
  intros Hc Hnd Hp; split.
  - apply (table_roundtrip_map _ pack_graph); try done.
    + intros g b Hg Hb; split; [exact (pack_int_nonempty _ _ _ _ _ _ Hb)|].
      apply decodes_graph; [|done]; revert Hc Hg; rewrite Forall_forall; auto.
    + rewrite concat_singletons, map_map; exact Hnd.
  - apply Forall_forall; intros g _; cbv zeta; do 4 (split; [done|]); split.
    + intros -> Ha; cbn [iterMemAddrs graph_of]; induction Ha as [|a l Ha _ IH]; [done|].
      cbn [map]; rewrite IH, wrap_s_small, wrap_u_small by (simpl; lia); done.
    + intros Ht; cbn [triggered graph_of]; induction Ht as [|v l [b ->] _ IH]; [constructor|].
      constructor; [by destruct b|exact IH].
Qed.

(** ** Shared buffers on 32-bit processors *)

Definition consumes {A} (m : R A) (size : A -> nat) : Prop :=
  forall bs a rest, m bs = Some (a, rest) -> List.length bs = (size a + List.length rest)%nat.

Lemma rbind_inv {A B} (m : R A) (k : A -> R B) bs b rest :
  rbind m k bs = Some (b, rest) -> exists a bs', m bs = Some (a, bs') /\ k a bs' = Some (b, rest).
Proof. unfold rbind; destruct (m bs) as [[a bs']|]; naive_solver. Qed.

Lemma copy_bytes_consumes n : consumes (copy_bytes n) (fun _ => n).
Proof.
  intros bs a rest; unfold copy_bytes; destruct (Nat.leb_spec n (List.length bs)); [|done].
  intros; simplify_eq; rewrite length_drop; lia.
Qed.

Lemma copied_consumes {A} n (f : list Z -> A) : consumes (bs <~ copy_bytes n ;; rret (f bs)) (fun _ => n).
Proof.
  intros bs a rest (b & bs' & H & H')%rbind_inv; unfold rret in H'; simplify_eq.
  by apply copy_bytes_consumes in H.
Qed.

Lemma read_n_consumes {A} n (m : R A) k : consumes m (fun _ => k) ->
  consumes (read_n n m) (fun _ => (n * k)%nat) /\
  (forall bs l rest, read_n n m bs = Some (l, rest) -> List.length l = n).
Proof.
  intros Hm; induction n as [|n [IHc IHl]]; cbn [read_n].
  - split; intros bs a rest H; unfold rret in H; simplify_eq; done.
  - split; intros bs a rest (x & b1 & Hx & H)%rbind_inv;
      apply rbind_inv in H as (l & b2 & Hl & H); unfold rret in H; simplify_eq.
    + apply Hm in Hx; apply IHc in Hl; lia.
    + cbn; f_equal; eauto.
Qed.

Lemma counted_vector_consumes k sgn :
  consumes (counted_vector k sgn) (fun l => (4 + List.length l * k)%nat).
Proof.
  intros bs l rest (n & b1 & Hn & H)%rbind_inv; apply copied_consumes in Hn.
  unfold unpackVector in H; destruct (Z.ltb_spec n 0); [done|].
  destruct (read_n_consumes (Z.to_nat n) (unpackValue k sgn) k) as [Hc Hl];
    [apply copied_consumes|]; rewrite (Hl _ _ _ H); apply Hc in H; lia.
Qed.

Lemma unpackString_consumes bs s rest :
  unpackString bs = Some (s, rest) ->
  List.length bs = (4 + List.length (bytes_of_string s) + List.length rest)%nat.
Proof.
  intros (b & bs1 & Hb & H)%rbind_inv; apply copy_bytes_consumes in Hb.
  cbv zeta in H; destruct (s32 (le_val b) <? 0); [done|].
  apply rbind_inv in H as (c & bs2 & Hc & H); unfold rret in H; simplify_eq.
  assert (E : forall c, List.length (bytes_of_string (string_of_bytes c)) = List.length c)
    by (clear; induction c; simpl; auto).
  assert (Hlc : List.length c = Z.to_nat (s32 (le_val b))).
  { unfold copy_bytes in Hc; case_match eqn:Hle; [|done]; simplify_eq.
    apply Nat.leb_le in Hle; rewrite length_take; lia. }
  apply copy_bytes_consumes in Hc; rewrite E; lia.
Qed.

Ltac consumed H :=
  first [apply unpackString_consumes in H | apply counted_vector_consumes in H
        |apply copied_consumes in H].

(** The bytes a reader takes for a shared buffer. *)
Lemma load_shared_buffer_size size_t bs c rest :
  load_shared_buffer_config size_t bs = Some (c, rest) ->
  List.length bs =
    (39 + List.length (bytes_of_string (sb_name c)) + size_t * List.length (sb_addr c) +
     4 * (List.length (producerLocks c) + List.length (consumerLocks c)) + List.length rest)%nat.
Proof.
  unfold load_shared_buffer_config; intros H.
  repeat (let Hc := fresh "Hc" in apply rbind_inv in H as (? & ? & Hc & H); consumed Hc).
  unfold rret in H; injection H as <- <-; cbn [sb_name sb_addr producerLocks consumerLocks]; lia.
Qed.

(** a packed table of shared buffers reads back exactly on a 64-bit processor.  On a
    32-bit processor, where [size_t] has four bytes and the addresses are packed in eight,
    no shared buffer with an address reads back as it was packed. *)
Theorem shared_buffer_table_64_not_32 cs bs :
  Forall (fun c => elemType c = et_voidty) cs -> NoDup (map sb_name cs) ->
  pack (map pack_shared_buffer cs) = Some bs ->
  (exists m, load_shared_buffers 8 bs = Some m /\ table_of (fun c => [sb_name c]) cs m) /\
  (forall c b rest, c ∈ cs -> sb_addr c <> [] -> pack_shared_buffer c = Some b ->
     load_shared_buffer_config 4 (b ++ rest) <> Some (c, rest)).
Proof.
  intros He Hnd Hp; rewrite Forall_forall in He; split.
  - rewrite <- concat_singletons in Hnd.
    apply (table_roundtrip _ pack_shared_buffer); try done; intros c b Hc Hb.
    split; [exact (pack_int_nonempty _ _ _ _ _ _ Hb)|apply decodes_shared_buffer; auto].
  - intros c b rest Hc Ha Hb H.
    apply load_shared_buffer_size in H.
    pose proof (decodes_shared_buffer c b (He _ Hc) Hb rest) as H8.
    apply load_shared_buffer_size in H8; destruct (sb_addr c); [done|]; simpl in H, H8; lia.
Qed.

Lemma decodes_partitions c start num ps bs :
  pack [pack_I start; pack_I num; pack_list pack_partition ps] = Some bs ->
  decodes (_ <~ unpackUInt32 ;; _ <~ unpackUInt32 ;; partition_len <~ unpackUInt32 ;;
    ps <~ read_n (Z.to_nat partition_len) load_partition ;;
    rret (c : driver_config, [] ++ ps)) (c, ps) bs.
Proof.
  intros H; decode_fields; eapply (decodes_counted _ _ id); [|eassumption|].
  - intros; by apply decodes_partition.
  - rewrite map_id; apply decodes_ret.
Qed.

(** the driver table reads back exactly, with the partitions when the metadata have
    them. *)
Theorem driver_table_roundtrip c parts bs :
  pack_driver c parts = Some bs ->
  load_driver_config [] bs =
    Some ((c, match parts with Some (_, _, ps) => ps | None => [] end), []).
Proof.
  unfold pack_driver; intros H; unpack_fields.
  assert (D : forall rest, load_driver_config [] (b ++ b0 ++ b1 ++ b2 ++ b3 ++ b4 ++ b5 ++ b6 ++
      b7 ++ b8 ++ b9 ++ b10 ++ b11 ++ rest) =
    match rest with
    | [] => Some ((c, []), [])
    | _ :: _ =>
        (_ <~ unpackUInt32 ;; _ <~ unpackUInt32 ;; partition_len <~ unpackUInt32 ;;
         ps <~ read_n (Z.to_nat partition_len) load_partition ;; rret (c, [] ++ ps)) rest
    end).
  { intros rest; unfold load_driver_config, rbind at 1 2 3 4 5 6 7 8 9 10 11 12 13.
    rewrite (decodes_B _ _ Hb), (decodes_Q _ _ Hb0), (decodes_B _ _ Hb1), (decodes_B _ _ Hb2),
      (decodes_B _ _ Hb3), (decodes_B _ _ Hb4), (decodes_B _ _ Hb5), (decodes_B _ _ Hb6),
      (decodes_B _ _ Hb7), (decodes_B _ _ Hb8), (decodes_B _ _ Hb9), (decodes_B _ _ Hb10),
      (decodes_vector_h _ _ Hb11); destruct c; done. }
  destruct parts as [[[start num] ps]|]; [|injection Hb12 as <-; apply (D [])].
  pose proof (decodes_partitions c start num ps b12 Hb12 []) as Hd.
  apply pack_int_nonempty in Hb12; rewrite D, app_nil_r in *; destruct b12; done.
Qed.

(** ** Partitions *)

(** the broadcast column of a graph is the first column of the partition that holds its
    first core, relative to the start column, when the partitions do not overlap. *)
Theorem partition_start_found partitions p column :
  p ∈ partitions -> startColumn p <= column < startColumn p + numColumns p ->
  Forall (fun q => 0 <= startColumn q /\ 0 <= numColumns q /\
                   startColumn q + numColumns q < 2 ^ 31) partitions ->
  (forall q, q ∈ partitions -> q = p \/ startColumn p + numColumns p <= startColumn q \/
                              startColumn q + numColumns q <= startColumn p) ->
  get_partition_start_column partitions column = startColumn p.
Proof.
  intros Hp Hcol Hr Hdisj; unfold get_partition_start_column.
  destruct partitions as [|q0 qs] eqn:E; [by apply elem_of_nil in Hp|]; rewrite <- E in *; clear E.
  rewrite Forall_forall in Hr; pose proof (Hr p Hp) as Hrp.
  destruct (List.find _ partitions) as [q|] eqn:Ef.
  - apply find_some in Ef as [Hq Hin]; apply list_elem_of_In in Hq; pose proof (Hr q Hq).
    apply andb_true_iff in Hin as [H1 H2]; rewrite wrap_u_small in H1 by lia.
    rewrite (wrap_u_small 32 column), wrap_u_small in H2 by lia.
    apply Z.leb_le in H1; apply Z.ltb_lt in H2.
    destruct (Hdisj q Hq) as [->|[Hd|Hd]]; [done| |]; exfalso; lia.
  - exfalso; apply list_elem_of_In in Hp; pose proof (find_none _ _ Ef p Hp) as Hn; cbv beta in Hn.
    rewrite !wrap_u_small in Hn by lia; apply andb_false_iff in Hn as [Hn|Hn];
      [apply Z.leb_gt in Hn|apply Z.ltb_ge in Hn]; lia.
Qed.

(** * Witnesses *)

Definition demo_gmio : gmio_config :=
  {| gmio_id := 0; gmio_name := "gin"; gmio_logicalName := "DataIn"; type := gm2aie;
     shimColumn := 7; channelNum := 2; streamId := 3; burstLength := 16 |}.

Definition demo_port : shim_port_config :=
  {| sp_portId := 4; sp_portName := "g.ddr.out[0]"; sp_column := 6; S2MMOrMM2S := 1;
     sp_channel := 0; taskRepetition := 1; enable_task_complete_token := true;
     shimBDInfos := [{| bd_id := 0; buf_idx := 0; offset := 0; transaction_size := 4096 |}] |}.

Definition demo_ebuf : external_buffer_config :=
  {| eb_id := 1; eb_name := "g.ddr"; shimPortConfigs := [demo_port] |}.

Definition demo_rtp : rtp_config :=
  {| portId := 1; aliasId := 2; portName := "g.k.in[1]"; aliasName := "g.size"; rtp_graphId := 0;
     isInput := true; isAsync := false; isConnect := false; rtp_numBytes := 4; isPL := false;
     hasLock := true; selectorColumn := 6; selectorRow := 0; selectorAddr := 0x4010;
     selectorLockId := 0; pingColumn := 6; pingRow := 0; pingAddr := 0x4000; pingLockId := 1;
     pongColumn := 6; pongRow := 0; pongAddr := 0x6000; pongLockId := 2 |}.

Definition demo_shared : shared_buffer_config :=
  {| sb_id := 0; sb_name := "g.mtx"; sb_graphId := 0; sb_numBytes := 1024; sb_column := 6;
     sb_row := 1; numInputs := 1; numOutputs := 1; elemType := et_voidty; initialized := true;
     sb_addr := [0x80000]; producerLocks := [1]; consumerLocks := [2] |}.

Definition demo_graph : json_graph :=
  {| jg_id := 0; jg_name := "g"; core_columns := [6; 7]; core_rows := [0; 0];
     iteration_memory_columns := [6; 7]; iteration_memory_rows := [0; 0];
     iteration_memory_addresses := [0x4000; 0x4000];
     multirate_triggers := [JBool false; JBool false] |}.

Definition packed {A} (f : A -> option (list Z)) (l : list A) : list Z :=
  match pack (map f l) with Some bs => bs | None => [] end.

Lemma port_tables_roundtrip_witness :
  exists mg me, load_gmios (packed pack_gmio [demo_gmio]) = Some mg /\
    mg !! "gin" = Some demo_gmio /\
    load_external_buffers (packed pack_external_buffer [demo_ebuf]) = Some me /\
    me !! "g.ddr" = Some demo_ebuf.
Proof.
  destruct (port_tables_roundtrip [demo_gmio] [] [demo_ebuf] (packed pack_gmio [demo_gmio]) []
    (packed pack_external_buffer [demo_ebuf])) as (mg & mp & me & Hg & [Tg _] & _ & _ & He & [Te _]);
    [apply NoDup_singleton|constructor|apply NoDup_singleton|reflexivity|reflexivity|reflexivity|].
  exists mg, me; split; [exact Hg|split; [apply (Tg demo_gmio); constructor|]].
  split; [exact He|apply (Te demo_ebuf); constructor].
Defined.

Lemma rtp_table_roundtrip_witness :
  exists m, load_rtps (packed pack_rtp [demo_rtp]) = Some m /\
    m !! "g.size" = Some demo_rtp.
Proof.
  destruct (rtp_table_roundtrip [demo_rtp] (packed pack_rtp [demo_rtp])) as (m & Hm & [T _]).
  - repeat constructor; cbn; lia.
  - apply (bool_decide_unpack _); vm_compute; exact I.
  - reflexivity.
  - exists m; split; [exact Hm|apply (T demo_rtp); [left|right; left]].
Defined.

Lemma graph_table_roundtrip_witness :
  exists m, load_graphs 8 [] 0 (packed pack_graph [demo_graph]) = Some m /\
    m !! "g" = Some (graph_of 8 [] 0 demo_graph) /\ triggered (graph_of 8 [] 0 demo_graph) = [1; 1].
Proof.
  destruct (graph_table_roundtrip 8 [] 0 [demo_graph] (packed pack_graph [demo_graph]))
    as ((m & Hm & [T _]) & _).
  - repeat constructor; discriminate.
  - apply NoDup_singleton.
  - reflexivity.
  - exists m; split; [exact Hm|]; split; [apply (T (graph_of 8 [] 0 demo_graph)); left|reflexivity].
Defined.

Lemma shared_buffer_table_64_not_32_witness :
  exists m, load_shared_buffers 8 (packed pack_shared_buffer [demo_shared]) = Some m /\
    m !! "g.mtx" = Some demo_shared /\
    load_shared_buffer_config 4 (packed pack_shared_buffer [demo_shared]) <> Some (demo_shared, []).
Proof.
  destruct (shared_buffer_table_64_not_32 [demo_shared] (packed pack_shared_buffer [demo_shared]))
    as ((m & Hm & [T _]) & H32).
  - repeat constructor.
  - apply NoDup_singleton.
  - reflexivity.
  - exists m; split; [exact Hm|]; split; [apply (T demo_shared); left|].
    apply (H32 demo_shared _ []); [left|discriminate|reflexivity].
Defined.

Lemma driver_table_roundtrip_witness :
  let c := {| hw_gen := 5; base_address := 0x20000000000; column_shift := 25; row_shift := 20;
              num_columns := 36; num_rows := 8; shim_row := 0; mem_row_start := 1;
              mem_num_rows := 2; aie_tile_row_start := 3; aie_tile_num_rows := 5;
              partition_num_cols := 36; partition_overlay_start_cols := [0] |} in
  let p := {| startColumn := 0; numColumns := 36; uuid := "u"; aie_pl_intf_id := 1;
              name_space := "default" |} in
  exists bs, load_driver_config [] bs = Some ((c, [p]), []).
Proof.
  intros c p; eexists; apply (driver_table_roundtrip c (Some (0, 36, [p]))); reflexivity.
Defined.
