(* ===== verification/Cdo.v ===== *)
(** The loader of configuration data objects (CDO) of [src/aeg_aiebaremetal.cc]: the parser
    of a blob and the application of its commands through the register helpers of Regs.v.

    A blob is the array of 32-bit words its pointer gives access to.  A read outside the
    array is undefined in C++ and gives [None] here, so that a theorem that the parser
    returns also says that it stays inside the blob. *)
From stdpp Require Import base list.
From Stdlib Require Import ZArith Lia.
From S2P Require Import Prelude ApiTypes Driver Regs.
Local Open Scope Z_scope.
Local Open Scope aeg_scope.

(** * The format *)

(** [src/aeg_aiebaremetal.cc:1557-1559] [kCdoHdrLen] *)
Definition kCdoHdrLen : Z := 5.
Definition kCdoHdrIdnWrd : Z := 0x004F4443.

(** [src/aeg_aiebaremetal.cc:1561-1570] [kCmdApiIdMask] *)
Definition kCmdApiIdMask : Z := 0xFF.
Definition kCmdLenMask : Z := 0xFF0000.
Definition kCmdLenShift : Z := 16.
Definition kMaxShortCmdLen : Z := 255.
Definition kShortCmdHdrLen : Z := 1.
Definition kLongCmdHdrLen : Z := 2.

(** [src/aeg_aiebaremetal.cc:1572-1579] [kCmdMaskWrite] *)
Definition kCmdMaskWrite : Z := 2.
Definition kCmdWrite : Z := 3.
Definition kCmdDmaWrite : Z := 5.
Definition kCmdMaskPoll64 : Z := 6.
Definition kCmdMaskWrite64 : Z := 7.
Definition kCmdWrite64 : Z := 8.
Definition kCmdNop : Z := 17.

(** [src/aeg_aiebaremetal.cc:1582-1586] [DecodedCmd]
    The pointer to the payload is an index into the blob. *)
Record DecodedCmd := { payload : Z; payload_len : Z; cmd_size : Z }.

(** * The parser *)

Section Parser.
Context `{rt : AieRt} (blob : list Z) (BaseAddr cdo_base : Z).

(** [p[i]] for a pointer into the blob. *)
Definition word (i : Z) : M Z :=
  if i <? 0 then undefined
  else match blob !! Z.to_nat i with Some w => ret w | None => undefined end.

(** [src/aeg_aiebaremetal.cc:1589-1605] [decode_cmd] *)
Definition decode_cmd (buf : Z) : M DecodedCmd :=
  word0 <-- word buf ;;
  let plen := Z.shiftr (Z.land word0 kCmdLenMask) kCmdLenShift in
  if plen =? kMaxShortCmdLen then
    plen <-- word (buf + 1) ;;
    ret {| payload := buf + kLongCmdHdrLen; payload_len := plen;
           cmd_size := u32 (kLongCmdHdrLen + plen) |}
  else
    ret {| payload := buf + kShortCmdHdrLen; payload_len := plen;
           cmd_size := u32 (kShortCmdHdrLen + plen) |}.

(** [src/aeg_aiebaremetal.cc:1609-1621] [cdo_reg_off] *)
Definition cdo_reg_off (cdo_addr : Z) : Z :=
  if negb (Z.land cdo_addr cdo_base =? 0)
  then Z.lor (Z.land cdo_addr (u64 (Z.lnot cdo_base))) BaseAddr
  else cdo_addr.

(** The address in the first two words of a payload. *)
Definition addr64 (hi lo : Z) : Z := Z.lor (u64 (Z.shiftl hi 32)) lo.

(** [src/aeg_aiebaremetal.cc:1694-1795] [parse_and_apply], the switch
    A command that returns from the function is [inl], the driver's code is [inr]. *)
Definition apply_cmd (cmd : DecodedCmd) (cmd_id : Z) : M (aeg_err + Z) :=
  let p i := word (payload cmd + i) in
  let run m := rc <-- m ;; ret (inr rc) in
  if cmd_id =? kCmdWrite then
    addr <-- p 0 ;; value <-- p 1 ;;
    run (cdo_reg_write32 (cdo_reg_off addr) value)
  else if cmd_id =? kCmdMaskWrite then
    addr <-- p 0 ;; mask <-- p 1 ;; value <-- p 2 ;;
    run (cdo_reg_maskwrite32 (cdo_reg_off addr) mask value)
  else if cmd_id =? kCmdWrite64 then
    hi <-- p 0 ;; lo <-- p 1 ;; value <-- p 2 ;;
    run (cdo_reg_write32 (cdo_reg_off (addr64 hi lo)) value)
  else if cmd_id =? kCmdMaskWrite64 then
    hi <-- p 0 ;; lo <-- p 1 ;; mask <-- p 2 ;; value <-- p 3 ;;
    run (cdo_reg_maskwrite32 (cdo_reg_off (addr64 hi lo)) mask value)
  else if cmd_id =? kCmdMaskPoll64 then
    if payload_len cmd <? 5 then ret (inl aeg_user_error)
    else
      hi <-- p 0 ;; lo <-- p 1 ;; mask <-- p 2 ;; value <-- p 3 ;; timeout_us <-- p 4 ;;
      run (cdo_reg_maskpoll (cdo_reg_off (addr64 hi lo)) mask value timeout_us)
  else if cmd_id =? kCmdDmaWrite then
    if payload_len cmd <? 2 then ret (inl aeg_user_error)
    else
      hi <-- p 0 ;; lo <-- p 1 ;;
      let src := payload cmd + 2 in
      let count := u32 (payload_len cmd - 2) in
      if src + count <=? Z.of_nat (length blob) then
        run (cdo_reg_blockwrite32 (cdo_reg_off (addr64 hi lo))
               (drop (Z.to_nat src) blob) (Z.to_nat count))
      else undefined
  else if cmd_id =? kCmdNop then ret (inr XAIE_OK)
  else ret (inl aeg_user_error).

(** [src/aeg_aiebaremetal.cc:1677-1809] [parse_and_apply], the loop over the commands
    A command takes at least one word, so [remaining] iterations are enough. *)
Fixpoint parse_loop (fuel : nat) (buf remaining : Z) : M aeg_err :=
  if remaining =? 0 then ret aeg_ok
  else
    match fuel with
    | O => out_of_fuel
    | S fuel =>
        cmd <-- decode_cmd buf ;;
        word0 <-- word buf ;;
        let cmd_id := Z.land word0 kCmdApiIdMask in
        if (cmd_size cmd =? 0) || (remaining <? cmd_size cmd) then ret aeg_user_error
        else
          r <-- apply_cmd cmd cmd_id ;;
          match r with
          | inl e => ret e
          | inr rc =>
              if negb (rc =? XAIE_OK) then ret aeg_aie_driver_error
              else parse_loop fuel (buf + cmd_size cmd) (u32 (remaining - cmd_size cmd))
          end
    end.

(** [src/aeg_aiebaremetal.cc:1653-1664] [parse_and_apply], the checksum loop *)
Definition header_checksum : M Z :=
  sum <-- for_each (fun i sum => w <-- word i ;; ret (u32 (sum + w))) [0; 1; 2; 3] 0 ;;
  ret (Z.lxor sum 0xFFFFFFFF).
End Parser.

Section Load.
Context `{rt : AieRt} (sim_or_frontend : bool).

(** [src/aeg_aiebaremetal.cc:1625-1814] [parse_and_apply]
    [data] is [None] for a null pointer, [BaseAddr] the base address of the device
    instance, [None] for a null instance; the simulator and frontend builds return at
    once. *)
Definition parse_and_apply (data : option (list Z)) (len : Z) (BaseAddr : option Z)
    (cdo_base : Z) : M aeg_err :=
  if sim_or_frontend then ret aeg_ok
  else match data, BaseAddr with
  | None, _ => ret aeg_user_error
  | _, None => ret aeg_user_error
  | Some blob, Some BaseAddr =>
      let total_words := len / 4 in
      if total_words <=? kCdoHdrLen then ret aeg_user_error
      else
        idn <-- word blob 1 ;;
        if negb (idn =? kCdoHdrIdnWrd) then ret aeg_user_error
        else
          checksum <-- header_checksum blob ;;
          expected <-- word blob (kCdoHdrLen - 1) ;;
          if negb (checksum =? expected) then ret aeg_user_error
          else
            buf_len <-- word blob 3 ;;
            if total_words - kCdoHdrLen <? buf_len then ret aeg_user_error
            else parse_loop blob BaseAddr cdo_base (Z.to_nat buf_len) kCdoHdrLen buf_len
  end.

(** [src/aeg_aiebaremetal.cc:1816-1821] [aeg::cdo::load] *)
Definition cdo_load (data : option (list Z)) (len : Z) (BaseAddr : option Z)
    (cdo_base : Z) : M aeg_err :=
  parse_and_apply data len BaseAddr cdo_base.
End Load.

(** * The format, as the documents describe it

    A command and the words that encode it; the bits of the first word outside the
    identifier and the length are free. *)
Inductive cdo_cmd :=
| Write (addr value : Z)
| MaskWrite (addr mask value : Z)
| DmaWrite (addr : Z) (data : list Z)
| MaskPoll64 (addr mask value timeout_us : Z)
| MaskWrite64 (addr mask value : Z)
| Write64 (addr value : Z)
| Nop (padding : list Z).

Definition opcode (c : cdo_cmd) : Z :=
  match c with
  | Write _ _ => kCmdWrite
  | MaskWrite _ _ _ => kCmdMaskWrite
  | DmaWrite _ _ => kCmdDmaWrite
  | MaskPoll64 _ _ _ _ => kCmdMaskPoll64
  | MaskWrite64 _ _ _ => kCmdMaskWrite64
  | Write64 _ _ => kCmdWrite64
  | Nop _ => kCmdNop
  end.

Definition addr_words (addr : Z) : list Z := [addr / 2 ^ 32; addr mod 2 ^ 32].

Definition cmd_payload (c : cdo_cmd) : list Z :=
  match c with
  | Write a v => [a; v]
  | MaskWrite a m v => [a; m; v]
  | DmaWrite a d => addr_words a ++ d
  | MaskPoll64 a m v t => addr_words a ++ [m; v; t]
  | MaskWrite64 a m v => addr_words a ++ [m; v]
  | Write64 a v => addr_words a ++ [v]
  | Nop d => d
  end.

Definition cmd_addr (c : cdo_cmd) : Z :=
  match c with
  | Write a _ | MaskWrite a _ _ | DmaWrite a _ | MaskPoll64 a _ _ _
  | MaskWrite64 a _ _ | Write64 a _ => a
  | Nop _ => 0
  end.

(** A command with the free bits of its first word. *)
Record encoded := { enc_cmd : cdo_cmd; enc_module : Z; enc_high : Z }.

Definition first_word (e : encoded) (len : Z) : Z :=
  opcode (enc_cmd e) + enc_module e * 2 ^ 8 + len * 2 ^ 16 + enc_high e * 2 ^ 24.

Definition encode (e : encoded) : list Z :=
  let p := cmd_payload (enc_cmd e) in
  let n := Z.of_nat (length p) in
  if n <? kMaxShortCmdLen then first_word e n :: p
  else first_word e kMaxShortCmdLen :: n :: p.

Record encodable (e : encoded) : Prop := {
  ec_module : is_byte (enc_module e);
  ec_high : is_byte (enc_high e);
  ec_addr : 0 <= cmd_addr (enc_cmd e) < 2 ^ 64;
  ec_len : Z.of_nat (length (cmd_payload (enc_cmd e))) < 2 ^ 32 - 2
}.

Definition cdo_header (w0 w2 len : Z) : list Z :=
  [w0; kCdoHdrIdnWrd; w2; len;
   Z.lxor (u32 (w0 + kCdoHdrIdnWrd + w2 + len)) 0xFFFFFFFF].

(** What the commands mean: the register operations, in order, up to the first that
    fails. *)
Section Meaning.
Context `{rt : AieRt} (BaseAddr cdo_base : Z).
Abbreviation target := (cdo_reg_off BaseAddr cdo_base).

Definition run_cmd (c : cdo_cmd) : M Z :=
  match c with
  | Write a v | Write64 a v => cdo_reg_write32 (target a) v
  | MaskWrite a m v | MaskWrite64 a m v => cdo_reg_maskwrite32 (target a) m v
  | DmaWrite a d => cdo_reg_blockwrite32 (target a) d (length d)
  | MaskPoll64 a m v t => cdo_reg_maskpoll (target a) m v t
  | Nop _ => ret XAIE_OK
  end.

Fixpoint run_cmds (cs : list cdo_cmd) : M aeg_err :=
  match cs with
  | [] => ret aeg_ok
  | c :: cs =>
      rc <-- run_cmd c ;;
      if negb (rc =? XAIE_OK) then ret aeg_aie_driver_error else run_cmds cs
  end.
End Meaning.

(** * Decoding an encoded command *)

Lemma word_lookup blob i w : blob !! i = Some w -> word blob (Z.of_nat i) = ret w.
Proof.
  intros H; unfold word; destruct (Z.ltb_spec (Z.of_nat i) 0); [lia|].
  by rewrite Nat2Z.id, H.
Qed.

Lemma word_app pre ws post i :
  (i < length ws)%nat ->
  word (pre ++ ws ++ post) (Z.of_nat (length pre) + Z.of_nat i) = ret (nth i ws 0).
Proof.
  intros Hi; rewrite <- Nat2Z.inj_add; apply word_lookup.
  rewrite lookup_app_r by lia; rewrite lookup_app_l by lia.
  replace (length pre + i - length pre)%nat with i by lia.
  destruct (lookup_lt_is_Some_2 ws i Hi) as [x Hx]; rewrite Hx; f_equal.
  symmetry; by apply nth_lookup_Some.
Qed.

Lemma opcode_range c : 0 <= opcode c < 2 ^ 8.
Proof. destruct c; unfold opcode; vm_compute; intuition congruence. Qed.

Lemma first_word_fields e len :
  is_byte (enc_module e) -> is_byte (enc_high e) -> is_byte len ->
  Z.land (first_word e len) kCmdApiIdMask = opcode (enc_cmd e) /\
  Z.shiftr (Z.land (first_word e len) kCmdLenMask) kCmdLenShift = len.
Proof.
  unfold is_byte; intros Hm Hh Hl; pose proof (opcode_range (enc_cmd e)).
  unfold first_word, kCmdApiIdMask, kCmdLenMask, kCmdLenShift; split.
  - change 0xFF with (Z.ones 8); rewrite Z.land_ones by lia.
    symmetry; apply (Z.mod_unique_pos _ _
      (enc_module e + len * 2 ^ 8 + enc_high e * 2 ^ 16)); lia.
  - rewrite Z.shiftr_land; change (Z.shiftr 0xFF0000 16) with (Z.ones 8).
    rewrite Z.land_ones, Z.shiftr_div_pow2 by lia.
    rewrite <- (Z.div_unique_pos (opcode (enc_cmd e) + enc_module e * 2 ^ 8 + len * 2 ^ 16 +
      enc_high e * 2 ^ 24) (2 ^ 16) (len + enc_high e * 2 ^ 8)
      (opcode (enc_cmd e) + enc_module e * 2 ^ 8)) by lia.
    symmetry; apply (Z.mod_unique_pos _ _ (enc_high e)); lia.
Qed.

Lemma addr64_words a : 0 <= a < 2 ^ 64 -> addr64 (a / 2 ^ 32) (a mod 2 ^ 32) = a.
Proof.
  intros Ha; unfold addr64; rewrite Z.shiftl_mul_pow2 by lia.
  pose proof (Z.div_mod a (2 ^ 32) ltac:(lia)); pose proof (Z.mod_pos_bound a (2 ^ 32) ltac:(lia)).
  assert (0 <= a / 2 ^ 32 < 2 ^ 32)
    by (split; [apply Z.div_pos|apply Z.div_lt_upper_bound]; lia).
  rewrite wrap_u_small by lia.
  rewrite Z.lor_comm, <- Z.shiftl_mul_pow2, lor_shiftl_add by lia; lia.
Qed.

(** The number of header words of an encoded command. *)
Definition hdr_words (e : encoded) : nat :=
  if Z.of_nat (length (cmd_payload (enc_cmd e))) <? kMaxShortCmdLen then 1 else 2.

Lemma encode_split e :
  exists hd, encode e = hd ++ cmd_payload (enc_cmd e) /\ length hd = hdr_words e.
Proof.
  unfold encode, hdr_words; case_match; [eexists [_]; done|eexists [_; _]; done].
Qed.

Lemma encode_length e :
  length (encode e) = (hdr_words e + length (cmd_payload (enc_cmd e)))%nat.
Proof. destruct (encode_split e) as (hd & -> & <-); by rewrite length_app. Qed.

Lemma hdr_words_bounds e : (1 <= hdr_words e <= 2)%nat.
Proof. unfold hdr_words; case_match; lia. Qed.

(** The decoder finds the identifier, the payload and the size of an encoded command. *)
Lemma decode_encoded e pre post :
  encodable e ->
  let blob := pre ++ encode e ++ post in
  let at_ := Z.of_nat (length pre) in
  decode_cmd blob at_ =
    ret {| payload := at_ + Z.of_nat (hdr_words e);
           payload_len := Z.of_nat (length (cmd_payload (enc_cmd e)));
           cmd_size := Z.of_nat (length (encode e)) |} /\
  exists w0, word blob at_ = ret w0 /\ Z.land w0 kCmdApiIdMask = opcode (enc_cmd e).
Proof.
  intros [Hm Hh Ha Hl] blob at_; set (n := length (cmd_payload (enc_cmd e))) in *.
  pose proof (encode_length e) as Hlen; fold n in Hlen.
  pose proof (word_app pre (encode e) post) as W; fold blob at_ in W; clearbody blob at_.
  pose proof (W 0%nat ltac:(pose proof (hdr_words_bounds e); lia)) as W0.
  rewrite Z.add_0_r in W0; unfold decode_cmd; rewrite Hlen, W0.
  unfold encode in W0, W |- *; unfold hdr_words in *; fold n in W, W0 |- *.
  unfold kMaxShortCmdLen in *; destruct (Z.ltb_spec (Z.of_nat n) 255) as [Hs|Hs];
    cbn [nth] in W0 |- *; change (bind (ret ?x) ?k) with (k x); cbv beta.
  - destruct (first_word_fields e (Z.of_nat n) Hm Hh) as [H1 H2]; [unfold is_byte; lia|].
    split; [|eexists; split; [done|exact H1]]; rewrite H2.
    destruct (Z.eqb_spec (Z.of_nat n) 255); [lia|]; f_equal; f_equal.
    unfold kShortCmdHdrLen; rewrite wrap_u_small; lia.
  - destruct (first_word_fields e 255 Hm Hh) as [H1 H2]; [unfold is_byte; lia|].
    split; [|eexists; split; [done|exact H1]]; rewrite H2.
    pose proof (W 1%nat ltac:(simpl; lia)) as W1; cbn [nth] in W1.
    change (Z.of_nat 1) with 1 in W1; rewrite Z.eqb_refl, W1.
    change (bind (ret ?x) ?k) with (k x); cbv beta; f_equal; f_equal.
    unfold kLongCmdHdrLen; rewrite wrap_u_small; lia.
Qed.

(** Decides the comparisons of opcodes in a goal. *)
Ltac eval_opcodes :=
  repeat match goal with
  | |- context [?a =? ?b] =>
      let v := eval vm_compute in (a =? b) in
      first [constr_eq v true | constr_eq v false]; change (a =? b) with v
  end; cbv iota.

Lemma for_each_ext {A B} (f g : A -> B -> M B) l b h :
  (forall a b h, a ∈ l -> f a b h = g a b h) -> for_each f l b h = for_each g l b h.
Proof.
  revert b h; induction l as [|a l IH]; intros b h Hfg; [done|]; cbn [for_each]; unfold bind.
  rewrite Hfg by apply list_elem_of_here; destruct (g a b h) as [[b' h']|]; [|done].
  apply IH; intros a' b'' h'' Ha; apply Hfg; by right.
Qed.

(** A block write reads the words it writes and no others. *)
Lemma blockwrite_app `{rt : AieRt} off d post h :
  cdo_reg_blockwrite32 off (d ++ post) (length d) h = cdo_reg_blockwrite32 off d (length d) h.
Proof.
  unfold cdo_reg_blockwrite32, bind; erewrite for_each_ext; [done|]; intros i u h' Hi.
  apply elem_of_seq in Hi; by rewrite app_nth1 by lia.
Qed.

Section ApplyFacts.
Context `{rt : AieRt} (BaseAddr cdo_base : Z).
Abbreviation parse blob buf remaining :=
  (parse_loop blob BaseAddr cdo_base (Z.to_nat remaining) buf remaining).

(** Applying a decoded command runs the command that was encoded. *)
Lemma apply_encoded e pre post sz h :
  encodable e ->
  apply_cmd (pre ++ cmd_payload (enc_cmd e) ++ post) BaseAddr cdo_base
    {| payload := Z.of_nat (length pre);
       payload_len := Z.of_nat (length (cmd_payload (enc_cmd e))); cmd_size := sz |}
    (opcode (enc_cmd e)) h =
  bind (run_cmd BaseAddr cdo_base (enc_cmd e)) (fun rc => ret (inr rc)) h.
Proof.
  intros [_ _ Ha Hl]; set (p := cmd_payload (enc_cmd e)) in *.
  assert (W : forall i w, nth_error p i = Some w ->
    word (pre ++ p ++ post) (Z.of_nat (length pre) + Z.of_nat i) = ret w).
  { intros i w Hw; rewrite word_app by (apply nth_error_Some; congruence).
    f_equal; by apply nth_error_nth. }
  assert (Wk : forall i w {A} (k : Z -> M A) h, nth_error p (Z.to_nat i) = Some w -> 0 <= i ->
    bind (word (pre ++ p ++ post) (Z.of_nat (length pre) + i)) k h = k w h).
  { intros i w A k h' Hw Hi; rewrite <- (Z2Nat.id i), (W _ _ Hw) by done; done. }
  unfold apply_cmd, p in *; clear p W; destruct (enc_cmd e) as [a v|a m v|a d|a m v t|a m v|a v|d];
    cbn [opcode cmd_payload cmd_addr payload payload_len addr_words app run_cmd] in *;
    eval_opcodes.
  - by erewrite !Wk by done.
  - by erewrite !Wk by done.
  - cbn [length] in *; destruct (Z.ltb_spec (Z.of_nat (S (S (length d)))) 2); [lia|].
    erewrite !Wk, addr64_words by done; rewrite wrap_u_small by lia.
    rewrite !length_app; cbn [length]; rewrite length_app.
    destruct (Z.leb_spec (Z.of_nat (length pre) + 2 + (Z.of_nat (S (S (length d))) - 2))
      (Z.of_nat (length pre + S (S (length d + length post))))); [|lia].
    replace (Z.to_nat (Z.of_nat (length pre) + 2)) with (length pre + 2)%nat by lia.
    replace (Z.to_nat (Z.of_nat (S (S (length d))) - 2)) with (length d) by lia.
    rewrite drop_app_add; cbn [drop]; rewrite drop_0.
    unfold bind; by rewrite blockwrite_app.
  - cbn [length]; destruct (Z.ltb_spec (Z.of_nat 5) 5); [lia|].
    by erewrite !Wk, addr64_words by done.
  - by erewrite !Wk, addr64_words by done.
  - by erewrite !Wk, addr64_words by done.
  - done.
Qed.

(** ** The loop *)

Lemma decode_size_nonneg blob buf h cmd h' :
  decode_cmd blob buf h = Some (cmd, h') -> 0 <= cmd_size cmd.
Proof.
  unfold decode_cmd; intros H; apply bind_inv in H as (w & h1 & _ & H).
  case_match; [apply bind_inv in H as (w' & h2 & _ & H)|]; unfold ret in H; simplify_eq/=;
    apply wrap_u_range; lia.
Qed.

(** Fuel beyond the number of remaining words changes nothing: the loop never stops for
    lack of fuel. *)
Lemma parse_loop_fuel blob fuel fuel' buf remaining h :
  0 <= remaining < 2 ^ 32 -> remaining <= Z.of_nat fuel -> remaining <= Z.of_nat fuel' ->
  parse_loop blob BaseAddr cdo_base fuel buf remaining h =
  parse_loop blob BaseAddr cdo_base fuel' buf remaining h.
Proof.
  revert fuel' buf remaining h; induction fuel as [|fuel IH];
    intros [|fuel'] buf remaining h Hr Hf Hf'; cbn [parse_loop];
    destruct (Z.eqb_spec remaining 0); try done; try lia.
  unfold bind at 1 4; destruct (decode_cmd blob buf h) as [[cmd h1]|] eqn:Hd; [|done].
  apply decode_size_nonneg in Hd; unfold bind at 1 3; destruct (word blob buf h1) as [[w h2]|]; [|done].
  destruct (Z.eqb_spec (cmd_size cmd) 0), (Z.ltb_spec remaining (cmd_size cmd)); try done.
  unfold orb, bind; destruct (apply_cmd _ _ _ _ _ _) as [[[e|rc] h3]|]; try done.
  case_match; [done|]; rewrite wrap_u_small by lia; apply IH; lia.
Qed.

Lemma parse_loop_0 blob fuel buf h :
  parse_loop blob BaseAddr cdo_base fuel buf 0 h = Some (aeg_ok, h).
Proof. destruct fuel; done. Qed.

(** One iteration on an encoded command. *)
Lemma parse_cmd e pre post rest h :
  encodable e -> 0 <= rest -> Z.of_nat (length (encode e)) + rest < 2 ^ 32 ->
  parse (pre ++ encode e ++ post) (Z.of_nat (length pre))
    (Z.of_nat (length (encode e)) + rest) h =
  bind (run_cmd BaseAddr cdo_base (enc_cmd e)) (fun rc =>
    if negb (rc =? XAIE_OK) then ret aeg_aie_driver_error
    else parse (pre ++ encode e ++ post) (Z.of_nat (length (pre ++ encode e))) rest) h.
Proof.
  intros He Hrest Hlt; destruct (decode_encoded e pre post He) as (Hd & w0 & Hw & Hop).
  pose proof (encode_length e) as Hlen; pose proof (hdr_words_bounds e).
  set (n := length (encode e)) in *.
  destruct (Z.to_nat (Z.of_nat n + rest)) as [|fuel] eqn:Ef; [lia|].
  cbn [parse_loop]; destruct (Z.eqb_spec (Z.of_nat n + rest) 0); [lia|].
  rewrite Hd, Hw; do 2 (change (bind (ret ?x) ?k) with (k x); cbv beta); cbn [cmd_size]; fold n.
  destruct (Z.eqb_spec (Z.of_nat n) 0), (Z.ltb_spec (Z.of_nat n + rest) (Z.of_nat n)); try lia.
  rewrite Hop; cbn [orb].
  destruct (encode_split e) as (hd & Henc & Hhd).
  assert (Hb : pre ++ encode e ++ post = (pre ++ hd) ++ cmd_payload (enc_cmd e) ++ post)
    by (rewrite Henc, <- !app_assoc; done).
  assert (Hp : Z.of_nat (length pre) + Z.of_nat (hdr_words e) = Z.of_nat (length (pre ++ hd)))
    by (rewrite length_app, Hhd; lia).
  unfold bind; rewrite Hb, Hp, (apply_encoded e (pre ++ hd) post (Z.of_nat n) h He), <- Hb.
  unfold bind; destruct (run_cmd _ _ _ h) as [[rc h1]|]; [|done]; unfold ret at 1.
  case_match; [done|]; rewrite wrap_u_small by lia.
  rewrite length_app; fold n; rewrite Nat2Z.inj_add.
  replace (Z.of_nat n + rest - Z.of_nat n) with rest by lia; apply parse_loop_fuel; lia.
Qed.

(** The parser runs a sequence of encoded commands and goes on with what follows. *)
Lemma parse_cmds es pre post rest h :
  Forall encodable es -> 0 <= rest ->
  Z.of_nat (length (concat (map encode es))) + rest < 2 ^ 32 ->
  parse (pre ++ concat (map encode es) ++ post) (Z.of_nat (length pre))
    (Z.of_nat (length (concat (map encode es))) + rest) h =
  bind (run_cmds BaseAddr cdo_base (map enc_cmd es)) (fun r =>
    match r with
    | aeg_ok => parse (pre ++ concat (map encode es) ++ post)
                  (Z.of_nat (length (pre ++ concat (map encode es)))) rest
    | e => ret e
    end) h.
Proof.
  intros Hes; revert pre rest h; induction Hes as [|e es He Hes IH]; intros pre rest h Hrest Hlt.
  - cbn [map concat app length run_cmds]; rewrite app_nil_r; done.
  - cbn [map concat run_cmds] in *; rewrite length_app in Hlt |- *.
    rewrite <- !(app_assoc (encode e)), Nat2Z.inj_add, <- Z.add_assoc in *.
    rewrite parse_cmd by (done || lia).
    rewrite bind_assoc; unfold bind at 1 2; destruct (run_cmd _ _ _ h) as [[rc h1]|]; [|done].
    case_match; [done|]; rewrite (app_assoc pre).
    rewrite IH by (done || lia); rewrite <- !app_assoc; done.
Qed.

Lemma run_cmd_total c h :
  exists rc h', run_cmd BaseAddr cdo_base c h = Some (rc, h').
Proof.
  destruct c; cbn [run_cmd]; try (eexists _, _; reflexivity).
  - unfold cdo_reg_blockwrite32, cdo_reg_write32_raw; rewrite (bind_Some _ _ _ _ _ (for_each_exec_ _ _ _)).
    eexists _, _; reflexivity.
  - unfold cdo_reg_maskpoll; edestruct timed_poll_spec as (b & k & Hp & _).
    rewrite (bind_Some _ _ _ _ _ Hp); eexists _, _; reflexivity.
Qed.

Lemma run_cmds_total cs h :
  exists e h', run_cmds BaseAddr cdo_base cs h = Some (e, h') /\
    (e = aeg_ok \/ e = aeg_aie_driver_error).
Proof.
  revert h; induction cs as [|c cs IH]; intros h; cbn [run_cmds]; [eauto|].
  destruct (run_cmd_total c h) as (rc & h1 & Hc); rewrite (bind_Some _ _ _ _ _ Hc).
  case_match; [eexists _, _; split; [reflexivity|auto]|apply IH].
Qed.
End ApplyFacts.

(** * The whole blob *)

(** The checks on the header, as a test on the words of the blob. *)
Definition header_valid (blob : list Z) (len : Z) : bool :=
  match blob with
  | w0 :: w1 :: w2 :: w3 :: w4 :: _ =>
      (kCdoHdrLen <? len / 4) && (w1 =? kCdoHdrIdnWrd) &&
      (Z.lxor (u32 (w0 + w1 + w2 + w3)) 0xFFFFFFFF =? w4) && (w3 <=? len / 4 - kCdoHdrLen)
  | _ => false
  end.

Lemma header_checksum_eq w0 w1 w2 w3 ws h :
  header_checksum (w0 :: w1 :: w2 :: w3 :: ws) h =
    Some (Z.lxor (u32 (w0 + w1 + w2 + w3)) 0xFFFFFFFF, h).
Proof.
  unfold header_checksum; cbn -[wrap_u Z.lxor]; unfold bind, ret, word; cbn -[wrap_u Z.lxor].
  do 3 f_equal; unfold wrap_u.
  rewrite !Z.add_mod_idemp_l by lia; rewrite Z.add_0_l.
  rewrite <- Z.add_assoc, Z.add_mod_idemp_l by lia; f_equal; lia.
Qed.

Lemma cdo_header_valid w0 w2 n ws len :
  kCdoHdrLen + n <= len / 4 -> 0 < len / 4 - kCdoHdrLen ->
  header_valid (cdo_header w0 w2 n ++ ws) len = true.
Proof.
  intros H1 H2; unfold header_valid, cdo_header; cbn [app]; rewrite !Z.eqb_refl.
  destruct (Z.ltb_spec kCdoHdrLen (len / 4)); [|lia].
  destruct (Z.leb_spec n (len / 4 - kCdoHdrLen)); [done|lia].
Qed.

Section LoadFacts.
Context `{rt : AieRt} (BaseAddr cdo_base : Z).

(** Loading an array of words with its size in bytes, on hardware. *)
Definition load (blob : list Z) : M aeg_err :=
  cdo_load false (Some blob) (4 * Z.of_nat (length blob)) (Some BaseAddr) cdo_base.
Abbreviation parse blob buf remaining :=
  (parse_loop blob BaseAddr cdo_base (Z.to_nat remaining) buf remaining).

(** The header decides whether any command is looked at. *)
Lemma load_header blob h :
  load blob h =
    if header_valid blob (4 * Z.of_nat (length blob)) then parse blob kCdoHdrLen (nth 3 blob 0) h
    else Some (aeg_user_error, h).
Proof.
  unfold load, cdo_load, parse_and_apply, header_valid; rewrite (Z.mul_comm 4), Z.div_mul by lia.
  destruct blob as [|w0 [|w1 [|w2 [|w3 [|w4 ws]]]]]; try done.
  destruct (Z.leb_spec (Z.of_nat (length (w0 :: w1 :: w2 :: w3 :: w4 :: ws))) kCdoHdrLen);
    destruct (Z.ltb_spec kCdoHdrLen (Z.of_nat (length (w0 :: w1 :: w2 :: w3 :: w4 :: ws))));
    try done; try lia.
  set (blob := w0 :: w1 :: w2 :: w3 :: w4 :: ws); set (total := Z.of_nat (length blob)) in *.
  change (word blob 1) with (ret w1); change (word blob (kCdoHdrLen - 1)) with (ret w4).
  change (word blob 3) with (ret w3); change (bind (ret ?x) ?k) with (k x); cbv beta.
  destruct (w1 =? kCdoHdrIdnWrd); [|done]; cbn [negb andb].
  unfold bind at 1; unfold blob at 1; rewrite header_checksum_eq.
  change (bind (ret w4) ?k) with (k w4); cbv beta.
  destruct (_ =? w4); [|done]; cbn [negb andb]; change (bind (ret w3) ?k) with (k w3); cbv beta.
  rewrite Z.ltb_antisym; destruct (w3 <=? total - kCdoHdrLen); done.
Qed.

Lemma load_header_ok w0 w2 n ws h :
  0 <= n <= Z.of_nat (length ws) -> (0 < length ws)%nat ->
  load (cdo_header w0 w2 n ++ ws) h = parse (cdo_header w0 w2 n ++ ws) 5 n h.
Proof.
  intros Hn Hws; rewrite load_header, cdo_header_valid; [done| |];
    rewrite (Z.mul_comm 4), Z.div_mul, length_app by lia; unfold kCdoHdrLen; cbn [length cdo_header]; lia.
Qed.

(** Loading a blob with a valid header runs the encoded commands and continues with the
    rest of the blob. *)
Lemma load_cmds w0 w2 es rest post h :
  Forall encodable es -> 0 <= rest <= Z.of_nat (length post) ->
  (0 < length (concat (map encode es) ++ post))%nat ->
  Z.of_nat (length (concat (map encode es))) + rest < 2 ^ 32 ->
  let body := concat (map encode es) in
  let blob := cdo_header w0 w2 (Z.of_nat (length body) + rest) ++ body ++ post in
  load blob h =
  bind (run_cmds BaseAddr cdo_base (map enc_cmd es)) (fun r =>
    match r with
    | aeg_ok => parse blob (5 + Z.of_nat (length body)) rest
    | e => ret e
    end) h.
Proof.
  intros Hes Hrest Hpos Hlt body blob; unfold blob; rewrite load_header_ok;
    [|rewrite length_app; unfold body; lia|done].
  change 5 with (Z.of_nat (length (cdo_header w0 w2 (Z.of_nat (length body) + rest)))) at 1.
  unfold body; rewrite parse_cmds by (done || lia); rewrite length_app, Nat2Z.inj_add; done.
Qed.

(** C6: loading an encoded list of commands performs the register operations the commands
    describe, in order, and stops with [aie_driver_error] at the first operation that
    fails; it always returns and reads nothing outside the blob, whatever follows the
    commands, whatever the free bits of the command words, and whether a length is in
    the short or the long form. *)
Theorem cdo_load_runs_commands w0 w2 es post h :
  Forall encodable es -> (0 < length (concat (map encode es) ++ post))%nat ->
  Z.of_nat (length (concat (map encode es))) < 2 ^ 32 ->
  let body := concat (map encode es) in
  load (cdo_header w0 w2 (Z.of_nat (length body)) ++ body ++ post) h =
    run_cmds BaseAddr cdo_base (map enc_cmd es) h /\
  exists e h', run_cmds BaseAddr cdo_base (map enc_cmd es) h = Some (e, h') /\
    (e = aeg_ok \/ e = aeg_aie_driver_error).
Proof.
  intros Hes Hpos Hlt body; split; [|apply run_cmds_total].
  pose proof (load_cmds w0 w2 es 0 post h Hes ltac:(lia) Hpos ltac:(lia)) as H.
  cbv zeta in H; rewrite Z.add_0_r in H; unfold body; rewrite H; unfold bind.
  destruct (run_cmds _ _ _ h) as [[[] h']|]; try done; apply parse_loop_0.
Qed.

(** a blob whose identification, checksum or length is wrong is refused before any
    register is touched. *)
Theorem cdo_bad_header_untouched blob h :
  header_valid blob (4 * Z.of_nat (length blob)) = false ->
  load blob h = Some (aeg_user_error, h).
Proof. intros Hv; rewrite load_header, Hv; done. Qed.

(** The identifiers the loader knows. *)
Definition known_id (id : Z) : bool :=
  existsb (Z.eqb id) [kCmdMaskWrite; kCmdWrite; kCmdDmaWrite; kCmdMaskPoll64;
                      kCmdMaskWrite64; kCmdWrite64; kCmdNop].

Lemma apply_unknown blob cmd id h :
  known_id id = false -> apply_cmd blob BaseAddr cdo_base cmd id h = Some (inl aeg_user_error, h).
Proof.
  unfold known_id, apply_cmd; cbn [existsb]; rewrite !orb_false_iff.
  intros (H1 & H2 & H3 & H4 & H5 & H6 & H7 & _); rewrite H1, H2, H3, H4, H5, H6, H7; done.
Qed.

(** a command with an unknown identifier ends the load with [user_error]; the commands
    before it have been applied, those after it are not. *)
Theorem cdo_unknown_command_stops w0 w2 es w ws h h' :
  Forall encodable es ->
  known_id (Z.land w kCmdApiIdMask) = false ->
  Z.shiftr (Z.land w kCmdLenMask) kCmdLenShift <> kMaxShortCmdLen ->
  let body := concat (map encode es) in
  Z.of_nat (length body) + Z.of_nat (length (w :: ws)) < 2 ^ 32 ->
  run_cmds BaseAddr cdo_base (map enc_cmd es) h = Some (aeg_ok, h') ->
  load (cdo_header w0 w2 (Z.of_nat (length body) + Z.of_nat (length (w :: ws))) ++
        body ++ w :: ws) h = Some (aeg_user_error, h').
Proof.
  intros Hes Hid Hshort body Hlt Hrun; unfold body.
  rewrite load_cmds by (done || rewrite ?length_app; simpl; lia); fold body.
  rewrite (bind_Some _ _ _ _ _ Hrun).
  set (blob := _ ++ body ++ w :: ws); set (rest := Z.of_nat (length (w :: ws))).
  assert (Hw : word blob (5 + Z.of_nat (length body)) = ret w).
  { pose proof (word_app (cdo_header w0 w2 (Z.of_nat (length body) + rest) ++ body) [w] ws 0
      ltac:(simpl; lia)) as H; rewrite <- app_assoc in H; cbn [app nth] in H; fold blob in H.
    rewrite <- H; f_equal; rewrite length_app; simpl; lia. }
  destruct (Z.to_nat rest) as [|fuel] eqn:Ef; [unfold rest in Ef; simpl in Ef; lia|].
  cbn [parse_loop]; destruct (Z.eqb_spec rest 0); [unfold rest in *; simpl in *; lia|].
  unfold decode_cmd; rewrite Hw; change (bind (ret ?x) ?k) with (k x); cbv beta.
  destruct (Z.eqb_spec (Z.shiftr (Z.land w kCmdLenMask) kCmdLenShift) kMaxShortCmdLen); [done|].
  do 2 (change (bind (ret ?x) ?k) with (k x); cbv beta); case_match; [done|].
  unfold bind; by rewrite apply_unknown.
Qed.
End LoadFacts.

(** * Blobs that no encoder wrote

    The parser checks that a command ends inside the payload, but not that the payload is
    long enough for the command, nor that adding the header to the length word stays below
    2^32.  [sized] is the missing test on the words of the payload. *)
Definition min_payload (id : Z) : Z :=
  if id =? kCmdWrite then 2
  else if (id =? kCmdMaskWrite) || (id =? kCmdWrite64) then 3
  else if id =? kCmdMaskWrite64 then 4
  else 0.

Fixpoint sized (fuel : nat) (ws : list Z) : bool :=
  match fuel, ws with
  | S fuel, w0 :: rest =>
      let id := Z.land w0 kCmdApiIdMask in
      let plen := Z.shiftr (Z.land w0 kCmdLenMask) kCmdLenShift in
      if plen =? kMaxShortCmdLen then
        match rest with
        | [] => false
        | l :: rest =>
            (l <? 2 ^ 32 - 2) && (min_payload id <=? l) && sized fuel (drop (Z.to_nat l) rest)
        end
      else (min_payload id <=? plen) && sized fuel (drop (Z.to_nat plen) rest)
  | _, _ => true
  end.

Lemma short_len_range w0 : 0 <= Z.shiftr (Z.land w0 kCmdLenMask) kCmdLenShift < 256.
Proof.
  unfold kCmdLenMask, kCmdLenShift; rewrite Z.shiftr_land.
  change (Z.shiftr 0xFF0000 16) with (Z.ones 8); rewrite Z.land_ones by lia.
  apply Z.mod_pos_bound; lia.
Qed.

Lemma word_total blob i :
  0 <= i < Z.of_nat (length blob) -> exists w, word blob i = ret w.
Proof.
  intros Hi; destruct (lookup_lt_is_Some_2 blob (Z.to_nat i) ltac:(lia)) as [w Hw].
  exists w; rewrite <- (Z2Nat.id i) by lia; by apply word_lookup.
Qed.

Lemma word_outside blob i : Z.of_nat (length blob) <= i -> word blob i = undefined.
Proof.
  intros Hi; unfold word; case_match; [done|].
  rewrite lookup_ge_None_2; [done|lia].
Qed.

(** Reads the word at an index that is inside the payload. *)
Ltac read W i := let w := fresh "w" in edestruct (W i) as [w ->]; [lia|cbv beta].

Section SizedFacts.
Context `{rt : AieRt} (BaseAddr cdo_base : Z).

Lemma apply_total blob p n sz id h :
  0 <= p -> p + n <= Z.of_nat (length blob) -> 0 <= n < 2 ^ 32 -> min_payload id <= n ->
  exists r h', apply_cmd blob BaseAddr cdo_base
    {| payload := p; payload_len := n; cmd_size := sz |} id h = Some (r, h').
Proof.
  intros Hp Hin Hn Hmin.
  assert (W : forall i {A} (k : Z -> M A) h, 0 <= i < n ->
    exists w, bind (word blob (p + i)) k h = k w h).
  { intros i A k h' Hi; destruct (word_total blob (p + i) ltac:(lia)) as [w Hw].
    exists w; rewrite Hw; done. }
  assert (R : forall c h, exists r h',
    bind (run_cmd BaseAddr cdo_base c) (fun rc => ret (inr rc)) h = Some (r : aeg_err + Z, h')).
  { intros c h'; destruct (run_cmd_total BaseAddr cdo_base c h') as (rc & h1 & Hc).
    rewrite (bind_Some _ _ _ _ _ Hc); eexists _, _; reflexivity. }
  unfold apply_cmd, min_payload in *; cbn [payload payload_len].
  destruct (id =? kCmdWrite).
  { read W 0; read W 1; apply (R (Write _ _)). }
  destruct (id =? kCmdMaskWrite).
  { cbn [orb] in Hmin; read W 0; read W 1; read W 2; apply (R (MaskWrite _ _ _)). }
  destruct (id =? kCmdWrite64).
  { cbn [orb] in Hmin; read W 0; read W 1; read W 2; apply (R (Write64 _ _)). }
  destruct (id =? kCmdMaskWrite64).
  { cbn [orb] in Hmin; read W 0; read W 1; read W 2; read W 3; apply (R (MaskWrite64 _ _ _)). }
  destruct (id =? kCmdMaskPoll64).
  { destruct (Z.ltb_spec n 5); [eexists _, _; reflexivity|].
    read W 0; read W 1; read W 2; read W 3; read W 4; apply (R (MaskPoll64 _ _ _ _)). }
  destruct (id =? kCmdDmaWrite).
  { destruct (Z.ltb_spec n 2); [eexists _, _; reflexivity|]; read W 0; read W 1.
    rewrite wrap_u_small by lia.
    destruct (Z.leb_spec (p + 2 + (n - 2)) (Z.of_nat (length blob))); [|lia].
    unfold cdo_reg_blockwrite32, cdo_reg_write32_raw; rewrite bind_assoc.
    rewrite (bind_Some _ _ _ _ _ (for_each_exec_ _ _ _)); eexists _, _; reflexivity. }
  destruct (id =? kCmdNop); eexists _, _; reflexivity.
Qed.

Lemma parse_sized fuel pre ws post h :
  Forall (fun w => 0 <= w) ws -> Z.of_nat (length ws) < 2 ^ 32 ->
  (length ws <= fuel)%nat -> sized fuel ws = true ->
  exists e h', parse_loop (pre ++ ws ++ post) BaseAddr cdo_base fuel
    (Z.of_nat (length pre)) (Z.of_nat (length ws)) h = Some (e, h').
Proof.
  revert pre ws h; induction fuel as [|fuel IH]; intros pre [|w0 rest] h Hws Hlt Hfuel Hs;
    try (eexists _, _; reflexivity); [simpl in Hfuel; lia|].
  set (ws := w0 :: rest) in *; set (blob := pre ++ ws ++ post).
  pose proof (word_app pre ws post) as Hword; fold blob in Hword.
  pose proof (Hword 0%nat ltac:(simpl; lia)) as W0; rewrite Z.add_0_r in W0; cbn [nth ws] in W0.
  assert (Hgo : forall hd n, (1 <= hd <= 2)%nat -> (hd <= length ws)%nat -> 0 <= n < 2 ^ 32 - 2 ->
    min_payload (Z.land w0 kCmdApiIdMask) <= n ->
    sized fuel (drop (Z.to_nat n) (drop hd ws)) = true ->
    decode_cmd blob (Z.of_nat (length pre)) = ret {| payload := Z.of_nat (length pre) + Z.of_nat hd;
      payload_len := n; cmd_size := u32 (Z.of_nat hd + n) |} ->
    exists e h', parse_loop blob BaseAddr cdo_base (S fuel) (Z.of_nat (length pre))
      (Z.of_nat (length ws)) h = Some (e, h')).
  { intros hd n Hhd Hhl Hn Hmin Hsz Hdec; cbn [parse_loop].
    destruct (Z.eqb_spec (Z.of_nat (length ws)) 0) as [Hz|_]; [simpl in Hz; lia|].
    rewrite Hdec, W0; do 2 (change (bind (ret ?x) ?k) with (k x); cbv beta); cbn [cmd_size].
    rewrite wrap_u_small by lia; destruct (Z.eqb_spec (Z.of_nat hd + n) 0); [lia|]; cbn [orb].
    destruct (Z.ltb_spec (Z.of_nat (length ws)) (Z.of_nat hd + n)) as [|Hfit];
      [eexists _, _; reflexivity|].
    edestruct (apply_total blob (Z.of_nat (length pre) + Z.of_nat hd) n) as (r & h1 & Hap);
      [lia|unfold blob; rewrite !length_app; lia|lia|exact Hmin|].
    rewrite (bind_Some _ _ _ _ _ Hap); destruct r as [e|rc]; [eexists _, _; reflexivity|].
    case_match; [eexists _, _; reflexivity|]; rewrite wrap_u_small by lia.
    destruct (IH (pre ++ take (hd + Z.to_nat n) ws) (drop (hd + Z.to_nat n) ws) h1) as (e & h2 & H2).
    - by apply Forall_drop.
    - rewrite length_drop; lia.
    - rewrite length_drop; lia.
    - rewrite <- drop_drop; exact Hsz.
    - exists e, h2; rewrite <- H2, <- app_assoc, (app_assoc (take _ _)), take_drop; fold blob.
      f_equal; [rewrite length_app, length_take|rewrite length_drop]; lia. }
  cbn [sized ws] in Hs; unfold decode_cmd in Hgo; rewrite W0 in Hgo.
  pose proof (short_len_range w0) as Hr.
  change (bind (ret w0) ?k) with (k w0) in Hgo; cbv beta in Hgo.
  destruct (Z.shiftr (Z.land w0 kCmdLenMask) kCmdLenShift =? kMaxShortCmdLen).
  - destruct rest as [|l rest]; [done|].
    apply andb_true_iff in Hs as [Hs Hsz]; apply andb_true_iff in Hs as [Hl Hm].
    pose proof (Hword 1%nat ltac:(simpl; lia)) as W1; cbn [nth ws] in W1; change (Z.of_nat 1) with 1 in W1.
    rewrite W1 in Hgo; change (bind (ret l) ?k) with (k l) in Hgo; cbv beta in Hgo.
    apply Forall_cons in Hws as [_ Hws]; apply Forall_cons in Hws as [Hl0 _].
    apply (Hgo 2%nat l); try lia; simpl; try lia; done.
  - apply andb_true_iff in Hs as [Hm Hsz].
    apply (Hgo 1%nat (Z.shiftr (Z.land w0 kCmdLenMask) kCmdLenShift)); try lia; simpl; try lia; done.
Qed.

(** whatever the words of a blob with a valid header, the loader returns and reads
    nothing outside the blob as long as every command has the payload its kind needs and
    no length word is within two of 2^32. *)
Theorem cdo_sized_blob_returns blob h :
  header_valid blob (4 * Z.of_nat (length blob)) = true ->
  Forall (fun w => 0 <= w < 2 ^ 32) blob ->
  sized (length blob) (take (Z.to_nat (nth 3 blob 0)) (drop 5 blob)) = true ->
  exists e h', load BaseAddr cdo_base blob h = Some (e, h').
Proof.
  intros Hv Hb Hs; rewrite load_header, Hv.
  unfold header_valid in Hv; rewrite (Z.mul_comm 4), Z.div_mul in Hv by lia.
  destruct blob as [|w0 [|w1 [|w2 [|n [|w4 ws]]]]]; try done.
  rewrite !andb_true_iff in Hv; destruct Hv as [_ Hn]; apply Z.leb_le in Hn.
  cbn [nth drop length] in *; rewrite drop_0 in Hs; unfold kCdoHdrLen in Hn |- *.
  rewrite !Forall_cons in Hb; destruct Hb as (_ & _ & _ & Hnr & _ & Hws).
  set (body := take (Z.to_nat n) ws) in *.
  assert (Hlen : Z.of_nat (length body) = n) by (unfold body; rewrite length_take; lia).
  destruct (parse_sized (S (S (S (S (S (length ws)))))) [w0; w1; w2; n; w4] body
    (drop (Z.to_nat n) ws) h) as (e & h' & H).
  - unfold body; apply Forall_take; eapply Forall_impl; [exact Hws|simpl; lia].
  - lia.
  - unfold body; rewrite length_take; lia.
  - exact Hs.
  - exists e, h'; rewrite <- H; unfold body at 1; rewrite take_drop, Hlen.
    cbn [app length]; apply parse_loop_fuel; lia.
Qed.

(** What follows the commands of a blob, when the parser reaches it. *)
Lemma load_reaches w0 w2 es ws h h' :
  Forall encodable es -> run_cmds BaseAddr cdo_base (map enc_cmd es) h = Some (aeg_ok, h') ->
  (0 < length ws)%nat ->
  let body := concat (map encode es) in
  Z.of_nat (length body) + Z.of_nat (length ws) < 2 ^ 32 ->
  let blob := cdo_header w0 w2 (Z.of_nat (length body) + Z.of_nat (length ws)) ++ body ++ ws in
  exists pre, blob = pre ++ ws ++ [] /\
    load BaseAddr cdo_base blob h =
      parse_loop (pre ++ ws ++ []) BaseAddr cdo_base (length ws) (Z.of_nat (length pre))
        (Z.of_nat (length ws)) h'.
Proof.
  intros Hes Hrun Hpos body Hlt blob; exists (cdo_header w0 w2
    (Z.of_nat (length body) + Z.of_nat (length ws)) ++ body).
  rewrite app_nil_r; split; [unfold blob; by rewrite app_assoc|].
  unfold blob, body; rewrite load_cmds by (done || rewrite ?length_app; lia).
  rewrite (bind_Some _ _ _ _ _ Hrun); rewrite Nat2Z.id, <- app_assoc, length_app, Nat2Z.inj_add.
  done.
Qed.

Lemma parse_step_undefined blob fuel buf rem cmd w h :
  negb (rem =? 0) = true -> decode_cmd blob buf = ret cmd -> word blob buf = ret w ->
  (cmd_size cmd =? 0) || (rem <? cmd_size cmd) = false ->
  apply_cmd blob BaseAddr cdo_base cmd (Z.land w kCmdApiIdMask) h = None ->
  parse_loop blob BaseAddr cdo_base (S fuel) buf rem h = None.
Proof.
  intros Hr Hd Hw Hs Ha; cbn [parse_loop]; apply negb_true_iff in Hr; rewrite Hr, Hd, Hw.
  do 2 (change (bind (ret ?x) ?k) with (k x); cbv beta); rewrite Hs; unfold bind; by rewrite Ha.
Qed.

(** the checks do not keep the loader inside the blob.  After any commands that
    succeed, a [WRITE] without payload at the end of the blob passes the size check and
    its operands are read past the end; and a block write whose length word is 2^32 - 1
    is accepted as one word long, since its size wraps around, and would copy 2^32 - 3
    words. *)
Theorem cdo_unchecked_lengths w0 w2 es hi lo h h' :
  Forall encodable es -> run_cmds BaseAddr cdo_base (map enc_cmd es) h = Some (aeg_ok, h') ->
  let body := concat (map encode es) in
  let blob ws := cdo_header w0 w2 (Z.of_nat (length body) + Z.of_nat (length ws)) ++ body ++ ws in
  Z.of_nat (length body) < 2 ^ 32 - 16 ->
  header_valid (blob [kCmdWrite]) (4 * Z.of_nat (length (blob [kCmdWrite]))) = true /\
  load BaseAddr cdo_base (blob [kCmdWrite]) h = None /\
  load BaseAddr cdo_base (blob [kCmdDmaWrite + 255 * 2 ^ 16; 2 ^ 32 - 1; hi; lo]) h = None.
Proof.
  intros Hes Hrun body blob Hlt; split; [|split].
  - apply cdo_header_valid; rewrite (Z.mul_comm 4), Z.div_mul by lia; unfold kCdoHdrLen, blob;
      rewrite !length_app; simpl; lia.
  - destruct (load_reaches w0 w2 es [kCmdWrite] h h' Hes Hrun) as (pre & _ & H);
      [simpl; lia|simpl; unfold body in *; lia|].
    unfold blob, body; rewrite H; clear H.
    pose proof (word_app pre [kCmdWrite] [] 0 ltac:(simpl; lia)) as W; rewrite Z.add_0_r in W.
    eapply parse_step_undefined; [done| |exact W| |].
    + unfold decode_cmd; rewrite W; reflexivity.
    + done.
    + unfold apply_cmd, bind; cbn [nth]; eval_opcodes; cbn [payload].
      rewrite word_outside; [done|rewrite length_app; unfold kShortCmdHdrLen; simpl; lia].
  - set (ws := [kCmdDmaWrite + 255 * 2 ^ 16; 2 ^ 32 - 1; hi; lo]).
    destruct (load_reaches w0 w2 es ws h h' Hes Hrun) as (pre & Hb & H);
      [simpl; lia|simpl; unfold body in *; lia|].
    assert (Hbl : Z.of_nat (length (pre ++ ws ++ [])) < 2 ^ 32).
    { rewrite <- Hb, !length_app; simpl; unfold body in Hlt; lia. }
    unfold blob, body; rewrite H; clear H Hb.
    pose proof (word_app pre ws []) as W; pose proof (W 0%nat ltac:(simpl; lia)) as W0.
    pose proof (W 1%nat ltac:(simpl; lia)) as W1; rewrite Z.add_0_r in W0.
    pose proof (W 2%nat ltac:(simpl; lia)) as W2; pose proof (W 3%nat ltac:(simpl; lia)) as W3.
    cbn [nth ws] in W0, W1, W2, W3; fold ws in W0, W1, W2, W3.
    eapply parse_step_undefined; [done| |exact W0| |].
    + unfold decode_cmd; rewrite W0; change (Z.of_nat 1) with 1 in W1; cbn [nth ws]; fold ws.
      change (bind (ret ?x) ?k) with (k x); cbv beta.
      change (Z.shiftr _ _ =? kMaxShortCmdLen) with true; cbv iota; rewrite W1; reflexivity.
    + done.
    + unfold apply_cmd; cbn [nth ws]; fold ws; eval_opcodes; cbn [payload payload_len].
      change (2 ^ 32 - 1 <? 2) with false; cbv iota; unfold kLongCmdHdrLen.
      replace (Z.of_nat (length pre) + 2 + 0) with (Z.of_nat (length pre) + Z.of_nat 2) by lia.
      replace (Z.of_nat (length pre) + 2 + 1) with (Z.of_nat (length pre) + Z.of_nat 3) by lia.
      destruct (Z.leb_spec (Z.of_nat (length pre) + 2 + 2 + u32 (2 ^ 32 - 1 - 2))
        (Z.of_nat (length (pre ++ ws ++ [])))) as [Hle|]; [exfalso|by rewrite W2, W3].
      change (u32 (2 ^ 32 - 1 - 2)) with (2 ^ 32 - 3) in Hle; clear W W0 W1 W2 W3.
      assert (length (pre ++ ws ++ []) = (length pre + 4)%nat) by (rewrite length_app; done); lia.
Qed.
End SizedFacts.

(** * Witnesses *)

Definition demo_cmds : list encoded :=
  [{| enc_cmd := Write64 0x20000001000 7; enc_module := 1; enc_high := 0 |};
   {| enc_cmd := Nop (replicate 300 0); enc_module := 1; enc_high := 0 |};
   {| enc_cmd := DmaWrite 0x20000002000 [1; 2]; enc_module := 1; enc_high := 0 |}].

Lemma demo_encodable : Forall encodable demo_cmds.
Proof. repeat constructor; cbn; unfold is_byte; lia. Qed.

Lemma cdo_load_runs_commands_witness :
  let body := concat (map encode demo_cmds) in
  @load ok_rt 0x30000000000 0x20000000000
    (cdo_header 4 0x200 (Z.of_nat (length body)) ++ body) [] =
  Some (aeg_ok, @after ok_rt [] [Xil_Out32 0x30000001000 7; Xil_Out32 0x30000002000 1;
                                 Xil_Out32 0x30000002004 2]).
Proof.
  pose proof (proj1 (@cdo_load_runs_commands ok_rt 0x30000000000 0x20000000000 4 0x200 demo_cmds
    [] [] demo_encodable ltac:(vm_compute; lia) ltac:(vm_compute; done))) as H.
  cbv zeta in H |- *; rewrite app_nil_r in H; rewrite H; vm_compute; reflexivity.
Defined.

Lemma cdo_bad_header_untouched_witness :
  @load ok_rt 0 0 [4; kCdoHdrIdnWrd; 0x200; 1; 0; kCmdNop] [] = Some (aeg_user_error, []).
Proof. apply (@cdo_bad_header_untouched ok_rt); vm_compute; reflexivity. Defined.

Lemma cdo_unknown_command_stops_witness :
  @load ok_rt 0 0 (cdo_header 4 0x200 1 ++ [9]) [] = Some (aeg_user_error, []).
Proof.
  apply (@cdo_unknown_command_stops ok_rt 0 0 4 0x200 [] 9 [] [] []);
    [constructor|reflexivity|discriminate|reflexivity|reflexivity].
Defined.

Lemma cdo_sized_blob_returns_witness :
  exists e h', @load ok_rt 0 0 (cdo_header 4 0x200 2 ++ [kCmdNop + 2 ^ 16; 0]) [] = Some (e, h').
Proof.
  apply (@cdo_sized_blob_returns ok_rt 0 0);
    [vm_compute; reflexivity|repeat constructor; vm_compute; congruence|vm_compute; reflexivity].
Defined.

Lemma cdo_unchecked_lengths_witness :
  @load ok_rt 0 0 (cdo_header 4 0x200 1 ++ [kCmdWrite]) [] = None.
Proof.
  exact (proj1 (proj2 (@cdo_unchecked_lengths ok_rt 0 0 4 0x200 [] 0 0 [] [] (proj2 (Forall_nil _) I)
    eq_refl ltac:(vm_compute; reflexivity)))).
Defined.
