(* ===== verification/Configure.v ===== *)
(** The configuration of a graph ([ConfigureParser], [src/aeg_configure.cc],
    [src/include/aeg_configure.h]): the tables read from the packed configuration, their
    getters, and the objects made from them, one per GMIO, external buffer, run-time parameter
    and shared buffer.

    Objects behind a shared pointer are kept in a store and a pointer is the index of the
    object, because ports keep a pointer they once looked up.  The order in which an
    [unordered_map] is walked is a parameter, [HashOrder]: some order of its entries. *)
From stdpp Require Import base list strings gmap.
From Stdlib Require Import ZArith Lia.
From S2P Require Import Prelude ApiTypes Driver GraphApi Rtp Gmio HostMem PortImpl ExternalBuffer ConfigBin.
Local Open Scope Z_scope.
Local Open Scope aeg_scope.

(** The entries of an [unordered_map], in the order it is walked. *)
Class HashOrder := {
  entries : forall {V : Type}, gmap string V -> list (string * V);
  entries_perm : forall {V : Type} (m : gmap string V), entries m ≡ₚ map_to_list m
}.

(** One such order. *)
Definition list_order : HashOrder.
Proof. refine {| entries := fun V m => map_to_list m |}; done. Defined.

(** * State *)

(** The packed tables linked into the program. *)
Record packed_tables := {
  driverconfig_bin : list Z;
  aiecompilerconfig_bin : list Z;
  graphconfig_bin : list Z;
  gmiosconfig_bin : list Z;
  pliosconfig_bin : list Z;
  externalbuffersconfig_bin : list Z;
  sharedbuffersconfig_bin : list Z;
  rtpsconfig_bin : list Z
}.

(** The tables of [ConfigureParser]: they do not change after construction. *)
Record config_tables := {
  dconfig : driver_config;
  partitions : list partition_config;
  aiecompilerconfig : aiecompiler_config;
  gconfigs : gmap string graph_config;
  gmioconfigs : gmap string gmio_config;
  plioconfigs : gmap string plio_config;
  externalbufferconfigs : gmap string external_buffer_config;
  sharedbufferconfigs : gmap string shared_buffer_config;
  rtpconfigs : gmap string rtp_config
}.

(** [src/include/aeg_configure.h:124-136] [ConfigureParser]
    [None] in a table of objects is a null pointer. *)
Record ConfigureParser := mkCfg {
  tables : config_tables;
  gmio_store : list GmioApiImpl;
  gmio_api_impls : gmap string nat;
  ebuffer_store : list ExternalBufferApiImpl;
  ebuffer_api_impls : gmap string nat;
  rtp_api_impls : gmap string (option RtpApiImpl);
  sharedbuffer_api_impls : gmap string (option SharedBufferApiImpl)
}.

Definition set_gmios (st : list GmioApiImpl) (t : gmap string nat) (c : ConfigureParser) :=
  mkCfg (tables c) st t (ebuffer_store c) (ebuffer_api_impls c) (rtp_api_impls c)
    (sharedbuffer_api_impls c).
Definition set_ebuffers (st : list ExternalBufferApiImpl) (t : gmap string nat) (c : ConfigureParser) :=
  mkCfg (tables c) (gmio_store c) (gmio_api_impls c) st t (rtp_api_impls c)
    (sharedbuffer_api_impls c).
Definition set_rtps (t : gmap string (option RtpApiImpl)) (c : ConfigureParser) :=
  mkCfg (tables c) (gmio_store c) (gmio_api_impls c) (ebuffer_store c) (ebuffer_api_impls c) t
    (sharedbuffer_api_impls c).
Definition set_shareds (t : gmap string (option SharedBufferApiImpl)) (c : ConfigureParser) :=
  mkCfg (tables c) (gmio_store c) (gmio_api_impls c) (ebuffer_store c) (ebuffer_api_impls c)
    (rtp_api_impls c) t.

(** * Loading *)

(** [src/aeg_configure.cc:1018-1082] [ConfigureParser::Load]
    with the [Load*] steps it calls; [size_t] is the width of [size_t] in bytes.
    [None]: a table that does not parse, or no overlay column for the graph tables. *)
Definition Load (size_t : nat) (b : packed_tables) : option config_tables :=
  '(dp, _) ← load_driver_config [] (driverconfig_bin b);
  let '(dc, ps) := dp : driver_config * list partition_config in
  '(ac, _) ← load_aiecompiler_config (aiecompilerconfig_bin b);
  psc ← head (partition_overlay_start_cols dc);
  gs ← load_graphs size_t ps (s32 psc) (graphconfig_bin b);
  ms ← load_gmios (gmiosconfig_bin b);
  pls ← load_plios (pliosconfig_bin b);
  es ← load_external_buffers (externalbuffersconfig_bin b);
  ss ← load_shared_buffers size_t (sharedbuffersconfig_bin b);
  rs ← load_rtps (rtpsconfig_bin b);
  Some {| dconfig := dc; partitions := ps; aiecompilerconfig := ac; gconfigs := gs;
          gmioconfigs := ms; plioconfigs := pls; externalbufferconfigs := es;
          sharedbufferconfigs := ss; rtpconfigs := rs |}.

(** [src/aeg_configure.cc:880-891] [ConfigureParser::ConfigureParser] *)
Definition configure_parser_new (size_t : nat) (b : packed_tables) : option ConfigureParser :=
  t ← Load size_t b; Some (mkCfg t [] ∅ [] ∅ ∅ ∅).

(** * Getters *)

(** [src/aeg_configure.cc:893-893] [ConfigureParser::get_driver_config] *)
Definition get_driver_config (c : ConfigureParser) : driver_config := dconfig (tables c).
(** [src/aeg_configure.cc:895-895] [ConfigureParser::get_aiecompiler_config] *)
Definition get_aiecompiler_config (c : ConfigureParser) : aiecompiler_config := aiecompilerconfig (tables c).
(** [src/aeg_configure.cc:897-904] [ConfigureParser::get_graph_config] *)
Definition get_graph_config (graph_name : string) (c : ConfigureParser) : option graph_config :=
  gconfigs (tables c) !! graph_name.
(** [src/aeg_configure.cc:906-915] [ConfigureParser::get_gmio_config] *)
Definition get_gmio_config (name : string) (c : ConfigureParser) : option gmio_config :=
  gmioconfigs (tables c) !! name.
(** [src/aeg_configure.cc:929-938] [ConfigureParser::get_plio_config] *)
Definition get_plio_config (name : string) (c : ConfigureParser) : option plio_config :=
  plioconfigs (tables c) !! name.
(** [src/aeg_configure.cc:940-947] [ConfigureParser::get_externalbuffer_config] *)
Definition get_externalbuffer_config (name : string) (c : ConfigureParser) : option external_buffer_config :=
  externalbufferconfigs (tables c) !! name.
(** [src/aeg_configure.cc:949-963] [ConfigureParser::get_shared_buffer_config] *)
Definition get_shared_buffer_config (name : string) (c : ConfigureParser) : option shared_buffer_config :=
  sharedbufferconfigs (tables c) !! name.
(** [src/aeg_configure.cc:965-972] [ConfigureParser::get_rtp_config] *)
Definition get_rtp_config (name : string) (c : ConfigureParser) : option rtp_config :=
  rtpconfigs (tables c) !! name.

(** [src/aeg_configure.cc:974-982] [ConfigureParser::isRTPorSharedBuffer] *)
Definition isRTPorSharedBuffer (name : string) (c : ConfigureParser) : Z :=
  match sharedbufferconfigs (tables c) !! name with
  | Some _ => 1
  | None => match rtpconfigs (tables c) !! name with Some _ => 0 | None => -1 end
  end.

(** [src/aeg_configure.cc:984-991] [ConfigureParser::get_gmio_api_impl] *)
Definition get_gmio_api_impl (name : string) (c : ConfigureParser) : option nat := gmio_api_impls c !! name.
(** [src/aeg_configure.cc:993-1000] [ConfigureParser::get_externalbuffer_api_impl] *)
Definition get_externalbuffer_api_impl (name : string) (c : ConfigureParser) : option nat :=
  ebuffer_api_impls c !! name.
(** [src/aeg_configure.cc:1002-1008] [ConfigureParser::get_rtp_api_impl]
    [operator[]] leaves a null pointer under an unknown name. *)
Definition get_rtp_api_impl (name : string) (c : ConfigureParser) : option RtpApiImpl * ConfigureParser :=
  match rtp_api_impls c !! name with
  | Some p => (p, c)
  | None => (None, set_rtps (<[name := None]> (rtp_api_impls c)) c)
  end.
(** [src/aeg_configure.cc:1010-1016] [ConfigureParser::get_sharedbuffer_api_impl] *)
Definition get_sharedbuffer_api_impl (name : string) (c : ConfigureParser)
  : option SharedBufferApiImpl * ConfigureParser :=
  match sharedbuffer_api_impls c !! name with
  | Some p => (p, c)
  | None => (None, set_shareds (<[name := None]> (sharedbuffer_api_impls c)) c)
  end.

(** * Making the objects *)

(** [src/aeg_configure.cc:1085-1112] [map_err_code] *)
Definition map_err_code (e : err_code) : aeg_err :=
  match e with
  | ok => aeg_ok
  | user_error => aeg_user_error
  | internal_error => aeg_internal_error
  | aie_driver_error => aeg_aie_driver_error
  | resource_unavailable => aeg_resource_unavailable
  end.

Section Configure.
Context `{rt : AieRt} {HO : HashOrder}.

(** [src/aeg_configure.cc:917-927] [ConfigureParser::get_plio_config_logicname]
    The first entry of that logical name. *)
Definition get_plio_config_logicname (name : string) (c : ConfigureParser) : option plio_config :=
  '(_, e) ← list_find (fun e => plio_logicalName (snd e) = name) (entries (plioconfigs (tables c)));
  Some (snd e).

(** A new object in a store and its pointer under a name. *)
Definition add_gmio (name : string) (p : GmioApiImpl) (c : ConfigureParser) : ConfigureParser :=
  set_gmios (gmio_store c ++ [p]) (<[name := length (gmio_store c)]> (gmio_api_impls c)) c.
Definition add_ebuffer (name : string) (p : ExternalBufferApiImpl) (c : ConfigureParser) : ConfigureParser :=
  set_ebuffers (ebuffer_store c ++ [p]) (<[name := length (ebuffer_store c)]> (ebuffer_api_impls c)) c.

(** [src/aeg_configure.cc:1121-1135] [ConfigureParser::ConfigureGmios] the loop
    The descriptor of a GMIO object is its own; its place in the store names it. *)
Fixpoint configure_gmios (m : XAieMem) (items : list (string * gmio_config)) (c : ConfigureParser)
  : M (aeg_err * ConfigureParser) :=
  match items with
  | [] => ret (aeg_ok, c)
  | (name, cfg) :: items =>
      let* (e, g) := gmio_configure (gmio_api_new (Some cfg) (Z.of_nat (length (gmio_store c)))) in
      if negb (is_ok e) then ret (map_err_code e, c)
      else configure_gmios m items
             (add_gmio name {| aie2gm_buf_queue := []; impl_gmio := g; gmioconfig := cfg; gmio_mem := m |} c)
  end.

(** [src/aeg_configure.cc:1115-1137] [ConfigureParser::ConfigureGmios] *)
Definition ConfigureGmios (xaiemem : option XAieMem) (c : ConfigureParser) : M (aeg_err * ConfigureParser) :=
  match xaiemem with
  | None => ret (aeg_null_argument, c)
  | Some m => configure_gmios m (entries (gmioconfigs (tables c))) c
  end.

(** [src/aeg_configure.cc:1139-1154] [ConfigureParser::ConfigureExternalBuffers] *)
Definition ConfigureExternalBuffers (xaiemem : option XAieMem) (c : ConfigureParser)
  : aeg_err * ConfigureParser :=
  match xaiemem with
  | None => (aeg_null_argument, c)
  | Some m =>
      (aeg_ok, foldl (fun c '(name, cfg) => add_ebuffer name (external_buffer_new cfg m) c) c
                 (entries (externalbufferconfigs (tables c))))
  end.

(** [src/aeg_configure.cc:1156-1169] [ConfigureParser::ConfigureRtps]
    [has_graph]: the pointer to the graph is not null. *)
Definition ConfigureRtps (has_graph : bool) (c : ConfigureParser) : aeg_err * ConfigureParser :=
  if negb has_graph then (aeg_null_argument, c)
  else (aeg_ok, foldl (fun c '(name, cfg) =>
          set_rtps (<[name := Some {| impl_rtpConfig := cfg; impl_portName := name |}]> (rtp_api_impls c)) c)
        c (entries (rtpconfigs (tables c)))).

(** [src/aeg_configure.cc:1171-1184] [ConfigureParser::ConfigureSharedBuffers] *)
Definition ConfigureSharedBuffers (has_graph : bool) (c : ConfigureParser) : aeg_err * ConfigureParser :=
  if negb has_graph then (aeg_null_argument, c)
  else (aeg_ok, foldl (fun c '(name, cfg) =>
          set_shareds (<[name := Some {| impl_bufferConfig := cfg; impl_bufferName := name |}]>
                         (sharedbuffer_api_impls c)) c)
        c (entries (sharedbufferconfigs (tables c)))).
End Configure.

(** * Properties *)

Section ConfigureFacts.
Context `{rt : AieRt} {HO : HashOrder}.

(** The object of a name, at place [i] of the store: configured as the table says, with an
    idle queue and a descriptor of its own. *)
Definition gmio_object (m : XAieMem) (name : string) (cfg : gmio_config) (i : nat)
    (c : ConfigureParser) : Prop :=
  get_gmio_api_impl name c = Some i /\
  exists p, gmio_store c !! i = Some p /\ gmioconfig p = cfg /\ gmio_mem p = m /\
    gmio_inv cfg (impl_gmio p) /\ shimDmaInst (impl_gmio p) = Z.of_nat i /\
    enqueuedBDs (impl_gmio p) = [] /\ aie2gm_buf_queue p = [].

(** Nothing else changed: the old objects are where they were. *)
Definition gmio_extends (names : list string) (c c' : ConfigureParser) : Prop :=
  tables c' = tables c /\ ebuffer_store c' = ebuffer_store c /\
  ebuffer_api_impls c' = ebuffer_api_impls c /\ rtp_api_impls c' = rtp_api_impls c /\
  sharedbuffer_api_impls c' = sharedbuffer_api_impls c /\
  gmio_store c `prefix_of` gmio_store c' /\
  forall n, n ∉ names -> gmio_api_impls c' !! n = gmio_api_impls c !! n.

Lemma gmio_extends_refl c : gmio_extends [] c c.
Proof. split_and!; done. Qed.

Lemma gmio_extends_trans l1 l2 c1 c2 c3 :
  gmio_extends l1 c1 c2 -> gmio_extends l2 c2 c3 -> gmio_extends (l1 ++ l2) c1 c3.
Proof.
  intros (?&?&?&?&?&P1&K1) (?&?&?&?&?&P2&K2); split_and!; try congruence; [by etrans|].
  intros n [? ?]%not_elem_of_app; rewrite K2, K1; done.
Qed.

Lemma gmio_object_extends m name cfg i names c c' :
  name ∉ names -> gmio_extends names c c' -> gmio_object m name cfg i c -> gmio_object m name cfg i c'.
Proof.
  intros Hn (_&_&_&_&_&P&H) (E1 & p & E2 & Hp); unfold gmio_object, get_gmio_api_impl in *.
  rewrite H by done; split; [done|]; exists p; split; [eapply prefix_lookup_Some; done|done].
Qed.

Lemma gmio_configure_desc g h e g' h' :
  gmio_configure g h = Some ((e, g'), h') ->
  shimDmaInst g' = shimDmaInst g /\ enqueuedBDs g' = enqueuedBDs g.
Proof.
  unfold gmio_configure; destruct (pGMIOConfig g); [|by intros [= <- <- <-]].
  destruct (to_aie _); [|by intros [= <- <- <-]].
  unfold status, status_out, bind, exec, ret; simpl.
  destruct (for_each _ _ _ _) as [[ds h1]|]; [|done].
  destruct (negb _); intros [= <- <- <-]; done.
Qed.

Lemma add_gmio_extends name p c : gmio_extends [name] c (add_gmio name p c).
Proof.
  split_and!; try done; [by apply prefix_app_r|].
  intros n [? _]%not_elem_of_cons; simpl; rewrite lookup_insert_ne by congruence; done.
Qed.

(** What the loop over the table does, whether it ends or stops at an error. *)
Lemma configure_gmios_spec m items c h e c' h' :
  NoDup items.*1 ->
  configure_gmios m items c h = Some ((e, c'), h') ->
  exists done_ rest, items = done_ ++ rest /\ gmio_extends done_.*1 c c' /\
    (forall k name cfg, done_ !! k = Some (name, cfg) ->
       gmio_object m name cfg (length (gmio_store c) + k) c') /\
    (e = aeg_ok <-> rest = []).
Proof.
  revert c h; induction items as [|[name cfg] items IH]; intros c h Hn; simpl.
  { intros [= <- <- <-]; exists [], []; split_and!; [done|apply gmio_extends_refl|done|done]. }
  apply NoDup_cons in Hn as [Hname Hn]; intros ([e1 g] & h1 & Hg & Hk)%bind_inv.
  unfold is_ok in Hk; case_bool_decide as He; simpl in Hk.
  2: { injection Hk as <- <- <-; exists [], ((name, cfg) :: items).
       split_and!; [done|apply gmio_extends_refl|done|].
       split; [destruct e1; done|done]. }
  subst e1; set (p := {| aie2gm_buf_queue := []; impl_gmio := g; gmioconfig := cfg; gmio_mem := m |}) in Hk.
  destruct (IH _ _ Hn Hk) as (dn & rest & -> & Hx & Ho & Hr).
  pose proof (add_gmio_extends name p c) as Ha.
  exists ((name, cfg) :: dn), rest; split_and!; [done| | |done].
  - apply (gmio_extends_trans [name] dn.*1 c _ c' Ha Hx).
  - intros [|k] n' cfg' E; simpl in E.
    + injection E as <- <-; apply (gmio_object_extends m name cfg _ dn.*1 (add_gmio name p c)); [|done|].
      { intros Hin; apply Hname; refine (eq_ind_r (fun l => name ∈ l) _ (fmap_app fst dn rest)).
        apply elem_of_app; by left. }
      unfold gmio_object, get_gmio_api_impl; simpl.
      rewrite lookup_insert_eq, Nat.add_0_r; split; [done|]; exists p.
      rewrite lookup_app_r, Nat.sub_diag by lia; split_and!; try done.
      * apply (gmio_configure_inv cfg (Z.of_nat (length (gmio_store c))) h ok g h1); done.
      * apply (gmio_configure_desc _ _ _ _ _ Hg).
      * apply (gmio_configure_desc _ _ _ _ _ Hg).
    + specialize (Ho _ _ _ E); simpl in Ho; rewrite length_app in Ho; simpl in Ho.
      replace (length (gmio_store c) + S k)%nat with (length (gmio_store c) + 1 + k)%nat by lia; done.
Qed.

Lemma gmio_configure_total g h : exists e g' h', gmio_configure g h = Some ((e, g'), h').
Proof.
  unfold gmio_configure; destruct (pGMIOConfig g) as [c|]; [|by eexists _, _, _].
  destruct (to_aie c); [|by eexists _, _, _].
  unfold status, status_out, bind, exec, ret; simpl.
  match goal with |- context [for_each ?f _ _ _] =>
    assert (Hf : forall l b h0, exists b' h', for_each f l b h0 = Some (b', h')) end.
  { clear; induction l as [|x l IH]; intros b h0; simpl; [by eexists _, _|].
    unfold bind, exec, ret; simpl; apply IH. }
  match goal with |- context [for_each ?f ?l ?b ?h0] => destruct (Hf l b h0) as (ds & h1 & ->) end.
  destruct (negb _); by eexists _, _, _.
Qed.

Lemma configure_gmios_total m items c h : exists e c' h', configure_gmios m items c h = Some ((e, c'), h').
Proof.
  revert c h; induction items as [|[name cfg] items IH]; intros c h; simpl; [by eexists _, _, _|].
  destruct (gmio_configure_total (gmio_api_new (Some cfg) (Z.of_nat (length (gmio_store c)))) h)
    as (e & g & h1 & E); rewrite (bind_Some _ _ _ _ _ E).
  destruct (negb _); [by eexists _, _, _|apply IH].
Qed.

Lemma entries_NoDup {V} (m : gmap string V) : NoDup (entries m).*1.
Proof. rewrite entries_perm; apply NoDup_fst_map_to_list. Qed.

Lemma entries_lookup {V} (m : gmap string V) k v : (k, v) ∈ entries m <-> m !! k = Some v.
Proof. rewrite entries_perm; apply elem_of_map_to_list. Qed.

(** Configuring the GMIOs always returns, whatever the order in which the table is walked
    and whatever the driver answers; it keeps every object made before and touches only the
    names of the table.  When it reports success, every GMIO of the table has an object of its
    own, made after the call started, with the configuration of the table, none of
    its channel's buffer descriptors enqueued and each of them available once. *)
Theorem gmio_objects_configured m c h :
  exists e c' h', ConfigureGmios (Some m) c h = Some ((e, c'), h') /\
    gmio_extends (entries (gmioconfigs (tables c))).*1 c c' /\
    (e = aeg_ok -> exists place : string -> nat,
       (forall name cfg, gmioconfigs (tables c) !! name = Some cfg ->
          gmio_object m name cfg (place name) c' /\ (length (gmio_store c) <= place name)%nat) /\
       (forall n1 n2 c1 c2, gmioconfigs (tables c) !! n1 = Some c1 ->
          gmioconfigs (tables c) !! n2 = Some c2 -> place n1 = place n2 -> n1 = n2)).
Proof.
  unfold ConfigureGmios; set (items := entries (gmioconfigs (tables c))).
  destruct (configure_gmios_total m items c h) as (e & c' & h' & E); exists e, c', h'.
  destruct (configure_gmios_spec m items c h e c' h') as (dn & rest & Hi & Hx & Ho & Hr);
    [apply entries_NoDup|done|].
  split_and!; [done| |].
  - rewrite Hi; destruct Hx as (?&?&?&?&?&?&Hn); split_and!; try done.
    intros n Hin; apply Hn; intros Hd; apply Hin.
    refine (eq_ind_r (fun l => n ∈ l) _ (fmap_app fst dn rest)); apply elem_of_app; by left.
  - intros He; apply Hr in He; subst rest; rewrite app_nil_r in Hi; subst dn.
    exists (fun name => default 0%nat (gmio_api_impls c' !! name)).
    assert (Hk : forall name cfg, gmioconfigs (tables c) !! name = Some cfg ->
      exists k, items !! k = Some (name, cfg) /\ gmio_object m name cfg (length (gmio_store c) + k) c').
    { intros name cfg H; apply entries_lookup, list_elem_of_lookup in H as [k Hk]; eauto. }
    split.
    + intros name cfg H; destruct (Hk _ _ H) as (k & _ & Hok).
      pose proof (proj1 Hok) as Hl; unfold get_gmio_api_impl in Hl; rewrite Hl; simpl; split; [done|lia].
    + intros n1 n2 c1 c2 H1 H2 Hp.
      destruct (Hk _ _ H1) as (k1 & E1 & Ho1 & _), (Hk _ _ H2) as (k2 & E2 & Ho2 & _).
      unfold get_gmio_api_impl in *; rewrite Ho1, Ho2 in Hp; simpl in Hp.
      assert (k1 = k2) as -> by lia; congruence.
Qed.
End ConfigureFacts.
