(* ===== verification/Event.v ===== *)
(** The profiling handle table ([src/include/event.h]).

    A profiling run acquires counters through the profiling layer and is named by
    its index in a table.  The lookup of ports in the compiled configuration and the
    profiling layer are an interface, [Profiling]: what the table relies on is
    only that they are functions of their state.  Profile.v is the instance. *)
From stdpp Require Import base list strings.
From Stdlib Require Import ZArith Lia.
From S2P Require Import Prelude ApiTypes.
Local Open Scope Z_scope.

(** The configuration a port resolves to; a port that is neither GMIO nor PLIO
    gives the null PLIO. *)
Inductive shim_config := shim_gmio (c : gmio_config) | shim_plio (c : option plio_config).

(** [src/include/aeg_baremetal_api.h:56-70] [io_profiling_option] *)
Definition io_total_stream_running_to_idle_cycles : Z := 0x20.
Definition io_stream_start_to_bytes_transferred_cycles : Z := 0x21.
Definition io_stream_start_difference_cycles : Z := 0x22.
Definition io_stream_running_event_count : Z := 0x23.

(** What the profiling layer is asked to measure. *)
Inductive profile_req :=
| stream_running_to_idle (s : shim_config)
| stream_start_to_transfer_complete (s : shim_config) (value : Z)
| start_time_difference (s1 s2 : shim_config)
| stream_running_event_count (s : shim_config).

(** The configuration and the profiling layer: [P] is their state, [R] a resource. *)
Class Profiling (P R : Type) := {
  get_gmio_config : P -> string -> option gmio_config;
  get_plio_config : P -> string -> option plio_config;
  get_plio_config_logicname : P -> string -> option plio_config;
  profile : profile_req -> P -> err_code * list R * P;
  prof_read : list R -> bool -> P -> Z * P;
  prof_stop : list R -> P -> P
}.

Section Event.
Context {P R : Type} `{Prof : Profiling P R}.

(** [src/include/event.h:15-18] [event_record] *)
Record event_record := { ev_option : Z; acquired_resources : list R }.

(** [src/include/event.h:13-20] [event] *)
Abbreviation table := (list event_record).

(** [src/include/event.h:22-41] [event::get_shim_config]
    A missing or ambiguous name is only logged; GMIO wins. *)
Definition get_shim_config (p : P) (port_name : string) : shim_config :=
  let plio := match get_plio_config p port_name with
              | Some c => Some c
              | None => get_plio_config_logicname p port_name
              end in
  match get_gmio_config p port_name with
  | Some g => shim_gmio g
  | None => shim_plio plio
  end.

(** A started run is appended and its index is its handle; the index is an
    [int32_t]. *)
Definition record_run (option_ : Z) (req : profile_req) (t : table) (p : P) : Z * table * P :=
  let '(e, rs, p) := profile req p in
  if is_ok e then (s32 (Z.of_nat (length t)),
                   t ++ [{| ev_option := option_; acquired_resources := rs |}], p)
  else (-1, t, p).

(** [src/include/event.h:43-53] [event::start_profiling_run_idle] *)
Definition start_profiling_run_idle (port_name : string) (t : table) (p : P) : Z * table * P :=
  record_run io_total_stream_running_to_idle_cycles
    (stream_running_to_idle (get_shim_config p port_name)) t p.

(** [src/include/event.h:55-65] [event::start_profiling_start_bytes] *)
Definition start_profiling_start_bytes (port_name : string) (value : Z) (t : table) (p : P)
  : Z * table * P :=
  record_run io_stream_start_to_bytes_transferred_cycles
    (stream_start_to_transfer_complete (get_shim_config p port_name) value) t p.

(** [src/include/event.h:67-79] [event::start_profiling_diff_cycles] *)
Definition start_profiling_diff_cycles (port1_name port2_name : string) (t : table) (p : P)
  : Z * table * P :=
  record_run io_stream_start_difference_cycles
    (start_time_difference (get_shim_config p port1_name) (get_shim_config p port2_name)) t p.

(** [src/include/event.h:81-91] [event::start_profiling_event_count] *)
Definition start_profiling_event_count (port_name : string) (t : table) (p : P) : Z * table * P :=
  record_run io_stream_running_event_count
    (stream_running_event_count (get_shim_config p port_name)) t p.

(** [src/include/event.h:102-128] [event::start_profiling] two ports *)
Definition start_profiling2 (port_name1 port_name2 : string) (option_ value : Z) (t : table) (p : P)
  : Z * table * P :=
  if option_ =? io_total_stream_running_to_idle_cycles then start_profiling_run_idle port_name1 t p
  else if option_ =? io_stream_start_to_bytes_transferred_cycles then
    start_profiling_start_bytes port_name1 value t p
  else if option_ =? io_stream_start_difference_cycles then
    start_profiling_diff_cycles port_name1 port_name2 t p
  else if option_ =? io_stream_running_event_count then start_profiling_event_count port_name1 t p
  else (0, t, p).

(** [src/include/event.h:95-101] [event::start_profiling] one port *)
Definition start_profiling (port_name : string) (option_ value : Z) (t : table) (p : P)
  : Z * table * P :=
  if option_ =? io_stream_start_difference_cycles then (-1, t, p)
  else start_profiling2 port_name "" option_ value t p.

(** [event_records[static_cast<size_t>(h)]] behind its bounds check *)
Definition record_at (t : table) (h : Z) : option event_record :=
  if u64 h <? Z.of_nat (length t) then t !! Z.to_nat (u64 h) else None.

(** [src/include/event.h:129-139] [event::read_profiling] *)
Definition read_profiling (h : Z) (t : table) (p : P) : Z * P :=
  match record_at t h with
  | Some r => prof_read (acquired_resources r)
                (ev_option r =? io_stream_start_difference_cycles) p
  | None => (0, p)
  end.

(** [src/include/event.h:140-148] [event::stop_profiling] *)
Definition stop_profiling (h : Z) (t : table) (p : P) : P :=
  match record_at t h with
  | Some r => prof_stop (acquired_resources r) p
  | None => p
  end.

(** ** Properties *)

(** The operations a client interleaves. *)
Inductive event_op :=
| op_start (port_name : string) (option_ value : Z)
| op_start2 (port_name1 port_name2 : string) (option_ value : Z)
| op_read (h : Z)
| op_stop (h : Z).

Definition event_step (op : event_op) (s : table * P) : table * P :=
  let '(t, p) := s in
  match op with
  | op_start n o v => let '(_, t, p) := start_profiling n o v t p in (t, p)
  | op_start2 n1 n2 o v => let '(_, t, p) := start_profiling2 n1 n2 o v t p in (t, p)
  | op_read h => let '(_, p) := read_profiling h t p in (t, p)
  | op_stop h => (t, stop_profiling h t p)
  end.

Lemma record_run_spec o req t p :
  let '(h, t', _) := record_run o req t p in
  (h = -1 /\ t' = t) \/
  exists r, h = s32 (Z.of_nat (length t)) /\ t' = t ++ [r] /\ ev_option r = o.
Proof.
  unfold record_run; destruct (profile req p) as [[e rs] p']; destruct (is_ok e); [right|by left].
  eexists; done.
Qed.

Lemma start_profiling2_spec n1 n2 o v t p :
  let '(h, t', _) := start_profiling2 n1 n2 o v t p in
  (t' = t /\ (h = -1 \/ h = 0)) \/
  exists r, h = s32 (Z.of_nat (length t)) /\ t' = t ++ [r] /\ ev_option r = o.
Proof.
  unfold start_profiling2, start_profiling_run_idle, start_profiling_start_bytes,
    start_profiling_diff_cycles, start_profiling_event_count.
  repeat match goal with
  | |- context [if o =? ?x then _ else _] => destruct (Z.eqb_spec o x) as [->|]
  end;
  try match goal with
  | |- context [record_run ?x ?y t p] =>
      pose proof (record_run_spec x y t p) as H; destruct (record_run x y t p) as [[h t'] p'];
      destruct H as [[-> ->]|H]; [left; auto|right; exact H]
  end; by left; auto.
Qed.

Lemma start_profiling2_prefix n1 n2 o v t p h t' p' :
  start_profiling2 n1 n2 o v t p = (h, t', p') -> t `prefix_of` t'.
Proof.
  intros E; pose proof (start_profiling2_spec n1 n2 o v t p) as H; rewrite E in H.
  destruct H as [[-> _]|(r & _ & -> & _)]; [done|by eexists].
Qed.

Lemma event_step_prefix op t p t' p' :
  event_step op (t, p) = (t', p') -> t `prefix_of` t'.
Proof.
  destruct op as [n o v|n1 n2 o v|h|h]; simpl; unfold start_profiling; intros H.
  - destruct (o =? _); [simplify_eq; done|].
    destruct (start_profiling2 n "" o v t p) as [[h t1] p1] eqn:E; simplify_eq.
    by eapply start_profiling2_prefix.
  - destruct (start_profiling2 n1 n2 o v t p) as [[h t1] p1] eqn:E; simplify_eq.
    by eapply start_profiling2_prefix.
  - destruct (read_profiling h t p); simplify_eq; done.
  - simplify_eq; done.
Qed.

(** a run that was started keeps its handle: when [start_profiling] extends the
    table, the handle it returns names, after any further operations, the record of
    the requested option with the same resources, so reading it asks the profiling
    layer for exactly those. *)
Theorem handle_stays_valid n1 n2 o v t p h t' p' ops t'' p'' :
  start_profiling2 n1 n2 o v t p = (h, t', p') -> t' <> t ->
  Z.of_nat (length t) < 2 ^ 31 ->
  foldl (fun s op => event_step op s) (t', p') ops = (t'', p'') ->
  exists r, ev_option r = o /\ record_at t' h = Some r /\ record_at t'' h = Some r /\
    read_profiling h t'' p'' =
      prof_read (acquired_resources r) (o =? io_stream_start_difference_cycles) p''.
Proof.
  intros Hs Hne Hlen Hops.
  pose proof (start_profiling2_spec n1 n2 o v t p) as H; rewrite Hs in H.
  destruct H as [[? _]|(r & -> & -> & Ho)]; [done|].
  assert (Hh : s32 (Z.of_nat (length t)) = Z.of_nat (length t)) by (apply wrap_s_small; lia).
  assert (Hpre : (t ++ [r]) `prefix_of` t'').
  { clear Hs Hne; revert Hops; generalize (t ++ [r]) as t1; intros t1; revert t1 p'.
    induction ops as [|op ops IH]; intros t1 p1; cbn [foldl]; [intros; simplify_eq; done|].
    destruct (event_step op (t1, p1)) as [t2 p2] eqn:E; intros H.
    etransitivity; [eapply event_step_prefix, E|eapply IH, H]. }
  assert (Hat : forall t1, (t ++ [r]) `prefix_of` t1 ->
      record_at t1 (s32 (Z.of_nat (length t))) = Some r).
  { intros t1 [k ->]; unfold record_at; rewrite Hh, wrap_u_small by lia.
    rewrite !length_app; simpl; destruct (Z.ltb_spec (Z.of_nat (length t))
      (Z.of_nat (length t + 1 + length k))); [|lia].
    rewrite Nat2Z.id, <- app_assoc; apply list_lookup_middle; done. }
  exists r; split; [done|]; split; [by apply Hat|]; split; [by apply Hat|].
  unfold read_profiling; rewrite Hat, Ho by done; done.
Qed.

(** An unknown option starts nothing and yet returns handle 0, which names the
    first run. *)
Lemma unknown_option_returns_zero n1 n2 o v t p :
  o < 0x20 \/ 0x23 < o -> start_profiling2 n1 n2 o v t p = (0, t, p).
Proof.
  intros Ho; unfold start_profiling2, io_total_stream_running_to_idle_cycles,
    io_stream_start_to_bytes_transferred_cycles, io_stream_start_difference_cycles,
    io_stream_running_event_count.
  destruct (Z.eqb_spec o 0x20), (Z.eqb_spec o 0x21), (Z.eqb_spec o 0x22), (Z.eqb_spec o 0x23);
    first [lia|done].
Qed.
End Event.
Arguments event_record : clear implicits.

(** A profiling layer that grants one resource, its own counter. *)
#[export] Instance count_profiling : Profiling Z Z := {
  get_gmio_config _ _ := None;
  get_plio_config _ _ := None;
  get_plio_config_logicname _ _ := None;
  profile _ n := (ok, [n], n + 1);
  prof_read rs _ n := (foldr Z.add 0 rs, n);
  prof_stop _ n := n
}.

Lemma handle_stays_valid_witness :
  exists r, record_at (R := Z)
    [{| ev_option := 0x23; acquired_resources := [7] |}] 0 = Some r /\ ev_option r = 0x23.
Proof.
  destruct (@handle_stays_valid Z Z count_profiling "a" "" 0x23 0 [] 7 0
    [{| ev_option := 0x23; acquired_resources := [7] |}] 8 [op_read 0; op_stop 0]
    [{| ev_option := 0x23; acquired_resources := [7] |}] 8 ltac:(reflexivity)
    ltac:(discriminate) ltac:(simpl; lia) ltac:(reflexivity)) as (r & Ho & Hr & _).
  exists r; split; [exact Hr|exact Ho].
Defined.
