(* ===== verification/Profile.v ===== *)
(** The profiling layer ([src/common_layer/aegothers/aeg_profiling_api.cpp], [fal_util.cpp]):
    acquiring stream-port monitors, performance counters and a broadcast channel, programming
    them for each profiling option, reading them and giving them back.

    The objects of the function abstraction layer belong to the driver: making, reserving and
    releasing one are calls of the environment, and an object is named by the answer that made
    it.  What the destructor of an object does is the library's affair and not modelled.  An
    array indexed past its end is undefined. *)
From stdpp Require Import base list strings gmap.
From Stdlib Require Import ZArith Lia.
From S2P Require Import Prelude ApiTypes Driver GraphApi ConfigBin Configure Event.
Local Open Scope Z_scope.
Local Open Scope aeg_scope.

(** * Resources *)

(** The dynamic type of an [XAieRsc]. *)
Inductive rsc_kind := k_perf_counter | k_stream_port | k_pc_event | k_single_tile | k_broadcast | k_other.

Record rsc := mkRsc { r_kind : rsc_kind; r_obj : Z }.

Definition is_single_tile (k : rsc_kind) : bool :=
  match k with k_broadcast | k_other => false | _ => true end.

(** [src/common_layer/aegothers/aeg_profiling_api.cpp:59-75] [shim_config] *)
Record shim := mkShim { sc_shimColumn : Z; sc_streamPortId : Z; sc_slaveOrMaster : Z }.

Definition shim_config_of (s : shim_config) : shim :=
  match s with
  | shim_gmio c => mkShim (s32 (shimColumn c)) (s32 (streamId c)) (if decide (type c = aie2gm) then 1 else 0)
  | shim_plio (Some c) => mkShim (s32 (plio_shimColumn c)) (s32 (plio_streamId c)) (u8 (slaveOrMaster c))
  | shim_plio None => mkShim (-1) (-1) 0
  end.

Section Profile.
Context `{rt : AieRt}.

(** [src/common_layer/aegothers/fal_util.cpp:31-60] [fal_util::request] *)
Definition request (r : rsc) : M Z :=
  if r_obj r =? 0 then ret (-1)
  else match r_kind r with
  | k_broadcast =>
      a <-- exec (fal_reserve (r_obj r)) ;;
      if rc a =? XAIE_OK then b <-- exec (fal_getBc (r_obj r)) ;; ret (s32 (out b)) else ret (-1)
  | k_other => ret (-1)
  | _ =>
      a <-- exec (fal_reserve (r_obj r)) ;;
      if rc a =? XAIE_OK then
        b <-- exec (fal_getRscId (r_obj r)) ;;
        ret (if rc b =? XAIE_OK then s32 (out b) else -1)
      else ret (-1)
  end.

(** [src/common_layer/aegothers/fal_util.cpp:62-69] [fal_util::release] *)
Definition release (r : rsc) : M bool :=
  if r_obj r =? 0 then ret false
  else a <-- exec (fal_release (r_obj r)) ;; ret (rc a =? XAIE_OK).

Definition sswitchPort (col : Z) : M rsc :=
  a <-- exec (fal_sswitchPort (u8 col) 0) ;; ret (mkRsc k_stream_port (out a)).
Definition perfCounter (col : Z) : M rsc :=
  a <-- exec (fal_perfCounter (u8 col) 0) ;; ret (mkRsc k_perf_counter (out a)).

(** [src/common_layer/aegothers/aeg_profiling_api.cpp:39-55] [COMMON_XAIETILE_EVENT_SHIM_PORT_RUNNING] *)
Definition port_running (i : Z) : M pl_event :=
  if i <? 8 then ret (XAIE_EVENT_PORT_RUNNING_PL i) else undefined.
Definition port_idle (i : Z) : M pl_event :=
  if i <? 8 then ret (XAIE_EVENT_PORT_IDLE_PL i) else undefined.
Definition broadcast_a (i : Z) : M pl_event :=
  if i <? 16 then ret (XAIE_EVENT_BROADCAST_A_PL i) else undefined.

Definition shim_tile (col : Z) : loc := XAie_TileLoc (u8 col) (u8 0).

(** The check of a configuration. *)
Definition shim_invalid (s : shim) : bool :=
  (Row (shim_tile (sc_shimColumn s)) =? 0xFF) || (Col (shim_tile (sc_shimColumn s)) =? 0xFF) ||
  (sc_shimColumn s <? 0) || (sc_streamPortId s <? 0).

(** The call that selects the monitored port. *)
Definition select_port (s : shim) (eventPortId : Z) : call :=
  XAie_EventSelectStrmPort (shim_tile (sc_shimColumn s)) (u8 eventPortId)
    (negb (sc_slaveOrMaster s =? 0)) (u8 (sc_streamPortId s)).

(** What a run is accounted with: its code and the vector of resources. *)
Definition profile_result (ds : Z) (rs : list rsc) : err_code * list rsc :=
  (if negb (ds =? XAIE_OK) then errorMsg aie_driver_error else ok, rs).

(** [if (id < 0) return errorMsg(err_code::resource_unavailable, ...);] *)
Definition acquired {A} (id : Z) (k : M (err_code * list A)) : M (err_code * list A) :=
  if id <? 0 then ret (errorMsg resource_unavailable, []) else k.

(** [src/common_layer/aegothers/aeg_profiling_api.cpp:77-130] [profiling::profile_stream_running_to_idle_cycles] *)
Definition profile_stream_running_to_idle_cycles (s : shim) : M (err_code * list rsc) :=
  let tileLoc := shim_tile (sc_shimColumn s) in
  if shim_invalid s then ret (errorMsg internal_error, [])
  else
    port <-- sswitchPort (sc_shimColumn s) ;;
    eventPortId <-- request port ;;
    acquired eventPortId (
      counter <-- perfCounter (sc_shimColumn s) ;;
      counterId <-- request counter ;;
      acquired counterId (
        ds <-- status (select_port s eventPortId) XAIE_OK ;;
        running <-- port_running eventPortId ;;
        idle <-- port_idle eventPortId ;;
        ds <-- status (XAie_PerfCounterControlSet tileLoc (u8 counterId) running idle) ds ;;
        ret (profile_result ds [counter; port]))).

(** [src/common_layer/aegothers/aeg_profiling_api.cpp:132-205] [profiling::profile_stream_start_to_transfer_complete_cycles] *)
Definition profile_stream_start_to_transfer_complete_cycles (s : shim) (numBytes : Z)
  : M (err_code * list rsc) :=
  let tileLoc := shim_tile (sc_shimColumn s) in
  if shim_invalid s then ret (errorMsg internal_error, [])
  else
    port <-- sswitchPort (sc_shimColumn s) ;;
    eventPortId <-- request port ;;
    acquired eventPortId (
      counter0 <-- perfCounter (sc_shimColumn s) ;;
      counterId0 <-- request counter0 ;;
      acquired counterId0 (
        counter1 <-- perfCounter (sc_shimColumn s) ;;
        counterId1 <-- request counter1 ;;
        acquired counterId1 (
          ds <-- status (select_port s eventPortId) XAIE_OK ;;
          ds <-- status (XAie_PerfCounterEventValueSet tileLoc (u8 counterId1) (u32 numBytes / 4)) ds ;;
          running <-- port_running eventPortId ;;
          ds <-- status (XAie_PerfCounterControlSet tileLoc (u8 counterId0) running
                           XAIE_EVENT_PERF_CNT_1_PL) ds ;;
          ds <-- status (XAie_PerfCounterControlSet tileLoc (u8 counterId1) running running) ds ;;
          ret (profile_result ds [counter0; counter1; port])))).

(** [src/common_layer/aegothers/aeg_profiling_api.cpp:207-260] [profiling::profile_stream_running_event_count] *)
Definition profile_stream_running_event_count (s : shim) : M (err_code * list rsc) :=
  let tileLoc := shim_tile (sc_shimColumn s) in
  if shim_invalid s then ret (errorMsg internal_error, [])
  else
    port <-- sswitchPort (sc_shimColumn s) ;;
    eventPortId <-- request port ;;
    acquired eventPortId (
      counter <-- perfCounter (sc_shimColumn s) ;;
      counterId <-- request counter ;;
      acquired counterId (
        ds <-- status (select_port s eventPortId) XAIE_OK ;;
        running <-- port_running eventPortId ;;
        ds <-- status (XAie_PerfCounterControlSet tileLoc (u8 counterId) running running) ds ;;
        ret (profile_result ds [counter; port]))).

(** ** The start difference of two streams *)

(** [src/common_layer/aegothers/aeg_profiling_api.cpp:358-366] [profiling::profile_start_time_difference_btw_two_streams] the tiles of the broadcast channel *)
Definition broadcast_tiles (shimColumn1 numBcastShimColumns : Z) : list loc :=
  map (fun i => shim_tile (shimColumn1 + Z.of_nat i)) (seq 0 (Z.to_nat numBcastShimColumns)).

(** [src/common_layer/aegothers/aeg_profiling_api.cpp:420-456] [profiling::profile_start_time_difference_btw_two_streams] the calls that confine the broadcast *)
Definition block_calls (west east broadcastId : Z) : list call :=
  let mask := u16 (Z.shiftl 1 (u8 broadcastId)) in
  [XAie_EventBroadcastBlockMapDir (shim_tile west) XAIE_EVENT_SWITCH_A mask
     [BROADCAST_WEST; BROADCAST_NORTH; BROADCAST_SOUTH];
   XAie_EventBroadcastBlockMapDir (shim_tile west) XAIE_EVENT_SWITCH_B mask
     [BROADCAST_NORTH; BROADCAST_SOUTH]] ++
  flat_map (fun i =>
    [XAie_EventBroadcastBlockMapDir (shim_tile (west + Z.of_nat i)) XAIE_EVENT_SWITCH_A mask
       [BROADCAST_NORTH; BROADCAST_SOUTH];
     XAie_EventBroadcastBlockMapDir (shim_tile (west + Z.of_nat i)) XAIE_EVENT_SWITCH_B mask
       [BROADCAST_NORTH; BROADCAST_SOUTH]]) (seq 1 (Z.to_nat (east - west - 1))) ++
  [XAie_EventBroadcastBlockMapDir (shim_tile east) XAIE_EVENT_SWITCH_A mask
     [BROADCAST_EAST; BROADCAST_NORTH; BROADCAST_SOUTH]].

(** The codes of a sequence of calls, accumulated. *)
Definition status_all (cs : list call) (ds : Z) : M Z := for_each status cs ds.

(** [src/common_layer/aegothers/aeg_profiling_api.cpp:262-476] [profiling::profile_start_time_difference_btw_two_streams] *)
Definition profile_start_time_difference_btw_two_streams (s1 s2 : shim) : M (err_code * list rsc) :=
  let col1 := sc_shimColumn s1 in
  let col2 := sc_shimColumn s2 in
  let tileLoc1 := shim_tile col1 in
  let tileLoc2 := shim_tile col2 in
  if shim_invalid s1 || shim_invalid s2 then ret (errorMsg internal_error, [])
  else
    port1 <-- sswitchPort col1 ;;
    eventPortId1 <-- request port1 ;;
    acquired eventPortId1 (
    counter1 <-- perfCounter col1 ;;
    counterId1 <-- request counter1 ;;
    acquired counterId1 (
    port2 <-- sswitchPort col2 ;;
    eventPortId2 <-- request port2 ;;
    acquired eventPortId2 (
    counter2 <-- perfCounter col2 ;;
    counterId2 <-- request counter2 ;;
    acquired counterId2 (
      if col1 =? col2 then
        ds <-- status (select_port s1 eventPortId1) XAIE_OK ;;
        running1 <-- port_running eventPortId1 ;;
        ds <-- status (XAie_PerfCounterControlSet tileLoc1 (u8 counterId1)
                         XAIE_EVENT_USER_EVENT_0_PL running1) ds ;;
        ds <-- status (select_port s2 eventPortId2) ds ;;
        running2 <-- port_running eventPortId2 ;;
        ds <-- status (XAie_PerfCounterControlSet tileLoc2 (u8 counterId2)
                         XAIE_EVENT_USER_EVENT_0_PL running2) ds ;;
        ds <-- status (XAie_EventGenerate_PL tileLoc1 XAIE_EVENT_USER_EVENT_0_PL) ds ;;
        ret (profile_result ds [counter1; counter2; port1; port2])
      else
        let west := if col1 <? col2 then col1 else col2 in
        let east := if col1 <? col2 then col2 else col1 in
        let numBcastShimColumns := east - west + 1 in
        a <-- exec (fal_broadcast (broadcast_tiles col1 numBcastShimColumns)) ;;
        let bcast := mkRsc k_broadcast (out a) in
        broadcastId <-- request bcast ;;
        if broadcastId <? 0 then
          release counter1 ;;; release port1 ;;; release counter2 ;;; release port2 ;;;
          ret (errorMsg resource_unavailable, [])
        else
          ds <-- status (select_port s1 eventPortId1) XAIE_OK ;;
          running1 <-- port_running eventPortId1 ;;
          ds <-- status (XAie_PerfCounterControlSet tileLoc1 (u8 counterId1)
                           XAIE_EVENT_USER_EVENT_0_PL running1) ds ;;
          ds <-- status (select_port s2 eventPortId2) ds ;;
          bc <-- broadcast_a broadcastId ;;
          running2 <-- port_running eventPortId2 ;;
          ds <-- status (XAie_PerfCounterControlSet tileLoc2 (u8 counterId2) bc running2) ds ;;
          ds <-- status_all (block_calls west east broadcastId) ds ;;
          ds <-- status (XAie_EventBroadcast tileLoc1 (u8 broadcastId) XAIE_EVENT_USER_EVENT_0_PL) ds ;;
          ds <-- status (XAie_EventGenerate_PL tileLoc1 XAIE_EVENT_USER_EVENT_0_PL) ds ;;
          ret (profile_result ds [counter1; counter2; port1; port2; bcast]))))).

(** ** Reading *)

(** The location, module and number [getRscId] leaves in its output parameters. *)
Definition rsc_loc (a : resp) : loc := mkLoc (u8 (nth 0 (outb a) 0)) (u8 (nth 1 (outb a) 0)).
Definition rsc_module (a : resp) : Z := nth 2 (outb a) 0.

(** [src/common_layer/aegothers/aeg_profiling_api.cpp:478-554] [profiling::read]
    An empty vector is indexed past its end. *)
Definition profiling_read (rs : list rsc) (startTimeDifference : bool) : M Z :=
  if startTimeDifference then
    match rs with
    | r1 :: r2 :: _ =>
        match r_kind r1, r_kind r2 with
        | k_perf_counter, k_perf_counter =>
            a1 <-- exec (fal_getRscId (r_obj r1)) ;;
            a2 <-- exec (fal_getRscId (r_obj r2)) ;;
            v1 <-- exec (XAie_PerfCounterGet (rsc_loc a1) (rsc_module a1) (u8 (out a1))) ;;
            v2 <-- exec (XAie_PerfCounterGet (rsc_loc a2) (rsc_module a2) (u8 (out a2))) ;;
            let value := u64 (u32 (out v2) - u32 (out v1)) in
            let col1 := Col (rsc_loc a1) in
            let col2 := Col (rsc_loc a2) in
            if negb (col1 =? col2) then
              let numBcastColumns := if col1 <? col2 then col2 - col1 else col1 - col2 in
              ret (u64 (value + u64 (numBcastColumns * 2 + 2)))
            else ret value
        | _, _ => ret 0
        end
    | _ => undefined
    end
  else
    match rs with
    | r :: _ =>
        match r_kind r with
        | k_perf_counter =>
            a <-- exec (fal_getRscId (r_obj r)) ;;
            v <-- exec (XAie_PerfCounterGet (rsc_loc a) (rsc_module a) (u8 (out a))) ;;
            ret (u32 (out v))
        | _ => ret 0
        end
    | [] => undefined
    end.

(** ** Stopping *)

(** [src/common_layer/aegothers/aeg_profiling_api.cpp:612-658] [profiling::stop] the calls that open the broadcast network again
    [cols] are the columns of the channel, front and back the ends. *)
Definition unblock_calls (cols : list Z) (broadcastId : Z) : list call :=
  let col1 := default 0 (head cols) in
  let col2 := default 0 (last cols) in
  let west := if col1 <? col2 then col1 else col2 in
  let east := if col1 <? col2 then col2 else col1 in
  [XAie_EventBroadcastReset (shim_tile col1) broadcastId;
   XAie_EventBroadcastUnblockDir (shim_tile west) XAIE_EVENT_SWITCH_A broadcastId
     [BROADCAST_WEST; BROADCAST_NORTH; BROADCAST_SOUTH];
   XAie_EventBroadcastUnblockDir (shim_tile west) XAIE_EVENT_SWITCH_B broadcastId
     [BROADCAST_NORTH; BROADCAST_SOUTH]] ++
  flat_map (fun j =>
    [XAie_EventBroadcastUnblockDir (shim_tile (west + Z.of_nat j)) XAIE_EVENT_SWITCH_A broadcastId
       [BROADCAST_NORTH; BROADCAST_SOUTH];
     XAie_EventBroadcastUnblockDir (shim_tile (west + Z.of_nat j)) XAIE_EVENT_SWITCH_B broadcastId
       [BROADCAST_NORTH; BROADCAST_SOUTH]]) (seq 1 (Z.to_nat (east - west - 1))) ++
  [XAie_EventBroadcastUnblockDir (shim_tile east) XAIE_EVENT_SWITCH_A broadcastId
     [BROADCAST_EAST; BROADCAST_NORTH; BROADCAST_SOUTH]].

(** The reset of a single-tile resource. *)
Definition reset_calls (k : rsc_kind) (a : resp) : list call :=
  match k with
  | k_perf_counter => [XAie_PerfCounterReset (rsc_loc a) (rsc_module a) (u8 (out a));
                       XAie_PerfCounterResetControlReset (rsc_loc a) (rsc_module a) (u8 (out a))]
  | k_stream_port => [XAie_EventSelectStrmPortReset (rsc_loc a) (u8 (out a))]
  | k_pc_event => [XAie_EventPCReset (rsc_loc a) (u8 (out a))]
  | _ => []
  end.

(** [src/common_layer/aegothers/aeg_profiling_api.cpp:562-661] [profiling::stop] resetting one resource
    [inl]: the function returns with this code.  The answer of [getChannel] is the first and
    last module and the columns; the front of an empty vector is undefined. *)
Definition stop_reset (startTimeDifference : bool) (r : rsc) (ds : Z) : M (err_code + Z) :=
  if is_single_tile (r_kind r) then
    a <-- exec (fal_getRscId (r_obj r)) ;;
    let ds := Z.lor ds (u32 (rc a)) in
    if negb (ds =? XAIE_OK) then ret (inl (errorMsg aie_driver_error))
    else ds <-- status_all (reset_calls (r_kind r) a) ds ;; ret (inr ds)
  else match r_kind r with
  | k_broadcast =>
      b <-- exec (fal_getBc (r_obj r)) ;;
      c <-- exec (fal_getChannel (r_obj r)) ;;
      match outb c with
      | m1 :: m2 :: cols =>
          if startTimeDifference && (m1 =? 2) && (m2 =? 2) then
            match cols with
            | [] => undefined
            | _ => ds <-- status_all (unblock_calls (map (wrap_u 8) cols) (u8 (out b))) ds ;; ret (inr ds)
            end
          else ret (inr ds)
      | _ => ret (inr ds)
      end
  | _ => ret (inr ds)
  end.

(** [src/common_layer/aegothers/aeg_profiling_api.cpp:562-668] [profiling::stop] one resource *)
Definition stop_one (startTimeDifference : bool) (r : rsc) (ds : Z) : M (err_code + Z) :=
  d <-- stop_reset startTimeDifference r ds ;;
  match d with
  | inl e => ret (inl e)
  | inr ds => okr <-- release r ;; ret (inr (if okr then ds else XAIE_ERR))
  end.

(** [src/common_layer/aegothers/aeg_profiling_api.cpp:556-675] [profiling::stop] *)
Fixpoint stop_loop (startTimeDifference : bool) (rs : list rsc) (ds : Z) : M err_code :=
  match rs with
  | [] => ret (if negb (ds =? XAIE_OK) then errorMsg aie_driver_error else ok)
  | r :: rs =>
      d <-- stop_one startTimeDifference r ds ;;
      match d with
      | inl e => ret e
      | inr ds => stop_loop startTimeDifference rs ds
      end
  end.
Definition profiling_stop (rs : list rsc) (startTimeDifference : bool) : M err_code :=
  stop_loop startTimeDifference rs XAIE_OK.
End Profile.

(** * The layer behind the handle table

    The state is the configuration and the history of calls.  A run that leaves the defined
    behaviour of the code has no result; the table is then left with an error. *)
Section Layer.
Context `{rt : AieRt} {HO : HashOrder}.

Definition profile_req_run (r : profile_req) : M (err_code * list rsc) :=
  match r with
  | stream_running_to_idle s => profile_stream_running_to_idle_cycles (shim_config_of s)
  | stream_start_to_transfer_complete s v =>
      profile_stream_start_to_transfer_complete_cycles (shim_config_of s) v
  | start_time_difference s1 s2 =>
      profile_start_time_difference_btw_two_streams (shim_config_of s1) (shim_config_of s2)
  | stream_running_event_count s => profile_stream_running_event_count (shim_config_of s)
  end.

Definition layer : Type := ConfigureParser * hist.

#[export] Instance aie_profiling : Profiling layer rsc := {
  get_gmio_config p n := Configure.get_gmio_config n (fst p);
  get_plio_config p n := Configure.get_plio_config n (fst p);
  get_plio_config_logicname p n := Configure.get_plio_config_logicname n (fst p);
  profile r p := match profile_req_run r (snd p) with
                 | Some ((e, rs), h) => (e, rs, (fst p, h))
                 | None => (internal_error, [], p)
                 end;
  prof_read rs d p := match profiling_read rs d (snd p) with
                      | Some (v, h) => (v, (fst p, h))
                      | None => (0, p)
                      end;
  prof_stop rs p := match profiling_stop rs false (snd p) with
                    | Some (_, h) => (fst p, h)
                    | None => p
                    end
}.
End Layer.

(** * Properties *)

Lemma wrap_s_u w z : 0 < w -> wrap_s w (wrap_u w z) = wrap_s w z.
Proof. intros Hw; unfold wrap_s, wrap_u; rewrite Zplus_mod_idemp_l; done. Qed.
Lemma wrap_s_add_u_l w x y : 0 < w -> wrap_s w (wrap_u w x + y) = wrap_s w (x + y).
Proof. intros; unfold wrap_s, wrap_u; rewrite <- Z.add_assoc, Zplus_mod_idemp_l, Z.add_assoc; done. Qed.
Lemma wrap_s_add_u_r w x y : 0 < w -> wrap_s w (x + wrap_u w y) = wrap_s w (x + y).
Proof. intros; rewrite !(Z.add_comm x); by apply wrap_s_add_u_l. Qed.

Section Facts.
Context `{rt : AieRt}.

Lemma after_length h cs : length (after h cs) = (length h + length cs)%nat.
Proof. unfold after; rewrite length_app, events_length; done. Qed.

Lemma status_all_eq cs ds h : status_all cs ds h = Some (codes ds h cs, after h cs).
Proof.
  unfold status_all; rewrite <- (map_id cs) at 1.
  revert ds h; induction cs as [|c cs IH]; intros ds h; simpl; [by rewrite after_nil|].
  rewrite (bind_Some _ _ _ _ _ (status_eq _ _ _)), IH, after_app; done.
Qed.

(** ** Reading a difference *)

(** What two counters answer to a read: the columns and the values. *)
Definition diff_answers (r1 r2 : rsc) (h : hist) : (Z * Z) * (Z * Z) :=
  let a1 := drv h (fal_getRscId (r_obj r1)) in
  let h1 := after h [fal_getRscId (r_obj r1)] in
  let a2 := drv h1 (fal_getRscId (r_obj r2)) in
  let h2 := after h1 [fal_getRscId (r_obj r2)] in
  let c1 := XAie_PerfCounterGet (rsc_loc a1) (rsc_module a1) (u8 (out a1)) in
  let v1 := drv h2 c1 in
  let c2 := XAie_PerfCounterGet (rsc_loc a2) (rsc_module a2) (u8 (out a2)) in
  ((Col (rsc_loc a1), u32 (out v1)), (Col (rsc_loc a2), u32 (out (drv (after h2 [c1]) c2)))).

(** reading a start difference always returns, after two look-ups and two counter reads;
    as a signed 64-bit number the result is exactly the second counter minus the first, plus
    two cycles per column the broadcast crossed and two more when the columns differ. *)
Theorem read_difference_exact r1 r2 rs h :
  r_kind r1 = k_perf_counter -> r_kind r2 = k_perf_counter ->
  let '((col1, v1), (col2, v2)) := diff_answers r1 r2 h in
  exists v h', profiling_read (r1 :: r2 :: rs) true h = Some (v, h') /\
    length h' = (length h + 4)%nat /\
    wrap_s 64 v = v2 - v1 + (if col1 =? col2 then 0 else 2 * Z.abs (col1 - col2) + 2).
Proof.
  intros K1 K2; unfold diff_answers; cbv zeta; unfold profiling_read; rewrite K1, K2.
  set (a1 := drv h _); set (a2 := drv _ (fal_getRscId (r_obj r2))).
  set (c1 := XAie_PerfCounterGet (rsc_loc a1) _ _); set (c2 := XAie_PerfCounterGet (rsc_loc a2) _ _).
  rewrite (bind_Some _ _ _ _ _ (exec_eq _ _)), (bind_Some _ _ _ _ _ (exec_eq _ _)); fold a1 a2.
  rewrite (bind_Some _ _ _ _ _ (exec_eq _ _)), (bind_Some _ _ _ _ _ (exec_eq _ _)); fold c1 c2.
  rewrite !after_app; set (x1 := drv _ c1); set (x2 := drv _ c2).
  pose proof (wrap_u_range 32 (out x1) ltac:(lia)); pose proof (wrap_u_range 32 (out x2) ltac:(lia)).
  assert (Hcol : forall a, 0 <= Col (rsc_loc a) < 256) by (intros a; apply wrap_u_range; lia).
  pose proof (Hcol a1); pose proof (Hcol a2).
  destruct (Z.eqb_spec (Col (rsc_loc a1)) (Col (rsc_loc a2))) as [E|E]; cbn [negb].
  - eexists _, _; split; [reflexivity|]; split; [rewrite after_length; simpl; lia|].
    rewrite wrap_s_u, wrap_s_small by lia; lia.
  - eexists _, _; split; [reflexivity|]; split; [rewrite after_length; simpl; lia|].
    rewrite wrap_s_u, wrap_s_add_u_l, wrap_s_add_u_r by lia.
    destruct (Z.ltb_spec (Col (rsc_loc a1)) (Col (rsc_loc a2))); rewrite wrap_s_small by lia; lia.
Qed.

(** ** Stopping *)

(** The objects released by a sequence of calls, in order. *)
Definition releases (cs : list call) : list Z :=
  omap (fun c => match c with fal_release o => Some o | _ => None end) cs.
(** The calls that undo a broadcast set-up. *)
Definition opens_broadcast (c : call) : bool :=
  match c with
  | XAie_EventBroadcastReset _ _ | XAie_EventBroadcastUnblockDir _ _ _ _ => true
  | _ => false
  end.

(** Every channel the layer reports has a tile. *)
Definition channels_have_tiles : Prop :=
  forall h o, match outb (drv h (fal_getChannel o)) with [_; _] => False | _ => True end.

Lemma releases_app cs cs' : releases (cs ++ cs') = releases cs ++ releases cs'.
Proof. apply omap_app. Qed.

Lemma reset_calls_quiet k a :
  releases (reset_calls k a) = [] /\ Forall (fun c => opens_broadcast c = false) (reset_calls k a).
Proof. destruct k; split; repeat constructor. Qed.

Lemma unblock_calls_quiet cols id : releases (unblock_calls cols id) = [].
Proof.
  unfold unblock_calls; rewrite !releases_app; simpl.
  match goal with |- context [seq 1 ?n] => generalize (seq 1 n) end; intros l.
  induction l as [|j l IH]; [done|exact IH].
Qed.

Lemma release_eq r h :
  exists b cs, release r h = Some (b, after h cs) /\ (r_obj r <> 0 -> releases cs = [r_obj r]) /\
    Forall (fun c => opens_broadcast c = false) cs.
Proof.
  unfold release; destruct (Z.eqb_spec (r_obj r) 0).
  - eexists _, []; rewrite after_nil; split_and!; [done|done|done].
  - eexists _, _; rewrite (bind_Some _ _ _ _ _ (exec_eq _ _)); split_and!; [done|done|repeat constructor].
Qed.

Lemma stop_reset_spec b r ds h :
  (b = true -> channels_have_tiles) ->
  exists d cs, stop_reset b r ds h = Some (d, after h cs) /\ releases cs = [] /\
    (forall e, d = inl e -> e = aie_driver_error) /\
    (b = false -> Forall (fun c => opens_broadcast c = false) cs).
Proof.
  intros Hch; unfold stop_reset; destruct (is_single_tile (r_kind r)).
  - rewrite (bind_Some _ _ _ _ _ (exec_eq _ _)); cbv zeta.
    set (a := drv h _); destruct (negb _).
    + eexists (inl _), [_]; split_and!; [done|done|by intros ? [= <-]|repeat constructor].
    + rewrite (bind_Some _ _ _ _ _ (status_all_eq _ _ _)), after_app.
      destruct (reset_calls_quiet (r_kind r) a) as [Hr Hq].
      eexists (inr _), (_ :: _); split_and!; [done|exact Hr|done|by constructor].
  - destruct (r_kind r); try (eexists (inr _), []; rewrite after_nil; split_and!; done).
    rewrite (bind_Some _ _ _ _ _ (exec_eq _ _)), (bind_Some _ _ _ _ _ (exec_eq _ _)), after_app.
    set (c := drv _ (fal_getChannel _)).
    assert (Hd : b = true -> match outb c with [_; _] => False | _ => True end) by (intros E; apply Hch, E).
    destruct (outb c) as [|m1 [|m2 cols]];
      try (eexists (inr _), [_; _]; split_and!; [done|done|done|repeat constructor]).
    destruct (b && _ && _) eqn:Eb.
    2: eexists (inr _), [_; _]; split_and!; [done|done|done|repeat constructor].
    apply andb_true_iff in Eb as [[Eb _]%andb_true_iff _]; subst b.
    destruct cols as [|col cols]; [by destruct (Hd eq_refl)|].
    rewrite (bind_Some _ _ _ _ _ (status_all_eq _ _ _)), after_app.
    eexists (inr _), (_ :: _ :: _); split_and!; [done|apply unblock_calls_quiet|done|done].
Qed.

(** Stopping one resource: the codes so far and a failed look-up end the whole operation before
    the resource is released; otherwise it is released, once. *)
Lemma stop_one_spec b r ds h :
  (b = true -> channels_have_tiles) -> r_obj r <> 0 ->
  exists d cs, stop_one b r ds h = Some (d, after h cs) /\
    releases cs = (if d is inr _ then [r_obj r] else []) /\
    (forall e, d = inl e -> e = aie_driver_error) /\
    (b = false -> Forall (fun c => opens_broadcast c = false) cs).
Proof.
  intros Hch Ho; unfold stop_one.
  destruct (stop_reset_spec b r ds h Hch) as (d & cs & E & Hr & He & Hq).
  rewrite (bind_Some _ _ _ _ _ E); destruct d as [e|ds'].
  - eexists (inl _), cs; split_and!; done.
  - destruct (release_eq r (after h cs)) as (okr & cs' & Er & Hr' & Hq').
    rewrite (bind_Some _ _ _ _ _ Er), after_app; eexists (inr _), _; split_and!; [done| |done|].
    + rewrite releases_app, Hr, Hr' by done; done.
    + intros Hb; apply Forall_app; auto.
Qed.

Lemma stop_loop_spec b rs ds h :
  (b = true -> channels_have_tiles) -> Forall (fun r => r_obj r <> 0) rs ->
  exists e cs k, stop_loop b rs ds h = Some (e, after h cs) /\ (k <= length rs)%nat /\
    releases cs = map r_obj (take k rs) /\ ((k < length rs)%nat -> e = aie_driver_error) /\
    (b = false -> Forall (fun c => opens_broadcast c = false) cs).
Proof.
  intros Hch Hf; revert ds h; induction Hf as [|r rs Ho _ IH]; intros ds h; cbn [stop_loop].
  { eexists _, [], 0%nat; rewrite after_nil; split_and!; [done|lia|done|simpl; lia|done]. }
  destruct (stop_one_spec b r ds h Hch Ho) as (d & cs & E & Hr & He & Hq); rewrite (bind_Some _ _ _ _ _ E).
  destruct d as [e|ds'].
  - eexists _, cs, 0%nat; split_and!; [done|lia|by rewrite Hr|intros _; by apply He|done].
  - destruct (IH ds' (after h cs)) as (e & cs' & k & -> & Hk & Hr' & He' & Hq').
    rewrite after_app; eexists _, _, (S k); split_and!; [done|simpl; lia| |simpl; intros; apply He'; lia|].
    + rewrite releases_app, Hr, Hr'; done.
    + intros Hb; apply Forall_app; auto.
Qed.

(** stopping a run always returns.  It resets and releases the resources one by one, in the
    order of the vector, each at most once.  It releases all of them unless it ends early with a
    driver error, and then those that remain are neither reset nor released. *)
Theorem stop_releases_in_order b rs h :
  (b = true -> channels_have_tiles) -> Forall (fun r => r_obj r <> 0) rs ->
  exists e cs k, profiling_stop rs b h = Some (e, after h cs) /\ (k <= length rs)%nat /\
    releases cs = map r_obj (take k rs) /\ ((k < length rs)%nat -> e = aie_driver_error).
Proof.
  intros Hch Hf; destruct (stop_loop_spec b rs XAIE_OK h Hch Hf) as (e & cs & k & E & Hk & Hr & He & _).
  exists e, cs, k; done.
Qed.

Lemma request_inv r h id h' :
  request r h = Some (id, h') -> (exists cs, h' = after h cs) /\ (0 <= id -> r_obj r <> 0).
Proof.
  unfold request; destruct (Z.eqb_spec (r_obj r) 0) as [->|Ho].
  { unfold ret; intros H; simplify_eq; split; [exists []; by rewrite after_nil|lia]. }
  intros H; split; [|done]; destruct (r_kind r); try (injection H as _ <-; exists []; by rewrite after_nil).
  all: rewrite (bind_Some _ _ _ _ _ (exec_eq _ _)) in H; destruct (_ =? XAIE_OK);
    [rewrite (bind_Some _ _ _ _ _ (exec_eq _ _)), after_app in H|];
    injection H as _ <-; eexists; reflexivity.
Qed.

(** Inverts one step of a run that returned. *)
Ltac prof_step H :=
  first [ apply bind_inv in H as (? & ? & ? & H)
        | match type of H with (if ?b then _ else _) _ = _ => destruct b eqn:? end
        | discriminate H ].

(** The set-up of a difference between two columns reserves five resources, asks for a channel
    from the first column on and programs the blocks between the columns. *)
Lemma difference_setup s1 s2 h rs h' :
  sc_shimColumn s1 <> sc_shimColumn s2 ->
  profile_start_time_difference_btw_two_streams s1 s2 h = Some ((ok, rs), h') ->
  let west := Z.min (sc_shimColumn s1) (sc_shimColumn s2) in
  let east := Z.max (sc_shimColumn s1) (sc_shimColumn s2) in
  length rs = 5%nat /\ Forall (fun r => r_obj r <> 0) rs /\
  exists id, 0 <= id < 16 /\ block_calls west east id ⊆ map fst h' /\
    fal_broadcast (broadcast_tiles (sc_shimColumn s1) (east - west + 1)) ∈ map fst h'.
Proof.
  intros Hne; unfold profile_start_time_difference_btw_two_streams, acquired, broadcast_a; cbv zeta.
  rewrite (proj2 (Z.eqb_neq _ _) Hne); intros H.
  replace (if sc_shimColumn s1 <? sc_shimColumn s2 then sc_shimColumn s1 else sc_shimColumn s2)
    with (Z.min (sc_shimColumn s1) (sc_shimColumn s2)) in H by (destruct (Z.ltb_spec (sc_shimColumn s1) (sc_shimColumn s2)); lia).
  replace (if sc_shimColumn s1 <? sc_shimColumn s2 then sc_shimColumn s2 else sc_shimColumn s1)
    with (Z.max (sc_shimColumn s1) (sc_shimColumn s2)) in H by (destruct (Z.ltb_spec (sc_shimColumn s1) (sc_shimColumn s2)); lia).
  repeat prof_step H; unfold ret, profile_result in H.
  repeat match goal with
  | E : (_ <? 0) = false |- _ => apply Z.ltb_ge in E
  | E : request _ _ = Some _ |- _ => apply request_inv in E as ([? ->] & ?)
  | E : status _ _ _ = Some _ |- _ => rewrite status_eq in E; simplify_eq
  | E : status_all _ _ _ = Some _ |- _ => rewrite status_all_eq in E; simplify_eq
  | E : exec (fal_broadcast _) _ = Some _ |- _ => rewrite exec_eq in E; simplify_eq
  | E : port_running _ _ = Some _ |- _ =>
      unfold port_running, ret, undefined in E; destruct (_ <? 8); simplify_eq
  | E : (if ?x <? 16 then _ else _) _ = Some _ |- _ =>
      destruct (Z.ltb_spec x 16); unfold ret, undefined in E; simplify_eq
  end.
  clear H; rewrite !after_calls; split; [done|]; split; [repeat constructor; auto|].
  eexists; split; [eauto|]; split; [intros c Hc|]; rewrite !elem_of_app; [tauto|].
  repeat first [left; done | right; left; done | left].
Qed.

Lemma shim_tile_inj c1 c2 : 0 <= c1 < 256 -> 0 <= c2 < 256 -> shim_tile c1 = shim_tile c2 -> c1 = c2.
Proof.
  intros H1 H2 [= E]; rewrite !(wrap_u_small 8) in E; [done|..]; try lia; rewrite wrap_u_small; lia.
Qed.

Lemma broadcast_tiles_elem c n col :
  0 <= c -> c + n <= 256 -> 0 <= col < 256 ->
  shim_tile col ∈ broadcast_tiles c n <-> c <= col < c + n.
Proof.
  intros Hc Hn Hcol; unfold broadcast_tiles; rewrite list_elem_of_fmap; split.
  - intros (i & E & Hi%elem_of_seq); apply shim_tile_inj in E; lia.
  - intros H; exists (Z.to_nat (col - c)); split; [f_equal; lia|apply elem_of_seq; lia].
Qed.

(** setting up the start difference of two streams in different columns asks for a broadcast
    channel that starts at the column of the first stream and goes east.  When the second stream
    lies east of the first the channel is exactly the columns between the two; when it lies west
    of it, the channel misses every column between the two, the second stream's included. *)
Theorem difference_channel_goes_east s1 s2 h rs h' :
  profile_start_time_difference_btw_two_streams s1 s2 h = Some ((ok, rs), h') ->
  let c1 := sc_shimColumn s1 in
  let c2 := sc_shimColumn s2 in
  c1 <> c2 -> 0 <= c1 -> 0 <= c2 -> Z.max (c2 + 1) (2 * c1 - c2 + 1) <= 256 ->
  exists tiles, fal_broadcast tiles ∈ map fst h' /\
    (c1 < c2 -> forall col, 0 <= col < 256 -> shim_tile col ∈ tiles <-> c1 <= col <= c2) /\
    (c2 < c1 -> forall col, c2 <= col < c1 -> shim_tile col ∉ tiles).
Proof.
  intros H c1 c2 Hne H1 H2 Hm; destruct (difference_setup s1 s2 h rs h' Hne H) as (_ & _ & id & _ & _ & Hb).
  eexists; split; [exact Hb|]; fold c1 c2; split.
  - intros Hlt col Hcol; rewrite broadcast_tiles_elem by lia; lia.
  - intros Hlt col Hcol; rewrite broadcast_tiles_elem by lia; lia.
Qed.

Section Table.
Context {HO : HashOrder}.

(** a start-difference run over two columns that is stopped through its handle leaves the
    broadcast network blocked: setting it up blocks directions in every switch from the western
    to the eastern column, and stopping it releases its resources without any call that unblocks
    a direction or resets the broadcast. *)
Theorem difference_run_stays_blocked s1 s2 h rs h' c t hd r :
  sc_shimColumn s1 <> sc_shimColumn s2 ->
  profile_start_time_difference_btw_two_streams s1 s2 h = Some ((ok, rs), h') ->
  record_at t hd = Some r -> acquired_resources r = rs ->
  (exists id, block_calls (Z.min (sc_shimColumn s1) (sc_shimColumn s2))
     (Z.max (sc_shimColumn s1) (sc_shimColumn s2)) id ⊆ map fst h') /\
  exists cs, stop_profiling hd t (c, h') = (c, after h' cs) /\
    Forall (fun c => opens_broadcast c = false) cs.
Proof.
  intros Hne H Hr Hrs; destruct (difference_setup s1 s2 h rs h' Hne H) as (_ & Ho & id & _ & Hb & _).
  split; [by exists id|].
  destruct (stop_loop_spec false rs XAIE_OK h') as (e & cs & k & E & _ & _ & _ & Hq); [done|done|].
  exists cs; split; [|by apply Hq].
  unfold stop_profiling; rewrite Hr, Hrs; simpl; unfold profiling_stop; rewrite E; done.
Qed.
End Table.
End Facts.

(** ** A concrete device

    Objects are numbered by the calls made so far; every request is granted number 0 and the
    counters are found in columns 7 and 3. *)
Definition demo_prof_rt : AieRt := {|
  drv := fun h c => match c with
    | fal_sswitchPort _ _ | fal_perfCounter _ _ | fal_broadcast _ => mkResp 0 (1 + Z.of_nat (length h)) []
    | fal_getRscId o => mkResp 0 0 [if o =? 1 then 7 else 3; 0; 2]
    | fal_getChannel _ => mkResp 0 0 [2; 2; 7]
    | XAie_PerfCounterGet l _ _ => mkResp 0 (if Col l =? 7 then 100 else 40) []
    | _ => mkResp 0 0 []
    end;
  XAIE_ERR := 1; XAIE_CORE_STATUS_TIMEOUT := 12; XAIE_LOCK_WITH_NO_VALUE := -1;
  XAIE_DEV_GEN_AIE := 1; XAIE_DEV_GEN_AIEML := 2; XAIE_DEV_GEN_S100 := 6; XAIE_DEV_GEN_S200 := 7
|}.
#[local] Existing Instance demo_prof_rt.
#[local] Existing Instance list_order.

(** The first stream started 60 cycles after the second: the result is negative. *)
Lemma read_difference_exact_witness :
  exists v h', profiling_read [mkRsc k_perf_counter 1; mkRsc k_perf_counter 2] true [] = Some (v, h') /\
    wrap_s 64 v = -50.
Proof.
  destruct (read_difference_exact (mkRsc k_perf_counter 1) (mkRsc k_perf_counter 2) [] [] eq_refl eq_refl)
    as (v & h' & H & _ & Hv).
  exists v, h'; split; [exact H|exact Hv].
Defined.

Lemma stop_releases_in_order_witness :
  exists e cs k, profiling_stop [mkRsc k_perf_counter 1; mkRsc k_broadcast 2] true [] = Some (e, after [] cs) /\
    releases cs = map r_obj (take k [mkRsc k_perf_counter 1; mkRsc k_broadcast 2]).
Proof.
  destruct (stop_releases_in_order true [mkRsc k_perf_counter 1; mkRsc k_broadcast 2] [])
    as (e & cs & k & H & _ & Hr & _).
  - intros _ h o; exact I.
  - repeat constructor; discriminate.
  - exists e, cs, k; split; [exact H|exact Hr].
Defined.

(** Streams in columns 7 and 3. *)
Definition demo_difference : option (err_code * list rsc * hist) :=
  profile_start_time_difference_btw_two_streams (mkShim 7 2 0) (mkShim 3 2 0) [].

Lemma difference_channel_goes_east_witness :
  exists rs h' tiles, demo_difference = Some ((ok, rs), h') /\ fal_broadcast tiles ∈ map fst h' /\
    shim_tile 3 ∉ tiles.
Proof.
  destruct demo_difference as [[[e rs] h']|] eqn:E; [|vm_compute in E; discriminate].
  assert (He : e = ok) by (vm_compute in E; injection E as <- _ _; reflexivity); subst e.
  destruct (difference_channel_goes_east (mkShim 7 2 0) (mkShim 3 2 0) [] rs h' E) as (tiles & Ht & _ & Hw);
    [discriminate|simpl; lia..|].
  exists rs, h', tiles; split; [reflexivity|]; split; [exact Ht|apply Hw; simpl; lia].
Defined.

(** A program without ports. *)
Definition empty_config : ConfigureParser :=
  mkCfg
      {| dconfig := {| hw_gen := 2; base_address := 0; column_shift := 25; row_shift := 20; num_columns := 4;
           num_rows := 8; shim_row := 0; mem_row_start := 1; mem_num_rows := 1; aie_tile_row_start := 2;
           aie_tile_num_rows := 6; partition_num_cols := 4; partition_overlay_start_cols := [0] |};
         partitions := []; aiecompilerconfig := {| cfg_broadcast_enable_core := false;
           graph_iterator_event := false; enable_multi_layer := false |};
         gconfigs := ∅; gmioconfigs := ∅; plioconfigs := ∅; externalbufferconfigs := ∅;
         sharedbufferconfigs := ∅; rtpconfigs := ∅ |} [] ∅ [] ∅ ∅ ∅.

Lemma difference_run_stays_blocked_witness :
  exists rs h' cs, demo_difference = Some ((ok, rs), h') /\
    stop_profiling 0 [{| ev_option := 0x22; acquired_resources := rs |}] (empty_config, h') =
      (empty_config, after h' cs) /\
    Forall (fun c => opens_broadcast c = false) cs.
Proof.
  destruct demo_difference as [[[e rs] h']|] eqn:E; [|vm_compute in E; discriminate].
  assert (He : e = ok) by (vm_compute in E; injection E as <- _ _; reflexivity); subst e.
  destruct (difference_run_stays_blocked (mkShim 7 2 0) (mkShim 3 2 0) [] rs h' empty_config
    [{| ev_option := 0x22; acquired_resources := rs |}] 0 {| ev_option := 0x22; acquired_resources := rs |})
    as (_ & cs & Hs & Hq); [discriminate|exact E|reflexivity|reflexivity|].
  exists rs, h', cs; split; [reflexivity|]; split; [exact Hs|exact Hq].
Defined.
