(* ===== verification/AieGraph.v ===== *)
(** The graph class of the hardware build ([src/aeg_aiebaremetal.cc]): [AIEGraphSim], which
    owns the configuration, the device and the objects of a graph, and the public class
    [AIEGraph], which checks state and arguments and forwards to it; the error interrupt.

    A graph's operations thread its own state and the state all graphs share: the
    configuration manager, the set of shared buffers already written and the profiling layer.
    The application's memory is the parameter [blob_at]: the 32-bit words at an address.
    Strings are never null here except where the code tests for null, which is [None]. *)
From stdpp Require Import base list strings gmap.
From Stdlib Require Import ZArith Lia.
From S2P Require Import Prelude ApiTypes Driver GraphApi Rtp Gmio HostMem PortImpl ExternalBuffer.
From S2P Require Import SimGraph ConfigBin Configure Regs Cdo Event.
Local Open Scope Z_scope.
Local Open Scope aeg_scope.

(** Constants of the driver's headers. *)
Class AieConsts := {
  XAIE_DEV_GEN_AIE2PS : Z;
  XAIE_INSUFFICIENT_BUFFER_SIZE : Z;
  XAIE_COMPONENT_IS_READY : Z
}.

(** [src/aeg_aiebaremetal.cc:115-130] [err_from_abr] *)
Definition err_from_abr (code : err_code) : aeg_err :=
  match code with
  | ok => aeg_ok
  | user_error => aeg_user_error
  | internal_error => aeg_internal_error
  | aie_driver_error => aeg_aie_driver_error
  | resource_unavailable => aeg_resource_unavailable
  end.

(** [static_cast<aeg_err>(n)] for the codes a GMIO wait returns: the enumerators of both types
    have the same numbers. *)
Definition aeg_err_of_int (n : Z) : aeg_err :=
  if n =? EINVAL then aeg_user_error
  else if n =? ENOTSUP then aeg_internal_error
  else if n =? EIO then aeg_aie_driver_error
  else if n =? EAGAIN then aeg_resource_unavailable
  else aeg_ok.

(** The cast of a wait's result and [err_from_abr] agree. *)
Lemma aeg_err_of_err_int e : aeg_err_of_int (err_int e) = err_from_abr e.
Proof. by destruct e. Qed.

(** [src/aeg_aiebaremetal.cc:132-134] [is_valid_cstr] *)
Definition is_valid_cstr (value : option string) : bool :=
  match value with None => false | Some s => negb (String.eqb s "") end.

(** [src/aeg_aiebaremetal.cc:136-139] [is_valid_profiling_option] *)
Definition is_valid_profiling_option (o : Z) : bool :=
  (io_total_stream_running_to_idle_cycles <=? o) && (o <=? io_stream_running_event_count).

(** What the runtime reads of [XAie_DevInst]; the driver fills it in. *)
Record XAie_DevInst := {
  dev_BaseAddr : Z; dev_StartCol : Z; dev_NumCols : Z; dev_DevGen : Z; dev_IsReady : Z
}.
Definition dev_zero : XAie_DevInst :=
  {| dev_BaseAddr := 0; dev_StartCol := 0; dev_NumCols := 0; dev_DevGen := 0; dev_IsReady := 0 |}.
(** The instance after a call that fills it in. *)
Definition dev_of (r : resp) : XAie_DevInst :=
  {| dev_BaseAddr := nth 0 (outb r) 0; dev_StartCol := nth 1 (outb r) 0;
     dev_NumCols := nth 2 (outb r) 0; dev_DevGen := nth 3 (outb r) 0;
     dev_IsReady := nth 4 (outb r) 0 |}.

(** [src/aeg_aiebaremetal.cc:1074-1083] [AIEGraphSim]
    An error payload is opaque; the [cert_api] member, which is only given the device, is
    left out. *)
Record AIEGraphSim {R : Type} := mkGraph {
  cfg : ConfigureParser;
  Dev : XAie_DevInst;
  GraphApi : option graph_api;
  EventApi : option (list (@event_record R));
  xaiemem : option XAieMem;
  graphName : string;
  error_handling_cb : Z;
  error_handling_cb_priv : Z;
  backtrack_payload_cache : list Z
}.
Arguments AIEGraphSim : clear implicits.

(** What all graphs of the program share. *)
Record globals {P : Type} := mkGlobals {
  g_cm : config_manager;
  g_inited : gset Z;
  g_prof : P
}.
Arguments globals : clear implicits.

Section Setters.
Context {P R : Type}.
Implicit Types s : AIEGraphSim R.
Definition set_cfg c s : AIEGraphSim R :=
  mkGraph R c (Dev s) (GraphApi s) (EventApi s) (xaiemem s) (graphName s) (error_handling_cb s)
    (error_handling_cb_priv s) (backtrack_payload_cache s).
Definition set_dev d s : AIEGraphSim R :=
  mkGraph R (cfg s) d (GraphApi s) (EventApi s) (xaiemem s) (graphName s) (error_handling_cb s)
    (error_handling_cb_priv s) (backtrack_payload_cache s).
Definition set_graph g s : AIEGraphSim R :=
  mkGraph R (cfg s) (Dev s) g (EventApi s) (xaiemem s) (graphName s) (error_handling_cb s)
    (error_handling_cb_priv s) (backtrack_payload_cache s).
Definition set_event t s : AIEGraphSim R :=
  mkGraph R (cfg s) (Dev s) (GraphApi s) t (xaiemem s) (graphName s) (error_handling_cb s)
    (error_handling_cb_priv s) (backtrack_payload_cache s).
Definition set_cb cb priv s : AIEGraphSim R :=
  mkGraph R (cfg s) (Dev s) (GraphApi s) (EventApi s) (xaiemem s) (graphName s) cb priv
    (backtrack_payload_cache s).
Definition set_cache l s : AIEGraphSim R :=
  mkGraph R (cfg s) (Dev s) (GraphApi s) (EventApi s) (xaiemem s) (graphName s) (error_handling_cb s)
    (error_handling_cb_priv s) l.
Definition set_cm cm (g : globals P) : globals P := mkGlobals P cm (g_inited g) (g_prof g).
Definition set_inited i (g : globals P) : globals P := mkGlobals P (g_cm g) i (g_prof g).
Definition set_prof p (g : globals P) : globals P := mkGlobals P (g_cm g) (g_inited g) p.
End Setters.

(** * The graph *)
Section Sim.
Context {P R : Type} `{rt : AieRt} {AC : AieConsts} {HO : HashOrder} {Prof : Profiling P R}.

Abbreviation state := (AIEGraphSim R * globals P)%type.
(** An operation on a graph. *)
Abbreviation op A := (state -> M (A * state)).

(** An operation on the object behind a pointer into the store of GMIO objects. *)
Definition at_gmio {A} (i : nat) (k : GmioApiImpl -> M (A * GmioApiImpl)) : op A := fun '(s, g) =>
  match gmio_store (cfg s) !! i with
  | None => undefined
  | Some p =>
      let* (a, p) := k p in
      ret (a, (set_cfg (set_gmios (<[i := p]> (gmio_store (cfg s))) (gmio_api_impls (cfg s)) (cfg s)) s, g))
  end.
Definition at_ebuffer {A} (i : nat) (k : ExternalBufferApiImpl -> M (A * ExternalBufferApiImpl)) : op A :=
  fun '(s, g) =>
  match ebuffer_store (cfg s) !! i with
  | None => undefined
  | Some p =>
      let* (a, p) := k p in
      ret (a, (set_cfg (set_ebuffers (<[i := p]> (ebuffer_store (cfg s))) (ebuffer_api_impls (cfg s)) (cfg s)) s, g))
  end.

(** [err_from_abr] of the result of an operation of an object. *)
Definition coded {O} (k : M (err_code * O)) : M (aeg_err * O) :=
  let* (e, p) := k in ret (err_from_abr e, p).

(** [src/aeg_aiebaremetal.cc:319-393] [AIEGraphSim::AIEGraphSim] from the look-up of the graph on
    [s] already has the configuration, the name and the memory; [rebase] is what the target makes
    of the base address in the configuration; a graph without overlay column is undefined. *)
Definition graph_setup (rebase : Z -> Z) (GraphName : string) (s : AIEGraphSim R) (g : globals P) : M state :=
  let dc := get_driver_config (cfg s) in
  match get_graph_config GraphName (cfg s) with
  | None => ret (s, g)
  | Some gc =>
      let s := set_event (Some []) (set_graph (Some (graph_api_new (Some gc))) s) in
      match head (partition_overlay_start_cols dc) with
      | None => undefined
      | Some col =>
          let aiebase := rebase (base_address dc) in
          r <-- exec (XAie_SetupPartitionConfig
                        (u64 (aiebase + u64 (Z.shiftl (u16 col) (column_shift dc))))
                        (u8 col) (u8 (partition_num_cols dc))) ;;
          let s := set_dev (dev_of r) s in
          if negb (rc r =? XAIE_OK) then ret (s, g)
          else
            r <-- exec (XAie_CfgInitialize
                    [hw_gen dc; aiebase; column_shift dc; row_shift dc; num_rows dc; num_columns dc;
                     shim_row dc; mem_row_start dc; mem_num_rows dc; aie_tile_row_start dc;
                     aie_tile_num_rows dc]) ;;
            let s := set_dev (dev_of r) s in
            if negb (rc r =? XAIE_OK) then ret (s, g)
            else
              exec_ fal_util_initialize ;;;
              let '(_, cm) := config_manager_initialize (g_cm g)
                 (Some {| DevGen := dev_DevGen (Dev s) |}) (mem_num_rows dc)
                 (cfg_broadcast_enable_core (get_aiecompiler_config (cfg s))) in
              let '(_, ga) := configure cm (graph_api_new (Some gc)) in
              ret (set_graph (Some ga) s, set_cm cm g)
      end
  end.

(** [src/aeg_aiebaremetal.cc:277-394] [AIEGraphSim::AIEGraphSim] the hardware build
    [cp] is the parsed configuration. *)
Definition graph_new (cp : ConfigureParser) (GraphName : string) (g : globals P) : M state :=
  graph_setup (fun b => b) GraphName (mkGraph R cp dev_zero None None (Some {| ipc_ := false |}) GraphName 0 0 []) g.

(** [src/aeg_aiebaremetal.cc:248-259] [AIEGraphSim::~AIEGraphSim] *)
Definition graph_delete : M unit := exec_ XAie_Finish.

(** [src/aeg_aiebaremetal.cc:457-464] [AIEGraphSim::clock_enable] *)
Definition graph_clock_enable : op aeg_err := fun '(s, g) =>
  r <-- exec (XAie_PmSetColumnClk (u32 (dev_StartCol (Dev s))) (u32 (dev_NumCols (Dev s))) 1) ;;
  ret (if negb (rc r =? XAIE_OK) then aeg_aie_driver_error else aeg_ok, (s, g)).

(** [src/aeg_aiebaremetal.cc:469-476] [AIEGraphSim::clock_disable] *)
Definition graph_clock_disable : op aeg_err := fun '(s, g) =>
  r <-- exec (XAie_PmSetColumnClk (u32 (dev_StartCol (Dev s))) (u32 (dev_NumCols (Dev s))) 0) ;;
  ret (if negb (rc r =? XAIE_OK) then aeg_aie_driver_error else aeg_ok, (s, g)).

(** [src/aeg_aiebaremetal.cc:401-452] [AIEGraphSim::selftestexit] the hardware build *)
Definition graph_selftestexit : op aeg_err := fun st =>
  let* (e, st) := graph_clock_enable st in
  if negb (aeg_is_ok e) then ret (e, st)
  else
    let* (e, st) := graph_clock_disable st in
    if negb (aeg_is_ok e) then ret (e, st)
    else
      let* (e, st) := graph_clock_enable st in
      if negb (aeg_is_ok e) then ret (e, st) else ret (aeg_ok, st).

(** [src/aeg_aiebaremetal.cc:483-487] [AIEGraphSim::error_handling_cb_init] *)
Definition graph_error_handling_cb_init (cb priv : Z) : op aeg_err := fun '(s, g) =>
  ret (aeg_ok, (set_cb cb priv s, g)).

(** [src/aeg_aiebaremetal.cc:494-549] [AIEGraphSim::init]
    The status of [ConfigureRtps] is only logged. *)
Definition graph_init : op aeg_err := fun '(s, g) =>
  let '(status, c) := ConfigureExternalBuffers (xaiemem s) (cfg s) in
  let s := set_cfg c s in
  if negb (aeg_is_ok status) then
    ret (if bool_decide (status = aeg_null_argument) then aeg_backend_not_ready else status, (s, g))
  else
    let* (status, c) := ConfigureGmios (xaiemem s) (cfg s) in
    let s := set_cfg c s in
    if negb (aeg_is_ok status) then
      ret (if bool_decide (status = aeg_null_argument \/ status = aeg_aie_driver_error \/
                           status = aeg_internal_error)
           then aeg_backend_not_ready else status, (s, g))
    else
      let has_graph := bool_decide (is_Some (GraphApi s)) in
      let '(_, c) := ConfigureRtps has_graph (cfg s) in
      let '(status, c) := ConfigureSharedBuffers has_graph c in
      let s := set_cfg c s in
      if negb (aeg_is_ok status) then
        ret (if bool_decide (status = aeg_null_argument) then aeg_backend_not_ready else status, (s, g))
      else ret (aeg_ok, (s, g)).

(** [src/aeg_aiebaremetal.cc:556-587] [AIEGraphSim::run] *)
Definition graph_run (fuel : nat) (num : Z) : op aeg_err := fun '(s, g) =>
  match GraphApi s with
  | None => ret (aeg_backend_not_ready, (s, g))
  | Some ga =>
      let* (e, ga) := run_iter fuel (g_cm g) num ga in
      ret (err_from_abr e, (set_graph (Some ga) s, g))
  end.

(** ** GMIO *)

(** An operation on the GMIO object of a name. *)
Definition on_gmio {A} (dflt : A) (name : string) (k : GmioApiImpl -> M (A * GmioApiImpl)) : op A :=
  fun '(s, g) =>
  match get_gmio_api_impl name (cfg s) with
  | None => ret (dflt, (s, g))
  | Some i => at_gmio i k (s, g)
  end.

(** [src/aeg_aiebaremetal.cc:595-602] [AIEGraphSim::aie2gm_nb] *)
Definition graph_aie2gm_nb (fuel : nat) (name : string) (data len : Z) : op aeg_err := fun '(s, g) =>
  on_gmio aeg_backend_not_ready name (fun p => coded (aie2gm_nb false (g_cm g) fuel data len p)) (s, g).

(** [src/aeg_aiebaremetal.cc:610-617] [AIEGraphSim::aie2gm] *)
Definition graph_aie2gm (fuel : nat) (name : string) (data len : Z) : op aeg_err := fun '(s, g) =>
  on_gmio aeg_backend_not_ready name (fun p => coded (impl_aie2gm false (g_cm g) fuel data len p)) (s, g).

(** [src/aeg_aiebaremetal.cc:646-657] [AIEGraphSim::gm2aie_nb] *)
Definition graph_gm2aie_nb (fuel : nat) (name : string) (data len : Z) : op aeg_err := fun '(s, g) =>
  on_gmio aeg_backend_not_ready name (fun p => coded (gm2aie_nb (g_cm g) fuel data len p)) (s, g).

(** [src/aeg_aiebaremetal.cc:665-677] [AIEGraphSim::gm2aie] *)
Definition graph_gm2aie (fuel : nat) (name : string) (data len : Z) : op aeg_err := fun '(s, g) =>
  on_gmio aeg_backend_not_ready name (fun p => coded (impl_gm2aie false (g_cm g) fuel data len p)) (s, g).

(** [src/aeg_aiebaremetal.cc:866-877] [AIEGraphSim::gmio_wait] *)
Definition graph_gmio_wait (fuel : nat) (name : string) (syncmode : bool) : op aeg_err :=
  on_gmio aeg_backend_not_ready name (fun p =>
    let* (n, p) := impl_wait false fuel syncmode p in ret (aeg_err_of_int n, p)).

(** ** External buffers *)

Definition on_ebuffer {A} (dflt : A) (name : string)
    (k : ExternalBufferApiImpl -> M (A * ExternalBufferApiImpl)) : op A := fun '(s, g) =>
  match get_externalbuffer_api_impl name (cfg s) with
  | None => ret (dflt, (s, g))
  | Some i => at_ebuffer i k (s, g)
  end.

(** [src/aeg_aiebaremetal.cc:685-693] [AIEGraphSim::setAddress] *)
Definition graph_setAddress (name : string) (ptr : Z) : op aeg_err :=
  on_ebuffer aeg_backend_not_ready name (fun b => ret (aeg_ok, setAddress ptr b)).

(** [src/aeg_aiebaremetal.cc:700-707] [AIEGraphSim::wait] *)
Definition graph_eb_wait (fuel : nat) (name port_name : string) : op aeg_err := fun '(s, g) =>
  on_ebuffer aeg_backend_not_ready name (fun b => coded (eb_wait false (g_cm g) fuel port_name b)) (s, g).

(** [src/aeg_aiebaremetal.cc:715-722] [AIEGraphSim::gm2aie_nb] *)
Definition graph_eb_gm2aie_nb (name port_name : string) : op aeg_err := fun '(s, g) =>
  on_ebuffer aeg_backend_not_ready name (fun b => coded (eb_gm2aie_nb false (g_cm g) port_name b)) (s, g).

(** [src/aeg_aiebaremetal.cc:730-737] [AIEGraphSim::aie2gm_nb] *)
Definition graph_eb_aie2gm_nb (name port_name : string) : op aeg_err := fun '(s, g) =>
  on_ebuffer aeg_backend_not_ready name (fun b => coded (eb_aie2gm_nb false (g_cm g) port_name b)) (s, g).

(** [src/aeg_aiebaremetal.cc:748-755] [AIEGraphSim::setupPingPongBuffers] *)
Definition graph_setupPingPongBuffers (name : string) (ptr1 ptr2 : Z) (sync_cache : bool) : op aeg_err :=
  fun '(s, g) =>
  on_ebuffer aeg_backend_not_ready name
    (fun b => coded (setupPingPongBuffers false (g_cm g) ptr1 ptr2 sync_cache b)) (s, g).

(** ** Parameters *)

(** [src/aeg_aiebaremetal.cc:767-791] [AIEGraphSim::update] *)
Definition graph_update (port_name : string) (data : list Z) (len : Z) : op aeg_err := fun '(s, g) =>
  match GraphApi s with
  | None => ret (aeg_backend_not_ready, (s, g))
  | Some ga =>
      let kind := isRTPorSharedBuffer port_name (cfg s) in
      if kind =? 0 then
        match get_rtp_config port_name (cfg s) with
        | None => ret (aeg_invalid_name, (s, g))
        | Some c =>
            let* (e, ga) := update_rtp (g_cm g) (Some c) data len ga in
            ret (err_from_abr e, (set_graph (Some ga) s, g))
        end
      else if kind =? 1 then
        match get_shared_buffer_config port_name (cfg s) with
        | None => ret (aeg_invalid_name, (s, g))
        | Some c =>
            let* (e, dn) := update_shared (Some c) data len (g_inited g) ga in
            ret (err_from_abr e, (s, set_inited dn g))
        end
      else ret (aeg_invalid_name, (s, g))
  end.

(** [src/aeg_aiebaremetal.cc:800-811] [AIEGraphSim::read]
    The bytes read are returned with the code. *)
Definition graph_read (port_name : string) (len : Z) : op (aeg_err * list Z) := fun '(s, g) =>
  match GraphApi s with
  | None => ret ((aeg_backend_not_ready, []), (s, g))
  | Some ga =>
      match get_rtp_config port_name (cfg s) with
      | None => ret ((aeg_invalid_name, []), (s, g))
      | Some c =>
          let* (e, bs) := read_rtp (g_cm g) (Some c) (u64 len) ga in
          ret ((err_from_abr e, bs), (s, g))
      end
  end.

(** ** Graph control *)

(** [src/aeg_aiebaremetal.cc:818-820] [AIEGraphSim::dumpcorelog] *)
Definition graph_dumpcorelog (row col : Z) : op Z := fun st => r <-- exec (rlog row col) ;; ret (out r, st).

(** [src/aeg_aiebaremetal.cc:834-834] [AIEGraphSim::getaiebase] *)
Definition getaiebase (s : AIEGraphSim R) : Z := base_address (get_driver_config (cfg s)).

(** [src/aeg_aiebaremetal.cc:839-845] [AIEGraphSim::wait] *)
Definition graph_wait (fuel : nat) : op aeg_err := fun '(s, g) =>
  match GraphApi s with
  | None => ret (aeg_backend_not_ready, (s, g))
  | Some ga => let* (e, ga) := wait fuel ga in ret (err_from_abr e, (set_graph (Some ga) s, g))
  end.

(** [src/aeg_aiebaremetal.cc:851-858] [AIEGraphSim::end] *)
Definition graph_end (fuel : nat) : op aeg_err := fun '(s, g) =>
  match GraphApi s with
  | None => ret (aeg_backend_not_ready, (s, g))
  | Some ga => let* (e, ga) := end_ fuel ga in ret (err_from_abr e, (set_graph (Some ga) s, g))
  end.

(** [src/aeg_aiebaremetal.cc:883-889] [AIEGraphSim::malloc] *)
Definition graph_malloc (len : Z) : op Z := fun '(s, g) =>
  match xaiemem s with
  | None => ret (0, (s, g))
  | Some m => a <-- mem_malloc m len ;; ret (a, (s, g))
  end.

(** [src/aeg_aiebaremetal.cc:894-901] [AIEGraphSim::free] *)
Definition graph_free (addr : Z) : op aeg_err := fun '(s, g) =>
  match xaiemem s with
  | None => ret (aeg_backend_not_ready, (s, g))
  | Some m => mem_free m addr ;;; ret (aeg_ok, (s, g))
  end.

(** ** Errors of the array *)

(** [if (error_handling_cb) error_handling_cb(backtrack_payload_cache, error_handling_cb_priv)] *)
Definition call_handler (s : AIEGraphSim R) : M unit :=
  if error_handling_cb s =? 0 then ret tt
  else exec_ (error_handler (error_handling_cb s) (backtrack_payload_cache s) (error_handling_cb_priv s)).

(** [src/aeg_aiebaremetal.cc:1085-1098] [AIEGraphSim::error_backtrack_callback] *)
Definition error_backtrack_callback (payload : Z) (s : AIEGraphSim R) : M (AIEGraphSim R) :=
  let s := set_cache [payload] s in
  call_handler s ;;; ret (set_cache [] s).

(** [src/aeg_aiebaremetal.cc:942-943] [AIEGraphSim::BacktrackErrors] *)
Definition kPayloadSize : Z := 32.
Definition kMaxBacktrackIterations : nat := Z.to_nat 16384.

(** [src/aeg_aiebaremetal.cc:952-976] [AIEGraphSim::BacktrackErrors] the loop
    The answer of the driver is the error count, the flag [IsNextInfoValid] and the payloads;
    [None]: the limit of iterations or a driver error. *)
Fixpoint backtrack_loop (iterations : nat) (s : AIEGraphSim R) : M (option unit * AIEGraphSim R) :=
  match iterations with
  | O => ret (None, s)
  | S iterations =>
      r <-- exec (XAie_BacktrackErrorInterrupts (dev_StartCol (Dev s)) (dev_NumCols (Dev s)) kPayloadSize) ;;
      if negb (rc r =? XAIE_OK) && negb (rc r =? XAIE_INSUFFICIENT_BUFFER_SIZE) then ret (None, s)
      else
        let n := Z.min (u32 (out r)) kPayloadSize in
        let ps := map (fun i => nth i (tail (outb r)) 0) (seq 0 (Z.to_nat n)) in
        let s := set_cache (backtrack_payload_cache s ++ ps) s in
        if head (outb r) is Some 0 then ret (Some tt, s)
        else if head (outb r) is None then ret (Some tt, s)
        else backtrack_loop iterations s
  end.

(** [src/aeg_aiebaremetal.cc:907-986] [AIEGraphSim::BacktrackErrors] the hardware build
    Returns the payloads, [None] for a null pointer. *)
Definition BacktrackErrors (s : AIEGraphSim R) : M (option (list Z) * AIEGraphSim R) :=
  let s := set_cache [] s in
  if dev_DevGen (Dev s) =? XAIE_DEV_GEN_AIE2PS then
    r <-- exec XAie_BacktrackErrorInterruptsCb ;;
    s <-- for_each error_backtrack_callback (outb r) s ;;
    ret (Some (backtrack_payload_cache s), s)
  else if (s32 (dev_NumCols (Dev s)) <=? 0) || (s32 (dev_NumCols (Dev s)) <=? s32 (dev_StartCol (Dev s)))
  then ret (None, s)
  else
    let* (r, s) := backtrack_loop kMaxBacktrackIterations s in
    match r with
    | None => ret (None, s)
    | Some _ =>
        call_handler s ;;;
        ret (match backtrack_payload_cache s with [] => None | l => Some l end, s)
    end.

(** ** Profiling *)

(** [src/aeg_aiebaremetal.cc:998-1004] [AIEGraphSim::start_profiling] *)
Definition graph_start_profiling (port_name : string) (option_ value : Z) : op Z := fun '(s, g) =>
  match EventApi s with
  | None => ret (-1, (s, g))
  | Some t =>
      let '(h, t, p) := start_profiling port_name option_ value t (g_prof g) in
      ret (h, (set_event (Some t) s, set_prof p g))
  end.

(** [src/aeg_aiebaremetal.cc:1017-1026] [AIEGraphSim::start_profiling] two ports *)
Definition graph_start_profiling2 (port_name1 port_name2 : string) (option_ value : Z) : op Z :=
  fun '(s, g) =>
  match EventApi s with
  | None => ret (-1, (s, g))
  | Some t =>
      let '(h, t, p) := start_profiling2 port_name1 port_name2 option_ value t (g_prof g) in
      ret (h, (set_event (Some t) s, set_prof p g))
  end.

(** [src/aeg_aiebaremetal.cc:1032-1038] [AIEGraphSim::read_profiling] *)
Definition graph_read_profiling (h : Z) : op Z := fun '(s, g) =>
  match EventApi s with
  | None => ret (-1, (s, g))
  | Some t => let '(v, p) := read_profiling h t (g_prof g) in ret (wrap_s 64 v, (s, set_prof p g))
  end.

(** [src/aeg_aiebaremetal.cc:1044-1051] [AIEGraphSim::stop_profiling] *)
Definition graph_stop_profiling (h : Z) : op aeg_err := fun '(s, g) =>
  match EventApi s with
  | None => ret (aeg_backend_not_ready, (s, g))
  | Some t => ret (aeg_ok, (s, set_prof (stop_profiling h t (g_prof g)) g))
  end.
End Sim.
