(* ===== verification/AieApi.v ===== *)
(** The public class [AIEGraph] of the hardware build and the port objects
    ([src/aeg_aiebaremetal.cc], [src/include/aeg_baremetal_api.h]), and the error interrupt.

    [AIEGraph] checks its state and its arguments and forwards to the [AIEGraphSim] it owns.
    Every graph stays in [graph_sim_list], so a pointer to a graph is its place in that list.
    Ports keep the pointer to the object they once looked up; a pointer to a GMIO or
    external-buffer object is the graph and the place in its store.  A null name, buffer or
    callback is [None] or zero.  The words of the CDO blob at an address are the parameter
    [blob_at]. *)
From stdpp Require Import base list strings gmap.
From Stdlib Require Import ZArith Lia.
From S2P Require Import Prelude ApiTypes Driver GraphApi Rtp Gmio HostMem PortImpl ExternalBuffer.
From S2P Require Import SimGraph ConfigBin Configure Regs Cdo Event AieGraph.
Local Open Scope Z_scope.
Local Open Scope aeg_scope.

(** [src/include/aeg_baremetal_api.h:105-190] [AIEGraph] its two members *)
Record AIEGraph := mkApi { api_graph : option nat; isInitialized : bool }.

(** The program's graphs, what they share, and whether the interrupt is set up. *)
Record system {P R : Type} := mkSys {
  graph_sim_list : option (list (AIEGraphSim R));
  glob : globals P;
  init_isr : Z
}.
Arguments system : clear implicits.
Arguments mkSys {P R} _ _ _.

(** [src/include/aeg_baremetal_api.h:232-263] [BasePort]
    with the cached object of the derived classes. *)
Record port {A : Type} := mkPort {
  p_portName : string;
  p_graphImpl : option nat;
  p_apiImpl : option (nat * A)
}.
Arguments port : clear implicits.
Arguments mkPort {A} _ _ _.

Section Api.
Context {P R : Type} `{rt : AieRt} {AC : AieConsts} {HO : HashOrder} {Prof : Profiling P R}.
Context (blob_at : Z -> list Z).

Abbreviation sys := (system P R).
(** An operation of the program. *)
Abbreviation sop A := (sys -> M (A * sys)).
Abbreviation gop A := (AIEGraphSim R * globals P -> M (A * (AIEGraphSim R * globals P))).

Definition sims (sy : sys) : list (AIEGraphSim R) := default [] (graph_sim_list sy).

Definition set_sim (i : nat) (s : AIEGraphSim R) (g : globals P) (sy : sys) : sys :=
  mkSys (<[i := s]> <$> graph_sim_list sy) g (init_isr sy).

(** An operation of the graph behind a pointer. *)
Definition on_sim {A} (i : nat) (k : gop A) : sop A := fun sy =>
  match sims sy !! i with
  | None => undefined
  | Some s => let* (a, st) := k (s, glob sy) in ret (a, set_sim i (fst st) (snd st) sy)
  end.

(** [graph->k(...)] *)
Definition on_graph {A} (a : AIEGraph) (k : gop A) : sop A := fun sy =>
  match api_graph a with
  | None => undefined
  | Some i => on_sim i k sy
  end.

(** * The error interrupt *)

(** [src/aeg_aiebaremetal.cc:2106-2130] [get_aie_irq_id] *)
Definition get_aie_irq_id (sy : sys) : Z :=
  match sims sy with
  | [] => 180
  | s :: _ => if dev_DevGen (Dev s) =? XAIE_DEV_GEN_AIE2PS then 0xce + 32 else 180
  end.

(** [src/aeg_aiebaremetal.cc:168-210] [abr_init_isr]
    A null configuration is a zero answer of [XScuGic_LookupConfig]. *)
Definition abr_init_isr (sy : sys) : M sys :=
  let IrqId := get_aie_irq_id sy in
  if negb (init_isr sy =? 0) then ret sy
  else
    exec_ Xil_ExceptionInit ;;;
    exec_ XScuGic_DeviceInitialize ;;;
    exec_ Xil_ExceptionDisable ;;;
    r <-- exec XScuGic_LookupConfig ;;
    if out r =? 0 then ret sy
    else
      r <-- exec XScuGic_CfgInitialize ;;
      if negb (rc r =? 0) then ret sy
      else
        exec_ Xil_ExceptionRegisterHandler ;;;
        r <-- exec (XScuGic_Connect (u32 IrqId)) ;;
        if negb (rc r =? 0) then ret sy
        else
          exec_ (XScuGic_Enable (u32 IrqId)) ;;;
          exec_ Xil_ExceptionEnable ;;;
          ret (mkSys (graph_sim_list sy) (glob sy) 1).

(** The loop of the handler over the graphs. *)
Fixpoint backtrack_all (l : list (AIEGraphSim R)) : M (list (AIEGraphSim R)) :=
  match l with
  | [] => ret []
  | s :: l =>
      let* (_, s) := BacktrackErrors s in
      l <-- backtrack_all l ;; ret (s :: l)
  end.

(** [src/aeg_aiebaremetal.cc:2139-2154] [abr_error_isr] *)
Definition abr_error_isr (sy : sys) : M sys :=
  let IrqId := u32 (get_aie_irq_id sy) in
  exec_ (XScuGic_Disable IrqId) ;;;
  sy <-- match graph_sim_list sy with
         | None => ret sy
         | Some l => l <-- backtrack_all l ;; ret (mkSys (Some l) (glob sy) (init_isr sy))
         end ;;
  exec_ (XScuGic_Enable IrqId) ;;;
  ret sy.

(** * The public class *)

(** [src/aeg_aiebaremetal.cc:1170-1180] [AIEGraph::AIEGraph]
    [cp] is the configuration linked into the program. *)
Definition api_new (cp : ConfigureParser) (GraphName : string) : sop AIEGraph := fun sy =>
  let* (s, g) := graph_new cp GraphName (glob sy) in
  match graph_sim_list sy with
  | None =>
      sy <-- abr_init_isr (mkSys (Some [s]) g (init_isr sy)) ;;
      ret (mkApi (Some O) false, sy)
  | Some l => ret (mkApi (Some (length l)) false, mkSys (Some (l ++ [s])) g (init_isr sy))
  end.

(** [src/aeg_aiebaremetal.cc:1191-1197] [AIEGraph::check_initialized_impl] *)
Definition api_check_initialized_impl (a : AIEGraph) : bool := isInitialized a.

(** [if (!check_initialized_impl()) return e;] *)
Definition checked {A} (e : A) (k : AIEGraph -> sop A) (a : AIEGraph) : sop A := fun sy =>
  if negb (api_check_initialized_impl a) then ret (e, sy) else k a sy.

(** [if (c) return e;] *)
Definition reject_if {A} (c : bool) (e : A) (k : AIEGraph -> sop A) (a : AIEGraph) : sop A := fun sy =>
  if c then ret (e, sy) else k a sy.

(** [return graph->k(...);] *)
Definition forward {A} (k : gop A) (a : AIEGraph) : sop A := on_graph a k.

Abbreviation uninit := aeg_invalid_state.
Abbreviation is_null p := (p =? 0).
Definition is_empty (s : string) : bool := String.eqb s "".
Definition cstr (s : option string) : string := default "" s.

(** [src/aeg_aiebaremetal.cc:1150-1157] [AIEGraph::malloc] *)
Definition api_malloc (len : Z) : AIEGraph -> sop Z :=
  reject_if (len =? 0) 0 (forward (graph_malloc (u32 len))).

(** [src/aeg_aiebaremetal.cc:1163-1165] [AIEGraph::free] *)
Definition api_free (mem : Z) : AIEGraph -> sop aeg_err := forward (graph_free mem).

(** [src/aeg_aiebaremetal.cc:1206-1212] [AIEGraph::selftestexit] *)
Definition api_selftestexit : AIEGraph -> sop aeg_err := checked uninit (forward graph_selftestexit).

(** [src/aeg_aiebaremetal.cc:1218-1224] [AIEGraph::clock_enable] *)
Definition api_clock_enable : AIEGraph -> sop aeg_err := checked uninit (forward graph_clock_enable).

(** [src/aeg_aiebaremetal.cc:1230-1236] [AIEGraph::clock_disable] *)
Definition api_clock_disable : AIEGraph -> sop aeg_err := checked uninit (forward graph_clock_disable).

(** [src/aeg_aiebaremetal.cc:1243-1253] [AIEGraph::error_handling_cb_init] *)
Definition api_error_handling_cb_init (cb priv : Z) : AIEGraph -> sop aeg_err :=
  checked uninit (reject_if (is_null cb) aeg_null_argument
    (forward (graph_error_handling_cb_init cb priv))).

(** [src/aeg_aiebaremetal.cc:1840-1878] [AIEGraph::load_cdo] the build for the application
    processor; the device instance of a graph is never null. *)
Definition api_load_cdo (addr len : Z) (a : AIEGraph) : sop aeg_err := fun sy =>
  if addr =? 0 then ret (aeg_backend_not_ready, sy)
  else if len =? 0 then ret (aeg_invalid_length, sy)
  else match api_graph a with
  | None => ret (aeg_backend_not_ready, sy)
  | Some i =>
      match sims sy !! i with
      | None => undefined
      | Some s =>
          if negb (dev_IsReady (Dev s) =? XAIE_COMPONENT_IS_READY) then ret (aeg_backend_not_ready, sy)
          else
            e <-- cdo_load false (Some (blob_at addr)) len (Some (dev_BaseAddr (Dev s))) (getaiebase s) ;;
            ret (e, sy)
      end
  end.

(** [src/aeg_aiebaremetal.cc:1282-1300] [AIEGraph::init] the loop over the blobs
    Reading past the array is undefined. *)
Fixpoint api_load_blobs (a : AIEGraph) (blobs : list cdo_blob) (count : nat) {struct count}
  : sop aeg_err := fun sy =>
  match count with
  | O => ret (aeg_ok, sy)
  | S count =>
      match blobs with
      | [] => undefined
      | b :: blobs =>
          if blob_data b =? 0 then ret (aeg_null_argument, sy)
          else if blob_len b =? 0 then ret (aeg_invalid_length, sy)
          else
            let* (e, sy) := api_load_cdo (blob_data b) (blob_len b) a sy in
            if negb (aeg_is_ok e) then ret (e, sy) else api_load_blobs a blobs count sy
      end
  end.

(** [src/aeg_aiebaremetal.cc:1269-1308] [AIEGraph::init] *)
Definition api_init (blobs : option (list cdo_blob)) (count : nat) (a : AIEGraph)
  : sys -> M (aeg_err * (AIEGraph * sys)) := fun sy =>
  if bool_decide (api_graph a = None) then ret (aeg_backend_not_ready, (a, sy))
  else if bool_decide (blobs = None) && negb (count =? 0)%nat then ret (aeg_null_argument, (a, sy))
  else
    let* (e, sy) := api_load_blobs a (default [] blobs) count sy in
    if negb (aeg_is_ok e) then ret (e, (a, sy))
    else
      let* (status, sy) := on_graph a graph_init sy in
      if negb (aeg_is_ok status) then ret (status, (a, sy))
      else ret (aeg_ok, (mkApi (api_graph a) true, sy)).

(** [src/aeg_aiebaremetal.cc:1319-1329] [AIEGraph::run] *)
Definition api_run (fuel : nat) (num : Z) : AIEGraph -> sop aeg_err :=
  checked uninit (reject_if ((num =? 0) || (num <? -1)) aeg_invalid_length
    (forward (graph_run fuel num))).

(** The argument checks of the GMIO transfers. *)
Definition gmio_checked (name : option string) (data len : Z) (k : AIEGraph -> sop aeg_err)
  : AIEGraph -> sop aeg_err :=
  checked uninit (reject_if (negb (is_valid_cstr name)) aeg_invalid_name
    (reject_if (is_null data) aeg_null_argument
      (reject_if (len <=? 0) aeg_invalid_length k))).

(** [src/aeg_aiebaremetal.cc:1338-1356] [AIEGraph::aie2gm_nb] *)
Definition api_aie2gm_nb (fuel : nat) (name : option string) (data len : Z) : AIEGraph -> sop aeg_err :=
  gmio_checked name data len (forward (graph_aie2gm_nb fuel (cstr name) data len)).

(** [src/aeg_aiebaremetal.cc:1365-1383] [AIEGraph::gm2aie_nb] *)
Definition api_gm2aie_nb (fuel : nat) (name : option string) (data len : Z) : AIEGraph -> sop aeg_err :=
  gmio_checked name data len (forward (graph_gm2aie_nb fuel (cstr name) data len)).

(** [src/aeg_aiebaremetal.cc:1391-1409] [AIEGraph::aie2gm] *)
Definition api_aie2gm (fuel : nat) (name : option string) (data len : Z) : AIEGraph -> sop aeg_err :=
  gmio_checked name data len (forward (graph_aie2gm fuel (cstr name) data len)).

(** [src/aeg_aiebaremetal.cc:1418-1436] [AIEGraph::gm2aie] *)
Definition api_gm2aie (fuel : nat) (name : option string) (data len : Z) : AIEGraph -> sop aeg_err :=
  gmio_checked name data len (forward (graph_gm2aie fuel (cstr name) data len)).

(** [src/aeg_aiebaremetal.cc:1441-1447] [AIEGraph::wait] *)
Definition api_wait (fuel : nat) : AIEGraph -> sop aeg_err := checked uninit (forward (graph_wait fuel)).

(** [src/aeg_aiebaremetal.cc:1454-1460] [AIEGraph::end] *)
Definition api_end (fuel : nat) : AIEGraph -> sop aeg_err := checked uninit (forward (graph_end fuel)).

(** [src/aeg_aiebaremetal.cc:1468-1478] [AIEGraph::gmio_wait] *)
Definition api_gmio_wait (fuel : nat) (name : string) (syncmode : bool) : AIEGraph -> sop aeg_err :=
  checked uninit (reject_if (is_empty name) aeg_invalid_name
    (forward (graph_gmio_wait fuel name syncmode))).

(** [src/aeg_aiebaremetal.cc:1488-1506] [AIEGraph::update]
    [data] is the memory behind the pointer, [None] for a null pointer. *)
Definition api_update (port_name : string) (data : option (list Z)) (len : Z) : AIEGraph -> sop aeg_err :=
  checked uninit (reject_if (is_empty port_name) aeg_invalid_name
    (reject_if (bool_decide (data = None)) aeg_null_argument
      (reject_if (len =? 0) aeg_invalid_length
        (forward (graph_update port_name (default [] data) len))))).

(** [src/aeg_aiebaremetal.cc:1900-1918] [AIEGraph::read]
    The bytes stored at [data] are returned with the code. *)
Definition api_read (port_name : string) (data len : Z) : AIEGraph -> sop (aeg_err * list Z) :=
  checked (uninit, []) (reject_if (is_empty port_name) (aeg_invalid_name, [])
    (reject_if (is_null data) (aeg_null_argument, [])
      (reject_if (len <=? 0) (aeg_invalid_length, [])
        (forward (graph_read port_name len))))).

(** [src/aeg_aiebaremetal.cc:1514-1522] [AIEGraph::dumpcorelog] *)
Definition api_dumpcorelog (row col : Z) : AIEGraph -> sop Z :=
  checked 0 (reject_if ((row <? 0) || (col <? 0)) 0 (forward (graph_dumpcorelog row col))).

(** [src/aeg_aiebaremetal.cc:1529-1534] [AIEGraph::getaiedevinst]
    The device instance of a graph, named by the graph. *)
Definition api_getaiedevinst (a : AIEGraph) : option nat :=
  if negb (api_check_initialized_impl a) then None else api_graph a.

(** [src/aeg_aiebaremetal.cc:1199-1201] [AIEGraph::getGraphImpl] *)
Definition getGraphImpl (a : AIEGraph) : option nat := api_graph a.

(** [src/aeg_aiebaremetal.cc:1886-1891] [AIEGraph::BacktrackErrors] *)
Definition api_BacktrackErrors : AIEGraph -> sop (option (list Z)) :=
  checked None (forward (fun '(s, g) => let* (r, s) := BacktrackErrors s in ret (r, (s, g)))).

(** The name checks of the external-buffer transfers. *)
Definition eb_checked (name : option string) (port_name : string) (k : AIEGraph -> sop aeg_err)
  : AIEGraph -> sop aeg_err :=
  checked uninit (reject_if (negb (is_valid_cstr name) || is_empty port_name) aeg_invalid_name k).

(** [src/aeg_aiebaremetal.cc:1926-1940] [AIEGraph::setAddress] *)
Definition api_setAddress (name : option string) (ptr : Z) : AIEGraph -> sop aeg_err :=
  checked uninit (reject_if (negb (is_valid_cstr name)) aeg_invalid_name
    (reject_if (is_null ptr) aeg_null_argument (forward (graph_setAddress (cstr name) ptr)))).

(** [src/aeg_aiebaremetal.cc:1948-1958] [AIEGraph::wait] *)
Definition api_eb_wait (fuel : nat) (name : option string) (port_name : string) : AIEGraph -> sop aeg_err :=
  eb_checked name port_name (forward (graph_eb_wait fuel (cstr name) port_name)).

(** [src/aeg_aiebaremetal.cc:1967-1977] [AIEGraph::gm2aie_nb] *)
Definition api_eb_gm2aie_nb (name : option string) (port_name : string) : AIEGraph -> sop aeg_err :=
  eb_checked name port_name (forward (graph_eb_gm2aie_nb (cstr name) port_name)).

(** [src/aeg_aiebaremetal.cc:1986-1996] [AIEGraph::aie2gm_nb] *)
Definition api_eb_aie2gm_nb (name : option string) (port_name : string) : AIEGraph -> sop aeg_err :=
  eb_checked name port_name (forward (graph_eb_aie2gm_nb (cstr name) port_name)).

(** [src/aeg_aiebaremetal.cc:2008-2022] [AIEGraph::setupPingPongBuffers] *)
Definition api_setupPingPongBuffers (name : option string) (ptr1 ptr2 : Z) (sync_cache : bool)
  : AIEGraph -> sop aeg_err :=
  checked uninit (reject_if (negb (is_valid_cstr name)) aeg_invalid_name
    (reject_if (is_null ptr1 || is_null ptr2) aeg_null_argument
      (forward (graph_setupPingPongBuffers (cstr name) ptr1 ptr2 sync_cache)))).

(** [src/aeg_aiebaremetal.cc:2032-2046] [AIEGraph::start_profiling] *)
Definition api_start_profiling (port_name : string) (option_ value : Z) : AIEGraph -> sop Z :=
  checked (-1) (reject_if (is_empty port_name) (-1)
    (reject_if (negb (is_valid_profiling_option option_)) (-1)
      (forward (graph_start_profiling port_name option_ value)))).

(** [src/aeg_aiebaremetal.cc:2056-2070] [AIEGraph::start_profiling] *)
Definition api_start_profiling2 (port_name1 port_name2 : string) (option_ value : Z) : AIEGraph -> sop Z :=
  checked (-1) (reject_if (is_empty port_name1 || is_empty port_name2) (-1)
    (reject_if (negb (is_valid_profiling_option option_)) (-1)
      (forward (graph_start_profiling2 port_name1 port_name2 option_ value)))).

(** [src/aeg_aiebaremetal.cc:2077-2087] [AIEGraph::read_profiling] *)
Definition api_read_profiling (h : Z) : AIEGraph -> sop Z :=
  checked (-1) (reject_if (h <? 0) (-1) (forward (graph_read_profiling h))).

(** [src/aeg_aiebaremetal.cc:2093-2103] [AIEGraph::stop_profiling] *)
Definition api_stop_profiling (h : Z) : AIEGraph -> sop aeg_err :=
  checked uninit (reject_if (h <? 0) aeg_invalid_state (forward (graph_stop_profiling h))).

(** * Requests

    One constructor per method of the class, its result, and the method it calls. *)
Inductive api_req :=
| A_malloc (len : Z)
| A_free (mem : Z)
| A_selftestexit
| A_clock_enable
| A_clock_disable
| A_error_handling_cb_init (cb priv : Z)
| A_init (blobs : option (list cdo_blob)) (count : nat)
| A_load_cdo (addr len : Z)
| A_run (num : Z)
| A_aie2gm_nb (name : option string) (data len : Z)
| A_gm2aie_nb (name : option string) (data len : Z)
| A_aie2gm (name : option string) (data len : Z)
| A_gm2aie (name : option string) (data len : Z)
| A_wait
| A_end
| A_gmio_wait (name : string) (syncmode : bool)
| A_update (port_name : string) (data : option (list Z)) (len : Z)
| A_read (port_name : string) (data len : Z)
| A_dumpcorelog (row col : Z)
| A_BacktrackErrors
| A_setAddress (name : option string) (ptr : Z)
| A_eb_wait (name : option string) (port_name : string)
| A_eb_gm2aie_nb (name : option string) (port_name : string)
| A_eb_aie2gm_nb (name : option string) (port_name : string)
| A_setupPingPongBuffers (name : option string) (ptr1 ptr2 : Z) (sync_cache : bool)
| A_start_profiling (port_name : string) (option_ value : Z)
| A_start_profiling2 (port_name1 port_name2 : string) (option_ value : Z)
| A_read_profiling (h : Z)
| A_stop_profiling (h : Z).

Definition api_res (r : api_req) : Type :=
  match r with
  | A_malloc _ | A_dumpcorelog _ _ | A_start_profiling _ _ _ | A_start_profiling2 _ _ _ _
  | A_read_profiling _ => Z
  | A_read _ _ _ => aeg_err * list Z
  | A_BacktrackErrors => option (list Z)
  | _ => aeg_err
  end.

(** A method declared [const] leaves the object alone. *)
Definition const_method {A} (k : AIEGraph -> sop A) (a : AIEGraph) : sys -> M (A * (AIEGraph * sys)) :=
  fun sy => let* (x, sy) := k a sy in ret (x, (a, sy)).

(** [src/include/aeg_baremetal_api.h:105-190] [AIEGraph] its public methods *)
Definition api_call (fuel : nat) (r : api_req) (a : AIEGraph) : sys -> M (api_res r * (AIEGraph * sys)) :=
  match r with
  | A_malloc len => const_method (api_malloc len) a
  | A_free mem => const_method (api_free mem) a
  | A_selftestexit => const_method api_selftestexit a
  | A_clock_enable => const_method api_clock_enable a
  | A_clock_disable => const_method api_clock_disable a
  | A_error_handling_cb_init cb priv => const_method (api_error_handling_cb_init cb priv) a
  | A_init blobs count => api_init blobs count a
  | A_load_cdo addr len => const_method (api_load_cdo addr len) a
  | A_run num => const_method (api_run fuel num) a
  | A_aie2gm_nb n d l => const_method (api_aie2gm_nb fuel n d l) a
  | A_gm2aie_nb n d l => const_method (api_gm2aie_nb fuel n d l) a
  | A_aie2gm n d l => const_method (api_aie2gm fuel n d l) a
  | A_gm2aie n d l => const_method (api_gm2aie fuel n d l) a
  | A_wait => const_method (api_wait fuel) a
  | A_end => const_method (api_end fuel) a
  | A_gmio_wait n b => const_method (api_gmio_wait fuel n b) a
  | A_update n d l => const_method (api_update n d l) a
  | A_read n d l => const_method (api_read n d l) a
  | A_dumpcorelog row col => const_method (api_dumpcorelog row col) a
  | A_BacktrackErrors => const_method api_BacktrackErrors a
  | A_setAddress n p => const_method (api_setAddress n p) a
  | A_eb_wait n p => const_method (api_eb_wait fuel n p) a
  | A_eb_gm2aie_nb n p => const_method (api_eb_gm2aie_nb n p) a
  | A_eb_aie2gm_nb n p => const_method (api_eb_aie2gm_nb n p) a
  | A_setupPingPongBuffers n p1 p2 b => const_method (api_setupPingPongBuffers n p1 p2 b) a
  | A_start_profiling n o v => const_method (api_start_profiling n o v) a
  | A_start_profiling2 n1 n2 o v => const_method (api_start_profiling2 n1 n2 o v) a
  | A_read_profiling h => const_method (api_read_profiling h) a
  | A_stop_profiling h => const_method (api_stop_profiling h) a
  end.

(** * Ports *)

(** An operation of a port. *)
Abbreviation pop A B := (port A -> sys -> M (B * (port A * sys))).

(** [if (c) return e;] in a method of a port. *)
Definition port_reject_if {A B} (c : bool) (e : B) (k : pop A B) : pop A B := fun p sy =>
  if c then ret (e, (p, sy)) else k p sy.

(** [auto *g = graphImpl; if (!g) return e; return g->k(...);] *)
Definition port_forward {A B} (e : B) (k : string -> gop B) : pop A B := fun p sy =>
  match p_graphImpl p with
  | None => ret (e, (p, sy))
  | Some i => let* (b, sy) := on_sim i (k (p_portName p)) sy in ret (b, (p, sy))
  end.

(** [src/aeg_aiebaremetal.cc:2597-2612] [BasePort::start_profiling] *)
Definition hw_start_profiling {A} (option_ value : Z) : pop A Z := fun p =>
  port_reject_if (is_empty (p_portName p)) (-1)
    (port_reject_if (negb (is_valid_profiling_option option_)) (-1)
      (port_forward (-1) (fun n => graph_start_profiling n option_ value))) p.

(** [src/aeg_aiebaremetal.cc:2615-2626] [BasePort::read_profiling] *)
Definition hw_read_profiling {A} (h : Z) : pop A Z :=
  port_reject_if (h <? 0) (-1) (port_forward (-1) (fun _ => graph_read_profiling h)).

(** [src/aeg_aiebaremetal.cc:2629-2640] [BasePort::stop_profiling] *)
Definition hw_stop_profiling {A} (h : Z) : pop A aeg_err :=
  port_reject_if (h <? 0) aeg_invalid_state
    (port_forward aeg_backend_not_ready (fun _ => graph_stop_profiling h)).

(** [if (!apiImpl && g) apiImpl = look(portName); if (!apiImpl) return e; return k(apiImpl);]
    A look-up may change the tables of the graph. *)
Definition with_impl {A B} (look : string -> AIEGraphSim R -> option A * AIEGraphSim R) (e : B)
    (k : string -> A -> gop B) : pop A B := fun p sy =>
  let* (p, sy) :=
    match p_apiImpl p, p_graphImpl p with
    | None, Some i =>
        match sims sy !! i with
        | None => undefined
        | Some s =>
            let '(x, s) := look (p_portName p) s in
            ret (mkPort (p_portName p) (Some i) (pair i <$> x), set_sim i s (glob sy) sy)
        end
    | _, _ => ret (p, sy)
    end in
  match p_apiImpl p with
  | None => ret (e, (p, sy))
  | Some (i, x) => let* (b, sy) := on_sim i (k (p_portName p) x) sy in ret (b, (p, sy))
  end.

Definition find_gmio (name : string) (s : AIEGraphSim R) : option nat * AIEGraphSim R :=
  (get_gmio_api_impl name (cfg s), s).
Definition find_ebuffer (name : string) (s : AIEGraphSim R) : option nat * AIEGraphSim R :=
  (get_externalbuffer_api_impl name (cfg s), s).
Definition find_rtp (name : string) (s : AIEGraphSim R) : option RtpApiImpl * AIEGraphSim R :=
  let '(x, c) := get_rtp_api_impl name (cfg s) in (x, set_cfg c s).
Definition find_sharedbuffer (name : string) (s : AIEGraphSim R)
  : option SharedBufferApiImpl * AIEGraphSim R :=
  let '(x, c) := get_sharedbuffer_api_impl name (cfg s) in (x, set_cfg c s).

(** ** GMIO ports *)

(** A method of the cached GMIO object. *)
Definition gmio_port (k : config_manager -> GmioApiImpl -> M (aeg_err * GmioApiImpl)) : pop nat aeg_err :=
  with_impl find_gmio aeg_backend_not_ready (fun _ j st => at_gmio j (k (g_cm (snd st))) st).

(** [src/aeg_aiebaremetal.cc:2643-2661] [InputGMIO::gm2aie_nb] *)
Definition hw_gm2aie_nb (fuel : nat) (data len : Z) : pop nat aeg_err :=
  port_reject_if (is_null data) aeg_null_argument (port_reject_if (len <=? 0) aeg_invalid_length
    (gmio_port (fun cm p => coded (gm2aie_nb cm fuel data len p)))).

(** [src/aeg_aiebaremetal.cc:2664-2682] [InputGMIO::gm2aie] *)
Definition hw_gm2aie (fuel : nat) (data len : Z) : pop nat aeg_err :=
  port_reject_if (is_null data) aeg_null_argument (port_reject_if (len <=? 0) aeg_invalid_length
    (gmio_port (fun cm p => coded (impl_gm2aie false cm fuel data len p)))).

(** [src/aeg_aiebaremetal.cc:2685-2703] [OutputGMIO::aie2gm_nb] *)
Definition hw_aie2gm_nb (fuel : nat) (data len : Z) : pop nat aeg_err :=
  port_reject_if (is_null data) aeg_null_argument (port_reject_if (len <=? 0) aeg_invalid_length
    (gmio_port (fun cm p => coded (aie2gm_nb false cm fuel data len p)))).

(** [src/aeg_aiebaremetal.cc:2706-2724] [OutputGMIO::aie2gm] *)
Definition hw_aie2gm (fuel : nat) (data len : Z) : pop nat aeg_err :=
  port_reject_if (is_null data) aeg_null_argument (port_reject_if (len <=? 0) aeg_invalid_length
    (gmio_port (fun cm p => coded (impl_aie2gm false cm fuel data len p)))).

(** [src/aeg_aiebaremetal.cc:2727-2741] [OutputGMIO::gmio_wait] *)
Definition hw_gmio_wait (fuel : nat) (syncmode : bool) : pop nat aeg_err :=
  port_reject_if (negb syncmode) aeg_user_error
    (gmio_port (fun _ p => let* (n, p) := impl_wait false fuel syncmode p in ret (aeg_err_of_int n, p))).

(** ** External buffers *)

Definition ebuffer_port (look : string -> AIEGraphSim R -> option nat * AIEGraphSim R)
    (k : config_manager -> string -> ExternalBufferApiImpl -> M (aeg_err * ExternalBufferApiImpl))
  : pop nat aeg_err :=
  with_impl look aeg_backend_not_ready (fun n j st => at_ebuffer j (k (g_cm (snd st)) n) st).

(** [src/aeg_aiebaremetal.cc:2747-2762] [ExternalBuffer::setAddress] *)
Definition hw_setAddress (ptr : Z) : pop nat aeg_err :=
  port_reject_if (is_null ptr) aeg_null_argument
    (ebuffer_port find_ebuffer (fun _ _ b => ret (aeg_ok, setAddress ptr b))).

(** [src/aeg_aiebaremetal.cc:2765-2779] [ExternalBuffer::wait] *)
Definition hw_eb_wait (fuel : nat) (port_name : string) : pop nat aeg_err :=
  port_reject_if (is_empty port_name) aeg_invalid_name
    (ebuffer_port find_ebuffer (fun cm _ b => coded (eb_wait false cm fuel port_name b))).

(** [src/aeg_aiebaremetal.cc:2782-2796] [ExternalBuffer::gm2aie_nb] *)
Definition hw_eb_gm2aie_nb (port_name : string) : pop nat aeg_err :=
  port_reject_if (is_empty port_name) aeg_invalid_name
    (ebuffer_port find_ebuffer (fun cm _ b => coded (eb_gm2aie_nb false cm port_name b))).

(** [src/aeg_aiebaremetal.cc:2799-2813] [ExternalBuffer::aie2gm_nb] *)
Definition hw_eb_aie2gm_nb (port_name : string) : pop nat aeg_err :=
  port_reject_if (is_empty port_name) aeg_invalid_name
    (ebuffer_port find_ebuffer (fun cm _ b => coded (eb_aie2gm_nb false cm port_name b))).

(** [src/aeg_aiebaremetal.cc:2816-2830] [ExternalBuffer::setupPingPongBuffers] *)
Definition hw_setupPingPongBuffers (ptr1 ptr2 : Z) (sync_cache : bool) : pop nat aeg_err :=
  port_reject_if (is_null ptr1 || is_null ptr2) aeg_null_argument
    (ebuffer_port find_ebuffer
       (fun cm _ b => coded (setupPingPongBuffers false cm ptr1 ptr2 sync_cache b))).

(** [src/aeg_aiebaremetal.cc:2834-2855] [ExternalBuffer::gm2aie_nb] *)
Definition hw_eb_gm2aie_nb_default : pop nat aeg_err := fun p =>
  port_reject_if (is_empty (p_portName p)) aeg_invalid_name
    (hw_eb_gm2aie_nb (default_port ".out[0]" (p_portName p))) p.

(** [src/aeg_aiebaremetal.cc:2859-2880] [ExternalBuffer::aie2gm_nb] *)
Definition hw_eb_aie2gm_nb_default : pop nat aeg_err := fun p =>
  port_reject_if (is_empty (p_portName p)) aeg_invalid_name
    (hw_eb_aie2gm_nb (default_port ".in[0]" (p_portName p))) p.

(** [src/aeg_aiebaremetal.cc:2890-2894] [ExternalBufferPort::wait] the object of the buffer
    whose name stands before the last dot *)
Definition find_ebuffer_of_port (name : string) (s : AIEGraphSim R) : option nat * AIEGraphSim R :=
  match rfind dot name with
  | None => (None, s)
  | Some lastDot => find_ebuffer (String.substring 0 lastDot name) s
  end.

(** [src/aeg_aiebaremetal.cc:2883-2901] [ExternalBufferPort::wait] *)
Definition hw_ebp_wait (fuel : nat) : pop nat aeg_err := fun p =>
  port_reject_if (is_empty (p_portName p)) aeg_invalid_name
    (ebuffer_port find_ebuffer_of_port (fun cm n b => coded (eb_wait false cm fuel n b))) p.

(** [src/aeg_aiebaremetal.cc:2904-2922] [ExternalBufferPort::gm2aie_nb] *)
Definition hw_ebp_gm2aie_nb : pop nat aeg_err := fun p =>
  port_reject_if (is_empty (p_portName p)) aeg_invalid_name
    (ebuffer_port find_ebuffer_of_port (fun cm n b => coded (eb_gm2aie_nb false cm n b))) p.

(** [src/aeg_aiebaremetal.cc:2925-2943] [ExternalBufferPort::aie2gm_nb] *)
Definition hw_ebp_aie2gm_nb : pop nat aeg_err := fun p =>
  port_reject_if (is_empty (p_portName p)) aeg_invalid_name
    (ebuffer_port find_ebuffer_of_port (fun cm n b => coded (eb_aie2gm_nb false cm n b))) p.

(** ** Parameters *)

(** [src/aeg_aiebaremetal.cc:2946-2964] [RTP::update] *)
Definition hw_rtp_update (data : option (list Z)) (len : Z) : pop RtpApiImpl aeg_err :=
  port_reject_if (bool_decide (data = None)) aeg_null_argument
    (port_reject_if (len =? 0) aeg_invalid_length
      (with_impl find_rtp aeg_backend_not_ready (fun _ x '(s, g) =>
         let* (e, ga) := impl_update (g_cm g) x (default [] data) len (GraphApi s) in
         ret (err_from_abr e, (set_graph ga s, g))))).

(** [src/aeg_aiebaremetal.cc:2967-2985] [RTP::read] *)
Definition hw_rtp_read (data len : Z) : pop RtpApiImpl (aeg_err * list Z) :=
  port_reject_if (is_null data) (aeg_null_argument, [])
    (port_reject_if (len <=? 0) (aeg_invalid_length, [])
      (with_impl find_rtp (aeg_backend_not_ready, []) (fun _ x '(s, g) =>
         let* (e, bs) := impl_read (g_cm g) x len (GraphApi s) in
         ret ((err_from_abr e, bs), (s, g))))).

(** [src/aeg_aiebaremetal.cc:2988-3006] [SharedBuffer::update] *)
Definition hw_shared_update (data : option (list Z)) (len : Z) : pop SharedBufferApiImpl aeg_err :=
  port_reject_if (bool_decide (data = None)) aeg_null_argument
    (port_reject_if (len =? 0) aeg_invalid_length
      (with_impl find_sharedbuffer aeg_backend_not_ready (fun _ x '(s, g) =>
         let* (e, dn) := impl_update_shared x (default [] data) len (g_inited g) (GraphApi s) in
         ret (err_from_abr e, (s, set_inited dn g))))).

(** * The allocator *)

Lemma set_sim_same i s (sy : sys) : sims sy !! i = Some s -> set_sim i s (glob sy) sy = sy.
Proof.
  unfold sims, set_sim; destruct sy as [[l|] g isr]; simpl; [|done].
  intros H; by rewrite list_insert_id.
Qed.

(** The public allocator asks the driver for the low 32 bits of the size it is given, in one
    call, and hands out what the driver returns: for a size of 4 GiB or more the caller gets a
    smaller buffer than it asked for, and no error. *)
Theorem malloc_truncates_size a i s m len (sy : sys) h :
  api_graph a = Some i -> sims sy !! i = Some s -> xaiemem s = Some m -> ipc_ m = false -> 0 < len ->
  let call := XAie_MemAllocate (u32 len) in
  let r := drv h call in
  api_malloc len a sy h = Some ((if rc r =? 0 then out r else 0, sy), after h [call]) /\
  0 <= u32 len <= len /\ (u32 len = len <-> len < 2 ^ 32).
Proof.
  intros Ha Hs Hm Hi Hl call r; split.
  - unfold api_malloc, reject_if, forward, on_graph, on_sim; rewrite (proj2 (Z.eqb_neq len 0)) by lia.
    rewrite Ha, Hs; unfold graph_malloc, mem_malloc; rewrite Hm, Hi.
    rewrite wrap_u_small by (pose proof (wrap_u_range 32 len ltac:(lia)); lia).
    unfold bind, exec, ret; simpl; rewrite set_sim_same by done; done.
  - unfold wrap_u; change (2 ^ 32) with 4294967296 in *.
    pose proof (Z.mod_pos_bound len 4294967296); pose proof (Z.mod_le len 4294967296).
    split; [lia|]; split; [intros <-; lia|intros; apply Z.mod_small; lia].
Qed.
End Api.
