(* ===== verification/AieFacts.v ===== *)
(** Properties of the hardware build's graph class and public API ([AieGraph], [AieApi]):
    error reports and the interrupt, the order of [init], the pointers between graphs, objects
    and ports, and the checks of the public class. *)
From stdpp Require Import base list strings gmap.
From Stdlib Require Import ZArith Lia.
From S2P Require Import Prelude ApiTypes Driver GraphApi Rtp Gmio HostMem PortImpl ExternalBuffer.
From S2P Require Import SimGraph ConfigBin Configure Regs Cdo Event AieGraph AieApi.
Local Open Scope Z_scope.
Local Open Scope aeg_scope.

(** * Error reports *)

Lemma max_iterations : kMaxBacktrackIterations = Z.to_nat 16384.
Proof. reflexivity. Qed.
#[local] Opaque kMaxBacktrackIterations Z.to_nat.

Section Backtrack.
Context {R : Type} `{rt : AieRt} {AC : AieConsts}.
Implicit Types s : AIEGraphSim R.

(** The query of the error registers of a graph's columns. *)
Definition bt_call s : call :=
  XAie_BacktrackErrorInterrupts (dev_StartCol (Dev s)) (dev_NumCols (Dev s)) kPayloadSize.

(** The answers to the first [k] repetitions of a call. *)
Definition answers (h : hist) (k : nat) (c : call) : list resp := map snd (events h (replicate k c)).

Definition bt_good (r : resp) : bool := (rc r =? XAIE_OK) || (rc r =? XAIE_INSUFFICIENT_BUFFER_SIZE).
(** [IsNextInfoValid] *)
Definition bt_more (r : resp) : bool := negb (default 0 (head (outb r)) =? 0).
(** The payloads of one answer: as many as the count says, and at most 32. *)
Definition bt_payloads (r : resp) : list Z :=
  map (fun i => nth i (tail (outb r)) 0) (seq 0 (Z.to_nat (Z.min (u32 (out r)) 32))).
(** The call of the application's handler, when one is registered. *)
Definition handler_calls s (l : list Z) : list call :=
  if error_handling_cb s =? 0 then []
  else [error_handler (error_handling_cb s) l (error_handling_cb_priv s)].

Lemma bt_payloads_bound r : (length (bt_payloads r) <= 32)%nat.
Proof. unfold bt_payloads; rewrite length_map, length_seq; lia. Qed.

Lemma payloads_bound rs : (length (concat (map bt_payloads rs)) <= 32 * length rs)%nat.
Proof.
  induction rs as [|r rs IH]; cbn [map concat length]; [lia|].
  rewrite length_app; pose proof (bt_payloads_bound r); lia.
Qed.

(** What the loop ends with: every answer good and only the last without a successor, or the
    first bad answer, or the limit. *)
Definition bt_complete (rs : list resp) : Prop :=
  exists rs' r, rs = rs' ++ [r] /\ Forall (fun r => bt_good r = true) rs /\
    Forall (fun r => bt_more r = true) rs' /\ bt_more r = false.

Lemma set_cache_set l l' s : set_cache l (set_cache l' s) = set_cache l s.
Proof. done. Qed.

Lemma call_handler_eq s h : call_handler s h = Some (tt, after h (handler_calls s (backtrack_payload_cache s))).
Proof. unfold call_handler, handler_calls; destruct (_ =? 0); [by rewrite after_nil|done]. Qed.

Lemma answers_S h k c : answers h (S k) c = drv h c :: answers (after h [c]) k c.
Proof. done. Qed.

Lemma backtrack_loop_spec n s h :
  exists k l, (k <= n)%nat /\ (n <> 0 -> 1 <= k)%nat /\
    let rs := answers h k (bt_call s) in
    let h' := after h (replicate k (bt_call s)) in
    (backtrack_loop n s h = Some ((Some tt, set_cache (backtrack_payload_cache s ++ l) s), h') /\
       bt_complete rs /\ l = concat (map bt_payloads rs)) \/
    (backtrack_loop n s h = Some ((None, set_cache (backtrack_payload_cache s ++ l) s), h') /\
       ((exists rs' r, rs = rs' ++ [r] /\ bt_good r = false) \/
        (k = n /\ Forall (fun r => bt_more r = true) rs))).
Proof.
  revert s h; induction n as [|n IH]; intros s h.
  { exists 0%nat, []; split; [lia|]; split; [lia|]; right; simpl; rewrite app_nil_r, after_nil.
    split; [by destruct s|]; right; done. }
  set (c := bt_call s); set (r := drv h c).
  destruct (bt_good r) eqn:Hg.
  2: { exists 1%nat, []; split; [lia|]; split; [lia|]; right.
    cbn [backtrack_loop]; rewrite (bind_Some _ _ _ _ _ (exec_eq _ _)); fold (bt_call s); fold c; fold r.
    unfold bt_good in Hg; apply orb_false_iff in Hg as [G1 G2]; rewrite G1, G2; simpl.
    rewrite app_nil_r; split; [by destruct s|]; left; exists [], r; split; [done|].
    unfold bt_good; by rewrite G1, G2. }
  assert (E : forall Y, (if negb (rc r =? XAIE_OK) && negb (rc r =? XAIE_INSUFFICIENT_BUFFER_SIZE)
                then ret (None, s) else Y) (after h [c]) = (Y : M (option unit * AIEGraphSim R)) (after h [c])).
  { intros Y; unfold bt_good in Hg; destruct (rc r =? XAIE_OK); [done|]; simpl in Hg; rewrite Hg; done. }
  cbn [backtrack_loop]; rewrite (bind_Some _ _ _ _ _ (exec_eq _ _)); fold (bt_call s); fold c; fold r.
  rewrite E; fold (bt_payloads r); set (s1 := set_cache (backtrack_payload_cache s ++ bt_payloads r) s).
  destruct (bt_more r) eqn:Hm.
  - destruct (IH s1 (after h [c])) as (k & l & Hk & _ & IHk).
    exists (S k), (bt_payloads r ++ l); split; [lia|]; split; [lia|].
    change (bt_call s1) with c in IHk; rewrite answers_S; fold r; simpl replicate.
    change (c :: replicate k c) with ([c] ++ replicate k c).
    rewrite <- (after_app h [c]); cbv zeta in IHk |- *; simpl backtrack_payload_cache in IHk.
    replace (if head (outb r) is Some 0 then ret (Some tt, s1)
             else if head (outb r) is None then ret (Some tt, s1) else backtrack_loop n s1)
      with (backtrack_loop n s1)
      by (unfold bt_more in Hm; destruct (outb r) as [|[] ?]; done).
    unfold s1 in IHk |- *; rewrite set_cache_set, <- app_assoc in IHk.
    destruct IHk as [(-> & (rs' & r' & E1 & F1 & F2 & E2) & ->)|(-> & Hl)]; [left|right].
    + split; [done|]; split; [|done]; exists (r :: rs'), r'; rewrite E1.
      split; [done|]; split; [|by split; [constructor|]].
      rewrite <- E1; by constructor.
    + split; [done|]; destruct Hl as [(rs' & r' & -> & ?)|(-> & ?)]; [left|right].
      * by exists (r :: rs'), r'.
      * split; [done|]; by constructor.
  - exists 1%nat, (bt_payloads r); split; [lia|]; split; [lia|]; left.
    replace (if head (outb r) is Some 0 then ret (Some tt, s1)
             else if head (outb r) is None then ret (Some tt, s1) else backtrack_loop n s1)
      with (ret (Some tt, s1))
      by (unfold bt_more in Hm; destruct (outb r) as [|[] ?]; done).
    split; [done|]; split; [|simpl; by rewrite app_nil_r].
    exists [], r; split; [done|]; split; [by constructor|done].
Qed.

(** The columns the loop accepts. *)
Definition bt_columns_ok s : bool :=
  negb ((s32 (dev_NumCols (Dev s)) <=? 0) || (s32 (dev_NumCols (Dev s)) <=? s32 (dev_StartCol (Dev s)))).

Lemma BacktrackErrors_columns s h :
  dev_DevGen (Dev s) <> XAIE_DEV_GEN_AIE2PS ->
  BacktrackErrors s h =
    if bt_columns_ok s then
      (let* (r, s) := backtrack_loop kMaxBacktrackIterations (set_cache [] s) in
       match r with
       | None => ret (None, s)
       | Some _ => call_handler s ;;;
           ret (match backtrack_payload_cache s with [] => None | l => Some l end, s)
       end) h
    else Some ((None, set_cache [] s), h).
Proof.
  intros Hg; unfold BacktrackErrors, bt_columns_ok; simpl.
  rewrite (proj2 (Z.eqb_neq _ _) Hg); destruct (_ || _); done.
Qed.

(** The reports of a device that answers through a callback. *)
Lemma callbacks_eq l s h :
  exists s', for_each error_backtrack_callback l (set_cache [] s) h =
    Some (s', after h (flat_map (fun p => handler_calls s [p]) l)) /\ s' = set_cache [] s.
Proof.
  revert h; induction l as [|p l IH]; intros h; simpl.
  { eexists; split; [rewrite after_nil; reflexivity|done]. }
  assert (E : error_backtrack_callback p (set_cache [] s) h =
              Some (set_cache [] s, after h (handler_calls s [p]))).
  { unfold error_backtrack_callback.
    rewrite (bind_Some _ _ _ _ _ (call_handler_eq _ _)); done. }
  rewrite (bind_Some _ _ _ _ _ E).
  destruct (IH (after h (handler_calls s [p]))) as (s' & -> & ->).
  eexists; rewrite after_app; done.
Qed.

Lemma BacktrackErrors_aie2ps s h :
  dev_DevGen (Dev s) = XAIE_DEV_GEN_AIE2PS ->
  BacktrackErrors s h = Some ((Some [], set_cache [] s),
    after h (XAie_BacktrackErrorInterruptsCb ::
             flat_map (fun p => handler_calls s [p]) (outb (drv h XAie_BacktrackErrorInterruptsCb)))).
Proof.
  intros Hg; unfold BacktrackErrors; simpl; rewrite (proj2 (Z.eqb_eq _ _) Hg).
  rewrite (bind_Some _ _ _ _ _ (exec_eq _ _)).
  destruct (callbacks_eq (outb (drv h XAie_BacktrackErrorInterruptsCb)) s
              (after h [XAie_BacktrackErrorInterruptsCb])) as (s' & E & ->).
  rewrite (bind_Some _ _ _ _ _ E), after_app; done.
Qed.

(** The error report of a device read by polling: it always returns, after at least one and at
    most 16384 queries.  Either every answer was good and all but the last announced more; then
    the payloads of all answers, at most 32 each, are collected in order, the handler is called
    once with all of them, and they are returned, a null pointer if there are none.  Or the last
    answer was an error or the limit was reached; then nothing is returned and the handler is
    not called. *)
Theorem backtrack_reports_all s h :
  dev_DevGen (Dev s) <> XAIE_DEV_GEN_AIE2PS -> bt_columns_ok s = true ->
  exists k l, (1 <= k <= Z.to_nat 16384)%nat /\ (length l <= 32 * k)%nat /\
    let rs := answers h k (bt_call s) in
    let polls := replicate k (bt_call s) in
    (BacktrackErrors s h =
       Some ((if decide (l = []) then None else Some l, set_cache l s), after h (polls ++ handler_calls s l)) /\
       bt_complete rs /\ l = concat (map bt_payloads rs)) \/
    (exists s', BacktrackErrors s h = Some ((None, s'), after h polls) /\
       ((exists rs' r, rs = rs' ++ [r] /\ bt_good r = false) \/
        (k = Z.to_nat 16384 /\ Forall (fun r => bt_more r = true) rs))).
Proof.
  intros Hg Hc; rewrite (BacktrackErrors_columns s h Hg), Hc.
  destruct (backtrack_loop_spec kMaxBacktrackIterations (set_cache [] s) h) as (k & l & H1 & H2 & H).
  rewrite max_iterations in H, H1, H2 |- *.
  assert (Hk : (1 <= k)%nat) by (apply H2; lia).
  change (bt_call (set_cache [] s)) with (bt_call s) in H; simpl in H; rewrite set_cache_set in H.
  destruct H as [(E & Hr & ->)|(E & Hr)].
  - exists k, (concat (map bt_payloads (answers h k (bt_call s)))); split; [done|]; split.
    + transitivity (32 * length (answers h k (bt_call s)))%nat.
      2: { unfold answers; rewrite length_map, events_length, length_replicate; lia. }
      apply payloads_bound.
    + left; split; [|done]; rewrite (bind_Some _ _ _ _ _ E).
      rewrite (bind_Some _ _ _ _ _ (call_handler_eq _ _)), after_app; simpl.
      destruct (concat _); done.
  - exists k, []; split; [done|]; split; [simpl; lia|]; right.
    rewrite (bind_Some _ _ _ _ _ E); eexists; done.
Qed.

(** Two reports that are lost.  The columns of a partition that does not start at column
    zero are refused when the partition starts at or after its number of columns: nothing is
    asked of the driver and the handler is not called.  On the generation that reports through
    a callback the handler is called once per error, and the pointer returned is that of an
    empty vector, whatever was reported. *)
Theorem backtrack_reports_lost s h :
  (dev_DevGen (Dev s) <> XAIE_DEV_GEN_AIE2PS ->
   s32 (dev_NumCols (Dev s)) <= s32 (dev_StartCol (Dev s)) ->
   BacktrackErrors s h = Some ((None, set_cache [] s), h)) /\
  (dev_DevGen (Dev s) = XAIE_DEV_GEN_AIE2PS ->
   exists h', BacktrackErrors s h = Some ((Some [], set_cache [] s), h')).
Proof.
  split.
  - intros Hg Hc; rewrite (BacktrackErrors_columns s h Hg); unfold bt_columns_ok.
    rewrite (proj2 (Z.leb_le _ _) Hc), orb_true_r; done.
  - intros Hg; eexists; apply BacktrackErrors_aie2ps; done.
Qed.

(** ** The report in general *)

(** The calls a report makes. *)
Definition is_report_call (c : call) : Prop :=
  match c with
  | XAie_BacktrackErrorInterrupts _ _ _ | XAie_BacktrackErrorInterruptsCb | error_handler _ _ _ => True
  | _ => False
  end.

Lemma handler_calls_report s l : Forall is_report_call (handler_calls s l).
Proof. unfold handler_calls; destruct (_ =? 0); repeat constructor. Qed.

Lemma BacktrackErrors_total s h :
  exists r l cs, BacktrackErrors s h = Some ((r, set_cache l s), after h cs) /\
    Forall is_report_call cs.
Proof.
  destruct (Z.eq_dec (dev_DevGen (Dev s)) XAIE_DEV_GEN_AIE2PS) as [Hg|Hg].
  { rewrite BacktrackErrors_aie2ps by done; eexists _, [], _; split; [done|].
    constructor; [done|]; apply Forall_flat_map, Forall_forall; intros; apply handler_calls_report. }
  rewrite (BacktrackErrors_columns s h Hg); destruct (bt_columns_ok s).
  2: { eexists _, [], []; rewrite after_nil; done. }
  destruct (backtrack_loop_spec kMaxBacktrackIterations (set_cache [] s) h) as (k & l & _ & _ & H).
  assert (Hp : Forall is_report_call (replicate k (bt_call s))) by (apply Forall_replicate; done).
  change (bt_call (set_cache [] s)) with (bt_call s) in H; simpl in H; rewrite set_cache_set in H.
  destruct H as [(E & _)|(E & _)]; rewrite (bind_Some _ _ _ _ _ E).
  - rewrite (bind_Some _ _ _ _ _ (call_handler_eq _ _)), after_app; eexists _, l, _; split; [done|].
    apply Forall_app; split; [done|apply handler_calls_report].
  - by eexists _, l, _.
Qed.
End Backtrack.

(** * The interrupt *)

Section Isr.
Context {P R : Type} `{rt : AieRt} {AC : AieConsts}.

Lemma backtrack_all_spec (l : list (AIEGraphSim R)) h :
  exists l' css, backtrack_all l h = Some (l', after h (concat css)) /\
    length css = length l /\ length l' = length l /\ Forall (Forall is_report_call) css /\
    (forall i s cs, l !! i = Some s -> css !! i = Some cs -> exists r c,
       let h' := after h (concat (take i css)) in
       l' !! i = Some (set_cache c s) /\ BacktrackErrors s h' = Some ((r, set_cache c s), after h' cs)).
Proof.
  revert h; induction l as [|s l IH]; intros h; simpl.
  { exists [], []; rewrite after_nil; split_and!; done. }
  destruct (BacktrackErrors_total s h) as (r & c & cs & E & Hcs); rewrite (bind_Some _ _ _ _ _ E).
  destruct (IH (after h cs)) as (l' & css & El & Hl & Hl' & Hf & Hi); rewrite (bind_Some _ _ _ _ _ El).
  exists (set_cache c s :: l'), (cs :: css); rewrite after_app; split_and!; [done|simpl; lia|simpl; lia|by constructor|].
  intros [|i] s0 cs0; simpl.
  - intros [= <-] [= <-]; exists r, c; rewrite after_nil; done.
  - intros H1 H2; destruct (Hi _ _ _ H1 H2) as (r0 & c0 & H); exists r0, c0.
    cbv zeta in *; rewrite after_app in H; done.
Qed.

(** What the interrupt does. *)
Lemma abr_error_isr_spec (sy : system P R) h :
  let irq := u32 (get_aie_irq_id sy) in
  exists sy' css, abr_error_isr sy h =
      Some (sy', after h (XScuGic_Disable irq :: concat css ++ [XScuGic_Enable irq])) /\
    length css = length (sims sy) /\ Forall (Forall is_report_call) css /\
    glob sy' = glob sy /\ init_isr sy' = init_isr sy /\ length (sims sy') = length (sims sy) /\
    (forall i s cs, sims sy !! i = Some s -> css !! i = Some cs -> exists r c,
       let h' := after h (XScuGic_Disable irq :: concat (take i css)) in
       sims sy' !! i = Some (set_cache c s) /\
       BacktrackErrors s h' = Some ((r, set_cache c s), after h' cs)).
Proof.
  intros irq; unfold abr_error_isr; fold irq.
  rewrite (bind_Some _ _ _ _ _ (exec__eq _ _)).
  destruct sy as [[l|] g isr]; unfold sims; simpl.
  2: { rewrite (bind_Some (ret _) _ _ _ _ eq_refl), (bind_Some _ _ _ _ _ (exec__eq _ _)), after_app.
       eexists _, []; split_and!; done. }
  destruct (backtrack_all_spec l (after h [XScuGic_Disable irq])) as (l' & css & E & Hl & Hl' & Hf & Hi).
  erewrite bind_Some; [|rewrite (bind_Some _ _ _ _ _ E); reflexivity].
  rewrite (bind_Some _ _ _ _ _ (exec__eq _ _)), !after_app.
  exists (mkSys (Some l') g isr), css; simpl; split_and!; try done.
  intros i s cs H1 H2; destruct (Hi i s cs H1 H2) as (r & c & H); exists r, c.
  cbv zeta in *; rewrite after_app in H; done.
Qed.

(** The error interrupt always returns.  It masks its interrupt first and unmasks the same
    interrupt last; in between it takes the error report of every graph, in the order the
    graphs were made, and makes no other call.  It changes nothing but the cached reports. *)
Theorem error_isr_reports_every_graph (sy : system P R) h :
  let irq := u32 (get_aie_irq_id sy) in
  exists sy' css, abr_error_isr sy h =
      Some (sy', after h (XScuGic_Disable irq :: concat css ++ [XScuGic_Enable irq])) /\
    length css = length (sims sy) /\ Forall (Forall is_report_call) css /\
    glob sy' = glob sy /\ init_isr sy' = init_isr sy /\ length (sims sy') = length (sims sy) /\
    (forall i s cs, sims sy !! i = Some s -> css !! i = Some cs -> exists r c,
       let h' := after h (XScuGic_Disable irq :: concat (take i css)) in
       sims sy' !! i = Some (set_cache c s) /\
       BacktrackErrors s h' = Some ((r, set_cache c s), after h' cs)).
Proof. apply abr_error_isr_spec. Qed.

(** Setting up the error interrupt always returns.  It either registers the handler, enables
    the interrupt and last of all enables exceptions, and remembers that it did; or a step
    fails, and then it returns with exceptions disabled, which it disabled itself, and changes
    nothing else. *)
Theorem isr_setup_masks_on_failure (sy : system P R) h :
  init_isr sy = 0 ->
  exists sy' cs, abr_init_isr sy h = Some (sy', after h cs) /\ Xil_ExceptionDisable ∈ cs /\
    ((init_isr sy' = 1 /\ last cs = Some Xil_ExceptionEnable /\
      XScuGic_Enable (u32 (get_aie_irq_id sy)) ∈ cs) \/
     (sy' = sy /\ Xil_ExceptionEnable ∉ cs)).
Proof.
  intros Hi; unfold abr_init_isr; rewrite Hi; cbn [Z.eqb negb]; run_m.
  case_match; [eexists _, _; split; [done|]; split; [set_solver|]; right; split; [done|set_solver]|].
  run_m; case_match; [eexists _, _; split; [done|]; split; [set_solver|]; right; split; [done|set_solver]|].
  run_m; case_match; [eexists _, _; split; [done|]; split; [set_solver|]; right; split; [done|set_solver]|].
  run_m; eexists _, _; split; [done|]; split; [set_solver|]; left; split_and!; [done|done|set_solver].
Qed.
End Isr.

(** * Bringing a graph up *)

Section Init.
Context `{rt : AieRt}.

(** The calls that set up GMIO channels. *)
Definition is_gmio_setup (c : call) : Prop :=
  match c with
  | XAie_DmaDescInit _ _ | XAie_DmaChannelEnable _ _ _ | XAie_DmaGetMaxQueueSize _
  | XAie_DmaSetAxi _ _ _ _ _ _ => True
  | _ => False
  end.

(** The call that enables the channel of a GMIO. *)
Definition enable_call (c : gmio_config) : call :=
  XAie_DmaChannelEnable (XAie_TileLoc (u8 (shimColumn c)) (u8 0)) (gmio_channel c) (gmio_dir c).

Lemma gmio_configure_calls c desc h :
  exists e g' cs, gmio_configure (gmio_api_new (Some c) desc) h = Some ((e, g'), after h cs) /\
    Forall is_gmio_setup cs /\ (e = ok -> enable_call c ∈ cs).
Proof.
  unfold gmio_configure; cbn [pGMIOConfig gmio_api_new]; destruct (to_aie c).
  2: { eexists _, _, []; rewrite after_nil; split_and!; done. }
  run_m.
  match goal with |- context [if ?b then _ else _] => destruct b end.
  all: eexists _, _, _; split; [reflexivity|]; split; [|].
  all: try (apply Forall_app; split; [repeat constructor|];
            apply Forall_forall; intros x Hx; apply list_elem_of_fmap in Hx as (? & -> & _); done).
  all: intros _; apply elem_of_app; left; unfold enable_call; set_solver.
Qed.

Lemma configure_gmios_calls m items c h :
  exists e c' cs, configure_gmios m items c h = Some ((e, c'), after h cs) /\
    Forall is_gmio_setup cs /\
    (e = aeg_ok -> forall name cfg, (name, cfg) ∈ items -> enable_call cfg ∈ cs).
Proof.
  revert c h; induction items as [|[name cfg] items IH]; intros c h; cbn [configure_gmios].
  { eexists _, _, []; rewrite after_nil; split_and!; try done; set_solver. }
  destruct (gmio_configure_calls cfg (Z.of_nat (length (gmio_store c))) h)
    as (e & g & cs & E & Hs & He); rewrite (bind_Some _ _ _ _ _ E); cbv beta iota.
  unfold is_ok; case_bool_decide as Hok; simpl.
  2: { eexists _, _, cs; split_and!; [done|done|destruct e; done]. }
  destruct (IH (add_gmio name {| aie2gm_buf_queue := []; impl_gmio := g; gmioconfig := cfg; gmio_mem := m |} c)
              (after h cs)) as (e' & c' & cs' & -> & Hs' & He').
  rewrite after_app; eexists _, _, _; split_and!; [done|by apply Forall_app|].
  intros Hr n0 cfg0 [[= -> ->]|Hin]%elem_of_cons; apply elem_of_app; [left; auto|right; eauto].
Qed.
End Init.

(** * Pointers

    A configuration grows: objects are added to the stores and never removed, a name once
    bound stays bound, and every pointer stays inside its store. *)
Definition cfg_ok (c : ConfigureParser) : Prop :=
  (forall n i, gmio_api_impls c !! n = Some i -> (i < length (gmio_store c))%nat) /\
  (forall n i, ebuffer_api_impls c !! n = Some i -> (i < length (ebuffer_store c))%nat).

Record cfg_le (c c' : ConfigureParser) : Prop := {
  le_tables : tables c' = tables c;
  le_gmios : (length (gmio_store c) <= length (gmio_store c'))%nat;
  le_ebuffers : (length (ebuffer_store c) <= length (ebuffer_store c'))%nat;
  le_gmio_names : forall n, is_Some (gmio_api_impls c !! n) -> is_Some (gmio_api_impls c' !! n);
  le_ebuffer_names : forall n, is_Some (ebuffer_api_impls c !! n) -> is_Some (ebuffer_api_impls c' !! n);
  le_rtps : forall n, (exists x, rtp_api_impls c !! n = Some (Some x)) ->
                      (exists x, rtp_api_impls c' !! n = Some (Some x));
  le_shareds : forall n, (exists x, sharedbuffer_api_impls c !! n = Some (Some x)) ->
                         (exists x, sharedbuffer_api_impls c' !! n = Some (Some x));
  le_ok : cfg_ok c -> cfg_ok c'
}.

#[export] Instance cfg_le_preorder : PreOrder cfg_le.
Proof.
  split; [constructor; done|].
  intros c1 c2 c3 [] []; constructor; try (etrans; eassumption); eauto; congruence.
Qed.

(** Every entry of the tables has its object. *)
Record configured (c : ConfigureParser) : Prop := {
  cfg_gmios : forall n, is_Some (gmioconfigs (tables c) !! n) -> is_Some (gmio_api_impls c !! n);
  cfg_ebuffers : forall n, is_Some (externalbufferconfigs (tables c) !! n) -> is_Some (ebuffer_api_impls c !! n);
  cfg_rtps : forall n, is_Some (rtpconfigs (tables c) !! n) -> exists x, rtp_api_impls c !! n = Some (Some x);
  cfg_shareds : forall n, is_Some (sharedbufferconfigs (tables c) !! n) ->
                  exists x, sharedbuffer_api_impls c !! n = Some (Some x)
}.

Lemma configured_le c c' : cfg_le c c' -> configured c -> configured c'.
Proof. intros [] []; constructor; intros n; rewrite le_tables0; auto. Qed.

Lemma set_gmio_le i p c : cfg_le c (set_gmios (<[i := p]> (gmio_store c)) (gmio_api_impls c) c).
Proof. constructor; simpl; try done; rewrite ?length_insert; try done; unfold cfg_ok; simpl; by rewrite length_insert. Qed.

Lemma set_ebuffer_le i p c : cfg_le c (set_ebuffers (<[i := p]> (ebuffer_store c)) (ebuffer_api_impls c) c).
Proof. constructor; simpl; try done; rewrite ?length_insert; try done; unfold cfg_ok; simpl; by rewrite length_insert. Qed.

Lemma is_Some_insert_other {A} (m : gmap string A) k v n : is_Some (m !! n) -> is_Some (<[k := v]> m !! n).
Proof. intros; rewrite lookup_insert; case_decide; done. Qed.

Lemma add_gmio_le name p c : cfg_le c (add_gmio name p c).
Proof.
  constructor; simpl; try done; [rewrite length_app; lia|intros; by apply is_Some_insert_other|].
  intros [H1 H2]; split; [|done]; intros n i; simpl; rewrite lookup_insert, length_app; simpl.
  case_decide; [intros [= <-]; lia|]; intros Hn; specialize (H1 _ _ Hn); lia.
Qed.

Lemma add_ebuffer_le name p c : cfg_le c (add_ebuffer name p c).
Proof.
  constructor; simpl; try done; [rewrite length_app; lia|intros; by apply is_Some_insert_other|].
  intros [H1 H2]; split; [done|]; intros n i; simpl; rewrite lookup_insert, length_app; simpl.
  case_decide; [intros [= <-]; lia|]; intros Hn; specialize (H2 _ _ Hn); lia.
Qed.

Lemma set_rtp_le name x c :
  x <> None \/ rtp_api_impls c !! name = None ->
  cfg_le c (set_rtps (<[name := x]> (rtp_api_impls c)) c).
Proof.
  intros Hx; constructor; try done; intros n [y Hy]; simpl; rewrite lookup_insert; case_decide; subst; [|eauto].
  destruct Hx as [Hx|Hx]; [destruct x; [eauto|done]|congruence].
Qed.

Lemma set_shared_le name x c :
  x <> None \/ sharedbuffer_api_impls c !! name = None ->
  cfg_le c (set_shareds (<[name := x]> (sharedbuffer_api_impls c)) c).
Proof.
  intros Hx; constructor; try done; intros n [y Hy]; simpl; rewrite lookup_insert; case_decide; subst; [|eauto].
  destruct Hx as [Hx|Hx]; [destruct x; [eauto|done]|congruence].
Qed.

(** A loop that adds one object per entry binds every entry. *)
Lemma foldl_le {A} (f : ConfigureParser -> A -> ConfigureParser) l c :
  (forall c a, cfg_le c (f c a)) -> cfg_le c (foldl f c l).
Proof.
  intros Hf; revert c; induction l as [|a l IH]; intros c; simpl; [done|].
  etrans; [apply Hf|apply IH].
Qed.

Lemma foldl_binds {A} (f : ConfigureParser -> A -> ConfigureParser) (Q : A -> ConfigureParser -> Prop) l c :
  (forall c a, cfg_le c (f c a)) -> (forall c a, Q a (f c a)) ->
  (forall a c c', cfg_le c c' -> Q a c -> Q a c') ->
  forall a, a ∈ l -> Q a (foldl f c l).
Proof.
  intros Hf Hb Hm a; revert c; induction l as [|b l IH]; intros c; [by intros ?%elem_of_nil|].
  intros [->|Hin]%elem_of_cons; simpl; [|by apply IH].
  eapply Hm; [apply foldl_le, Hf|apply Hb].
Qed.

Section Grow.
Context `{rt : AieRt} {HO : HashOrder}.

Lemma configure_gmios_le m items c h e c' h' :
  configure_gmios m items c h = Some ((e, c'), h') -> cfg_le c c'.
Proof.
  revert c h; induction items as [|[name cfg] items IH]; intros c h; cbn [configure_gmios].
  { by intros [= <- <- <-]. }
  intros ([e1 g] & h1 & _ & Hk)%bind_inv; destruct (negb _); [by injection Hk as <- <- <-|].
  etrans; [apply add_gmio_le|eapply IH; done].
Qed.

(** What configuring the GMIOs does, whatever the driver answers. *)
Lemma ConfigureGmios_spec m c h :
  exists e c' cs, ConfigureGmios (Some m) c h = Some ((e, c'), after h cs) /\
    Forall is_gmio_setup cs /\ cfg_le c c' /\ gmio_store c `prefix_of` gmio_store c' /\
    (e = aeg_ok -> forall name cfg, gmioconfigs (tables c) !! name = Some cfg ->
       enable_call cfg ∈ cs /\ exists i, gmio_object m name cfg i c' /\ (length (gmio_store c) <= i)%nat).
Proof.
  unfold ConfigureGmios; set (items := entries (gmioconfigs (tables c))).
  destruct (configure_gmios_calls m items c h) as (e & c' & cs & E & Hs & Hc).
  destruct (configure_gmios_spec m items c h e c' _ (entries_NoDup _) E)
    as (dn & rest & Hd & (_ & _ & _ & _ & _ & Hp & _) & Ho & Hr).
  exists e, c', cs; split_and!; [done|done|by eapply configure_gmios_le|done|].
  intros He name cfg Hn; pose proof Hn as Hi; apply entries_lookup in Hi; fold items in Hi; split; [eauto|].
  apply Hr in He; subst rest; rewrite app_nil_r in Hd; rewrite Hd in Hi.
  apply list_elem_of_lookup in Hi as [k Hk]; exists (length (gmio_store c) + k)%nat; split; [eauto|lia].
Qed.

Lemma ConfigureExternalBuffers_spec xm c :
  let '(e, c') := ConfigureExternalBuffers xm c in
  cfg_le c c' /\ gmio_store c' = gmio_store c /\
  (e = aeg_ok -> forall n, is_Some (externalbufferconfigs (tables c) !! n) -> is_Some (ebuffer_api_impls c' !! n)).
Proof.
  destruct xm as [m|]; simpl; [|done].
  set (f := fun c0 '(name, cfg) => add_ebuffer name (external_buffer_new cfg m) c0).
  assert (Hf : forall c a, cfg_le c (f c a)) by (intros c0 [? ?]; apply add_ebuffer_le).
  split_and!; [by apply foldl_le| |].
  - generalize (entries (externalbufferconfigs (tables c))); intros l; clear Hf.
    revert c; induction l as [|[n x] l IH]; intros c; simpl; [done|]; rewrite IH; done.
  - intros _ n [x Hx]; apply entries_lookup in Hx.
    refine (foldl_binds f (fun a c => is_Some (ebuffer_api_impls c !! a.1)) _ c Hf _ _ _ Hx).
    + intros c0 [? ?]; simpl; rewrite lookup_insert_eq; eauto.
    + intros a c1 c2 []; auto.
Qed.

Lemma ConfigureRtps_spec b c :
  let '(e, c') := ConfigureRtps b c in
  cfg_le c c' /\ gmio_store c' = gmio_store c /\ gmio_api_impls c' = gmio_api_impls c /\
  (b = true -> forall n, is_Some (rtpconfigs (tables c) !! n) -> exists x, rtp_api_impls c' !! n = Some (Some x)).
Proof.
  destruct b; simpl; [|done].
  set (f := fun c0 '(name, cfg) => set_rtps _ c0).
  assert (Hf : forall c a, cfg_le c (f c a)) by (intros c0 [? ?]; apply set_rtp_le; by left).
  assert (Hg : forall l c, gmio_store (foldl f c l) = gmio_store c /\ gmio_api_impls (foldl f c l) = gmio_api_impls c).
  { clear; induction l as [|[n x] l IH]; intros c; simpl; [done|]; rewrite !(proj1 (IH _)), (proj2 (IH _)); done. }
  split_and!; [by apply foldl_le|apply Hg|apply Hg|].
  intros _ n [x Hx]; apply entries_lookup in Hx.
  refine (foldl_binds f (fun a c => exists x, rtp_api_impls c !! a.1 = Some (Some x)) _ c Hf _ _ _ Hx).
  - intros c0 [? ?]; simpl; rewrite lookup_insert_eq; eauto.
  - intros a c1 c2 []; auto.
Qed.

Lemma ConfigureSharedBuffers_spec b c :
  let '(e, c') := ConfigureSharedBuffers b c in
  cfg_le c c' /\ gmio_store c' = gmio_store c /\ gmio_api_impls c' = gmio_api_impls c /\
  (e = aeg_ok -> b = true /\ forall n, is_Some (sharedbufferconfigs (tables c) !! n) ->
     exists x, sharedbuffer_api_impls c' !! n = Some (Some x)).
Proof.
  destruct b; simpl; [|done].
  set (f := fun c0 '(name, cfg) => set_shareds _ c0).
  assert (Hf : forall c a, cfg_le c (f c a)) by (intros c0 [? ?]; apply set_shared_le; by left).
  assert (Hg : forall l c, gmio_store (foldl f c l) = gmio_store c /\ gmio_api_impls (foldl f c l) = gmio_api_impls c).
  { clear; induction l as [|[n x] l IH]; intros c; simpl; [done|]; rewrite !(proj1 (IH _)), (proj2 (IH _)); done. }
  split_and!; [by apply foldl_le|apply Hg|apply Hg|].
  intros _; split; [done|]; intros n [x Hx]; apply entries_lookup in Hx.
  refine (foldl_binds f (fun a c => exists x, sharedbuffer_api_impls c !! a.1 = Some (Some x)) _ c Hf _ _ _ Hx).
  - intros c0 [? ?]; simpl; rewrite lookup_insert_eq; eauto.
  - intros a c1 c2 []; auto.
Qed.

(** What [graph_init] promises of one GMIO of the table. *)
Definition gmio_ready (c0 : ConfigureParser) (cs : list call) (c' : ConfigureParser) : Prop :=
  forall name cfg, gmioconfigs (tables c0) !! name = Some cfg ->
    enable_call cfg ∈ cs /\
    exists m i, gmio_object m name cfg i c' /\ (length (gmio_store c0) <= i)%nat.
End Grow.

Section InitFacts.
Context {P R : Type} `{rt : AieRt} {AC : AieConsts} {HO : HashOrder} {Prof : Profiling P R}.

(** A graph's [init] always returns; it makes only the calls that set up GMIO channels, and
    when it reports success every entry of the tables has its object and every GMIO channel
    was enabled. *)
Lemma graph_init_spec (s : AIEGraphSim R) (g : globals P) h :
  exists e c' cs, graph_init (s, g) h = Some ((e, (set_cfg c' s, g)), after h cs) /\
    Forall is_gmio_setup cs /\ cfg_le (cfg s) c' /\ gmio_store (cfg s) `prefix_of` gmio_store c' /\
    (e = aeg_ok -> configured c' /\ gmio_ready (cfg s) cs c').
Proof.
  unfold graph_init.
  pose proof (ConfigureExternalBuffers_spec (xaiemem s) (cfg s)) as Hb.
  destruct (ConfigureExternalBuffers (xaiemem s) (cfg s)) as [e1 c1]; destruct Hb as (L1 & S1 & B1).
  unfold aeg_is_ok; case_bool_decide as He1; simpl.
  2: { eexists _, c1, []; rewrite after_nil; split_and!; [done|done|done|by rewrite S1|case_bool_decide; done]. }
  specialize (B1 He1); destruct (xaiemem s) as [m|] eqn:Hx.
  2: { exists aeg_backend_not_ready, c1, []; rewrite after_nil, S1; split_and!; done. }
  destruct (ConfigureGmios_spec m c1 h) as (e2 & c2 & cs & E & Hs & L2 & X2 & G2).
  rewrite (bind_Some _ _ _ _ _ E); cbv beta iota; case_bool_decide as He2; simpl.
  2: { eexists _, c2, cs; split_and!; [done|done|by transitivity c1|by rewrite <- S1|case_bool_decide; done]. }
  specialize (G2 He2).
  pose proof (ConfigureRtps_spec (bool_decide (is_Some (GraphApi s))) c2) as Hr.
  destruct (ConfigureRtps _ c2) as [e3 c3]; destruct Hr as (L3 & S3 & I3 & B3).
  pose proof (ConfigureSharedBuffers_spec (bool_decide (is_Some (GraphApi s))) c3) as Hr.
  destruct (ConfigureSharedBuffers _ c3) as [e4 c4]; destruct Hr as (L4 & S4 & I4 & B4).
  assert (L : cfg_le (cfg s) c4) by (transitivity c1; [done|]; transitivity c2; [done|]; by transitivity c3).
  destruct (decide (e4 = aeg_ok)) as [He4|He4].
  2: { rewrite (bool_decide_eq_false_2 _ He4); eexists _, c4, cs; split; [done|]; split_and!; try done; [by rewrite S4, S3, <- S1|].
       intros He; exfalso; destruct (bool_decide (e4 = aeg_null_argument)); congruence. }
  rewrite (bool_decide_eq_true_2 _ He4); eexists _, c4, cs; do 3 (split; [done|]); split; [by rewrite S4, S3, <- S1|].
  intros _; destruct (B4 He4) as [Hh B4']; specialize (B3 Hh).
  pose proof (le_tables _ _ L1) as T1; pose proof (le_tables _ _ L2) as T2.
  pose proof (le_tables _ _ L3) as T3; pose proof (le_tables _ _ L4) as T4.
  split; [constructor; intros n; rewrite T4, T3, ?T2, ?T1|].
  - intros [x Hn]; rewrite <- T1 in Hn; destruct (G2 _ _ Hn) as (_ & i & (Ho & _) & _).
    unfold get_gmio_api_impl in Ho; rewrite I4, I3, Ho; eauto.
  - intros Hn; apply L4, L3, L2, B1; done.
  - intros Hn; apply L4, B3; rewrite T2, T1; done.
  - intros Hn; apply B4'; rewrite T3, T2, T1; done.
  - intros name cfg Hn; rewrite <- T1 in Hn; destruct (G2 _ _ Hn) as (He & i & (Ho & Hp) & Hi).
    split; [done|]; exists m, i; unfold gmio_object, get_gmio_api_impl in *; rewrite I4, I3, S4, S3.
    rewrite S1 in Hi; done.
Qed.
End InitFacts.

(** ** The public [init] *)

Section ApiInit.
Context {P R : Type} `{rt : AieRt} {AC : AieConsts} {HO : HashOrder} {Prof : Profiling P R}.
Context (blob_at : Z -> list Z).
Implicit Types sy : system P R.

Lemma api_load_cdo_state addr len a sy h e sy' h' :
  api_load_cdo blob_at addr len a sy h = Some ((e, sy'), h') -> sy' = sy.
Proof.
  unfold api_load_cdo, ret, undefined; intros H.
  repeat first [case_match; simplify_eq|done].
  apply bind_inv in H as (? & ? & _ & H); unfold ret in H; congruence.
Qed.

Lemma api_load_blobs_state a blobs n sy h e sy' h' :
  api_load_blobs blob_at a blobs n sy h = Some ((e, sy'), h') -> sy' = sy.
Proof.
  revert blobs sy h; induction n as [|n IH]; intros blobs sy h; simpl.
  { intros H; unfold ret in H; simplify_eq; done. }
  destruct blobs as [|b blobs]; [done|].
  destruct (_ =? 0); [intros H; unfold ret in H; simplify_eq; done|].
  destruct (_ =? 0); [intros H; unfold ret in H; simplify_eq; done|].
  intros ([e1 sy1] & h1 & E & Hk)%bind_inv; apply api_load_cdo_state in E as ->.
  destruct (negb _); [unfold ret in Hk; simplify_eq; done|eauto].
Qed.

Lemma set_sim_lookup i s' g sy s :
  sims sy !! i = Some s -> sims (set_sim i s' g sy) !! i = Some s'.
Proof.
  unfold sims, set_sim; destruct (graph_sim_list sy); simpl; [|done].
  intros H; apply list_lookup_insert_eq; by eapply lookup_lt_Some.
Qed.

(** What applying one blob leads to: its code, and the history behind it. *)
Definition blob_outcome (a : AIEGraph) sy (b : cdo_blob) (h : hist) : option (aeg_err * hist) :=
  if blob_data b =? 0 then Some (aeg_null_argument, h)
  else if blob_len b =? 0 then Some (aeg_invalid_length, h)
  else match api_load_cdo blob_at (blob_data b) (blob_len b) a sy h with
       | Some ((e, _), h') => Some (e, h')
       | None => None
       end.

(** [k] of the blobs [bs] have been applied with success, one after the other in their order;
    [hs] are the histories before, between and after them. *)
Definition applied (a : AIEGraph) sy (bs : list cdo_blob) (h : hist) (k : nat) (hs : list hist) : Prop :=
  length hs = S k /\ (k <= length bs)%nat /\ hs !! 0%nat = Some h /\
  forall j b h1 h2, (j < k)%nat -> bs !! j = Some b -> hs !! j = Some h1 -> hs !! S j = Some h2 ->
    blob_outcome a sy b h1 = Some (aeg_ok, h2).

(** The loop stops behind the last of [n] blobs, or at the first that fails. *)
Lemma api_load_blobs_steps a sy n : forall bs h, (n <= length bs)%nat ->
  (forall b h, b ∈ take n bs -> is_Some (blob_outcome a sy b h)) ->
  exists k hs e h1, applied a sy (take n bs) h k hs /\
    api_load_blobs blob_at a bs n sy h = Some ((e, sy), h1) /\
    (k = n /\ e = aeg_ok /\ hs !! k = Some h1 \/
     (k < n)%nat /\ e <> aeg_ok /\
     exists b hk, bs !! k = Some b /\ hs !! k = Some hk /\ blob_outcome a sy b hk = Some (e, h1)).
Proof.
  induction n as [|n IH]; intros bs h Hn Hs.
  { exists 0%nat, [h], aeg_ok, h; split; [|split; [done|by left]].
    split_and!; [done|simpl; lia|done|intros; lia]. }
  destruct bs as [|b bs]; [simpl in Hn; lia|]; simpl in Hn.
  assert (Hstop : forall e h1, blob_outcome a sy b h = Some (e, h1) -> e <> aeg_ok ->
    api_load_blobs blob_at a (b :: bs) (S n) sy h = Some ((e, sy), h1) ->
    exists k hs e h1, applied a sy (take (S n) (b :: bs)) h k hs /\
      api_load_blobs blob_at a (b :: bs) (S n) sy h = Some ((e, sy), h1) /\
      (k = S n /\ e = aeg_ok /\ hs !! k = Some h1 \/ (k < S n)%nat /\ e <> aeg_ok /\
       exists b0 hk, (b :: bs) !! k = Some b0 /\ hs !! k = Some hk /\ blob_outcome a sy b0 hk = Some (e, h1))).
  { intros e h1 Ho He E; exists 0%nat, [h], e, h1; split; [|split; [done|right]].
    - split_and!; [done|simpl; lia|done|intros; lia].
    - split; [lia|]; split; [done|]; by exists b, h. }
  destruct (Hs b h) as [[e h1] Ho]; [by left|]; pose proof Ho as Ho0; unfold blob_outcome in Ho0.
  cbn [api_load_blobs] in *; destruct (blob_data b =? 0) eqn:E1; [injection Ho0 as <- <-; by eapply Hstop|].
  destruct (blob_len b =? 0) eqn:E2; [injection Ho0 as <- <-; by eapply Hstop|].
  destruct (api_load_cdo _ _ _ _ sy h) as [[[e0 sy0] h0]|] eqn:El; [|done]; injection Ho0 as -> ->.
  pose proof (api_load_cdo_state _ _ _ _ _ _ _ _ El) as ->.
  unfold aeg_is_ok in *; destruct (decide (e = aeg_ok)) as [->|He].
  - destruct (IH bs h1 ltac:(lia)) as (k & hs & e & h2 & (L1 & L2 & L3 & L4) & E & Hend).
    { intros b' h' Hin; apply Hs; by right. }
    exists (S k), (h :: hs), e, h2; split; [|split].
    + split_and!; [simpl; lia|simpl in *; lia|done|].
      intros [|j] b' h3 h4 Hj Hb Hh3 Hh4; simpl in Hb, Hh3, Hh4; [simplify_eq; congruence|].
      apply (L4 j); [lia|done..].
    + rewrite (bind_Some _ _ _ _ _ El); cbv beta iota; rewrite bool_decide_eq_true_2 by done; exact E.
    + destruct Hend as [(-> & -> & Hh)|(Hk & He & b0 & hk & Hb & Hh & Ho0)]; [by left|right].
      split; [lia|]; split; [done|]; by exists b0, hk.
  - eapply Hstop; [done..|]; rewrite (bind_Some _ _ _ _ _ El); cbv beta iota.
    rewrite bool_decide_eq_false_2 by done; done.
Qed.

(** C27: Let the array hold the [n] blobs [init] is given, and loading each of them return (no command
    reads outside its blob).  Then [init] applies them before it touches the array itself: [k] of
    them with success, in the order of the array and each from the state the one before left,
    where [k] is [n], or the next one fails, and then nothing behind it is applied and [init]
    returns its code, having done nothing else and leaving the graph as it was.  What [init] does
    after the last blob is only to set up the GMIO channels.  Whatever the driver answers it
    returns; it marks the graph initialised exactly when it reports success, and then every blob was
    applied, every entry of the tables has its object, and the channel of every GMIO was
    enabled after the last blob. *)
Theorem api_init_applies_cdos_first a i s blobs n sy h :
  api_graph a = Some i -> sims sy !! i = Some s -> (blobs = None -> n = 0%nat) ->
  let bs := default [] blobs in
  (n <= length bs)%nat -> (forall b h, b ∈ take n bs -> is_Some (blob_outcome a sy b h)) ->
  exists k hs h1 e a' sy' cs,
    applied a sy (take n bs) h k hs /\
    api_init blob_at blobs n a sy h = Some ((e, (a', sy')), after h1 cs) /\ Forall is_gmio_setup cs /\
    (k = n /\ hs !! k = Some h1 \/
     (k < n)%nat /\ (e <> aeg_ok /\ cs = [] /\ sy' = sy) /\
     exists b hk, bs !! k = Some b /\ hs !! k = Some hk /\ blob_outcome a sy b hk = Some (e, h1)) /\
    (e <> aeg_ok -> a' = a) /\
    (e = aeg_ok -> k = n /\ isInitialized a' = true /\
       exists s', sims sy' !! i = Some s' /\ configured (cfg s') /\ gmio_ready (cfg s) cs (cfg s')).
Proof.
  intros Ha Hs Hb bs Hn Ho.
  destruct (api_load_blobs_steps a sy n bs h Hn Ho) as (k & hs & e1 & h1 & Hk & Hl & Hend).
  unfold api_init; rewrite bool_decide_eq_false_2 by congruence.
  replace (bool_decide (blobs = None) && negb (n =? 0)%nat) with false
    by (case_bool_decide as E; [rewrite (Hb E)|]; done).
  fold bs; rewrite (bind_Some _ _ _ _ _ Hl); cbv beta iota; unfold aeg_is_ok.
  case_bool_decide as He1; simpl.
  2: { exists k, hs, h1, e1, a, sy, []; rewrite after_nil.
       destruct Hend as [(_ & ? & _)|(Hlt & _ & Hend)]; [done|].
       split_and!; try done; right; done. }
  destruct Hend as [(-> & _ & Hh)|(_ & ? & _)]; [|done].
  destruct (graph_init_spec s (glob sy) h1) as (e & c' & cs & E & Hset & _ & _ & Hok).
  assert (Eg : on_graph a graph_init sy h1 = Some ((e, set_sim i (set_cfg c' s) (glob sy) sy), after h1 cs)).
  { unfold on_graph, on_sim; rewrite Ha, Hs, (bind_Some _ _ _ _ _ E); done. }
  rewrite (bind_Some _ _ _ _ _ Eg); cbv beta iota; case_bool_decide as He; simpl.
  2: { eexists n, hs, h1, _, a, _, cs; split_and!; try done; by left. }
  eexists n, hs, h1, aeg_ok, _, _, cs; split_and!; try done; [by left|].
  intros _; split_and!; try done; eexists; split; [eapply set_sim_lookup; done|apply Hok; done].
Qed.
End ApiInit.
