(* ===== verification/AieReach.v ===== *)
(** The program as a state machine: graphs, the objects of the public class, ports and the
    error interrupt, with every method as a step; the invariant of the pointers between them;
    what a second [init] does to ports that have looked up their object. *)
From stdpp Require Import base list strings gmap.
From Stdlib Require Import ZArith Lia.
From S2P Require Import Prelude ApiTypes Driver GraphApi Rtp Gmio HostMem PortImpl ExternalBuffer.
From S2P Require Import SimGraph ConfigBin Configure Regs Cdo Event AieGraph AieApi AieFacts.
Local Open Scope Z_scope.
Local Open Scope aeg_scope.

(** * Operations only let configurations grow *)

(** [bind_inv] and case analysis through an operation that keeps or replaces a configuration. *)
Ltac grow_step :=
  match goal with
  | H : bind _ _ _ = Some _ |- _ =>
      let x := fresh "x" in let h1 := fresh "h" in let E := fresh "E" in
      apply bind_inv in H as (x & h1 & E & H)
  | H : ret _ _ = Some _ |- _ => unfold ret in H; simplify_eq
  | H : undefined _ = Some _ |- _ => discriminate H
  | x : (_ * _)%type |- _ => destruct x
  | H : match ?x with _ => _ end _ = Some _ |- _ => destruct x eqn:?
  end.
Ltac grow :=
  intros [? ?] ? ? [? ?] ? Hgrow; cbn in Hgrow |- *; repeat (grow_step; cbn in * ); try done.

Section Grow.
Context {P R : Type} `{rt : AieRt} {AC : AieConsts} {HO : HashOrder} {Prof : Profiling P R}.
Context (blob_at : Z -> list Z).
Abbreviation sys := (system P R).
Abbreviation gstate := (AIEGraphSim R * globals P)%type.

Definition gop_le {A} (k : gstate -> M (A * gstate)) : Prop :=
  forall st h a st' h', k st h = Some ((a, st'), h') -> cfg_le (cfg (fst st)) (cfg (fst st')).

(** The graphs of a program: none goes away, and their configurations grow. *)
Record sys_le (sy sy' : sys) : Prop := {
  le_length : (length (sims sy) <= length (sims sy'))%nat;
  le_cfg : forall i s, sims sy !! i = Some s ->
             exists s', sims sy' !! i = Some s' /\ cfg_le (cfg s) (cfg s');
  le_sims : Forall (fun s => cfg_ok (cfg s)) (sims sy) -> Forall (fun s => cfg_ok (cfg s)) (sims sy')
}.

#[export] Instance sys_le_preorder : PreOrder sys_le.
Proof.
  split; [constructor; eauto; intros; eexists; done|].
  intros a b c [L1 C1 S1] [L2 C2 S2]; constructor; [lia| |auto].
  intros i s H; destruct (C1 _ _ H) as (s1 & H1 & ?), (C2 _ _ H1) as (s2 & H2 & ?).
  exists s2; split; [done|by etrans].
Qed.

Definition sop_le {A} (k : sys -> M (A * sys)) : Prop :=
  forall sy h a sy' h', k sy h = Some ((a, sy'), h') -> sys_le sy sy'.

Lemma set_sim_le i s s' g sy :
  sims sy !! i = Some s -> cfg_le (cfg s) (cfg s') -> sys_le sy (set_sim i s' g sy).
Proof.
  unfold set_sim, sims; destruct sy as [[l|] g0 isr]; simpl; [|done]; intros Hi Hle.
  constructor; unfold sims; simpl.
  - by rewrite length_insert.
  - intros j t Hj; destruct (decide (i = j)) as [<-|Hne].
    + rewrite list_lookup_insert_eq by (by eapply lookup_lt_Some); simplify_eq; eauto.
    + rewrite list_lookup_insert_ne by done; by exists t.
  - intros Hf; apply Forall_insert; [done|].
    rewrite Forall_lookup in Hf; apply (le_ok _ _ Hle), (Hf _ _ Hi).
Qed.

Lemma on_sim_le {A} i (k : gstate -> M (A * gstate)) : gop_le k -> sop_le (on_sim i k).
Proof.
  intros Hk sy h a sy' h'; unfold on_sim; destruct (sims sy !! i) as [s|] eqn:Hs; [|done].
  intros ([x [s' g']] & h1 & E & H)%bind_inv; unfold ret in H; simplify_eq.
  eapply set_sim_le; [done|]; exact (Hk _ _ _ _ _ E).
Qed.

Lemma at_gmio_le {A} i (k : GmioApiImpl -> M (A * GmioApiImpl)) : gop_le (@at_gmio P R A i k).
Proof. unfold at_gmio; grow; apply set_gmio_le. Qed.
Lemma at_ebuffer_le {A} i (k : ExternalBufferApiImpl -> M (A * ExternalBufferApiImpl)) :
  gop_le (@at_ebuffer P R A i k).
Proof. unfold at_ebuffer; grow; apply set_ebuffer_le. Qed.
Lemma on_gmio_le {A} (d : A) name k : gop_le (@on_gmio P R A d name k).
Proof.
  intros [s g] h a st' h'; unfold on_gmio; destruct (get_gmio_api_impl name (cfg s)); [apply at_gmio_le|].
  unfold ret; intros; by simplify_eq.
Qed.
Lemma on_ebuffer_le {A} (d : A) name k : gop_le (@on_ebuffer P R A d name k).
Proof.
  intros [s g] h a st' h'; unfold on_ebuffer; destruct (get_externalbuffer_api_impl name (cfg s)); [apply at_ebuffer_le|].
  unfold ret; intros; by simplify_eq.
Qed.

Lemma graph_init_le : gop_le (@graph_init P R rt HO).
Proof.
  intros [s g] h a [s' g'] h' H; destruct (graph_init_spec s g h) as (e & c' & cs & E & _ & Hle & _).
  rewrite E in H; by simplify_eq.
Qed.

Lemma BacktrackErrors_le : gop_le (fun '(s, g) =>
  let* (r, s) := @BacktrackErrors R rt AC s in ret (r, (s, g : globals P))).
Proof.
  intros [s g] h a [s' g'] h' H; destruct (BacktrackErrors_total s h) as (r & l & cs & E & _).
  rewrite (bind_Some _ _ _ _ _ E) in H; unfold ret in H; by simplify_eq.
Qed.

(** ** The methods of the public class *)

Lemma on_graph_le {A} a (k : gstate -> M (A * gstate)) : gop_le k -> sop_le (on_graph a k).
Proof.
  intros Hk sy h x sy' h'; unfold on_graph; destruct (api_graph a); [by apply on_sim_le|done].
Qed.

Lemma reject_le {A} c (e : A) (k : AIEGraph -> sys -> M (A * sys)) a :
  sop_le (k a) -> sop_le (reject_if c e k a).
Proof.
  intros Hk sy h x sy' h'; unfold reject_if; destruct c; [|apply Hk].
  unfold ret; intros; by simplify_eq.
Qed.

Lemma checked_le {A} (e : A) (k : AIEGraph -> sys -> M (A * sys)) a :
  sop_le (k a) -> sop_le (checked e k a).
Proof. apply reject_le. Qed.

Create HintDb grow.
Hint Resolve on_gmio_le on_ebuffer_le graph_init_le BacktrackErrors_le : grow.

Ltac api_grow :=
  repeat first [apply checked_le | apply reject_le]; apply on_graph_le;
  first [solve [auto with grow] | intros [? ?]; (apply on_gmio_le || apply on_ebuffer_le) | grow].

(** A step of the public class: graphs stay, and only a complete [init] marks one initialised. *)
Definition api_step_ok (a a' : AIEGraph) (sy sy' : sys) : Prop :=
  sys_le sy sy' /\ api_graph a' = api_graph a /\
  (isInitialized a' = true -> isInitialized a = true \/
     exists i s', api_graph a = Some i /\ sims sy' !! i = Some s' /\ configured (cfg s')).

Lemma api_init_ok blobs n a sy h e a' sy' h' :
  api_init blob_at blobs n a sy h = Some ((e, (a', sy')), h') -> api_step_ok a a' sy sy'.
Proof.
  assert (Hsame : forall sy1, sys_le sy sy1 -> api_step_ok a a sy sy1) by (split; auto).
  unfold api_init; case_bool_decide as Ha; [unfold ret; intros; simplify_eq; by apply Hsame|].
  destruct (_ && _); [unfold ret; intros; simplify_eq; by apply Hsame|].
  intros ([e1 sy1] & h1 & E1 & H)%bind_inv; apply api_load_blobs_state in E1 as ->.
  destruct (negb _); [unfold ret in H; simplify_eq; by apply Hsame|].
  apply bind_inv in H as ([e2 sy2] & h2 & E2 & H).
  pose proof (on_graph_le a graph_init graph_init_le _ _ _ _ _ E2) as Hle.
  unfold aeg_is_ok in H; case_bool_decide as He; cbn in H; unfold ret in H; simplify_eq; [|by apply Hsame].
  split; [done|]; split; [done|]; intros _; right.
  unfold on_graph, on_sim in E2; destruct (api_graph a) as [i|] eqn:Hi; [|done].
  destruct (sims sy !! i) as [s|] eqn:Hs; [|done].
  destruct (graph_init_spec s (glob sy) h1) as (e & c' & cs & E & _ & _ & _ & Hok).
  rewrite (bind_Some _ _ _ _ _ E) in E2; unfold ret in E2; simplify_eq.
  exists i; eexists; split; [done|]; split; [by eapply set_sim_lookup|by apply Hok].
Qed.

Lemma api_call_ok fuel r a sy h x a' sy' h' :
  api_call blob_at fuel r a sy h = Some ((x, (a', sy')), h') ->
  api_step_ok a a' sy sy'.
Proof.
  assert (Hconst : forall A (k : AIEGraph -> sys -> M (A * sys)) (y : A),
    sop_le (k a) -> const_method k a sy h = Some ((y, (a', sy')), h') ->
    api_step_ok a a' sy sy').
  { intros A k y Hk ([z sy1] & h1 & E & H)%bind_inv; unfold ret in H; simplify_eq.
    split; [exact (Hk _ _ _ _ _ E)|]; auto. }
  destruct r; cbn [api_call]; try (apply Hconst; clear; api_grow).
  - apply api_init_ok.
  - apply Hconst; clear; intros sy h x sy' h' H; apply api_load_cdo_state in H; by subst.
Qed.
End Grow.

(** * The program *)

Section Program.
Context {P R : Type} `{rt : AieRt} {AC : AieConsts} {HO : HashOrder} {Prof : Profiling P R}.
Context (blob_at : Z -> list Z) (fuel : nat) (cp : ConfigureParser).
Abbreviation sys := (system P R).
Abbreviation pop A B := (port A -> sys -> M (B * (port A * sys))).

(** The methods of a GMIO port. *)
Inductive gmio_method : forall B, pop nat B -> Prop :=
| G_gm2aie_nb data len : gmio_method aeg_err (hw_gm2aie_nb fuel data len)
| G_gm2aie data len : gmio_method aeg_err (hw_gm2aie fuel data len)
| G_aie2gm_nb data len : gmio_method aeg_err (hw_aie2gm_nb fuel data len)
| G_aie2gm data len : gmio_method aeg_err (hw_aie2gm fuel data len)
| G_gmio_wait syncmode : gmio_method aeg_err (hw_gmio_wait fuel syncmode)
| G_start_profiling o v : gmio_method Z (hw_start_profiling o v)
| G_read_profiling k : gmio_method Z (hw_read_profiling k)
| G_stop_profiling k : gmio_method aeg_err (hw_stop_profiling k).

(** The methods of an external buffer and of a port of one. *)
Inductive ebuffer_method : forall B, pop nat B -> Prop :=
| E_setAddress ptr : ebuffer_method aeg_err (hw_setAddress ptr)
| E_wait n : ebuffer_method aeg_err (hw_eb_wait fuel n)
| E_gm2aie_nb n : ebuffer_method aeg_err (hw_eb_gm2aie_nb n)
| E_aie2gm_nb n : ebuffer_method aeg_err (hw_eb_aie2gm_nb n)
| E_setupPingPongBuffers p1 p2 b : ebuffer_method aeg_err (hw_setupPingPongBuffers p1 p2 b)
| E_gm2aie_nb_default : ebuffer_method aeg_err hw_eb_gm2aie_nb_default
| E_aie2gm_nb_default : ebuffer_method aeg_err hw_eb_aie2gm_nb_default
| E_port_wait : ebuffer_method aeg_err (hw_ebp_wait fuel)
| E_port_gm2aie_nb : ebuffer_method aeg_err hw_ebp_gm2aie_nb
| E_port_aie2gm_nb : ebuffer_method aeg_err hw_ebp_aie2gm_nb.

(** The graphs, the objects of the public class and the ports of a program. *)
Record world := mkWorld {
  w_sys : sys;
  w_apis : list AIEGraph;
  w_gmios : list (port nat);
  w_ebuffers : list (port nat);
  w_rtps : list (port RtpApiImpl);
  w_shareds : list (port SharedBufferApiImpl)
}.

(** A port of a graph, as [getGraphImpl] hands the graph to it. *)
Definition bound_port {A} (name : string) (a : AIEGraph) : port A := mkPort name (getGraphImpl a) None.

(** One step: a graph is made, a method of the public class or of a port returns, a port is
    made, or the error interrupt is served. *)
Inductive step : world * hist -> world * hist -> Prop :=
| step_new w h name a sy h' :
    api_new cp name (w_sys w) h = Some ((a, sy), h') ->
    step (w, h) (mkWorld sy (w_apis w ++ [a]) (w_gmios w) (w_ebuffers w) (w_rtps w) (w_shareds w), h')
| step_call w h i r a x a' sy h' :
    w_apis w !! i = Some a ->
    api_call blob_at fuel r a (w_sys w) h = Some ((x, (a', sy)), h') ->
    step (w, h) (mkWorld sy (<[i := a']> (w_apis w)) (w_gmios w) (w_ebuffers w) (w_rtps w) (w_shareds w), h')
| step_isr w h sy h' :
    abr_error_isr (w_sys w) h = Some (sy, h') ->
    step (w, h) (mkWorld sy (w_apis w) (w_gmios w) (w_ebuffers w) (w_rtps w) (w_shareds w), h')
| step_gmio_new w h a name :
    a ∈ w_apis w ->
    step (w, h) (mkWorld (w_sys w) (w_apis w) (w_gmios w ++ [bound_port name a]) (w_ebuffers w)
                   (w_rtps w) (w_shareds w), h)
| step_gmio w h i B (k : pop nat B) p b p' sy h' :
    w_gmios w !! i = Some p -> gmio_method B k -> k p (w_sys w) h = Some ((b, (p', sy)), h') ->
    step (w, h) (mkWorld sy (w_apis w) (<[i := p']> (w_gmios w)) (w_ebuffers w) (w_rtps w) (w_shareds w), h')
| step_ebuffer_new w h a name :
    a ∈ w_apis w ->
    step (w, h) (mkWorld (w_sys w) (w_apis w) (w_gmios w) (w_ebuffers w ++ [bound_port name a])
                   (w_rtps w) (w_shareds w), h)
| step_ebuffer w h i B (k : pop nat B) p b p' sy h' :
    w_ebuffers w !! i = Some p -> ebuffer_method B k -> k p (w_sys w) h = Some ((b, (p', sy)), h') ->
    step (w, h) (mkWorld sy (w_apis w) (w_gmios w) (<[i := p']> (w_ebuffers w)) (w_rtps w) (w_shareds w), h')
| step_rtp_new w h a name :
    a ∈ w_apis w ->
    step (w, h) (mkWorld (w_sys w) (w_apis w) (w_gmios w) (w_ebuffers w)
                   (w_rtps w ++ [bound_port name a]) (w_shareds w), h)
| step_rtp_update w h i p data len b p' sy h' :
    w_rtps w !! i = Some p -> hw_rtp_update data len p (w_sys w) h = Some ((b, (p', sy)), h') ->
    step (w, h) (mkWorld sy (w_apis w) (w_gmios w) (w_ebuffers w) (<[i := p']> (w_rtps w)) (w_shareds w), h')
| step_rtp_read w h i p data len b p' sy h' :
    w_rtps w !! i = Some p -> hw_rtp_read data len p (w_sys w) h = Some ((b, (p', sy)), h') ->
    step (w, h) (mkWorld sy (w_apis w) (w_gmios w) (w_ebuffers w) (<[i := p']> (w_rtps w)) (w_shareds w), h')
| step_shared_new w h a name :
    a ∈ w_apis w ->
    step (w, h) (mkWorld (w_sys w) (w_apis w) (w_gmios w) (w_ebuffers w) (w_rtps w)
                   (w_shareds w ++ [bound_port name a]), h)
| step_shared_update w h i p data len b p' sy h' :
    w_shareds w !! i = Some p -> hw_shared_update data len p (w_sys w) h = Some ((b, (p', sy)), h') ->
    step (w, h) (mkWorld sy (w_apis w) (w_gmios w) (w_ebuffers w) (w_rtps w) (<[i := p']> (w_shareds w)), h').

(** The program before its first graph. *)
Definition initial (g : globals P) : world := mkWorld (mkSys None g 0) [] [] [] [] [].

Inductive reachable (g : globals P) : world * hist -> Prop :=
| reach_start : reachable g (initial g, [])
| reach_step wh wh' : reachable g wh -> step wh wh' -> reachable g wh'.

(** * The invariant *)

(** An object of the public class owns a graph; once initialised, its tables have objects. *)
Definition api_ok (sy : sys) (a : AIEGraph) : Prop :=
  exists i s, api_graph a = Some i /\ sims sy !! i = Some s /\
    (isInitialized a = true -> configured (cfg s)).

(** A port belongs to a graph, and the object it has looked up is one of that graph's. *)
Definition port_ok {A} (valid : AIEGraphSim R -> A -> Prop) (sy : sys) (p : port A) : Prop :=
  exists i s, p_graphImpl p = Some i /\ sims sy !! i = Some s /\
    forall k x, p_apiImpl p = Some (k, x) -> k = i /\ valid s x.

Definition gmio_valid (s : AIEGraphSim R) (j : nat) : Prop := (j < length (gmio_store (cfg s)))%nat.
Definition ebuffer_valid (s : AIEGraphSim R) (j : nat) : Prop := (j < length (ebuffer_store (cfg s)))%nat.
Definition any_valid {A} (s : AIEGraphSim R) (x : A) : Prop := True.

Record world_ok (w : world) : Prop := {
  ok_sims : Forall (fun s => cfg_ok (cfg s)) (sims (w_sys w));
  ok_apis : Forall (api_ok (w_sys w)) (w_apis w);
  ok_gmios : Forall (port_ok gmio_valid (w_sys w)) (w_gmios w);
  ok_ebuffers : Forall (port_ok ebuffer_valid (w_sys w)) (w_ebuffers w);
  ok_rtps : Forall (port_ok any_valid (w_sys w)) (w_rtps w);
  ok_shareds : Forall (port_ok any_valid (w_sys w)) (w_shareds w)
}.

Definition grows {A} (valid : AIEGraphSim R -> A -> Prop) : Prop :=
  forall s s' x, cfg_le (cfg s) (cfg s') -> valid s x -> valid s' x.

Lemma gmio_grows : grows gmio_valid.
Proof. intros s s' x []; unfold gmio_valid; lia. Qed.
Lemma ebuffer_grows : grows ebuffer_valid.
Proof. intros s s' x []; unfold ebuffer_valid; lia. Qed.
Lemma any_grows {A} : grows (@any_valid A).
Proof. done. Qed.

Lemma api_ok_le sy sy' a : sys_le sy sy' -> api_ok sy a -> api_ok sy' a.
Proof.
  intros [] (i & s & Hi & Hs & Hc); destruct (le_cfg0 _ _ Hs) as (s' & Hs' & Hle).
  exists i, s'; split_and!; [done|done|]; intros Ha; by apply (configured_le _ _ Hle), Hc.
Qed.

Lemma port_ok_le {A} (valid : AIEGraphSim R -> A -> Prop) sy sy' p :
  grows valid -> sys_le sy sy' -> port_ok valid sy p -> port_ok valid sy' p.
Proof.
  intros Hv [] (i & s & Hi & Hs & Hc); destruct (le_cfg0 _ _ Hs) as (s' & Hs' & Hle).
  exists i, s'; split_and!; [done|done|]; intros k x Hx; destruct (Hc _ _ Hx) as [-> ?].
  split; [done|by eapply Hv].
Qed.

(** Growing the graphs keeps the invariant. *)
Lemma world_ok_le w sy :
  sys_le (w_sys w) sy -> world_ok w ->
  world_ok (mkWorld sy (w_apis w) (w_gmios w) (w_ebuffers w) (w_rtps w) (w_shareds w)).
Proof.
  intros Hle []; constructor; simpl; [by apply Hle|..]; eapply Forall_impl; try done; intros ?.
  1: by apply api_ok_le.
  all: apply port_ok_le; auto using gmio_grows, ebuffer_grows, any_grows.
Qed.

Lemma port_ok_new {A} (valid : AIEGraphSim R -> A -> Prop) sy name a :
  api_ok sy a -> port_ok valid sy (bound_port name a).
Proof. intros (i & s & Hi & Hs & _); exists i, s; split_and!; done. Qed.

(** ** The methods of ports *)

Definition pop_ok {A B} (valid : AIEGraphSim R -> A -> Prop) (k : pop A B) : Prop :=
  forall p sy h b p' sy' h', Forall (fun s => cfg_ok (cfg s)) (sims sy) -> port_ok valid sy p ->
    k p sy h = Some ((b, (p', sy')), h') -> sys_le sy sy' /\ port_ok valid sy' p'.

Lemma reject_ok {A B} (valid : AIEGraphSim R -> A -> Prop) c (e : B) k :
  pop_ok valid k -> pop_ok valid (port_reject_if c e k).
Proof.
  intros Hk p sy h b p' sy' h'; unfold port_reject_if; destruct c; [|apply Hk].
  unfold ret; intros _ Hp H; by simplify_eq.
Qed.

Lemma forward_ok {A B} (valid : AIEGraphSim R -> A -> Prop) (e : B) k :
  grows valid -> (forall n, gop_le (k n)) -> pop_ok valid (port_forward e k).
Proof.
  intros Hv Hk p sy h b p' sy' h' _ Hp; unfold port_forward.
  destruct (p_graphImpl p) as [i|]; [|unfold ret; intros H; by simplify_eq].
  intros ([x sy1] & h1 & E & H)%bind_inv; unfold ret in H; simplify_eq.
  assert (Hle : sys_le sy sy') by exact (on_sim_le i _ (Hk _) _ _ _ _ _ E).
  split; [done|by eapply port_ok_le].
Qed.

(** A look-up that finds objects of the graph it looks in. *)
Definition look_ok {A} (valid : AIEGraphSim R -> A -> Prop)
    (look : string -> AIEGraphSim R -> option A * AIEGraphSim R) : Prop :=
  forall n s x s', look n s = (x, s') -> cfg_le (cfg s) (cfg s') /\
    (cfg_ok (cfg s) -> forall y, x = Some y -> valid s' y).

Lemma with_impl_ok {A B} (valid : AIEGraphSim R -> A -> Prop) look (e : B) k :
  grows valid -> look_ok valid look -> (forall n x, gop_le (k n x)) -> pop_ok valid (with_impl look e k).
Proof.
  intros Hv Hl Hk p sy h b p' sy' h' Hf Hp; unfold with_impl.
  intros ([p1 sy1] & h1 & E1 & H)%bind_inv.
  assert (H1 : sys_le sy sy1 /\ port_ok valid sy1 p1).
  { destruct (p_apiImpl p) as [[j y]|] eqn:Ep; [unfold ret in E1; by simplify_eq|].
    destruct (p_graphImpl p) as [i|] eqn:Ei; [|unfold ret in E1; by simplify_eq].
    destruct (sims sy !! i) as [s|] eqn:Es; [|done].
    destruct (look (p_portName p) s) as [x s'] eqn:El; destruct (Hl _ _ _ _ El) as [Hc Hx].
    unfold ret in E1; simplify_eq; split; [by eapply set_sim_le|].
    exists i, s'; simpl; split_and!; [done|by eapply set_sim_lookup|].
    intros k0 y Hy; destruct x as [y0|]; simpl in Hy; simplify_eq; split; [done|].
    apply Hx; [|done]; rewrite Forall_lookup in Hf; apply (Hf _ _ Es). }
  destruct H1 as [Hle Hp1].
  destruct (p_apiImpl p1) as [[i y]|] eqn:Ep; [|unfold ret in H; by simplify_eq].
  apply bind_inv in H as ([z sy2] & h2 & E2 & H); unfold ret in H; simplify_eq.
  assert (Hle2 : sys_le sy1 sy') by exact (on_sim_le i _ (Hk _ _) _ _ _ _ _ E2).
  split; [by etrans|by eapply port_ok_le].
Qed.

Lemma find_gmio_ok : look_ok gmio_valid find_gmio.
Proof.
  intros n s x s' [= <- <-]; split; [done|]; intros [H _] y Hy; unfold gmio_valid; eauto.
Qed.
Lemma find_ebuffer_ok : look_ok ebuffer_valid find_ebuffer.
Proof.
  intros n s x s' [= <- <-]; split; [done|]; intros [_ H] y Hy; unfold ebuffer_valid; eauto.
Qed.
Lemma find_ebuffer_of_port_ok : look_ok ebuffer_valid find_ebuffer_of_port.
Proof.
  intros n s x s'; unfold find_ebuffer_of_port; destruct (rfind dot n); [apply find_ebuffer_ok|].
  by intros [= <- <-].
Qed.
Lemma find_rtp_ok : look_ok any_valid find_rtp.
Proof.
  intros n s x s'; unfold find_rtp, get_rtp_api_impl.
  destruct (rtp_api_impls (cfg s) !! n) eqn:E; intros [= <- <-]; [done|].
  split; [|done]; apply set_rtp_le; by right.
Qed.
Lemma find_sharedbuffer_ok : look_ok any_valid find_sharedbuffer.
Proof.
  intros n s x s'; unfold find_sharedbuffer, get_sharedbuffer_api_impl.
  destruct (sharedbuffer_api_impls (cfg s) !! n) eqn:E; intros [= <- <-]; [done|].
  split; [|done]; apply set_shared_le; by right.
Qed.

Lemma gmio_port_ok k : pop_ok gmio_valid (gmio_port k).
Proof. apply with_impl_ok; [apply gmio_grows|apply find_gmio_ok|]; intros n x st; apply at_gmio_le. Qed.
Lemma ebuffer_port_ok look k : look_ok ebuffer_valid look -> pop_ok ebuffer_valid (ebuffer_port look k).
Proof. intros H; apply with_impl_ok; [apply ebuffer_grows|done|]; intros n x st; apply at_ebuffer_le. Qed.

Lemma gmio_method_ok B (k : pop nat B) : gmio_method B k -> pop_ok gmio_valid k.
Proof.
  destruct 1; try (repeat apply reject_ok; apply gmio_port_ok); intros p; repeat apply reject_ok.
  all: apply forward_ok; [apply gmio_grows|]; intros n; grow.
Qed.

Lemma ebuffer_method_ok B (k : pop nat B) : ebuffer_method B k -> pop_ok ebuffer_valid k.
Proof.
  destruct 1; intros p; repeat apply reject_ok; apply ebuffer_port_ok;
    (apply find_ebuffer_ok || apply find_ebuffer_of_port_ok).
Qed.

Lemma rtp_update_ok data len : pop_ok any_valid (hw_rtp_update data len).
Proof.
  repeat apply reject_ok; apply with_impl_ok; [apply any_grows|apply find_rtp_ok|]; intros n x; grow.
Qed.
Lemma rtp_read_ok data len : pop_ok any_valid (hw_rtp_read data len).
Proof.
  repeat apply reject_ok; apply with_impl_ok; [apply any_grows|apply find_rtp_ok|]; intros n x; grow.
Qed.
Lemma shared_update_ok data len : pop_ok any_valid (hw_shared_update data len).
Proof.
  repeat apply reject_ok; apply with_impl_ok; [apply any_grows|apply find_sharedbuffer_ok|]; intros n x; grow.
Qed.

(** ** Making a graph *)

Lemma graph_new_cfg name (g : globals P) h s g' h' :
  graph_new cp name g h = Some ((s, g'), h') -> cfg (s : AIEGraphSim R) = cp.
Proof.
  unfold graph_new, graph_setup; cbn [cfg]; destruct (get_graph_config name cp); [|unfold ret; intros H; by simplify_eq].
  destruct (head _); [|done].
  intros (r & h1 & _ & H)%bind_inv; destruct (negb _); [unfold ret in H; by simplify_eq|].
  apply bind_inv in H as (r2 & h2 & _ & H); destruct (negb _); [unfold ret in H; by simplify_eq|].
  apply bind_inv in H as (r3 & h3 & _ & H).
  destruct (config_manager_initialize _ _ _ _); destruct (configure _ _).
  unfold ret in H; by simplify_eq.
Qed.

Lemma abr_init_isr_sims (sy sy' : sys) h h' : abr_init_isr sy h = Some (sy', h') -> sims sy' = sims sy.
Proof.
  unfold abr_init_isr, exec_, exec, bind, ret; simpl; intros H.
  repeat case_match; simplify_eq; done.
Qed.

Lemma api_new_ok name (sy : sys) h a sy' h' :
  cfg_ok cp -> api_new cp name sy h = Some ((a, sy'), h') -> sys_le sy sy' /\ api_ok sy' a.
Proof.
  intros Hcp ([s g] & h1 & E & H)%bind_inv; apply graph_new_cfg in E.
  assert (Hs : exists i, sims sy' = sims sy ++ [s] /\ i = length (sims sy) /\ a = mkApi (Some i) false).
  { exists (length (sims sy)); unfold sims in *; destruct (graph_sim_list sy) as [l|]; simpl in *.
    - unfold ret in H; by simplify_eq.
    - apply bind_inv in H as (sy1 & h2 & Ei & H); unfold ret in H; simplify_eq.
      apply abr_init_isr_sims in Ei; unfold sims in Ei; rewrite Ei; done. }
  destruct Hs as (i & Hs & -> & ->); split.
  - constructor; rewrite Hs; [rewrite length_app; lia| |].
    + intros i t Hi; exists t; split; [by apply lookup_app_l_Some|done].
    + intros Hf; apply Forall_app; split; [done|]; constructor; [by rewrite E|done].
  - exists (length (sims sy)), s; split_and!; [done| |done].
    rewrite Hs, lookup_app_r, Nat.sub_diag by lia; done.
Qed.

Lemma isr_le (sy sy' : sys) h h' : abr_error_isr sy h = Some (sy', h') -> sys_le sy sy'.
Proof.
  intros H; destruct (abr_error_isr_spec sy h) as (sy1 & css & E & Hl & _ & _ & _ & Hn & Hi).
  rewrite E in H; simplify_eq.
  assert (Hc : forall i s, sims sy !! i = Some s -> exists c, sims sy' !! i = Some (set_cache c s)).
  { intros i s Hs; destruct (lookup_lt_is_Some_2 css i) as [cs Hcs];
      [rewrite Hl; by eapply lookup_lt_Some|].
    destruct (Hi _ _ _ Hs Hcs) as (r & c & Hc & _); eauto. }
  constructor; [lia| |].
  - intros i s Hs; destruct (Hc _ _ Hs) as [c Hs']; by exists (set_cache c s).
  - rewrite !Forall_lookup; intros Hf i s' Hs'.
    destruct (lookup_lt_is_Some_2 (sims sy) i) as [s Hs]; [rewrite <- Hn; by eapply lookup_lt_Some|].
    destruct (Hc _ _ Hs) as [c Hc']; simplify_eq; apply (Hf _ _ Hs).
Qed.

(** ** Every step keeps the invariant *)

Lemma world_new w a : api_ok (w_sys w) a -> world_ok w ->
  world_ok (mkWorld (w_sys w) (w_apis w ++ [a]) (w_gmios w) (w_ebuffers w) (w_rtps w) (w_shareds w)).
Proof. intros Ha []; constructor; simpl; try done; apply Forall_app; split; [done|by constructor]. Qed.

Lemma step_ok w h w' h' : cfg_ok cp -> step (w, h) (w', h') -> world_ok w -> world_ok w'.
Proof.
  intros Hcp Hs Hw; pose proof Hw as Hw0; destruct Hw0; inversion Hs; subst; clear Hs.
  - edestruct api_new_ok as [Hle Ha]; [done..|].
    apply (world_ok_le _ _ Hle) in Hw; by apply (world_new (mkWorld _ _ _ _ _ _)).
  - match goal with H : api_call _ _ _ _ _ _ = _ |- _ => apply api_call_ok in H as (Hle & Hg & Hi) end.
    destruct (world_ok_le _ _ Hle Hw); constructor; simpl in *; try done.
    apply Forall_insert; [done|].
    assert (api_ok sy a) as (j & s & Hj & Hsj & Hc) by (eapply Forall_lookup_1; [exact ok_apis1|done]).
    exists j, s; rewrite Hg; split_and!; [done|done|]; intros Hinit.
    destruct (Hi Hinit) as [?|(j' & s' & ? & ? & ?)]; [auto|by simplify_eq].
  - apply world_ok_le; [by eapply isr_le|done].
  - constructor; simpl; try done; apply Forall_app; split; [done|]; constructor; [|done].
    apply port_ok_new; by eapply Forall_forall.
  - edestruct (gmio_method_ok B k) as [Hle Hp]; [done|exact ok_sims0|eapply Forall_lookup_1; done|done|].
    destruct (world_ok_le _ _ Hle Hw); constructor; simpl in *; try done; by apply Forall_insert.
  - constructor; simpl; try done; apply Forall_app; split; [done|]; constructor; [|done].
    apply port_ok_new; by eapply Forall_forall.
  - edestruct (ebuffer_method_ok B k) as [Hle Hp]; [done|exact ok_sims0|eapply Forall_lookup_1; done|done|].
    destruct (world_ok_le _ _ Hle Hw); constructor; simpl in *; try done; by apply Forall_insert.
  - constructor; simpl; try done; apply Forall_app; split; [done|]; constructor; [|done].
    apply port_ok_new; by eapply Forall_forall.
  - edestruct rtp_update_ok as [Hle Hp]; [exact ok_sims0|eapply Forall_lookup_1; done|done|].
    destruct (world_ok_le _ _ Hle Hw); constructor; simpl in *; try done; by apply Forall_insert.
  - edestruct rtp_read_ok as [Hle Hp]; [exact ok_sims0|eapply Forall_lookup_1; done|done|].
    destruct (world_ok_le _ _ Hle Hw); constructor; simpl in *; try done; by apply Forall_insert.
  - constructor; simpl; try done; apply Forall_app; split; [done|]; constructor; [|done].
    apply port_ok_new; by eapply Forall_forall.
  - edestruct shared_update_ok as [Hle Hp]; [exact ok_sims0|eapply Forall_lookup_1; done|done|].
    destruct (world_ok_le _ _ Hle Hw); constructor; simpl in *; try done; by apply Forall_insert.
Qed.

Lemma initial_ok g : world_ok (initial g).
Proof. constructor; constructor. Qed.

Lemma reachable_ok g wh : cfg_ok cp -> reachable g wh -> world_ok (fst wh).
Proof.
  intros Hcp; induction 1 as [|[w h] [w' h'] _ IH Hs]; [apply initial_ok|by eapply step_ok].
Qed.

(** C4: Take any state the program can reach from a parsed configuration whose names lead only to
    objects it has (a freshly parsed one names none), whatever the device answers, whatever
    graphs and ports it makes and in whatever order methods are called and interrupts are
    served.  A graph that passed [init] has an object for every GMIO, external buffer, parameter
    and shared buffer of its tables.  A name that leads to the object of a GMIO or of an external
    buffer leads to one of the graph's store, and the object a GMIO port or a port of an external
    buffer has looked up is one of the store of the graph the port belongs to. *)
Theorem pointers_stay_valid g w h :
  cfg_ok cp -> reachable g (w, h) ->
  (forall a, a ∈ w_apis w -> exists i s, api_graph a = Some i /\ sims (w_sys w) !! i = Some s /\
     (isInitialized a = true -> configured (cfg s)) /\
     (forall n j, get_gmio_api_impl n (cfg s) = Some j -> is_Some (gmio_store (cfg s) !! j)) /\
     (forall n j, get_externalbuffer_api_impl n (cfg s) = Some j -> is_Some (ebuffer_store (cfg s) !! j))) /\
  (forall p i j, p ∈ w_gmios w -> p_apiImpl p = Some (i, j) -> p_graphImpl p = Some i /\
     exists s, sims (w_sys w) !! i = Some s /\ is_Some (gmio_store (cfg s) !! j)) /\
  (forall p i j, p ∈ w_ebuffers w -> p_apiImpl p = Some (i, j) -> p_graphImpl p = Some i /\
     exists s, sims (w_sys w) !! i = Some s /\ is_Some (ebuffer_store (cfg s) !! j)).
Proof.
  intros Hcp Hr; destruct (reachable_ok g (w, h) Hcp Hr) as [Hs Ha Hg He _ _]; simpl in *.
  rewrite Forall_forall in Ha; rewrite Forall_forall in Hg; rewrite Forall_forall in He.
  rewrite Forall_lookup in Hs; split_and!.
  - intros a Hin; destruct (Ha _ Hin) as (i & s & Hi & Hl & Hc); destruct (Hs _ _ Hl) as [H1 H2].
    exists i, s; split_and!; try done; intros n j Hj; apply lookup_lt_is_Some; eauto.
  - intros p i j Hin Hp; destruct (Hg _ Hin) as (i' & s & Hi & Hl & Hc); destruct (Hc _ _ Hp) as [-> Hv].
    split; [done|]; exists s; split; [done|by apply lookup_lt_is_Some].
  - intros p i j Hin Hp; destruct (He _ Hin) as (i' & s & Hi & Hl & Hc); destruct (Hc _ _ Hp) as [-> Hv].
    split; [done|]; exists s; split; [done|by apply lookup_lt_is_Some].
Qed.
End Program.

(** * A second [init] *)

Section Reinit.
Context {P R : Type} `{rt : AieRt} {AC : AieConsts} {HO : HashOrder} {Prof : Profiling P R}.
Context (blob_at : Z -> list Z).

(** An object with no transfer in flight: every buffer descriptor of its channel is free. *)
Definition idle_gmio (c : gmio_config) (q : GmioApiImpl) : Prop :=
  enqueuedBDs (impl_gmio q) = [] /\
  availableBDs (impl_gmio q) ≡ₚ bd_numbers c (dmaStartQMaxSize (impl_gmio q)).

(** C38: A graph that is initialised again gets new objects.  Let a port have looked up the object
    of its GMIO, configured from the entry of the graph's tables.  A further [init] leads the name
    to another object, with every buffer descriptor of the channel free, while the port keeps the
    old one, unchanged, with the descriptors it enqueued.  Both are configured from the same entry,
    so transfers through the port and transfers by name use the same channel; and when the device
    reports the same queue size both times, the descriptors the new object takes for free
    are those of the old one, the enqueued ones among them. *)
Theorem second_init_splits_ports a i s p c j q sy blobs n h a' sy' h' :
  api_graph a = Some i -> sims (P := P) (R := R) sy !! i = Some s -> cfg_ok (cfg s) ->
  gmioconfigs (tables (cfg s)) !! p_portName p = Some c ->
  get_gmio_api_impl (p_portName p) (cfg s) = Some j -> p_apiImpl p = Some (i, j) ->
  gmio_store (cfg s) !! j = Some q -> gmio_inv c (impl_gmio q) ->
  api_init blob_at blobs n a sy h = Some ((aeg_ok, (a', sy')), h') ->
  exists s' j' q', sims sy' !! i = Some s' /\
    get_gmio_api_impl (p_portName p) (cfg s') = Some j' /\ j' <> j /\
    gmio_store (cfg s') !! j = Some q /\
    gmio_store (cfg s') !! j' = Some q' /\ idle_gmio c q' /\
    (forall k, gmio_port k p sy' =
       (let* (e, sy) := on_sim i (fun st => at_gmio j (k (g_cm (snd st))) st) sy' in ret (e, (p, sy)))) /\
    pGMIOConfig (impl_gmio q) = Some c /\ pGMIOConfig (impl_gmio q') = Some c /\
    (dmaStartQMaxSize (impl_gmio q') = dmaStartQMaxSize (impl_gmio q) ->
     availableBDs (impl_gmio q') ≡ₚ enqueuedBDs (impl_gmio q) ++ availableBDs (impl_gmio q)).
Proof.
  intros Ha Hs Hok Hc Hj Hp Hqj Hinv; unfold api_init; rewrite bool_decide_eq_false_2 by congruence.
  destruct (_ && _); [done|].
  intros ([e1 sy1] & h1 & E1 & H)%bind_inv; apply api_load_blobs_state in E1 as ->.
  unfold aeg_is_ok in H; case_bool_decide as He1; cbn in H; [|unfold ret in H; simplify_eq].
  apply bind_inv in H as ([e2 sy2] & h2 & E2 & H).
  unfold aeg_is_ok in H; case_bool_decide as He; cbn in H; unfold ret in H; simplify_eq.
  unfold on_graph, on_sim in E2; rewrite Ha, Hs in E2.
  destruct (graph_init_spec s (glob sy) h1) as (e & c' & cs & E & _ & _ & Hx & Hr).
  rewrite (bind_Some _ _ _ _ _ E) in E2; unfold ret in E2; simplify_eq.
  destruct (Hr eq_refl) as [_ Hg]; destruct (Hg _ _ Hc) as (_ & m & j' & (Hn & q' & Hq & Hq') & Hlen).
  destruct Hq' as (Hcfg & _ & (Hnew & _ & _ & Hperm) & _ & Henq & _).
  rewrite Henq, app_nil_r in Hperm; destruct Hinv as (Hold & _ & _ & Hperm0).
  assert (Hlt : (j < length (gmio_store (cfg s)))%nat) by (by eapply lookup_lt_Some).
  exists (set_cfg c' s), j', q'; split; [by eapply set_sim_lookup|]; simpl.
  split; [done|]; split; [lia|]; split; [by eapply prefix_lookup_Some|].
  split; [done|]; split; [split; [done|exact Hperm]|].
  split; [intros k; unfold gmio_port, with_impl; rewrite Hp; unfold bind, ret; simpl; rewrite Hp; done|].
  split; [done|split; [done|]]; intros Hsz; rewrite Hperm, Hsz, <- Hperm0; apply Permutation_app_comm.
Qed.
End Reinit.

(** * A concrete program *)

(** A device with one partition, whose GMIO channels have two buffer descriptors and which
    reports one error. *)
Definition demo_aie_rt : AieRt := {|
  drv := fun h c => match c with
    | XAie_SetupPartitionConfig b _ _ => mkResp 0 0 [b; 0; 4; 2; 0]
    | XAie_CfgInitialize _ => mkResp 0 0 [0x20000000000; 0; 4; 2; 1]
    | XAie_DmaGetMaxQueueSize _ => mkResp 0 2 []
    | XAie_MemAllocate n => mkResp 0 0x80000000 []
    | ipc_dev_addr _ => mkResp 0 0x90000000 []
    | XAie_BacktrackErrorInterrupts _ _ _ => mkResp 0 1 [0; 77]
    | XScuGic_LookupConfig => mkResp 0 1 []
    | _ => mkResp 0 0 []
    end;
  XAIE_ERR := 1; XAIE_CORE_STATUS_TIMEOUT := 12; XAIE_LOCK_WITH_NO_VALUE := -1;
  XAIE_DEV_GEN_AIE := 1; XAIE_DEV_GEN_AIEML := 2; XAIE_DEV_GEN_S100 := 6; XAIE_DEV_GEN_S200 := 7
|}.
#[local] Instance demo_consts : AieConsts :=
  {| XAIE_DEV_GEN_AIE2PS := 5; XAIE_INSUFFICIENT_BUFFER_SIZE := 20; XAIE_COMPONENT_IS_READY := 1 |}.
#[local] Existing Instance demo_aie_rt.
#[local] Existing Instance list_order.

Definition demo_driver_config : driver_config :=
  {| hw_gen := 2; base_address := 0x20000000000; column_shift := 25; row_shift := 20; num_columns := 4;
     num_rows := 8; shim_row := 0; mem_row_start := 1; mem_num_rows := 1; aie_tile_row_start := 2;
     aie_tile_num_rows := 6; partition_num_cols := 4; partition_overlay_start_cols := [0] |}.
Definition demo_graph_config : graph_config :=
  {| gc_id := 0; gc_name := "g"; coreColumns := []; coreRows := []; iterMemColumns := [];
     iterMemRows := []; iterMemAddrs := []; triggered := []; broadcast_column := 0 |}.
Definition demo_cp : ConfigureParser :=
  mkCfg {| dconfig := demo_driver_config; partitions := [];
           aiecompilerconfig := {| cfg_broadcast_enable_core := false; graph_iterator_event := false;
                                   enable_multi_layer := false |};
           gconfigs := {["g" := demo_graph_config]}; gmioconfigs := {["in" := demo_gmio]};
           plioconfigs := ∅; externalbufferconfigs := ∅; sharedbufferconfigs := ∅; rtpconfigs := ∅ |}
    [] ∅ [] ∅ ∅ ∅.
Definition demo_globals : globals Z := mkGlobals Z config_manager_initial ∅ 0.

(** The program makes a graph, brings it up without CDOs, binds a port to its GMIO and starts a
    transfer through it. *)
Definition demo_run : option (world (P := Z) (R := Z) * hist) :=
  match api_new demo_cp "g" (w_sys (initial demo_globals)) [] with
  | Some ((a, sy), h) =>
      match api_init (fun _ => []) None 0 a sy h with
      | Some ((aeg_ok, (a, sy)), h) =>
          match hw_gm2aie_nb 4 4096 16 (bound_port "in" a) sy h with
          | Some ((aeg_ok, (p, sy)), h) => Some (mkWorld sy [a] [p] [] [] [], h)
          | _ => None
          end
      | _ => None
      end
  | None => None
  end.

Lemma demo_run_reachable w h :
  demo_run = Some (w, h) -> reachable (fun _ => []) 4 demo_cp demo_globals (w, h).
Proof.
  unfold demo_run; destruct (api_new _ _ _ _) as [[[a sy] h1]|] eqn:E1; [|done].
  destruct (api_init _ _ _ _ _ _) as [[[[] [a2 sy2]] h2]|] eqn:E2; try done.
  destruct (hw_gm2aie_nb _ _ _ _ _ _) as [[[[] [p sy3]] h3]|] eqn:E3; try done.
  intros [= <- <-].
  assert (R1 : reachable (fun _ => []) 4 demo_cp demo_globals (mkWorld sy [a] [] [] [] [], h1)).
  { eapply reach_step; [apply reach_start|].
    exact (step_new (fun _ => []) 4 demo_cp (initial demo_globals) [] "g" a sy h1 E1). }
  assert (R2 : reachable (fun _ => []) 4 demo_cp demo_globals (mkWorld sy2 [a2] [] [] [] [], h2)).
  { eapply reach_step; [exact R1|].
    exact (step_call (fun _ => []) 4 demo_cp (mkWorld sy [a] [] [] [] []) h1 0 (A_init None 0) a aeg_ok a2
             sy2 h2 eq_refl E2). }
  eapply reach_step.
  { eapply reach_step; [exact R2|].
    exact (step_gmio_new (fun _ => []) 4 demo_cp (mkWorld sy2 [a2] [] [] [] []) h2 a2 "in"
             (list_elem_of_here _ _)). }
  exact (step_gmio (fun _ => []) 4 demo_cp (mkWorld sy2 [a2] [bound_port "in" a2] [] [] []) h2 0 aeg_err _ _
           aeg_ok p sy3 h3 eq_refl (G_gm2aie_nb _ 4096 16) E3).
Qed.

Lemma demo_cp_ok : cfg_ok demo_cp.
Proof. split; intros n i H; discriminate H. Qed.

(** The port of the concrete program has looked up its object, and the object is there. *)
Lemma pointers_stay_valid_witness :
  exists w h p s, demo_run = Some (w, h) /\ w_gmios w = [p] /\ p_apiImpl p = Some (0%nat, 0%nat) /\
    sims (w_sys w) !! 0%nat = Some s /\ is_Some (gmio_store (cfg s) !! 0%nat).
Proof.
  destruct demo_run as [[w h]|] eqn:E; [|vm_compute in E; discriminate].
  pose proof E as Hr; apply demo_run_reachable in Hr.
  assert (Hp : exists p, w_gmios w = [p] /\ p_apiImpl p = Some (0%nat, 0%nat))
    by (vm_compute in E; injection E as <- _; eexists; split; reflexivity).
  destruct Hp as (p & Hw & Hp); exists w, h, p.
  destruct (pointers_stay_valid (fun _ => []) 4 demo_cp demo_globals w h demo_cp_ok Hr) as (_ & Hg & _).
  destruct (Hg p 0%nat 0%nat) as (_ & s & Hs & Hj); [rewrite Hw; left|exact Hp|].
  exists s; repeat split; assumption.
Defined.

(** A second [init] of that graph: descriptor 4 is in flight for the port's object, and free for
    the new one. *)
Lemma second_init_splits_ports_witness :
  exists w h s' q q', demo_run = Some (w, h) /\
    match api_init (fun _ => []) None 0 (mkApi (Some 0%nat) true) (w_sys w) h with
    | Some ((aeg_ok, (_, sy)), _) => sims sy !! 0%nat = Some s'
    | _ => False
    end /\
    gmio_store (cfg s') !! 0%nat = Some q /\ gmio_store (cfg s') !! 1%nat = Some q' /\
    enqueuedBDs (impl_gmio q) = [4] /\ enqueuedBDs (impl_gmio q') = [] /\
    4 ∈ availableBDs (impl_gmio q').
Proof.
  destruct demo_run as [[w h]|] eqn:E; [|vm_compute in E; discriminate].
  destruct (api_init (fun _ => []) None 0 (mkApi (Some 0%nat) true) (w_sys w) h)
    as [[[e [a' sy']] h']|] eqn:Ei; [|vm_compute in E; injection E as <- <-; vm_compute in Ei; discriminate].
  assert (He : e = aeg_ok /\ exists s p q, sims (w_sys w) !! 0%nat = Some s /\ w_gmios w = [p] /\
      p_portName p = "in" /\ p_apiImpl p = Some (0%nat, 0%nat) /\ length (gmio_store (cfg s)) = 1%nat /\
      gmio_api_impls (cfg s) = {["in" := 0%nat]} /\ ebuffer_api_impls (cfg s) = ∅ /\
      tables (cfg s) = tables demo_cp /\ gmio_store (cfg s) !! 0%nat = Some q /\
      pGMIOConfig (impl_gmio q) = Some demo_gmio /\ gmio_isConfigured (impl_gmio q) = true /\
      dmaStartQMaxSize (impl_gmio q) = 2 /\
      availableBDs (impl_gmio q) = [5] /\ enqueuedBDs (impl_gmio q) = [4] /\
      forall s', sims sy' !! 0%nat = Some s' ->
        gmio_api_impls (cfg s') !! "in"%string = Some 1%nat /\
        (dmaStartQMaxSize ∘ impl_gmio) <$> (gmio_store (cfg s') !! 1%nat) = Some 2).
  { vm_compute in E; injection E as <- <-; vm_compute in Ei; injection Ei as <- _ <- _.
    split; [reflexivity|]; eexists _, _, _; repeat split; try reflexivity;
      injection H as <-; reflexivity. }
  destruct He as (-> & s & p & q & Hs & _ & Hn & Hp & Hl & Hg & Hb & Ht & Hq & H1 & H2 & H3 & H4 & H5 & Hnew).
  destruct (second_init_splits_ports (fun _ => []) (mkApi (Some 0%nat) true) 0 s p demo_gmio 0 q
    (w_sys w) None 0 h a' sy' h' eq_refl Hs)
    as (s' & j' & q' & Hs' & Hj & _ & Hq0 & Hq' & [Henq _] & _ & _ & _ & Hav).
  - split; intros n i; [rewrite Hg, Hl; intros [_ <-]%lookup_singleton_Some; lia|rewrite Hb; discriminate].
  - rewrite Ht, Hn; reflexivity.
  - unfold get_gmio_api_impl; rewrite Hg, Hn; reflexivity.
  - exact Hp.
  - exact Hq.
  - unfold gmio_inv; rewrite H1, H2, H3, H4, H5; repeat split; [discriminate|].
    change (bd_numbers demo_gmio 2) with [4; 5]; apply perm_swap.
  - exact Ei.
  - destruct (Hnew s' Hs') as [Hi Hz]; unfold get_gmio_api_impl in Hj; rewrite Hn, Hi in Hj.
    injection Hj as <-; rewrite Hq' in Hz; injection Hz as Hz.
    exists w, h, s', q, q'; split; [reflexivity|]; split; [rewrite Ei; exact Hs'|].
    repeat split; try assumption.
    rewrite (Hav (eq_trans Hz (eq_sym H3))), H5; left.
Defined.

(** A graph of that device. *)
Definition demo_sim (handler start : Z) : AIEGraphSim Z :=
  mkGraph Z demo_cp {| dev_BaseAddr := 0x20000000000; dev_StartCol := start; dev_NumCols := 4;
                       dev_DevGen := 2; dev_IsReady := 1 |}
    (Some (graph_api_new (Some demo_graph_config))) (Some []) (Some {| ipc_ := false |}) "g" handler 0 [].
Definition demo_sys : system Z Z := mkSys (Some [demo_sim 9 0]) demo_globals 0.

(** The one error of the device is reported to the handler and returned. *)
Lemma backtrack_reports_all_witness :
  exists l, BacktrackErrors (demo_sim 9 0) [] = Some ((Some l, set_cache l (demo_sim 9 0)),
    after [] [bt_call (demo_sim 9 0); error_handler 9 l 0]) /\ (length l <= 32)%nat.
Proof.
  destruct (backtrack_reports_all (demo_sim 9 0) []) as (k & l & Hk & Hl & H); [discriminate|reflexivity|].
  assert (E : BacktrackErrors (demo_sim 9 0) [] = Some ((Some [77], set_cache [77] (demo_sim 9 0)),
    after [] [bt_call (demo_sim 9 0); error_handler 9 [77] 0])) by (vm_compute; reflexivity).
  exists [77]; split; [exact E|].
  destruct H as [(H & _)|(s' & H & _)]; rewrite H in E; [|discriminate].
  destruct (decide (l = [])); [discriminate|]; injection E as -> _ _; simpl in Hl |- *; lia.
Defined.

(** Bringing the graph up with a blob of one register write. *)
Definition demo_blob : list Z := cdo_header 4 0x200 3 ++ [0x20003; 0x1000; 5].

Lemma api_init_applies_cdos_first_witness :
  exists hs h1 e a' sy' cs,
    applied (fun _ => demo_blob) (mkApi (Some 0%nat) false) demo_sys [{| blob_data := 64; blob_len := 32 |}] [] 1 hs /\
    hs !! 1%nat = Some h1 /\
    api_init (fun _ => demo_blob) (Some [{| blob_data := 64; blob_len := 32 |}]) 1 (mkApi (Some 0%nat) false)
      demo_sys [] = Some ((e, (a', sy')), after h1 cs) /\ Forall is_gmio_setup cs.
Proof.
  assert (Ho : forall h, blob_outcome (fun _ => demo_blob) (mkApi (Some 0%nat) false) demo_sys
    {| blob_data := 64; blob_len := 32 |} h = Some (aeg_ok, after h [Xil_Out32 0x1000 5])) by reflexivity.
  destruct (api_init_applies_cdos_first (fun _ => demo_blob) (mkApi (Some 0%nat) false) 0 (demo_sim 9 0)
    (Some [{| blob_data := 64; blob_len := 32 |}]) 1 demo_sys [] eq_refl eq_refl
    ltac:(discriminate) (le_n 1)) as (k & hs & h1 & e & a' & sy' & cs & Hk & H & Hset & Hend & _).
  - intros b h [->|[]%elem_of_nil]%elem_of_cons; rewrite Ho; eexists; reflexivity.
  - destruct Hend as [[-> Hh]|(Hlt & (He & _) & b & hk & Hb & _ & Hf)].
    + exists hs, h1, e, a', sy', cs; split; [exact Hk|]; split; [exact Hh|]; split; [exact H|exact Hset].
    + assert (k = 0%nat) as -> by lia; injection Hb as <-; rewrite Ho in Hf; injection Hf as <- _; done.
Defined.

Lemma isr_setup_masks_on_failure_witness :
  exists sy' h', abr_init_isr (rt := ok_rt) demo_sys [] = Some (sy', h') /\
    Xil_ExceptionDisable ∈ map fst h' /\ Xil_ExceptionEnable ∉ map fst h'.
Proof.
  destruct (isr_setup_masks_on_failure (rt := ok_rt) demo_sys [] eq_refl) as (sy' & cs & H & Hd & Hc).
  exists sy'; eexists; split; [exact H|]; rewrite after_calls; split; [exact Hd|].
  destruct Hc as [(Hi & _)|(_ & Hn)]; [|exact Hn].
  vm_compute in H; injection H as <- _; discriminate Hi.
Defined.

(** A request for 4 GiB and 16 bytes gets 16 bytes. *)
Lemma malloc_truncates_size_witness :
  api_malloc (2 ^ 32 + 16) (mkApi (Some 0%nat) false) demo_sys [] =
    Some ((0x80000000, demo_sys), after [] [XAie_MemAllocate 16]).
Proof.
  destruct (malloc_truncates_size (mkApi (Some 0%nat) false) 0 (demo_sim 9 0) {| ipc_ := false |} (2 ^ 32 + 16)
    demo_sys [] eq_refl eq_refl eq_refl eq_refl ltac:(lia)) as [H _].
  exact H.
Defined.
