(* ===== verification/SimBackend.v ===== *)
(** The simulator build of the graph class ([src/aeg_aiebaremetal.cc] with [__AIESIM__]): the
    constructor that finds the process-to-process backend by name, the operations that differ
    from the hardware build, the class [BaremetalGraphSimBaseImpl] a simulator library exports,
    and its composition with the wrapper of SimGraph.v.

    What the other operations do is the code of AieGraph.v and AieApi.v.  The symbols the
    dynamic linker finds and the environment variable are the class [SimEnv]; they do not change
    while the program runs.  An address of an object of the library is the parameter
    [host_addr]; the application's memory is the parameter [mem_at]. *)
From stdpp Require Import base list strings gmap.
From Stdlib Require Import ZArith Lia.
From S2P Require Import Prelude ApiTypes Driver GraphApi Rtp Gmio HostMem PortImpl ExternalBuffer.
From S2P Require Import SimGraph ConfigBin Configure Regs Cdo Event AieGraph AieApi AieFacts AieReach.
Local Open Scope Z_scope.
Local Open Scope aeg_scope.

(** What the process offers: [dlsym(RTLD_DEFAULT, name) != nullptr] and [getenv]. *)
Class SimEnv := {
  dlsym : string -> bool;
  AEG_PS_IPC_SOCKET : option string
}.

(** * The graph *)
Section Sim.
Context {P R : Type} `{rt : AieRt} {AC : AieConsts} {HO : HashOrder} {Prof : Profiling P R} {SE : SimEnv}.

Abbreviation state := (AIEGraphSim R * globals P)%type.
Abbreviation op A := (state -> M (A * state)).

(** [src/aeg_aiebaremetal.cc:293-301] [AIEGraphSim::AIEGraphSim] the helpers for global memory *)
Definition gm_helpers_found : bool :=
  dlsym "aeg_ipc_alloc_gm_host" && dlsym "aeg_ipc_free_gm_host" && dlsym "aeg_ipc_dev_addr" &&
  dlsym "aeg_ipc_write_gm" && dlsym "aeg_ipc_read_gm".

(** [src/aeg_aiebaremetal.cc:306-316] [AIEGraphSim::AIEGraphSim] connecting to the server *)
Definition auto_connect : M unit :=
  if dlsym "aeg_ipc_backend_get_fd" && dlsym "aeg_ipc_backend_connect" then
    r <-- exec ipc_backend_get_fd ;;
    if rc r <? 0 then
      match AEG_PS_IPC_SOCKET with
      | Some path => if String.eqb path "" then ret tt else exec_ (ipc_backend_connect path)
      | None => ret tt
      end
    else ret tt
  else ret tt.

(** [src/aeg_aiebaremetal.cc:277-394] [AIEGraphSim::AIEGraphSim] the simulator build *)
Definition sim_graph_new (cp : ConfigureParser) (GraphName : string) (g : globals P) : M state :=
  if negb gm_helpers_found then ret (mkGraph R cp dev_zero None None None GraphName 0 0 [], g)
  else
    auto_connect ;;;
    graph_setup (fun b => b) GraphName (mkGraph R cp dev_zero None None (Some {| ipc_ := true |}) GraphName 0 0 []) g.

(** [src/aeg_aiebaremetal.cc:248-259] [AIEGraphSim::~AIEGraphSim] the simulator build *)
Definition sim_graph_delete : M unit :=
  exec_ XAie_Finish ;;;
  if dlsym "aeg_ipc_backend_get_fd" && dlsym "aeg_ipc_backend_disconnect" then
    r <-- exec ipc_backend_get_fd ;;
    if 0 <=? rc r then exec_ (ipc_backend_disconnect 0) else ret tt
  else ret tt.

(** [src/aeg_aiebaremetal.cc:401-452] [AIEGraphSim::selftestexit] the simulator build *)
Definition sim_graph_selftestexit : op aeg_err := fun '(s, g) =>
  let gen := dev_DevGen (Dev s) in
  (if gen =? XAIE_DEV_GEN_AIE2PS then exec_ (XAie_UpdateNpiAddr 0xf6d50000)
   else if gen =? XAIE_DEV_GEN_AIEML then exec_ (XAie_UpdateNpiAddr 0xF6D10000)
   else if gen =? XAIE_DEV_GEN_AIE then exec_ (XAie_UpdateNpiAddr 0xF70A0000)
   else ret tt) ;;;
  ret (aeg_ok, (s, g)).

(** [src/aeg_aiebaremetal.cc:494-549] [AIEGraphSim::init] the simulator build: the server is told
    of the graph before anything is configured *)
Definition sim_graph_init : op aeg_err := fun '(s, g) =>
  if negb (dlsym "aeg_ipc_graph_init_ipc") then ret (aeg_backend_not_ready, (s, g))
  else
    r <-- exec (ipc_graph_init_ipc (graphName s) (u32 (Z.of_nat (String.length (graphName s))))) ;;
    if negb (rc r =? 0) then ret (aeg_aie_driver_error, (s, g)) else graph_init (s, g).

(** [src/aeg_aiebaremetal.cc:556-587] [AIEGraphSim::run] the simulator build *)
Definition sim_graph_run (fuel : nat) (num : Z) : op aeg_err := fun st =>
  exec_ aiesim_StartPlios ;;; graph_run fuel num st.

(** [src/aeg_aiebaremetal.cc:595-602] [AIEGraphSim::aie2gm_nb] the simulator build *)
Definition sim_graph_aie2gm_nb (fuel : nat) (name : string) (data len : Z) : op aeg_err := fun '(s, g) =>
  on_gmio aeg_backend_not_ready name (fun p => coded (aie2gm_nb true (g_cm g) fuel data len p)) (s, g).

(** [src/aeg_aiebaremetal.cc:610-617] [AIEGraphSim::aie2gm] the simulator build *)
Definition sim_graph_aie2gm (fuel : nat) (name : string) (data len : Z) : op aeg_err := fun '(s, g) =>
  on_gmio aeg_backend_not_ready name (fun p => coded (impl_aie2gm true (g_cm g) fuel data len p)) (s, g).

(** [src/aeg_aiebaremetal.cc:665-677] [AIEGraphSim::gm2aie] the simulator build *)
Definition sim_graph_gm2aie (fuel : nat) (name : string) (data len : Z) : op aeg_err := fun '(s, g) =>
  on_gmio aeg_backend_not_ready name (fun p => coded (impl_gm2aie true (g_cm g) fuel data len p)) (s, g).

(** [src/aeg_aiebaremetal.cc:866-877] [AIEGraphSim::gmio_wait] the simulator build *)
Definition sim_graph_gmio_wait (fuel : nat) (name : string) (syncmode : bool) : op aeg_err :=
  on_gmio aeg_backend_not_ready name (fun p =>
    let* (n, p) := impl_wait true fuel syncmode p in ret (aeg_err_of_int n, p)).

(** [src/aeg_aiebaremetal.cc:700-707] [AIEGraphSim::wait] the simulator build *)
Definition sim_graph_eb_wait (fuel : nat) (name port_name : string) : op aeg_err := fun '(s, g) =>
  on_ebuffer aeg_backend_not_ready name (fun b => coded (eb_wait true (g_cm g) fuel port_name b)) (s, g).

(** [src/aeg_aiebaremetal.cc:715-722] [AIEGraphSim::gm2aie_nb] the simulator build *)
Definition sim_graph_eb_gm2aie_nb (name port_name : string) : op aeg_err := fun '(s, g) =>
  on_ebuffer aeg_backend_not_ready name (fun b => coded (eb_gm2aie_nb true (g_cm g) port_name b)) (s, g).

(** [src/aeg_aiebaremetal.cc:730-737] [AIEGraphSim::aie2gm_nb] the simulator build *)
Definition sim_graph_eb_aie2gm_nb (name port_name : string) : op aeg_err := fun '(s, g) =>
  on_ebuffer aeg_backend_not_ready name (fun b => coded (eb_aie2gm_nb true (g_cm g) port_name b)) (s, g).

(** [src/aeg_aiebaremetal.cc:748-755] [AIEGraphSim::setupPingPongBuffers] the simulator build *)
Definition sim_graph_setupPingPongBuffers (name : string) (ptr1 ptr2 : Z) (sync_cache : bool) : op aeg_err :=
  fun '(s, g) =>
  on_ebuffer aeg_backend_not_ready name
    (fun b => coded (setupPingPongBuffers true (g_cm g) ptr1 ptr2 sync_cache b)) (s, g).

(** [src/aeg_aiebaremetal.cc:907-986] [AIEGraphSim::BacktrackErrors] the simulator build
    Neither driver call is exported there: no error is ever collected.  The answer [Some []] is
    the [data()] of the empty vector. *)
Definition sim_graph_BacktrackErrors : op (option (list Z)) := fun '(s, g) =>
  let s := set_cache [] s in
  if dev_DevGen (Dev s) =? XAIE_DEV_GEN_AIE2PS then ret (Some (backtrack_payload_cache s), (s, g))
  else if (s32 (dev_NumCols (Dev s)) <=? 0) || (s32 (dev_NumCols (Dev s)) <=? s32 (dev_StartCol (Dev s)))
  then ret (None, (s, g))
  else call_handler s ;;; ret (Some (backtrack_payload_cache s), (s, g)).
End Sim.

(** * The public class *)
Section Api.
Context {P R : Type} `{rt : AieRt} {AC : AieConsts} {HO : HashOrder} {Prof : Profiling P R} {SE : SimEnv}.
Context (blob_at : Z -> list Z).
Abbreviation sys := (system P R).
Abbreviation sop A := (sys -> M (A * sys)).

(** [src/aeg_aiebaremetal.cc:1170-1180] [AIEGraph::AIEGraph] the simulator build, where
    [abr_init_isr] does nothing *)
Definition sim_api_new (cp : ConfigureParser) (GraphName : string) : sop AIEGraph := fun sy =>
  let* (s, g) := sim_graph_new cp GraphName (glob sy) in
  match graph_sim_list sy with
  | None => ret (mkApi (Some O) false, mkSys (Some [s]) g (init_isr sy))
  | Some l => ret (mkApi (Some (length l)) false, mkSys (Some (l ++ [s])) g (init_isr sy))
  end.

(** [src/aeg_aiebaremetal.cc:1840-1878] [AIEGraph::load_cdo] the simulator build *)
Definition sim_api_load_cdo (addr len : Z) (a : AIEGraph) : sop aeg_err := fun sy =>
  if addr =? 0 then ret (aeg_backend_not_ready, sy)
  else if len =? 0 then ret (aeg_invalid_length, sy)
  else match api_graph a with
  | None => ret (aeg_backend_not_ready, sy)
  | Some i =>
      match sims sy !! i with
      | None => undefined
      | Some s =>
          if negb (dev_IsReady (Dev s) =? XAIE_COMPONENT_IS_READY) then ret (aeg_backend_not_ready, sy)
          else
            e <-- cdo_load true (Some (blob_at addr)) len (Some (dev_BaseAddr (Dev s))) (getaiebase s) ;;
            ret (e, sy)
      end
  end.

(** [src/aeg_aiebaremetal.cc:1282-1300] [AIEGraph::init] the loop over the blobs *)
Fixpoint sim_api_load_blobs (a : AIEGraph) (blobs : list cdo_blob) (count : nat) {struct count}
  : sop aeg_err := fun sy =>
  match count with
  | O => ret (aeg_ok, sy)
  | S count =>
      match blobs with
      | [] => undefined
      | b :: blobs =>
          if blob_data b =? 0 then ret (aeg_null_argument, sy)
          else if blob_len b =? 0 then ret (aeg_invalid_length, sy)
          else
            let* (e, sy) := sim_api_load_cdo (blob_data b) (blob_len b) a sy in
            if negb (aeg_is_ok e) then ret (e, sy) else sim_api_load_blobs a blobs count sy
      end
  end.

(** [src/aeg_aiebaremetal.cc:1269-1308] [AIEGraph::init] the simulator build *)
Definition sim_api_init (blobs : option (list cdo_blob)) (count : nat) (a : AIEGraph)
  : sys -> M (aeg_err * (AIEGraph * sys)) := fun sy =>
  if bool_decide (api_graph a = None) then ret (aeg_backend_not_ready, (a, sy))
  else if bool_decide (blobs = None) && negb (count =? 0)%nat then ret (aeg_null_argument, (a, sy))
  else
    let* (e, sy) := sim_api_load_blobs a (default [] blobs) count sy in
    if negb (aeg_is_ok e) then ret (e, (a, sy))
    else
      let* (status, sy) := on_graph a sim_graph_init sy in
      if negb (aeg_is_ok status) then ret (status, (a, sy))
      else ret (aeg_ok, (mkApi (api_graph a) true, sy)).

(** [src/include/aeg_baremetal_api.h:105-190] [AIEGraph] its public methods in the simulator build:
    the checks are those of AieApi.v. *)
Definition sim_api_call (fuel : nat) (r : api_req) (a : AIEGraph) : sys -> M (api_res r * (AIEGraph * sys)) :=
  match r with
  | A_selftestexit => const_method (checked aeg_invalid_state (forward sim_graph_selftestexit)) a
  | A_init blobs count => sim_api_init blobs count a
  | A_load_cdo addr len => const_method (sim_api_load_cdo addr len) a
  | A_run num => const_method (checked aeg_invalid_state
      (reject_if ((num =? 0) || (num <? -1)) aeg_invalid_length (forward (sim_graph_run fuel num)))) a
  | A_aie2gm_nb n d l => const_method (gmio_checked n d l (forward (sim_graph_aie2gm_nb fuel (cstr n) d l))) a
  | A_aie2gm n d l => const_method (gmio_checked n d l (forward (sim_graph_aie2gm fuel (cstr n) d l))) a
  | A_gm2aie n d l => const_method (gmio_checked n d l (forward (sim_graph_gm2aie fuel (cstr n) d l))) a
  | A_gmio_wait n b => const_method (checked aeg_invalid_state
      (reject_if (is_empty n) aeg_invalid_name (forward (sim_graph_gmio_wait fuel n b)))) a
  | A_BacktrackErrors => const_method (checked None (forward sim_graph_BacktrackErrors)) a
  | A_eb_wait n p => const_method (eb_checked n p (forward (sim_graph_eb_wait fuel (cstr n) p))) a
  | A_eb_gm2aie_nb n p => const_method (eb_checked n p (forward (sim_graph_eb_gm2aie_nb (cstr n) p))) a
  | A_eb_aie2gm_nb n p => const_method (eb_checked n p (forward (sim_graph_eb_aie2gm_nb (cstr n) p))) a
  | A_setupPingPongBuffers n p1 p2 b => const_method (checked aeg_invalid_state
      (reject_if (negb (is_valid_cstr n)) aeg_invalid_name
        (reject_if ((p1 =? 0) || (p2 =? 0)) aeg_null_argument
          (forward (sim_graph_setupPingPongBuffers (cstr n) p1 p2 b))))) a
  | r => api_call blob_at fuel r a
  end.
End Api.

(** * The exported backend *)

(** The objects of the library whose address the interface hands out: a graph, its device
    instance, and the payloads in its cache. *)
Inductive host_obj := obj_graph (i : nat) | obj_dev (i : nat) | obj_payloads (i : nat) (l : list Z).

Section Impl.
Context {P R : Type} `{rt : AieRt} {AC : AieConsts} {HO : HashOrder} {Prof : Profiling P R} {SE : SimEnv}.
Context (blob_at mem_at : Z -> list Z) (host_addr : host_obj -> Z) (fuel : nat).
Abbreviation sys := (system P R).

(** The answer to a request without a graph, and the one given for a call that never returns. *)
Definition null_answer (r : breq) : bres r :=
  match r with
  | B_malloc _ | B_dumpcorelog _ _ | B_getaiedevinst | B_BacktrackErrors | B_getGraphSimImpl => 0
  | B_start_profiling _ _ _ | B_start_profiling2 _ _ _ _ | B_read_profiling _ => -1
  | B_gdbpoint => tt
  | _ => aeg_backend_not_ready
  end.

(** The address of the payloads a graph answers with. *)
Definition payload_ptr (a : AIEGraph) (l : option (list Z)) : Z :=
  match l, api_graph a with Some l, Some i => host_addr (obj_payloads i l) | _, _ => 0 end.

(** [graph->m(...)] with its result turned into the one of the interface. *)
Definition call_as {B} (r : api_req) (f : api_res r -> B) (a : AIEGraph) (sy : sys)
  : M (B * (option AIEGraph * sys)) :=
  let* (x, (a, sy)) := sim_api_call blob_at fuel r a sy in ret (f x, (Some a, sy)).

(** [src/aeg_aiebaremetal.cc:2175-2569] [BaremetalGraphSimBaseImpl] its methods, with a graph
    The bytes [update] reads are in the application's memory; those [read] stores are not kept. *)
Definition impl_method (r : breq) (a : AIEGraph) (sy : sys) : M (bres r * (option AIEGraph * sys)) :=
  match r with
  | B_selftestexit => call_as A_selftestexit id a sy
  | B_clock_enable => call_as A_clock_enable id a sy
  | B_clock_disable => call_as A_clock_disable id a sy
  | B_error_handling_cb_init cb priv => call_as (A_error_handling_cb_init cb priv) id a sy
  | B_init => call_as (A_init None 0) id a sy
  | B_load_cdo addr len => call_as (A_load_cdo addr len) id a sy
  | B_init_blobs blobs count => call_as (A_init blobs count) id a sy
  | B_run num => call_as (A_run num) id a sy
  | B_gm2aie_nb n d l => call_as (A_gm2aie_nb (Some n) d l) id a sy
  | B_aie2gm_nb n d l => call_as (A_aie2gm_nb (Some n) d l) id a sy
  | B_gm2aie n d l => call_as (A_gm2aie (Some n) d l) id a sy
  | B_aie2gm n d l => call_as (A_aie2gm (Some n) d l) id a sy
  | B_wait => call_as A_wait id a sy
  | B_setAddress n p => call_as (A_setAddress (Some n) p) id a sy
  | B_eb_wait n p => call_as (A_eb_wait (Some n) p) id a sy
  | B_eb_gm2aie_nb n p => call_as (A_eb_gm2aie_nb (Some n) p) id a sy
  | B_eb_aie2gm_nb n p => call_as (A_eb_aie2gm_nb (Some n) p) id a sy
  | B_setupPingPongBuffers n p1 p2 b => call_as (A_setupPingPongBuffers (Some n) p1 p2 b) id a sy
  | B_end => call_as A_end id a sy
  | B_gmio_wait n b => call_as (A_gmio_wait n b) id a sy
  | B_malloc len => call_as (A_malloc (u32 len)) id a sy
  | B_free addr => call_as (A_free addr) id a sy
  | B_update n d l =>
      call_as (A_update n (if d =? 0 then None else Some (mem_at d)) l) id a sy
  | B_read n d l => call_as (A_read n d l) fst a sy
  | B_dumpcorelog row col => call_as (A_dumpcorelog row col) id a sy
  | B_getaiedevinst =>
      ret (match api_getaiedevinst a with Some i => host_addr (obj_dev i) | None => 0 end, (Some a, sy))
  | B_BacktrackErrors => call_as A_BacktrackErrors (payload_ptr a) a sy
  | B_gdbpoint => ret (tt, (Some a, sy))
  | B_start_profiling n o v => call_as (A_start_profiling n o v) id a sy
  | B_start_profiling2 n1 n2 o v => call_as (A_start_profiling2 n1 n2 o v) id a sy
  | B_read_profiling h => call_as (A_read_profiling h) id a sy
  | B_stop_profiling h => call_as (A_stop_profiling h) id a sy
  | B_getGraphSimImpl =>
      ret (match getGraphImpl a with Some i => host_addr (obj_graph i) | None => 0 end, (Some a, sy))
  end.

(** [src/aeg_aiebaremetal.cc:2163-2577] [BaremetalGraphSimBaseImpl]
    Every method first tests [graph] for null. *)
Definition impl_call (r : breq) (o : option AIEGraph) (sy : sys) : M (bres r * (option AIEGraph * sys)) :=
  match o with
  | None => ret (null_answer r, (None, sy))
  | Some a => impl_method r a sy
  end.

(** [src/aeg_aiebaremetal.cc:2168-2170] [BaremetalGraphSimBaseImpl::BaremetalGraphSimBaseImpl] *)
Definition impl_new (cp : ConfigureParser) (gname : string) (sy : sys) : M (option AIEGraph * sys) :=
  let* (a, sy) := sim_api_new cp gname sy in ret (Some a, sy).

(** The state of the library: the history of driver calls, the member [graph] and the program's
    graphs; [None] once a call did not return. *)
Abbreviation backend := (option (hist * (option AIEGraph * sys))).

#[export] Instance impl_backend : BaremetalGraphSimBase backend := {
  invoke r st :=
    match st with
    | None => (null_answer r, None)
    | Some (h, (o, sy)) =>
        match impl_call r o sy h with
        | Some ((x, st), h) => (x, Some (h, st))
        | None => (null_answer r, None)
        end
    end
}.

(** [src/aeg_aiebaremetal.cc:2586-2588] [createBaremetalGraphInstance] *)
Definition createBaremetalGraphInstance (cp : ConfigureParser) (gname : string) (sy : sys) (h : hist)
  : lib_outcome backend :=
  created (Some (match impl_new cp gname sy h with
                 | Some (st, h) => Some (h, st)
                 | None => None
                 end)).

(** * The wrapper over this backend *)

(** The wrapper holds a live graph, and both know whether [init] has succeeded. *)
Record live (b : BaremetalGraphSim backend) (a : AIEGraph) (sy : sys) (h : hist) : Prop := {
  live_graph : bgraph b = Some (Some (h, (Some a, sy)));
  live_flag : sim_isInitialized b = isInitialized a
}.

(** What the wrapper changes of an answer of the graph: the code before [init], and the codes it
    drops. *)
Definition wrapped (r : breq) (initialised : bool) (x : bres r) : bres r :=
  (if is_guarded r && negb initialised then refusal r
   else match r return bres r -> bres r with
        | B_eb_wait _ _ | B_eb_gm2aie_nb _ _ | B_eb_aie2gm_nb _ _ | B_setupPingPongBuffers _ _ _ _ =>
            fun _ => aeg_ok
        | _ => id
        end x).

(** The graph refuses the guarded requests before [init] by itself. *)
Lemma impl_refuses r a sy h :
  is_guarded r = true -> isInitialized a = false ->
  exists x, impl_method r a sy h = Some ((x, (Some a, sy)), h).
Proof.
  intros Hg Hi; destruct r; try discriminate Hg; simpl;
    unfold call_as, sim_api_call, api_call, const_method, api_clock_enable, api_clock_disable, api_error_handling_cb_init,
      api_gm2aie_nb, gmio_checked, eb_checked, api_wait, api_setAddress, api_end, api_update, api_read, api_dumpcorelog,
      api_start_profiling, api_start_profiling2, api_read_profiling, api_stop_profiling;
    unfold checked, api_check_initialized_impl, bind, ret; rewrite ?Hi; simpl; eexists; reflexivity.
Qed.

(** A method of the graph other than [init] leaves the object alone; [init] only records its own
    success. *)
Lemma sim_api_call_flag r a sy h x a' sy' h' :
  sim_api_call blob_at fuel r a sy h = Some ((x, (a', sy')), h') ->
  match r return api_res r -> Prop with
  | A_init _ _ => fun e => isInitialized a' = aeg_is_ok e || isInitialized a
  | _ => fun _ => a' = a
  end x.
Proof.
  destruct r; cbn [sim_api_call api_call];
    try (intros ([y sy1] & h1 & _ & H)%bind_inv; unfold ret in H; by simplify_eq).
  unfold sim_api_init; intros H.
  destruct (bool_decide _); [unfold ret in H; by simplify_eq|].
  destruct (_ && _); [unfold ret in H; by simplify_eq|].
  apply bind_inv in H as ([e1 sy1] & h1 & _ & H); destruct (aeg_is_ok e1) eqn:E1; simpl in H.
  2: { unfold ret in H; simplify_eq; by rewrite E1. }
  apply bind_inv in H as ([e2 sy2] & h2 & _ & H); destruct (aeg_is_ok e2) eqn:E2; simpl in H;
    unfold ret in H; simplify_eq; [done|by rewrite E2].
Qed.

Lemma impl_method_flag r a sy h x o sy' h' :
  impl_method r a sy h = Some ((x, (o, sy')), h') ->
  exists a', o = Some a' /\
    match r return bres r -> Prop with
    | B_init | B_init_blobs _ _ => fun e => isInitialized a' = aeg_is_ok e || isInitialized a
    | _ => fun _ => a' = a
    end x.
Proof.
  destruct r; cbn [impl_method]; unfold call_as;
    try (unfold ret; intros H; simplify_eq; exists a; done);
    intros ([y [a1 sy1]] & h1 & E & H)%bind_inv; unfold ret in H; simplify_eq;
    apply sim_api_call_flag in E; simpl in E; exists a1; split; done.
Qed.

Lemma invoke_live r a sy h x o sy' h' :
  impl_method r a sy h = Some ((x, (o, sy')), h') ->
  invoke r (Some (h, (Some a, sy)) : backend) = (x, Some (h', (o, sy'))).
Proof. intros H; simpl; by rewrite H. Qed.

Lemma sim_init_live blobs count b a sy h x a' sy' h' :
  live b a sy h -> impl_method (B_init_blobs blobs count) a sy h = Some ((x, (Some a', sy')), h') ->
  exists b', sim_init no_env blobs count b = (x, b') /\ live b' a' sy' h'.
Proof.
  intros [Hb Hf] E; destruct (impl_method_flag _ _ _ _ _ _ _ _ E) as (a1 & [= <-] & Ha').
  unfold sim_init; rewrite Hb, Hb, (invoke_live _ _ _ _ _ _ _ _ E).
  cbn in Ha'; unfold aeg_is_ok in *; case_bool_decide as Ex; cbn [negb].
  - rewrite Ex in *; eexists; split; [done|]; constructor; cbn; [done|]; by rewrite Ha'.
  - eexists; split; [done|]; constructor; cbn; [done|]; rewrite Ha', Hf; cbn; by destruct (isInitialized a).
Qed.

(** A request the wrapper hands on. *)
Lemma via_live {A} (d : A) k b a sy h x s' :
  live b a sy h -> k (Some (h, (Some a, sy))) = (x, s') -> via_backend d k b = (x, set_bgraph (Some s') b).
Proof. intros [Hb _] Hk; unfold via_backend; by rewrite Hb, Hk. Qed.

Lemma guarded_live {A} (u d : A) k b a sy h x s' :
  live b a sy h -> isInitialized a = true -> k (Some (h, (Some a, sy))) = (x, s') ->
  guarded u d k b = (x, set_bgraph (Some s') b).
Proof.
  intros Hl Hi Hk; unfold guarded, check_initialized_impl; rewrite (live_flag _ _ _ _ Hl), Hi; simpl.
  by eapply via_live.
Qed.

(** One request: the wrapper does what the graph does. *)
Lemma wrapper_step r b a sy h x o sy' h' :
  live b a sy h -> impl_method r a sy h = Some ((x, (o, sy')), h') ->
  exists a' b', o = Some a' /\ sim_dispatch r b = (wrapped r (isInitialized a) x, b') /\ live b' a' sy' h'.
Proof.
  intros Hl E; destruct (impl_method_flag _ _ _ _ _ _ _ _ E) as (a' & -> & Ha'); exists a'.
  destruct (is_init r) eqn:Hr.
  { destruct r; try discriminate Hr.
    - destruct (sim_init_live None 0 b a sy h x a' sy' h' Hl E) as (b' & ? & ?); exists b'; done.
    - destruct (sim_init_live _ _ b a sy h x a' sy' h' Hl E) as (b' & ? & ?); exists b'; done. }
  assert (Ha : a' = a) by (destruct r; try discriminate Hr; exact Ha').
  clear Ha'; subst a'.
  destruct (isInitialized a) eqn:Hi.
  - exists (set_bgraph (Some (Some (h', (Some a, sy')))) b); split; [done|]; split.
    2: { constructor; cbn; [done|]; by rewrite (live_flag _ _ _ _ Hl). }
    destruct r; try discriminate Hr; unfold wrapped; cbn [is_guarded andb negb];
      first [ refine (guarded_live _ _ _ _ _ _ _ _ _ Hl Hi _); exact (invoke_live _ _ _ _ _ _ _ _ E)
            | refine (via_live _ _ _ _ _ _ _ _ Hl _); exact (invoke_live _ _ _ _ _ _ _ _ E)
            | refine (guarded_live _ _ _ _ _ _ _ _ _ Hl Hi _);
              rewrite (invoke_live _ _ _ _ _ _ _ _ E); reflexivity ].
  - destruct (is_guarded r) eqn:Hg.
    + destruct (impl_refuses r a sy h Hg Hi) as (y & E'); rewrite E' in E; simplify_eq.
      exists b; split; [done|]; split; [|done]; unfold wrapped; rewrite Hg; cbn [negb andb].
      destruct r; try discriminate Hg; cbn [sim_dispatch];
        unfold sim_selftestexit, sim_clock_enable, sim_clock_disable, sim_error_handling_cb_init,
        sim_run, sim_gm2aie_nb, sim_aie2gm_nb, sim_gm2aie, sim_aie2gm, sim_wait, sim_setAddress,
        sim_eb_wait, sim_eb_gm2aie_nb, sim_eb_aie2gm_nb, sim_setupPingPongBuffers, sim_end,
        sim_gmio_wait, sim_update, sim_read, sim_dumpcorelog, sim_getaiedevinst,
        sim_BacktrackErrors, sim_gdbpoint, sim_start_profiling, sim_start_profiling2,
        sim_read_profiling, sim_stop_profiling, guarded_ok, guarded, check_initialized_impl;
        rewrite (live_flag _ _ _ _ Hl), Hi; reflexivity.
    + exists (set_bgraph (Some (Some (h', (Some a, sy')))) b); split; [done|]; split.
      2: { constructor; cbn; [done|]; rewrite (live_flag _ _ _ _ Hl); done. }
      unfold wrapped; rewrite Hg; cbn [andb].
      destruct r; try discriminate Hg; try discriminate Hr;
        (refine (via_live _ _ _ _ _ _ _ _ Hl _); exact (invoke_live _ _ _ _ _ _ _ _ E)).
Qed.

(** A sequence of requests, made of the graph itself and through the wrapper; the answers are
    those the application sees through the wrapper. *)
Fixpoint graph_session (rs : list breq) (a : AIEGraph) (sy : sys) : M (list (sigT bres) * (AIEGraph * sys)) :=
  match rs with
  | [] => ret ([], (a, sy))
  | r :: rs =>
      let* (x, (o, sy)) := impl_method r a sy in
      match o with
      | None => undefined
      | Some a' =>
          let* (xs, st) := graph_session rs a' sy in
          ret (existT r (wrapped r (isInitialized a) x) :: xs, st)
      end
  end.
Fixpoint wrapper_session (rs : list breq) (b : BaremetalGraphSim backend)
  : list (sigT bres) * BaremetalGraphSim backend :=
  match rs with
  | [] => ([], b)
  | r :: rs =>
      let '(x, b) := sim_dispatch r b in
      let '(xs, b) := wrapper_session rs b in (existT r x :: xs, b)
  end.

Lemma session_live rs : forall b a sy h xs a' sy' h',
  live b a sy h -> graph_session rs a sy h = Some ((xs, (a', sy')), h') ->
  exists b', wrapper_session rs b = (xs, b') /\ live b' a' sy' h'.
Proof.
  induction rs as [|r rs IH]; intros b a sy h xs a' sy' h' Hl; simpl.
  { unfold ret; intros H; simplify_eq; eexists; done. }
  intros ([x [o sy1]] & h1 & E & H)%bind_inv.
  destruct (wrapper_step _ _ _ _ _ _ _ _ _ Hl E) as (a1 & b1 & -> & Ed & Hl1).
  apply bind_inv in H as ([xs1 st] & h2 & Es & H); unfold ret in H; simplify_eq.
  destruct (IH _ _ _ _ _ _ _ _ Hl1 Es) as (b2 & Ew & Hl2); exists b2; by rewrite Ed, Ew.
Qed.

(** C20: an application that talks to the simulator through the wrapper [BaremetalGraphSim] gets, from the
    loading of the library on and for every sequence of requests, exactly what the graph object
    inside the library answers, and the library makes exactly the same driver calls and ends in
    the same state as if its graph were called directly.  The wrapper changes only the error code
    of a request before [init] and drops the codes of four external-buffer operations; its own
    flag and the graph's always agree, so neither layer lets through what the other refuses. *)
Theorem wrapper_session_transparent cp gname (sy : sys) h a sy1 h1 rs xs a' sy' h' :
  sim_api_new cp gname sy h = Some ((a, sy1), h1) ->
  graph_session rs a sy1 h1 = Some ((xs, (a', sy')), h') ->
  exists b', wrapper_session rs (sim_new (createBaremetalGraphInstance cp gname sy h)) = (xs, b') /\
    bgraph b' = Some (Some (h', (Some a', sy'))) /\ sim_isInitialized b' = isInitialized a'.
Proof.
  intros Hn Hs.
  assert (Hl : live (sim_new (createBaremetalGraphInstance cp gname sy h)) a sy1 h1).
  { unfold createBaremetalGraphInstance, impl_new; rewrite (bind_Some _ _ _ _ _ Hn); simpl.
    constructor; [done|]; simpl.
    unfold sim_api_new in Hn; apply bind_inv in Hn as ([s g] & h0 & _ & H).
    destruct (graph_sim_list sy); unfold ret in H; simplify_eq; done. }
  destruct (session_live _ _ _ _ _ _ _ _ _ Hl Hs) as (b' & Hw & [Hb Hf]); by exists b'.
Qed.
End Impl.

(** * What the simulator build does differently *)
Section Facts.
Context {P R : Type} `{rt : AieRt} {AC : AieConsts} {HO : HashOrder} {Prof : Profiling P R} {SE : SimEnv}.
Context (blob_at : Z -> list Z).
Implicit Types sy : system P R.

Definition graph_init_msg (name : string) : call :=
  ipc_graph_init_ipc name (u32 (Z.of_nat (String.length name))).

(** [init] of a graph: either the server is not told and nothing is done, or it is told first;
    if it refuses nothing else happens, and if it accepts only GMIO channels are set up. *)
Lemma sim_graph_init_spec (s : AIEGraphSim R) (g : globals P) h :
  exists e c' cs, sim_graph_init (s, g) h = Some ((e, (set_cfg c' s, g)), after h cs) /\
    ((dlsym "aeg_ipc_graph_init_ipc" = false /\ cs = [] /\ e = aeg_backend_not_ready /\ c' = cfg s) \/
     exists cs', cs = graph_init_msg (graphName s) :: cs' /\ Forall is_gmio_setup cs' /\
       (rc (drv h (graph_init_msg (graphName s))) <> 0 -> cs' = [] /\ e = aeg_aie_driver_error /\ c' = cfg s) /\
       (e = aeg_ok -> rc (drv h (graph_init_msg (graphName s))) = 0 /\ configured c' /\
          gmio_ready (cfg s) cs' c')).
Proof.
  assert (Hid : set_cfg (cfg s) s = s) by (by destruct s).
  unfold sim_graph_init; destruct (dlsym _) eqn:Hd; cbn [negb].
  2: { exists aeg_backend_not_ready, (cfg s), []; rewrite after_nil, Hid; split; [done|by left]. }
  fold (graph_init_msg (graphName s)); unfold bind at 1, exec.
  destruct (Z.eqb_spec (rc (drv h (graph_init_msg (graphName s)))) 0) as [E|E]; cbn [negb].
  - destruct (graph_init_spec s g (after h [graph_init_msg (graphName s)]))
      as (e & c' & cs & Ei & Hg & _ & _ & Hok).
    exists e, c', (graph_init_msg (graphName s) :: cs); split.
    { change (h ++ [_]) with (after h [graph_init_msg (graphName s)]); rewrite Ei, after_app; done. }
    right; exists cs; split_and!; try done; intros ->; destruct (Hok eq_refl); done.
  - exists aeg_aie_driver_error, (cfg s), [graph_init_msg (graphName s)]; rewrite Hid; split; [done|].
    right; exists []; split_and!; done.
Qed.

(** A blob that is not rejected for its address or length is accepted without a call. *)
Lemma sim_load_cdo_nothing addr len a i s sy h :
  addr <> 0 -> len <> 0 -> api_graph a = Some i -> sims sy !! i = Some s ->
  dev_IsReady (Dev s) = XAIE_COMPONENT_IS_READY ->
  sim_api_load_cdo blob_at addr len a sy h = Some ((aeg_ok, sy), h).
Proof.
  intros Ha Hl Hi Hs Hr; unfold sim_api_load_cdo.
  rewrite (proj2 (Z.eqb_neq _ _) Ha), (proj2 (Z.eqb_neq _ _) Hl), Hi, Hs, Hr, Z.eqb_refl; done.
Qed.

Lemma sim_load_blobs_nothing a i s sy h blobs : forall n,
  (n <= length blobs)%nat ->
  Forall (fun b => blob_data b <> 0 /\ blob_len b <> 0) blobs ->
  api_graph a = Some i -> sims sy !! i = Some s ->
  dev_IsReady (Dev s) = XAIE_COMPONENT_IS_READY ->
  sim_api_load_blobs blob_at a blobs n sy h = Some ((aeg_ok, sy), h).
Proof.
  induction blobs as [|b blobs IH]; intros [|n] Hn Hf Hi Hs Hr; simpl in *; try done; [lia|].
  inversion Hf as [|? ? [Hd Hl] Hf']; subst.
  rewrite (proj2 (Z.eqb_neq _ _) Hd), (proj2 (Z.eqb_neq _ _) Hl).
  rewrite (bind_Some _ _ _ _ _ (sim_load_cdo_nothing _ _ _ _ _ _ _ Hd Hl Hi Hs Hr)); simpl.
  apply IH; try done; lia.
Qed.

(** in the simulator, CDO blobs have no effect: on a graph whose device is up, [init] with any
    blobs that have an address and a length, whatever they contain (not even a CDO header is
    needed), does exactly what [init] without blobs does, call for call.  Its first and, if the
    server refuses, only call announces the graph to the server; nothing is configured before. *)
Theorem sim_init_ignores_cdos a i s blobs n sy h :
  api_graph a = Some i -> sims sy !! i = Some s -> dev_IsReady (Dev s) = XAIE_COMPONENT_IS_READY ->
  (n <= length blobs)%nat -> Forall (fun b => blob_data b <> 0 /\ blob_len b <> 0) blobs ->
  dlsym "aeg_ipc_graph_init_ipc" = true ->
  sim_api_init blob_at (Some blobs) n a sy h = sim_api_init blob_at None 0 a sy h /\
  exists e a' sy' cs, sim_api_init blob_at (Some blobs) n a sy h =
      Some ((e, (a', sy')), after h (graph_init_msg (graphName s) :: cs)) /\
    Forall is_gmio_setup cs /\
    (rc (drv h (graph_init_msg (graphName s))) <> 0 -> e = aeg_aie_driver_error /\ cs = [] /\ a' = a) /\
    (e = aeg_ok -> isInitialized a' = true /\
       exists s', sims sy' !! i = Some s' /\ configured (cfg s') /\ gmio_ready (cfg s) cs (cfg s')).
Proof.
  intros Hi Hs Hr Hn Hf Hd.
  assert (E0 : forall h, sim_api_init blob_at (Some blobs) n a sy h = sim_api_init blob_at None 0 a sy h).
  { intros h0; unfold sim_api_init; rewrite Hi; simpl.
    by rewrite (bind_Some _ _ _ _ _ (sim_load_blobs_nothing a i s sy h0 blobs n Hn Hf Hi Hs Hr)). }
  split; [apply E0|]; rewrite E0; unfold sim_api_init; rewrite Hi; simpl; unfold bind at 1, ret at 1; simpl.
  destruct (sim_graph_init_spec s (glob sy) h) as (e & c' & cs & Ei & Hc).
  assert (Eg : on_graph a sim_graph_init sy h = Some ((e, set_sim i (set_cfg c' s) (glob sy) sy), after h cs))
    by (unfold on_graph, on_sim; rewrite Hi, Hs, (bind_Some _ _ _ _ _ Ei); done).
  rewrite (bind_Some _ _ _ _ _ Eg); cbv beta iota.
  destruct Hc as [(Hd' & _)|(cs' & -> & Hg & Hbad & Hok)]; [congruence|].
  unfold aeg_is_ok; case_bool_decide as He; simpl.
  - subst e; eexists aeg_ok, _, _, cs'; split_and!; try done.
    + intros Hx; by destruct (Hbad Hx) as (_ & ? & _).
    + intros _; split; [done|]; destruct (Hok eq_refl) as (_ & ? & ?).
      eexists; split; [by eapply set_sim_lookup|done].
  - eexists e, a, _, cs'; split_and!; try done.
    intros Hx; destruct (Hbad Hx) as (? & ? & _); done.
Qed.

(** ** A graph without global memory *)
Context (mem_at : Z -> list Z) (host_addr : host_obj -> Z) (fuel : nat).

(** The graph object [a] whose constructor gave up. *)
Record dead (name : string) (a : AIEGraph) (sy : system P R) : Prop := {
  dead_uninit : isInitialized a = false;
  dead_sim : exists i s, api_graph a = Some i /\ sims sy !! i = Some s /\ xaiemem s = None /\
    Dev s = dev_zero /\ graphName s = name
}.

(** A request whose array of blobs holds as many as it says. *)
Definition readable (r : breq) : Prop :=
  match r with B_init_blobs (Some l) n => (n <= length l)%nat | _ => True end.

Lemma dead_graph_init s (g : globals P) h : xaiemem s = None ->
  graph_init (s, g) h = Some ((aeg_backend_not_ready, (s : AIEGraphSim R, g)), h).
Proof. intros Hx; unfold graph_init; rewrite Hx; by destruct s. Qed.

Lemma dead_init name a sy h blobs n :
  dead name a sy -> XAIE_COMPONENT_IS_READY <> 0 -> readable (B_init_blobs blobs n) ->
  exists e cs, sim_api_init blob_at blobs n a sy h = Some ((e, (a, sy)), after h cs) /\ e <> aeg_ok /\
    Forall (eq (graph_init_msg name)) cs.
Proof.
  intros [Hu (i & s & Hi & Hs & Hx & Hd & Hn)] Hr Hl; unfold sim_api_init; rewrite Hi; cbn [bool_decide decide].
  rewrite bool_decide_eq_false_2 by done.
  destruct (bool_decide (blobs = None) && negb (n =? 0)%nat) eqn:En.
  { exists aeg_null_argument, []; rewrite after_nil; split_and!; try done. }
  destruct n as [|n].
  - unfold bind at 1; simpl; unfold ret at 1, on_graph, on_sim; rewrite Hi, Hs.
    assert (E : exists e cs, sim_graph_init (s, glob sy) h = Some ((e, (s, glob sy)), after h cs) /\
                  e <> aeg_ok /\ Forall (eq (graph_init_msg name)) cs).
    { unfold sim_graph_init; destruct (dlsym _); cbn [negb].
      2: { exists aeg_backend_not_ready, []; rewrite after_nil; split_and!; done. }
      rewrite Hn; fold (graph_init_msg name); unfold bind, exec; destruct (rc _ =? 0); cbn [negb].
      - rewrite dead_graph_init by done; exists aeg_backend_not_ready, [graph_init_msg name].
        split_and!; try done; by constructor.
      - exists aeg_aie_driver_error, [graph_init_msg name]; split_and!; try done; by constructor. }
    destruct E as (e & cs & E & He & Hc); exists e, cs; split; [|done].
    unfold bind; rewrite E; simpl; rewrite set_sim_same by done.
    unfold aeg_is_ok; rewrite bool_decide_eq_false_2 by done; done.
  - destruct blobs as [[|b blobs]|]; simpl in Hl; [lia| |done].
    assert (E : exists e, sim_api_load_blobs blob_at a (b :: blobs) (S n) sy h = Some ((e, sy), h) /\ e <> aeg_ok).
    { simpl; destruct (_ =? 0) eqn:E1; [eexists; done|]; destruct (blob_len b =? 0) eqn:E2; [eexists; done|].
      exists aeg_backend_not_ready; split; [|done]; unfold bind, sim_api_load_cdo.
      by rewrite E1, E2, Hi, Hs, Hd, (proj2 (Z.eqb_neq _ _)) by done. }
    destruct E as (e & E & He); exists e, []; rewrite after_nil; split_and!; try done.
    change (default [] (Some (b :: blobs))) with (b :: blobs); rewrite (bind_Some _ _ _ _ _ E); cbv beta iota.
    unfold aeg_is_ok; by rewrite bool_decide_eq_false_2.
Qed.

Lemma dead_step name a sy h r :
  dead name a sy -> XAIE_COMPONENT_IS_READY <> 0 -> readable r ->
  exists x cs, impl_method blob_at mem_at host_addr fuel r a sy h = Some ((x, (Some a, sy)), after h cs) /\
    Forall (eq (graph_init_msg name)) cs.
Proof.
  intros Hdead Hr Hl; pose proof Hdead as [Hu (i & s & Hi & Hs & Hx & Hd & Hn)].
  destruct (is_guarded r) eqn:Hg.
  { destruct (impl_refuses blob_at mem_at host_addr fuel r a sy h Hg Hu) as (x & E).
    exists x, []; rewrite after_nil; done. }
  destruct r; try discriminate Hg; cbn [impl_method]; unfold call_as, sim_api_call, api_call, const_method.
  - destruct (dead_init name a sy h None 0 Hdead Hr I) as (e & cs & E & _ & Hc).
    exists e, cs; unfold bind; rewrite E; done.
  - exists (if addr =? 0 then aeg_backend_not_ready else if len =? 0 then aeg_invalid_length
            else aeg_backend_not_ready), []; rewrite after_nil; split; [|done].
    unfold bind, sim_api_load_cdo; destruct (addr =? 0); [done|]; destruct (len =? 0); [done|].
    by rewrite Hi, Hs, Hd, (proj2 (Z.eqb_neq _ _)) by done.
  - destruct (dead_init name a sy h blobs count Hdead Hr Hl) as (e & cs & E & _ & Hc).
    exists e, cs; unfold bind; rewrite E; done.
  - exists 0, []; rewrite after_nil; split; [|done]; unfold bind, api_malloc, reject_if.
    destruct (_ =? 0); [done|]; unfold forward, on_graph, on_sim, bind; rewrite Hi, Hs; simpl.
    rewrite Hx; simpl; by rewrite set_sim_same.
  - exists aeg_backend_not_ready, []; rewrite after_nil; split; [|done].
    unfold bind, api_free, forward, on_graph, on_sim, bind; rewrite Hi, Hs; simpl.
    rewrite Hx; simpl; by rewrite set_sim_same.
  - eexists _, []; rewrite after_nil; done.
Qed.

(** when one of the five helpers for global memory cannot be found, a graph is made without any
    driver call and stays unusable for ever: every sequence of requests returns, the graph is
    never initialised and its state never changes, and the only message that ever leaves the
    library is the announcement of the graph to the server, once per [init]. *)
Theorem sim_missing_helpers_unusable cp name sy h rs :
  gm_helpers_found = false -> XAIE_COMPONENT_IS_READY <> 0 -> Forall readable rs ->
  exists a sy' xs cs, sim_api_new cp name sy h = Some ((a, sy'), h) /\ isInitialized a = false /\
    graph_session blob_at mem_at host_addr fuel rs a sy' h = Some ((xs, (a, sy')), after h cs) /\
    Forall (eq (graph_init_msg name)) cs.
Proof.
  intros Hm Hr Hf.
  assert (Hnew : exists a sy', sim_api_new cp name sy h = Some ((a, sy'), h) /\ dead name a sy').
  { unfold sim_api_new, sim_graph_new; rewrite Hm; cbn [negb]; unfold bind, ret at 1.
    destruct (graph_sim_list sy) as [l|]; eexists _, _; (split; [done|]).
    - constructor; [done|]; eexists (length l), _; unfold sims; simpl; rewrite lookup_app_r, Nat.sub_diag by lia.
      split_and!; done.
    - constructor; [done|]; eexists 0%nat, _; split_and!; done. }
  destruct Hnew as (a & sy' & En & Hdead); exists a, sy'.
  assert (Hs : forall h, exists xs cs, graph_session blob_at mem_at host_addr fuel rs a sy' h =
      Some ((xs, (a, sy')), after h cs) /\ Forall (eq (graph_init_msg name)) cs).
  { clear En h; induction Hf as [|r rs Hr1 Hf IH]; intros h; simpl.
    { exists [], []; rewrite after_nil; done. }
    destruct (dead_step name a sy' h r Hdead Hr Hr1) as (x & cs & E & Hc).
    destruct (IH (after h cs)) as (xs & cs' & E' & Hc'); eexists _, (cs ++ cs'); split.
    - unfold bind; rewrite E, E', after_app; done.
    - by apply Forall_app. }
  destruct (Hs h) as (xs & cs & ? & ?); exists xs, cs; split_and!; try done; apply Hdead.
Qed.

(** In the simulator an error of the array is never collected: at most the handler is called,
    with no payload. *)
Lemma sim_backtrack_reports_nothing s (g : globals P) h :
  exists l cs, sim_graph_BacktrackErrors (s, g) h = Some ((l, (set_cache [] s : AIEGraphSim R, g)), after h cs) /\
    default [] l = [] /\
    (cs = [] \/ cs = [error_handler (error_handling_cb s) [] (error_handling_cb_priv s)]).
Proof.
  unfold sim_graph_BacktrackErrors; destruct (_ =? XAIE_DEV_GEN_AIE2PS).
  { eexists (Some []), []; rewrite after_nil; split_and!; auto. }
  destruct (_ || _); [eexists None, []; rewrite after_nil; split_and!; auto|].
  unfold call_handler; destruct (_ =? 0).
  - eexists (Some []), []; rewrite after_nil; split_and!; auto.
  - exists (Some []), [error_handler (error_handling_cb s) [] (error_handling_cb_priv s)].
    split_and!; [reflexivity|done|by right].
Qed.
End Facts.

(** * A concrete process *)

Definition demo_env : SimEnv := {| dlsym := fun _ => true; AEG_PS_IPC_SOCKET := Some "/tmp/ps" |}.
Definition bare_env : SimEnv := {| dlsym := fun _ => false; AEG_PS_IPC_SOCKET := None |}.
Definition demo_host_addr (o : host_obj) : Z :=
  match o with obj_graph i => 0x1000 + Z.of_nat i | obj_dev i => 0x2000 + Z.of_nat i | obj_payloads _ _ => 0x3000 end.
Definition demo_sim_sys : system Z Z := mkSys None demo_globals 0.
#[local] Existing Instance demo_aie_rt.
#[local] Existing Instance demo_consts.
#[local] Existing Instance list_order.

(** A session: a run before [init] is refused, [init] with a blob succeeds, a transfer starts. *)
Definition demo_requests : list breq :=
  [B_run 3; B_init_blobs (Some [{| blob_data := 64; blob_len := 8 |}]) 1; B_gm2aie_nb "in" 4096 16; B_wait].
Definition demo_session : option _ :=
  match sim_api_new (SE := demo_env) demo_cp "g" demo_sim_sys [] with
  | Some ((a, sy), h) =>
      graph_session (SE := demo_env) (fun _ => []) (fun _ => []) demo_host_addr 4 demo_requests a sy h
  | None => None
  end.

Lemma wrapper_session_transparent_witness :
  exists xs b', wrapper_session (SE := demo_env) (fun _ => []) (fun _ => []) demo_host_addr 4 demo_requests
      (sim_new (createBaremetalGraphInstance (SE := demo_env) demo_cp "g" demo_sim_sys [])) = (xs, b') /\
    xs = [existT (B_run 3) aeg_user_error;
          existT (B_init_blobs (Some [{| blob_data := 64; blob_len := 8 |}]) 1) aeg_ok;
          existT (B_gm2aie_nb "in" 4096 16) aeg_ok; existT B_wait aeg_ok] /\
    sim_isInitialized b' = true.
Proof.
  destruct (sim_api_new (SE := demo_env) demo_cp "g" demo_sim_sys []) as [[[a sy] h]|] eqn:En;
    [|vm_compute in En; discriminate].
  destruct demo_session as [[[xs [a' sy']] h']|] eqn:E; [|vm_compute in E; discriminate].
  pose proof E as E2; unfold demo_session in E2; rewrite En in E2.
  destruct (wrapper_session_transparent _ _ _ _ _ _ _ _ _ _ _ _ _ _ _ _ En E2) as (b' & Hw & _ & Hf).
  assert (Hx : xs = [existT (B_run 3) aeg_user_error;
          existT (B_init_blobs (Some [{| blob_data := 64; blob_len := 8 |}]) 1) aeg_ok;
          existT (B_gm2aie_nb "in" 4096 16) aeg_ok; existT B_wait aeg_ok] /\ isInitialized a' = true)
    by (vm_compute in E; injection E as <- <- _ _; split; reflexivity).
  destruct Hx as [Hx Ha]; exists xs, b'; rewrite Hf; split; [exact Hw|]; split; [exact Hx|exact Ha].
Defined.

(** A blob of arbitrary bytes is accepted. *)
Lemma sim_init_ignores_cdos_witness :
  sim_api_init (SE := demo_env) (fun _ => [7; 7]) (Some [{| blob_data := 64; blob_len := 8 |}]) 1
    (mkApi (Some 0%nat) false) demo_sys [] =
  sim_api_init (SE := demo_env) (fun _ => [7; 7]) None 0 (mkApi (Some 0%nat) false) demo_sys [].
Proof.
  refine (proj1 (sim_init_ignores_cdos (SE := demo_env) (fun _ => [7; 7]) (mkApi (Some 0%nat) false) 0
    (demo_sim 9 0) [{| blob_data := 64; blob_len := 8 |}] 1 demo_sys [] eq_refl eq_refl eq_refl _ _ eq_refl)).
  - simpl; lia.
  - repeat constructor; discriminate.
Defined.

Lemma sim_missing_helpers_unusable_witness :
  exists a sy' xs cs, sim_api_new (SE := bare_env) demo_cp "g" demo_sim_sys [] = Some ((a, sy'), []) /\
    graph_session (SE := bare_env) (fun _ => []) (fun _ => []) demo_host_addr 4 demo_requests a sy' [] =
      Some ((xs, (a, sy')), after [] cs) /\ isInitialized a = false.
Proof.
  destruct (sim_missing_helpers_unusable (SE := bare_env) (fun _ => []) (fun _ => []) demo_host_addr 4
    demo_cp "g" demo_sim_sys [] demo_requests eq_refl) as (a & sy' & xs & cs & H1 & H2 & H3 & _).
  { discriminate. }
  { repeat constructor; simpl; lia. }
  exists a, sy', xs, cs; split; [exact H1|]; split; [exact H3|exact H2].
Defined.
