(* ===== verification/Target.v ===== *)
(** * The processors the runtime is built for

    [src/aeg_aiebaremetal.cc] is one source for several targets: the application processor, the
    real-time processor (which sees the array through an alias below 4 GiB) and Zephyr (where the
    array's registers are mapped by the kernel).  The other files model the application processor;
    this one adds what differs on the others:
    - the base address the driver is given ([target_base]) and, on Zephyr, the mapping of the
      aperture, which is made once and remembered in a global;
    - the constructor and [init] of the graph on each target;
    - where the commands of a configuration blob end up on each target, which is the business of
      [Cdo.cdo_reg_off]. *)
From stdpp Require Import base list strings gmap.
From Stdlib Require Import ZArith Lia Btauto.
From S2P Require Import Prelude ApiTypes Driver GraphApi HostMem ConfigBin Configure Regs Cdo Event AieGraph.
Local Open Scope Z_scope.
Local Open Scope aeg_scope.

(** The application processor, the real-time processor with or without its memory protection unit
    driver, and Zephyr on a 64-bit or 32-bit processor with or without a memory management unit. *)
Inductive target := APU | RPU (has_mpu : bool) | ZEPHYR (aarch64 mmu : bool).

(** [src/include/aiebaremetal.h:49-49] [RPU_AIE_BASE] *)
Definition RPU_AIE_BASE : Z := 0x40000000.

Section Target.
Context {P R : Type} `{rt : AieRt} {AC : AieConsts} {HO : HashOrder} {Prof : Profiling P R}.
(** The device tree's node for the array, and the flags of the kernel's headers. *)
Context (dt_reg_addr dt_reg_size map_flags mpu_attributes : Z).

(** The mapping of the aperture: made on the first call, remembered in [g_aie_base_va].
    [src/aeg_aiebaremetal.cc:86-105] [abr_map_aie_aperture] *)
Definition abr_map_aie_aperture (mmu : bool) (g_aie_base_va : Z) : M (Z * Z) :=
  if g_aie_base_va =? 0 then
    if mmu then
      r <-- exec (k_mem_map_phys_bare dt_reg_addr dt_reg_size map_flags) ;;
      ret (u64 (out r), u64 (out r))
    else ret (u64 dt_reg_addr, u64 dt_reg_addr)
  else ret (g_aie_base_va, g_aie_base_va).

(** The real-time processor's alias, then the offset into the mapped aperture.
    [src/aeg_aiebaremetal.cc:328-341] [AIEGraphSim::AIEGraphSim] *)
Definition target_base (t : target) (va : Z) (base_address : Z) : Z :=
  match t with
  | APU => base_address
  | RPU _ => RPU_AIE_BASE
  | ZEPHYR aarch64 _ => u64 (va + u64 ((if aarch64 then base_address else RPU_AIE_BASE) - dt_reg_addr))
  end.

(** The constructor of the graph; [va] is the global with the mapping.
    [src/aeg_aiebaremetal.cc:277-394] [AIEGraphSim::AIEGraphSim] *)
Definition target_graph_new (t : target) (cp : ConfigureParser) (GraphName : string) (va : Z) (g : globals P)
    : M ((AIEGraphSim R * globals P) * Z) :=
  let s := mkGraph R cp dev_zero None None (Some {| ipc_ := false |}) GraphName 0 0 [] in
  match t, get_graph_config GraphName cp with
  | ZEPHYR _ mmu, Some _ =>
      let* (base, va) := abr_map_aie_aperture mmu va in
      st <-- graph_setup (target_base t base) GraphName s g ;;
      ret (st, va)
  | _, _ => st <-- graph_setup (target_base t va) GraphName s g ;; ret (st, va)
  end.

(** On the real-time processor the array's window is first made a device region.
    [src/aeg_aiebaremetal.cc:494-499] [AIEGraphSim::init] *)
Definition target_graph_init (t : target) (st : AIEGraphSim R * globals P)
    : M (aeg_err * (AIEGraphSim R * globals P)) :=
  match t with
  | RPU true => exec_ (Xil_SetMPURegion RPU_AIE_BASE 0x40000000 mpu_attributes) ;;; graph_init st
  | _ => graph_init st
  end.

(** ** The mapping *)

(** The mapping is made once: later calls return the same address without asking the kernel. *)
Lemma mapping_made_once mmu va h r : abr_map_aie_aperture mmu va h = Some r -> fst (fst r) <> 0 ->
  snd (fst r) = fst (fst r) /\
  forall h', abr_map_aie_aperture mmu (snd (fst r)) h' = Some ((fst (fst r), fst (fst r)), h').
Proof.
  unfold abr_map_aie_aperture. intros H Hnz.
  assert (Hr : snd (fst r) = fst (fst r)).
  { destruct (Z.eqb_spec va 0); [destruct mmu|]; [unfold bind, exec, ret in H| |]; by injection H as <-. }
  split; [done|]. intros h'. rewrite Hr. by rewrite (proj2 (Z.eqb_neq _ _) Hnz).
Qed.

(** On the application processor the constructor is the one of the other files. *)
Lemma apu_graph_new cp name va g h :
  target_graph_new APU cp name va g h =
  match graph_new cp name g h with Some (st, h') => Some ((st, va), h') | None => None end.
Proof. reflexivity. Qed.
End Target.

(** ** Where a blob's registers are *)

(** The base address of the array in configurations and blobs. *)
Definition AIE_BASE : Z := 0x20000000000.

Lemma land_disjoint_add k x y : 0 <= k -> 0 <= y < 2 ^ k -> Z.lor (Z.shiftl x k) y = Z.shiftl x k + y.
Proof. intros Hk Hy. rewrite (Z.lor_comm _ y), lor_shiftl_add, Z.shiftl_mul_pow2 by lia. lia. Qed.

Lemma base_strip off : 0 <= off < 2 ^ 41 ->
  Z.land (AIE_BASE + off) (u64 (Z.lnot AIE_BASE)) = off /\ Z.land (AIE_BASE + off) AIE_BASE <> 0.
Proof.
  intros H. replace (AIE_BASE + off) with (Z.lor (Z.shiftl 1 41) off)
    by (rewrite land_disjoint_add by lia; reflexivity).
  assert (Hoff : forall i, 41 <= i -> Z.testbit off i = false).
  { intros i Hi. rewrite <- (Z.mod_small off (2 ^ 41)) by lia. by rewrite Z.mod_pow2_bits_high by lia. }
  split.
  - apply Z.bits_inj'. intros i Hi. change (u64 (Z.lnot AIE_BASE)) with (Z.ldiff (Z.ones 64) (Z.shiftl 1 41)).
    rewrite Z.land_spec, Z.lor_spec, Z.ldiff_spec.
    destruct (Z.eq_dec i 41) as [->|Hi41].
    + rewrite (Hoff 41) by lia. rewrite Z.shiftl_spec by lia. cbn. by rewrite !andb_false_r.
    + replace (Z.testbit (Z.shiftl 1 41) i) with false
        by (rewrite Z.shiftl_spec by lia; destruct (Z.testbit 1 (i - 41)) eqn:E; [|done];
            destruct (Z.ltb_spec i 41); [by rewrite Z.testbit_neg_r in E by lia|];
            rewrite (Z.bits_above_log2 1 (i - 41)) in E by (cbn; lia); done).
      cbn [orb negb]. destruct (Z.ltb_spec i 64).
      * rewrite Z.ones_spec_low by lia. by rewrite !andb_true_r.
      * rewrite Hoff by lia. done.
  - intros E. assert (Hb : Z.testbit (Z.land (Z.lor (Z.shiftl 1 41) off) AIE_BASE) 41 = true).
    { rewrite Z.land_spec, Z.lor_spec. reflexivity. }
    rewrite E in Hb. done.
Qed.

(** on the real-time processor every command of a blob for a register of the array goes to the
    same offset in the 1 GiB alias, which fits 32 bits, and commands for other registers (power and
    clock controllers, without the array's address bit) go where they say.  This is exact for the
    32 columns of the window; an offset beyond it is folded back onto a register inside. *)
Theorem rpu_registers_rebased off :
  0 <= off < 2 ^ 41 ->
  (off < 2 ^ 30 -> cdo_reg_off RPU_AIE_BASE AIE_BASE (AIE_BASE + off) = RPU_AIE_BASE + off /\
     RPU_AIE_BASE + off < 2 ^ 32) /\
  cdo_reg_off RPU_AIE_BASE AIE_BASE off = off /\
  (2 ^ 30 <= off < 2 ^ 31 -> cdo_reg_off RPU_AIE_BASE AIE_BASE (AIE_BASE + off) = off).
Proof.
  intros H. destruct (base_strip off H) as [Hs Hnz]. unfold cdo_reg_off.
  rewrite (proj2 (Z.eqb_neq _ _) Hnz), Hs. cbn [negb]. split_and!.
  - intros Hlt. rewrite Z.lor_comm. change RPU_AIE_BASE with (Z.shiftl 1 30).
    rewrite land_disjoint_add by lia. split; [done|]. change (Z.shiftl 1 30) with (2 ^ 30). lia.
  - replace (Z.land off AIE_BASE) with 0; [done|]. symmetry. apply Z.bits_inj'. intros i Hi.
    rewrite Z.land_spec, Z.bits_0. destruct (Z.ltb_spec i 41).
    + replace (Z.testbit AIE_BASE i) with false; [apply andb_false_r|].
      change AIE_BASE with (2 ^ 41). rewrite Z.pow2_bits_eqb by lia. symmetry. apply Z.eqb_neq. lia.
    + rewrite <- (Z.mod_small off (2 ^ 41)) by lia. by rewrite Z.mod_pow2_bits_high by lia.
  - intros Hr. replace off with (Z.lor (Z.shiftl 1 30) (off - 2 ^ 30)) at 1
      by (rewrite land_disjoint_add by lia; change (Z.shiftl 1 30) with (2 ^ 30); lia).
    rewrite Z.lor_comm, Z.lor_assoc. change RPU_AIE_BASE with (Z.shiftl 1 30). rewrite Z.lor_diag.
    rewrite land_disjoint_add by lia. change (Z.shiftl 1 30) with (2 ^ 30). lia.
Qed.

(** With a device base that carries the partition's first column [c0], a register in column [c] is
    looked for in column [c lor c0]: the column is right only if it has all the bits of [c0]. *)
Lemma partition_columns_merged c c0 r :
  0 <= c < 2 ^ 16 -> 0 <= c0 < 2 ^ 16 -> 0 <= r < 2 ^ 25 ->
  cdo_reg_off (AIE_BASE + Z.shiftl c0 25) AIE_BASE (AIE_BASE + (Z.shiftl c 25 + r))
  = AIE_BASE + (Z.shiftl (Z.lor c c0) 25 + r).
Proof.
  intros Hc Hc0 Hr.
  assert (Hb : forall x, 0 <= x < 2 ^ 16 -> 0 <= Z.shiftl x 25 + r < 2 ^ 41)
    by (intros x Hx; rewrite Z.shiftl_mul_pow2 by lia; lia).
  destruct (base_strip (Z.shiftl c 25 + r) (Hb c Hc)) as [Hs Hnz]. unfold cdo_reg_off.
  rewrite (proj2 (Z.eqb_neq _ _) Hnz), Hs. cbn [negb].
  assert (Hl : 0 <= Z.lor c c0 < 2 ^ 16).
  { split; [apply Z.lor_nonneg; lia|]. destruct (Z.eq_dec (Z.lor c c0) 0) as [->|]; [lia|].
    apply Z.log2_lt_pow2; [pose proof (proj2 (Z.lor_nonneg c c0)); lia|]. rewrite Z.log2_lor by lia.
    apply Z.max_lub_lt; [destruct (Z.eq_dec c 0) as [->|] | destruct (Z.eq_dec c0 0) as [->|]];
      try (cbn; lia); apply Z.log2_lt_pow2; lia. }
  replace (AIE_BASE + Z.shiftl c0 25) with (Z.lor (Z.shiftl 1 41) (Z.shiftl c0 25))
    by (rewrite land_disjoint_add by (rewrite ?Z.shiftl_mul_pow2 by lia; lia); reflexivity).
  replace (AIE_BASE + (Z.shiftl (Z.lor c c0) 25 + r)) with (Z.lor (Z.shiftl 1 41) (Z.shiftl (Z.lor c c0) 25 + r))
    by (rewrite land_disjoint_add by (lia || by apply Hb); reflexivity).
  rewrite <- !land_disjoint_add by lia. rewrite Z.shiftl_lor.
  apply Z.bits_inj'. intros i Hi. rewrite !Z.lor_spec. btauto.
Qed.

(** Column 8 of a partition that starts at column 4 is addressed as column 12. *)
Example column_8_of_partition_4 :
  cdo_reg_off (AIE_BASE + Z.shiftl 4 25) AIE_BASE (AIE_BASE + Z.shiftl 8 25) = AIE_BASE + Z.shiftl 12 25.
Proof. reflexivity. Qed.

Lemma rpu_registers_rebased_witness :
  (0x60000 < 2 ^ 30 -> cdo_reg_off RPU_AIE_BASE AIE_BASE (AIE_BASE + 0x60000) = RPU_AIE_BASE + 0x60000 /\
     RPU_AIE_BASE + 0x60000 < 2 ^ 32) /\
  cdo_reg_off RPU_AIE_BASE AIE_BASE 0x60000 = 0x60000 /\
  (2 ^ 30 <= 0x60000 < 2 ^ 31 -> cdo_reg_off RPU_AIE_BASE AIE_BASE (AIE_BASE + 0x60000) = 0x60000).
Proof. apply (rpu_registers_rebased 0x60000). lia. Defined.
