(* ===== verification/GenEvents.v ===== *)
(** The test that makes the array report every error ([src/xaie_generate_events.cc]): the error
    events of each tile by its type, the user event of each column and the check-bit errors of
    the memory tiles, after the driver's error handling was set up.

    Event numbers and tile types are enumerators of the driver's headers, the class
    [EventConsts]; the type of a tile is what the driver answers. *)
From stdpp Require Import base list.
From Stdlib Require Import ZArith Lia.
From S2P Require Import Prelude Driver.
Local Open Scope Z_scope.
Local Open Scope aeg_scope.

Class EventConsts := {
  TILE_TYPE_AIETILE : Z; TILE_TYPE_SHIMNOC : Z; TILE_TYPE_SHIMPL : Z; TILE_TYPE_MEMTILE : Z;
  GROUP_ERRORS_PL : Z; GROUP_STREAM_SWITCH_PL : Z;
  GROUP_ERRORS_1_CORE : Z; GROUP_STREAM_SWITCH_CORE : Z;
  GROUP_ERRORS_MEM : Z; GROUP_BROADCAST_MEM : Z;
  GROUP_ERRORS_MEM_TILE : Z; GROUP_BROADCAST_MEM_TILE : Z;
  USER_EVENT_1_PL : Z
}.

(** What the test reads of the device instance, all bytes but the generation. *)
Record event_dev := {
  ev_NumRows : Z; ev_StartCol : Z; ev_NumCols : Z; ev_DevGen : Z;
  ev_MemTileRowStart : Z; ev_MemTileNumRows : Z
}.

Section Generate.
Context `{rt : AieRt} {EC : EventConsts}.

(** [src/xaie_generate_events.cc:15-22] [AegWaitForContinue] *)
Definition AegWaitForContinue (AIESIM : bool) : M unit :=
  if AIESIM then exec_ getchar ;;; exec_ getchar else ret tt.

(** [GetTTypefromLoc] *)
Definition tile_type (l : loc) : M Z := r <-- exec (uc_tile_type l) ;; ret (u8 (rc r)).

(** [for (u = first; u < last; u++)] over unsigned words. *)
Definition upto (first last : Z) : list Z := seqZ first (last - first).

(** The events strictly between two enumerators: [s_start = group + 1; u_end = next]. *)
Definition group_members (group next : Z) : list Z := upto (u32 (s32 group + 1)) (u32 next).

(** [(void)XAie_EventGenerate(DevInst, Loc, m, aeg_get_event_from_ordinal(u))] for each number *)
Definition generate_all (l : loc) (m : xmodule) (ords : list Z) : M unit :=
  for_each (fun u _ => exec_ (XAie_EventGenerate_ord l m u)) ords tt.

(** [src/xaie_generate_events.cc:34-53] [generate_shim_tile_event] *)
Definition generate_shim_tile_event (l : loc) : M unit :=
  t <-- tile_type l ;;
  if negb (t =? TILE_TYPE_SHIMNOC) && negb (t =? TILE_TYPE_SHIMPL) then ret tt
  else generate_all l XAIE_PL_MOD (group_members GROUP_ERRORS_PL GROUP_STREAM_SWITCH_PL).

(** [src/xaie_generate_events.cc:55-74] [generate_aie_tile_core_event] *)
Definition generate_aie_tile_core_event (l : loc) : M unit :=
  t <-- tile_type l ;;
  if negb (t =? TILE_TYPE_AIETILE) then ret tt
  else generate_all l XAIE_CORE_MOD (group_members GROUP_ERRORS_1_CORE GROUP_STREAM_SWITCH_CORE).

(** [src/xaie_generate_events.cc:76-95] [generate_aie_tile_mem_event] *)
Definition generate_aie_tile_mem_event (l : loc) : M unit :=
  t <-- tile_type l ;;
  if negb (t =? TILE_TYPE_AIETILE) then ret tt
  else generate_all l XAIE_MEM_MOD (group_members GROUP_ERRORS_MEM GROUP_BROADCAST_MEM).

(** [src/xaie_generate_events.cc:97-116] [generate_mem_tile_event] *)
Definition generate_mem_tile_event (l : loc) : M unit :=
  t <-- tile_type l ;;
  if negb (t =? TILE_TYPE_MEMTILE) then ret tt
  else generate_all l XAIE_MEM_MOD (group_members GROUP_ERRORS_MEM_TILE GROUP_BROADCAST_MEM_TILE).

(** [src/xaie_generate_events.cc:119-156] [generate_events_on_col] *)
Definition generate_events_on_col (d : event_dev) (col : Z) : M unit :=
  for_each (fun row _ =>
    let l := mkLoc (u8 col) (u8 row) in
    t <-- tile_type l ;;
    if (t =? TILE_TYPE_SHIMNOC) || (t =? TILE_TYPE_SHIMPL) then generate_shim_tile_event l
    else if t =? TILE_TYPE_MEMTILE then generate_mem_tile_event l
    else if t =? TILE_TYPE_AIETILE then generate_aie_tile_core_event l ;;; generate_aie_tile_mem_event l
    else ret tt)
  (upto 0 (ev_NumRows d)) tt.

(** [src/xaie_generate_events.cc:159-172] [generate_user_event1_on_col]
    [AIE_GEN] is zero when it is not defined. *)
Definition generate_user_event1_on_col (AIE_GEN col : Z) : M unit :=
  if 5 <=? AIE_GEN then exec_ (XAie_EventGenerate_ord (mkLoc (u8 col) 0) XAIE_PL_MOD USER_EVENT_1_PL)
  else ret tt.

(** [src/xaie_generate_events.cc:174-189] [generate_mem_tile_checkbit_error_generation] *)
Definition generate_mem_tile_checkbit_error_generation (d : event_dev) (l : loc) : M unit :=
  if XAIE_DEV_GEN_AIEML <? ev_DevGen d then
    t <-- tile_type l ;;
    if t =? TILE_TYPE_MEMTILE then
      r <-- exec (XAie_GetTileAddr (Row l) (Col l)) ;;
      exec_ (XAie_Write32 (u64 (out r + 0x92000)) 1)
    else ret tt
  else ret tt.

(** [src/xaie_generate_events.cc:191-201] [generate_mem_tile_checkbit_error_generation_col] *)
Definition generate_mem_tile_checkbit_error_generation_col (d : event_dev) (col : Z) : M unit :=
  for_each (fun row _ => generate_mem_tile_checkbit_error_generation d (mkLoc (u8 col) (u8 row)))
    (upto (ev_MemTileRowStart d) (ev_MemTileNumRows d)) tt.

(** The columns of the partition: [startCol <= i < startCol + NumCols]. *)
Definition ev_columns (d : event_dev) : list Z := upto (ev_StartCol d) (ev_StartCol d + ev_NumCols d).

(** [src/xaie_generate_events.cc:204-241] [test_aie_generate_intr] *)
Definition test_aie_generate_intr (AIESIM : bool) (AIE_GEN : Z) (d : event_dev) : M Z :=
  exec_ XAie_PmRequestTiles ;;;
  AegWaitForContinue AIESIM ;;;
  r <-- exec XAie_ErrorHandlingInit ;;
  if negb (rc r =? XAIE_OK) then ret (-1)
  else
    for_each (fun i _ => generate_user_event1_on_col AIE_GEN i) (ev_columns d) tt ;;;
    for_each (fun i _ => generate_mem_tile_checkbit_error_generation_col d i) (ev_columns d) tt ;;;
    for_each (fun i _ => generate_events_on_col d i) (ev_columns d) tt ;;;
    ret 0.
End Generate.

(** * What the test generates *)

(** The error events a tile of a type can raise, as calls. *)
Definition error_events `{EC : EventConsts} (ty : Z) (l : loc) : list call :=
  if (ty =? TILE_TYPE_SHIMNOC) || (ty =? TILE_TYPE_SHIMPL) then
    map (XAie_EventGenerate_ord l XAIE_PL_MOD) (group_members GROUP_ERRORS_PL GROUP_STREAM_SWITCH_PL)
  else if ty =? TILE_TYPE_MEMTILE then
    map (XAie_EventGenerate_ord l XAIE_MEM_MOD) (group_members GROUP_ERRORS_MEM_TILE GROUP_BROADCAST_MEM_TILE)
  else if ty =? TILE_TYPE_AIETILE then
    map (XAie_EventGenerate_ord l XAIE_CORE_MOD) (group_members GROUP_ERRORS_1_CORE GROUP_STREAM_SWITCH_CORE) ++
    map (XAie_EventGenerate_ord l XAIE_MEM_MOD) (group_members GROUP_ERRORS_MEM GROUP_BROADCAST_MEM)
  else [].

(** The calls that act on the array; the others only ask. *)
Definition is_generate (c : call) : bool :=
  match c with XAie_EventGenerate_ord _ _ _ | XAie_Write32 _ _ => true | _ => false end.
Definition acts (cs : list call) : list call := List.filter is_generate cs.

Section Facts.
Context `{rt : AieRt} {EC : EventConsts}.
(** The types of the tiles and the offsets of their registers, which do not change. *)
Context (T : loc -> Z) (A : loc -> Z).
Context (HT : forall h l, u8 (rc (drv h (uc_tile_type l))) = T l).
Context (HA : forall h l, out (drv h (XAie_GetTileAddr (Row l) (Col l))) = A l).

(** [m] returns and acts on the array by [cs], whatever it asks in between. *)
Definition does (m : M unit) (cs : list call) : Prop :=
  forall h, exists ks, m h = Some (tt, after h ks) /\ acts ks = cs.

Lemma does_ret : does (ret tt) [].
Proof. intros h; exists []; rewrite after_nil; done. Qed.

Lemma does_bind m k cs cs' : does m cs -> does k cs' -> does (m ;;; k) (cs ++ cs').
Proof.
  intros Hm Hk h; destruct (Hm h) as (ks & E & <-), (Hk (after h ks)) as (ks' & E' & <-).
  exists (ks ++ ks'); unfold bind; rewrite E, E', after_app; split; [done|].
  unfold acts; by rewrite List.filter_app.
Qed.

Lemma does_exec c : does (exec_ c) (acts [c]).
Proof. intros h; exists [c]; done. Qed.

Lemma does_type l k cs : does (k (T l)) cs -> does (t <-- tile_type l ;; k t) cs.
Proof.
  intros Hk h; destruct (Hk (after h [uc_tile_type l])) as (ks & E & <-).
  exists (uc_tile_type l :: ks); split; [|done].
  unfold bind at 1, tile_type, bind, exec, ret; rewrite HT.
  change (h ++ [_]) with (after h [uc_tile_type l]); rewrite E, after_app; done.
Qed.

Lemma does_for_each {B} (f : B -> M unit) g (l : list B) :
  (forall b, does (f b) (g b)) -> does (for_each (fun b _ => f b) l tt) (flat_map g l).
Proof.
  intros Hf; induction l as [|b l IH]; simpl; [apply does_ret|].
  intros h; destruct (does_bind _ _ _ _ (Hf b) IH h) as (ks & E & H); exists ks; split; [|done].
  unfold bind in *; destruct (f b h) as [[[] h1]|]; done.
Qed.

Lemma does_eq m cs cs' : does m cs -> cs = cs' -> does m cs'.
Proof. by intros ? <-. Qed.

Lemma does_generate l m ords : does (generate_all l m ords) (map (XAie_EventGenerate_ord l m) ords).
Proof.
  eapply does_eq; [apply (does_for_each _ (fun u => [XAie_EventGenerate_ord l m u])); intros; apply does_exec|].
  induction ords; simpl; congruence.
Qed.

Lemma does_tile l : does (
  t <-- tile_type l ;;
  if (t =? TILE_TYPE_SHIMNOC) || (t =? TILE_TYPE_SHIMPL) then generate_shim_tile_event l
  else if t =? TILE_TYPE_MEMTILE then generate_mem_tile_event l
  else if t =? TILE_TYPE_AIETILE then generate_aie_tile_core_event l ;;; generate_aie_tile_mem_event l
  else ret tt) (error_events (T l) l).
Proof.
  apply (does_type l (fun t => if (t =? TILE_TYPE_SHIMNOC) || (t =? TILE_TYPE_SHIMPL) then _ else _)).
  unfold error_events; destruct (T l =? TILE_TYPE_SHIMNOC) eqn:E1, (T l =? TILE_TYPE_SHIMPL) eqn:E2; simpl;
    try (apply does_type; rewrite E1, ?E2; apply does_generate).
  destruct (T l =? TILE_TYPE_MEMTILE) eqn:E3; [apply does_type; rewrite E3; apply does_generate|].
  destruct (T l =? TILE_TYPE_AIETILE) eqn:E4; [|apply does_ret].
  apply does_bind; apply does_type; rewrite E4; apply does_generate.
Qed.

(** The check-bit error of one memory tile. *)
Definition checkbit (d : event_dev) (l : loc) : list call :=
  if (XAIE_DEV_GEN_AIEML <? ev_DevGen d) && (T l =? TILE_TYPE_MEMTILE)
  then [XAie_Write32 (u64 (A l + 0x92000)) 1] else [].

Lemma does_checkbit d l : does (generate_mem_tile_checkbit_error_generation d l) (checkbit d l).
Proof.
  unfold generate_mem_tile_checkbit_error_generation, checkbit.
  destruct (XAIE_DEV_GEN_AIEML <? ev_DevGen d); simpl; [|apply does_ret].
  apply does_type; destruct (_ =? _); [|apply does_ret].
  intros h; exists [XAie_GetTileAddr (Row l) (Col l); XAie_Write32 (u64 (A l + 0x92000)) 1]; split; [|done].
  unfold bind, exec; simpl; rewrite HA; unfold exec_, bind, exec, ret, after; simpl.
  rewrite <- app_assoc; done.
Qed.

Definition user_event (AIE_GEN col : Z) : list call :=
  if 5 <=? AIE_GEN then [XAie_EventGenerate_ord (mkLoc (u8 col) 0) XAIE_PL_MOD USER_EVENT_1_PL] else [].

(** Everything the test does to the array of a device. *)
Definition generated (AIE_GEN : Z) (d : event_dev) : list call :=
  flat_map (user_event AIE_GEN) (ev_columns d) ++
  flat_map (fun col => flat_map (fun row => checkbit d (mkLoc (u8 col) (u8 row)))
                         (upto (ev_MemTileRowStart d) (ev_MemTileNumRows d))) (ev_columns d) ++
  flat_map (fun col => flat_map (fun row => let l := mkLoc (u8 col) (u8 row) in error_events (T l) l)
                         (upto 0 (ev_NumRows d))) (ev_columns d).

(** The calls of the test, in order. *)
Lemma test_spec AIESIM AIE_GEN d h :
  exists z ks, test_aie_generate_intr AIESIM AIE_GEN d h = Some (z, after h ks) /\
    let pre := XAie_PmRequestTiles :: (if AIESIM then [getchar; getchar] else []) in
    if rc (drv (after h pre) XAie_ErrorHandlingInit) =? XAIE_OK
    then z = 0 /\ acts ks = generated AIE_GEN d /\ (pre ++ [XAie_ErrorHandlingInit]) `prefix_of` ks
    else z = -1 /\ acts ks = [].
Proof.
  set (pre := XAie_PmRequestTiles :: (if AIESIM then [getchar; getchar] else [])).
  assert (E0 : forall B (k : M B), (exec_ XAie_PmRequestTiles ;;; AegWaitForContinue AIESIM ;;; k) h = k (after h pre)).
  { intros B k; destruct AIESIM; unfold bind, exec_, bind, exec, ret, after; simpl; rewrite <- ?app_assoc; done. }
  unfold test_aie_generate_intr; rewrite E0; unfold bind at 1, exec.
  change (after h pre ++ [_]) with (after (after h pre) [XAie_ErrorHandlingInit]); rewrite after_app.
  destruct (_ =? XAIE_OK) eqn:E; cbn [negb].
  2: { exists (-1), (pre ++ [XAie_ErrorHandlingInit]); split; [done|]; cbv zeta; split; [done|].
       by destruct AIESIM. }
  assert (Hu : does (for_each (fun i _ => generate_user_event1_on_col AIE_GEN i) (ev_columns d) tt)
                 (flat_map (user_event AIE_GEN) (ev_columns d))).
  { apply does_for_each; intros c; unfold generate_user_event1_on_col, user_event.
    destruct (5 <=? AIE_GEN); [apply does_exec|apply does_ret]. }
  assert (Hc : does (for_each (fun i _ => generate_mem_tile_checkbit_error_generation_col d i) (ev_columns d) tt)
    (flat_map (fun col => flat_map (fun row => checkbit d (mkLoc (u8 col) (u8 row)))
                         (upto (ev_MemTileRowStart d) (ev_MemTileNumRows d))) (ev_columns d)))
    by (do 2 (apply does_for_each; intros ?); apply does_checkbit).
  assert (He : does (for_each (fun i _ => generate_events_on_col d i) (ev_columns d) tt)
    (flat_map (fun col => flat_map (fun row => let l := mkLoc (u8 col) (u8 row) in error_events (T l) l)
                         (upto 0 (ev_NumRows d))) (ev_columns d)))
    by (do 2 (apply does_for_each; intros ?); apply does_tile).
  destruct (Hu (after h (pre ++ [XAie_ErrorHandlingInit]))) as (k1 & E1 & A1).
  destruct (Hc (after (after h (pre ++ [XAie_ErrorHandlingInit])) k1)) as (k2 & E2 & A2).
  destruct (He (after (after (after h (pre ++ [XAie_ErrorHandlingInit])) k1) k2)) as (k3 & E3 & A3).
  exists 0, ((pre ++ [XAie_ErrorHandlingInit]) ++ k1 ++ k2 ++ k3); split.
  { rewrite (bind_Some _ _ _ _ _ E1), (bind_Some _ _ _ _ _ E2), (bind_Some _ _ _ _ _ E3).
    unfold ret; rewrite !after_app, <- !app_assoc; done. }
  cbv zeta; split; [done|]; split; [|apply prefix_app_r; done].
  unfold acts, generated in *; rewrite !List.filter_app, A1, A2, A3.
  by destruct AIESIM.
Qed.

(** the error test sets up error handling before it touches the array, and if that fails it
    returns -1 and touches nothing.  Otherwise it returns 0 after generating, for every tile of
    every column of the partition, exactly the error events of that tile's type, each once and
    in order, after one user event per column (on the generations that have it) and the
    check-bit writes; the answer to the power request does not matter. *)
Theorem test_generates_errors AIESIM AIE_GEN d h :
  exists z ks, test_aie_generate_intr AIESIM AIE_GEN d h = Some (z, after h ks) /\
    let pre := XAie_PmRequestTiles :: (if AIESIM then [getchar; getchar] else []) in
    if rc (drv (after h pre) XAie_ErrorHandlingInit) =? XAIE_OK
    then z = 0 /\ acts ks = generated AIE_GEN d /\ (pre ++ [XAie_ErrorHandlingInit]) `prefix_of` ks
    else z = -1 /\ acts ks = [].
Proof. apply test_spec. Qed.

Lemma test_generates_acts AIESIM AIE_GEN d h :
  exists z ks, test_aie_generate_intr AIESIM AIE_GEN d h = Some (z, after h ks) /\
    (acts ks = generated AIE_GEN d \/ acts ks = []).
Proof.
  destruct (test_spec AIESIM AIE_GEN d h) as (z & ks & E & H); exists z, ks; split; [done|].
  simpl in H; case_match; [left; apply H|right; apply H].
Qed.

(** The rows the check-bit loop visits are those below the NUMBER of memory-tile rows. *)
Lemma elem_of_upto a b x : x ∈ upto a b <-> a <= x < b.
Proof. unfold upto; rewrite elem_of_seqZ; lia. Qed.

Lemma error_events_no_write ty l a v : ~ In (XAie_Write32 a v) (error_events ty l).
Proof.
  assert (Hm : forall m ords, ~ In (XAie_Write32 a v) (map (XAie_EventGenerate_ord l m) ords))
    by (intros m ords (? & ? & _)%in_map_iff; discriminate).
  unfold error_events; destruct (_ || _); [apply Hm|]; destruct (_ =? _); [apply Hm|].
  destruct (_ =? _); [|intros []]; rewrite in_app_iff; intros [H|H]; exact (Hm _ _ H).
Qed.

Definition byte_loc (l : loc) : Prop := 0 <= Row l < 256 /\ 0 <= Col l < 256.

(** the loop over the memory tiles runs from the first memory-tile row to the number of such rows
    instead of to the first row after them.  Whenever the memory tiles do not start at row 0, as
    on every device with a shim row below them, the last memory tile of a column never gets its
    check-bit error, in no column and whatever the device answers; with a single row of memory
    tiles at row 1 no tile gets one. *)
Theorem checkbit_misses_last_row AIESIM AIE_GEN d col h :
  (forall l l', byte_loc l -> byte_loc l' -> u64 (A l + 0x92000) = u64 (A l' + 0x92000) -> l = l') ->
  0 < ev_MemTileRowStart d -> 0 < ev_MemTileNumRows d ->
  ev_MemTileRowStart d + ev_MemTileNumRows d <= 256 ->
  exists z ks, test_aie_generate_intr AIESIM AIE_GEN d h = Some (z, after h ks) /\
    let last := ev_MemTileRowStart d + ev_MemTileNumRows d - 1 in
    XAie_Write32 (u64 (A (mkLoc (u8 col) (u8 last)) + 0x92000)) 1 ∉ ks.
Proof.
  intros Hinj Hs Hn Hr; destruct (test_generates_acts AIESIM AIE_GEN d h) as (z & ks & E & Hks).
  exists z, ks; split; [done|]; intros last Hin.
  assert (Ha : XAie_Write32 (u64 (A (mkLoc (u8 col) (u8 last)) + 0x92000)) 1 ∈ acts ks).
  { apply list_elem_of_In, List.filter_In; split; [by apply list_elem_of_In|done]. }
  destruct Hks as [Hks|Hks]; rewrite Hks in Ha; [|by apply not_elem_of_nil in Ha].
  apply list_elem_of_In in Ha; unfold generated in Ha; rewrite !in_app_iff, !in_flat_map in Ha.
  destruct Ha as [(c & _ & Hc)|[(c & _ & Hc)|(c & _ & Hc)]].
  - unfold user_event in Hc; destruct (5 <=? AIE_GEN); simpl in Hc; intuition congruence.
  - apply in_flat_map in Hc as (r & Hrow & Hc); apply list_elem_of_In, elem_of_upto in Hrow.
    unfold checkbit in Hc; destruct (_ && _); simpl in Hc; [|done].
    destruct Hc as [Hc|[]]; injection Hc as Hc; apply Hinj in Hc.
    + injection Hc as _ Hc; rewrite !wrap_u_small in Hc by (unfold last; lia); unfold last in Hc; lia.
    + split; apply (wrap_u_range 8); lia.
    + split; apply (wrap_u_range 8); lia.
  - apply in_flat_map in Hc as (r & _ & Hc); exact (error_events_no_write _ _ _ _ Hc).
Qed.
End Facts.

(** * A concrete device

    Two columns of a shim tile, two memory tiles and an AI engine tile. *)
Definition demo_tile (l : loc) : Z := if Row l =? 0 then 1 else if Row l <? 3 then 3 else 0.
Definition demo_off (l : loc) : Z := Z.shiftl (Col l) 28 + Z.shiftl (Row l) 20.
Definition demo_events_rt : AieRt := {|
  drv := fun _ c => match c with
    | uc_tile_type l => mkResp (u8 (demo_tile l)) 0 []
    | XAie_GetTileAddr r c => mkResp 0 (demo_off (mkLoc c r)) []
    | _ => mkResp 0 0 []
    end;
  XAIE_ERR := 1; XAIE_CORE_STATUS_TIMEOUT := 12; XAIE_LOCK_WITH_NO_VALUE := -1;
  XAIE_DEV_GEN_AIE := 1; XAIE_DEV_GEN_AIEML := 2; XAIE_DEV_GEN_S100 := 6; XAIE_DEV_GEN_S200 := 7
|}.
Definition demo_event_consts : EventConsts := {|
  TILE_TYPE_AIETILE := 0; TILE_TYPE_SHIMNOC := 1; TILE_TYPE_SHIMPL := 2; TILE_TYPE_MEMTILE := 3;
  GROUP_ERRORS_PL := 20; GROUP_STREAM_SWITCH_PL := 23; GROUP_ERRORS_1_CORE := 40;
  GROUP_STREAM_SWITCH_CORE := 42; GROUP_ERRORS_MEM := 60; GROUP_BROADCAST_MEM := 62;
  GROUP_ERRORS_MEM_TILE := 80; GROUP_BROADCAST_MEM_TILE := 82; USER_EVENT_1_PL := 7
|}.
Definition demo_event_dev : event_dev := {|
  ev_NumRows := 4; ev_StartCol := 0; ev_NumCols := 2; ev_DevGen := 5;
  ev_MemTileRowStart := 1; ev_MemTileNumRows := 2 |}.
#[local] Existing Instance demo_events_rt.
#[local] Existing Instance demo_event_consts.

Lemma test_generates_errors_witness :
  exists z ks, test_aie_generate_intr false 5 demo_event_dev [] = Some (z, after [] ks) /\ z = 0 /\
    length (acts ks) = 16%nat.
Proof.
  destruct (test_generates_errors (fun l => u8 (demo_tile l)) demo_off) with (AIESIM := false) (AIE_GEN := 5)
    (d := demo_event_dev) (h := @nil Driver.event) as (z & ks & E & H).
  - intros h l; simpl; unfold wrap_u; by rewrite Zmod_mod.
  - intros h [c r]; reflexivity.
  - destruct H as (Hz & Ha & _); exists z, ks; split; [exact E|]; split; [exact Hz|].
    rewrite Ha; vm_compute; reflexivity.
Defined.

(** The second memory tile of the first column: row 2. *)
Lemma checkbit_misses_last_row_witness :
  exists z ks, test_aie_generate_intr false 5 demo_event_dev [] = Some (z, after [] ks) /\
    XAie_Write32 (u64 (demo_off (mkLoc 0 2) + 0x92000)) 1 ∉ ks.
Proof.
  refine (checkbit_misses_last_row (fun l => u8 (demo_tile l)) demo_off _ _ false 5 demo_event_dev 0 [] _ _ _ _).
  - intros h l; simpl; unfold wrap_u; by rewrite Zmod_mod.
  - intros h [c r]; reflexivity.
  - intros [c r] [c' r'] [H1 H2] [H3 H4]; simpl in *; unfold demo_off; simpl.
    rewrite !Z.shiftl_mul_pow2 by lia; rewrite !wrap_u_small by lia; intros H; f_equal; lia.
  - reflexivity.
  - reflexivity.
  - simpl; lia.
Defined.
