(* ===== verification/Txn.v ===== *)
(** The transaction interpreter of the AI-model examples
    ([example_ai_model/aeg/res18sw/sw/transactionsubmit.h], its older copy
    [example_ai_model/adf/resnet18v1/transactionsubmit.h]), the printer of the unit tests
    ([testut/txn.h]) and the files transactions are kept in ([gen_txn.cpp]).

    A transaction is a header and a sequence of operations, each a C structure followed by its
    data; the interpreter walks over them with a pointer and performs register accesses.  The
    structures are declared in the driver's headers: their sizes, the place of their fields and
    the operation codes are the class [TxnFormat].  The patch operation's payload is declared in
    the source and laid out by the C rules.  The memory at the pointer is the list of bytes from
    it on.  Printing and profiling are left out of the interpreter. *)
From stdpp Require Import base list gmap.
From Stdlib Require Import ZArith Lia.
From S2P Require Import Prelude Driver.
Local Open Scope Z_scope.
Local Open Scope aeg_scope.

(** A field of a structure: its offset and width in bytes, little-endian. *)
Record field := mkF { f_off : nat; f_width : nat }.
Definition get (f : field) (p : list Z) : Z := le_val (take (f_width f) (drop (f_off f) p)).

Class TxnFormat := {
  sizeof_TxnHeader : nat; h_NumOps : field; h_TxnSize : field;
  o_Op : field;
  w_RegOff : field; w_Value : field; w_Size : field;
  mw_RegOff : field; mw_Value : field; mw_Mask : field; mw_Size : field;
  mp_RegOff : field; mp_Value : field; mp_Mask : field; mp_Size : field;
  sizeof_BlockWrite : nat; bw_RegOff : field; bw_Size : field;
  sizeof_CustomOp : nat; co_Size : field;
  XAIE_IO_WRITE : Z; XAIE_IO_BLOCKWRITE : Z; XAIE_IO_MASKWRITE : Z; XAIE_IO_MASKPOLL : Z;
  XAIE_IO_CUSTOM_OP_BEGIN : Z; XAIE_IO_CUSTOM_OP_MAX : Z;
  XAIE_IO_CUSTOM_OP_DDR_PATCH : Z; XAIE_IO_CUSTOM_OP_TCT : Z
}.

(** [example/example_ai_model/aeg/res18sw/sw/transactionsubmit.h:62-69] [PatchShimOp]
    after the two words of [op_base], [action] and padding *)
Definition p_regAddr : field := mkF 16 8.
Definition p_extBufId : field := mkF 24 8.
Definition p_extBufLen : field := mkF 32 8.
Definition p_argplus : field := mkF 40 8.
(** [example/example_ai_model/adf/resnet18v1/transactionsubmit.h:33-39] [PatchShimOp]
    without the length *)
Definition old_argplus : field := mkF 32 8.

(** The copies differ in these points. *)
Record variant := {
  check_tiles : bool;      (* read the core status of the tiles before every tenth operation *)
  read_blocks : bool;      (* read every word of a block write back *)
  flush_patch : bool       (* the patch operation has a length and flushes the buffer *)
}.

Section Interpreter.
Context `{rt : AieRt} {F : TxnFormat}.
(** The address of the array, and the address of an external buffer by its number. *)
Context (v : variant) (AIE_APERTURE_BASE : Z) (ext : Z -> Z) (fuel : nat).

(** [example/example_ai_model/aeg/res18sw/sw/transactionsubmit.h:72-74] [AIE_Write32] *)
Definition AIE_Write32 (addr data : Z) : M unit := exec_ (Xil_Out32 (u64 addr) (u32 data)).

(** [example/example_ai_model/aeg/res18sw/sw/transactionsubmit.h:75-77] [AIE_Read32] *)
Definition AIE_Read32 (addr : Z) : M Z := r <-- exec (Xil_In32 (u64 addr)) ;; ret (u32 (out r)).

(** [example/example_ai_model/aeg/res18sw/sw/transactionsubmit.h:79-87] [aie_tile_check] *)
Definition aie_tile_check : M unit :=
  for_each (fun c _ =>
    for_each (fun r _ =>
      AIE_Read32 (AIE_APERTURE_BASE + Z.shiftl c 25 + Z.shiftl r 20 + 0x00032004) ;;; ret tt)
      [3; 4; 5; 6] tt) [0; 1; 2; 3; 4; 5; 6] tt.

(** [example/example_ai_model/aeg/res18sw/sw/transactionsubmit.h:215-227] [XAie_SubmitSerializedTransaction]
    the loop of a poll *)
Fixpoint mask_poll (fuel : nat) (addr mask value : Z) : M unit :=
  match fuel with
  | O => out_of_fuel
  | S fuel =>
      regVal <-- AIE_Read32 addr ;;
      if Z.land regVal mask =? value then ret tt else mask_poll fuel addr mask value
  end.

(** [example/example_ai_model/aeg/res18sw/sw/transactionsubmit.h:181-188] [XAie_SubmitSerializedTransaction]
    a masked write *)
Definition mask_write (addr mask value : Z) : M unit :=
  regVal <-- AIE_Read32 addr ;;
  AIE_Write32 addr (Z.lor (Z.land regVal (Z.lxor mask 0xFFFFFFFF)) value) ;;;
  AIE_Read32 addr ;;; ret tt.

(** [example/example_ai_model/adf/resnet18v1/transactionsubmit.h:146-152] [XAie_SubmitSerializedTransaction]
    [while (var != Tmp[i] && count-- > 0)] *)
Fixpoint read_back (count : nat) (addr word var : Z) : M unit :=
  if var =? word then ret tt
  else match count with
  | O => ret tt
  | S count => var <-- AIE_Read32 addr ;; read_back count addr word var
  end.

(** [example/example_ai_model/aeg/res18sw/sw/transactionsubmit.h:255-267] [XAie_SubmitSerializedTransaction]
    the loop of a block write *)
Definition block_write (addr : Z) (ws : list (Z * Z)) : M unit :=
  for_each (fun '(i, w) _ =>
    AIE_Write32 (addr + i * 4) w ;;;
    if read_blocks v then read_back 5 (addr + i * 4) w 0 else ret tt) ws tt.

(** [example/example_ai_model/aeg/res18sw/sw/transactionsubmit.h:302-323] [XAie_SubmitSerializedTransaction]
    the patch operation: the buffer's address goes to two registers *)
Definition patch (regAddr extBufId extBufLen argplus : Z) : M unit :=
  let tensorAddr := u64 (ext extBufId + argplus) in
  (if flush_patch v then exec_ (Xil_DCacheFlushRange tensorAddr (u64 (extBufLen * 4))) else ret tt) ;;;
  if tensorAddr =? 0 then ret tt
  else
    AIE_Write32 (regAddr + AIE_APERTURE_BASE) (Z.land tensorAddr 0xFFFFFFFFC) ;;;
    regval <-- AIE_Read32 (regAddr + AIE_APERTURE_BASE + 4) ;;
    AIE_Write32 (regAddr + AIE_APERTURE_BASE + 4)
      (Z.lor (Z.land regval (Z.lxor 0x0000FFFF 0xFFFFFFFF)) (Z.shiftr tensorAddr 32)).

(** The words behind a block-write structure, with their index. *)
Definition block_words (p : list Z) : list (Z * Z) :=
  let Sz := s32 (u64 (get bw_Size p - Z.of_nat sizeof_BlockWrite) / 4) in
  map (fun i => (i, get (mkF (sizeof_BlockWrite + 4 * Z.to_nat i) 4) p)) (seqZ 0 Sz).

(** [example/example_ai_model/aeg/res18sw/sw/transactionsubmit.h:146-397] [XAie_SubmitSerializedTransaction]
    the body of the loop: performs the operation at the pointer and returns by how much the
    pointer moves *)
Definition step_at (p : list Z) : M Z :=
  let Op := get o_Op p in
  if Op =? XAIE_IO_WRITE then
    AIE_Write32 (AIE_APERTURE_BASE + get w_RegOff p) (get w_Value p) ;;; ret (get w_Size p)
  else if Op =? XAIE_IO_MASKWRITE then
    mask_write (AIE_APERTURE_BASE + get mw_RegOff p) (get mw_Mask p) (get mw_Value p) ;;;
    ret (get mw_Size p)
  else if Op =? XAIE_IO_MASKPOLL then
    mask_poll fuel (AIE_APERTURE_BASE + get mp_RegOff p) (get mp_Mask p) (get mp_Value p) ;;;
    ret (get mp_Size p)
  else if Op =? XAIE_IO_BLOCKWRITE then
    block_write (get bw_RegOff p + AIE_APERTURE_BASE) (block_words p) ;;; ret (get bw_Size p)
  else if Op =? XAIE_IO_CUSTOM_OP_DDR_PATCH then
    let op := drop sizeof_CustomOp p in
    patch (get p_regAddr op) (get p_extBufId op) (get p_extBufLen op)
      (get (if flush_patch v then p_argplus else old_argplus) op) ;;;
    ret (get co_Size p)
  else if (XAIE_IO_CUSTOM_OP_BEGIN <? Op) && (Op <? XAIE_IO_CUSTOM_OP_MAX) then ret (get co_Size p)
  else ret 0.

(** [example/example_ai_model/adf/resnet18v1/transactionsubmit.h:81-81] [XAie_SubmitSerializedTransaction] *)
Definition check_at (i : Z) : M unit := if check_tiles v && (i mod 10 =? 0) then aie_tile_check else ret tt.

(** The loop over the operations, from the [i]-th on; returns the pointer. *)
Fixpoint submit_ops (n : nat) (i : Z) (p : list Z) : M (list Z) :=
  match n with
  | O => ret p
  | S n =>
      check_at i ;;;
      adv <-- step_at p ;;
      submit_ops n (i + 1) (drop (Z.to_nat adv) p)
  end.

(** [example/example_ai_model/aeg/res18sw/sw/transactionsubmit.h:90-474] [XAie_SubmitSerializedTransaction]
    the build without profiling *)
Definition XAie_SubmitSerializedTransaction (p : list Z) : M unit :=
  submit_ops (Z.to_nat (get h_NumOps p)) 0 (drop sizeof_TxnHeader p) ;;; ret tt.
End Interpreter.

(** [example/example_ai_model/aeg/res18sw/sw/transactionsubmit.h:500-518] [executeRuntimeControl_TXN]
    the linked-in transaction; a buffer without an entry in [external_map] has address zero *)
Definition executeRuntimeControl_TXN `{rt : AieRt} {F : TxnFormat} (base : Z) (external_map : gmap Z Z)
    (fuel : nat) (ml_txn_bin : list Z) : M unit :=
  XAie_SubmitSerializedTransaction {| check_tiles := false; read_blocks := false; flush_patch := true |}
    base (fun id => default 0 (external_map !! s32 id)) fuel ml_txn_bin.

(** [example/example_ai_model/adf/resnet18v1/transactionsubmit.h:68-225] [XAie_SubmitSerializedTransaction]
    the hardware build; [getExternalBufferAddress] is a function of the graph library *)
Definition submit_resnet18v1 `{rt : AieRt} {F : TxnFormat} (getExternalBufferAddress : Z -> Z)
    (fuel : nat) (p : list Z) : M unit :=
  XAie_SubmitSerializedTransaction {| check_tiles := true; read_blocks := true; flush_patch := false |}
    0x20000000000 getExternalBufferAddress fuel p.

(** * Files *)
Section Files.
Context {F : TxnFormat}.

(** [example/example_ai_model/aeg/res18sw/sw/mladfpatch/baremetal/ml_txn/generated-source/gen_txn.cpp:24-38] [WriteSerializedTransactionToBin]
    the contents of the file; reading past the memory is undefined *)
Definition WriteSerializedTransactionToBin (p : list Z) : option (list Z) :=
  let n := Z.to_nat (get h_TxnSize p) in
  if (length p <? n)%nat then None else Some (take n p).

(** [example/example_ai_model/aeg/res18sw/sw/transactionsubmit.h:476-499] [ReadSerializedTransactionFromBin]
    A buffer smaller than the header is overrun ([None]).  The header object is zeroed before it is
    read; [junk] is what [new] leaves in the buffer where the file is too short. *)
Definition ReadSerializedTransactionFromBin (junk : nat -> Z) (file : list Z) : option (list Z) :=
  let hdr := take sizeof_TxnHeader file ++ replicate (sizeof_TxnHeader - length file) 0 in
  let size := Z.to_nat (get h_TxnSize hdr) in
  if (size <? sizeof_TxnHeader)%nat then None
  else
    let body := take (size - sizeof_TxnHeader) (drop sizeof_TxnHeader file) in
    Some (hdr ++ body ++ map junk (seq (length (hdr ++ body)) (size - length (hdr ++ body)))).
End Files.

(** * The printer *)

(** A line of the dump, with the numbers printed. *)
Inductive dump_line :=
| D_op (Op i : Z)
| D_W (addr value size : Z)
| D_MW (addr mask value size : Z)
| D_MP (addr mask value size : Z)
| D_BLOCK
| D_patch (extBufId regaddr val : Z)
| D_TCT (word Col ColNum Row RowNum ChNum Dir : Z)
| D_error.

Section Printer.
Context {F : TxnFormat}.
Definition dump_base : Z := 0x20000000000.

(** [example/testut/txn.h:111-122] [PrintSerializedTransaction] a token operation *)
Definition dump_tct (p : list Z) : dump_line :=
  let op := drop sizeof_CustomOp p in
  let word := get (mkF 0 4) op in
  let config := get (mkF 4 4) op in
  D_TCT word (u8 (Z.shiftr (Z.land word 0x00FF0000) 16)) (u8 (Z.shiftr (Z.land config 0x00FF0000) 16))
    (u8 (Z.shiftr (Z.land word 0x0000FF00) 8)) (u8 (Z.shiftr (Z.land config 0x0000FF00) 8))
    (u8 (Z.shiftr (Z.land config 0xFF000000) 24))
    (if Z.land word 0x000000FF =? 0 then DMA_S2MM else DMA_MM2S).

(** [example/testut/txn.h:46-135] [PrintSerializedTransaction] the body of the loop: what is printed
    after the code, and by how much the pointer moves *)
Definition dump_at (p : list Z) : list dump_line * Z :=
  let Op := get o_Op p in
  if Op =? XAIE_IO_WRITE then
    ([D_W (u64 (get w_RegOff p + dump_base)) (get w_Value p) (get w_Size p)], get w_Size p)
  else if Op =? XAIE_IO_MASKWRITE then
    ([D_MW (u64 (get mw_RegOff p + dump_base)) (get mw_Mask p) (get mw_Value p) (get mw_Size p)], get mw_Size p)
  else if Op =? XAIE_IO_MASKPOLL then
    ([D_MP (u64 (get mp_RegOff p + dump_base)) (get mp_Mask p) (get mp_Value p) (get mp_Size p)], get mp_Size p)
  else if Op =? XAIE_IO_BLOCKWRITE then
    (D_BLOCK :: map (fun '(i, w) => D_W (u64 (get bw_RegOff p + dump_base + i * 4)) w (get bw_Size p))
       (block_words p), get bw_Size p)
  else if Op =? XAIE_IO_CUSTOM_OP_BEGIN + 1 then
    let op := drop sizeof_CustomOp p in
    ([D_patch (get p_extBufId op) (u64 (get p_regAddr op + dump_base)) (get old_argplus op)], get co_Size p)
  else if Op =? XAIE_IO_CUSTOM_OP_TCT then ([dump_tct p], get co_Size p)
  else if (XAIE_IO_CUSTOM_OP_BEGIN <? Op) && (Op <? XAIE_IO_CUSTOM_OP_MAX) then ([], get co_Size p)
  else ([D_error], 0).

Fixpoint dump_ops (n : nat) (i : Z) (p : list Z) : list dump_line :=
  match n with
  | O => []
  | S n => let '(ls, adv) := dump_at p in
           D_op (get o_Op p) i :: ls ++ dump_ops n (i + 1) (drop (Z.to_nat adv) p)
  end.

(** [example/testut/txn.h:34-136] [PrintSerializedTransaction] after the lines of the header *)
Definition PrintSerializedTransaction (p : list Z) : list dump_line :=
  dump_ops (Z.to_nat (get h_NumOps p)) 0 (drop sizeof_TxnHeader p).
End Printer.

(** * Transactions as sequences of operations *)

Inductive txn_op :=
| TWrite (off value : Z)
| TMaskWrite (off mask value : Z)
| TMaskPoll (off mask value : Z)
| TBlockWrite (off : Z) (words : list Z)
| TPatch (regAddr extBufId extBufLen argplus : Z)
| TSkip.

(** [f] lies inside the structure [b]. *)
Definition inside (f : field) (b : list Z) : Prop := (f_off f + f_width f <= length b)%nat.
(** The field of the structure has the value. *)
Definition has (b : list Z) (f : field) (x : Z) : Prop := inside f b /\ get f b = x.

Lemma get_app f b t : inside f b -> get f (b ++ t) = get f b.
Proof.
  intros H; unfold get, inside in *; rewrite drop_app_le by lia.
  rewrite take_app_le; [done|]; rewrite length_drop; lia.
Qed.

Lemma has_app b f x t : has b f x -> get f (b ++ t) = x.
Proof. intros [H1 H2]; by rewrite get_app. Qed.

Lemma words_cons w ws : flat_map (le_bytes 4) (w :: ws) = le_bytes 4 w ++ flat_map (le_bytes 4) ws.
Proof. done. Qed.

Lemma words_length ws : length (flat_map (le_bytes 4) ws) = (4 * length ws)%nat.
Proof.
  induction ws as [|w ws IH]; [done|]; rewrite words_cons.
  rewrite length_app, le_bytes_length, IH; simpl; lia.
Qed.

Section Spec.
Context `{rt : AieRt} {F : TxnFormat}.
Context (v : variant) (base : Z) (ext : Z -> Z) (fuel : nat).

(** What an operation does. *)
Definition exec_op (o : txn_op) : M unit :=
  match o with
  | TWrite off x => AIE_Write32 (base + off) x
  | TMaskWrite off mask x => mask_write (base + off) mask x
  | TMaskPoll off mask x => mask_poll fuel (base + off) mask x
  | TBlockWrite off ws => block_write v (off + base) (zip (seqZ 0 (Z.of_nat (length ws))) ws)
  | TPatch reg id n plus => patch v base ext reg id n plus
  | TSkip => ret tt
  end.

Definition exec_ops (os : list txn_op) : M unit := for_each (fun o _ => exec_op o) os tt.

Definition plain_codes : list Z :=
  [XAIE_IO_WRITE; XAIE_IO_MASKWRITE; XAIE_IO_MASKPOLL; XAIE_IO_BLOCKWRITE; XAIE_IO_CUSTOM_OP_DDR_PATCH].

(** The bytes [b] are the operation: its structure with its data, whose size is the one it
    states. *)
Inductive encodes : txn_op -> list Z -> Prop :=
| enc_write b off x :
    has b o_Op XAIE_IO_WRITE -> has b w_RegOff off -> has b w_Value x ->
    has b w_Size (Z.of_nat (length b)) -> encodes (TWrite off x) b
| enc_mask_write b off mask x :
    has b o_Op XAIE_IO_MASKWRITE -> has b mw_RegOff off -> has b mw_Mask mask -> has b mw_Value x ->
    has b mw_Size (Z.of_nat (length b)) -> encodes (TMaskWrite off mask x) b
| enc_mask_poll b off mask x :
    has b o_Op XAIE_IO_MASKPOLL -> has b mp_RegOff off -> has b mp_Mask mask -> has b mp_Value x ->
    has b mp_Size (Z.of_nat (length b)) -> encodes (TMaskPoll off mask x) b
| enc_block h off ws :
    has h o_Op XAIE_IO_BLOCKWRITE -> has h bw_RegOff off -> length h = sizeof_BlockWrite ->
    has h bw_Size (Z.of_nat (sizeof_BlockWrite + 4 * length ws)) ->
    Forall (fun w => 0 <= w < 2 ^ 32) ws -> Z.of_nat (length ws) < 2 ^ 31 ->
    encodes (TBlockWrite off ws) (h ++ flat_map (le_bytes 4) ws)
| enc_patch h op reg id n plus :
    has h o_Op XAIE_IO_CUSTOM_OP_DDR_PATCH -> length h = sizeof_CustomOp ->
    has h co_Size (Z.of_nat (length (h ++ op))) ->
    has op p_regAddr reg -> has op p_extBufId id -> has op p_extBufLen n ->
    has op (if flush_patch v then p_argplus else old_argplus) plus ->
    encodes (TPatch reg id n plus) (h ++ op)
| enc_skip b code :
    has b o_Op code -> code ∉ plain_codes ->
    XAIE_IO_CUSTOM_OP_BEGIN < code < XAIE_IO_CUSTOM_OP_MAX ->
    has b co_Size (Z.of_nat (length b)) -> encodes TSkip b.

(** The enumerators are different. *)
Context (Hcodes : NoDup plain_codes).

Lemma codes_neq (i j : nat) x y :
  plain_codes !! i = Some x -> plain_codes !! j = Some y -> i <> j -> (x =? y) = false.
Proof. intros Hx Hy Hij; apply Z.eqb_neq; intros ->; apply Hij; by eapply NoDup_lookup. Qed.

Lemma block_words_eq h off ws t :
  has h bw_RegOff off -> length h = sizeof_BlockWrite ->
  has h bw_Size (Z.of_nat (sizeof_BlockWrite + 4 * length ws)) ->
  Forall (fun w => 0 <= w < 2 ^ 32) ws -> Z.of_nat (length ws) < 2 ^ 31 ->
  block_words ((h ++ flat_map (le_bytes 4) ws) ++ t) = zip (seqZ 0 (Z.of_nat (length ws))) ws.
Proof.
  intros _ Hl Hs Hw Hn; unfold block_words; rewrite <- app_assoc, (has_app _ _ _ _ Hs).
  replace (u64 _ / 4) with (Z.of_nat (length ws)).
  2: { replace (Z.of_nat (sizeof_BlockWrite + 4 * length ws) - Z.of_nat sizeof_BlockWrite)
         with (Z.of_nat (length ws) * 4) by lia.
       rewrite wrap_u_small by lia; symmetry; apply Z.div_mul; lia. }
  rewrite wrap_s_small by lia.
  apply list_eq; intros i; rewrite list_lookup_fmap, lookup_zip_with.
  destruct (decide (i < length ws)%nat) as [Hi|Hi].
  2: { rewrite lookup_seqZ_ge by lia; done. }
  rewrite lookup_seqZ_lt by lia; cbn -[le_bytes le_val Nat.mul Nat.add get].
  destruct (lookup_lt_is_Some_2 ws i Hi) as [w Hw']; rewrite Hw'; cbn -[le_bytes le_val Nat.mul Nat.add get].
  do 2 f_equal; rewrite Z.add_0_l, Nat2Z.id; unfold get; cbn [f_off f_width].
  rewrite <- Hl, drop_app_ge, Nat.add_comm, Nat.add_sub by lia.
  rewrite <- (take_drop_middle ws i w Hw'), flat_map_app, words_cons.
  assert (Hlen : length (flat_map (le_bytes 4) (take i ws)) = (4 * i)%nat).
  { rewrite words_length, length_take; lia. }
  rewrite <- !app_assoc, drop_app_ge, Hlen, Nat.sub_diag by lia; rewrite drop_0.
  rewrite take_app_le, take_ge by (rewrite ?le_bytes_length; lia).
  rewrite le_val_bytes; apply Z.mod_small; rewrite Forall_lookup in Hw; exact (Hw _ _ Hw').
Qed.

(** One operation: the interpreter performs it and moves behind it. *)
Lemma step_encoded o b t h :
  encodes o b -> step_at v base ext fuel (b ++ t) h = (exec_op o ;;; ret (Z.of_nat (length b))) h.
Proof.
  intros He; unfold step_at; cbv zeta; destruct He as
    [b off x Ho H1 H2 Hz|b off m x Ho H1 H2 H3 Hz|b off m x Ho H1 H2 H3 Hz|hd off ws Ho H1 Hl Hz Hw Hn
    |hd op reg id n plus Ho Hl Hz H1 H2 H3 H4|b code Ho Hc Hr Hz].
  - rewrite (has_app _ _ _ _ Ho), Z.eqb_refl, (has_app _ _ _ _ H1), (has_app _ _ _ _ H2), (has_app _ _ _ _ Hz); done.
  - rewrite (has_app _ _ _ _ Ho), (codes_neq 1 0), Z.eqb_refl, (has_app _ _ _ _ H1), (has_app _ _ _ _ H2),
      (has_app _ _ _ _ H3), (has_app _ _ _ _ Hz) by (done || lia); done.
  - rewrite (has_app _ _ _ _ Ho), (codes_neq 2 0), (codes_neq 2 1), Z.eqb_refl, (has_app _ _ _ _ H1),
      (has_app _ _ _ _ H2), (has_app _ _ _ _ H3), (has_app _ _ _ _ Hz) by (done || lia); done.
  - rewrite (block_words_eq _ _ _ _ H1 Hl Hz Hw Hn), <- app_assoc.
    rewrite (has_app _ _ _ _ Ho), (codes_neq 3 0), (codes_neq 3 1), (codes_neq 3 2), Z.eqb_refl,
      (has_app _ _ _ _ H1), (has_app _ _ _ _ Hz) by (done || lia).
    replace (length (hd ++ flat_map (le_bytes 4) ws)) with (sizeof_BlockWrite + 4 * length ws)%nat; [done|].
    by rewrite length_app, Hl, words_length.
  - rewrite <- app_assoc, drop_app_ge, Hl, Nat.sub_diag, drop_0 by lia.
    rewrite (has_app _ _ _ _ Ho), (codes_neq 4 0), (codes_neq 4 1), (codes_neq 4 2), (codes_neq 4 3), Z.eqb_refl,
      (has_app _ _ _ _ H1), (has_app _ _ _ _ H2), (has_app _ _ _ _ H3), (has_app _ _ _ _ H4),
      (has_app _ _ _ _ Hz) by (done || lia); done.
  - rewrite (has_app _ _ _ _ Ho), (has_app _ _ _ _ Hz).
    unfold plain_codes in Hc; rewrite !not_elem_of_cons in Hc; destruct_and! Hc.
    rewrite !(proj2 (Z.eqb_neq code _)) by done.
    rewrite (proj2 (Z.ltb_lt _ _) (proj1 Hr)), (proj2 (Z.ltb_lt _ _) (proj2 Hr)); done.
Qed.

(** The operations from the [i]-th on, with the checks of the tiles between them. *)
Fixpoint run_ops (i : Z) (os : list txn_op) : M unit :=
  match os with
  | [] => ret tt
  | o :: os =>
      check_at v base i ;;;
      exec_op o ;;; run_ops (i + 1) os
  end.

(** A prefix of encoded operations is performed, and the loop goes on behind it. *)
Lemma submit_encoded os bs t n : Forall2 encodes os bs -> forall i h,
  submit_ops v base ext fuel (length os + n) i (concat bs ++ t) h =
  (run_ops i os ;;; submit_ops v base ext fuel n (i + Z.of_nat (length os)) t) h.
Proof.
  induction 1 as [|o b os bs He Hf IH]; intros i h; simpl.
  { rewrite Z.add_0_r; done. }
  rewrite !bind_assoc; unfold bind at 1 3; destruct (check_at v base i h) as [[[] h1]|]; [|done].
  rewrite <- app_assoc; unfold bind at 1; rewrite (step_encoded _ _ _ _ He); unfold bind at 1.
  rewrite bind_assoc; unfold bind at 1; destruct (exec_op o h1) as [[[] h2]|]; [|done].
  unfold ret at 1; rewrite Nat2Z.id, drop_app_length, IH.
  replace (i + 1 + Z.of_nat (length os)) with (i + Z.of_nat (S (length os))) by lia; done.
Qed.

Lemma submit_transaction hdr os bs t h :
  length hdr = sizeof_TxnHeader -> has hdr h_NumOps (Z.of_nat (length os)) -> Forall2 encodes os bs ->
  XAie_SubmitSerializedTransaction v base ext fuel (hdr ++ concat bs ++ t) h = run_ops 0 os h.
Proof.
  intros Hl Hn Hf; unfold XAie_SubmitSerializedTransaction.
  rewrite (has_app _ _ _ _ Hn), Nat2Z.id, <- Hl, drop_app_length.
  unfold bind; rewrite <- (Nat.add_0_r (length os)), (submit_encoded _ _ _ _ Hf); unfold bind.
  destruct (run_ops 0 os h) as [[[] h']|]; done.
Qed.

(** ** An operation the interpreter does not know *)

Definition unknown (p : list Z) : Prop :=
  ~ (get o_Op p ∈ plain_codes) /\
  ~ (XAIE_IO_CUSTOM_OP_BEGIN < get o_Op p < XAIE_IO_CUSTOM_OP_MAX).

Lemma step_unknown p h : unknown p -> step_at v base ext fuel p h = Some (0, h).
Proof.
  intros [Hc Hr]; unfold step_at; unfold plain_codes in Hc; rewrite !not_elem_of_cons in Hc.
  destruct_and! Hc; rewrite !(proj2 (Z.eqb_neq (get o_Op p) _)) by done.
  destruct (Z.ltb_spec XAIE_IO_CUSTOM_OP_BEGIN (get o_Op p)), (Z.ltb_spec (get o_Op p) XAIE_IO_CUSTOM_OP_MAX);
    try done; lia.
Qed.

Lemma submit_unknown p n : check_tiles v = false -> unknown p -> forall i h,
  submit_ops v base ext fuel n i p h = Some (p, h).
Proof.
  intros Hv Hu; induction n as [|n IH]; intros i h; simpl; [done|].
  unfold bind at 1, check_at; rewrite Hv; simpl.
  rewrite (bind_Some _ _ _ _ _ (step_unknown _ _ Hu)); apply IH.
Qed.

(** an operation code the interpreter does not know is reported on the console but not skipped:
    the pointer stays on it, so the transaction's remaining iterations all meet the same code.
    Whatever follows it in the transaction, however many operations that are, is never executed,
    and the caller is not told: the call returns exactly as if the transaction ended there. *)
Theorem unknown_operation_ends_transaction hdr os bs t N h :
  check_tiles v = false -> length hdr = sizeof_TxnHeader -> has hdr h_NumOps N ->
  Forall2 encodes os bs -> Z.of_nat (length os) < N -> unknown t ->
  XAie_SubmitSerializedTransaction v base ext fuel (hdr ++ concat bs ++ t) h = run_ops 0 os h.
Proof.
  intros Hv Hl Hn Hf Hlt Hu; unfold XAie_SubmitSerializedTransaction.
  rewrite (has_app _ _ _ _ Hn), <- Hl, drop_app_length; unfold bind.
  replace (Z.to_nat N) with (length os + (Z.to_nat N - length os))%nat by lia.
  rewrite (submit_encoded _ _ _ _ Hf); unfold bind.
  destruct (run_ops 0 os h) as [[[] h']|]; [|done]; by rewrite submit_unknown.
Qed.
End Spec.

(** * The array as registers

    The abstract machine: a register file that every operation changes, and a poll that holds or
    does not. *)
Definition regs : Type := Z -> Z.
Definition upd (r : regs) (a x : Z) : regs := fun b => if b =? a then x else r b.
Definition put (r : regs) (a x : Z) : regs := upd r (u64 a) (u32 x).

Section Registers.
Context (base : Z) (ext : Z -> Z).

Definition apply_op (o : txn_op) (r : regs) : option regs :=
  match o with
  | TWrite off x => Some (put r (base + off) x)
  | TMaskWrite off mask x =>
      Some (put r (base + off) (Z.lor (Z.land (r (u64 (base + off))) (Z.lxor mask 0xFFFFFFFF)) x))
  | TMaskPoll off mask x => if Z.land (r (u64 (base + off))) mask =? x then Some r else None
  | TBlockWrite off ws =>
      Some (fold_left (fun r '(i, w) => put r (off + base + i * 4) w)
              (zip (seqZ 0 (Z.of_nat (length ws))) ws) r)
  | TPatch reg id n plus =>
      let a := u64 (ext id + plus) in
      if a =? 0 then Some r
      else
        let r1 := put r (reg + base) (Z.land a 0xFFFFFFFFC) in
        Some (put r1 (reg + base + 4)
                (Z.lor (Z.land (r1 (u64 (reg + base + 4))) 0xFFFF0000) (Z.shiftr a 32)))
  | TSkip => Some r
  end.
Fixpoint apply_ops (os : list txn_op) (r : regs) : option regs :=
  match os with
  | [] => Some r
  | o :: os => match apply_op o r with Some r => apply_ops os r | None => None end
  end.
End Registers.

(** The registers after a history of accesses. *)
Definition access (r : regs) (e : Driver.event) : regs :=
  match fst e with Xil_Out32 a x => upd r a (u32 x) | _ => r end.
Definition regs_after (r : regs) (h : hist) : regs := fold_left access h r.

Lemma regs_after_snoc r h c x : regs_after r (h ++ [(c, x)]) = access (regs_after r h) (c, x).
Proof. unfold regs_after; by rewrite fold_left_app. Qed.

Section Machine.
Context `{rt : AieRt} {F : TxnFormat}.
Context (v : variant) (base : Z) (ext : Z -> Z) (fuel : nat) (r0 : regs).
(** A register answers what was last written to it. *)
Context (Hmem : forall h a, u32 (out (drv h (Xil_In32 a))) = regs_after r0 h a).

Abbreviation R := (regs_after r0).

Lemma write_regs a x h : exists h', AIE_Write32 a x h = Some (tt, h') /\ R h' = put (R h) a x.
Proof.
  eexists; split; [reflexivity|]; rewrite regs_after_snoc; unfold access, put; simpl.
  by rewrite wrap_u_idemp by lia.
Qed.

Lemma read_regs a h : exists h', AIE_Read32 a h = Some (R h (u64 a), h') /\ R h' = R h.
Proof.
  eexists; split; [unfold AIE_Read32, bind, exec, ret; rewrite Hmem; reflexivity|].
  by rewrite regs_after_snoc.
Qed.

(** [m] returns and leaves the registers [r']. *)
Definition leaves (m : M unit) (h : hist) (r' : regs) : Prop := exists h', m h = Some (tt, h') /\ R h' = r'.

Lemma leaves_ret h : leaves (ret tt) h (R h).
Proof. by exists h. Qed.

Lemma leaves_write a x h : leaves (AIE_Write32 a x) h (put (R h) a x).
Proof. apply write_regs. Qed.

Lemma leaves_bind m k h r1 r2 :
  leaves m h r1 -> (forall h1, R h1 = r1 -> leaves k h1 r2) -> leaves (m ;;; k) h r2.
Proof.
  intros (h1 & E & H1) Hk; destruct (Hk h1 H1) as (h2 & E2 & H2).
  exists h2; unfold bind; rewrite E, E2; done.
Qed.

Lemma leaves_read a k h r' :
  (forall h1, R h1 = R h -> leaves (k (R h (u64 a))) h1 r') -> leaves (x <-- AIE_Read32 a ;; k x) h r'.
Proof.
  intros Hk; destruct (read_regs a h) as (h1 & E & H1), (Hk h1 H1) as (h2 & E2 & H2).
  exists h2; unfold bind; rewrite E, E2; done.
Qed.

Lemma leaves_read_back n a w : forall x h, leaves (read_back n a w x) h (R h).
Proof.
  induction n as [|n IH]; intros x h; simpl; destruct (x =? w); try apply leaves_ret.
  apply leaves_read; intros h1 <-; apply IH.
Qed.

Lemma leaves_for_each {A} (f : A -> M unit) l : (forall a h, leaves (f a) h (R h)) ->
  forall h, leaves (for_each (fun a _ => f a) l tt) h (R h).
Proof.
  intros Hf; induction l as [|a l IH]; intros h; simpl; [apply leaves_ret|].
  destruct (Hf a h) as (h1 & E & <-), (IH h1) as (h2 & E2 & H2).
  exists h2; unfold bind; rewrite E; done.
Qed.

Lemma leaves_tile_check h : leaves (aie_tile_check base) h (R h).
Proof.
  unfold aie_tile_check; revert h; do 2 (apply leaves_for_each; intros ?); intros h.
  apply leaves_read; intros ? <-; apply leaves_ret.
Qed.

Lemma leaves_block a ws : forall h,
  leaves (block_write v a ws) h (fold_left (fun r '(i, w) => put r (a + i * 4) w) ws (R h)).
Proof.
  unfold block_write; induction ws as [|[i w] ws IH]; intros h; simpl; [apply leaves_ret|].
  assert (H : leaves (AIE_Write32 (a + i * 4) w ;;;
                if read_blocks v then read_back 5 (a + i * 4) w 0 else ret tt) h (put (R h) (a + i * 4) w)).
  { eapply leaves_bind; [apply leaves_write|]; intros h1 <-.
    destruct (read_blocks v); [apply leaves_read_back|apply leaves_ret]. }
  destruct H as (h1 & E & <-), (IH h1) as (h2 & E2 & H2); exists h2; by rewrite (bind_Some _ _ _ _ _ E).
Qed.

(** An operation changes the registers as the abstract machine says; a poll that does not hold
    never ends. *)
Lemma exec_op_regs o h : (0 < fuel)%nat ->
  match apply_op base ext o (R h) with
  | Some r' => leaves (exec_op v base ext fuel o) h r'
  | None => exec_op v base ext fuel o h = None
  end.
Proof.
  intros Hfuel; destruct o as [off x|off mask x|off mask x|off ws|reg id n plus|]; simpl.
  - apply leaves_write.
  - apply leaves_read; intros h1 <-; eapply leaves_bind; [apply leaves_write|]; intros h2 <-.
    apply leaves_read; intros h3 <-; apply leaves_ret.
  - destruct (_ =? x) eqn:E.
    + destruct fuel as [|n]; [lia|]; simpl; apply leaves_read; intros h1 H1.
      rewrite E, <- H1; apply leaves_ret.
    + clear Hfuel; revert h E; induction fuel as [|n IH]; intros h E; [done|]; simpl.
      destruct (read_regs (base + off) h) as (h1 & E1 & H1); unfold bind; rewrite E1, E.
      apply IH; by rewrite H1.
  - apply leaves_block.
  - unfold patch; set (a := u64 (ext id + plus)).
    assert (Hf : leaves (if flush_patch v then exec_ (Xil_DCacheFlushRange a (u64 (n * 4))) else ret tt) h (R h)).
    { destruct (flush_patch v); [|apply leaves_ret]; eexists; split; [reflexivity|]; by rewrite regs_after_snoc. }
    destruct (a =? 0); (eapply leaves_bind; [exact Hf|]; intros h1 H1); [rewrite <- H1; apply leaves_ret|].
    rewrite <- H1; eapply leaves_bind; [apply leaves_write|]; intros h2 <-.
    apply leaves_read; intros h3 <-; apply leaves_write.
  - apply leaves_ret.
Qed.

Lemma run_ops_regs os : (0 < fuel)%nat -> forall i h,
  match apply_ops base ext os (R h) with
  | Some r' => leaves (run_ops v base ext fuel i os) h r'
  | None => run_ops v base ext fuel i os h = None
  end.
Proof.
  intros Hfuel; induction os as [|o os IH]; intros i h; simpl; [apply leaves_ret|].
  assert (Hc : leaves (check_at v base i) h (R h)).
  { unfold check_at; destruct (_ && _); [apply leaves_tile_check|apply leaves_ret]. }
  destruct Hc as (h1 & E1 & H1); rewrite <- H1; pose proof (exec_op_regs o h1 Hfuel) as Ho.
  destruct (apply_op base ext o (R h1)) as [r'|]; unfold leaves, bind; rewrite E1.
  - destruct Ho as (h2 & E2 & <-); rewrite E2; apply IH.
  - by rewrite Ho.
Qed.

(** C19: on an array whose registers answer what was last written to them, submitting a serialized
    transaction of any operations does to the registers exactly what the operations say one after
    the other (writes, masked writes, blocks of words, buffer addresses patched into two
    registers), and returns; memory behind the transaction is never looked at.  If a poll is
    reached whose condition does not hold, the call never returns, however long one waits: the
    interpreter has no timeout. *)
Theorem submit_refines_registers hdr os bs t h :
  NoDup plain_codes -> (0 < fuel)%nat ->
  length hdr = sizeof_TxnHeader -> has hdr h_NumOps (Z.of_nat (length os)) -> Forall2 (encodes v) os bs ->
  match apply_ops base ext os (R h) with
  | Some r' => exists h', XAie_SubmitSerializedTransaction v base ext fuel (hdr ++ concat bs ++ t) h = Some (tt, h') /\
                 regs_after r0 h' = r'
  | None => XAie_SubmitSerializedTransaction v base ext fuel (hdr ++ concat bs ++ t) h = None
  end.
Proof.
  intros Hc Hfuel Hl Hn Hf; rewrite (submit_transaction v base ext fuel Hc _ _ _ _ _ Hl Hn Hf).
  exact (run_ops_regs os Hfuel 0 h).
Qed.
End Machine.

(** ** The patched address *)

(** Keeping the bits from [k] to [n] with a mask. *)
Lemma field_mask k n x mask : 0 <= k -> 0 <= n -> mask = Z.ldiff (Z.ones n) (Z.ones k) ->
  Z.land x mask = Z.shiftl ((x mod 2 ^ n) / 2 ^ k) k.
Proof.
  intros Hk Hn ->; rewrite <- (Z.shiftr_div_pow2 _ k), <- Z.ldiff_ones_r, <- Z.land_ones by lia.
  apply Z.bits_inj'; intros i Hi; rewrite !Z.ldiff_spec, !Z.land_spec, Z.ldiff_spec.
  by rewrite andb_assoc.
Qed.

(** patching a buffer writes its address, without the two bits the hardware ignores, into the pair
    of registers: the low word gets the low 32 bits, the high word's lower half gets the bits
    above, its upper half keeps what it had, and no other register changes.  This holds for
    addresses below 2^48; a number that is not in the map of buffers has address zero, and then
    the offset alone is patched in as if it were an address. *)
Theorem patch_sets_address base (external_map : gmap Z Z) reg id n plus r :
  let ext := fun id => default 0 (external_map !! s32 id) in
  let a := u64 (ext id + plus) in
  0 < a < 2 ^ 48 -> 0 <= r (u64 (reg + base + 4)) < 2 ^ 32 ->
  u64 (reg + base) <> u64 (reg + base + 4) ->
  exists r', apply_op base ext (TPatch reg id n plus) r = Some r' /\
    let lo := r' (u64 (reg + base)) in let hi := r' (u64 (reg + base + 4)) in
    lo + 2 ^ 32 * (hi mod 2 ^ 16) = a - a mod 4 /\
    hi / 2 ^ 16 = r (u64 (reg + base + 4)) / 2 ^ 16 /\
    (forall b, b <> u64 (reg + base) -> b <> u64 (reg + base + 4) -> r' b = r b) /\
    (external_map !! s32 id = None -> a = u64 plus).
Proof.
  intros ext a Ha Hr Hne; eexists; split.
  { cbn [apply_op]; fold a; rewrite (proj2 (Z.eqb_neq a 0)) by lia; reflexivity. }
  set (old := r (u64 (reg + base + 4))) in *; cbv zeta.
  assert (Hlo : forall x y, put (put r (reg + base) x) (reg + base + 4) y (u64 (reg + base)) = u32 x).
  { intros x y; unfold put, upd; rewrite (proj2 (Z.eqb_neq _ _) Hne), Z.eqb_refl; done. }
  assert (Hhi : forall x y, put (put r (reg + base) x) (reg + base + 4) y (u64 (reg + base + 4)) = u32 y)
    by (intros x y; unfold put, upd; rewrite Z.eqb_refl; done).
  assert (Hold : forall x, put r (reg + base) x (u64 (reg + base + 4)) = old).
  { intros x; unfold put, upd; rewrite (proj2 (Z.eqb_neq _ _)) by congruence; done. }
  rewrite Hlo, Hhi, Hold.
  assert (Hsh : 0 <= Z.shiftr a 32 < 2 ^ 16).
  { rewrite Z.shiftr_div_pow2 by lia; split; [apply Z.div_pos; lia|apply Z.div_lt_upper_bound; lia]. }
  rewrite (field_mask 16 32 old 0xFFFF0000) by (done || lia).
  assert (Hh : 0 <= (old mod 2 ^ 32) / 2 ^ 16 < 2 ^ 16) 
    by (rewrite Z.mod_small by lia; Z.to_euclidean_division_equations; lia).
  rewrite Z.lor_comm, lor_shiftl_add by lia; rewrite (wrap_u_small 32 (Z.shiftr a 32 + _)) by lia.
  unfold wrap_u; rewrite <- Z.land_ones, <- Z.land_assoc by lia.
  change (Z.land 0xFFFFFFFFC (Z.ones 32)) with 0xFFFFFFFC.
  rewrite (field_mask 2 32 a 0xFFFFFFFC), Z.shiftl_mul_pow2 by (done || lia).
  rewrite Z.shiftr_div_pow2, (Z.mod_small old) in * by lia.
  split_and!; [Z.to_euclidean_division_equations; lia|Z.to_euclidean_division_equations; lia| |].
  - intros b H1 H2; unfold put, upd; rewrite !(proj2 (Z.eqb_neq _ _)) by done; done.
  - intros Hn; unfold a, ext; by rewrite Hn.
Qed.

(** * Files and the printer *)
Section FileFacts.
Context {F : TxnFormat}.

(** a transaction written to a file is read back unchanged, whatever the new buffer held before:
    the bytes are exactly those of the transaction, header included. *)
Theorem transaction_file_roundtrip p f junk :
  (f_off h_TxnSize + f_width h_TxnSize <= sizeof_TxnHeader)%nat ->
  Z.of_nat sizeof_TxnHeader <= get h_TxnSize p ->
  WriteSerializedTransactionToBin p = Some f ->
  ReadSerializedTransactionFromBin junk f = Some f /\ f = take (Z.to_nat (get h_TxnSize p)) p.
Proof.
  intros Hin Hs; unfold WriteSerializedTransactionToBin; set (n := Z.to_nat (get h_TxnSize p)).
  destruct (Nat.ltb_spec (length p) n) as [|Hle]; [done|]; intros [= <-]; split; [|done].
  assert (Hsn : (sizeof_TxnHeader <= n)%nat) by (unfold n; lia).
  assert (Hlen : length (take n p) = n) by (rewrite length_take; lia).
  unfold ReadSerializedTransactionFromBin; rewrite take_take, Hlen, (Nat.min_l _ n) by lia.
  replace (sizeof_TxnHeader - n)%nat with 0%nat by lia; cbn [replicate]; rewrite app_nil_r.
  assert (Hg : get h_TxnSize (take sizeof_TxnHeader p) = get h_TxnSize p).
  { unfold get; rewrite <- (take_drop sizeof_TxnHeader p) at 2.
    rewrite drop_app_le, take_app_le; [done| |]; rewrite ?length_drop, ?length_take; lia. }
  rewrite Hg; fold n; destruct (Nat.ltb_spec n sizeof_TxnHeader) as [|_]; [lia|].
  rewrite (take_ge (drop sizeof_TxnHeader (take n p))) by (rewrite length_drop; lia).
  assert (E : take sizeof_TxnHeader p ++ drop sizeof_TxnHeader (take n p) = take n p).
  { rewrite <- (take_drop sizeof_TxnHeader (take n p)) at 2; by rewrite take_take, Nat.min_l by lia. }
  rewrite app_assoc, E, Hlen, Nat.sub_diag, app_nil_r; done.
Qed.
End FileFacts.

(** The words a dump shows as written and those a history wrote. *)
Definition shown_writes (ls : list dump_line) : list (Z * Z) :=
  omap (fun l => match l with D_W a x _ => Some (a, u32 x) | _ => None end) ls.
Definition made_writes (cs : list call) : list (Z * Z) :=
  omap (fun c => match c with Xil_Out32 a x => Some (a, x) | _ => None end) cs.

Definition is_plain_write (o : txn_op) : Prop :=
  match o with TWrite _ _ | TBlockWrite _ _ | TSkip => True | _ => False end.

Section DumpFacts.
Context `{rt : AieRt} {F : TxnFormat} (v : variant) (ext : Z -> Z) (fuel : nat).
Context (Hcodes : NoDup plain_codes) (Hnr : read_blocks v = false) (Hnc : check_tiles v = false).

Lemma block_write_calls a ws h :
  exists ks, block_write v a ws h = Some (tt, after h ks) /\
    made_writes ks = map (fun '(i, w) => (u64 (a + i * 4), u32 w)) ws.
Proof.
  exists (map (fun '(i, w) => Xil_Out32 (u64 (a + i * 4)) (u32 w)) ws); split.
  - unfold block_write; rewrite Hnr; revert h; induction ws as [|[i w] ws IH]; intros h; [by rewrite after_nil|].
    cbn [for_each map]; unfold AIE_Write32; unfold bind at 1 2; rewrite exec__eq.
    unfold ret at 1; rewrite IH, after_app; done.
  - induction ws as [|[i w] ws IH]; [done|]; cbn; f_equal; exact IH.
Qed.

(** What is printed for an encoded write or block. *)
Lemma dump_encoded o b t : encodes v o b -> is_plain_write o ->
  exists ls, dump_at (b ++ t) = (ls, Z.of_nat (length b)) /\
    forall h, exists ks, exec_op v dump_base ext fuel o h = Some (tt, after h ks) /\
      made_writes ks = shown_writes ls.
Proof.
  intros He Hp; unfold dump_at; cbv zeta; destruct He as
    [b off x Ho H1 H2 Hz|b off m x Ho H1 H2 H3 Hz|b off m x Ho H1 H2 H3 Hz|hd off ws Ho H1 Hl Hz Hw Hn
    |hd op reg id n plus Ho Hl Hz H1 H2 H3 H4|b code Ho Hc Hr Hz]; try done.
  - rewrite (has_app _ _ _ _ Ho), Z.eqb_refl, (has_app _ _ _ _ H1), (has_app _ _ _ _ H2), (has_app _ _ _ _ Hz).
    eexists; split; [done|]; intros h; eexists [_]; split; [reflexivity|].
    simpl; by rewrite Z.add_comm.
  - rewrite (block_words_eq _ _ _ _ H1 Hl Hz Hw Hn), <- app_assoc.
    rewrite (has_app _ _ _ _ Ho), (codes_neq Hcodes 3 0), (codes_neq Hcodes 3 1), (codes_neq Hcodes 3 2), Z.eqb_refl,
      (has_app _ _ _ _ H1), (has_app _ _ _ _ Hz) by (done || lia).
    eexists; split.
    { f_equal; rewrite length_app, Hl, words_length; done. }
    intros h; destruct (block_write_calls (off + dump_base) (zip (seqZ 0 (Z.of_nat (length ws))) ws) h)
      as (ks & E & Hk); exists ks; split; [exact E|]; rewrite Hk.
    generalize (zip (seqZ 0 (Z.of_nat (length ws))) ws); intros l; clear.
    unfold shown_writes; simpl; induction l as [|[i w] l IH]; [done|]; simpl; f_equal; exact IH.
  - rewrite (has_app _ _ _ _ Ho), (has_app _ _ _ _ Hz).
    unfold plain_codes in Hc; rewrite !not_elem_of_cons in Hc; destruct_and! Hc.
    rewrite !(proj2 (Z.eqb_neq code XAIE_IO_WRITE)), !(proj2 (Z.eqb_neq code XAIE_IO_MASKWRITE)),
      !(proj2 (Z.eqb_neq code XAIE_IO_MASKPOLL)), !(proj2 (Z.eqb_neq code XAIE_IO_BLOCKWRITE)) by done.
    rewrite (proj2 (Z.ltb_lt _ _) (proj1 Hr)), (proj2 (Z.ltb_lt _ _) (proj2 Hr)).
    assert (Hs : forall ls, shown_writes ls = [] -> exists ls', (ls, Z.of_nat (length b)) = (ls', Z.of_nat (length b)) /\
      forall h, exists ks, exec_op v dump_base ext fuel TSkip h = Some (tt, after h ks) /\ made_writes ks = shown_writes ls').
    { intros ls Hls; exists ls; split; [done|]; intros h; exists []; rewrite after_nil; done. }
    destruct (code =? _); [by apply Hs|]; destruct (code =? _); [by apply Hs|]; simpl; by apply Hs.
Qed.

(** for a transaction of register writes, blocks and skipped operations, the printer and the
    interpreter agree: the addresses and words the dump lists as written are, in order, exactly
    those the interpreter writes on the array at the same base address. *)
Theorem dump_shows_executed_writes hdr os bs t h :
  length hdr = sizeof_TxnHeader -> has hdr h_NumOps (Z.of_nat (length os)) ->
  Forall2 (encodes v) os bs -> Forall is_plain_write os ->
  exists ks, XAie_SubmitSerializedTransaction v dump_base ext fuel (hdr ++ concat bs ++ t) h = Some (tt, after h ks) /\
    made_writes ks = shown_writes (PrintSerializedTransaction (hdr ++ concat bs ++ t)).
Proof.
  intros Hl Hn Hf Hp; rewrite (submit_transaction v dump_base ext fuel Hcodes _ _ _ _ _ Hl Hn Hf).
  unfold PrintSerializedTransaction; rewrite (has_app _ _ _ _ Hn), Nat2Z.id, <- Hl, drop_app_length.
  assert (H : forall i h, exists ks, run_ops v dump_base ext fuel i os h = Some (tt, after h ks) /\
    made_writes ks = shown_writes (dump_ops (length os) i (concat bs ++ t))); [|apply H].
  clear Hl Hn h; induction Hf as [|o b os bs He Hf IH]; intros i h; cbn [run_ops dump_ops length concat].
  { exists []; rewrite after_nil; done. }
  inversion Hp as [|? ? Ho Hp']; subst; rewrite <- app_assoc.
  destruct (dump_encoded o b (concat bs ++ t) He Ho) as (ls & Ed & Hx); rewrite Ed.
  destruct (Hx h) as (k1 & E1 & W1), (IH Hp' (i + 1) (after h k1)) as (k2 & E2 & W2).
  exists (k1 ++ k2); split.
  - unfold check_at; rewrite Hnc; unfold bind, ret at 1; cbn [andb]; rewrite E1, E2, after_app; done.
  - rewrite Nat2Z.id, drop_app_length; unfold made_writes, shown_writes in *.
    cbn [omap list_omap]; by rewrite !omap_app, W1, W2.
Qed.
End DumpFacts.

(** * A concrete format and transaction *)

Definition demo_format : TxnFormat := {|
  sizeof_TxnHeader := 16; h_NumOps := mkF 8 4; h_TxnSize := mkF 12 4;
  o_Op := mkF 0 1;
  w_RegOff := mkF 8 8; w_Value := mkF 16 4; w_Size := mkF 20 4;
  mw_RegOff := mkF 8 8; mw_Value := mkF 16 4; mw_Mask := mkF 20 4; mw_Size := mkF 24 4;
  mp_RegOff := mkF 8 8; mp_Value := mkF 16 4; mp_Mask := mkF 20 4; mp_Size := mkF 24 4;
  sizeof_BlockWrite := 16; bw_RegOff := mkF 8 4; bw_Size := mkF 12 4;
  sizeof_CustomOp := 8; co_Size := mkF 4 4;
  XAIE_IO_WRITE := 0; XAIE_IO_BLOCKWRITE := 1; XAIE_IO_MASKWRITE := 3; XAIE_IO_MASKPOLL := 4;
  XAIE_IO_CUSTOM_OP_BEGIN := 128; XAIE_IO_CUSTOM_OP_MAX := 255;
  XAIE_IO_CUSTOM_OP_DDR_PATCH := 129; XAIE_IO_CUSTOM_OP_TCT := 128
|}.
#[local] Existing Instance demo_format.

Definition demo_hdr (n size : Z) : list Z := [1; 0; 4; 6; 5; 1; 0; 0] ++ le_bytes 4 n ++ le_bytes 4 size.
Definition demo_write (off x : Z) : list Z := le_bytes 8 0 ++ le_bytes 8 off ++ le_bytes 4 x ++ le_bytes 4 24.
Definition demo_poll (off mask x : Z) : list Z :=
  le_bytes 8 4 ++ le_bytes 8 off ++ le_bytes 4 x ++ le_bytes 4 mask ++ le_bytes 4 32 ++ le_bytes 4 0.
Definition demo_block (off : Z) (ws : list Z) : list Z :=
  (le_bytes 8 1 ++ le_bytes 4 off ++ le_bytes 4 (16 + 4 * Z.of_nat (length ws))) ++ flat_map (le_bytes 4) ws.
Definition demo_patch (reg id n plus : Z) : list Z :=
  (le_bytes 4 129 ++ le_bytes 4 56) ++
  le_bytes 8 0 ++ le_bytes 8 0 ++ le_bytes 8 reg ++ le_bytes 8 id ++ le_bytes 8 n ++ le_bytes 8 plus.

Definition demo_ops : list txn_op :=
  [TWrite 0x100 7; TMaskPoll 0x100 15 7; TBlockWrite 0x200 [1; 2]; TPatch 0x300 0 64 16].
Definition demo_bytes : list (list Z) :=
  [demo_write 0x100 7; demo_poll 0x100 15 7; demo_block 0x200 [1; 2]; demo_patch 0x300 0 64 16].
Definition demo_variant : variant := {| check_tiles := false; read_blocks := false; flush_patch := true |}.
Definition demo_ext (id : Z) : Z := 0x123456789A.
Definition zero_regs : regs := fun _ => 0.
Definition reg_rt : AieRt := {|
  drv := fun h c => match c with Xil_In32 a => mkResp 0 (regs_after zero_regs h a) [] | _ => mkResp 0 0 [] end;
  XAIE_ERR := 1; XAIE_CORE_STATUS_TIMEOUT := 12; XAIE_LOCK_WITH_NO_VALUE := -1;
  XAIE_DEV_GEN_AIE := 1; XAIE_DEV_GEN_AIEML := 2; XAIE_DEV_GEN_S100 := 6; XAIE_DEV_GEN_S200 := 7
|}.
#[local] Existing Instance reg_rt.

Lemma zero_regs_word h a : 0 <= regs_after zero_regs h a < 2 ^ 32.
Proof.
  induction h as [|[c x] h IH] using rev_ind; [done|]; rewrite regs_after_snoc.
  unfold access; destruct c; try exact IH; cbn [fst]; unfold upd.
  destruct (_ =? _); [apply (wrap_u_range 32); lia|exact IH].
Qed.

Lemma demo_has b f x : (f_off f + f_width f <=? length b)%nat && (get f b =? x) = true -> has b f x.
Proof. intros [H1%Nat.leb_le H2%Z.eqb_eq]%andb_true_iff; by split. Qed.

Lemma demo_encoded : Forall2 (encodes demo_variant) demo_ops demo_bytes.
Proof.
  repeat constructor; try (apply demo_has; vm_compute; reflexivity); try done; vm_compute; intuition congruence.
Qed.

Lemma demo_codes : NoDup (@plain_codes demo_format).
Proof. apply (bool_decide_unpack _); vm_compute; exact I. Qed.

(** The block's second word and the patched low word. *)
Lemma submit_refines_registers_witness :
  exists r' h', apply_ops 0x20000000000 demo_ext demo_ops zero_regs = Some r' /\
    XAie_SubmitSerializedTransaction demo_variant 0x20000000000 demo_ext 1
      (demo_hdr 4 184 ++ concat demo_bytes ++ []) [] = Some (tt, h') /\
    regs_after zero_regs h' = r' /\ r' 0x20000000204 = 2 /\ r' 0x20000000300 = 0x345678A8 /\
    r' 0x20000000304 = 0x12.
Proof.
  assert (Hmem : forall h a, u32 (out (drv h (Xil_In32 a))) = regs_after zero_regs h a)
    by (intros h a; apply wrap_u_small, zero_regs_word).
  pose proof (submit_refines_registers demo_variant 0x20000000000 demo_ext 1 zero_regs Hmem (demo_hdr 4 184)
    demo_ops demo_bytes [] [] demo_codes (Nat.lt_0_succ 0) eq_refl
    ltac:(apply demo_has; vm_compute; reflexivity) demo_encoded) as H.
  change (regs_after zero_regs []) with zero_regs in H.
  destruct (apply_ops 0x20000000000 demo_ext demo_ops zero_regs) as [r'|] eqn:E; [|discriminate E].
  destruct H as (h' & H1 & H2); exists r', h'; split; [reflexivity|]; split; [exact H1|]; split; [exact H2|].
  injection E as <-; repeat split; vm_compute; reflexivity.
Defined.

(** A write, an operation with code 9 and a second write, which is lost. *)
Lemma unknown_operation_ends_transaction_witness :
  XAie_SubmitSerializedTransaction demo_variant 0x20000000000 demo_ext 1
    (demo_hdr 3 88 ++ concat [demo_write 0x100 7] ++ (9 :: replicate 23 0) ++ demo_write 0x200 8) [] =
  Some (tt, after [] [Xil_Out32 0x20000000100 7]).
Proof.
  rewrite (unknown_operation_ends_transaction demo_variant 0x20000000000 demo_ext 1 demo_codes (demo_hdr 3 88)
    [TWrite 0x100 7] [demo_write 0x100 7] ((9 :: replicate 23 0) ++ demo_write 0x200 8) 3 []).
  - vm_compute; reflexivity.
  - reflexivity.
  - reflexivity.
  - apply demo_has; vm_compute; reflexivity.
  - repeat constructor; apply demo_has; vm_compute; reflexivity.
  - reflexivity.
  - split; [|vm_compute; intuition congruence].
    intros H; apply (bool_decide_pack _) in H; vm_compute in H; exact H.
Defined.

Lemma patch_sets_address_witness :
  exists r', apply_op 0x20000000000 (fun id => default 0 (({[0 := 0x123456789A]} : gmap Z Z) !! s32 id))
      (TPatch 0x300 0 64 16) zero_regs = Some r' /\
    r' 0x20000000300 + 2 ^ 32 * (r' 0x20000000304 mod 2 ^ 16) = 0x12345678A8.
Proof.
  destruct (patch_sets_address 0x20000000000 {[0 := 0x123456789A]} 0x300 0 64 16 zero_regs) as (r' & E & H & _).
  - vm_compute; split; reflexivity.
  - split; [discriminate|reflexivity].
  - vm_compute; discriminate.
  - exists r'; split; [exact E|]; exact H.
Defined.

Lemma transaction_file_roundtrip_witness :
  let p := demo_hdr 1 40 ++ demo_write 0x100 7 ++ [9; 9] in
  exists f, WriteSerializedTransactionToBin p = Some f /\ ReadSerializedTransactionFromBin (fun _ => 0xCD) f = Some f.
Proof.
  intros p; eexists; split; [vm_compute; reflexivity|].
  refine (proj1 (transaction_file_roundtrip p _ (fun _ => 0xCD) _ _ _)).
  - apply Nat.leb_le; reflexivity.
  - discriminate.
  - vm_compute; reflexivity.
Defined.

Lemma dump_shows_executed_writes_witness :
  exists ks, XAie_SubmitSerializedTransaction demo_variant dump_base demo_ext 1
      (demo_hdr 2 64 ++ concat [demo_write 0x100 7; demo_block 0x200 [1; 2]] ++ []) [] = Some (tt, after [] ks) /\
    made_writes ks = [(0x20000000100, 7); (0x20000000200, 1); (0x20000000204, 2)].
Proof.
  destruct (dump_shows_executed_writes demo_variant demo_ext 1 demo_codes eq_refl eq_refl (demo_hdr 2 64)
    [TWrite 0x100 7; TBlockWrite 0x200 [1; 2]] [demo_write 0x100 7; demo_block 0x200 [1; 2]] [] [])
    as (ks & E & H).
  - reflexivity.
  - apply demo_has; vm_compute; reflexivity.
  - repeat constructor; try (apply demo_has; vm_compute; reflexivity); try done; vm_compute; intuition congruence.
  - repeat constructor.
  - exists ks; split; [exact E|]; rewrite H; vm_compute; reflexivity.
Defined.
