(* ===== verification/KLog.v ===== *)
(** The kernels' log ([src/include/log]): a kernel appends lines to the last 4 KiB of its data
    memory ([klog.h]), the host reads them word by word ([klogr.h]).

    The log area is a memory of bytes addressed from its start.  Characters are their codes.  The
    header defines [DISABLE_LOG], which the model keeps as a parameter; printing is left out. *)
From stdpp Require Import base list.
From Stdlib Require Import ZArith Lia.
From S2P Require Import Prelude Driver.
Local Open Scope Z_scope.
Local Open Scope aeg_scope.

(** [src/include/log/kcommon.h:10-10] [LOG_MAX_LEN] *)
Definition LOG_MAX_LEN : Z := 4 * 1024.
(** [src/include/log/kcommon.h:14-14] [MAICMARK] *)
Definition MAICMARK : Z := 0xDEADFEEB.

(** Character codes. *)
Definition ch_semicolon : Z := 59.
Definition ch_space : Z := 32.
Definition ch_zero : Z := 48.

(** * Writing *)

Definition bmem : Type := Z -> Z.
Definition store (m : bmem) (a x : Z) : bmem := fun b => if b =? a then x else m b.
Fixpoint store_all (m : bmem) (a : Z) (bs : list Z) : bmem :=
  match bs with [] => m | b :: bs => store_all (store m a b) (a + 1) bs end.

(** [src/include/log/kcommon.h:12-13] [logmarked]
    The log area and the two counters. *)
Record klog := mkLog { kl_mem : bmem; logmarked : Z; log_offset : Z }.

(** [src/include/log/kcommon.h:51-54] [wlog_reset] *)
Definition wlog_reset (s : klog) : klog := mkLog (kl_mem s) 0 0.

(** [src/include/log/kcommon.h:46-49] [alignAddress] *)
Definition alignAddress (addr : Z) : Z := Z.land (u64 (addr + 3)) (Z.lnot 3).

(** [src/include/log/klog.h:60-65] [wlog] the loop over the digits, from the last place on *)
Fixpoint digits (places : nat) (value : Z) (str : list Z) : list Z :=
  match places with
  | O => str
  | S places => if value =? 0 then str else digits places (value / 10) (value mod 10 + ch_zero :: str)
  end.

(** [src/include/log/klog.h:52-66] [wlog] the number as text; [STR_MAX - 1] places *)
Definition number (value : Z) : list Z := if value =? 0 then [ch_zero] else digits 15 value [].

(** [src/include/log/klog.h:74-82] [wlog] the blanks up to the next word *)
Definition blanks (offset : Z) : list Z :=
  let bytesN := offset mod 4 in
  if bytesN =? 0 then [] else replicate (Z.to_nat (4 - bytesN)) ch_space.

(** [src/include/log/klog.h:9-85] [wlog]
    [format] is the text without its terminating zero. *)
Definition wlog (DISABLE_LOG : bool) (format : list Z) (value : Z) (s : klog) : klog :=
  if DISABLE_LOG then s
  else if u32 (LOG_MAX_LEN - 100) <=? log_offset s then s
  else
    let s := if logmarked s =? 0
             then mkLog (store_all (kl_mem s) 0 (le_bytes 4 MAICMARK)) 1 (u32 (log_offset s + 4)) else s in
    let text := format ++ number value ++ [ch_semicolon] in
    let m := store_all (kl_mem s) (log_offset s) text in
    let off := u32 (log_offset s + Z.of_nat (length text)) in
    let m := store_all m (log_offset s + Z.of_nat (length text)) (blanks off) in
    let off' := u32 (off + Z.of_nat (length (blanks off))) in
    mkLog (store m (log_offset s + Z.of_nat (length text) + Z.of_nat (length (blanks off))) 0)
      (logmarked s) off'.

(** * Reading *)

(** How a read ends: with the text, or by writing behind one of the two arrays. *)
Inductive rlog_result := rl_ok (log : list Z) | rl_str_overrun | rl_log_overrun.

(** [src/include/log/klogr.h:35-35] [STR_LOG_LEN] *)
Definition STR_LOG_LEN : Z := 1024 * 2.

(** The C string at the start of an array. *)
Fixpoint cstr (a : list Z) : list Z :=
  match a with [] => [] | c :: a => if c =? 0 then [] else c :: cstr a end.

(** [strcat] into the array of [STR_LOG_LEN] characters; [None] behind its end. *)
Definition strcat (log s : list Z) : option (list Z) :=
  if Z.of_nat (length log) + Z.of_nat (length s) <? STR_LOG_LEN then Some (log ++ s) else None.

Record rstate := mkR { r_str : list Z; r_index : nat; r_log : list Z }.

(** [src/include/log/klogr.h:66-80] [_rlog] one character *)
Definition read_char (c : Z) (s : rstate) : rstate + rlog_result :=
  if c =? ch_semicolon then
    let str := <[(if (256 <=? r_index s)%nat then 255 else r_index s)%nat := 0]> (r_str s) in
    let log :=
      if Z.of_nat (length (r_log s)) <? STR_LOG_LEN - 256 then
        match strcat (r_log s) (cstr str) with
        | Some log => strcat log [ch_semicolon]
        | None => None
        end
      else Some (r_log s) in
    match log with
    | Some log => inl (mkR (<[0%nat := 0]> str) 0 log)
    | None => inr rl_log_overrun
    end
  else if (r_index s <? 256)%nat then inl (mkR (<[r_index s := c]> (r_str s)) (S (r_index s)) (r_log s))
  else inr rl_str_overrun.

Fixpoint read_chars (cs : list Z) (s : rstate) : rstate + rlog_result :=
  match cs with
  | [] => inl s
  | c :: cs => match read_char c s with inl s => read_chars cs s | inr r => inr r end
  end.

(** [src/include/log/klogr.h:58-65] [_rlog] the end of a line that is too long *)
Definition read_break (s : rstate) : rlog_result :=
  if Z.of_nat (length (r_log s)) <? STR_LOG_LEN - 256 then
    match strcat (r_log s) (cstr (<[255%nat := 0]> (r_str s))) with
    | Some log => rl_ok log
    | None => rl_log_overrun
    end
  else rl_ok (r_log s).

Section Reader.
Context `{rt : AieRt} (func : Z -> M Z).

(** [src/include/log/klogr.h:57-82] [_rlog] the loop over the words *)
Fixpoint rlog_loop (fuel : nat) (address : Z) (s : rstate) : M rlog_result :=
  match fuel with
  | O => out_of_fuel
  | S fuel =>
      data <-- func address ;;
      if data =? 0 then ret (rl_ok (r_log s))
      else if (256 <=? r_index s)%nat then ret (read_break s)
      else match read_chars (le_bytes 4 data) s with
      | inl s => rlog_loop fuel (u64 (address + 4)) s
      | inr r => ret r
      end
  end.

(** [src/include/log/klogr.h:43-47] [_rlog] the simulator build: [count] more reads, whatever they
    answer *)
Fixpoint retry (count : nat) (address data : Z) : M Z :=
  match count with
  | O => ret data
  | S count => data <-- func address ;; exec_ (usleep 1000) ;;; retry count address data
  end.

(** [src/include/log/klogr.h:28-84] [_rlog] *)
Definition _rlog (AIESIM ZEPHYR : bool) (fuel : nat) (address : Z) : M rlog_result :=
  (if AIESIM || ZEPHYR then ret tt else exec_ (usleep 1)) ;;;
  data <-- func address ;;
  data <-- (if AIESIM && negb (data =? MAICMARK) then retry 2000 address data else ret data) ;;
  if negb (data =? MAICMARK) then ret (rl_ok [])
  else
    func (u64 (address + 4)) ;;;
    func (u64 (address + 8)) ;;;
    rlog_loop fuel (u64 (address + 4)) (mkR (replicate 256 0) 0 []).
End Reader.

(** [src/include/log/klogr.h:16-27] [_get_log_address] *)
Definition _get_log_address `{rt : AieRt} (DevGen : Z) : Z :=
  if DevGen =? XAIE_DEV_GEN_AIE then 0x8000 - LOG_MAX_LEN else 0x10000 - LOG_MAX_LEN.

(** [src/include/log/klogr.h:86-96] [aier] the address is cut to 32 bits *)
Definition aier `{rt : AieRt} (row col daddr : Z) : M Z :=
  r <-- exec (XAie_GetTileAddr row col) ;;
  v <-- exec (XAie_Read32 (u32 (out r + daddr))) ;;
  ret (u32 (out v)).

(** [src/include/log/klogr.h:97-97] [rlog] *)
Definition read_core_log `{rt : AieRt} (AIESIM ZEPHYR : bool) (DevGen : Z) (fuel : nat) (r c : Z) : M rlog_result :=
  _rlog (aier r c) AIESIM ZEPHYR fuel (_get_log_address DevGen).

(** * The arrays of the reader *)

Lemma strcat_length log s log' : strcat log s = Some log' -> log' = log ++ s /\ Z.of_nat (length log') < STR_LOG_LEN.
Proof.
  unfold strcat; destruct (Z.ltb_spec (Z.of_nat (length log) + Z.of_nat (length s)) STR_LOG_LEN); [|done].
  intros [= <-]; rewrite length_app; split; [done|lia].
Qed.

Lemma cstr_length a i : a !! i = Some 0 -> (length (cstr a) <= i)%nat.
Proof.
  revert i; induction a as [|c a IH]; intros [|i] H; simpl in *; try done.
  - injection H as ->; simpl; lia.
  - destruct (c =? 0); simpl; [lia|]; specialize (IH _ H); lia.
Qed.

(** A line of at most 255 characters fits once the log is short enough, semicolon included. *)
Lemma strcat_line log s : Z.of_nat (length log) < STR_LOG_LEN - 256 -> (length s <= 255)%nat ->
  exists log', strcat log s = Some log' /\ is_Some (strcat log' [ch_semicolon]).
Proof.
  unfold strcat, STR_LOG_LEN; intros Hl Hs.
  rewrite (proj2 (Z.ltb_lt _ _)) by lia; eexists; split; [done|].
  rewrite length_app; simpl length; rewrite (proj2 (Z.ltb_lt _ _)) by lia; eauto.
Qed.

Definition r_ok (s : rstate) : Prop := length (r_str s) = 256%nat.

Lemma read_char_safe c s : r_ok s ->
  match read_char c s with inl s' => r_ok s' | inr r => r = rl_str_overrun end.
Proof.
  intros Hs; unfold read_char, r_ok in *; destruct (c =? ch_semicolon).
  - set (i := (if (256 <=? r_index s)%nat then 255 else r_index s)%nat).
    assert (Hi : (i < 256)%nat) by (unfold i; destruct (Nat.leb_spec 256 (r_index s)); lia).
    assert (Hc : (length (cstr (<[i := 0%Z]> (r_str s))) <= 255)%nat).
    { etrans; [apply cstr_length, list_lookup_insert_eq; lia|lia]. }
    destruct (Z.ltb_spec (Z.of_nat (length (r_log s))) (STR_LOG_LEN - 256)) as [Hl|Hl].
    + destruct (strcat_line _ _ Hl Hc) as (log & -> & log' & ->); simpl; by rewrite !length_insert.
    + simpl; by rewrite !length_insert.
  - destruct (r_index s <? 256)%nat; simpl; [by rewrite length_insert|done].
Qed.

Lemma read_chars_safe cs : forall s, r_ok s ->
  match read_chars cs s with inl s' => r_ok s' | inr r => r = rl_str_overrun end.
Proof.
  induction cs as [|c cs IH]; intros s Hs; simpl; [done|].
  pose proof (read_char_safe c s Hs) as H; destruct (read_char c s) as [s'|r]; [by apply IH|done].
Qed.

Lemma rlog_loop_safe (func : Z -> M Z) fuel : forall address s h r h',
  r_ok s -> rlog_loop func fuel address s h = Some (r, h') -> r <> rl_log_overrun.
Proof.
  induction fuel as [|fuel IH]; intros address s h r h' Hs; cbn [rlog_loop]; [done|].
  intros (data & h1 & _ & H)%bind_inv; destruct (data =? 0); [unfold ret in H; by simplify_eq|].
  destruct (Nat.leb 256 (r_index s)).
  - unfold ret in H; injection H as <- _; unfold read_break.
    destruct (Z.ltb_spec (Z.of_nat (length (r_log s))) (STR_LOG_LEN - 256)) as [Hl|]; [|discriminate].
    assert (Hc : (length (cstr (<[255%nat := 0%Z]> (r_str s))) <= 255)%nat)
      by (apply cstr_length, list_lookup_insert_eq; unfold r_ok in Hs; lia).
    destruct (strcat_line _ _ Hl Hc) as (log & -> & _); discriminate.
  - pose proof (read_chars_safe (le_bytes 4 data) s Hs) as Hc.
    destruct (read_chars (le_bytes 4 data) s) as [s'|r']; [by eapply IH|].
    unfold ret in H; simplify_eq; done.
Qed.

(** whatever the memory of the tile holds and however the reads are answered, the log the host
    collects never runs over its 2 KiB array: a line is appended only while 256 characters are
    free, and it has at most 255 and its semicolon. *)
Theorem rlog_collects_in_bounds `{rt : AieRt} (func : Z -> M Z) AIESIM ZEPHYR fuel address h r h' :
  _rlog func AIESIM ZEPHYR fuel address h = Some (r, h') -> r <> rl_log_overrun.
Proof.
  unfold _rlog; intros (u & h1 & _ & H)%bind_inv; apply bind_inv in H as (d & h2 & _ & H).
  apply bind_inv in H as (d' & h3 & _ & H); destruct (negb _); [unfold ret in H; by simplify_eq|].
  apply bind_inv in H as (x & h4 & _ & H); apply bind_inv in H as (y & h5 & _ & H).
  eapply rlog_loop_safe; [|exact H]; apply length_replicate.
Qed.

(** * Reading a text *)

(** An ordinary character of a log line. *)
Definition is_text (c : Z) : Prop := is_byte c /\ c <> 0 /\ c <> ch_semicolon.

(** The words from [A] on answer the bytes of [text]. *)
Definition holds_text (func : Z -> M Z) (A : Z) (text : list Z) : Prop :=
  forall k h, (4 * k + 4 <= length text)%nat ->
    exists h', func (u64 (A + 4 * Z.of_nat k)) h = Some (le_val (take 4 (drop (4 * k) text)), h').

Lemma holds_text_tail func A w text :
  length w = 4%nat -> holds_text func A (w ++ text) -> holds_text func (A + 4) text.
Proof.
  intros Hw H k h Hk; destruct (H (S k) h) as (h' & E); [rewrite length_app; lia|].
  exists h'; rewrite drop_app_ge in E by lia.
  replace (4 * S k - length w)%nat with (4 * k)%nat in E by lia.
  replace (A + 4 + 4 * Z.of_nat k) with (A + 4 * Z.of_nat (S k)) by lia; exact E.
Qed.

Lemma holds_text_word func A w text h :
  length w = 4%nat -> holds_text func A (w ++ text) -> exists h', func (u64 A) h = Some (le_val w, h').
Proof.
  intros Hw H; destruct (H 0%nat h) as (h' & E); [rewrite length_app; lia|]; exists h'.
  rewrite Z.add_0_r in E; rewrite Nat.mul_0_r, drop_0, take_app_le, take_ge in E by lia; exact E.
Qed.

(** One word that is not zero. *)
Lemma loop_word (func : Z -> M Z) fuel A w text s s' h :
  length w = 4%nat -> bytes_ok w -> le_val w <> 0 -> holds_text func A (w ++ text) ->
  (r_index s < 256)%nat -> read_chars w s = inl s' ->
  exists h', rlog_loop func (S fuel) (u64 A) s h = rlog_loop func fuel (u64 (A + 4)) s' h'.
Proof.
  intros Hw Hb Hz Ht Hi Hr; destruct (holds_text_word _ _ _ _ h Hw Ht) as (h' & E); exists h'.
  cbn [rlog_loop]; rewrite (bind_Some _ _ _ _ _ E), (proj2 (Z.eqb_neq _ _) Hz).
  destruct (Nat.leb_spec 256 (r_index s)); [lia|].
  assert (Hlb : le_bytes 4 (le_val w) = w) by (rewrite <- Hw; by apply le_bytes_val).
  rewrite Hlb, Hr; unfold wrap_u; rewrite Zplus_mod_idemp_l; done.
Qed.

Lemma read_chars_app a b s :
  read_chars (a ++ b) s = match read_chars a s with inl s => read_chars b s | inr r => inr r end.
Proof. revert s; induction a as [|c a IH]; intros s; simpl; [done|]; destruct (read_char c s); auto. Qed.

(** Ordinary characters are collected while the array has room. *)
Lemma read_plain cs : forall s, r_ok s -> Forall is_text cs -> (r_index s + length cs <= 256)%nat ->
  exists s', read_chars cs s = inl s' /\ r_ok s' /\ r_index s' = (r_index s + length cs)%nat /\
    take (r_index s') (r_str s') = take (r_index s) (r_str s) ++ cs /\ r_log s' = r_log s.
Proof.
  induction cs as [|c cs IH]; intros s Hs Hc Hl; simpl in *.
  { exists s; rewrite app_nil_r; split_and!; try done; lia. }
  inversion Hc as [|? ? (Hb & Hz & Hsc) Hc']; subst.
  unfold read_char; rewrite (proj2 (Z.eqb_neq _ _) Hsc).
  destruct (Nat.ltb_spec (r_index s) 256); [|lia].
  destruct (IH (mkR (<[r_index s := c]> (r_str s)) (S (r_index s)) (r_log s))) as (s' & E & H1 & H2 & H3 & H4).
  - unfold r_ok in *; simpl; by rewrite length_insert.
  - done.
  - simpl; lia.
  - unfold r_ok in Hs; exists s'; split; [done|]; split; [done|]; simpl in *; split; [lia|]; split; [|done].
    rewrite H3, (take_S_r _ _ c) by (apply list_lookup_insert_eq; lia).
    rewrite take_insert_ge, <- app_assoc by lia; done.
Qed.

Lemma read_too_long cs : forall s, r_ok s -> Forall is_text cs -> (256 < r_index s + length cs)%nat ->
  (r_index s <= 256)%nat -> read_chars cs s = inr rl_str_overrun.
Proof.
  induction cs as [|c cs IH]; intros s Hs Hc Hl Hi; simpl in *; [lia|].
  inversion Hc as [|? ? (Hb & Hz & Hsc) Hc']; subst.
  unfold read_char; rewrite (proj2 (Z.eqb_neq _ _) Hsc).
  destruct (Nat.ltb_spec (r_index s) 256); [|done].
  apply IH; try done; simpl; try lia; unfold r_ok in *; simpl; by rewrite length_insert.
Qed.

Lemma cstr_insert (a : list Z) (i : nat) : (i < length a)%nat -> Forall (fun c => c <> 0) (take i a) ->
  cstr (<[i := 0]> a) = take i a.
Proof.
  revert i; induction a as [|c a IH]; intros [|i] Hi Hf; simpl in *; try lia; [done|].
  inversion Hf; subst; rewrite (proj2 (Z.eqb_neq c 0)) by done; f_equal; apply IH; [lia|done].
Qed.

(** A semicolon closes the line. *)
Lemma read_semicolon s : r_ok s -> (r_index s <= 255)%nat ->
  Forall is_text (take (r_index s) (r_str s)) -> Z.of_nat (length (r_log s)) < STR_LOG_LEN - 256 ->
  exists str, read_char ch_semicolon s =
    inl (mkR str 0 (r_log s ++ take (r_index s) (r_str s) ++ [ch_semicolon])) /\ length str = 256%nat.
Proof.
  intros Hs Hi Hf Hl; unfold read_char, r_ok in *; rewrite Z.eqb_refl.
  destruct (Nat.leb_spec 256 (r_index s)); [lia|].
  rewrite (proj2 (Z.ltb_lt _ _) Hl), cstr_insert
    by first [lia|eapply Forall_impl; [exact Hf|]; intros ? (_ & ? & _); done].
  destruct (strcat_line (r_log s) (take (r_index s) (r_str s)) Hl) as (log & E & log' & E').
  { rewrite length_take; lia. }
  rewrite E, E'; apply strcat_length in E as [-> _]; apply strcat_length in E' as [-> _].
  eexists; rewrite app_assoc; split; [done|]; by rewrite !length_insert.
Qed.

(** * Texts the reader cannot hold *)

Lemma word_nonzero w : bytes_ok w -> Exists (fun c => c <> 0) w -> le_val w <> 0.
Proof.
  intros Hb He Hz; apply le_val_zero in Hz; [|done].
  apply Exists_exists in He as (c & Hc & Hn); rewrite Forall_forall in Hz; exact (Hn (Hz _ Hc)).
Qed.

Lemma text_word w : length w = 4%nat -> Forall is_text w -> bytes_ok w /\ le_val w <> 0.
Proof.
  intros Hl Hf; assert (Hb : bytes_ok w) by (eapply Forall_impl; [exact Hf|]; by intros ? [? _]).
  split; [done|]; apply word_nonzero; [done|].
  destruct w as [|c w]; [done|]; inversion Hf as [|? ? (_ & ? & _) _]; by left.
Qed.

(** A line that is not aligned runs behind the line array. *)
Lemma loop_overruns (func : Z -> M Z) n : forall fuel A text s h,
  r_ok s -> (n < fuel)%nat -> length text = (4 * n)%nat -> Forall is_text text -> holds_text func A text ->
  (r_index s < 256)%nat -> (r_index s mod 4 <> 0)%nat -> (256 < r_index s + 4 * n)%nat ->
  exists h', rlog_loop func fuel (u64 A) s h = Some (rl_str_overrun, h').
Proof.
  induction n as [|n IH]; intros fuel A text s h Hs Hf Hl Ht Hh Hi Hm Hn; [lia|].
  destruct fuel as [|fuel]; [lia|].
  rewrite <- (take_drop 4 text) in Hh, Ht; apply Forall_app in Ht as [Hw Ht].
  assert (Hlw : length (take 4 text) = 4%nat) by (rewrite length_take; lia).
  destruct (text_word _ Hlw Hw) as [Hb Hz].
  destruct (decide (r_index s + 4 <= 256)%nat) as [Hle|Hgt].
  - destruct (read_plain (take 4 text) s Hs Hw) as (s' & E & Hs' & Hi' & _); [lia|].
    destruct (loop_word func fuel A _ _ s s' h Hlw Hb Hz Hh Hi E) as (h1 & E1); rewrite E1.
    rewrite Hlw in Hi'; apply (IH fuel (A + 4) (drop 4 text)); try done; try lia.
    + rewrite length_drop; lia.
    + by eapply holds_text_tail.
    + assert ((r_index s + 4) mod 4 <> 0)%nat by (rewrite <- (Nat.mul_1_l 4) at 1; rewrite Nat.Div0.mod_add; done).
      destruct (decide (r_index s + 4 = 256)%nat) as [E4|]; [|lia].
      rewrite E4 in H; done.
    + rewrite Hi'; rewrite <- (Nat.mul_1_l 4) at 1; by rewrite Nat.Div0.mod_add.
  - destruct (holds_text_word _ _ _ _ h Hlw Hh) as (h1 & E1); exists h1; cbn [rlog_loop].
    rewrite (bind_Some _ _ _ _ _ E1), (proj2 (Z.eqb_neq _ _) Hz).
    destruct (Nat.leb_spec 256 (r_index s)); [lia|].
    assert (Hlb : le_bytes 4 (le_val (take 4 text)) = take 4 text) by (rewrite <- Hlw at 1; by apply le_bytes_val).
    rewrite Hlb, read_too_long; try done; lia.
Qed.

(** Reading starts behind the mark. *)
Lemma rlog_marked `{rt : AieRt} (func : Z -> M Z) AIESIM ZEPHYR fuel A text h :
  0 <= A < 2 ^ 64 -> (8 <= length text)%nat ->
  holds_text func A (le_bytes 4 MAICMARK ++ text) ->
  exists h', _rlog func AIESIM ZEPHYR fuel A h =
    rlog_loop func fuel (u64 (A + 4)) (mkR (replicate 256 0) 0 []) h'.
Proof.
  intros HA Hl Hh; unfold _rlog.
  assert (H0 : forall h, exists h', func A h = Some (MAICMARK, h')).
  { intros h0; destruct (holds_text_word func A _ _ h0 (le_bytes_length 4 MAICMARK) Hh) as (h' & E).
    rewrite wrap_u_small in E by lia; exists h'; exact E. }
  assert (Hk : forall k h, (4 * k + 4 <= 8)%nat -> exists x h', func (u64 (A + 4 + 4 * Z.of_nat k)) h = Some (x, h')).
  { intros k h0 Hk; destruct (holds_text_tail func A (le_bytes 4 MAICMARK) text (le_bytes_length 4 MAICMARK) Hh k h0) as (h' & E); eauto; lia. }
  set (pre := if AIESIM || ZEPHYR then ret tt else exec_ (usleep 1)).
  assert (Hp : exists h1, pre h = Some (tt, h1)) by (unfold pre; destruct (_ || _); eexists; reflexivity).
  destruct Hp as (h1 & Ep), (H0 h1) as (h2 & E0).
  destruct (Hk 0%nat h2) as (x & h3 & E1); [lia|]; destruct (Hk 1%nat h3) as (y & h4 & E2); [lia|].
  exists h4; rewrite (bind_Some _ _ _ _ _ Ep), (bind_Some _ _ _ _ _ E0), Z.eqb_refl, andb_false_r.
  unfold bind at 1, ret at 1; rewrite Z.eqb_refl; cbn [negb].
  replace (A + 4 + 4 * Z.of_nat 0) with (A + 4) in E1 by lia.
  replace (A + 4 + 4 * Z.of_nat 1) with (A + 8) in E2 by lia.
  by rewrite (bind_Some _ _ _ _ _ E1), (bind_Some _ _ _ _ _ E2).
Qed.

(** a log line can make the reader write behind its 256-character line array.  The reader checks
    the array only once per word, so a line that starts in the middle of a word (as every line
    after one whose length is not a multiple of four does, behind its blanks) and goes on for 64
    words without a semicolon overruns it by one to three characters, for every such text. *)
Theorem long_line_overruns `{rt : AieRt} (func : Z -> M Z) AIESIM ZEPHYR fuel A c0 c2 c3 text n h :
  0 <= A < 2 ^ 64 -> Forall is_text [c0; c2; c3] -> Forall is_text text -> length text = (4 * n)%nat ->
  (64 <= n)%nat -> (n + 1 < fuel)%nat ->
  holds_text func A (le_bytes 4 MAICMARK ++ [c0; ch_semicolon; c2; c3] ++ text) ->
  exists h', _rlog func AIESIM ZEPHYR fuel A h = Some (rl_str_overrun, h').
Proof.
  intros HA Hc Ht Hl Hn Hf Hh; set (w := [c0; ch_semicolon; c2; c3]) in *.
  destruct (rlog_marked func AIESIM ZEPHYR fuel A (w ++ text) h HA) as (h1 & ->); [simpl; lia|done|].
  assert (Hh' : holds_text func (A + 4) (w ++ text)) by exact (holds_text_tail _ _ (le_bytes 4 MAICMARK) _ (le_bytes_length 4 MAICMARK) Hh).
  inversion Hc as [|? ? Hc0 Hc']; inversion Hc' as [|? ? Hc2 Hc3']; inversion Hc3' as [|? ? Hc3 _]; subst.
  assert (Hb : bytes_ok w).
  { repeat constructor; try apply Hc0; try apply Hc2; try apply Hc3; unfold is_byte, ch_semicolon; lia. }
  assert (Hz : le_val w <> 0) by (apply word_nonzero; [done|]; left; apply Hc0).
  set (s0 := mkR (replicate 256 0) 0 []).
  assert (Hs0 : r_ok s0) by exact (length_replicate 256 0).
  destruct (read_plain [c0] s0 Hs0) as (s1 & E1 & Hs1 & Hi1 & Ht1 & Hl1); [by constructor|simpl; lia|].
  destruct (read_semicolon s1 Hs1) as (str & E2 & Hs2).
  { rewrite Hi1; simpl; lia. }
  { rewrite Ht1; simpl; by constructor. }
  { rewrite Hl1; reflexivity. }
  destruct (read_plain [c2; c3] (mkR str 0 (r_log s1 ++ take (r_index s1) (r_str s1) ++ [ch_semicolon])) Hs2)
    as (s3 & E3 & Hs3 & Hi3 & _); [exact Hc'|simpl; lia|].
  assert (E : read_chars w s0 = inl s3).
  { change w with ([c0] ++ [ch_semicolon] ++ [c2; c3]); rewrite read_chars_app, E1, read_chars_app.
    cbn [read_chars]; rewrite E2; exact E3. }
  destruct fuel as [|fuel]; [lia|].
  destruct (loop_word func fuel (A + 4) w text s0 s3 h1 eq_refl Hb Hz Hh') as (h2 & E4); [simpl; lia|exact E|].
  rewrite E4; apply (loop_overruns func n fuel (A + 4 + 4) text); try done; try lia.
  - by eapply (holds_text_tail _ _ w).
  - rewrite Hi3; simpl; lia.
  - rewrite Hi3; simpl; lia.
  - rewrite Hi3; simpl; lia.
Qed.

(** * Writing and reading back *)

Definition message : Type := list Z * Z.
Definition msg_text (m : message) : list Z := fst m ++ number (snd m) ++ [ch_semicolon].
Definition msg_pad (m : message) : list Z := blanks (Z.of_nat (length (msg_text m))).
(** What the kernel's memory holds behind the mark. *)
Definition content (ms : list message) : list Z := concat (map (fun m => msg_text m ++ msg_pad m) ms).
(** What the host should read: every line behind the blanks of the one before. *)
Fixpoint expected (pad : list Z) (ms : list message) : list Z :=
  match ms with
  | [] => []
  | m :: ms => (pad ++ msg_text m) ++ expected (msg_pad m) ms
  end.
Definition write_all (ms : list message) (s : klog) : klog :=
  fold_left (fun s m => wlog false (fst m) (snd m) s) ms s.

Definition msg_ok (m : message) : Prop :=
  Forall is_text (fst m) /\ (length (fst m) <= 237)%nat /\ 0 <= snd m < 2 ^ 32.

Lemma digits_spec n : forall v str, 0 <= v < 10 ^ Z.of_nat n ->
  exists ds, digits n v str = ds ++ str /\ Forall (fun c => ch_zero <= c <= 57) ds /\ (length ds <= n)%nat /\
    forall a, fold_left (fun a c => 10 * a + (c - ch_zero)) ds a = a * 10 ^ Z.of_nat (length ds) + v.
Proof.
  induction n as [|n IH]; intros v str Hv; cbn [digits].
  { exists []; split_and!; try done; intros a; simpl in *; lia. }
  destruct (Z.eqb_spec v 0) as [->|Hz].
  { exists []; split_and!; try done; [simpl; lia|]; intros a; simpl; lia. }
  rewrite Nat2Z.inj_succ, Z.pow_succ_r in Hv by lia.
  destruct (IH (v / 10) (v mod 10 + ch_zero :: str)) as (ds & E & Hf & Hl & Hd).
  { split; [apply Z.div_pos; lia|apply Z.div_lt_upper_bound; lia]. }
  exists (ds ++ [v mod 10 + ch_zero]); rewrite E, <- app_assoc; split; [done|].
  pose proof (Z.mod_pos_bound v 10); pose proof (Z.div_mod v 10).
  split_and!; [apply Forall_app; split; [done|]; constructor; [unfold ch_zero in *; lia|done]
              |rewrite length_app; simpl; lia|].
  intros a; rewrite fold_left_app, Hd, length_app; cbn [fold_left length].
  rewrite Nat.add_1_r, Nat2Z.inj_succ, Z.pow_succ_r by lia; unfold ch_zero; lia.
Qed.

(** The number is printed in decimal. *)
Lemma number_spec v : 0 <= v < 2 ^ 32 ->
  Forall is_text (number v) /\ (1 <= length (number v) <= 15)%nat /\
  fold_left (fun a c => 10 * a + (c - ch_zero)) (number v) 0 = v.
Proof.
  intros Hv; unfold number; destruct (Z.eqb_spec v 0) as [->|Hz].
  { split_and!; try done; simpl; try lia; repeat constructor; discriminate. }
  destruct (digits_spec 15 v [] ltac:(simpl; lia)) as (ds & -> & Hf & Hl & Hd); rewrite app_nil_r.
  split_and!; try done.
  - eapply Forall_impl; [exact Hf|]; intros c Hc; unfold is_text, is_byte, ch_zero, ch_semicolon in *; lia.
  - destruct ds; [|simpl; lia]; specialize (Hd 0); simpl in Hd; lia.
Qed.

Lemma blanks_spec o : 0 <= o -> Forall is_text (blanks o) /\ (length (blanks o) <= 3)%nat /\
  (o + Z.of_nat (length (blanks o))) mod 4 = 0.
Proof.
  intros Ho; unfold blanks; pose proof (Z.mod_pos_bound o 4).
  destruct (Z.eqb_spec (o mod 4) 0) as [E|E].
  - simpl; rewrite Z.add_0_r; split_and!; [by constructor|lia|done].
  - rewrite length_replicate, Z2Nat.id by lia; split_and!; [|lia|].
    + apply Forall_replicate; repeat constructor; discriminate.
    + replace (o + (4 - o mod 4)) with (4 * (o / 4 + 1)) by (pose proof (Z.div_mod o 4); lia).
      rewrite Z.mul_comm; apply Z.mod_mul; lia.
Qed.

Lemma msg_spec m : msg_ok m -> Forall is_text (fst m ++ number (snd m)) /\
  (1 <= length (fst m ++ number (snd m)) <= 252)%nat /\ Forall is_text (msg_pad m) /\ (length (msg_pad m) <= 3)%nat.
Proof.
  intros (Hf & Hl & Hv); destruct (number_spec _ Hv) as (Hn & Hnl & _).
  destruct (blanks_spec (Z.of_nat (length (msg_text m))) ltac:(lia)) as (Hb & Hbl & _).
  split_and!; try done; [by apply Forall_app|rewrite length_app; lia|rewrite length_app; lia].
Qed.

(** ** The memory of the kernel *)

Definition mem_is (m : bmem) (bs : list Z) : Prop := forall i, 0 <= i -> m i = default 0 (bs !! Z.to_nat i).

Lemma store_all_is cs : forall m bs, mem_is m bs -> mem_is (store_all m (Z.of_nat (length bs)) cs) (bs ++ cs).
Proof.
  induction cs as [|c cs IH]; intros m bs Hm; simpl; [by rewrite app_nil_r|].
  rewrite (cons_middle c bs cs), app_assoc.
  replace (Z.of_nat (length bs) + 1) with (Z.of_nat (length (bs ++ [c]))) by (rewrite length_app; simpl; lia).
  apply IH; intros i Hi; unfold store; destruct (Z.eqb_spec i (Z.of_nat (length bs))) as [->|Hn].
  - rewrite Nat2Z.id, lookup_app_r, Nat.sub_diag by lia; done.
  - rewrite Hm by done; destruct (decide (Z.to_nat i < length bs)%nat).
    + by rewrite lookup_app_l by lia.
    + rewrite lookup_app_r by lia; rewrite lookup_ge_None_2 by lia.
      destruct (Z.to_nat i - length bs)%nat as [|k] eqn:E; [lia|done].
Qed.

Lemma store_zero_is m bs : mem_is m bs -> mem_is (store m (Z.of_nat (length bs)) 0) bs.
Proof.
  intros Hm i Hi; unfold store; destruct (Z.eqb_spec i (Z.of_nat (length bs))) as [->|]; [|by apply Hm].
  by rewrite Nat2Z.id, lookup_ge_None_2.
Qed.

(** One message is appended, with its blanks. *)
Lemma wlog_appends m bs s : msg_ok m ->
  mem_is (kl_mem s) bs -> log_offset s = Z.of_nat (length bs) -> Z.of_nat (length bs) < 3996 ->
  (Z.of_nat (length bs)) mod 4 = 0 -> (logmarked s = 0 -> bs = []) ->
  let pre := if logmarked s =? 0 then le_bytes 4 MAICMARK else bs in
  let s' := wlog false (fst m) (snd m) s in
  let bs' := pre ++ msg_text m ++ msg_pad m in
  mem_is (kl_mem s') bs' /\ log_offset s' = Z.of_nat (length bs') /\ (Z.of_nat (length bs')) mod 4 = 0 /\
  logmarked s' <> 0.
Proof.
  intros Hm Hmem Ho Hlt H4 Hmark; destruct (msg_spec m Hm) as (_ & Hl & _ & Hpl).
  unfold wlog; rewrite Ho; change (u32 (LOG_MAX_LEN - 100)) with 3996.
  destruct (Z.leb_spec 3996 (Z.of_nat (length bs))); [lia|].
  set (s1 := if logmarked s =? 0 then _ else s).
  set (pre := if logmarked s =? 0 then le_bytes 4 MAICMARK else bs); cbv zeta.
  assert (H1 : mem_is (kl_mem s1) pre /\ log_offset s1 = Z.of_nat (length pre) /\ logmarked s1 <> 0 /\
               Z.of_nat (length pre) < 4000 /\ Z.of_nat (length pre) mod 4 = 0).
  { unfold s1, pre; destruct (Z.eqb_spec (logmarked s) 0) as [E|E].
    - rewrite (Hmark E) in *; cbn [kl_mem log_offset logmarked]; split_and!; try done.
      apply (store_all_is _ _ []); done.
    - split_and!; try done; lia. }
  destruct H1 as (Hm1 & Ho1 & Hk1 & Hp & Hp4); rewrite Ho1.
  change (fst m ++ number (snd m) ++ [ch_semicolon]) with (msg_text m).
  assert (Ht : (length (msg_text m) <= 253)%nat).
  { unfold msg_text; rewrite app_assoc, length_app; simpl; lia. }
  rewrite (wrap_u_small 32 (_ + Z.of_nat (length (msg_text m)))) by lia.
  assert (Hbl : blanks (Z.of_nat (length pre) + Z.of_nat (length (msg_text m))) = msg_pad m).
  { unfold msg_pad, blanks; rewrite Z.add_mod, Hp4, Z.add_0_l, Z.mod_mod by lia; done. }
  rewrite Hbl, wrap_u_small by lia; cbn [kl_mem log_offset logmarked].
  rewrite !length_app, !Nat2Z.inj_add.
  split_and!; [|lia| |done].
  - rewrite <- Nat2Z.inj_add, <- length_app, app_assoc, <- Nat2Z.inj_add, <- length_app.
    apply store_zero_is, store_all_is, store_all_is, Hm1.
  - rewrite Z.add_mod, Hp4, Z.add_0_l, Z.mod_mod by lia; apply blanks_spec; lia.
Qed.

(** ** The host's reading *)

(** A text the reader takes without overrunning or breaking off. *)
Fixpoint fits (cs : list Z) (s : rstate) : Prop :=
  (r_index s < 256)%nat /\
  match cs with
  | [] => True
  | c :: cs => match read_char c s with inl s' => fits cs s' | inr _ => False end
  end.

Lemma fits_app a b s : fits (a ++ b) s <-> fits a s /\ forall s', read_chars a s = inl s' -> fits b s'.
Proof.
  revert s; induction a as [|c a IH]; intros s; simpl.
  - split; [intros H; split; [split; [destruct b; apply H|done]|by intros s' [= <-]]|intros [_ H]; by apply H].
  - destruct (read_char c s) as [s1|]; [rewrite IH; tauto|].
    split; [intros [_ []]|intros [[_ []] _]].
Qed.

Lemma fits_read cs s : fits cs s -> exists s', read_chars cs s = inl s'.
Proof. revert s; induction cs as [|c cs IH]; intros s H; simpl in *; [eauto|]. destruct (read_char c s); [apply IH, H|destruct H as [_ []]]. Qed.

Lemma fits_index cs s : fits cs s -> (r_index s < 256)%nat.
Proof. destruct cs; intros [H _]; exact H. Qed.

Lemma fits_plain cs : forall s, r_ok s -> Forall is_text cs -> (r_index s + length cs <= 255)%nat -> fits cs s.
Proof.
  induction cs as [|c cs IH]; intros s Hs Hc Hl; simpl in *; [split; [lia|done]|split; [lia|]].
  inversion Hc as [|? ? (Hb & Hz & Hsc) Hc']; subst.
  unfold read_char; rewrite (proj2 (Z.eqb_neq _ _) Hsc); destruct (Nat.ltb_spec (r_index s) 256); [|lia].
  apply IH; simpl; [|done|lia]; unfold r_ok in *; simpl; by rewrite length_insert.
Qed.

Lemma loop_text (func : Z -> M Z) n : forall fuel A text s s' h,
  length text = (4 * n)%nat -> Forall (fun c => is_byte c /\ c <> 0) text -> (n < fuel)%nat ->
  holds_text func A (text ++ replicate 4 0) -> fits text s -> read_chars text s = inl s' ->
  exists h', rlog_loop func fuel (u64 A) s h = Some (rl_ok (r_log s'), h').
Proof.
  induction n as [|n IH]; intros fuel A text s s' h Hl Hb Hf Hh Hfit Hr; (destruct fuel as [|fuel]; [lia|]).
  { destruct text; [|done]; simpl in Hr; simplify_eq.
    destruct (holds_text_word func A (replicate 4 0) [] h eq_refl Hh) as (h' & E).
    exists h'; cbn [rlog_loop]; by rewrite (bind_Some _ _ _ _ _ E). }
  rewrite <- (take_drop 4 text) in Hh, Hb, Hfit, Hr.
  assert (Hlw : length (take 4 text) = 4%nat) by (rewrite length_take; lia).
  apply Forall_app in Hb as [Hb1 Hb2]; pose proof Hfit as [Hf1 Hf2]%fits_app.
  destruct (fits_read _ _ Hf1) as [s1 E1]; rewrite read_chars_app, E1 in Hr; rewrite <- app_assoc in Hh.
  assert (Hbw : bytes_ok (take 4 text)) by (eapply Forall_impl; [exact Hb1|]; by intros ? [? _]).
  assert (Hz : le_val (take 4 text) <> 0).
  { apply word_nonzero; [done|]; destruct (take 4 text); [done|]; inversion Hb1 as [|? ? [_ ?] _]; by left. }
  destruct (loop_word func fuel A _ _ s s1 h Hlw Hbw Hz Hh (fits_index _ _ Hf1) E1) as (h1 & ->).
  apply (IH fuel (A + 4) (drop 4 text) s1); try done; try lia.
  - rewrite length_drop; lia.
  - by eapply holds_text_tail.
  - by apply Hf2.
Qed.

(** Reading the content of some messages behind the blanks [pad]. *)
Lemma content_read ms : forall pad s, r_ok s -> r_index s = length pad -> take (length pad) (r_str s) = pad ->
  Forall is_text pad -> (length pad <= 3)%nat -> Forall msg_ok ms ->
  Z.of_nat (length (r_log s ++ expected pad ms)) <= STR_LOG_LEN - 256 ->
  fits (content ms) s /\ exists s', read_chars (content ms) s = inl s' /\ r_log s' = r_log s ++ expected pad ms.
Proof.
  induction ms as [|m ms IH]; intros pad s Hs Hi Ht Hp Hpl Hm Hlen; unfold content; simpl concat.
  { split; [split; [lia|done]|exists s; simpl; by rewrite app_nil_r]. }
  inversion Hm as [|? ? Hm1 Hms]; subst; destruct (msg_spec m Hm1) as (Hf & Hfl & Hpad & Hpadl).
  fold (content ms); unfold msg_text at 1 2; rewrite !(app_assoc (fst m)).
  set (f := fst m ++ number (snd m)) in *.
  destruct (read_plain f s Hs Hf) as (s1 & E1 & Hs1 & Hi1 & Ht1 & Hl1); [lia|].
  assert (Htake : take (r_index s1) (r_str s1) = pad ++ f) by (rewrite Ht1, Hi, Ht; done).
  destruct (read_semicolon s1 Hs1) as (str & E2 & Hs2).
  { lia. }
  { rewrite Htake; by apply Forall_app. }
  { rewrite Hl1; simpl in Hlen; unfold msg_text in Hlen; rewrite !length_app in Hlen; simpl in Hlen; lia. }
  rewrite Htake, Hl1 in E2; set (s2 := mkR str 0 _) in E2.
  destruct (read_plain (msg_pad m) s2 Hs2 Hpad) as (s3 & E3 & Hs3 & Hi3 & Ht3 & Hl3); [simpl; lia|].
  destruct (IH (msg_pad m) s3 Hs3) as (Hfit & s' & E' & Hlog); try done.
  { rewrite Hi3 in Ht3; simpl in Ht3; exact Ht3. }
  { rewrite Hl3; simpl in Hlen |- *; unfold msg_text in Hlen; rewrite !(app_assoc (fst m)) in Hlen.
    fold f in Hlen; rewrite !length_app in *; lia. }
  assert (Er : read_chars (((f ++ [ch_semicolon]) ++ msg_pad m) ++ content ms) s = inl s').
  { rewrite read_chars_app, read_chars_app, read_chars_app, E1; cbn [read_chars]; by rewrite E2, E3. }
  split.
  - rewrite <- !app_assoc; apply fits_app; split; [apply fits_plain; [done|done|lia]|].
    intros ? [= <-]%(eq_trans (eq_sym E1)); apply fits_app; split.
    { cbn [fits]; split; [lia|]; rewrite E2; split; [simpl; lia|done]. }
    intros q Hq; cbn [read_chars] in Hq; rewrite E2 in Hq; injection Hq as <-; apply fits_app; split.
    + apply fits_plain; [done|done|simpl; lia].
    + intros ? [= <-]%(eq_trans (eq_sym E3)); exact Hfit.
  - exists s'; split; [exact Er|]; rewrite Hlog, Hl3; simpl; unfold msg_text.
    rewrite !(app_assoc (fst m)); fold f; rewrite <- !app_assoc; done.
Qed.

Lemma expected_content pad ms : (length (content ms) <= length (expected pad ms) + 3)%nat.
Proof.
  revert pad; induction ms as [|m ms IH]; intros pad; unfold content; simpl; [lia|].
  fold (content ms); rewrite !length_app; specialize (IH []).
  assert (Hp : (length (msg_pad m) <= 3)%nat) by (apply blanks_spec; lia).
  destruct ms as [|m' ms]; [simpl in *; lia|]; simpl in *; rewrite !length_app in *; lia.
Qed.

Lemma content_cons m ms : content (m :: ms) = (msg_text m ++ msg_pad m) ++ content ms.
Proof. done. Qed.

(** The log after a sequence of messages on a log that is already marked. *)
Lemma write_marked ms : forall bs s, Forall msg_ok ms -> mem_is (kl_mem s) bs ->
  log_offset s = Z.of_nat (length bs) -> (Z.of_nat (length bs)) mod 4 = 0 -> logmarked s <> 0 ->
  Z.of_nat (length bs + length (content ms)) < 3996 ->
  mem_is (kl_mem (write_all ms s)) (bs ++ content ms) /\ Z.of_nat (length (bs ++ content ms)) mod 4 = 0.
Proof.
  induction ms as [|m ms IH]; intros bs s Hm Hmem Ho H4 Hk Hlt.
  { change (content []) with (@nil Z); rewrite app_nil_r; done. }
  inversion Hm as [|? ? Hm1 Hms]; subst; rewrite content_cons, length_app in Hlt.
  destruct (wlog_appends m bs s Hm1 Hmem Ho ltac:(lia) H4 ltac:(congruence)) as (M1 & O1 & A1 & K1).
  rewrite (proj2 (Z.eqb_neq _ _) Hk) in *.
  destruct (IH (bs ++ msg_text m ++ msg_pad m) (wlog false (fst m) (snd m) s)) as [H1 H2]; try done.
  { rewrite !length_app in *; lia. }
  rewrite content_cons, app_assoc, <- (app_assoc bs (msg_text m)) in *; split; [exact H1|exact H2].
Qed.

Definition fresh_log (m : bmem) : klog := wlog_reset (mkLog m 0 0).

Lemma write_fresh m0 m ms : Forall msg_ok (m :: ms) -> mem_is m0 [] ->
  Z.of_nat (4 + length (content (m :: ms))) < 3996 ->
  mem_is (kl_mem (write_all (m :: ms) (fresh_log m0))) (le_bytes 4 MAICMARK ++ content (m :: ms)) /\
  Z.of_nat (length (content (m :: ms))) mod 4 = 0.
Proof.
  intros Hm H0 Hlt; inversion Hm as [|? ? Hm1 Hms]; subst; rewrite content_cons, length_app in Hlt.
  destruct (wlog_appends m [] (fresh_log m0) Hm1 H0 eq_refl ltac:(simpl; lia) eq_refl (fun _ => eq_refl))
    as (M1 & O1 & A1 & K1); cbn [logmarked fresh_log wlog_reset] in *; rewrite Z.eqb_refl in *.
  destruct (write_marked ms (le_bytes 4 MAICMARK ++ msg_text m ++ msg_pad m) (wlog false (fst m) (snd m) (fresh_log m0)))
    as [H1 H2]; try done.
  rewrite content_cons; rewrite <- app_assoc in H1; split; [exact H1|].
  rewrite !length_app, le_bytes_length, !Nat2Z.inj_add in H2; rewrite !length_app, !Nat2Z.inj_add.
  rewrite <- !Z.add_assoc in H2; rewrite Z.add_mod in H2 by lia; change (Z.of_nat 4 mod 4) with 0 in H2.
  rewrite Z.add_0_l, Z.mod_mod, !Z.add_assoc in H2 by lia; exact H2.
Qed.

Lemma content_bytes ms : Forall msg_ok ms -> Forall (fun c => is_byte c /\ c <> 0) (content ms).
Proof.
  intros Hm; unfold content; apply Forall_concat, Forall_map; eapply Forall_impl; [exact Hm|].
  intros m Hm1; destruct (msg_spec m Hm1) as (Hf & _ & Hp & _); unfold msg_text; simpl.
  rewrite !(app_assoc (fst m)); apply Forall_app_2; [apply Forall_app_2|].
  - eapply Forall_impl; [exact Hf|]; intros ? (? & ? & _); done.
  - repeat constructor; discriminate.
  - eapply Forall_impl; [exact Hp|]; intros ? (? & ? & _); done.
Qed.

(** The host reads the words of the kernel's memory. *)
Definition reads_mem (func : Z -> M Z) (A : Z) (m : bmem) : Prop :=
  forall o h, 0 <= o < LOG_MAX_LEN -> exists h', func (u64 (A + o)) h = Some (le_val (map m [o; o + 1; o + 2; o + 3]), h').

Lemma reads_mem_text func A m bs n : reads_mem func A m -> mem_is m bs ->
  Z.of_nat (length bs + n) <= LOG_MAX_LEN -> holds_text func A (bs ++ replicate n 0).
Proof.
  intros Hr Hm Hn k h Hk; pose proof Hk as Hk'; rewrite length_app, length_replicate in Hk'.
  destruct (Hr (4 * Z.of_nat k) h ltac:(lia)) as (h' & E); exists h'; rewrite E; do 3 f_equal.
  assert (Hl : forall i, (bs ++ replicate n 0) !! i = Some (m (Z.of_nat i)) \/ (length (bs ++ replicate n 0%Z) <= i)%nat).
  { intros i; destruct (decide (i < length (bs ++ replicate n 0%Z))%nat) as [Hi|]; [left|right; lia].
    rewrite (Hm (Z.of_nat i)), Nat2Z.id by lia; destruct (decide (i < length bs)%nat).
    - rewrite lookup_app_l by lia; destruct (lookup_lt_is_Some_2 bs i ltac:(lia)) as [x ->]; done.
    - rewrite (lookup_ge_None_2 bs) by lia; rewrite lookup_app_r by lia; rewrite lookup_replicate_2; [done|].
      rewrite length_app, length_replicate in Hi; lia. }
  apply list_eq; intros j; destruct (decide (j < 4)%nat) as [Hj|Hj].
  - rewrite lookup_take_lt, lookup_drop by lia.
    destruct (Hl (4 * k + j)%nat) as [->|]; [|lia].
    destruct j as [|[|[|[|j]]]]; [| | | |lia]; cbn [map lookup list_lookup]; f_equal; f_equal; lia.
  - rewrite !lookup_ge_None_2; [done|rewrite length_take; lia|rewrite length_map; simpl; lia].
Qed.

(** C25: what kernels log is what the host reads.  On a zeroed log area, after any sequence of messages
    whose texts are non-zero bytes other than the semicolon and at most 237 of them, and whose
    lines, as the host gets them, come to at most 1792 characters (the host appends a line to its
    2 KiB only while more than 256 of them are free), a host whose reads answer what is in the
    area gets all of them, in order and complete: each line is the message's text, its
    number in decimal and a semicolon, behind the blanks that align the line before it.  In the
    header as it stands logging is switched off, and then nothing is ever written. *)
Theorem klog_roundtrip `{rt : AieRt} (func : Z -> M Z) AIESIM ZEPHYR fuel A m0 m ms h :
  0 <= A < 2 ^ 64 -> mem_is m0 [] -> Forall msg_ok (m :: ms) ->
  Z.of_nat (length (expected [] (m :: ms))) <= STR_LOG_LEN - 256 -> (1024 <= fuel)%nat ->
  reads_mem func A (kl_mem (write_all (m :: ms) (fresh_log m0))) ->
  (exists h', _rlog func AIESIM ZEPHYR fuel A h = Some (rl_ok (expected [] (m :: ms)), h')) /\
  Forall (fun x => fold_left (fun a c => 10 * a + (c - ch_zero)) (number (snd x)) 0 = snd x) (m :: ms) /\
  (forall fmt v s, wlog true fmt v s = s).
Proof.
  intros HA H0 Hm Hlen Hf Hr; split_and!; try done.
  2: { eapply Forall_impl; [exact Hm|]; intros x (_ & _ & Hv); by apply number_spec. }
  pose proof (expected_content [] (m :: ms)) as Hc; unfold STR_LOG_LEN in Hlen.
  destruct (write_fresh m0 m ms Hm H0 ltac:(lia)) as [Hmem H4].
  pose proof (reads_mem_text func A _ _ 8 Hr Hmem) as Hh; rewrite <- app_assoc in Hh.
  specialize (Hh ltac:(rewrite length_app, le_bytes_length; unfold LOG_MAX_LEN; lia)).
  set (text := content (m :: ms)) in *.
  destruct (rlog_marked func AIESIM ZEPHYR fuel A (text ++ replicate 8 0) h HA) as (h1 & ->).
  { rewrite length_app, length_replicate; lia. }
  { exact Hh. }
  assert (Hh' : holds_text func (A + 4) (text ++ replicate 4 0)).
  { pose proof (holds_text_tail _ _ (le_bytes 4 MAICMARK) _ (le_bytes_length 4 MAICMARK) Hh) as Hx.
    intros k h2 Hk; rewrite length_app, length_replicate in Hk.
    destruct (Hx k h2) as (h3 & E); [rewrite length_app, length_replicate; lia|]; exists h3; rewrite E; do 3 f_equal.
    change (replicate 8 0) with (replicate 4 0 ++ replicate 4 0); rewrite app_assoc.
    rewrite drop_app_le, take_app_le; [done| |]; rewrite ?length_drop, ?length_app, ?length_replicate; lia. }
  destruct (content_read (m :: ms) [] (mkR (replicate 256 0) 0 [])) as (Hfit & s' & E & Hlog); try done.
  { simpl; lia. }
  rewrite <- (app_nil_l (expected [] (m :: ms))); change (@nil Z) with (r_log (mkR (replicate 256 0) 0 [])) at 2.
  rewrite <- Hlog; apply Z.mod_divide in H4 as [q Hq]; [|lia].
  apply (loop_text func (Z.to_nat q) fuel (A + 4) text); try done; try lia.
  by apply content_bytes.
Qed.

(** * Concrete logs *)

#[local] Existing Instance ok_rt.
Definition demo_reader (A : Z) (m : bmem) (a : Z) : M Z := ret (le_val (map m [a - A; a - A + 1; a - A + 2; a - A + 3])).
Definition zero_mem : bmem := fun _ => 0.
(** "a=" and "bc=". *)
Definition demo_msgs : list message := [([97; 61], 7); ([98; 99; 61], 40)].

Lemma klog_roundtrip_witness :
  exists h', _rlog (demo_reader 0xF000 (kl_mem (write_all demo_msgs (fresh_log zero_mem)))) false false 1024 0xF000 [] =
    Some (rl_ok [97; 61; 55; 59; 98; 99; 61; 52; 48; 59], h').
Proof.
  refine (proj1 (klog_roundtrip (demo_reader 0xF000 (kl_mem (write_all demo_msgs (fresh_log zero_mem)))) false false
    1024 0xF000 zero_mem ([97; 61], 7) [([98; 99; 61], 40)] [] _ _ _ _ _ _)).
  - lia.
  - intros i Hi; destruct (Z.to_nat i); reflexivity.
  - repeat constructor; simpl; (lia || discriminate).
  - discriminate.
  - apply Nat.leb_le; reflexivity.
  - intros o h Ho; exists h; unfold demo_reader, ret; rewrite wrap_u_small by (unfold LOG_MAX_LEN in *; lia).
    replace (0xF000 + o - 0xF000) with o by lia; reflexivity.
Defined.

(** One short line, blanks and a line of 256 letters. *)
Definition long_text : list Z := replicate 256 65.
Lemma long_line_overruns_witness :
  exists h', _rlog (demo_reader 0 (store_all zero_mem 0 (le_bytes 4 MAICMARK ++ [65; 59; 32; 32] ++ long_text))) false false 66
    0 [] = Some (rl_str_overrun, h').
Proof.
  refine (long_line_overruns _ false false 66 0 65 32 32 long_text 64 [] _ _ _ eq_refl _ _ _).
  - lia.
  - repeat constructor; discriminate.
  - apply Forall_replicate; repeat constructor; discriminate.
  - apply Nat.leb_le; reflexivity.
  - apply Nat.ltb_lt; reflexivity.
  - intros k h Hk; exists h; unfold demo_reader, ret; rewrite Z.add_0_l, wrap_u_small.
    2: { rewrite !length_app, le_bytes_length in Hk; unfold long_text in Hk; rewrite length_replicate in Hk; simpl in Hk; lia. }
    assert (Hk' : (k < 66)%nat).
    { rewrite !length_app, le_bytes_length in Hk; unfold long_text in Hk; rewrite length_replicate in Hk; simpl in Hk; lia. }
    clear Hk; do 66 (destruct k as [|k]; [vm_compute; reflexivity|]); lia.
Defined.

Lemma rlog_collects_in_bounds_witness :
  exists r h', _rlog (demo_reader 0 (store_all zero_mem 0 (le_bytes 4 MAICMARK ++ [65; 59; 32; 32]))) false false 5 0 [] = Some (r, h') /\
    r <> rl_log_overrun.
Proof.
  destruct (_rlog (demo_reader 0 (store_all zero_mem 0 (le_bytes 4 MAICMARK ++ [65; 59; 32; 32]))) false false 5 0 [])
    as [[r h']|] eqn:E; [|vm_compute in E; discriminate].
  exists r, h'; split; [reflexivity|].
  exact (rlog_collects_in_bounds _ _ _ _ _ _ _ _ E).
Defined.
