(* ===== verification/AdfHeaders.v ===== *)
(** * Header graph of the ADF conversion tool

    [src/tools/adftoaeg/src/adftoaeg.cc] turns a host program written against the ADF library into
    one for the baremetal runtime.  Part of the work is to find the [#include] lines of the main
    file that lead to the ADF declarations and to guard them, so that the converted program only
    sees them in the simulator.  This file models that part:
    - [HeaderGraph], the inclusion graph, with its depth-first search.  The two unordered
      containers are a [gmap] of [gset]s; the order in which C++ walks an unordered set is not
      specified, so it is a parameter [order] of the search and the theorems hold for every one.
      The search is a recursive function on a fuel; [existsPath] supplies the number of nodes plus
      one, and the theorem shows that this always suffices.
    - [InclusionDirective], the preprocessor callback that fills the graph and the table of the
      main file's own inclusions.
    - the marking loop of [EndSourceFileAction] and the text it writes for a marked inclusion.
    Edits of the source text are collected as a list of values of type [edit]; carrying them out
    is the work of clang's rewriter. *)
From Stdlib Require Import ZArith Lia Ascii String.
From stdpp Require Import base list gmap sets strings relations.
From S2P Require Import Prelude.

Local Open Scope string_scope.
Local Open Scope list_scope.

(** ** Source positions and edits *)

(** A position is an offset into the main file; a range has its first and last position. *)
Definition location := nat.
Definition range := (location * location)%type.

(** The calls the tool makes on clang's rewriter. *)
Inductive edit :=
  | ReplaceText (r : range) (text : string)
  | InsertTextBefore (l : location) (text : string)
  | InsertTextAfterToken (l : location) (text : string)
  | InsertText (l : location) (text : string).

(** A line break in generated text. *)
Definition nl : string := String "010"%char EmptyString.
(** A double quote in generated text. *)
Definition dq : string := String "034"%char EmptyString.

(** ** The inclusion graph *)

(** The adjacency list.
    [src/tools/adftoaeg/src/adftoaeg.cc:67-69] [HeaderGraph] *)
Record HeaderGraph := mkGraph { adjacencyList : gmap string (gset string) }.

(** [src/tools/adftoaeg/src/adftoaeg.cc:71-75] [HeaderGraph::createNode] *)
Definition createNode (nodeName : string) (g : HeaderGraph) : HeaderGraph :=
  if decide (adjacencyList g !! nodeName = None)
  then mkGraph (<[nodeName := ∅]> (adjacencyList g)) else g.

(** [operator[]] of the map: a missing key gets an empty set.
    [src/tools/adftoaeg/src/adftoaeg.cc:112-112] [HeaderGraph::dfs] *)
Definition adjacent (g : HeaderGraph) (n : string) : HeaderGraph * gset string :=
  match adjacencyList g !! n with
  | Some s => (g, s)
  | None => (mkGraph (<[n := ∅]> (adjacencyList g)), ∅)
  end.

(** [src/tools/adftoaeg/src/adftoaeg.cc:77-81] [HeaderGraph::addEdge] *)
Definition addEdge (from to : string) (g : HeaderGraph) : HeaderGraph :=
  let g := createNode from g in
  let g := createNode to g in
  let '(g, s) := adjacent g from in
  mkGraph (<[from := {[to]} ∪ s]> (adjacencyList g)).

(** [src/tools/adftoaeg/src/adftoaeg.cc:83-83] [HeaderGraph::nodeExists] *)
Definition nodeExists (g : HeaderGraph) (node : string) : bool :=
  bool_decide (adjacencyList g !! node ≠ None).

Section search.
Context (order : gset string -> list string).

(** The loop over the neighbours, with the recursive call as an argument.
    [src/tools/adftoaeg/src/adftoaeg.cc:112-118] [HeaderGraph::dfs] *)
Fixpoint dfs_loop (rec : HeaderGraph -> string -> gset string -> option (HeaderGraph * gset string * bool))
    (neighbors : list string) (g : HeaderGraph) (visited : gset string)
    : option (HeaderGraph * gset string * bool) :=
  match neighbors with
  | [] => Some (g, visited, false)
  | n :: ns =>
      if decide (n ∈ visited) then dfs_loop rec ns g visited
      else
        '(g, visited, found) ← rec g n visited;
        if (found : bool) then Some (g, visited, true) else dfs_loop rec ns g visited
  end.

(** [None] means that the fuel did not suffice.
    [src/tools/adftoaeg/src/adftoaeg.cc:105-120] [HeaderGraph::dfs] *)
Fixpoint dfs (fuel : nat) (end_ : string) (g : HeaderGraph) (current : string) (visited : gset string)
    : option (HeaderGraph * gset string * bool) :=
  match fuel with
  | O => None
  | S fuel =>
      if decide (current = end_) then Some (g, visited, true)
      else
        let visited := {[current]} ∪ visited in
        let '(g, neighbors) := adjacent g current in
        dfs_loop (dfs fuel end_) (order neighbors) g visited
  end.

(** [src/tools/adftoaeg/src/adftoaeg.cc:85-92] [HeaderGraph::existsPath] *)
Definition existsPath (g : HeaderGraph) (start end_ : string) : option (HeaderGraph * bool) :=
  if negb (nodeExists g start) || negb (nodeExists g end_) then Some (g, false)
  else
    '(g, _, found) ← dfs (S (size (adjacencyList g))) end_ g start ∅;
    Some (g, found).
End search.

(** ** The preprocessor callback *)

(** What the preprocessor reports of an inclusion: the file that contains it, the written name,
    the file it resolves to, whether its header is a user header, whether it stands in the main
    file, and the range from the start of its line to the end of the name. *)
Record directive := mkDirective {
  d_source : string;
  d_FileName : string;
  d_File : option string;
  d_user : bool;
  d_main : bool;
  d_range : range }.

(** The state of the frontend action that the callback writes.
    [src/tools/adftoaeg/src/adftoaeg.cc:811-815] [MyFrontendAction] *)
Record headers := mkHeaders {
  G : HeaderGraph;
  mainHeaders : gmap string range;
  h_edits : list edit }.

(** [src/tools/adftoaeg/src/adftoaeg.cc:796-805] [IncludeCallback::InclusionDirective] *)
Definition guard_x_header (FileName : string) : string :=
  "#if !defined(__AIESIM__) && !defined(__ADF_FRONTEND__)" +:+ nl
  +:+ "#include " +:+ dq +:+ FileName +:+ dq +:+ nl +:+ "#endif".

(** [unordered_map::insert] keeps the entry that is already there.
    [src/tools/adftoaeg/src/adftoaeg.cc:793-793] [IncludeCallback::InclusionDirective] *)
Definition insert_new {A} (k : string) (v : A) (m : gmap string A) : gmap string A :=
  match m !! k with Some _ => m | None => <[k := v]> m end.

(** [src/tools/adftoaeg/src/adftoaeg.cc:776-808] [IncludeCallback::InclusionDirective] *)
Definition InclusionDirective (d : directive) (h : headers) : headers :=
  if d_user d then
    let G := match d_File d with
             | Some f => addEdge (d_source d) f (G h)
             | None => G h
             end in
    if d_main d then
      let mh := match d_File d with
                | Some f => insert_new f (d_range d) (mainHeaders h)
                | None => mainHeaders h
                end in
      let ed := if String.prefix "x" (d_FileName d)
                then h_edits h ++ [ReplaceText (d_range d) (guard_x_header (d_FileName d))]
                else h_edits h in
      mkHeaders G mh ed
    else mkHeaders G (mainHeaders h) (h_edits h)
  else h.

(** The state before the first inclusion. *)
Definition no_headers : headers := mkHeaders (mkGraph ∅) ∅ [].

(** The preprocessor calls the callback once for each inclusion, in source order. *)
Definition preprocess (ds : list directive) : headers :=
  fold_left (fun h d => InclusionDirective d h) ds no_headers.

(** ** Marking *)

Section marking.
Context (order : gset string -> list string).

(** One round of the marking loop; the [bool] says whether the missing-node message is printed.
    [src/tools/adftoaeg/src/adftoaeg.cc:831-837] [MyFrontendAction::EndSourceFileAction] *)
Definition mark_one (headerName : string) (node : string * range)
    (st : HeaderGraph * gmap string range * bool) : option (HeaderGraph * gmap string range * bool) :=
  let '(g, marked, warned) := st in
  let warned := warned || negb (nodeExists g (fst node)) in
  '(g, found) ← existsPath order g (fst node) headerName;
  Some (g, if (found : bool) then insert_new (fst node) (snd node) marked else marked, warned).

(** The two nested loops, over the header names and over the main file's inclusions.
    [src/tools/adftoaeg/src/adftoaeg.cc:829-839] [MyFrontendAction::EndSourceFileAction] *)
Definition mark_headers (headerNames : list string) (nodes : list (string * range)) (g : HeaderGraph)
    : option (HeaderGraph * gmap string range * bool) :=
  foldl (fun st hn => st ≫= fun st => foldl (fun st node => st ≫= mark_one hn node) (Some st) nodes)
        (Some (g, ∅, false)) headerNames.
End marking.

(** The text behind the last slash; the whole text when there is none.
    [src/tools/adftoaeg/src/adftoaeg.cc:843-845] [MyFrontendAction::EndSourceFileAction] *)
Fixpoint after_slash (acc s : list Ascii.ascii) : list Ascii.ascii :=
  match s with
  | [] => acc
  | c :: s => if decide (c = "/"%char) then after_slash s s else after_slash acc s
  end.

(** [src/tools/adftoaeg/src/adftoaeg.cc:843-845] [MyFrontendAction::EndSourceFileAction] *)
Definition basename (path : string) : string :=
  let l := String.list_ascii_of_string path in
  String.string_of_list_ascii (after_slash l l).

(** [src/tools/adftoaeg/src/adftoaeg.cc:841-850] [MyFrontendAction::EndSourceFileAction] *)
Definition guard_marked (node : string * range) : edit :=
  ReplaceText (snd node)
    ("#if (defined(__AIESIM__) || defined(__ADF_FRONTEND__))" +:+ nl
     +:+ "#include " +:+ dq +:+ basename (fst node) +:+ dq +:+ nl +:+ "#endif").

(** ** What the search finds *)

(** The file [a] includes the file [b]. *)
Definition edge (g : HeaderGraph) (a b : string) : Prop :=
  exists s, adjacencyList g !! a = Some s /\ b ∈ s.

(** Every neighbour is a node: the invariant of the graph. *)
Definition closed (g : HeaderGraph) : Prop :=
  forall a b, edge g a b -> adjacencyList g !! b ≠ None.

Lemma nodeExists_true g n : nodeExists g n = true <-> adjacencyList g !! n ≠ None.
Proof. unfold nodeExists. by rewrite bool_decide_eq_true. Qed.

Lemma createNode_lookup n g k :
  adjacencyList (createNode n g) !! k =
    if decide (k = n) then Some (default ∅ (adjacencyList g !! k)) else adjacencyList g !! k.
Proof.
  unfold createNode. case_decide as Hn; simpl.
  - case_decide; subst; [by rewrite lookup_insert_eq, Hn | by rewrite lookup_insert_ne].
  - case_decide; subst; [|done]. by destruct (adjacencyList g !! n) eqn:E.
Qed.

Lemma addEdge_lookup from to g k :
  adjacencyList (addEdge from to g) !! k =
    if decide (k = from) then Some ({[to]} ∪ default ∅ (adjacencyList g !! k))
    else if decide (k = to) then Some (default ∅ (adjacencyList g !! k)) else adjacencyList g !! k.
Proof.
  unfold addEdge, adjacent.
  rewrite (createNode_lookup to), (createNode_lookup from), (decide_True (P := from = from)) by done.
  assert (E : (if decide (from = to) then
                Some (default ∅ (Some (default ∅ (adjacencyList g !! from))))
              else Some (default ∅ (adjacencyList g !! from))) = Some (default ∅ (adjacencyList g !! from)))
    by (by case_decide).
  rewrite E. simpl. destruct (decide (k = from)) as [->|Hk].
  - by rewrite lookup_insert_eq.
  - rewrite lookup_insert_ne by done. rewrite createNode_lookup, createNode_lookup.
    by rewrite (decide_False (P := k = from)) by done.
Qed.

Lemma addEdge_edge from to g a b :
  edge (addEdge from to g) a b <-> edge g a b \/ (a = from /\ b = to).
Proof.
  unfold edge. rewrite addEdge_lookup. repeat case_decide; subst.
  - split.
    + intros (s & [= <-] & [->%elem_of_singleton|Hb]%elem_of_union); [by right|left].
      destruct (adjacencyList g !! from); [by eauto | by apply not_elem_of_empty in Hb].
    + intros [(s & -> & Hb)|[_ ->]]; eexists; split; [done | set_solver | done | set_solver].
  - split.
    + intros (s & [= <-] & Hb). left.
      destruct (adjacencyList g !! to); [by eauto | by apply not_elem_of_empty in Hb].
    + intros [(s & -> & Hb)|[-> _]]; [by eexists | done].
  - naive_solver.
Qed.

Lemma addEdge_node from to g n :
  adjacencyList (addEdge from to g) !! n ≠ None <-> adjacencyList g !! n ≠ None \/ n = from \/ n = to.
Proof. rewrite addEdge_lookup. repeat case_decide; subst; naive_solver. Qed.

Lemma addEdge_closed from to g : closed g -> closed (addEdge from to g).
Proof.
  intros Hg a b [He|[-> ->]]%addEdge_edge; apply addEdge_node; [left; eauto | auto].
Qed.

Section search_facts.
Context (order : gset string -> list string).
Hypothesis order_elements : forall s x, x ∈ order s <-> x ∈ s.

(** What a call of [dfs] (or its loop) leaves behind: the graph as it was, more visited nodes, all
    of them nodes of the graph; if nothing was found, the nodes it added are closed under
    inclusion up to the visited ones, and the goal is not among them. *)
Definition searched (g : HeaderGraph) (end_ : string) (todo : string -> Prop)
    (visited : gset string) (r : option (HeaderGraph * gset string * bool)) : Prop :=
  exists visited' found, r = Some (g, visited', found) /\
    visited ⊆ visited' /\ visited' ⊆ dom (adjacencyList g) /\
    (found = true -> exists n, todo n /\ rtc (edge g) n end_) /\
    (found = false -> (forall n, todo n -> n ∈ visited') /\
       (end_ ∈ visited' -> end_ ∈ visited) /\
       (forall a b, a ∈ visited' -> a ∉ visited -> edge g a b -> b ∈ visited')).

Lemma unvisited_shrinks (V D : gset string) (n : string) :
  n ∈ D -> n ∉ V -> size (D ∖ ({[n]} ∪ V)) < size (D ∖ V).
Proof. intros HD HV. apply subset_size. set_solver. Qed.

Lemma unvisited_mono (V V' D : gset string) :
  V ⊆ V' -> size (D ∖ V') <= size (D ∖ V).
Proof. intros H. apply subseteq_size. set_solver. Qed.

Lemma dfs_loop_searched rec g end_ fuel :
  (forall n V, n ∈ dom (adjacencyList g) -> n ∉ V -> V ⊆ dom (adjacencyList g) ->
     size (dom (adjacencyList g) ∖ V) < fuel -> searched g end_ (fun x => x = n) V (rec g n V)) ->
  forall ns V, (forall n, n ∈ ns -> n ∈ dom (adjacencyList g)) -> V ⊆ dom (adjacencyList g) ->
    size (dom (adjacencyList g) ∖ V) < fuel ->
    searched g end_ (fun x => x ∈ ns) V (dfs_loop rec ns g V).
Proof.
  intros Hrec ns. induction ns as [|n ns IH]; intros V Hns HV Hf; simpl.
  - exists V, false. split_and!; try done. intros _. split_and!; try done. by intros n ?%elem_of_nil.
  - case_decide as Hn.
    + destruct (IH V) as (V' & f & -> & Hs & Hd & Ht & He); [set_solver.. | done |].
      exists V', f. repeat split; try done.
      * intros Hf'. destruct (Ht Hf') as (x & ? & ?). exists x. split; [by right | done].
      * intros x [->|?]%elem_of_cons; [by apply Hs | by apply He].
      * by apply He.
      * by apply He.
    + destruct (Hrec n V) as (V1 & f1 & -> & Hs1 & Hd1 & Ht1 & He1); [set_solver.. | done |].
      simpl. destruct f1.
      { exists V1, true. repeat split; try done. intros _.
        destruct (Ht1 eq_refl) as (x & -> & ?). exists n. split; [by left | done]. }
      destruct (He1 eq_refl) as (Hn1 & Hend1 & Hcl1).
      destruct (IH V1) as (V' & f & -> & Hs & Hd & Ht & He); [set_solver | done | |].
      { pose proof (unvisited_mono V V1 (dom (adjacencyList g)) Hs1). lia. }
      exists V', f. repeat split; try done; [set_solver | | | |].
      * intros Hf'. destruct (Ht Hf') as (x & ? & ?). exists x. split; [by right | done].
      * intros x [->|?]%elem_of_cons; [apply Hs; by apply Hn1 | by apply He].
      * intros ?. apply Hend1. by apply He.
      * intros a b Ha HaV Hab. destruct (decide (a ∈ V1)).
        -- apply Hs. by eapply Hcl1.
        -- by eapply He.
Qed.

Lemma dfs_searched g end_ (Hg : closed g) fuel : forall n V,
  n ∈ dom (adjacencyList g) -> n ∉ V -> V ⊆ dom (adjacencyList g) ->
  size (dom (adjacencyList g) ∖ V) < fuel ->
  searched g end_ (fun x => x = n) V (dfs order fuel end_ g n V).
Proof.
  induction fuel as [|fuel IH]; intros n V Hn HnV HV Hf; [lia|]. simpl.
  case_decide as Hend.
  { exists V, true. repeat split; try done. intros _. exists n. subst. split; [done | apply rtc_refl]. }
  apply elem_of_dom in Hn as Hn'. destruct Hn' as [s Hs]. unfold adjacent. rewrite Hs.
  pose proof (unvisited_shrinks V _ n Hn HnV) as Hlt.
  destruct (dfs_loop_searched (dfs order fuel end_) g end_ fuel IH (order s) ({[n]} ∪ V))
    as (V' & f & -> & Hsub & Hd & Ht & He); [| set_solver | lia |].
  { intros m Hm. apply elem_of_dom, not_eq_None_Some. apply (Hg n m). exists s. split; [done|].
    by apply order_elements. }
  exists V', f. repeat split; try done; [set_solver | | | |].
  - intros Hf'. destruct (Ht Hf') as (x & Hx & ?). exists n. split; [done|].
    eapply rtc_l; [|done]. exists s. split; [done | by apply order_elements].
  - intros x ->. set_solver.
  - intros Hin. destruct (He H) as (_ & Hend1 & _). set_solver.
  - intros a b Ha HaV (s' & Hs' & Hb). destruct (He H) as (Hall & _ & Hcl).
    destruct (decide (a = n)) as [->|Han].
    + assert (s' = s) as -> by congruence. by apply Hall, order_elements.
    + apply (Hcl a b); [done | set_solver | by exists s'].
Qed.

Lemma closed_set_reach g (V : gset string) a b :
  (forall x y, x ∈ V -> edge g x y -> y ∈ V) -> a ∈ V -> rtc (edge g) a b -> b ∈ V.
Proof. intros HV Ha H. induction H; [done | eauto]. Qed.

Lemma existsPath_total g start end_ (Hg : closed g) :
  exists found, existsPath order g start end_ = Some (g, found) /\
    (found = true <->
       adjacencyList g !! start ≠ None /\ adjacencyList g !! end_ ≠ None /\ rtc (edge g) start end_).
Proof.
  unfold existsPath.
  destruct (nodeExists g start) eqn:E1; [|exists false; split; [done|]; unfold nodeExists in E1;
    apply bool_decide_eq_false in E1; naive_solver].
  destruct (nodeExists g end_) eqn:E2; [|exists false; split; [done|]; unfold nodeExists in E2;
    apply bool_decide_eq_false in E2; naive_solver].
  apply nodeExists_true in E1, E2. cbn [negb orb].
  destruct (dfs_searched g end_ Hg (S (size (adjacencyList g))) start ∅)
    as (V & f & -> & _ & _ & Ht & He); [by apply elem_of_dom, not_eq_None_Some | set_solver | set_solver | |].
  { rewrite difference_empty_L, size_dom. lia. }
  simpl. exists f. split; [done|]. split.
  - intros ->. destruct (Ht eq_refl) as (? & -> & ?). done.
  - intros (_ & _ & Hp). destruct f; [done|]. destruct (He eq_refl) as (Hs & Hend & Hcl).
    assert (Hin : end_ ∈ V).
    { apply (closed_set_reach g V start); [|by apply Hs|done].
      intros x y Hx. apply Hcl; [done | set_solver]. }
    apply Hend in Hin. set_solver.
Qed.

(** [existsPath] terminates within its fuel on every graph that the tool can build, leaves the
    graph as it is, and answers exactly whether both files are nodes and a chain of inclusions
    leads from the first to the second, cycles included; the order in which the unordered sets are
    walked does not matter. *)
Theorem existsPath_correct g start end_ :
  closed g ->
  exists found, existsPath order g start end_ = Some (g, found) /\
    (found = true <->
       adjacencyList g !! start ≠ None /\ adjacencyList g !! end_ ≠ None /\ rtc (edge g) start end_).
Proof. apply existsPath_total. Qed.

(** One round of marking. *)
Lemma mark_one_ok g hn node marked warned (Hg : closed g) :
  exists marked', mark_one order hn node (g, marked, warned)
      = Some (g, marked', warned || negb (nodeExists g (fst node))) /\
    (forall k r, marked' !! k = Some r <->
       marked !! k = Some r \/
       (marked !! k = None /\ (k, r) = node /\ adjacencyList g !! k ≠ None /\
        adjacencyList g !! hn ≠ None /\ rtc (edge g) k hn)).
Proof.
  unfold mark_one. destruct (existsPath_total g (fst node) hn Hg) as (f & -> & Hf). simpl.
  eexists; split; [done|]. intros k r. destruct node as [k0 r0]; simpl in *. destruct f.
  - destruct (proj1 Hf eq_refl) as (? & ? & ?). unfold insert_new.
    destruct (marked !! k0) eqn:E; [naive_solver|].
    destruct (decide (k = k0)) as [->|Hk].
    + rewrite lookup_insert_eq, E. naive_solver.
    + rewrite lookup_insert_ne by done. naive_solver.
  - naive_solver.
Qed.
End search_facts.

(** ** What the callback records *)

(** The directive [d] includes the file [b] from the file [a], both user files. *)
Definition includes (ds : list directive) (a b : string) : Prop :=
  exists d, d ∈ ds /\ d_user d = true /\ d_source d = a /\ d_File d = Some b.

(** The directive stands in the main file and resolves to the file [k]. *)
Definition includes_in_main (k : string) (d : directive) : Prop :=
  d_user d = true /\ d_main d = true /\ d_File d = Some k.

#[export] Instance includes_in_main_dec k d : Decision (includes_in_main k d).
Proof. unfold includes_in_main. apply _. Defined.

(** The first inclusion of [k] in the main file. *)
Definition first_inclusion (ds : list directive) (k : string) : option directive :=
  head (filter (includes_in_main k) ds).

Lemma preprocess_snoc ds d : preprocess (ds ++ [d]) = InclusionDirective d (preprocess ds).
Proof. unfold preprocess. by rewrite fold_left_app. Qed.

Lemma InclusionDirective_graph d h :
  G (InclusionDirective d h) =
    match d_user d, d_File d with true, Some f => addEdge (d_source d) f (G h) | _, _ => G h end.
Proof. unfold InclusionDirective. destruct (d_user d), (d_main d), (d_File d); done. Qed.

Lemma includes_snoc ds d a b :
  includes (ds ++ [d]) a b <->
    includes ds a b \/ (d_user d = true /\ d_source d = a /\ d_File d = Some b).
Proof.
  unfold includes. split.
  - intros (d' & [?| ->%list_elem_of_singleton]%elem_of_app & ?); [left; eauto | by right].
  - intros [(d' & ? & ?)|?]; [exists d' | exists d]; split; try done; apply elem_of_app;
      [by left | right; by left].
Qed.

Lemma preprocess_edges ds a b : edge (G (preprocess ds)) a b <-> includes ds a b.
Proof.
  revert a b. induction ds as [|d ds IH] using rev_ind; intros a b.
  - split; [by intros (? & ? & ?) | by intros (? & ?%elem_of_nil & ?)].
  - rewrite preprocess_snoc, InclusionDirective_graph, includes_snoc, <- IH.
    destruct (d_user d), (d_File d); [rewrite addEdge_edge|..]; naive_solver.
Qed.

Lemma preprocess_closed ds : closed (G (preprocess ds)).
Proof.
  induction ds as [|d ds IH] using rev_ind; [by intros a b (? & ? & ?)|].
  rewrite preprocess_snoc, InclusionDirective_graph.
  destruct (d_user d), (d_File d); [by apply addEdge_closed | done..].
Qed.

Lemma head_app_option {A} (l : list A) x :
  head (l ++ [x]) = match head l with Some y => Some y | None => Some x end.
Proof. by destruct l. Qed.

(** Of several inclusions of a header in the main file the table keeps the first. *)
Lemma preprocess_main ds k :
  mainHeaders (preprocess ds) !! k = d_range <$> first_inclusion ds k.
Proof.
  unfold first_inclusion. revert k. induction ds as [|d ds IH] using rev_ind; intros k; [done|].
  rewrite preprocess_snoc, filter_app, filter_cons, filter_nil. unfold InclusionDirective.
  case_decide as Hd.
  - destruct Hd as (Hu & Hm & HF). rewrite Hu, Hm, HF, head_app_option. cbn [mainHeaders].
    unfold insert_new. rewrite (IH k). destruct (head _) eqn:E; simpl.
    + by rewrite (IH k), E.
    + by rewrite lookup_insert_eq.
  - rewrite app_nil_r. rewrite <- (IH k). unfold includes_in_main in Hd.
    destruct (d_user d), (d_main d), (d_File d) as [f|]; simpl; try done.
    unfold insert_new. destruct (mainHeaders (preprocess ds) !! f); [done|].
    rewrite lookup_insert_ne; [done|]. intros ->. by apply Hd.
Qed.

Lemma preprocess_main_node ds k r :
  mainHeaders (preprocess ds) !! k = Some r -> adjacencyList (G (preprocess ds)) !! k ≠ None.
Proof.
  rewrite preprocess_main. unfold first_inclusion.
  intros (d & Hd & ->)%fmap_Some. apply head_Some_elem_of, list_elem_of_filter in Hd.
  destruct Hd as ((Hu & _ & HF) & Hin).
  apply (preprocess_closed ds (d_source d)), preprocess_edges. by exists d.
Qed.

(** ** The marked inclusions *)

(** [m] is the part of [mh] whose keys satisfy [P]. *)
Definition selects (mh : gmap string range) (P : string -> Prop) (m : gmap string range) : Prop :=
  forall k r, m !! k = Some r <-> mh !! k = Some r /\ P k.

(** The header [k] leads to [hn] in the graph. *)
Definition leads (g : HeaderGraph) (hn k : string) : Prop :=
  adjacencyList g !! hn ≠ None /\ rtc (edge g) k hn.

Section marking_facts.
Context (order : gset string -> list string).
Hypothesis order_elements : forall s x, x ∈ order s <-> x ∈ s.
Context (g : HeaderGraph) (mh : gmap string range).
Hypothesis g_closed : closed g.
Hypothesis mh_nodes : forall k r, mh !! k = Some r -> adjacencyList g !! k ≠ None.

Lemma mark_nodes_ok hn nodes : (forall k r, (k, r) ∈ nodes -> mh !! k = Some r) ->
  forall P m, selects mh P m ->
  exists m', foldl (fun st node => st ≫= mark_one order hn node) (Some (g, m, false)) nodes
      = Some (g, m', false) /\
    selects mh (fun k => P k \/ (k ∈ nodes.*1 /\ leads g hn k)) m'.
Proof.
  induction nodes as [|[k0 r0] nodes IH]; intros Hn P m Hm.
  { exists m. split; [done|]. intros k r. rewrite (Hm k r). set_solver. }
  assert (H0 : mh !! k0 = Some r0) by (apply Hn; by left).
  cbn [foldl]. destruct (mark_one_ok order order_elements g hn (k0, r0) m false g_closed)
    as (m1 & Hst & Hm1).
  assert (Hnode : nodeExists g k0 = true) by (apply nodeExists_true; eauto).
  cbn [fst orb] in Hst. rewrite Hnode in Hst. cbn [mbind option_bind]. rewrite Hst. cbn [negb].
  destruct (IH) with (P := fun k => P k \/ (k = k0 /\ leads g hn k)) (m := m1) as (m' & -> & Hm').
  { intros k r ?. apply Hn. by right. }
  { intros k r. rewrite (Hm1 k r), (Hm k r). unfold leads. split.
    - intros [[? ?]|(? & [= -> ->] & ? & ? & ?)]; split; naive_solver.
    - intros [Hk HP]. destruct (m !! k) as [r'|] eqn:E.
      + left. apply Hm in E. naive_solver.
      + right. destruct HP as [HP|(-> & ?)].
        * assert (m !! k = Some r) by (by apply Hm). congruence.
        * split; [done|]. split; [congruence|]. naive_solver. }
  exists m'. split; [done|]. intros k r. rewrite (Hm' k r). simpl. set_solver.
Qed.

Lemma mark_headers_ok nodes hns :
  (forall k r, (k, r) ∈ nodes <-> mh !! k = Some r) ->
  exists m, mark_headers order hns nodes g = Some (g, m, false) /\
    selects mh (fun k => exists hn, hn ∈ hns /\ leads g hn k) m.
Proof.
  intros Hn. unfold mark_headers.
  assert (Hgen : forall P m, selects mh P m ->
    exists m', foldl (fun st hn => st ≫= fun st =>
        foldl (fun st node => st ≫= mark_one order hn node) (Some st) nodes) (Some (g, m, false)) hns
      = Some (g, m', false) /\ selects mh (fun k => P k \/ exists hn, hn ∈ hns /\ leads g hn k) m').
  { induction hns as [|hn hns IH]; intros P m Hm.
    { exists m. split; [done|]. intros k r. rewrite (Hm k r). set_solver. }
    cbn [foldl]. cbn [mbind option_bind].
    destruct (mark_nodes_ok hn nodes (fun k r => proj1 (Hn k r)) P m Hm) as (m1 & -> & Hm1).
    destruct (IH _ m1 Hm1) as (m' & -> & Hm'). exists m'. split; [done|].
    intros k r. rewrite (Hm' k r).
    assert (mh !! k = Some r -> k ∈ nodes.*1).
    { intros Hk. apply list_elem_of_fmap. exists (k, r). split; [done | by apply Hn]. }
    setoid_rewrite elem_of_cons. naive_solver. }
  destruct (Hgen (fun _ => False) ∅) as (m & -> & Hm).
  { intros k r. rewrite lookup_empty. naive_solver. }
  exists m. split; [done|]. intros k r. rewrite (Hm k r). naive_solver.
Qed.
End marking_facts.

Lemma rtc_edges_include ds k hn : rtc (edge (G (preprocess ds))) k hn <-> rtc (includes ds) k hn.
Proof. split; apply rtc_subrel; intros a b; apply preprocess_edges. Qed.

Lemma leads_include ds k hn : adjacencyList (G (preprocess ds)) !! k ≠ None ->
  leads (G (preprocess ds)) hn k <-> rtc (includes ds) k hn.
Proof.
  intros Hk. unfold leads. rewrite rtc_edges_include. split; [by intros [_ ?]|].
  intros H. split; [|done]. apply rtc_inv_r in H as [->|(c & _ & Hc)]; [done|].
  eapply preprocess_closed, preprocess_edges, Hc.
Qed.

(** C24: for every sequence of inclusions the preprocessor reports, the marking of
    [EndSourceFileAction] ends, never prints its missing-node message, and marks exactly the
    headers the main file includes that lead, through any chain of inclusions in user files, to a
    file that declares the ADF calls; the guarded range is that of the header's first inclusion in
    the main file, so that a second [#include] of it stays unguarded. *)
Theorem marked_iff_leads_to_api
    (order : gset string -> list string) ds hns nodes :
  (forall s x, x ∈ order s <-> x ∈ s) ->
  (forall k r, (k, r) ∈ nodes <-> mainHeaders (preprocess ds) !! k = Some r) ->
  exists m, mark_headers order hns nodes (G (preprocess ds)) = Some (G (preprocess ds), m, false) /\
    forall k r, m !! k = Some r <->
      d_range <$> first_inclusion ds k = Some r /\ exists hn, hn ∈ hns /\ rtc (includes ds) k hn.
Proof.
  intros Hord Hn.
  destruct (mark_headers_ok order Hord _ _ (preprocess_closed ds) (preprocess_main_node ds) nodes hns Hn)
    as (m & -> & Hm).
  exists m. split; [done|]. intros k r. rewrite (Hm k r), preprocess_main.
  split; intros [Hk (hn & Hin & Hl)]; (split; [done|]); exists hn; (split; [done|]);
    revert Hl; apply leads_include; apply (preprocess_main_node ds k r); by rewrite preprocess_main.
Qed.

(** ** The test program's inclusions *)

Module HeaderDemo.
(** [graph.h] leads to [adf.h] through a cycle; the second inclusion of it stays as it is. *)
Definition demo_directives : list directive :=
  [ mkDirective "graph.cpp" "graph.h" (Some "t/graph.h") true true (0, 17);
    mkDirective "t/graph.h" "kernels.h" (Some "t/kernels.h") true false (0, 5);
    mkDirective "t/kernels.h" "graph.h" (Some "t/graph.h") true false (0, 5);
    mkDirective "t/kernels.h" "adf.h" (Some "adf.h") true false (6, 9);
    mkDirective "graph.cpp" "vector" (Some "vector") false true (18, 30);
    mkDirective "graph.cpp" "xparams.h" (Some "t/xparams.h") true true (31, 50);
    mkDirective "graph.cpp" "graph.h" (Some "t/graph.h") true true (51, 68) ].

Example demo_marked :
  (fun r => map_to_list (snd (fst r))) <$>
    mark_headers elements ["adf.h"] (map_to_list (mainHeaders (preprocess demo_directives)))
      (G (preprocess demo_directives))
  = Some [("t/graph.h", (0, 17))].
Proof. vm_compute. reflexivity. Qed.

Example demo_guard :
  guard_marked ("t/graph.h", (0, 17)) =
    ReplaceText (0, 17) ("#if (defined(__AIESIM__) || defined(__ADF_FRONTEND__))" +:+ nl +:+ "#include "
      +:+ dq +:+ "graph.h" +:+ dq +:+ nl +:+ "#endif").
Proof. vm_compute. reflexivity. Qed.
End HeaderDemo.

Lemma marked_iff_leads_to_api_witness :
  exists m, mark_headers elements ["adf.h"]
      (map_to_list (mainHeaders (preprocess HeaderDemo.demo_directives)))
      (G (preprocess HeaderDemo.demo_directives))
    = Some (G (preprocess HeaderDemo.demo_directives), m, false) /\
    forall k r, m !! k = Some r <->
      d_range <$> first_inclusion HeaderDemo.demo_directives k = Some r /\
      exists hn, hn ∈ ["adf.h"] /\ rtc (includes HeaderDemo.demo_directives) k hn.
Proof.
  apply (marked_iff_leads_to_api elements HeaderDemo.demo_directives ["adf.h"]
           (map_to_list (mainHeaders (preprocess HeaderDemo.demo_directives)))).
  - intros s x. apply elem_of_elements.
  - intros k r. apply elem_of_map_to_list.
Defined.

Lemma existsPath_correct_witness :
  exists found, existsPath elements (G (preprocess HeaderDemo.demo_directives)) "t/graph.h" "adf.h"
      = Some (G (preprocess HeaderDemo.demo_directives), found) /\
    (found = true <->
       adjacencyList (G (preprocess HeaderDemo.demo_directives)) !! "t/graph.h" ≠ None /\
       adjacencyList (G (preprocess HeaderDemo.demo_directives)) !! "adf.h" ≠ None /\
       rtc (edge (G (preprocess HeaderDemo.demo_directives))) "t/graph.h" "adf.h").
Proof.
  apply (existsPath_correct elements (fun s x => elem_of_elements s x)).
  apply preprocess_closed.
Defined.
