(* ===== verification/AdfTool.v ===== *)
(** * The ADF conversion tool

    The visitor of [src/tools/adftoaeg/src/adftoaeg.cc], which rewrites the declarations of ADF
    graphs and the calls on them into declarations of and calls on [AbrGraph] objects, and the end
    of the frontend action, which completes the edits and writes the new file.
    - Syntax is what the tool looks at: [expr] has clang's node kinds that the code tests with
      [dyn_cast], and every other kind is [OtherExpr].  The work of clang itself is a parameter:
      [printPretty], the column of a position, the end of a token, and the order in which the
      unordered maps are walked.  So is what [names.erase(names.end())] does, which the C++ standard
      leaves undefined ([VectorErase]); the theorems assume what libstdc++ makes of it.
    - The visitor's tables are finite maps; [operator[]] on a missing key inserts a default value,
      and [insert] keeps an old entry, as in the C++ library.
    - A step of the tool is [option]-valued: [None] stands for a step that C++ leaves undefined
      (an empty vector's [back], an index past the end, a read of an uninitialised pointer). *)
From Stdlib Require Import ZArith Lia Ascii String.
From stdpp Require Import base list gmap sets strings pretty relations.
From S2P Require Import Prelude AdfHeaders.

Local Open Scope string_scope.
Local Open Scope list_scope.

(** ** Syntax *)

(** A type: its spelling and, for a class, the names of its direct bases; a base that is not a
    class type (a dependent one) has no name. *)
Record qtype := mkType { ty_string : string; ty_bases : option (list (option string)) }.

(** Expressions, by the node kinds the tool distinguishes. *)
Inductive expr :=
  | DeclRefExpr (name : string) (type : qtype)
  | MemberExpr (base : expr) (member : string)
  | ArraySubscriptExpr (base idx : expr)
  | IntegerLiteral (text : string)
  | ImplicitCastExpr (sub : expr)
  | OtherExpr (text : string).

(** Implicit casts are transparent for the tool. *)
Fixpoint IgnoreImplicit (e : expr) : expr :=
  match e with ImplicitCastExpr s => IgnoreImplicit s | _ => e end.

(** A call: the name of the function it calls directly, its arguments and its range. *)
Record CallExpr := mkCall { ce_callee : option string; ce_args : list expr; ce_range : range }.

(** The syntax node above a member call. *)
Inductive parent_kind :=
  | CompoundStmt | ForStmt | WhileStmt | IfStmt | DoStmt | SwitchStmt | OtherStmt | NotStmt.

#[export] Instance parent_kind_eq_dec : EqDecision parent_kind.
Proof. solve_decision. Defined.

(** A member call: the method's name, the callee expression, the arguments, the range and the node
    above it with its first position. *)
Record CXXMemberCallExpr := mkMemberCall {
  mc_method : option string;
  mc_callee : expr;
  mc_args : list expr;
  mc_range : range;
  mc_parent : parent_kind * location }.

Record VarDecl := mkVar { vd_file : bool; vd_name : string; vd_type : qtype; vd_range : range }.

(** A method: its name, whether it is static, the class [this] points to, the class that declares
    it, and the file of the declaration. *)
Record CXXMethodDecl := mkMethod {
  md_name : string; md_static : bool; md_this : option string; md_parent : option string;
  md_filename : string }.

(** The nodes the traversal reports, in its order. *)
Inductive node :=
  | NCall (c : CallExpr)
  | NMemberCall (c : CXXMemberCallExpr)
  | NVarDecl (d : VarDecl)
  | NMethodDecl (d : CXXMethodDecl).

(** A top-level declaration: whether its file is a user file, and the nodes below it. *)
Record decl := mkDecl { decl_user : bool; decl_nodes : list node }.

(** A match of the allocation pattern: the assigned variable, the declared variable and the call,
    as far as they are bound. *)
Record MatchResult := mkMatch {
  eqVarName : option string; directVarName : option string; MallocCall : option CallExpr }.

(** ** Text helpers *)

(** [std::string(n, ' ')]. *)
Definition spaces (n : nat) : string := String.string_of_list_ascii (replicate n " "%char).

(** The first position of the line of [n].
    [src/tools/adftoaeg/src/adftoaeg.cc:150-152] [getLine] *)
Fixpoint line_start (buffer : list ascii) (n : location) : location :=
  match n with
  | O => O
  | S m => if decide (buffer !! m = Some "010"%char) then n else line_start buffer m
  end.

(** The text up to the end of the line or the terminating null.
    [src/tools/adftoaeg/src/adftoaeg.cc:154-156] [getLine] *)
Fixpoint to_line_end (l : list ascii) : list ascii :=
  match l with
  | [] => []
  | c :: l => if decide (c = "000"%char \/ c = "010"%char) then [] else c :: to_line_end l
  end.

(** [src/tools/adftoaeg/src/adftoaeg.cc:143-159] [getLine] *)
Definition getLine (buffer : list ascii) (loc : location) : list ascii :=
  to_line_end (drop (line_start buffer loc) buffer).

(** [src/tools/adftoaeg/src/adftoaeg.cc:161-173] [getIndentation] *)
Fixpoint getIndentation (line : list ascii) : nat :=
  match line with
  | [] => 0
  | c :: line =>
      if decide (c = " "%char) then 1 + getIndentation line
      else if decide (c = "009"%char) then 4 + getIndentation line else 0
  end.

(** Only the direct bases are inspected.
    [src/tools/adftoaeg/src/adftoaeg.cc:181-199] [GlobalFunctionVisitor::IsDerivedFromBaseClass] *)
Definition IsDerivedFromBaseClass (type : qtype) (BaseClassName : string) : bool :=
  match ty_bases type with
  | Some bases => existsb (fun b => bool_decide (b = Some BaseClassName)) bases
  | None => false
  end.

(** [back() = '['] on a non-empty string. *)
Fixpoint set_last (c : ascii) (s : string) : string :=
  match s with
  | EmptyString => EmptyString
  | String a EmptyString => String c EmptyString
  | String a s => String a (set_last c s)
  end.

(** [s.erase(s.end() - 3, s.end())]. *)
Definition erase3 (s : string) : string :=
  let l := String.list_ascii_of_string s in
  String.string_of_list_ascii (take (List.length l - 3) l).

(** Replaces the last element of a vector; [back] of an empty one is undefined. *)
Definition update_back (f : string -> string) (l : list string) : option (list string) :=
  match last l with Some x => Some (removelast l ++ [f x]) | None => None end.

(** The name of the [index]-th graph object.
    [src/tools/adftoaeg/src/adftoaeg.cc:337-337] [GlobalFunctionVisitor::VisitVarDecl] *)
Definition graph_name (index : nat) : string :=
  "gr" +:+ match index with O => "" | _ => pretty (N.of_nat index) end.

(** ** State *)

(** [src/tools/adftoaeg/src/adftoaeg.cc:175-179] [GlobalFunctionVisitor] *)
Record visitor := mkVisitor {
  headerNames : gset string;
  MemVars : gmap string string;
  varFlags : gmap string Z;
  graphNames : gmap string string;
  MemFuncs : gmap range (string * string);
  num_temps : nat;
  edits : list edit }.

(** The visitor of a new frontend action. *)
Definition new_visitor : visitor := mkVisitor ∅ ∅ ∅ ∅ ∅ 0 [].

Definition set_graphNames (m : gmap string string) (v : visitor) : visitor :=
  mkVisitor (headerNames v) (MemVars v) (varFlags v) m (MemFuncs v) (num_temps v) (edits v).
Definition set_MemVars (m : gmap string string) (v : visitor) : visitor :=
  mkVisitor (headerNames v) m (varFlags v) (graphNames v) (MemFuncs v) (num_temps v) (edits v).
Definition set_varFlags (m : gmap string Z) (v : visitor) : visitor :=
  mkVisitor (headerNames v) (MemVars v) m (graphNames v) (MemFuncs v) (num_temps v) (edits v).
Definition set_temps (n : nat) (v : visitor) : visitor :=
  mkVisitor (headerNames v) (MemVars v) (varFlags v) (graphNames v) (MemFuncs v) n (edits v).
Definition add_edits (es : list edit) (v : visitor) : visitor :=
  mkVisitor (headerNames v) (MemVars v) (varFlags v) (graphNames v) (MemFuncs v) (num_temps v)
    (edits v ++ es).
Definition add_headerName (n : string) (v : visitor) : visitor :=
  mkVisitor ({[n]} ∪ headerNames v) (MemVars v) (varFlags v) (graphNames v) (MemFuncs v)
    (num_temps v) (edits v).

(** [MemFuncs.insert]: the first entry for a range stays. *)
Definition insert_MemFunc (r : range) (p : string * string) (v : visitor) : visitor :=
  match MemFuncs v !! r with
  | Some _ => v
  | None => mkVisitor (headerNames v) (MemVars v) (varFlags v) (graphNames v)
              (<[r := p]> (MemFuncs v)) (num_temps v) (edits v)
  end.

(** [graphNames[name]]: an unknown name gets the empty string. *)
Definition graphName_of (name : string) (v : visitor) : visitor * string :=
  match graphNames v !! name with
  | Some s => (v, s)
  | None => (set_graphNames (<[name := ""]> (graphNames v)) v, "")
  end.

(** ** The visitor *)

(** What the tool keeps of a member expression.
    [src/tools/adftoaeg/src/adftoaeg.cc:123-138] [MemberExprChain] *)
Record MemberExprChain := mkChain {
  mec_parts : list string;
  mec_graphName : string;
  mec_function : string;
  mec_setup : string;
  mec_as_string : string }.

(** [names.erase(names.end())], which the C++ standard leaves undefined: what the library the tool is
    built with makes of it. *)
Class VectorErase := erase_end : list string -> option (list string).

(** In libstdc++ it removes the last element of a vector that has one. *)
Class ErasesLast {VE : VectorErase} : Prop :=
  erase_end_last : forall names, names ≠ [] -> erase_end names = Some (removelast names).

Section visitor.
Context {VE : VectorErase}.
Context (printPretty : expr -> string).
Context (rpuFlag : bool).
Context (buffer : list ascii).
Context (getSpellingColumnNumber : location -> nat).
Context (findLocationAfterToken : location -> option location).
Context (getLocForEndOfToken : location -> location).
Context (func_order : gmap range (string * string) -> list (range * (string * string))).

(** [src/tools/adftoaeg/src/adftoaeg.cc:218-232] [GlobalFunctionVisitor::GetArgument] *)
Fixpoint GetArgument (ArgExpr : expr) : string :=
  match ArgExpr with
  | DeclRefExpr name _ => name
  | ArraySubscriptExpr base _ => printPretty base
  | ImplicitCastExpr sub => GetArgument sub
  | _ => printPretty ArgExpr
  end.

(** The text a subscript that is not a literal leaves in the parts.
    [src/tools/adftoaeg/src/adftoaeg.cc:258-264] [GlobalFunctionVisitor::getMemberExprChainInternal] *)
Definition split_parts (names parts : list string) (temp : string) : option (list string) :=
  parts ← update_back (fun b => set_last "["%char (fold_left (fun b name => b +:+ name +:+ ".") names b) +:+ dq)
            parts;
  Some (parts ++ ["std::to_string(" +:+ temp +:+ ")"; dq +:+ "]"]).

(** [src/tools/adftoaeg/src/adftoaeg.cc:234-272] [GlobalFunctionVisitor::getMemberExprChainInternal] *)
Fixpoint getMemberExprChainInternal (e : expr) (names parts : list string)
    : option (list string * list string) :=
  match e with
  | ImplicitCastExpr e => getMemberExprChainInternal e names parts
  | MemberExpr base member =>
      '(names, parts) ← getMemberExprChainInternal base names parts;
      Some (names ++ [member], parts)
  | ArraySubscriptExpr base idx =>
      '(names, parts) ← getMemberExprChainInternal base names parts;
      let Index := IgnoreImplicit idx in
      let temp := printPretty Index in
      match Index with
      | IntegerLiteral _ =>
          names ← update_back (fun b => b +:+ "[" +:+ temp +:+ "]") names;
          Some (names, parts)
      | _ =>
          parts ← split_parts names parts temp;
          names ← update_back (fun b => b +:+ "[" +:+ temp +:+ "]") names;
          Some (names, parts)
      end
  | DeclRefExpr name _ => Some (names ++ [name], parts)
  | _ => Some (names, parts)
  end.

(** The names joined with dots, in quotes; for no name at all the loop bound wraps around and the
    first read is out of bounds.
    [src/tools/adftoaeg/src/adftoaeg.cc:297-301] [GlobalFunctionVisitor::getMemberExprChain] *)
Definition quoted_path (names : list string) : option string :=
  match last names with
  | Some l => Some (dq +:+ fold_left (fun s n => s +:+ n +:+ ".") (removelast names) "" +:+ l +:+ dq)
  | None => None
  end.

(** The function's name is taken off the chain with [names.erase(names.end())].
    [src/tools/adftoaeg/src/adftoaeg.cc:274-308] [GlobalFunctionVisitor::getMemberExprChain] *)
Definition getMemberExprChain (e : expr) (v : visitor) : option (MemberExprChain * visitor) :=
  '(names, parts) ← getMemberExprChainInternal e [] [dq];
  let str := "_adftoaeg_temp_" +:+ pretty (N.of_nat (num_temps v)) in
  let setup := fold_left (fun s part => s +:+ part +:+ " + ") parts ("char *" +:+ str +:+ " = (") in
  graphName ← head names;
  function ← last names;
  names ← erase_end names;
  if decide (parts = [dq]) then
    str ← quoted_path names;
    Some (mkChain parts graphName function "" str, v)
  else
    let setup := erase3 setup +:+ dq +:+ ").data();" in
    Some (mkChain parts graphName function setup str, set_temps (S (num_temps v)) v).

(** [src/tools/adftoaeg/src/adftoaeg.cc:310-323] [GlobalFunctionVisitor::VisitCallExpr] *)
Definition VisitCallExpr (CE : CallExpr) (v : visitor) : option visitor :=
  if decide (ce_callee CE = Some "free") then
    arg ← head (ce_args CE);
    let firstArgExpr := IgnoreImplicit arg in
    Some (insert_MemFunc (ce_range CE)
            (GetArgument firstArgExpr, ".free(" +:+ GetArgument firstArgExpr +:+ ")") v)
  else Some v.

(** The declaration that replaces a graph variable's.
    [src/tools/adftoaeg/src/adftoaeg.cc:343-346] [GlobalFunctionVisitor::VisitVarDecl] *)
Definition new_declaration (VD : VarDecl) (newAdfrGraphName : string) : string :=
  "#if (defined(__AIESIM__) || defined(__ADF_FRONTEND__))" +:+ nl
  +:+ ty_string (vd_type VD) +:+ " " +:+ vd_name VD +:+ "; " +:+ nl +:+ "#endif" +:+ nl
  +:+ "AbrGraph " +:+ newAdfrGraphName +:+ "(" +:+ dq +:+ vd_name VD +:+ dq
  +:+ (if rpuFlag then ", true" else "") +:+ ")".

(** [src/tools/adftoaeg/src/adftoaeg.cc:325-353] [GlobalFunctionVisitor::VisitVarDecl] *)
Definition VisitVarDecl (VD : VarDecl) (v : visitor) : visitor :=
  if vd_file VD && IsDerivedFromBaseClass (vd_type VD) "graph" then
    let newAdfrGraphName := graph_name (size (graphNames v)) in
    let v := set_graphNames (insert_new (vd_name VD) newAdfrGraphName (graphNames v)) v in
    add_edits [ReplaceText (vd_range VD) (new_declaration VD newAdfrGraphName)] v
  else v.

(** [g.wait()] on a graph variable, [port.wait()] on a member of one.
    [src/tools/adftoaeg/src/adftoaeg.cc:358-406] [GlobalFunctionVisitor::VisitCXXMemberCallExpr] *)
Definition visit_wait (MC : CXXMemberCallExpr) (v : visitor) : option visitor :=
  match IgnoreImplicit (mc_callee MC) with
  | MemberExpr base _ =>
      match IgnoreImplicit base with
      | DeclRefExpr name type =>
          if IsDerivedFromBaseClass type "graph" then
            let '(v, newAdfrGraphName) := graphName_of name v in
            let text := match mc_args MC with
                        | arg :: _ => newAdfrGraphName +:+ ".wait(" +:+ GetArgument arg +:+ ")"
                        | [] => newAdfrGraphName +:+ ".wait()"
                        end in
            Some (add_edits [ReplaceText (mc_range MC) text] v)
          else Some v
      | _ =>
          '(chain, v) ← getMemberExprChain (mc_callee MC) v;
          let '(v, newAdfrGraphName) := graphName_of (mec_graphName chain) v in
          let text := match mc_args MC with
                      | arg :: _ => newAdfrGraphName +:+ ".wait(" +:+ mec_as_string chain +:+ "," +:+ dq
                                    +:+ GetArgument arg +:+ dq +:+ ")"
                      | [] => newAdfrGraphName +:+ ".gmio_wait(" +:+ mec_as_string chain +:+ ")"
                      end in
          Some (add_edits [ReplaceText (mc_range MC) text] v)
      end
  | _ => Some v
  end.

(** The rewritten text of [init], [resume], [end] and [run].
    [src/tools/adftoaeg/src/adftoaeg.cc:427-451] [GlobalFunctionVisitor::VisitCXXMemberCallExpr] *)
Definition control_text (method newAdfrGraphName : string) (args : list expr) : string :=
  if decide (method = "init") then newAdfrGraphName +:+ ".init()"
  else if decide (method = "resume") then newAdfrGraphName +:+ ".resume()"
  else if decide (method = "end") then
    match args with
    | arg :: _ => newAdfrGraphName +:+ ".end(" +:+ GetArgument arg +:+ ")"
    | [] => newAdfrGraphName +:+ ".end()"
    end
  else
    match args with
    | arg :: _ => newAdfrGraphName +:+ ".run(" +:+ GetArgument arg +:+ ")"
    | [] => newAdfrGraphName +:+ ".run()"
    end.

(** [memberDecl] is only assigned when the object is a plain variable; otherwise the code reads it
    uninitialised.
    [src/tools/adftoaeg/src/adftoaeg.cc:407-453] [GlobalFunctionVisitor::VisitCXXMemberCallExpr] *)
Definition visit_control (method : string) (MC : CXXMemberCallExpr) (v : visitor) : option visitor :=
  match IgnoreImplicit (mc_callee MC) with
  | MemberExpr base _ =>
      match IgnoreImplicit base with
      | DeclRefExpr name type =>
          if IsDerivedFromBaseClass type "graph" then
            let '(v, newAdfrGraphName) := graphName_of name v in
            Some (add_edits [ReplaceText (mc_range MC) (control_text method newAdfrGraphName (mc_args MC))] v)
          else Some v
      | _ => None
      end
  | _ => None
  end.

(** The transfer calls of a GMIO port.
    [src/tools/adftoaeg/src/adftoaeg.cc:481-484] [GlobalFunctionVisitor::VisitCXXMemberCallExpr] *)
Definition is_gmio_transfer (method : string) : bool :=
  bool_decide (method ∈ ["gm2aie_nb"; "aie2gm_nb"; "gm2aie"; "aie2gm"]).

(** The arguments of [setAddress], separated by commas and closed by a parenthesis.
    [src/tools/adftoaeg/src/adftoaeg.cc:472-480] [GlobalFunctionVisitor::VisitCXXMemberCallExpr] *)
Fixpoint address_args (args : list expr) : string :=
  match args with
  | [] => ""
  | [arg] => GetArgument arg +:+ ")"
  | arg :: args => GetArgument arg +:+ "," +:+ address_args args
  end.

(** The arguments behind the cast: the first one closes the cast.
    [src/tools/adftoaeg/src/adftoaeg.cc:492-504] [GlobalFunctionVisitor::VisitCXXMemberCallExpr] *)
Definition cast_args (args : list expr) : string :=
  match args with
  | [] => ""
  | [arg] => GetArgument arg +:+ "))"
  | arg :: args => GetArgument arg +:+ ")," +:+ address_args args
  end.

(** [src/tools/adftoaeg/src/adftoaeg.cc:465-505] [GlobalFunctionVisitor::VisitCXXMemberCallExpr] *)
Definition data_text (method newAdfrGraphName : string) (chain : MemberExprChain) (args : list expr) : string :=
  newAdfrGraphName +:+ "." +:+ mec_function chain +:+ "(" +:+ mec_as_string chain +:+
  (if decide (method = "setAddress") then "," +:+ address_args args
   else if bool_decide (List.length args = 1) && is_gmio_transfer method then
     "," +:+ dq +:+ match args with arg :: _ => GetArgument arg +:+ ")" | [] => "" end
   else ",reinterpret_cast<char*>(" +:+ cast_args args).

(** A call with a subscript that is not a literal: the whole line is replaced, the set-up line is
    put before it and, under a statement without braces, braces around both.
    [src/tools/adftoaeg/src/adftoaeg.cc:509-544] [GlobalFunctionVisitor::VisitCXXMemberCallExpr] *)
Definition setup_edits (MC : CXXMemberCallExpr) (setup text : string) : list edit :=
  let '(StartLoc, EndLoc) := mc_range MC in
  let parentIndentStr := spaces (getIndentation (getLine buffer (snd (mc_parent MC)))) in
  let indentStr := spaces (getIndentation (getLine buffer StartLoc)) in
  let '(before, after) :=
    match fst (mc_parent MC) with
    | ForStmt | WhileStmt | IfStmt | DoStmt | SwitchStmt =>
        ("{" +:+ nl +:+ indentStr, nl +:+ parentIndentStr +:+ "}")
    | CompoundStmt | OtherStmt | NotStmt => ("", "")
    end in
  let LineStart := StartLoc + 1 - getSpellingColumnNumber StartLoc in
  let AfterSemicolon := match findLocationAfterToken EndLoc with
                        | Some l => l
                        | None => getLocForEndOfToken EndLoc
                        end in
  [ ReplaceText (LineStart, EndLoc) (indentStr +:+ text);
    InsertTextBefore LineStart (parentIndentStr +:+ before +:+ setup +:+ nl);
    InsertTextAfterToken AfterSemicolon after ].

(** [std::string::find] succeeds. *)
Definition contains (name pat : string) : bool := bool_decide (String.index 0 pat name ≠ None).

(** The search for the allocation that an argument names.  The flag is compared, not assigned, so
    the last matching entry of the walk wins; reading a flag creates it with the value 0.
    [src/tools/adftoaeg/src/adftoaeg.cc:551-558] [GlobalFunctionVisitor::VisitCXXMemberCallExpr] *)
Definition find_var (name : string) (funcs : list (range * (string * string))) (flags : gmap string Z)
    : gmap string Z * string :=
  fold_left (fun '(flags, found) (var : range * (string * string)) =>
      let key := fst (snd var) in
      let flags := insert_new key 0%Z flags in
      if bool_decide (flags !! key ≠ Some 1%Z) && contains name key then (flags, key) else (flags, found))
    funcs (flags, "").

(** The transfer calls and [setAddress] associate the allocation with the graph.
    [src/tools/adftoaeg/src/adftoaeg.cc:546-560] [GlobalFunctionVisitor::VisitCXXMemberCallExpr] *)
Definition associate (method graphName : string) (args : list expr) (v : visitor) : option visitor :=
  if is_gmio_transfer method || bool_decide (method = "setAddress") then
    arg ← head args;
    let '(flags, found) := find_var (GetArgument arg) (func_order (MemFuncs v)) (varFlags v) in
    Some (set_MemVars (insert_new found graphName (MemVars v)) (set_varFlags flags v))
  else Some v.

(** [src/tools/adftoaeg/src/adftoaeg.cc:455-561] [GlobalFunctionVisitor::VisitCXXMemberCallExpr] *)
Definition visit_data (method : string) (MC : CXXMemberCallExpr) (v : visitor) : option visitor :=
  '(chain, v) ← getMemberExprChain (mc_callee MC) v;
  let '(v, newAdfrGraphName) := graphName_of (mec_graphName chain) v in
  let text := data_text method newAdfrGraphName chain (mc_args MC) in
  let v := if decide (mec_setup chain = "")
           then add_edits [ReplaceText (mc_range MC) text] v
           else add_edits (setup_edits MC (mec_setup chain) text) v in
  associate method (mec_graphName chain) (mc_args MC) v.

(** [src/tools/adftoaeg/src/adftoaeg.cc:355-565] [GlobalFunctionVisitor::VisitCXXMemberCallExpr] *)
Definition VisitCXXMemberCallExpr (MC : CXXMemberCallExpr) (v : visitor) : option visitor :=
  match mc_method MC with
  | None => Some v
  | Some method =>
      if decide (method = "wait") then visit_wait MC v
      else if decide (method ∈ ["resume"; "init"; "end"; "run"]) then visit_control method MC v
      else if decide (method ∈ ["gm2aie_nb"; "aie2gm_nb"; "gm2aie"; "aie2gm"; "read"; "update"; "setAddress"])
      then visit_data method MC v
      else Some v
  end.

(** The file that declares an ADF call is remembered.
    [src/tools/adftoaeg/src/adftoaeg.cc:567-613] [GlobalFunctionVisitor::VisitCXXMethodDecl] *)
Definition VisitCXXMethodDecl (MD : CXXMethodDecl) (v : visitor) : visitor :=
  if is_gmio_transfer (md_name MD) then
    if decide (md_this MD = Some "GMIO") then add_headerName (md_filename MD) v else v
  else if decide (md_name MD ∈ ["malloc"; "free"]) then
    if md_static MD && bool_decide (md_parent MD = Some "GMIO") then add_headerName (md_filename MD) v else v
  else if decide (md_name MD ∈ ["init"; "run"]) then
    if decide (md_this MD = Some "graph") then add_headerName (md_filename MD) v else v
  else v.

(** One match of the allocation pattern; [var] keeps its value between matches.
    [src/tools/adftoaeg/src/adftoaeg.cc:627-643] [MyMatchCallback::run] *)
Definition match_run (var : string) (r : MatchResult) (v : visitor) : option (string * visitor) :=
  let var := default var (eqVarName r) in
  let var := default var (directVarName r) in
  match MallocCall r with
  | Some CE =>
      arg ← head (ce_args CE);
      Some (var, insert_MemFunc (ce_range CE)
                   (var, ".malloc(" +:+ GetArgument (IgnoreImplicit arg) +:+ ")") v)
  | None => Some (var, v)
  end.

(** [src/tools/adftoaeg/src/adftoaeg.cc:753-758] [MyASTConsumer::runMatcher] *)
Fixpoint run_matches (var : string) (rs : list MatchResult) (v : visitor) : option visitor :=
  match rs with
  | [] => Some v
  | r :: rs => '(var, v) ← match_run var r v; run_matches var rs v
  end.

(** One node; a member call is also a call, and is visited as one first. *)
Definition visit (n : node) (v : visitor) : option visitor :=
  match n with
  | NCall c => VisitCallExpr c v
  | NMemberCall c => v ← VisitCallExpr (mkCall (mc_method c) (mc_args c) (mc_range c)) v;
                     VisitCXXMemberCallExpr c v
  | NVarDecl d => Some (VisitVarDecl d v)
  | NMethodDecl d => Some (VisitCXXMethodDecl d v)
  end.

(** A traversal, node by node. *)
Fixpoint visit_all (ns : list node) (v : visitor) : option visitor :=
  match ns with
  | [] => Some v
  | n :: ns => v ← visit n v; visit_all ns v
  end.

(** The declarations of the system headers are skipped.
    [src/tools/adftoaeg/src/adftoaeg.cc:738-750] [MyASTConsumer::HandleTranslationUnit] *)
Definition HandleTranslationUnit (matches : list MatchResult) (decls : list decl) (v : visitor)
    : option visitor :=
  v ← run_matches "" matches v;
  visit_all (decls ≫= fun d => if decl_user d then decl_nodes d else []) v.

(** ** The end of the action *)

(** The edit of an allocation or release, and whether its graph was found.
    [src/tools/adftoaeg/src/adftoaeg.cc:854-868] [MyFrontendAction::EndSourceFileAction] *)
Definition mem_edit (memVars : gmap string string) (func : range * (string * string)) (v : visitor)
    : visitor * edit :=
  match memVars !! fst (snd func) with
  | None => (v, ReplaceText (fst func) (" " +:+ snd (snd func)))
  | Some graph =>
      let '(v, g) := graphName_of graph v in
      (v, ReplaceText (fst func) (g +:+ snd (snd func)))
  end.

(** [src/tools/adftoaeg/src/adftoaeg.cc:852-868] [MyFrontendAction::EndSourceFileAction] *)
Definition mem_edits (v : visitor) : visitor :=
  fold_left (fun v' func => let '(v', e) := mem_edit (MemVars v) func v' in add_edits [e] v')
    (func_order (MemFuncs v)) v.

(** The lines put before the first line of the file.
    [src/tools/adftoaeg/src/adftoaeg.cc:871-873] [MyFrontendAction::EndSourceFileAction] *)
Definition first_lines : string :=
  "#include <xaiengine.h>" +:+ nl +:+ "#include " +:+ dq +:+ "aiebaremetal.h" +:+ dq +:+ nl
  +:+ "#include <string>" +:+ nl.
End visitor.

(** [strtok] with a dot: runs of dots separate, no token is empty.
    [src/tools/adftoaeg/src/adftoaeg.cc:888-893] [MyFrontendAction::EndSourceFileAction] *)
Fixpoint strtok_dots (token : string) (s : string) : list string :=
  match s with
  | EmptyString => if decide (token = "") then [] else [token]
  | String c s =>
      if decide (c = "."%char) then
        (if decide (token = "") then strtok_dots "" s else token :: strtok_dots "" s)
      else strtok_dots (token +:+ String c EmptyString) s
  end.

(** The name of the new file; a file name without a token has no first part to read.
    [src/tools/adftoaeg/src/adftoaeg.cc:881-904] [MyFrontendAction::EndSourceFileAction] *)
Definition new_file_name (outputFile parentFilePath fileName : string) : option string :=
  match strtok_dots "" fileName with
  | [] => None
  | p :: parts =>
      let newName := fold_left (fun n p => n +:+ "." +:+ p) parts (parentFilePath +:+ "/" +:+ p +:+ ".new") in
      Some (if decide (outputFile = "") then newName else outputFile)
  end.

Section action.
Context {VE : VectorErase}.
Context (printPretty : expr -> string).
Context (rpuFlag : bool).
Context (buffer : list ascii).
Context (getSpellingColumnNumber : location -> nat).
Context (findLocationAfterToken : location -> option location).
Context (getLocForEndOfToken : location -> location).
Context (func_order : gmap range (string * string) -> list (range * (string * string))).
Context (set_order : gset string -> list string).
Context (range_order : gmap string range -> list (string * range)).
Context (outputFile parentFilePath fileName : string).
Context (can_open : string -> bool).

(** The result is the name of the written file and the edits applied to the text, or nothing when
    the file cannot be opened.
    [src/tools/adftoaeg/src/adftoaeg.cc:827-919] [MyFrontendAction::EndSourceFileAction] *)
Definition EndSourceFileAction (h : headers) (v : visitor) : option (option (string * list edit)) :=
  '(_, marked, _) ← mark_headers set_order (elements (headerNames v)) (range_order (mainHeaders h)) (G h);
  let v := add_edits (guard_marked <$> range_order marked) v in
  let v := mem_edits func_order v in
  let v := add_edits [InsertText 0 first_lines] v in
  newName ← new_file_name outputFile parentFilePath fileName;
  Some (if can_open newName then Some (newName, edits v) else None).

(** The whole action on one source file: the inclusions reported while it is parsed, the traversal
    of its declarations, and the end of the action.
    [src/tools/adftoaeg/src/adftoaeg.cc:811-933] [MyFrontendAction] *)
Definition convert (ds : list directive) (matches : list MatchResult) (decls : list decl)
    : option (option (string * list edit)) :=
  let h := preprocess ds in
  v ← HandleTranslationUnit printPretty rpuFlag buffer getSpellingColumnNumber findLocationAfterToken
        getLocForEndOfToken func_order matches decls (add_edits (h_edits h) new_visitor);
  EndSourceFileAction h v.
End action.

(** ** The test program

    The conversion of [tests/test_general/graph.cpp], with clang's part given by small functions:
    every position is its own line, and a pretty-printer for the node kinds that occur. *)
Module ToolDemo.
(** libstdc++'s [erase]. *)
#[export] Instance gnu_erase : VectorErase :=
  fun names => match names with [] => None | _ => Some (removelast names) end.
#[export] Instance gnu_erases_last : ErasesLast.
Proof. intros [|n names] H; done. Qed.

Fixpoint pp (e : expr) : string :=
  match e with
  | DeclRefExpr n _ => n
  | MemberExpr b m => pp b +:+ "." +:+ m
  | ArraySubscriptExpr b i => pp b +:+ "[" +:+ pp i +:+ "]"
  | IntegerLiteral t => t
  | ImplicitCastExpr e => pp e
  | OtherExpr t => t
  end.

Definition graph_t : qtype := mkType "myGraph" (Some [Some "graph"]).
Definition int_t : qtype := mkType "int *" None.
Definition gvar (n : string) : expr := DeclRefExpr n graph_t.
Definition port (g p i : string) : expr := ArraySubscriptExpr (MemberExpr (gvar g) p) (IntegerLiteral i).

Definition demo_matches : list MatchResult :=
  [ mkMatch None (Some "outputArray") (Some (mkCall (Some "malloc") [OtherExpr "256 * sizeof(int)"] (60, 70)));
    mkMatch (Some "outt") None (Some (mkCall (Some "malloc") [OtherExpr "256 * sizeof(int)"] (80, 90))) ].

Definition demo_nodes : list node :=
  [ NVarDecl (mkVar true "gradf" graph_t (30, 32)); NVarDecl (mkVar true "gradf1" graph_t (34, 36));
    NVarDecl (mkVar true "gradf2" graph_t (38, 40));
    NMemberCall (mkMemberCall (Some "aie2gm_nb") (MemberExpr (port "gradf2" "out" "0") "aie2gm_nb")
      [ImplicitCastExpr (DeclRefExpr "outt" int_t); OtherExpr "32 * sizeof(int)"] (100, 110) (CompoundStmt, 50));
    NMemberCall (mkMemberCall (Some "init") (MemberExpr (gvar "gradf") "init") [] (120, 121) (CompoundStmt, 50));
    NMemberCall (mkMemberCall (Some "run") (MemberExpr (gvar "gradf2") "run") [IntegerLiteral "1"] (130, 131)
      (CompoundStmt, 50));
    NMemberCall (mkMemberCall (Some "aie2gm_nb")
      (MemberExpr (ArraySubscriptExpr (MemberExpr (gvar "gradf1") "out") (OtherExpr "i + 0")) "aie2gm_nb")
      [ImplicitCastExpr (OtherExpr "&outputArray[idx * 32]"); OtherExpr "32 * sizeof(int)"] (140, 150) (ForStmt, 135));
    NMemberCall (mkMemberCall (Some "wait") (MemberExpr (port "gradf" "out" "0") "wait") [] (160, 165)
      (CompoundStmt, 50));
    NMemberCall (mkMemberCall (Some "wait") (MemberExpr (gvar "gradf") "wait") [] (170, 175) (CompoundStmt, 50));
    NCall (mkCall (Some "free") [ImplicitCastExpr (DeclRefExpr "outputArray" int_t)] (180, 185)) ].

Definition demo_convert : option (option (string * list edit)) :=
  convert pp false [] (fun _ => 1) (fun _ => None) (fun l => l) map_to_list elements map_to_list
    "" "test" "graph.cpp" (fun _ => true)
    HeaderDemo.demo_directives demo_matches
    [mkDecl false [NMethodDecl (mkMethod "init" false (Some "graph") (Some "graph") "skipped.h")];
     mkDecl true [NMethodDecl (mkMethod "gm2aie" false (Some "GMIO") (Some "GMIO") "adf.h")];
     mkDecl true demo_nodes].

(** The text of an edit. *)
Definition edit_text (e : edit) : string :=
  match e with
  | ReplaceText _ t | InsertTextBefore _ t | InsertTextAfterToken _ t | InsertText _ t => t
  end.

(** The texts that do not begin with a preprocessor line. *)
Definition code_texts (r : option (option (string * list edit))) : option (option (string * list string)) :=
  match r with
  | Some (Some (n, es)) =>
      Some (Some (n, List.filter (fun t => negb (String.prefix "#" t)) (List.map edit_text es)))
  | Some None => Some None
  | None => None
  end.

(** The texts the tool writes for the test program, those of [graph_new.cpp] before formatting. *)
Example demo_convert_texts :
  code_texts demo_convert
  = Some (Some ("test/graph.new.cpp",
      [ "gr2.aie2gm_nb(" +:+ dq +:+ "gradf2.out[0]" +:+ dq +:+ ",reinterpret_cast<char*>(outt),32 * sizeof(int))";
        "gr.init()"; "gr2.run(1)";
        "gr1.aie2gm_nb(_adftoaeg_temp_0,reinterpret_cast<char*>(&outputArray[idx * 32]),32 * sizeof(int))";
        "{" +:+ nl +:+ "char *_adftoaeg_temp_0 = (" +:+ dq +:+ "gradf1.out[" +:+ dq +:+ " + std::to_string(i + 0) + "
          +:+ dq +:+ "]" +:+ dq +:+ ").data();" +:+ nl;
        nl +:+ "}";
        "gr.gmio_wait(" +:+ dq +:+ "gradf.out[0]" +:+ dq +:+ ")"; "gr.wait()";
        "gr1.malloc(256 * sizeof(int))"; "gr2.malloc(256 * sizeof(int))"; "gr1.free(outputArray)" ])).
Proof. vm_compute. reflexivity. Qed.
End ToolDemo.

(** ** Texts *)

Lemma str_app_cons a (s t : string) : String a s +:+ t = String a (s +:+ t).
Proof. reflexivity. Qed.

Lemma str_app_assoc (s t u : string) : (s +:+ t) +:+ u = s +:+ (t +:+ u).
Proof. induction s as [|a s IH]; [done|]. rewrite !str_app_cons. cbn [String.list_ascii_of_string app]. by f_equal. Qed.

Lemma str_app_nil_r (s : string) : s +:+ "" = s.
Proof. induction s as [|a s IH]; [done|]. rewrite !str_app_cons. cbn [String.list_ascii_of_string app]. by f_equal. Qed.

Lemma list_ascii_app (s t : string) :
  String.list_ascii_of_string (s +:+ t) =
  String.list_ascii_of_string s ++ String.list_ascii_of_string t.
Proof. induction s as [|a s IH]; [done|]. rewrite !str_app_cons. cbn [String.list_ascii_of_string app]. by f_equal. Qed.

Lemma erase3_app (s t : string) : String.length t = 3 -> erase3 (s +:+ t) = s.
Proof.
  intros Ht. unfold erase3. rewrite list_ascii_app, length_app.
  assert (Hl : List.length (String.list_ascii_of_string t) = 3) by
    (rewrite <- Ht; clear; induction t as [|a t IH]; cbn; [done | by f_equal]).
  rewrite Hl, Nat.add_sub, take_app_length. apply String.string_of_list_ascii_of_string.
Qed.

Lemma set_last_app c (s t : string) : t ≠ "" -> set_last c (s +:+ t) = s +:+ set_last c t.
Proof.
  intros Ht. induction s as [|a s IH]; [done|]. rewrite !str_app_cons. cbn [set_last].
  destruct (s +:+ t) eqn:E; [by destruct s, t|]. by rewrite IH.
Qed.




(** ** Which programs the tool handles *)











Section visitor_facts.
Context {VE : VectorErase} {VEL : ErasesLast}.
Context (printPretty : expr -> string).
Context (rpuFlag : bool).
Context (buffer : list ascii).
Context (getSpellingColumnNumber : location -> nat).
Context (findLocationAfterToken : location -> option location).
Context (getLocForEndOfToken : location -> location).
Context (func_order : gmap range (string * string) -> list (range * (string * string))).

Local Notation visit := (visit printPretty rpuFlag buffer getSpellingColumnNumber
  findLocationAfterToken getLocForEndOfToken func_order).
Local Notation visit_all := (visit_all printPretty rpuFlag buffer getSpellingColumnNumber
  findLocationAfterToken getLocForEndOfToken func_order).
Local Notation visit_data := (visit_data printPretty buffer getSpellingColumnNumber
  findLocationAfterToken getLocForEndOfToken func_order).




Lemma graphName_of_frame k v : exists m, graphName_of k v = (set_graphNames m v, default "" (graphNames v !! k)).
Proof.
  unfold graphName_of. destruct (graphNames v !! k); [exists (graphNames v); by destruct v | by eexists].
Qed.





Lemma associate_ok m g args v : args ≠ [] ->
  exists v', associate printPretty func_order m g args v = Some v' /\ graphNames v' = graphNames v.
Proof.
  intros Ha. unfold associate. destruct (_ || _); [|by exists v].
  destruct args as [|a args]; [done|]. cbn [head mbind option_bind].
  destruct (find_var _ _ _). by eexists.
Qed.





(** *** What is printed for a graph variable *)

(** The tool only adds edits and names. *)
Definition grows (v v' : visitor) : Prop := edits v `prefix_of` edits v' /\ graphNames v ⊆ graphNames v'.

#[local] Instance grows_preorder : PreOrder grows.
Proof. split; [done|]. intros v1 v2 v3 [? ?] [? ?]. split; by etrans. Qed.


















End visitor_facts.

#[local] Existing Instance ToolDemo.gnu_erase.
#[local] Existing Instance ToolDemo.gnu_erases_last.



(** A graph variable declared twice, in two functions say, and another one: the second declaration of
    [g] and that of [h] are printed with the same name. *)
Example redeclaration_prints_a_name_twice :
  let g1 := mkVar true "g" ToolDemo.graph_t (0, 9) in
  let g2 := mkVar true "g" ToolDemo.graph_t (10, 19) in
  let h := mkVar true "h" ToolDemo.graph_t (20, 29) in
  edits <$> HandleTranslationUnit ToolDemo.pp false [] (fun _ => 1) (fun _ => None) (fun l => l) map_to_list
      [] [mkDecl true [NVarDecl g1; NVarDecl g2; NVarDecl h]] new_visitor
  = Some [ReplaceText (0, 9) (new_declaration false g1 "gr"); ReplaceText (10, 19) (new_declaration false g2 "gr1");
          ReplaceText (20, 29) (new_declaration false h "gr1")].
Proof. vm_compute. reflexivity. Qed.

(** ** The texts of port calls *)

(** A member access from a variable with literal subscripts only. *)
Fixpoint literal_path (e : expr) : bool :=
  match e with
  | DeclRefExpr _ _ => true
  | MemberExpr b _ => literal_path b
  | ArraySubscriptExpr b i =>
      literal_path b && match IgnoreImplicit i with IntegerLiteral _ => true | _ => false end
  | ImplicitCastExpr e => literal_path e
  | _ => false
  end.

(** The object is a variable, up to subscripts. *)
Fixpoint bare (e : expr) : bool :=
  match e with
  | DeclRefExpr _ _ => true
  | ArraySubscriptExpr e _ | ImplicitCastExpr e => bare e
  | _ => false
  end.

Definition dots (l : list string) (s : string) : string :=
  fold_left (fun s n => s +:+ n +:+ ".") l s.

(** The names with dots between them. *)
Definition dot_join (names : list string) : string :=
  match last names with Some l => dots (removelast names) "" +:+ l | None => "" end.

Lemma dots_acc l : forall s, dots l s = s +:+ dots l "".
Proof.
  induction l as [|n l IH]; intros s; cbn [dots fold_left]; [by rewrite str_app_nil_r|].
  change (dots l (s +:+ n +:+ ".") = s +:+ dots l ("" +:+ n +:+ ".")).
  rewrite IH, (IH ("" +:+ n +:+ ".")). change ("" +:+ n +:+ ".") with (n +:+ ".").
  by rewrite !str_app_assoc.
Qed.

Lemma dots_snoc l n s : dots (l ++ [n]) s = dots l s +:+ n +:+ ".".
Proof. unfold dots. by rewrite fold_left_app. Qed.

Lemma last_split (l : list string) : l ≠ [] -> exists l' x, l = l' ++ [x].
Proof. intros (l' & x & ->)%exists_last. by eexists _, _. Qed.

Lemma dot_join_snoc names m : names ≠ [] -> dot_join (names ++ [m]) = dot_join names +:+ "." +:+ m.
Proof.
  intros (l & x & ->)%last_split. unfold dot_join.
  rewrite !last_snoc, !removelast_last, dots_snoc. by rewrite !str_app_assoc.
Qed.

Lemma dot_join_dots names : names ≠ [] -> dots names "" = dot_join names +:+ ".".
Proof.
  intros (l & x & ->)%last_split. unfold dot_join.
  rewrite last_snoc, removelast_last, dots_snoc. by rewrite !str_app_assoc.
Qed.

Lemma update_back_snoc f l x : update_back f (l ++ [x]) = Some (l ++ [f x]).
Proof. unfold update_back. by rewrite last_snoc, removelast_last. Qed.

Lemma quoted_path_join names : names ≠ [] -> quoted_path names = Some (dq +:+ dot_join names +:+ dq).
Proof.
  intros (l & x & ->)%last_split. unfold quoted_path, dot_join. rewrite last_snoc, removelast_last.
  fold (dots l ""). by rewrite !str_app_assoc.
Qed.

Section texts.
Context {VE : VectorErase} {VEL : ErasesLast}.
Context (printPretty : expr -> string).

(** The path as the runtime's configuration names it. *)
Fixpoint dotted (e : expr) : string :=
  match e with
  | DeclRefExpr n _ => n
  | MemberExpr b m => dotted b +:+ "." +:+ m
  | ArraySubscriptExpr b i => dotted b +:+ "[" +:+ printPretty (IgnoreImplicit i) +:+ "]"
  | ImplicitCastExpr e => dotted e
  | _ => ""
  end.

(** The text before the first dot of the path. *)
Fixpoint root_text (e : expr) : string :=
  match e with
  | DeclRefExpr n _ => n
  | MemberExpr b _ => root_text b
  | ArraySubscriptExpr b i =>
      if bare b then root_text b +:+ "[" +:+ printPretty (IgnoreImplicit i) +:+ "]" else root_text b
  | ImplicitCastExpr e => root_text e
  | _ => ""
  end.

(** The chain of names a literal path leaves. *)
Definition chain_names (e : expr) (names : list string) : Prop :=
  names ≠ [] /\ dot_join names = dotted e /\ head names = Some (root_text e) /\
  (bare e = true <-> List.length names = 1).

Lemma chain_names_subscript b i names : chain_names b names ->
  exists names', update_back (fun s => s +:+ "[" +:+ printPretty (IgnoreImplicit i) +:+ "]") names = Some names' /\
    chain_names (ArraySubscriptExpr b i) names'.
Proof.
  intros (Hne & Hj & Hh & Hb). destruct (last_split names Hne) as (l & x & ->).
  rewrite update_back_snoc. eexists; split; [done|]. split_and!.
  - by destruct l.
  - unfold dot_join in *. rewrite last_snoc, removelast_last in *. cbn [dotted]. rewrite <- Hj.
    by rewrite !str_app_assoc.
  - cbn [root_text]. destruct l as [|y l]; cbn in *.
    + rewrite (proj2 Hb eq_refl). by injection Hh as ->.
    + destruct (bare b); [|done]. destruct l; by discriminate (proj1 Hb eq_refl).
  - cbn [bare]. rewrite Hb. rewrite !length_app. done.
Qed.

Lemma literal_chain e parts : literal_path e = true ->
  exists names, getMemberExprChainInternal printPretty e [] parts = Some (names, parts) /\ chain_names e names.
Proof.
  induction e as [n t|b IH m|b IH i _|t|e IH|t]; cbn [literal_path]; try done; intros He.
  - exists [n]. done.
  - destruct (IH He) as (names & E & Hne & Hj & Hh & Hb). cbn [getMemberExprChainInternal]. rewrite E.
    exists (names ++ [m]). split; [done|]. split_and!.
    + by destruct names.
    + rewrite dot_join_snoc by done. by rewrite Hj.
    + by destruct names.
    + cbn [bare]. rewrite length_app. cbn. destruct names; [done|]. cbn. split; [done | lia].
  - apply andb_true_iff in He as [He Hi]. destruct (IH He) as (names & E & Hn).
    cbn [getMemberExprChainInternal]. rewrite E. cbn [mbind option_bind].
    destruct (chain_names_subscript b i names Hn) as (names' & E' & Hn'). exists names'.
    rewrite E'. cbn [mbind option_bind]. by destruct (IgnoreImplicit i).
Qed.

(** The chain of a call on a port with literal subscripts. *)
Lemma literal_call_chain obj m v : literal_path obj = true ->
  getMemberExprChain printPretty (MemberExpr obj m) v
  = Some (mkChain [dq] (root_text obj) m "" (dq +:+ dotted obj +:+ dq), v).
Proof.
  intros Ho. unfold getMemberExprChain. cbn [getMemberExprChainInternal].
  destruct (literal_chain obj [dq] Ho) as (names & -> & Hne & Hj & Hh & _). cbn [mbind option_bind].
  rewrite last_snoc, erase_end_last, removelast_last by (by destruct names).
  assert (Hh' : head (names ++ [m]) = Some (root_text obj)) by (by destruct names). rewrite Hh'.
  cbn [mbind option_bind]. rewrite decide_True, quoted_path_join, Hj by done. done.
Qed.

(** The chain of a call on a port whose last subscript is computed: a temporary holds the path. *)
Lemma computed_call_chain b i m v : literal_path b = true ->
  match IgnoreImplicit i with IntegerLiteral _ => False | _ => True end ->
  let tmp := "_adftoaeg_temp_" +:+ pretty (N.of_nat (num_temps v)) in
  exists parts, getMemberExprChain printPretty (MemberExpr (ArraySubscriptExpr b i) m) v
  = Some (mkChain parts (root_text (ArraySubscriptExpr b i)) m
      ("char *" +:+ tmp +:+ " = (" +:+ dq +:+ dotted b +:+ "[" +:+ dq +:+ " + std::to_string("
       +:+ printPretty (IgnoreImplicit i) +:+ ") + " +:+ dq +:+ "]" +:+ dq +:+ ").data();") tmp,
     set_temps (S (num_temps v)) v).
Proof.
  intros Ho Hi tmp. unfold getMemberExprChain. cbn [getMemberExprChainInternal].
  destruct (literal_chain b [dq] Ho) as (names & -> & Hn). cbn [mbind option_bind].
  destruct (chain_names_subscript b i names Hn) as (names' & E' & (Hne' & _ & Hh' & _)).
  destruct Hn as (Hne & Hj & _ & _).
  unfold split_parts. change ([dq]) with ([] ++ [dq]). rewrite update_back_snoc. cbn [mbind option_bind app].
  fold (dots names dq). rewrite (dots_acc names dq), dot_join_dots, Hj by done.
  assert (Hp : set_last "["%char (dq +:+ dotted b +:+ ".") = dq +:+ dotted b +:+ "[").
  { rewrite !set_last_app by (try done; by destruct (dotted b)). done. }
  rewrite Hp. exists [dq +:+ dotted b +:+ "[" +:+ dq; "std::to_string(" +:+ printPretty (IgnoreImplicit i) +:+ ")"; dq +:+ "]"].
  assert (Hh2 : head (names' ++ [m]) = Some (root_text (ArraySubscriptExpr b i))) by (by destruct names').
  replace (match IgnoreImplicit i with IntegerLiteral _ => _ | _ => _ end) with
    (Some (names', [dq +:+ dotted b +:+ "[" +:+ dq; "std::to_string(" +:+ printPretty (IgnoreImplicit i) +:+ ")"; dq +:+ "]"]))
    by (rewrite E', !str_app_assoc; by destruct (IgnoreImplicit i)).
  cbn [mbind option_bind]. rewrite Hh2, last_snoc, erase_end_last by (by destruct names').
  cbn [mbind option_bind]. rewrite decide_False by done. fold tmp. cbn [fold_left].
  rewrite <- (str_app_assoc _ (dq +:+ "]") " + "), erase3_app by done.
  do 2 f_equal. f_equal. rewrite !str_app_assoc. reflexivity.
Qed.

(** The arguments behind the first. *)
Definition more_args (args : list expr) : string :=
  fold_left (fun s a => s +:+ "," +:+ GetArgument printPretty a) args "".

Lemma more_args_cons a args : more_args (a :: args) = "," +:+ GetArgument printPretty a +:+ more_args args.
Proof.
  unfold more_args. cbn [fold_left].
  assert (H : forall l s, fold_left (fun s a => s +:+ "," +:+ GetArgument printPretty a) l s
    = s +:+ fold_left (fun s a => s +:+ "," +:+ GetArgument printPretty a) l "").
  { clear. induction l as [|x l IH]; intros s; cbn [fold_left]; [by rewrite str_app_nil_r|].
    rewrite IH, (IH ("" +:+ _)). by rewrite !str_app_assoc. }
  rewrite H. by rewrite !str_app_assoc.
Qed.

Lemma address_args_more args : forall a,
  address_args printPretty (a :: args) = GetArgument printPretty a +:+ more_args args +:+ ")".
Proof.
  induction args as [|b args IH]; intros a; [done|].
  change (address_args printPretty (a :: b :: args))
    with (GetArgument printPretty a +:+ "," +:+ address_args printPretty (b :: args)).
  rewrite IH, more_args_cons. by rewrite !str_app_assoc.
Qed.

Lemma cast_args_more args a :
  cast_args printPretty (a :: args) = GetArgument printPretty a +:+ ")" +:+ more_args args +:+ ")".
Proof.
  destruct args as [|b args]; [done|].
  change (cast_args printPretty (a :: b :: args))
    with (GetArgument printPretty a +:+ ")," +:+ address_args printPretty (b :: args)).
  rewrite address_args_more, more_args_cons, !str_app_assoc. reflexivity.
Qed.

(** The call the tool means to write: the path, the data pointer cast to bytes, the rest. *)
Definition transfer_text (graph method path : string) (a : expr) (args : list expr) : string :=
  graph +:+ "." +:+ method +:+ "(" +:+ path +:+ ",reinterpret_cast<char*>("
  +:+ GetArgument printPretty a +:+ ")" +:+ more_args args +:+ ")".

Lemma data_text_transfer method graph c a args :
  method ≠ "setAddress" -> args ≠ [] \/ is_gmio_transfer method = false ->
  data_text printPretty method graph c (a :: args)
  = transfer_text graph (mec_function c) (mec_as_string c) a args.
Proof.
  intros Hm Ha. unfold data_text, transfer_text. rewrite decide_False by done.
  assert (Hc : bool_decide (List.length (a :: args) = 1) && is_gmio_transfer method = false).
  { destruct Ha as [Ha| ->]; [|apply andb_false_r]. rewrite bool_decide_false; [done|].
    by destruct args. }
  rewrite Hc, cast_args_more. reflexivity.
Qed.
End texts.

Section rewriting.
Context {VE : VectorErase} {VEL : ErasesLast}.
Context (printPretty : expr -> string).
Context (buffer : list ascii).
Context (getSpellingColumnNumber : location -> nat).
Context (findLocationAfterToken : location -> option location).
Context (getLocForEndOfToken : location -> location).
Context (func_order : gmap range (string * string) -> list (range * (string * string))).

Local Notation VisitMemberCall := (VisitCXXMemberCallExpr printPretty buffer getSpellingColumnNumber
  findLocationAfterToken getLocForEndOfToken func_order).
Local Notation setup_edits := (setup_edits buffer getSpellingColumnNumber findLocationAfterToken
  getLocForEndOfToken).

Definition transfer_methods : list string :=
  ["gm2aie_nb"; "aie2gm_nb"; "gm2aie"; "aie2gm"; "read"; "update"].

Lemma transfer_method_dispatch m MC v : m ∈ transfer_methods -> mc_method MC = Some m ->
  VisitMemberCall MC v = visit_data printPretty buffer getSpellingColumnNumber
    findLocationAfterToken getLocForEndOfToken func_order m MC v.
Proof.
  intros Hm E. unfold VisitCXXMemberCallExpr. rewrite E. unfold transfer_methods in Hm.
  rewrite decide_False by set_solver. rewrite decide_False by set_solver.
  rewrite decide_True by set_solver. done.
Qed.


Lemma graphName_of_known k s v : graphNames v !! k = Some s -> graphName_of k v = (v, s).
Proof. intros H. unfold graphName_of. by rewrite H. Qed.

Lemma associate_edits m g args v v' :
  associate printPretty func_order m g args v = Some v' -> edits v' = edits v /\ num_temps v' = num_temps v.
Proof.
  unfold associate. destruct (_ || _); [|by intros [= <-]].
  destruct (head args); [|done]. cbn [mbind option_bind]. destruct (find_var _ _ _). by intros [= <-].
Qed.


(** [wait] on a port with a computed subscript breaks the program: the call that replaces it
    names a fresh temporary, but this is the only edit, so nothing declares the temporary. *)
Theorem computed_wait_undeclared MC b i graph v :
  mc_method MC = Some "wait" -> mc_callee MC = MemberExpr (ArraySubscriptExpr b i) "wait" ->
  mc_args MC = [] -> literal_path b = true ->
  match IgnoreImplicit i with IntegerLiteral _ => False | _ => True end ->
  graphNames v !! root_text printPretty (ArraySubscriptExpr b i) = Some graph ->
  exists v', VisitMemberCall MC v = Some v' /\
    edits v' = edits v ++ [ReplaceText (mc_range MC)
      (graph +:+ ".gmio_wait(_adftoaeg_temp_" +:+ pretty (N.of_nat (num_temps v)) +:+ ")")].
Proof.
  intros HM Hc Ha Hb Hi Hg. unfold VisitCXXMemberCallExpr, visit_wait. rewrite HM, Hc, Ha.
  rewrite decide_True by done. cbn [IgnoreImplicit].
  destruct (computed_call_chain printPretty b i "wait" v Hb Hi) as (parts & ->).
  cbn [mbind option_bind mec_graphName mec_as_string].
  rewrite (graphName_of_known _ graph) by done. eexists; split; [done|].
  cbn [edits add_edits set_temps]. by rewrite !str_app_assoc.
Qed.

(** A [read] or [update] member call on any variable is rewritten, a graph's or not: the object of
    an unknown variable has the empty name. *)
Lemma foreign_read_rewritten MC name type a args v :
  mc_method MC = Some "read" -> mc_callee MC = MemberExpr (DeclRefExpr name type) "read" ->
  mc_args MC = a :: args -> graphNames v !! name = None ->
  exists v', VisitMemberCall MC v = Some v' /\
    edits v' = edits v ++ [ReplaceText (mc_range MC)
      (transfer_text printPretty "" "read" (dq +:+ name +:+ dq) a args)].
Proof.
  intros HM Hc Ha Hg. rewrite (transfer_method_dispatch "read") by (unfold transfer_methods; done || set_solver).
  unfold visit_data. rewrite Hc, Ha, literal_call_chain by done. cbn [mbind option_bind mec_graphName mec_setup root_text dotted].
  unfold graphName_of. rewrite Hg, decide_True by done.
  match goal with |- context [associate _ _ ?m ?g ?l ?w] =>
    destruct (associate_ok printPretty func_order m g l w) as (v' & E & _); [done|] end.
  exists v'. split; [exact E|]. apply associate_edits in E as [-> _].
  cbn [edits add_edits set_graphNames]. by rewrite data_text_transfer by (done || by right).
Qed.
End rewriting.

(** ** Allocations *)

(** No flag is ever raised. *)
Definition flags_down (flags : gmap string Z) : Prop := forall k, flags !! k ≠ Some 1%Z.

Lemma insert_new_down k flags : flags_down flags -> flags_down (insert_new k 0%Z flags).
Proof.
  intros Hf k'. unfold insert_new. destruct (flags !! k); [apply Hf|].
  intros [[_ ?]|[_ ?]]%lookup_insert_Some; [done | by eapply Hf].
Qed.

(** An argument that only one allocated variable's name occurs in finds that variable, in every
    order of the walk; the flags stay down, so the search never skips an entry. *)
Lemma find_var_unique name var funcs flags :
  flags_down flags -> contains name var = true ->
  (forall f, f ∈ funcs -> contains name (fst (snd f)) = true -> fst (snd f) = var) ->
  (exists f, f ∈ funcs /\ fst (snd f) = var) ->
  exists flags', find_var name funcs flags = (flags', var) /\ flags_down flags'.
Proof.
  intros Hd Hc Hu Hex. unfold find_var.
  assert (Hgen : forall fl found, flags_down fl -> (found = var \/ exists f, f ∈ funcs /\ fst (snd f) = var) ->
    exists fl', fold_left (fun '(flags, found) (f : range * (string * string)) =>
      let flags := insert_new (fst (snd f)) 0%Z flags in
      if bool_decide (flags !! fst (snd f) ≠ Some 1%Z) && contains name (fst (snd f))
      then (flags, fst (snd f)) else (flags, found)) funcs (fl, found) = (fl', var) /\ flags_down fl');
    [|by apply Hgen; [|right]].
  clear Hd Hex flags. induction funcs as [|f funcs IH]; intros fl found Hd Hex; cbn [fold_left].
  { destruct Hex as [->|(f & ?%elem_of_nil & _)]; [by exists fl | done]. }
  pose proof (insert_new_down (fst (snd f)) fl Hd) as Hd'.
  rewrite bool_decide_true by apply Hd'. cbn [andb].
  destruct (contains name (fst (snd f))) eqn:Ef.
  - apply IH; [|done|]; [intros f' ? ?; apply Hu; [by right | done]|]. left. apply Hu; [by left | done].
  - apply IH; [|done|]; [intros f' ? ?; apply Hu; [by right | done]|].
    destruct Hex as [->|(f' & [->|Hin]%elem_of_cons & Hf')]; [by left | congruence | right; by exists f'].
Qed.

(** ** Names of new files *)

Lemma strtok_token p rest token : (forall c, c ∈ String.list_ascii_of_string p -> c ≠ "."%char) ->
  strtok_dots token (p +:+ rest) = strtok_dots (token +:+ p) rest.
Proof.
  revert token. induction p as [|c p IH]; intros token Hp.
  - by rewrite str_app_nil_r.
  - rewrite str_app_cons. cbn [strtok_dots]. cbn in Hp. rewrite decide_False by (apply Hp; by left).
    rewrite IH by (intros; apply Hp; by right). by rewrite str_app_assoc.
Qed.

(** Without an output option the new name is the old one with [new] as an extra part behind the
    first: for [name.ext] it is [name.new.ext] in the same directory. *)
Lemma new_file_name_extension parent name ext :
  name ≠ "" -> ext ≠ "" ->
  (forall c, c ∈ String.list_ascii_of_string name -> c ≠ "."%char) ->
  (forall c, c ∈ String.list_ascii_of_string ext -> c ≠ "."%char) ->
  new_file_name "" parent (name +:+ "." +:+ ext) = Some (parent +:+ "/" +:+ name +:+ ".new." +:+ ext).
Proof.
  intros Hn He Hnd Hed. unfold new_file_name. rewrite strtok_token by done.
  change ("" +:+ name) with name. change ("." +:+ ext) with (String "."%char ext).
  cbn [strtok_dots]. rewrite (decide_True (P := "."%char = "."%char)), (decide_False (P := name = "")) by done.
  pose proof (strtok_token ext "" "" Hed) as Hext. rewrite str_app_nil_r in Hext. rewrite Hext.
  change ("" +:+ ext) with ext. cbn [strtok_dots]. rewrite (decide_False (P := ext = "")) by done.
  rewrite decide_True by done.
  cbn [fold_left]. f_equal. rewrite !str_app_assoc. reflexivity.
Qed.

(** ** Witnesses and the program texts that do not survive the conversion *)

Module ToolExamples.
Import ToolDemo.

Definition names0 : visitor := set_graphNames {["gradf" := "gr"]} new_visitor.
Definition file_t : qtype := mkType "std::ifstream" (Some [Some "basic_istream"]).
Definition rewritten (MC : CXXMemberCallExpr) : option (list string) :=
  (fun v => List.map edit_text (edits v)) <$>
    VisitCXXMemberCallExpr pp [] (fun _ => 1) (fun _ => None) (fun l => l) map_to_list MC names0.
Definition call (m : string) (obj : expr) (args : list expr) : CXXMemberCallExpr :=
  mkMemberCall (Some m) (MemberExpr obj m) args (0, 9) (CompoundStmt, 0).

(** A transfer with one argument leaves a quote open. *)
Example one_argument_transfer :
  rewritten (call "gm2aie" (port "gradf" "in" "0") [OtherExpr "n"])
  = Some ["gr.gm2aie(" +:+ dq +:+ "gradf.in[0]" +:+ dq +:+ "," +:+ dq +:+ "n)"].
Proof. vm_compute. reflexivity. Qed.

(** Members behind a computed subscript are lost: the path of [gradf.sub[i].in] ends at [sub[i]]. *)
Example member_behind_computed_subscript :
  rewritten (call "update" (MemberExpr (ArraySubscriptExpr (MemberExpr (gvar "gradf") "sub") (OtherExpr "i")) "in")
    [OtherExpr "x"])
  = Some ["gr.update(_adftoaeg_temp_0,reinterpret_cast<char*>(x))";
      "char *_adftoaeg_temp_0 = (" +:+ dq +:+ "gradf.sub[" +:+ dq +:+ " + std::to_string(i) + " +:+ dq +:+ "]"
        +:+ dq +:+ ").data();" +:+ nl; ""].
Proof. vm_compute. reflexivity. Qed.

(** With two computed subscripts the prefix is written twice, once with the index's text. *)
Example two_computed_subscripts :
  rewritten (call "update" (ArraySubscriptExpr (MemberExpr
      (ArraySubscriptExpr (MemberExpr (gvar "gradf") "sub") (OtherExpr "i")) "in") (OtherExpr "j")) [OtherExpr "x"])
  = Some ["gr.update(_adftoaeg_temp_0,reinterpret_cast<char*>(x))";
      "char *_adftoaeg_temp_0 = (" +:+ dq +:+ "gradf.sub[" +:+ dq +:+ " + std::to_string(i) + " +:+ dq
        +:+ "]gradf.sub[i].in[" +:+ dq +:+ " + std::to_string(j) + " +:+ dq +:+ "]" +:+ dq +:+ ").data();" +:+ nl; ""].
Proof. vm_compute. reflexivity. Qed.

(** A [read] on a file stream is rewritten into a call on an object without a name. *)
Example file_read :
  rewritten (call "read" (DeclRefExpr "file" file_t) [OtherExpr "buf"; OtherExpr "n"])
  = Some [".read(" +:+ dq +:+ "file" +:+ dq +:+ ",reinterpret_cast<char*>(buf),n)"].
Proof. vm_compute. reflexivity. Qed.

(** [obj.items.end()] makes the tool read an uninitialised pointer. *)
Example end_of_member_container :
  rewritten (call "end" (MemberExpr (DeclRefExpr "obj" file_t) "items") []) = None.
Proof. reflexivity. Qed.

(** A second declaration of a graph variable is given a name that is not recorded. *)
Example redeclared_graph :
  graphNames (VisitVarDecl false (mkVar true "gradf" graph_t (0, 9)) names0) = graphNames names0.
Proof. vm_compute. reflexivity. Qed.
End ToolExamples.


Lemma computed_wait_undeclared_witness :
  exists v', VisitCXXMemberCallExpr ToolDemo.pp [] (fun _ => 1) (fun _ => None) (fun l => l) map_to_list
      (ToolExamples.call "wait" (ArraySubscriptExpr (MemberExpr (ToolDemo.gvar "gradf") "out") (OtherExpr "i")) [])
      ToolExamples.names0 = Some v' /\
    edits v' = [] ++ [ReplaceText (0, 9) ("gr.gmio_wait(_adftoaeg_temp_" +:+ pretty 0%N +:+ ")")].
Proof.
  apply (computed_wait_undeclared ToolDemo.pp [] (fun _ => 1) (fun _ => None) (fun l => l) map_to_list
    (ToolExamples.call "wait" (ArraySubscriptExpr (MemberExpr (ToolDemo.gvar "gradf") "out") (OtherExpr "i")) [])
    (MemberExpr (ToolDemo.gvar "gradf") "out") (OtherExpr "i") "gr" ToolExamples.names0); reflexivity || exact I.
Defined.
