(* ===== verification/FileXfer.v ===== *)
(** File transfer over TCP: the checksum and protocol of
    [src/include/common/net/netcommon.h], the receiver that runs as an lwIP callback on
    the board ([filerecv.h]) and the sender on the host ([src/common/net/client.c]).

    A stream starts with a 12-byte header, magic number and file size, followed by
    the file; TCP delivers it in arbitrary segments, each a chain of packet buffers of which the
    receiver reads the first only.  The receiver answers with the
    CRC of the file and the type its callback computed. *)
From stdpp Require Import base list.
From Stdlib Require Import ZArith Lia.
From S2P Require Import Prelude.
Local Open Scope Z_scope.

(** [src/include/common/net/netcommon.h:15-18] [HEADER_SIZE] *)
Definition HEADER_SIZE : nat := 12.
(** [src/include/common/net/netcommon.h:18-18] [MAGIC_NUMBER] *)
Definition MAGIC_NUMBER : Z := 0x46494C45.

(** * The checksum *)

(** [src/include/common/net/netcommon.h:40-45] [crc32_bitwise] one bit *)
Definition crc_bit (crc : Z) : Z :=
  if Z.land crc 1 =? 0 then Z.shiftr crc 1 else Z.lxor (Z.shiftr crc 1) 0xEDB88320.

(** [src/include/common/net/netcommon.h:37-46] [crc32_bitwise] one byte *)
Definition crc_byte (crc byte : Z) : Z := Nat.iter 8 crc_bit (Z.lxor crc byte).

(** [src/include/common/net/netcommon.h:34-50] [crc32_bitwise] *)
Definition crc32_bitwise (buf : list Z) : Z :=
  let crc := u32 (Z.lnot 0) in
  u32 (Z.lnot (fold_left crc_byte buf crc)).

(** The check value of the CRC-32 used by Ethernet and zip. *)
Example crc32_check_value :
  crc32_bitwise [0x31; 0x32; 0x33; 0x34; 0x35; 0x36; 0x37; 0x38; 0x39] = 0xCBF43926.
Proof. vm_compute; reflexivity. Qed.

(** ** The checksum separates messages that differ in one byte *)

Lemma shiftr1_range c : 0 <= c < 2 ^ 32 -> 0 <= Z.shiftr c 1 < 2 ^ 31.
Proof.
  intros Hc; rewrite Z.shiftr_div_pow2 by lia; split; [apply Z.div_pos; lia|].
  apply Z.div_lt_upper_bound; lia.
Qed.

Lemma crc_bit_range c : 0 <= c < 2 ^ 32 -> 0 <= crc_bit c < 2 ^ 32.
Proof.
  intros Hc; pose proof (shiftr1_range c Hc); unfold crc_bit.
  destruct (_ =? 0); [lia|]; apply lxor_range; lia.
Qed.

(** The top bit of the next state is the bit that was shifted out. *)
Lemma crc_bit_top c : 0 <= c < 2 ^ 32 -> Z.testbit (crc_bit c) 31 = Z.testbit c 0.
Proof.
  intros Hc; unfold crc_bit.
  assert (Hs : Z.testbit (Z.shiftr c 1) 31 = false).
  { rewrite <- (Z.mod_small (Z.shiftr c 1) (2 ^ 31)) by (apply shiftr1_range; done).
    apply Z.mod_pow2_bits_high; lia. }
  assert (Hl : Z.land c 1 = Z.b2z (Z.testbit c 0)).
  { change 1 with (Z.ones 1); rewrite Z.land_ones, <- Z.bit0_mod by lia; done. }
  rewrite Hl; destruct (Z.testbit c 0).
  - change (Z.b2z true =? 0) with false; cbv iota; rewrite Z.lxor_spec, Hs; done.
  - exact Hs.
Qed.

Lemma crc_bit_inj c c' :
  0 <= c < 2 ^ 32 -> 0 <= c' < 2 ^ 32 -> crc_bit c = crc_bit c' -> c = c'.
Proof.
  intros Hc Hc' H.
  assert (H0 : Z.testbit c 0 = Z.testbit c' 0) by (rewrite <- !crc_bit_top, H by done; done).
  assert (Hl : forall x, Z.land x 1 = Z.b2z (Z.testbit x 0)).
  { intros; change 1 with (Z.ones 1); rewrite Z.land_ones, <- Z.bit0_mod by lia; done. }
  assert (Hs : Z.shiftr c 1 = Z.shiftr c' 1).
  { unfold crc_bit in H; rewrite !Hl, H0 in H.
    destruct (Z.b2z (Z.testbit c' 0) =? 0); [done|]; by apply lxor_inj_l in H. }
  rewrite (Z.div_mod c 2), (Z.div_mod c' 2) by lia.
  rewrite !Z.shiftr_div_pow2 in Hs by lia; change (2 ^ 1) with 2 in Hs.
  rewrite <- !Z.bit0_mod, Hs, H0; done.
Qed.

Lemma crc_iter_range n c : 0 <= c < 2 ^ 32 -> 0 <= Nat.iter n crc_bit c < 2 ^ 32.
Proof. intros; induction n; simpl; auto using crc_bit_range. Qed.

Lemma crc_iter_inj n c c' :
  0 <= c < 2 ^ 32 -> 0 <= c' < 2 ^ 32 ->
  Nat.iter n crc_bit c = Nat.iter n crc_bit c' -> c = c'.
Proof.
  intros Hc Hc'; induction n as [|n IH]; simpl; [done|]; intros H.
  apply IH, crc_bit_inj; auto using crc_iter_range.
Qed.

Lemma is_byte_u32 b : is_byte b -> 0 <= b < 2 ^ 32.
Proof. unfold is_byte; lia. Qed.

Lemma crc_byte_range c b :
  0 <= c < 2 ^ 32 -> is_byte b -> 0 <= crc_byte c b < 2 ^ 32.
Proof. intros Hc Hb%is_byte_u32; apply crc_iter_range, lxor_range; lia. Qed.

Lemma crc_byte_inj_state c c' b :
  0 <= c < 2 ^ 32 -> 0 <= c' < 2 ^ 32 -> is_byte b -> crc_byte c b = crc_byte c' b -> c = c'.
Proof.
  intros Hc Hc' Hb%is_byte_u32 H; apply crc_iter_inj in H; try (apply lxor_range; lia).
  by apply lxor_inj_l in H.
Qed.

Lemma crc_byte_inj_byte c b b' :
  0 <= c < 2 ^ 32 -> is_byte b -> is_byte b' -> crc_byte c b = crc_byte c b' -> b = b'.
Proof.
  intros Hc Hb%is_byte_u32 Hb'%is_byte_u32 H; apply crc_iter_inj in H; try (apply lxor_range; lia).
  rewrite !(Z.lxor_comm c) in H; by apply lxor_inj_l in H.
Qed.

Lemma crc_fold_range m c :
  bytes_ok m -> 0 <= c < 2 ^ 32 -> 0 <= fold_left crc_byte m c < 2 ^ 32.
Proof.
  intros Hm; revert c; induction Hm as [|b m Hb _ IH]; intros c Hc; simpl; [done|].
  apply IH, crc_byte_range; done.
Qed.

Lemma crc_fold_inj m c c' :
  bytes_ok m -> 0 <= c < 2 ^ 32 -> 0 <= c' < 2 ^ 32 ->
  fold_left crc_byte m c = fold_left crc_byte m c' -> c = c'.
Proof.
  intros Hm; revert c c'; induction Hm as [|b m Hb _ IH]; intros c c' Hc Hc'; simpl; [done|].
  intros H; apply IH in H; try (by apply crc_byte_range).
  by apply crc_byte_inj_state in H.
Qed.

Lemma crc_not_inj x y :
  0 <= x < 2 ^ 32 -> 0 <= y < 2 ^ 32 -> u32 (Z.lnot x) = u32 (Z.lnot y) -> x = y.
Proof.
  intros Hx Hy.
  assert (E : forall z, 0 <= z < 2 ^ 32 -> u32 (Z.lnot z) = 2 ^ 32 - 1 - z).
  { intros z Hz; unfold wrap_u, Z.lnot.
    rewrite <- (Z.mod_add _ 1) by lia; rewrite Z.mod_small; lia. }
  rewrite !E by done; lia.
Qed.

(** corrupting any single byte of a message changes its checksum, whatever stands
    before and after it. *)
Theorem crc32_detects_corrupted_byte m1 a b m2 :
  bytes_ok m1 -> is_byte a -> is_byte b -> bytes_ok m2 -> a <> b ->
  crc32_bitwise (m1 ++ a :: m2) <> crc32_bitwise (m1 ++ b :: m2).
Proof.
  intros Hm1 Ha Hb Hm2 Hne H; apply Hne; clear Hne; unfold crc32_bitwise in H.
  assert (H0 : 0 <= u32 (Z.lnot 0) < 2 ^ 32) by (apply wrap_u_range; lia).
  set (c0 := u32 (Z.lnot 0)) in *; rewrite !fold_left_app in H; simpl in H.
  pose proof (crc_fold_range m1 c0 Hm1 H0) as H1.
  apply crc_not_inj in H; try (apply crc_fold_range; auto using crc_byte_range).
  apply crc_fold_inj in H; auto using crc_byte_range.
  by apply crc_byte_inj_byte in H.
Qed.

Lemma crc32_detects_corrupted_byte_witness :
  crc32_bitwise ([1; 2] ++ 3 :: [4]) <> crc32_bitwise ([1; 2] ++ 7 :: [4]).
Proof.
  apply crc32_detects_corrupted_byte; repeat constructor; unfold is_byte; lia.
Defined.

(** * The receiver *)

(** [memcpy(buf + off, src, n)] inside the buffer *)
Definition write_at (buf : list Z) (off : nat) (src : list Z) : list Z :=
  take off buf ++ src ++ drop (off + length src) buf.

(** [src/include/common/net/netcommon.h:22-28] [file_transfer_state_t] *)
Record file_transfer_state := {
  header_buf : list Z;
  header_received : nat;
  file_size : Z;
  bytes_received : Z
}.

(** [src/include/common/net/filerecv.h:11-12] [imgdata]
    The static image buffer; [None] is null. *)
Record image := { imgdata : option (list Z); imglen : Z }.
Definition img_block (img : image) : list Z := default [] (imgdata img).

(** What a call of the receive callback leads to.  [wrote_freed] records the
    [memset] of the connection state after it was freed. *)
Inductive recv_result :=
| recv_open (st : file_transfer_state) (img : image)
| recv_done (answer : list Z) (img : image) (wrote_freed : bool)
| recv_abort (img : image).

(** [src/include/common/net/filerecv.h:59-62] [file_recv_callback] the magic number *)
Definition header_magic (buf : list Z) : Z := be_val (take 4 buf).

(** [src/include/common/net/filerecv.h:69-77] [file_recv_callback] the file size, from
    two big-endian halves *)
Definition header_size (buf : list Z) : Z :=
  let hi := be_val (take 4 (drop 4 buf)) in
  let lo := be_val (take 4 (drop 8 buf)) in
  Z.lor (u64 (Z.shiftl hi 32)) lo.

(** A segment as lwIP delivers it: the payloads of a chain of packet buffers. *)
Definition pbuf : Type := list (list Z).

Section Receiver.
(** [malloc] and the user's callback, which reads the file. *)
Context (malloc : Z -> option (list Z)) (func : option (list Z -> Z -> Z)).

(** [src/include/common/net/filerecv.h:80-86] [file_recv_callback] the image buffer grows
    to the next multiple of four; [imglen] is an [int]. *)
Definition grow_image (size : Z) (img : image) : image :=
  if u64 (imglen img) <? size then
    let l := s32 (u64 (u64 (size + 3) / 4 * 4)) in
    {| imgdata := malloc (u64 l); imglen := l |}
  else img.

Definition file_type (size : Z) (block : list Z) : Z :=
  match func with
  | Some f => u16 (f (take (Z.to_nat size) block) (s32 size))
  | None => 0
  end.

(** [src/include/common/net/filerecv.h:47-116] [file_recv_callback] the loop over a
    segment; [None] is a copy outside the image buffer or missing fuel. *)
Fixpoint recv_loop (fuel : nat) (payload : list Z) (st : file_transfer_state) (img : image)
  : option recv_result :=
  match payload, fuel with
  | [], _ => Some (recv_open st img)
  | _, O => None
  | _, S fuel =>
      if (header_received st <? HEADER_SIZE)%nat then
        let needed := (HEADER_SIZE - header_received st)%nat in
        let to_copy := if (length payload <? needed)%nat then length payload else needed in
        let st := {| header_buf := write_at (header_buf st) (header_received st)
                                     (take to_copy payload);
                     header_received := header_received st + to_copy;
                     file_size := file_size st; bytes_received := bytes_received st |} in
        let payload := drop to_copy payload in
        if (header_received st =? HEADER_SIZE)%nat then
          if negb (header_magic (header_buf st) =? MAGIC_NUMBER) then Some (recv_abort img)
          else
            let size := header_size (header_buf st) in
            recv_loop fuel payload
              {| header_buf := header_buf st; header_received := header_received st;
                 file_size := size; bytes_received := 0 |} (grow_image size img)
        else recv_loop fuel payload st img
      else
        let remaining := u64 (file_size st - bytes_received st) in
        let to_process := if Z.of_nat (length payload) <? remaining
                          then Z.of_nat (length payload) else u16 remaining in
        let off := Z.to_nat (bytes_received st) in
        let n := Z.to_nat to_process in
        if (off + n <=? length (img_block img))%nat then
          let block := write_at (img_block img) off (take n payload) in
          let received := u64 (bytes_received st + to_process) in
          let img := {| imgdata := match imgdata img with Some _ => Some block | None => None end;
                        imglen := imglen img |} in
          if received =? file_size st then
            let type := file_type (file_size st) block in
            let crc := crc32_bitwise (take (Z.to_nat (file_size st)) block) in
            Some (recv_done (le_bytes 4 crc ++ le_bytes 2 type) img true)
          else
            recv_loop fuel (drop n payload)
              {| header_buf := header_buf st; header_received := header_received st;
                 file_size := file_size st; bytes_received := received |} img
        else None
  end.

(** [src/include/common/net/filerecv.h:18-120] [file_recv_callback] with a segment: lwIP hands it
    over as a chain of packet buffers, of which the callback takes the first ([p->payload],
    [p->len]) and frees the others unread. *)
Definition recv_segment (p : pbuf) (st : file_transfer_state) (img : image)
  : option recv_result :=
  let payload := default [] (head p) in
  recv_loop (S (length payload)) payload st img.

(** [src/include/common/net/filerecv.h:20-40] [file_recv_callback] when the remote side
    closed: [junk] are the two bytes of the answer that are sent before they are
    set, and the state is cleared after it was freed. *)
Definition recv_close (junk : list Z) (st : file_transfer_state) (img : image) : recv_result :=
  if (bytes_received st =? file_size st) && negb (file_size st =? 0) then
    recv_done (le_bytes 4 (crc32_bitwise (take (Z.to_nat (file_size st)) (img_block img))) ++ junk)
      img true
  else recv_done [] img true.

(** [src/include/common/net/filerecv.h:122-137] [accept_file_callback]
    A fresh connection has a cleared state. *)
Definition accept_file : file_transfer_state :=
  {| header_buf := replicate HEADER_SIZE 0; header_received := 0;
     file_size := 0; bytes_received := 0 |}.

(** The segments of a connection, until one ends it. *)
Fixpoint recv_segments (segs : list pbuf) (st : file_transfer_state) (img : image)
  : option recv_result :=
  match segs with
  | [] => Some (recv_open st img)
  | s :: segs =>
      match recv_segment s st img with
      | Some (recv_open st img) => recv_segments segs st img
      | r => r
      end
  end.
End Receiver.

(** * The sender *)

(** [src/common/net/client.c:53-58] [main] the header: the magic number in network order
    and the size in the order of the host *)
Definition client_header (size : Z) : list Z := be_bytes 4 MAGIC_NUMBER ++ le_bytes 8 size.

(** [example/example_ai_model/aeg/res18sw/demo/client.c:90-99] [main] the header of the demo's
    client *)
Definition demo_header (x : Z) : list Z :=
  let hi := u32 (Z.shiftr x 32) in
  let lo := u32 (Z.land x 0xFFFFFFFF) in
  be_bytes 4 MAGIC_NUMBER ++ be_bytes 4 hi ++ be_bytes 4 lo.

(** The header the receiver expects. *)
Definition wire_header (size : Z) : list Z := be_bytes 4 MAGIC_NUMBER ++ be_bytes 8 size.

(** How the client's main ends. *)
Inductive exit_code := EXIT_SUCCESS | EXIT_FAILURE.

Section Client.
(** [send_] answers the [k]-th [send] of a buffer: the number of bytes it took. *)
Context (send_ : nat -> list Z -> Z).

(** [src/common/net/client.c:73-83] [main] a chunk is offered until it is sent; the wire is
    the bytes taken so far *)
Fixpoint send_chunk (fuel : nat) (k : nat) (chunk wire : list Z)
  : option (exit_code * nat * list Z) :=
  match chunk, fuel with
  | [], _ => Some (EXIT_SUCCESS, k, wire)
  | _, O => None
  | _, S fuel =>
      let n := send_ k chunk in
      if n <=? 0 then Some (EXIT_FAILURE, S k, wire)
      else send_chunk fuel (S k) (drop (Z.to_nat n) chunk) (wire ++ take (Z.to_nat n) chunk)
  end.

(** [src/common/net/client.c:69-85] [main] the file in chunks of 4096 bytes *)
Fixpoint send_file (fuel : nat) (k : nat) (file wire : list Z)
  : option (exit_code * nat * list Z) :=
  match file, fuel with
  | [], _ => Some (EXIT_SUCCESS, k, wire)
  | _, O => None
  | _, S fuel =>
      let chunk := take 4096 file in
      match send_chunk (length chunk) k chunk wire with
      | Some (EXIT_SUCCESS, k, wire) => send_file fuel k (drop 4096 file) wire
      | r => r
      end
  end.

(** [src/common/net/client.c:60-85] [main] the header, in one [send], and the file *)
Definition send_stream (header file : list Z) : option (exit_code * nat * list Z) :=
  let sent := send_ 0 header in
  let wire := take (Z.to_nat sent) header in
  if negb (sent =? Z.of_nat HEADER_SIZE) then Some (EXIT_FAILURE, 1%nat, wire)
  else send_file (length file) 1 file wire.

(** [src/common/net/client.c:25-85] [main] after the connection is open *)
Definition client_main (file : list Z) : option (exit_code * nat * list Z) :=
  send_stream (client_header (u64 (Z.of_nat (length file)))) file.

(** [example/example_ai_model/aeg/res18sw/demo/client.c:90-126] [main] the demo's client,
    which sends the size as two big-endian halves *)
Definition demo_main (file : list Z) : option (exit_code * nat * list Z) :=
  send_stream (demo_header (u64 (Z.of_nat (length file)))) file.
End Client.

(** ** The label of a type *)

(** Remove the newline [getline] leaves at the end of a line. *)
Definition chomp (line : list Z) : list Z :=
  match rev line with
  | 10 :: r => rev r
  | _ => line
  end.

(** [example/example_ai_model/aeg/res18sw/demo/client.c:27-40] [get_name] the loop over the
    lines of the file *)
Fixpoint get_name_loop (lines : list (list Z)) (current_line n : Z) : option (list Z) :=
  match lines with
  | [] => None
  | line :: lines =>
      if current_line =? n then Some (chomp line) else get_name_loop lines (current_line + 1) n
  end.

(** [example/example_ai_model/aeg/res18sw/demo/client.c:14-45] [get_name]
    [None] is a file that does not open; the result is null when there is no such
    line. *)
Definition get_name (file : option (list (list Z))) (n : Z) : option (list Z) :=
  match file with
  | None => None
  | Some lines => get_name_loop lines 1 n
  end.

(** [src/common/net/client.c:12-51] [main] opening the file and the connection: whether each
    step succeeds; the result is the exit code of a failure and whether the socket
    was closed again. *)
Definition client_setup (args_ok fopen_ok socket_ok pton_ok connect_ok : bool)
  : option (exit_code * bool) :=
  if negb args_ok then Some (EXIT_FAILURE, false)
  else if negb fopen_ok then Some (EXIT_FAILURE, false)
  else if negb socket_ok then Some (EXIT_FAILURE, false)
  else if negb pton_ok then Some (EXIT_FAILURE, true)
  else if negb connect_ok then Some (EXIT_FAILURE, true)
  else None.

(** [src/common/net/client.c:87-101] [main] the answer: the checksum, printed from its last byte
    to its first, and the type; [None] for an incomplete answer *)
Definition client_reply (response : list Z) : option (Z * Z) :=
  if (length response =? 6)%nat then
    Some (be_val (rev (take 4 response)), le_val (take 2 (drop 4 response)))
  else None.

(** * Properties *)

Lemma write_at_length buf off src :
  (off + length src <= length buf)%nat -> length (write_at buf off src) = length buf.
Proof.
  intros; unfold write_at; rewrite !length_app, length_take, length_drop; lia.
Qed.

(** Writing behind a known prefix extends it. *)
Lemma write_at_extends buf off src pre :
  take off buf = pre -> (off + length src <= length buf)%nat ->
  take (off + length src) (write_at buf off src) = pre ++ src.
Proof.
  intros <- H; unfold write_at; rewrite app_assoc, take_app_length'; [done|].
  rewrite length_app, length_take; lia.
Qed.

Lemma be_val_range bs : bytes_ok bs -> 0 <= be_val bs < 256 ^ Z.of_nat (length bs).
Proof.
  intros H; unfold be_val; rewrite <- (length_rev bs); apply le_val_range.
  by apply Forall_rev.
Qed.

Lemma be_val_app a b :
  be_val (a ++ b) = be_val a * 256 ^ Z.of_nat (length b) + be_val b.
Proof. unfold be_val; rewrite rev_app_distr, le_val_app, length_rev; ring. Qed.

Lemma be_bytes_ok n z : bytes_ok (be_bytes n z).
Proof. unfold be_bytes; apply Forall_rev, le_bytes_ok. Qed.

(** The two halves of a header give back the size it was written with. *)
Lemma header_size_val m s :
  length m = 4%nat -> length s = 8%nat -> bytes_ok s -> header_size (m ++ s) = be_val s.
Proof.
  intros Hm Hs Hb; unfold header_size.
  rewrite drop_app_length' by done.
  replace (drop 8 (m ++ s)) with (drop 4 s)
    by (rewrite drop_app_ge by lia; f_equal; lia).
  assert (E : s = take 4 s ++ drop 4 s) by (by rewrite take_drop).
  assert (Hd : length (drop 4 s) = 4%nat) by (rewrite length_drop; lia).
  pose proof (be_val_range (take 4 s) (Forall_take _ _ _ Hb)) as H1.
  pose proof (be_val_range (drop 4 s) (Forall_drop _ _ _ Hb)) as H2.
  rewrite length_take, Nat.min_l in H1 by lia; rewrite Hd in H2.
  rewrite (take_ge (drop 4 s)) by lia.
  change (256 ^ Z.of_nat 4) with (2 ^ 32) in *.
  rewrite wrap_u_small by (rewrite Z.shiftl_mul_pow2 by lia; lia).
  rewrite Z.lor_comm, lor_shiftl_add by lia.
  rewrite E at 3; rewrite be_val_app, Hd; change (256 ^ Z.of_nat 4) with (2 ^ 32); lia.
Qed.

Lemma wire_header_length n : length (wire_header n) = 12%nat.
Proof. unfold wire_header; rewrite length_app, !be_bytes_length; done. Qed.

Lemma wire_header_size n : 0 <= n < 2 ^ 64 -> header_size (wire_header n) = n.
Proof.
  intros Hn; unfold wire_header; rewrite header_size_val.
  - rewrite be_val_bytes; apply Z.mod_small; simpl; lia.
  - apply be_bytes_length.
  - apply be_bytes_length.
  - apply be_bytes_ok.
Qed.

Lemma wire_header_magic n : header_magic (wire_header n) = MAGIC_NUMBER.
Proof.
  unfold header_magic, wire_header; rewrite take_app_length' by (by rewrite be_bytes_length).
  rewrite be_val_bytes; reflexivity.
Qed.

(** Segments delivered in one packet buffer each. *)
Definition single (segs : list (list Z)) : list pbuf := map (fun s => [s]) segs.

(** What a chain holds behind its first buffer is lost. *)
Lemma recv_segment_first malloc func p rest st img :
  recv_segment malloc func (p :: rest) st img = recv_segment malloc func [p] st img.
Proof. done. Qed.

(** The image buffer is null and empty, or a block of its length. *)
Definition img_ok (img : image) : Prop :=
  0 <= imglen img < 2 ^ 31 /\ Z.of_nat (length (img_block img)) = imglen img.

Section ReceiverFacts.
Context (malloc : Z -> option (list Z)) (func : option (list Z -> Z -> Z)).
Context (d : list Z).
Abbreviation fsize := (Z.of_nat (length d)).
Hypothesis d_nonempty : d <> [].
Hypothesis d_size : fsize < 2 ^ 31 - 4.
(** Allocation succeeds for the sizes asked for here. *)
Hypothesis malloc_ok : forall z, 0 <= z < 2 ^ 31 ->
  exists b, malloc z = Some b /\ Z.of_nat (length b) = z.

Abbreviation stream := (wire_header fsize ++ d).

(** The connection after the bytes [s] of the stream. *)
Definition received (s : list Z) (st : file_transfer_state) (img : image) : Prop :=
  length (header_buf st) = 12%nat /\ img_ok img /\
  ((length s < 12)%nat /\ header_received st = length s /\ take (length s) (header_buf st) = s \/
   (12 <= length s)%nat /\ header_received st = 12%nat /\ file_size st = fsize /\
   bytes_received st = Z.of_nat (length s - 12) /\ is_Some (imgdata img) /\
   (length d <= length (img_block img))%nat /\
   take (length s - 12) (img_block img) = drop 12 s).

Lemma grow_image_ok img :
  img_ok img -> let img' := grow_image malloc fsize img in
  img_ok img' /\ is_Some (imgdata img') /\ (length d <= length (img_block img'))%nat.
Proof.
  intros [Hi Hl]; cbv zeta; unfold grow_image.
  assert (Hn : 0 < fsize) by (destruct d; [done|simpl; lia]).
  rewrite (wrap_u_small 64 (imglen img)) by lia.
  destruct (Z.ltb_spec (imglen img) fsize) as [Hlt|Hge].
  - assert (Hr : fsize <= (fsize + 3) / 4 * 4 < 2 ^ 31).
    { pose proof (Z.div_mod (fsize + 3) 4 ltac:(lia)).
      pose proof (Z.mod_pos_bound (fsize + 3) 4 ltac:(lia)); lia. }
    rewrite (wrap_u_small 64 (fsize + 3)), (wrap_u_small 64 (_ * 4)), wrap_s_small by lia.
    rewrite wrap_u_small by lia.
    destruct (malloc_ok ((fsize + 3) / 4 * 4) ltac:(lia)) as (b & Hb & Hbl).
    rewrite Hb; unfold img_ok, img_block; simpl; repeat split; try lia; eauto.
  - split; [done|]; assert (Hb : length (img_block img) <> 0%nat) by lia.
    unfold img_block in *; destruct (imgdata img); simpl in *; [|lia].
    split; [eauto|lia].
Qed.

(** The answer to a complete transfer. *)
Definition file_answer : list Z :=
  le_bytes 4 (crc32_bitwise d) ++ le_bytes 2 (file_type func fsize d).

(** What a callback leaves after bringing the stream to [s]. *)
Definition recv_post (s : list Z) (r : option recv_result) : Prop :=
  (s <> stream -> exists st img, r = Some (recv_open st img) /\ received s st img) /\
  (s = stream -> exists img, r = Some (recv_done file_answer img true) /\
     take (length d) (img_block img) = d).

(** A segment of file data is copied behind what was received before. *)
Lemma recv_loop_data fuel (k : nat) payload st img :
  payload <> [] -> Z.of_nat (length payload) < 2 ^ 16 ->
  header_received st = 12%nat -> file_size st = fsize -> bytes_received st = Z.of_nat k ->
  (k + length payload <= length d)%nat -> (length d <= length (img_block img))%nat ->
  recv_loop malloc func (S fuel) payload st img =
    let block := write_at (img_block img) k payload in
    let img' := {| imgdata := match imgdata img with Some _ => Some block | None => None end;
                   imglen := imglen img |} in
    if Z.of_nat (k + length payload) =? fsize then
      Some (recv_done (le_bytes 4 (crc32_bitwise (take (length d) block)) ++
                       le_bytes 2 (file_type func fsize block)) img' true)
    else Some (recv_open {| header_buf := header_buf st; header_received := header_received st;
           file_size := file_size st; bytes_received := Z.of_nat (k + length payload) |}
           img').
Proof.
  intros Hne Hp Hhr Hfs Hbr Hl Hcap.
  assert (Hpl : (0 < length payload)%nat) by (destruct payload; simpl; [done|lia]).
  destruct payload as [|x payload]; [done|]; cbn [recv_loop].
  set (pl := x :: payload) in *; rewrite Hhr, Hfs, Hbr.
  change (12 <? HEADER_SIZE)%nat with false; cbv iota.
  rewrite (wrap_u_small 64 (fsize - _)) by lia.
  replace (if Z.of_nat (length pl) <? fsize - Z.of_nat k then Z.of_nat (length pl)
           else u16 (fsize - Z.of_nat k)) with (Z.of_nat (length pl)).
  2: { destruct (Z.ltb_spec (Z.of_nat (length pl)) (fsize - Z.of_nat k)); [done|].
       rewrite wrap_u_small; lia. }
  rewrite !Nat2Z.id, (take_ge pl), drop_ge by lia.
  destruct (Nat.leb_spec (k + length pl) (length (img_block img))); [|lia].
  rewrite wrap_u_small by lia; rewrite <- Nat2Z.inj_add.
  cbv zeta; destruct (_ =? fsize); [done|destruct fuel; done].
Qed.

Lemma recv_data_step fuel s payload rest st img :
  s ++ payload ++ rest = stream -> (12 <= length s)%nat -> payload <> [] ->
  Z.of_nat (length payload) < 2 ^ 16 -> received s st img -> (0 < fuel)%nat ->
  recv_post (s ++ payload) (recv_loop malloc func fuel payload st img).
Proof.
  intros Hs Hlen Hne Hp (Hhb & Himg & [[? _]|(_ & Hhr & Hfs & Hbr & Hsome & Hcap & Hpre)]) Hf;
    [lia|]; destruct fuel as [|fuel]; [lia|].
  assert (Hl : (length s + length payload + length rest = 12 + length d)%nat).
  { apply (f_equal length) in Hs; rewrite !length_app, wire_header_length in Hs; lia. }
  assert (Hpl : (0 < length payload)%nat) by (destruct payload; simpl; [done|lia]).
  rewrite (recv_loop_data fuel (length s - 12)) by (done || lia); cbv zeta.
  set (block := write_at (img_block img) (length s - 12) payload).
  assert (Hblen : length block = length (img_block img))
    by (apply write_at_length; lia).
  assert (Hext : take (length s - 12 + length payload) block = drop 12 (s ++ payload)).
  { unfold block; rewrite (write_at_extends _ _ _ _ Hpre) by lia; rewrite drop_app_le by lia; done. }
  destruct Hsome as [b0 Hb0].
  split; intros Hcase.
  - assert (Hrest : rest <> [])
      by (intros ->; apply Hcase; rewrite app_nil_r in Hs; done).
    assert (0 < length rest)%nat by (destruct rest; simpl; [done|lia]).
    destruct (Z.eqb_spec (Z.of_nat (length s - 12 + length payload)) fsize); [lia|].
    eexists _, _; split; [reflexivity|].
    unfold received; simpl; rewrite length_app; split; [done|].
    unfold img_block at 1; rewrite Hb0; simpl.
    split; [split; [apply Himg|]|right].
    + unfold img_block; simpl; rewrite Hblen; apply Himg.
    + repeat split; try lia; eauto.
      replace (length s + length payload - 12)%nat with (length s - 12 + length payload)%nat by lia.
      exact Hext.
  - assert (Hr0 : length rest = 0%nat)
      by (apply (f_equal length) in Hcase; rewrite !length_app, wire_header_length in Hcase; lia).
    replace (length s - 12 + length payload)%nat with (length d) in * by lia.
    destruct (Z.eqb_spec fsize fsize); [|done].
    assert (Hd : drop 12 (s ++ payload) = d)
      by (rewrite Hcase; apply drop_app_length'; by rewrite wire_header_length).
    rewrite Hd in Hext; rewrite Hb0.
    exists {| imgdata := Some block; imglen := imglen img |}; split; [|exact Hext].
    unfold file_answer; rewrite Hext; do 3 f_equal.
    unfold file_type; destruct func; [|done]; rewrite Nat2Z.id, Hext, take_ge by lia; done.
Qed.

Lemma stream_length : length stream = (12 + length d)%nat.
Proof. rewrite length_app, wire_header_length; done. Qed.

(** The header part of a segment: it fills the header, and when the header is
    complete the connection is as after the first twelve bytes. *)
Lemma recv_header_step fuel s payload rest st img :
  s ++ payload ++ rest = stream -> (length s < 12)%nat -> payload <> [] ->
  received s st img -> (length s + length payload < 12)%nat ->
  recv_post (s ++ payload) (recv_loop malloc func (S fuel) payload st img).
Proof.
  intros Hs Hlen Hne (Hhb & Himg & [(_ & Hhr & Hpre)|[? _]]) Hshort; [|lia].
  assert (Hns : s ++ payload <> stream).
  { intros E; apply (f_equal length) in E; rewrite length_app, stream_length in E; lia. }
  split; [intros _|done].
  exists {| header_buf := write_at (header_buf st) (length s) payload;
            header_received := length s + length payload;
            file_size := file_size st; bytes_received := bytes_received st |}, img; split.
  - destruct payload as [|x payload]; [done|]; cbn [recv_loop]; set (pl := x :: payload) in *.
    rewrite Hhr; destruct (Nat.ltb_spec (length s) HEADER_SIZE); [|unfold HEADER_SIZE in *; lia].
    destruct (Nat.ltb_spec (length pl) (HEADER_SIZE - length s)); [|unfold HEADER_SIZE in *; lia].
    cbv zeta; cbn [header_received header_buf file_size bytes_received].
    destruct (Nat.eqb_spec (length s + length pl) HEADER_SIZE); [unfold HEADER_SIZE in *; lia|].
    rewrite drop_all, (take_ge pl) by lia; destruct fuel; reflexivity.
  - unfold received; cbn [header_buf header_received]; rewrite write_at_length by lia.
    split; [done|]; split; [done|]; left; rewrite length_app; split; [lia|]; split; [done|].
    apply write_at_extends; [done|lia].
Qed.

Lemma recv_header_complete fuel s payload rest st img :
  s ++ payload ++ rest = stream -> (length s < 12)%nat ->
  received s st img -> (12 <= length s + length payload)%nat ->
  exists st' img', received (wire_header fsize) st' img' /\
    recv_loop malloc func (S fuel) payload st img =
    recv_loop malloc func fuel (drop (12 - length s) payload) st' img'.
Proof.
  intros Hs Hlen (Hhb & Himg & [(_ & Hhr & Hpre)|[? _]]) Hlong; [|lia].
  set (hdr := take (12 - length s) payload).
  assert (Hhl : length hdr = (12 - length s)%nat) by (unfold hdr; rewrite length_take; lia).
  assert (Hw : write_at (header_buf st) (length s) hdr = wire_header fsize).
  { rewrite <- (take_ge (write_at _ _ _) 12) by (rewrite write_at_length; lia).
    replace 12%nat with (length s + length hdr)%nat at 1 by lia.
    rewrite (write_at_extends _ _ _ _ Hpre) by lia.
    apply (f_equal (take 12)) in Hs.
    rewrite (take_app_length' (wire_header fsize)) in Hs by (by rewrite wire_header_length).
    rewrite <- Hs, take_app_ge, take_app_le by lia; done. }
  destruct (grow_image_ok img Himg) as (Himg' & Hsome & Hcap).
  exists {| header_buf := wire_header fsize; header_received := length s + (12 - length s);
            file_size := fsize; bytes_received := 0 |}, (grow_image malloc fsize img); split.
  2: { destruct payload as [|x payload]; [simpl in Hlong; lia|].
    cbn [recv_loop]; set (pl := x :: payload) in *.
    rewrite Hhr; destruct (Nat.ltb_spec (length s) HEADER_SIZE); [|unfold HEADER_SIZE in *; lia].
    replace (if (length pl <? HEADER_SIZE - length s)%nat then length pl
             else (HEADER_SIZE - length s)%nat) with (12 - length s)%nat.
    2: { unfold HEADER_SIZE; destruct (Nat.ltb_spec (length pl) (12 - length s)); lia. }
    cbv zeta; cbn [header_received header_buf file_size bytes_received]; fold hdr; rewrite Hw.
    destruct (Nat.eqb_spec (length s + (12 - length s)) HEADER_SIZE);
      [|unfold HEADER_SIZE in *; lia].
    rewrite wire_header_magic, Z.eqb_refl; cbn [negb]; cbv iota.
    rewrite wire_header_size by lia; reflexivity. }
  unfold received; cbn [header_buf header_received file_size bytes_received].
  rewrite wire_header_length; split; [done|]; split; [done|]; right.
  rewrite Nat.sub_diag, take_0, drop_ge by (rewrite wire_header_length; lia).
  repeat split; try lia; done.
Qed.

Lemma recv_segment_post s payload rest st img :
  s ++ payload ++ rest = stream -> s <> stream -> Z.of_nat (length payload) < 2 ^ 16 ->
  received s st img -> recv_post (s ++ payload) (recv_segment malloc func [payload] st img).
Proof.
  intros Hs Hns Hp Hr; change (recv_segment malloc func [payload] st img) with (recv_loop malloc func (S (length payload)) payload st img).
  destruct (decide (payload = [])) as [->|Hne].
  { rewrite app_nil_r; split; [|done]; intros _; eexists _, _; split; [reflexivity|done]. }
  destruct (decide (12 <= length s)%nat); [eapply recv_data_step; eauto; lia|].
  destruct (decide (length s + length payload < 12)%nat);
    [eapply recv_header_step; eauto; lia|].
  destruct (recv_header_complete (length payload) s payload rest st img Hs ltac:(lia) Hr
    ltac:(lia)) as (st' & img' & Hr' & ->).
  set (tl := drop (12 - length s) payload).
  assert (Hspl : s ++ payload = wire_header fsize ++ tl).
  { apply (f_equal (take (length s + length payload))) in Hs.
    rewrite app_assoc, take_app_length' in Hs by (by rewrite length_app).
    rewrite Hs, take_app_ge by (rewrite wire_header_length; lia).
    f_equal; rewrite wire_header_length.
    apply (f_equal (drop 12)) in Hs; rewrite drop_app_ge in Hs by lia.
    fold tl in Hs; rewrite Hs.
    rewrite take_app_ge, drop_app_length' by (rewrite wire_header_length; lia || done).
    rewrite wire_header_length; done. }
  assert (Hs' : wire_header fsize ++ tl ++ rest = stream) by (rewrite app_assoc, <- Hspl, <- app_assoc; done).
  destruct (decide (tl = [])) as [E|E].
  - rewrite Hspl, E, app_nil_r; split.
    + intros _; eexists _, _; split; [destruct (length payload); reflexivity|done].
    + intros H; apply (f_equal length) in H; rewrite stream_length, wire_header_length in H.
      destruct d; simpl in *; [done|lia].
  - rewrite Hspl; eapply recv_data_step; eauto.
    all: rewrite ?wire_header_length; unfold tl; rewrite ?length_drop;
      destruct payload; simpl in *; done || lia.
Qed.

(** A complete run over the segments of a stream. *)
Lemma recv_segments_done segs img :
  img_ok img -> Forall (fun s => Z.of_nat (length s) < 2 ^ 16) segs -> concat segs = stream ->
  exists img', recv_segments malloc func (single segs) accept_file img =
      Some (recv_done file_answer img' true) /\ take (length d) (img_block img') = d.
Proof.
  intros Himg Hsegs Hcat.
  assert (H0 : received [] accept_file img).
  { split; [done|]; split; [done|]; left; simpl; split; [lia|done]. }
  assert (Hns : [] <> stream) by (intros E; apply (f_equal length) in E; rewrite stream_length in E; done).
  change (concat segs) with ([] ++ concat segs) in Hcat.
  revert Hcat Hns H0; generalize accept_file as st; revert img Himg; generalize (@nil Z) as s.
  induction Hsegs as [|p segs Hp _ IH]; intros s img Himg st Hcat Hns Hr; simpl in *.
  - rewrite app_nil_r in Hcat; done.
  - pose proof (recv_segment_post s p (concat segs) st img Hcat Hns Hp Hr) as [Hopen Hdone].
    destruct (decide (s ++ p = stream)) as [E|E].
    + destruct (Hdone E) as (img' & -> & Hd); exists img'; done.
    + destruct (Hopen E) as (st' & img' & -> & Hr').
      apply (IH (s ++ p)); [apply Hr'|by rewrite <- app_assoc|done|done].
Qed.
(** however TCP cuts the stream into segments, when each is delivered in one packet buffer the
    receiver accepts it: every segment but the last leaves the connection open, and the one that completes the
    file finds the file in the image buffer and answers with its checksum and type.
    No copy leaves the image buffer.  Every completed transfer also clears the
    connection state after freeing it. *)
Theorem recv_any_segmentation segs img :
  img_ok img -> Forall (fun s => Z.of_nat (length s) < 2 ^ 16) segs -> concat segs = stream ->
  exists img', recv_segments malloc func (single segs) accept_file img =
      Some (recv_done file_answer img' true) /\ take (length d) (img_block img') = d.
Proof. apply recv_segments_done. Qed.
End ReceiverFacts.

(** ** The sender *)

Section ClientFacts.
(** [send] takes between one and all of the bytes it is offered, and the whole
    header at once. *)
Context (send_ : nat -> list Z -> Z).
Hypothesis send_progress : forall k b, b <> [] -> 1 <= send_ k b <= Z.of_nat (length b).

Lemma send_chunk_all fuel k chunk wire :
  (length chunk <= fuel)%nat ->
  exists k', send_chunk send_ fuel k chunk wire = Some (EXIT_SUCCESS, k', wire ++ chunk).
Proof.
  revert k chunk wire; induction fuel as [|fuel IH]; intros k chunk wire Hf.
  - destruct chunk; [|simpl in Hf; lia]; exists k; rewrite app_nil_r; done.
  - destruct chunk as [|x chunk]; [exists k; rewrite app_nil_r; done|]; cbn [send_chunk].
    set (c := x :: chunk) in *.
    pose proof (send_progress k c ltac:(done)) as Hs.
    destruct (Z.leb_spec (send_ k c) 0); [lia|].
    destruct (IH (S k) (drop (Z.to_nat (send_ k c)) c) (wire ++ take (Z.to_nat (send_ k c)) c))
      as [k' ->]; [rewrite length_drop; lia|].
    exists k'; rewrite <- app_assoc, take_drop; done.
Qed.

Lemma send_file_all fuel k file wire :
  (length file <= fuel)%nat ->
  exists k', send_file send_ fuel k file wire = Some (EXIT_SUCCESS, k', wire ++ file).
Proof.
  revert k file wire; induction fuel as [|fuel IH]; intros k file wire Hf.
  - destruct file; [|simpl in Hf; lia]; exists k; rewrite app_nil_r; done.
  - destruct file as [|x file]; [exists k; rewrite app_nil_r; done|].
    cbn [send_file]; set (f := x :: file) in *.
    destruct (send_chunk_all (length (take 4096 f)) k (take 4096 f) wire ltac:(lia)) as [k1 ->].
    destruct (IH k1 (drop 4096 f) (wire ++ take 4096 f)) as [k' ->].
    { rewrite length_drop; unfold f in *; simpl length in *; lia. }
    exists k'; rewrite <- app_assoc, take_drop; done.
Qed.

Lemma send_stream_all header file :
  length header = 12%nat -> send_ 0 header = 12 ->
  exists k, send_stream send_ header file = Some (EXIT_SUCCESS, k, header ++ file).
Proof.
  intros Hl Hh; unfold send_stream; rewrite Hh.
  change (negb (12 =? Z.of_nat HEADER_SIZE)) with false; cbv iota.
  rewrite take_ge by (simpl; lia); apply send_file_all; done.
Qed.

(** on a connection that makes progress the client puts its header and then the
    whole file on the wire, in order, whatever the sizes of the partial sends. *)
Theorem client_sends_header_and_file file :
  send_ 0 (client_header (Z.of_nat (length file))) = 12 -> Z.of_nat (length file) < 2 ^ 64 ->
  exists k, client_main send_ file =
    Some (EXIT_SUCCESS, k, client_header (Z.of_nat (length file)) ++ file).
Proof.
  intros Hh Hl; unfold client_main; rewrite wrap_u_small by lia; apply send_stream_all; [|done].
  unfold client_header; rewrite length_app, be_bytes_length, le_bytes_length; done.
Qed.

Lemma be_bytes_app a b z :
  be_bytes (a + b) z = be_bytes a (z / 256 ^ Z.of_nat b) ++ be_bytes b z.
Proof. unfold be_bytes; rewrite Nat.add_comm, le_bytes_app, rev_app_distr; done. Qed.

Lemma le_bytes_mod m z : le_bytes m (z mod 256 ^ Z.of_nat m) = le_bytes m z.
Proof.
  rewrite <- le_val_bytes; rewrite <- (le_bytes_length m z) at 1; apply le_bytes_val, le_bytes_ok.
Qed.

(** Two big-endian halves are the big-endian whole. *)
Lemma demo_header_wire x : 0 <= x < 2 ^ 64 -> demo_header x = wire_header x.
Proof.
  intros Hx; unfold demo_header, wire_header; f_equal.
  change 8%nat with (4 + 4)%nat; rewrite be_bytes_app; f_equal.
  - unfold be_bytes, wrap_u; rewrite Z.shiftr_div_pow2 by lia.
    change (2 ^ 32) with (256 ^ Z.of_nat 4); rewrite le_bytes_mod; done.
  - change 0xFFFFFFFF with (Z.ones 32); rewrite Z.land_ones by lia.
    unfold be_bytes, wrap_u; rewrite Z.mod_mod by lia.
    change (2 ^ 32) with (256 ^ Z.of_nat 4); rewrite le_bytes_mod; done.
Qed.
End ClientFacts.

(** The client's size is in host order, so the receiver reads it byte-reversed. *)
Lemma client_size_reversed n :
  header_size (client_header n) = be_val (le_bytes 8 n).
Proof.
  unfold client_header; apply header_size_val; auto using be_bytes_length with aeg.
Qed.

(** the two ends disagree on the size: for every non-empty file below 4 GiB the
    header the client sends makes the receiver expect at least 4 GiB, so the transfer
    does not complete; with the size in network order the receiver reads it back. *)
Theorem client_size_misread n :
  0 < n < 2 ^ 32 ->
  2 ^ 32 <= header_size (client_header n) /\ header_size (wire_header n) = n.
Proof.
  intros Hn; split; [|apply wire_header_size; lia]; rewrite client_size_reversed.
  change 8%nat with (4 + 4)%nat; rewrite le_bytes_app, be_val_app, le_bytes_length.
  pose proof (be_val_range (le_bytes 4 n) (le_bytes_ok _ _)) as H1.
  pose proof (be_val_range (le_bytes 4 (n / 256 ^ Z.of_nat 4)) (le_bytes_ok _ _)) as H2.
  assert (Hnz : be_val (le_bytes 4 n) <> 0).
  { unfold be_val; rewrite le_val_zero by (apply Forall_rev, le_bytes_ok); intros Hz.
    apply Forall_rev in Hz; rewrite rev_involutive, <- le_val_zero in Hz by apply le_bytes_ok.
    rewrite le_val_bytes, Z.mod_small in Hz; simpl in *; lia. }
  change (256 ^ Z.of_nat 4) with (2 ^ 32) in *; nia.
Qed.

(** a segment in two packet buffers: the whole stream of a file of three bytes arrives in one
    segment, and the connection stays open with one byte of the file received. *)
Theorem chained_segment_loses_data :
  exists st img,
    recv_segment (fun z => Some (replicate (Z.to_nat z) 0)) None
      [wire_header 3 ++ [10]; [20; 30]] accept_file {| imgdata := None; imglen := 0 |} =
      Some (recv_open st img) /\
    concat [wire_header 3 ++ [10]; [20; 30]] = wire_header 3 ++ [10; 20; 30] /\
    file_size st = 3 /\ bytes_received st = 1.
Proof. eexists _, _; split; [vm_compute; reflexivity|]; split; [|split]; reflexivity. Qed.

(** The client recovers checksum and type from the receiver's answer. *)
Lemma client_reply_answer crc type :
  0 <= crc < 2 ^ 32 -> 0 <= type < 2 ^ 16 ->
  client_reply (le_bytes 4 crc ++ le_bytes 2 type) = Some (crc, type).
Proof.
  intros Hc Ht; unfold client_reply.
  rewrite length_app, !le_bytes_length; simpl Nat.eqb; cbv iota.
  rewrite take_app_length', drop_app_length' by (by rewrite le_bytes_length).
  rewrite (take_ge (le_bytes 2 type)) by (rewrite le_bytes_length; lia).
  unfold be_val; rewrite rev_involutive, !le_val_bytes, !Z.mod_small; done.
Qed.

(** C11: end to end, for a non-empty file of less than 2^31 - 4 bytes.  Let the first [send] take
    the whole header, every further one take at least a byte, and the receiver's allocation
    succeed.  Then, whatever partial sends the demo's client sees and however TCP cuts its bytes
    into segments, as long as lwIP delivers every segment in one packet buffer, the receiver
    ends up with the file in its image buffer, and the answer it sends gives the client
    the file's checksum and type. *)
Theorem transfer_end_to_end malloc func send_ file segs img k wire :
  (forall k b, b <> [] -> 1 <= send_ k b <= Z.of_nat (length b)) ->
  send_ 0%nat (demo_header (Z.of_nat (length file))) = 12 ->
  file <> [] -> Z.of_nat (length file) < 2 ^ 31 - 4 ->
  (forall z, 0 <= z < 2 ^ 31 -> exists b, malloc z = Some b /\ Z.of_nat (length b) = z) ->
  img_ok img -> demo_main send_ file = Some (EXIT_SUCCESS, k, wire) ->
  concat segs = wire -> Forall (fun s => Z.of_nat (length s) < 2 ^ 16) segs ->
  exists img' answer, recv_segments malloc func (single segs) accept_file img =
      Some (recv_done answer img' true) /\
    take (length file) (img_block img') = file /\
    client_reply answer =
      Some (crc32_bitwise file, file_type func (Z.of_nat (length file)) file).
Proof.
  intros Hprog Hh Hne Hsz Hmal Himg Hmain Hcat Hsegs.
  assert (Hhl : length (demo_header (Z.of_nat (length file))) = 12%nat)
    by (unfold demo_header; rewrite !length_app, !be_bytes_length; done).
  assert (Hw : wire = wire_header (Z.of_nat (length file)) ++ file).
  { unfold demo_main in Hmain; rewrite wrap_u_small in Hmain by lia.
    destruct (send_stream_all send_ Hprog _ file Hhl Hh) as [k' E].
    rewrite demo_header_wire in E, Hmain by lia; congruence. }
  destruct (recv_segments_done malloc func file Hne Hsz Hmal segs img Himg Hsegs)
    as (img' & Hr & Hd); [congruence|].
  exists img', (file_answer func file); split; [exact Hr|]; split; [exact Hd|].
  apply client_reply_answer.
  - apply wrap_u_range; lia.
  - unfold file_type; destruct func; [apply wrap_u_range; lia|lia].
Qed.

(** ** Witnesses *)

Definition zero_malloc (z : Z) : option (list Z) := Some (replicate (Z.to_nat z) 0).

Lemma recv_any_segmentation_witness :
  exists img', recv_segments zero_malloc None
      [[be_bytes 4 MAGIC_NUMBER]; [be_bytes 8 3 ++ [10]]; [[20; 30]]] accept_file
      {| imgdata := None; imglen := 0 |} =
    Some (recv_done (file_answer None [10; 20; 30]) img' true) /\
    take 3 (img_block img') = [10; 20; 30].
Proof.
  apply (recv_any_segmentation zero_malloc None [10; 20; 30]) with
    (segs := [be_bytes 4 MAGIC_NUMBER; be_bytes 8 3 ++ [10]; [20; 30]]).
  - discriminate.
  - simpl; lia.
  - intros z Hz; eexists; split; [reflexivity|]; rewrite length_replicate; lia.
  - split; simpl; lia.
  - repeat constructor; simpl; lia.
  - reflexivity.
Defined.

Lemma client_sends_header_and_file_witness :
  exists k, client_main (fun k b => if (k =? 0)%nat then Z.of_nat (length b) else 1) [1; 2; 3] =
    Some (EXIT_SUCCESS, k, client_header 3 ++ [1; 2; 3]).
Proof.
  apply client_sends_header_and_file.
  - intros [|k] b Hb; simpl; (destruct b; [done|simpl length; lia]).
  - reflexivity.
  - simpl; lia.
Defined.

Lemma client_size_misread_witness :
  2 ^ 32 <= header_size (client_header 4096) /\ header_size (client_header 4096) = 2 ^ 52.
Proof. split; [apply client_size_misread; lia|reflexivity]. Defined.

Lemma transfer_end_to_end_witness :
  exists img' answer, recv_segments zero_malloc None
      [[be_bytes 4 MAGIC_NUMBER ++ [0; 0; 0]]; [[0; 0; 0; 0; 3; 10]]; [[20; 30]]] accept_file
      {| imgdata := None; imglen := 0 |} = Some (recv_done answer img' true) /\
    client_reply answer = Some (crc32_bitwise [10; 20; 30], 0).
Proof.
  destruct (transfer_end_to_end zero_malloc None
    (fun k b => if (k =? 0)%nat then Z.of_nat (length b) else 1) [10; 20; 30]
    [be_bytes 4 MAGIC_NUMBER ++ [0; 0; 0]; [0; 0; 0; 0; 3; 10]; [20; 30]]
    {| imgdata := None; imglen := 0 |} 4 (demo_header 3 ++ [10; 20; 30])) as (img' & a & H & _ & Hr).
  - intros [|k] b Hb; simpl; (destruct b; [done|simpl length; lia]).
  - reflexivity.
  - discriminate.
  - simpl; lia.
  - intros z Hz; eexists; split; [reflexivity|]; rewrite length_replicate; lia.
  - split; simpl; lia.
  - reflexivity.
  - reflexivity.
  - repeat constructor; simpl; lia.
  - exists img', a; split; [exact H|exact Hr].
Defined.
