(* ===== verification/Proxy.v ===== *)
(** The TCP tools on the host: the proxy that forwards connections to the board
    ([src/common/net/proxy.c], also shipped with the demo) and the echo test client
    ([src/common/net/test.c]).

    The operating system is a script: what each system call of a round answers.
    A run over a script returns the bytes written in each direction and why it
    stopped; a script that is used up leaves the proxy in its loop. *)
From stdpp Require Import base list.
From Stdlib Require Import ZArith Lia.
From S2P Require Import Prelude.
Local Open Scope Z_scope.

(** [src/common/net/proxy.c:20-23] [BUFFER_SIZE] *)
Definition BUFFER_SIZE : Z := 4096.

(** * Forwarding *)

(** The answers of one round: [select], which sockets are ready, what reading each
    yields ([None] for a result below zero) and what writing to the other returns. *)
Record round := {
  activity : Z;
  client_ready : bool;
  client_read : option (list Z);
  forward_written : Z;
  forward_ready : bool;
  forward_read : option (list Z);
  client_written : Z
}.

(** Why the loop was left. *)
Inductive stop_reason := select_failed | client_closed | forward_failed | forward_closed | client_failed.

(** The bytes read and written so far in the two directions. *)
Record traffic := {
  from_client : list Z;
  to_forward : list Z;
  from_forward : list Z;
  to_client : list Z
}.
Definition no_traffic : traffic :=
  {| from_client := []; to_forward := []; from_forward := []; to_client := [] |}.

(** [write] took [n] bytes of [data] ([n] negative: none). *)
Definition taken (n : Z) (data : list Z) : list Z := take (Z.to_nat n) data.

(** [src/common/net/proxy.c:106-116] [handle_connection] client to server *)
Definition forward_client (r : round) (t : traffic) : traffic * option stop_reason :=
  if negb (client_ready r) then (t, None)
  else
    match client_read r with
    | None | Some [] => (t, Some client_closed)
    | Some data =>
        let t := {| from_client := from_client t ++ data;
                    to_forward := to_forward t ++ taken (forward_written r) data;
                    from_forward := from_forward t; to_client := to_client t |} in
        if negb (forward_written r =? Z.of_nat (length data)) then (t, Some forward_failed)
        else (t, None)
    end.

(** [src/common/net/proxy.c:118-128] [handle_connection] server to client *)
Definition forward_server (r : round) (t : traffic) : traffic * option stop_reason :=
  if negb (forward_ready r) then (t, None)
  else
    match forward_read r with
    | None | Some [] => (t, Some forward_closed)
    | Some data =>
        let t := {| from_client := from_client t; to_forward := to_forward t;
                    from_forward := from_forward t ++ data;
                    to_client := to_client t ++ taken (client_written r) data |} in
        if negb (client_written r =? Z.of_nat (length data)) then (t, Some client_failed)
        else (t, None)
    end.

(** [src/common/net/proxy.c:91-129] [handle_connection] the forwarding loop *)
Fixpoint forward_loop (script : list round) (t : traffic) : traffic * option stop_reason :=
  match script with
  | [] => (t, None)
  | r :: script =>
      if activity r <? 0 then (t, Some select_failed)
      else
        match forward_client r t with
        | (t, Some e) => (t, Some e)
        | (t, None) =>
            match forward_server r t with
            | (t, Some e) => (t, Some e)
            | (t, None) => forward_loop script t
            end
        end
  end.

(** How a connection is opened. *)
Record setup := { socket_ok : bool; pton_ok : bool; connect_ok : bool }.

(** [src/common/net/proxy.c:64-132] [handle_connection]
    The traffic, and whether the forward socket was opened and closed again. *)
Definition handle_connection (s : setup) (script : list round) : traffic * bool * bool :=
  if negb (socket_ok s) then (no_traffic, false, false)
  else if negb (pton_ok s) then (no_traffic, true, true)
  else if negb (connect_ok s) then (no_traffic, true, true)
  else
    match forward_loop script no_traffic with
    | (t, Some _) => (t, true, true)
    | (t, None) => (t, true, false)
    end.

(** * The accept loop *)

(** What [accept] and [fork] answer in one round of [main]: the descriptor, and the
    process id in the parent. *)
Record accept_round := { accepted : Z; pid : Z }.

(** The server: the client sockets the parent holds and the connections handed to
    children, oldest first. *)
Record server := { parent_fds : list Z; children : list Z }.

(** [src/common/net/proxy.c:171-193] [main] one round of the parent *)
Definition accept_step (r : accept_round) (s : server) : server :=
  if accepted r <? 0 then s
  else
    let s := {| parent_fds := accepted r :: parent_fds s; children := children s |} in
    if pid r <? 0 then
      {| parent_fds := remove Z.eq_dec (accepted r) (parent_fds s); children := children s |}
    else
      {| parent_fds := remove Z.eq_dec (accepted r) (parent_fds s);
         children := children s ++ [accepted r] |}.

(** [src/common/net/proxy.c:134-170] [main] the setup of the listening socket: [None] when
    the proxy starts to accept, otherwise whether the socket was closed before the
    exit. *)
Definition proxy_setup (socket_ok bind_ok listen_ok : bool) : option bool :=
  if negb socket_ok then Some false
  else if negb bind_ok then Some true
  else if negb listen_ok then Some true
  else None.

(** [src/common/net/proxy.c:29-61] [local_ip_list] the addresses that are printed: the families
    IPv4 ([2]) and IPv6 ([10]) whose name was found *)
Record ifaddr := { ifa_family : option Z; ifa_name_ok : bool; ifa_host : list Z }.
Definition local_ip_list (l : list ifaddr) : list (list Z) :=
  flat_map (fun a => match ifa_family a with
                     | None => []
                     | Some f => if ((f =? 2) || (f =? 10)) && ifa_name_ok a then [ifa_host a] else []
                     end) l.

(** * The echo test client *)

(** [src/common/net/test.c:10-65] [main]
    Answers: the socket, the address, the connection, [send] and [recv]; the result
    is the exit status, whether the socket was closed, and the text received. *)
Definition echo_client (sock : Z) (pton connect : Z) (bytes_sent : Z) (received : option (list Z))
  : Z * bool * list Z :=
  if sock <? 0 then (1, false, [])
  else if pton <=? 0 then (1, true, [])
  else if connect <? 0 then (1, true, [])
  else if bytes_sent <? 0 then (1, true, [])
  else
    match received with
    | None => (1, true, [])
    | Some data => (0, true, data)
    end.

(** * Properties *)

Lemma taken_all n d : n = Z.of_nat (length d) -> taken n d = d.
Proof. intros ->; unfold taken; rewrite Nat2Z.id, take_ge by lia; done. Qed.

Lemma taken_prefix n d : taken n d `prefix_of` d.
Proof. exists (drop (Z.to_nat n) d); unfold taken; by rewrite take_drop. Qed.

(** Everything read was written, in order. *)
Definition complete (t : traffic) : Prop :=
  to_forward t = from_client t /\ to_client t = from_forward t.

Lemma forward_client_spec r t :
  complete t -> let '(t', e) := forward_client r t in
  to_client t' = from_forward t' /\ to_forward t' `prefix_of` from_client t' /\
  (e <> Some forward_failed -> complete t').
Proof.
  intros [H1 H2]; unfold forward_client.
  destruct (negb (client_ready r)); [rewrite H1; repeat split; done|].
  destruct (client_read r) as [[|x d]|]; try (rewrite H1; repeat split; done).
  destruct (Z.eqb_spec (forward_written r) (Z.of_nat (length (x :: d)))) as [E|E]; simpl negb.
  - rewrite (taken_all _ _ E), H1; repeat split; done.
  - simpl; rewrite H1; split; [done|]; split; [apply prefix_app, taken_prefix|done].
Qed.

Lemma forward_server_spec r t :
  complete t -> let '(t', e) := forward_server r t in
  to_forward t' = from_client t' /\ to_client t' `prefix_of` from_forward t' /\
  (e <> Some client_failed -> complete t').
Proof.
  intros [H1 H2]; unfold forward_server.
  destruct (negb (forward_ready r)); [rewrite H2; repeat split; done|].
  destruct (forward_read r) as [[|x d]|]; try (rewrite H2; repeat split; done).
  destruct (Z.eqb_spec (client_written r) (Z.of_nat (length (x :: d)))) as [E|E]; simpl negb.
  - rewrite (taken_all _ _ E), H2; repeat split; done.
  - simpl; rewrite H2; split; [done|]; split; [apply prefix_app, taken_prefix|done].
Qed.

(** the proxy forwards faithfully: in both directions the bytes written are a prefix
    of the bytes read, in order, and all of them have been written unless the loop
    was left because a write fell short; the forward socket, once opened, is closed
    whenever the loop is left. *)
Theorem proxy_forwards_in_order s script :
  let '(t, opened, closed) := handle_connection s script in
  to_forward t `prefix_of` from_client t /\ to_client t `prefix_of` from_forward t /\
  (snd (forward_loop script no_traffic) <> Some forward_failed ->
   snd (forward_loop script no_traffic) <> Some client_failed -> complete t) /\
  (opened = true -> connect_ok s = false \/ is_Some (snd (forward_loop script no_traffic)) ->
   closed = true).
Proof.
  assert (H : forall script t, complete t ->
    let '(t', e) := forward_loop script t in
    to_forward t' `prefix_of` from_client t' /\ to_client t' `prefix_of` from_forward t' /\
    (e <> Some forward_failed -> e <> Some client_failed -> complete t')).
  { clear script; intros script; induction script as [|r script IH]; intros t Ht; simpl.
    - destruct Ht as [H1 H2]; rewrite H1, H2; repeat split; done.
    - destruct (activity r <? 0); [destruct Ht as [H1 H2]; rewrite H1, H2; repeat split; done|].
      pose proof (forward_client_spec r t Ht) as Hc; destruct (forward_client r t) as [t1 [e1|]].
      { destruct Hc as (H1 & H2 & H3); rewrite H1; repeat split; try done; apply H3; done. }
      destruct Hc as (_ & _ & Hc); specialize (Hc ltac:(done)).
      pose proof (forward_server_spec r t1 Hc) as Hs; destruct (forward_server r t1) as [t2 [e2|]].
      { destruct Hs as (H1 & H2 & H3); rewrite H1; repeat split; try done; apply H3; done. }
      destruct Hs as (_ & _ & Hs); apply IH, Hs; done. }
  specialize (H script no_traffic (conj eq_refl eq_refl)).
  unfold handle_connection; destruct (forward_loop script no_traffic) as [t e]; simpl.
  destruct (socket_ok s), (pton_ok s), (connect_ok s); simpl; try (repeat split; done).
  destruct e; (split; [apply H|split; [apply H|split; [apply H|]]]); try done.
  intros _ [?|[? ?]]; done.
Qed.

(** The parent keeps no client socket, and every accepted connection whose fork did not
    fail was handed to a child, in order. *)
Lemma accept_loop_releases rs :
  let s := fold_left (fun s r => accept_step r s) rs {| parent_fds := []; children := [] |} in
  parent_fds s = [] /\
  children s = map accepted (List.filter (fun r => (0 <=? accepted r) && (0 <=? pid r)) rs).
Proof.
  assert (H : forall rs s, parent_fds s = [] ->
    let s' := fold_left (fun s r => accept_step r s) rs s in
    parent_fds s' = [] /\ children s' = children s ++
      map accepted (List.filter (fun r => (0 <=? accepted r) && (0 <=? pid r)) rs)).
  { clear rs; induction rs as [|r rs IH]; intros s Hs; simpl; [by rewrite app_nil_r|].
    assert (Hp : parent_fds (accept_step r s) = []).
    { unfold accept_step; destruct (accepted r <? 0); [done|]; rewrite Hs.
      destruct (pid r <? 0); simpl; destruct (Z.eq_dec _ _); done. }
    destruct (IH _ Hp) as [-> ->]; split; [done|]; unfold accept_step.
    destruct (Z.ltb_spec (accepted r) 0), (Z.leb_spec 0 (accepted r)); try lia; [done|].
    destruct (Z.ltb_spec (pid r) 0), (Z.leb_spec 0 (pid r)); try lia; simpl; [done|].
    rewrite <- app_assoc; done. }
  apply (H rs {| parent_fds := []; children := [] |}); done.
Qed.
