(* ===== verification/Mock.v ===== *)
(** The mock of the AIE driver the unit tests link against
    ([example/testcpputest/stubs/aiert_mock.c]).

    Every driver function of the mock reports its name and arguments to the mocking
    framework and returns what the test scripted for the call.  The framework is the
    parameter [expects]: from the calls logged so far and the new one it decides the
    scripted expectation, or that the call is unexpected and the test fails.  A few
    functions also keep state: the partition of a device, the countdown of
    reported errors and the completion word of a command. *)
From stdpp Require Import base list gmap strings.
From Stdlib Require Import ZArith Lia.
From S2P Require Import Prelude Driver.
Local Open Scope string_scope.
Local Open Scope list_scope.
Local Open Scope Z_scope.

(** * The framework *)

Record XAie_Packet := mkPacket { PktId : Z; PktType : Z }.

(** A reported argument; a typed argument is compared by value. *)
Inductive param :=
| PPtr (n : string) (v : Z)
| PInt (n : string) (v : Z)
| PUInt (n : string) (v : Z)
| PULL (n : string) (v : Z)
| PLoc (n : string) (l : loc)
| PLock (n : string) (k : lock)
| PPacket (n : string) (p : XAie_Packet)
| POut (ty : option string) (n : string) (p : Z).

Definition withPointerParameters (n : string) (v : Z) : param := PPtr n v.
Definition withIntParameters (n : string) (v : Z) : param := PInt n (s32 v).
Definition withUnsignedIntParameters (n : string) (v : Z) : param := PUInt n (u32 v).
Definition withUnsignedLongLongIntParameters (n : string) (v : Z) : param := PULL n (u64 v).
Definition withLoc : string -> loc -> param := PLoc.
Definition withLock : string -> lock -> param := PLock.
Definition withPacket : string -> XAie_Packet -> param := PPacket.
Definition withOutputParameter (n : string) (p : Z) : param := POut None n p.
Definition withOutputParameterOfType (ty n : string) (p : Z) : param := POut (Some ty) n p.

(** A reported call. *)
Record actual := mkActual { a_name : string; a_params : list param }.

(** What a test scripts for a call: a return value, if any, and the bytes copied
    to output parameters. *)
Record expectation := { e_ret : option Z; e_out : list (string * list Z) }.

Class MockSupport := { expects : list actual -> actual -> option expectation }.

(** The fields of a device instance the mock writes. *)
Record partition := { StartCol : Z; NumCols : Z }.
(** The error report of [XAie_BacktrackErrorInterrupts]. *)
Record XAie_ErrorMetaData := {
  Payload : Z; ArraySize : Z; ErrorCount : Z; IsNextInfoValid : Z }.

(** The log, the bytes stored through pointers (oldest first) and the globals. *)
Record mstate := mkM {
  log : list actual;
  stores : list (Z * list Z);
  parts : gmap Z partition;
  mdata : gmap Z XAie_ErrorMetaData;
  next_valid_calls_remaining : Z;
  error_count_override : Z;
  test_completion_ptr : Z;
  test_comp_sig_meminst : Z;
  test_sync_call_count : Z;
  test_completion_threshold : Z;
  test_completion_value : Z
}.

(** A test that goes on, or that failed at an unexpected call. *)
Definition Mo (A : Type) : Type := mstate -> option (A * mstate).
Definition mret {A} (a : A) : Mo A := fun s => Some (a, s).
Definition mbind' {A B} (m : Mo A) (k : A -> Mo B) : Mo B := fun s =>
  match m s with Some (a, s') => k a s' | None => None end.
Definition update (f : mstate -> mstate) : Mo unit := fun s => Some (tt, f s).
Definition get {A} (f : mstate -> A) : Mo A := fun s => Some (f s, s).

Notation "x <~ m ;; k" := (mbind' m (fun x => k))
  (at level 100, m at next level, right associativity) : aeg_scope.
Local Open Scope aeg_scope.

Definition with_log (l : list actual) (st : list (Z * list Z)) (s : mstate) : mstate :=
  mkM l st (parts s) (mdata s) (next_valid_calls_remaining s) (error_count_override s)
    (test_completion_ptr s) (test_comp_sig_meminst s) (test_sync_call_count s)
    (test_completion_threshold s) (test_completion_value s).
Definition store (p : Z) (bs : list Z) (s : mstate) : mstate :=
  with_log (log s) (stores s ++ [(p, bs)]) s.
Definition set_part (d : Z) (p : partition) (s : mstate) : mstate :=
  mkM (log s) (stores s) (<[d := p]> (parts s)) (mdata s) (next_valid_calls_remaining s)
    (error_count_override s) (test_completion_ptr s) (test_comp_sig_meminst s)
    (test_sync_call_count s) (test_completion_threshold s) (test_completion_value s).
Definition set_mdata (d : Z) (m : XAie_ErrorMetaData) (remaining : Z) (s : mstate) : mstate :=
  mkM (log s) (stores s) (parts s) (<[d := m]> (mdata s)) remaining
    (error_count_override s) (test_completion_ptr s) (test_comp_sig_meminst s)
    (test_sync_call_count s) (test_completion_threshold s) (test_completion_value s).
Definition set_sync_count (n : Z) (s : mstate) : mstate :=
  mkM (log s) (stores s) (parts s) (mdata s) (next_valid_calls_remaining s)
    (error_count_override s) (test_completion_ptr s) (test_comp_sig_meminst s)
    n (test_completion_threshold s) (test_completion_value s).

(** The copies of a call: each output parameter for which bytes are scripted. *)
Definition copies (ps : list param) (outs : list (string * list Z)) : list (Z * list Z) :=
  flat_map (fun p =>
    match p with
    | POut _ n ptr =>
        match List.find (fun o => String.eqb n (fst o)) outs with
        | Some o => [(ptr, snd o)]
        | None => []
        end
    | _ => []
    end) ps.

Section Mock.
Context `{mock : MockSupport}.

Definition actualCall (n : string) (ps : list param) (result : option Z -> Z) : Mo Z := fun s =>
  let c := mkActual n ps in
  match expects (log s) c with
  | None => None
  | Some e => Some (result (e_ret e),
                    with_log (log s ++ [c]) (stores s ++ copies ps (e_out e)) s)
  end.

Definition returnIntValueOrDefault (d : Z) (v : option Z) : Z := s32 (default d v).
Definition returnPointerValueOrDefault (d : Z) (v : option Z) : Z := default d v.
Definition returnVoid (v : option Z) : Z := 0.

(** * The functions that only report *)

(** [example/testcpputest/stubs/aiert_mock.c:15-21] [XAie_CoreReadDoneBit] *)
Definition XAie_CoreReadDoneBit (DevInst : Z) (Loc : loc) (DoneBit : Z) : Mo Z :=
  actualCall "XAie_CoreReadDoneBit"
    [withPointerParameters "DevInst" DevInst; withLoc "Loc" Loc;
     withOutputParameter "DoneBit" DoneBit]
    (returnIntValueOrDefault XAIE_OK).

(** [example/testcpputest/stubs/aiert_mock.c:23-31] [XAie_DmaGetPendingBdCount] *)
Definition XAie_DmaGetPendingBdCount (DevInst : Z) (Loc : loc) (ChNum Dir PendingBd : Z) : Mo Z :=
  actualCall "XAie_DmaGetPendingBdCount"
    [withPointerParameters "DevInst" DevInst; withLoc "Loc" Loc;
     withUnsignedIntParameters "ChNum" (u8 ChNum); withIntParameters "Dir" Dir;
     withOutputParameterOfType "u8" "PendingBd" PendingBd]
    (returnIntValueOrDefault XAIE_OK).

(** [example/testcpputest/stubs/aiert_mock.c:33-39] [XAie_DmaGetMaxQueueSize] *)
Definition XAie_DmaGetMaxQueueSize (DevInst : Z) (Loc : loc) (QueueSize : Z) : Mo Z :=
  actualCall "XAie_DmaGetMaxQueueSize"
    [withPointerParameters "DevInst" DevInst; withLoc "Loc" Loc;
     withOutputParameterOfType "u8" "QueueSize" QueueSize]
    (returnIntValueOrDefault XAIE_OK).

(** [example/testcpputest/stubs/aiert_mock.c:61-66] [XAie_CfgInitialize] *)
Definition XAie_CfgInitialize (InstPtr ConfigPtr : Z) : Mo Z :=
  actualCall "XAie_CfgInitialize"
    [withPointerParameters "InstPtr" InstPtr;
     withPointerParameters "ConfigPtr" ConfigPtr]
    (returnIntValueOrDefault XAIE_OK).

(** [example/testcpputest/stubs/aiert_mock.c:68-73] [XAie_GetTileTypefromLoc] *)
Definition XAie_GetTileTypefromLoc (DevInst : Z) (Loc : loc) : Mo Z :=
  actualCall "XAie_GetTileTypefromLoc"
    [withPointerParameters "DevInst" DevInst; withLoc "Loc" Loc]
    (fun v => u8 (returnIntValueOrDefault 0 v)).

(** [example/testcpputest/stubs/aiert_mock.c:75-80] [XAie_IsDeviceCheckerboard] *)
Definition XAie_IsDeviceCheckerboard (DevInst IsCheckerBoard : Z) : Mo Z :=
  actualCall "XAie_IsDeviceCheckerboard"
    [withPointerParameters "DevInst" DevInst;
     withOutputParameter "IsCheckerBoard" IsCheckerBoard]
    (returnIntValueOrDefault XAIE_OK).

(** [example/testcpputest/stubs/aiert_mock.c:82-88] [XAie_CheckModule] *)
Definition XAie_CheckModule (DevInst : Z) (Loc : loc) (Module : Z) : Mo Z :=
  actualCall "XAie_CheckModule"
    [withPointerParameters "DevInst" DevInst; withLoc "Loc" Loc;
     withIntParameters "Module" Module]
    (returnIntValueOrDefault XAIE_OK).

(** [example/testcpputest/stubs/aiert_mock.c:90-98] [XAie_PerfCounterGet] *)
Definition XAie_PerfCounterGet (DevInst : Z) (Loc : loc) (Module Counter CounterVal : Z) : Mo Z :=
  actualCall "XAie_PerfCounterGet"
    [withPointerParameters "DevInst" DevInst; withLoc "Loc" Loc;
     withIntParameters "Module" Module;
     withUnsignedIntParameters "Counter" (u8 Counter);
     withOutputParameter "CounterVal" CounterVal]
    (returnIntValueOrDefault XAIE_OK).

(** [example/testcpputest/stubs/aiert_mock.c:100-107] [XAie_ReadTimer] *)
Definition XAie_ReadTimer (DevInst : Z) (Loc : loc) (Module TimerVal : Z) : Mo Z :=
  actualCall "XAie_ReadTimer"
    [withPointerParameters "DevInst" DevInst; withLoc "Loc" Loc;
     withIntParameters "Module" Module; withOutputParameter "TimerVal" TimerVal]
    (returnIntValueOrDefault XAIE_OK).

(** [example/testcpputest/stubs/aiert_mock.c:109-114] [XAie_StartTransaction] *)
Definition XAie_StartTransaction (DevInst Flags : Z) : Mo Z :=
  actualCall "XAie_StartTransaction"
    [withPointerParameters "DevInst" DevInst; withIntParameters "Flags" (u32 Flags)]
    (returnIntValueOrDefault XAIE_OK).

(** [example/testcpputest/stubs/aiert_mock.c:116-121] [XAie_ClearCoreDisableEventOccurred] *)
Definition XAie_ClearCoreDisableEventOccurred (DevInst : Z) (Loc : loc) : Mo Z :=
  actualCall "XAie_ClearCoreDisableEventOccurred"
    [withPointerParameters "DevInst" DevInst; withLoc "Loc" Loc]
    (returnIntValueOrDefault XAIE_OK).

(** [example/testcpputest/stubs/aiert_mock.c:123-129] [XAie_CoreConfigureEnableEvent] *)
Definition XAie_CoreConfigureEnableEvent (DevInst : Z) (Loc : loc) (Event : Z) : Mo Z :=
  actualCall "XAie_CoreConfigureEnableEvent"
    [withPointerParameters "DevInst" DevInst; withLoc "Loc" Loc;
     withIntParameters "Event" Event]
    (returnIntValueOrDefault XAIE_OK).

(** [example/testcpputest/stubs/aiert_mock.c:131-136] [XAie_SubmitTransaction] *)
Definition XAie_SubmitTransaction (DevInst TxnInst : Z) : Mo Z :=
  actualCall "XAie_SubmitTransaction"
    [withPointerParameters "DevInst" DevInst; withPointerParameters "TxnInst" TxnInst]
    (returnIntValueOrDefault XAIE_OK).

(** [example/testcpputest/stubs/aiert_mock.c:138-145] [XAie_EventGenerate] *)
Definition XAie_EventGenerate (DevInst : Z) (Loc : loc) (Module Event : Z) : Mo Z :=
  actualCall "XAie_EventGenerate"
    [withPointerParameters "DevInst" DevInst; withLoc "Loc" Loc;
     withIntParameters "Module" Module; withUnsignedIntParameters "Event" (u32 Event)]
    (returnIntValueOrDefault XAIE_OK).

(** [example/testcpputest/stubs/aiert_mock.c:147-152] [XAie_CoreEnable] *)
Definition XAie_CoreEnable (DevInst : Z) (Loc : loc) : Mo Z :=
  actualCall "XAie_CoreEnable"
    [withPointerParameters "DevInst" DevInst; withLoc "Loc" Loc]
    (returnIntValueOrDefault XAIE_OK).

(** [example/testcpputest/stubs/aiert_mock.c:154-161] [XAie_DataMemWrWord] *)
Definition XAie_DataMemWrWord (DevInst : Z) (Loc : loc) (Addr Data : Z) : Mo Z :=
  actualCall "XAie_DataMemWrWord"
    [withPointerParameters "DevInst" DevInst; withLoc "Loc" Loc;
     withUnsignedIntParameters "Addr" (u32 Addr);
     withUnsignedIntParameters "Data" (u32 Data)]
    (returnIntValueOrDefault XAIE_OK).

(** [example/testcpputest/stubs/aiert_mock.c:163-169] [XAie_DmaDescInit] *)
Definition XAie_DmaDescInit (DevInst DmaDesc : Z) (Loc : loc) : Mo Z :=
  actualCall "XAie_DmaDescInit"
    [withPointerParameters "DevInst" DevInst; withPointerParameters "DmaDesc" DmaDesc;
     withLoc "Loc" Loc]
    (returnIntValueOrDefault XAIE_OK).

(** [example/testcpputest/stubs/aiert_mock.c:171-178] [XAie_DmaSetMultiDimAddr] *)
Definition XAie_DmaSetMultiDimAddr (DmaDesc Tensor Addr Len : Z) : Mo Z :=
  actualCall "XAie_DmaSetMultiDimAddr"
    [withPointerParameters "DmaDesc" DmaDesc; withPointerParameters "Tensor" Tensor;
     withUnsignedLongLongIntParameters "Addr" (u64 Addr);
     withUnsignedIntParameters "Len" (u32 Len)]
    (returnIntValueOrDefault XAIE_OK).

(** [example/testcpputest/stubs/aiert_mock.c:180-187] [XAie_DmaSetZeroPadding] *)
Definition XAie_DmaSetZeroPadding (DmaDesc Dim Pos NumZeros : Z) : Mo Z :=
  actualCall "XAie_DmaSetZeroPadding"
    [withPointerParameters "DmaDesc" DmaDesc; withUnsignedIntParameters "Dim" (u8 Dim);
     withIntParameters "Pos" Pos; withUnsignedIntParameters "NumZeros" (u8 NumZeros)]
    (returnIntValueOrDefault XAIE_OK).

(** [example/testcpputest/stubs/aiert_mock.c:189-194] [XAie_DmaSetPkt] *)
Definition XAie_DmaSetPkt (DmaDesc : Z) (Pkt : XAie_Packet) : Mo Z :=
  actualCall "XAie_DmaSetPkt"
    [withPointerParameters "DmaDesc" DmaDesc; withPacket "Pkt" Pkt]
    (returnIntValueOrDefault XAIE_OK).

(** [example/testcpputest/stubs/aiert_mock.c:196-201] [XAie_DmaSetOutofOrderBdId] *)
Definition XAie_DmaSetOutofOrderBdId (DmaDesc OutofOrderBdId : Z) : Mo Z :=
  actualCall "XAie_DmaSetOutofOrderBdId"
    [withPointerParameters "DmaDesc" DmaDesc;
     withUnsignedIntParameters "OutofOrderBdId" (u8 OutofOrderBdId)]
    (returnIntValueOrDefault XAIE_OK).

(** [example/testcpputest/stubs/aiert_mock.c:203-207] [XAie_DmaEnableCompression] *)
Definition XAie_DmaEnableCompression (DmaDesc : Z) : Mo Z :=
  actualCall "XAie_DmaEnableCompression"
    [withPointerParameters "DmaDesc" DmaDesc]
    (returnIntValueOrDefault XAIE_OK).

(** [example/testcpputest/stubs/aiert_mock.c:209-215] [XAie_DmaSetLock] *)
Definition XAie_DmaSetLock (DmaDesc : Z) (Acq Rel : lock) : Mo Z :=
  actualCall "XAie_DmaSetLock"
    [withPointerParameters "DmaDesc" DmaDesc; withLock "Acq" Acq; withLock "Rel" Rel]
    (returnIntValueOrDefault XAIE_OK).

(** [example/testcpputest/stubs/aiert_mock.c:217-226] [XAie_DmaSetAxi] *)
Definition XAie_DmaSetAxi (DmaDesc Smid BurstLen Qos Cache Secure : Z) : Mo Z :=
  actualCall "XAie_DmaSetAxi"
    [withPointerParameters "DmaDesc" DmaDesc;
     withUnsignedIntParameters "Smid" (u8 Smid);
     withUnsignedIntParameters "BurstLen" (u8 BurstLen);
     withUnsignedIntParameters "Qos" (u8 Qos);
     withUnsignedIntParameters "Cache" (u8 Cache);
     withUnsignedIntParameters "Secure" (u8 Secure)]
    (returnIntValueOrDefault XAIE_OK).

(** [example/testcpputest/stubs/aiert_mock.c:228-232] [XAie_DmaEnableBd] *)
Definition XAie_DmaEnableBd (DmaDesc : Z) : Mo Z :=
  actualCall "XAie_DmaEnableBd"
    [withPointerParameters "DmaDesc" DmaDesc]
    (returnIntValueOrDefault XAIE_OK).

(** [example/testcpputest/stubs/aiert_mock.c:234-241] [XAie_DmaWriteBd] *)
Definition XAie_DmaWriteBd (DevInst DmaDesc : Z) (Loc : loc) (BdNum : Z) : Mo Z :=
  actualCall "XAie_DmaWriteBd"
    [withPointerParameters "DevInst" DevInst; withPointerParameters "DmaDesc" DmaDesc;
     withLoc "Loc" Loc; withUnsignedIntParameters "BdNum" (u16 BdNum)]
    (returnIntValueOrDefault XAIE_OK).

(** [example/testcpputest/stubs/aiert_mock.c:243-250] [XAie_DmaUpdateBdAddr] *)
Definition XAie_DmaUpdateBdAddr (DevInst : Z) (Loc : loc) (Addr BdNum : Z) : Mo Z :=
  actualCall "XAie_DmaUpdateBdAddr"
    [withPointerParameters "DevInst" DevInst; withLoc "Loc" Loc;
     withUnsignedLongLongIntParameters "Addr" (u64 Addr);
     withUnsignedIntParameters "BdNum" (u16 BdNum)]
    (returnIntValueOrDefault XAIE_OK).

(** [example/testcpputest/stubs/aiert_mock.c:252-259] [XAie_LockAcquire] *)
Definition XAie_LockAcquire (DevInst : Z) (Loc : loc) (Lock : lock) (TimeOut : Z) : Mo Z :=
  actualCall "XAie_LockAcquire"
    [withPointerParameters "DevInst" DevInst; withLoc "Loc" Loc; withLock "Lock" Lock;
     withUnsignedIntParameters "TimeOut" (u32 TimeOut)]
    (returnIntValueOrDefault XAIE_OK).

(** [example/testcpputest/stubs/aiert_mock.c:261-268] [XAie_LockRelease] *)
Definition XAie_LockRelease (DevInst : Z) (Loc : loc) (Lock : lock) (TimeOut : Z) : Mo Z :=
  actualCall "XAie_LockRelease"
    [withPointerParameters "DevInst" DevInst; withLoc "Loc" Loc; withLock "Lock" Lock;
     withUnsignedIntParameters "TimeOut" (u32 TimeOut)]
    (returnIntValueOrDefault XAIE_OK).

(** [example/testcpputest/stubs/aiert_mock.c:270-278] [XAie_DmaWaitForDone] *)
Definition XAie_DmaWaitForDone (DevInst : Z) (Loc : loc) (ChNum Dir TimeOutUs : Z) : Mo Z :=
  actualCall "XAie_DmaWaitForDone"
    [withPointerParameters "DevInst" DevInst; withLoc "Loc" Loc;
     withUnsignedIntParameters "ChNum" (u8 ChNum); withIntParameters "Dir" Dir;
     withUnsignedIntParameters "TimeOutUs" (u32 TimeOutUs)]
    (returnIntValueOrDefault XAIE_OK).

(** [example/testcpputest/stubs/aiert_mock.c:280-290] [XAie_DmaChannelSetStartQueue] *)
Definition XAie_DmaChannelSetStartQueue (DevInst : Z) (Loc : loc) (ChNum Dir BdNum RepeatCount EnTokenIssue : Z) : Mo Z :=
  actualCall "XAie_DmaChannelSetStartQueue"
    [withPointerParameters "DevInst" DevInst; withLoc "Loc" Loc;
     withUnsignedIntParameters "ChNum" (u8 ChNum); withIntParameters "Dir" Dir;
     withUnsignedIntParameters "BdNum" (u16 BdNum);
     withUnsignedIntParameters "RepeatCount" (u32 RepeatCount);
     withUnsignedIntParameters "EnTokenIssue" (u8 EnTokenIssue)]
    (returnIntValueOrDefault XAIE_OK).

(** [example/testcpputest/stubs/aiert_mock.c:292-296] [XAie_DmaTlastDisable] *)
Definition XAie_DmaTlastDisable (DmaDesc : Z) : Mo Z :=
  actualCall "XAie_DmaTlastDisable"
    [withPointerParameters "DmaDesc" DmaDesc]
    (returnIntValueOrDefault XAIE_OK).

(** [example/testcpputest/stubs/aiert_mock.c:298-305] [XAie_DmaSetBdIteration] *)
Definition XAie_DmaSetBdIteration (DmaDesc StepSize Wrap IterCurr : Z) : Mo Z :=
  actualCall "XAie_DmaSetBdIteration"
    [withPointerParameters "DmaDesc" DmaDesc;
     withUnsignedIntParameters "StepSize" (u32 StepSize);
     withUnsignedIntParameters "Wrap" (u16 Wrap);
     withUnsignedIntParameters "IterCurr" (u8 IterCurr)]
    (returnIntValueOrDefault XAIE_OK).

(** [example/testcpputest/stubs/aiert_mock.c:307-313] [XAie_DmaSetNextBd] *)
Definition XAie_DmaSetNextBd (DmaDesc NextBd EnableNextBd : Z) : Mo Z :=
  actualCall "XAie_DmaSetNextBd"
    [withPointerParameters "DmaDesc" DmaDesc;
     withUnsignedIntParameters "NextBd" (u16 NextBd);
     withUnsignedIntParameters "EnableNextBd" (u8 EnableNextBd)]
    (returnIntValueOrDefault XAIE_OK).

(** [example/testcpputest/stubs/aiert_mock.c:315-321] [XAie_LockSetValue] *)
Definition XAie_LockSetValue (DevInst : Z) (Loc : loc) (Lock : lock) : Mo Z :=
  actualCall "XAie_LockSetValue"
    [withPointerParameters "DevInst" DevInst; withLoc "Loc" Loc; withLock "Lock" Lock]
    (returnIntValueOrDefault XAIE_OK).

(** [example/testcpputest/stubs/aiert_mock.c:323-330] [XAie_DataMemRdWord] *)
Definition XAie_DataMemRdWord (DevInst : Z) (Loc : loc) (Addr Data : Z) : Mo Z :=
  actualCall "XAie_DataMemRdWord"
    [withPointerParameters "DevInst" DevInst; withLoc "Loc" Loc;
     withUnsignedIntParameters "Addr" (u32 Addr); withOutputParameter "Data" Data]
    (returnIntValueOrDefault XAIE_OK).

(** [example/testcpputest/stubs/aiert_mock.c:332-340] [XAie_DataMemBlockWrite] *)
Definition XAie_DataMemBlockWrite (DevInst : Z) (Loc : loc) (Addr Data Size : Z) : Mo Z :=
  actualCall "XAie_DataMemBlockWrite"
    [withPointerParameters "DevInst" DevInst; withLoc "Loc" Loc;
     withUnsignedIntParameters "Addr" (u32 Addr); withPointerParameters "Data" Data;
     withUnsignedIntParameters "Size" (u32 Size)]
    (returnIntValueOrDefault XAIE_OK).

(** [example/testcpputest/stubs/aiert_mock.c:342-348] [XAie_DmaSetAddrLen] *)
Definition XAie_DmaSetAddrLen (DmaDesc Addr Len : Z) : Mo Z :=
  actualCall "XAie_DmaSetAddrLen"
    [withPointerParameters "DmaDesc" DmaDesc;
     withUnsignedLongLongIntParameters "Addr" (u64 Addr);
     withUnsignedIntParameters "Len" (u32 Len)]
    (returnIntValueOrDefault XAIE_OK).

(** [example/testcpputest/stubs/aiert_mock.c:350-358] [XAie_DataMemBlockRead] *)
Definition XAie_DataMemBlockRead (DevInst : Z) (Loc : loc) (Addr Data Size : Z) : Mo Z :=
  actualCall "XAie_DataMemBlockRead"
    [withPointerParameters "DevInst" DevInst; withLoc "Loc" Loc;
     withUnsignedIntParameters "Addr" (u32 Addr); withOutputParameter "Data" Data;
     withUnsignedIntParameters "Size" (u32 Size)]
    (returnIntValueOrDefault XAIE_OK).

(** [example/testcpputest/stubs/aiert_mock.c:360-368] [XAie_DmaChannelPushBdToQueue] *)
Definition XAie_DmaChannelPushBdToQueue (DevInst : Z) (Loc : loc) (ChNum Dir BdNum : Z) : Mo Z :=
  actualCall "XAie_DmaChannelPushBdToQueue"
    [withPointerParameters "DevInst" DevInst; withLoc "Loc" Loc;
     withUnsignedIntParameters "ChNum" (u8 ChNum); withIntParameters "Dir" Dir;
     withUnsignedIntParameters "BdNum" (u16 BdNum)]
    (returnIntValueOrDefault XAIE_OK).

(** [example/testcpputest/stubs/aiert_mock.c:370-377] [XAie_DmaChannelEnable] *)
Definition XAie_DmaChannelEnable (DevInst : Z) (Loc : loc) (ChNum Dir : Z) : Mo Z :=
  actualCall "XAie_DmaChannelEnable"
    [withPointerParameters "DevInst" DevInst; withLoc "Loc" Loc;
     withUnsignedIntParameters "ChNum" (u8 ChNum); withIntParameters "Dir" Dir]
    (returnIntValueOrDefault XAIE_OK).

(** [example/testcpputest/stubs/aiert_mock.c:379-385] [XAie_Read32] *)
Definition XAie_Read32 (DevInst RegOff Data : Z) : Mo Z :=
  actualCall "XAie_Read32"
    [withPointerParameters "DevInst" DevInst;
     withUnsignedLongLongIntParameters "RegOff" (u64 RegOff);
     withOutputParameter "Data" Data]
    (returnIntValueOrDefault XAIE_OK).

(** [example/testcpputest/stubs/aiert_mock.c:387-391] [XScuGic_DeviceInitialize] *)
Definition XScuGic_DeviceInitialize (GicInstancePtr : Z) : Mo Z :=
  actualCall "XScuGic_DeviceInitialize"
    [withPointerParameters "GicInstancePtr" GicInstancePtr]
    (returnIntValueOrDefault XAIE_OK).

(** [example/testcpputest/stubs/aiert_mock.c:393-397] [XScuGic_LookupConfig] *)
Definition XScuGic_LookupConfig (DeviceId : Z) : Mo Z :=
  actualCall "XScuGic_LookupConfig"
    [withUnsignedIntParameters "DeviceId" (u32 DeviceId)]
    (returnPointerValueOrDefault 0).

(** [example/testcpputest/stubs/aiert_mock.c:399-405] [XScuGic_CfgInitialize] *)
Definition XScuGic_CfgInitialize (InstancePtr ConfigPtr EffectiveAddr : Z) : Mo Z :=
  actualCall "XScuGic_CfgInitialize"
    [withPointerParameters "InstancePtr" InstancePtr;
     withPointerParameters "ConfigPtr" ConfigPtr;
     withUnsignedIntParameters "EffectiveAddr" (u32 EffectiveAddr)]
    (returnIntValueOrDefault XAIE_OK).

(** [example/testcpputest/stubs/aiert_mock.c:407-411] [XScuGic_DeviceInterruptHandler] *)
Definition XScuGic_DeviceInterruptHandler (InstancePtr : Z) : Mo Z :=
  actualCall "XScuGic_DeviceInterruptHandler"
    [withPointerParameters "InstancePtr" InstancePtr]
    (returnIntValueOrDefault XAIE_OK).

(** [example/testcpputest/stubs/aiert_mock.c:413-415] [Xil_ExceptionInit] *)
Definition Xil_ExceptionInit : Mo Z :=
  actualCall "Xil_ExceptionInit"
    []
    returnVoid.

(** [example/testcpputest/stubs/aiert_mock.c:417-423] [Xil_ExceptionRegisterHandler] *)
Definition Xil_ExceptionRegisterHandler (ExceptionId Handler Data : Z) : Mo Z :=
  actualCall "Xil_ExceptionRegisterHandler"
    [withUnsignedIntParameters "ExceptionId" (u32 ExceptionId);
     withPointerParameters "Handler" Handler; withPointerParameters "Data" Data]
    (returnIntValueOrDefault XAIE_OK).

(** [example/testcpputest/stubs/aiert_mock.c:425-432] [XScuGic_Connect] *)
Definition XScuGic_Connect (InstancePtr Int_Id Handler CallBackRef : Z) : Mo Z :=
  actualCall "XScuGic_Connect"
    [withPointerParameters "InstancePtr" InstancePtr;
     withUnsignedIntParameters "Int_Id" (u32 Int_Id);
     withPointerParameters "Handler" Handler;
     withPointerParameters "CallBackRef" CallBackRef]
    (returnIntValueOrDefault XAIE_OK).

(** [example/testcpputest/stubs/aiert_mock.c:434-439] [XScuGic_Enable] *)
Definition XScuGic_Enable (InstancePtr Int_Id : Z) : Mo Z :=
  actualCall "XScuGic_Enable"
    [withPointerParameters "InstancePtr" InstancePtr;
     withUnsignedIntParameters "Int_Id" (u32 Int_Id)]
    (returnIntValueOrDefault XAIE_OK).

(** [example/testcpputest/stubs/aiert_mock.c:441-446] [XScuGic_Disable] *)
Definition XScuGic_Disable (InstancePtr Int_Id : Z) : Mo Z :=
  actualCall "XScuGic_Disable"
    [withPointerParameters "InstancePtr" InstancePtr;
     withUnsignedIntParameters "Int_Id" (u32 Int_Id)]
    (returnIntValueOrDefault XAIE_OK).

(** [example/testcpputest/stubs/aiert_mock.c:448-454] [XAie_MemAllocate] *)
Definition XAie_MemAllocate (DevInst Size Cache : Z) : Mo Z :=
  actualCall "XAie_MemAllocate"
    [withPointerParameters "DevInst" DevInst;
     withUnsignedLongLongIntParameters "Size" (u64 Size);
     withIntParameters "Cache" Cache]
    (returnPointerValueOrDefault 0).

(** [example/testcpputest/stubs/aiert_mock.c:456-461] [XAie_MemFreeVAddr] *)
Definition XAie_MemFreeVAddr (DevInst VAddr : Z) : Mo Z :=
  actualCall "XAie_MemFreeVAddr"
    [withPointerParameters "DevInst" DevInst; withPointerParameters "VAddr" VAddr]
    (returnIntValueOrDefault XAIE_OK).

(** [example/testcpputest/stubs/aiert_mock.c:471-477] [XAie_MemSyncForDevVAddr] *)
Definition XAie_MemSyncForDevVAddr (DevInst VAddr size : Z) : Mo Z :=
  actualCall "XAie_MemSyncForDevVAddr"
    [withPointerParameters "DevInst" DevInst; withPointerParameters "VAddr" VAddr;
     withUnsignedLongLongIntParameters "size" (u64 size)]
    (returnIntValueOrDefault XAIE_OK).

(** [example/testcpputest/stubs/aiert_mock.c:479-485] [XAie_MemGetDevAddrFromVAddr] *)
Definition XAie_MemGetDevAddrFromVAddr (DevInst VAddr DevAddr : Z) : Mo Z :=
  actualCall "XAie_MemGetDevAddrFromVAddr"
    [withPointerParameters "DevInst" DevInst; withPointerParameters "VAddr" VAddr;
     withPointerParameters "DevAddr" DevAddr]
    (returnIntValueOrDefault XAIE_OK).

(** [example/testcpputest/stubs/aiert_mock.c:487-491] [XAie_ErrorHandlingInit] *)
Definition XAie_ErrorHandlingInit (DevInst : Z) : Mo Z :=
  actualCall "XAie_ErrorHandlingInit"
    [withPointerParameters "DevInst" DevInst]
    (returnIntValueOrDefault XAIE_OK).

(** [example/testcpputest/stubs/aiert_mock.c:493-499] [XAie_PmRequestTiles] *)
Definition XAie_PmRequestTiles (DevInst NumTiles Locs : Z) : Mo Z :=
  actualCall "XAie_PmRequestTiles"
    [withPointerParameters "DevInst" DevInst;
     withUnsignedIntParameters "NumTiles" (u32 NumTiles);
     withPointerParameters "Locs" Locs]
    (returnIntValueOrDefault XAIE_OK).

(** [example/testcpputest/stubs/aiert_mock.c:501-506] [XAie_UpdateNpiAddr] *)
Definition XAie_UpdateNpiAddr (DevInst NpiAddr : Z) : Mo Z :=
  actualCall "XAie_UpdateNpiAddr"
    [withPointerParameters "DevInst" DevInst;
     withUnsignedIntParameters "NpiAddr" (u64 NpiAddr)]
    (returnIntValueOrDefault XAIE_OK).

(** [example/testcpputest/stubs/aiert_mock.c:538-545] [XAie_PmSetColumnClk] *)
Definition XAie_PmSetColumnClk (DevInst StartCol NumCols Enable : Z) : Mo Z :=
  actualCall "XAie_PmSetColumnClk"
    [withPointerParameters "DevInst" DevInst;
     withUnsignedIntParameters "StartCol" (u32 StartCol);
     withUnsignedIntParameters "NumCols" (u32 NumCols);
     withUnsignedIntParameters "Enable" (u8 Enable)]
    (returnIntValueOrDefault XAIE_OK).

(** [example/testcpputest/stubs/aiert_mock.c:547-553] [XAie_EventSelectStrmPortReset] *)
Definition XAie_EventSelectStrmPortReset (DevInst : Z) (Loc : loc) (SelectId : Z) : Mo Z :=
  actualCall "XAie_EventSelectStrmPortReset"
    [withPointerParameters "DevInst" DevInst; withLoc "Loc" Loc;
     withUnsignedIntParameters "SelectId" (u8 SelectId)]
    (returnIntValueOrDefault XAIE_OK).

(** [example/testcpputest/stubs/aiert_mock.c:555-564] [XAie_EventSelectStrmPort] *)
Definition XAie_EventSelectStrmPort (DevInst : Z) (Loc : loc) (SelectId PortIntf Port PortNum : Z) : Mo Z :=
  actualCall "XAie_EventSelectStrmPort"
    [withPointerParameters "DevInst" DevInst; withLoc "Loc" Loc;
     withUnsignedIntParameters "SelectId" (u8 SelectId);
     withUnsignedIntParameters "PortIntf" PortIntf;
     withUnsignedIntParameters "Port" Port;
     withUnsignedIntParameters "PortNum" (u8 PortNum)]
    (returnIntValueOrDefault XAIE_OK).

(** [example/testcpputest/stubs/aiert_mock.c:566-573] [XAie_EventBroadcastReset] *)
Definition XAie_EventBroadcastReset (DevInst : Z) (Loc : loc) (Module BroadcastId : Z) : Mo Z :=
  actualCall "XAie_EventBroadcastReset"
    [withPointerParameters "DevInst" DevInst; withLoc "Loc" Loc;
     withIntParameters "Module" Module;
     withUnsignedIntParameters "BroadcastId" (u8 BroadcastId)]
    (returnIntValueOrDefault XAIE_OK).

(** [example/testcpputest/stubs/aiert_mock.c:575-582] [XAie_PerfCounterEventValueReset] *)
Definition XAie_PerfCounterEventValueReset (DevInst : Z) (Loc : loc) (Module Counter : Z) : Mo Z :=
  actualCall "XAie_PerfCounterEventValueReset"
    [withPointerParameters "DevInst" DevInst; withLoc "Loc" Loc;
     withIntParameters "Module" Module;
     withUnsignedIntParameters "Counter" (u8 Counter)]
    (returnIntValueOrDefault XAIE_OK).

(** [example/testcpputest/stubs/aiert_mock.c:584-591] [XAie_PerfCounterReset] *)
Definition XAie_PerfCounterReset (DevInst : Z) (Loc : loc) (Module Counter : Z) : Mo Z :=
  actualCall "XAie_PerfCounterReset"
    [withPointerParameters "DevInst" DevInst; withLoc "Loc" Loc;
     withIntParameters "Module" Module;
     withUnsignedIntParameters "Counter" (u8 Counter)]
    (returnIntValueOrDefault XAIE_OK).

(** [example/testcpputest/stubs/aiert_mock.c:593-600] [XAie_PerfCounterResetControlReset] *)
Definition XAie_PerfCounterResetControlReset (DevInst : Z) (Loc : loc) (Module Counter : Z) : Mo Z :=
  actualCall "XAie_PerfCounterResetControlReset"
    [withPointerParameters "DevInst" DevInst; withLoc "Loc" Loc;
     withIntParameters "Module" Module;
     withUnsignedIntParameters "Counter" (u8 Counter)]
    (returnIntValueOrDefault XAIE_OK).

(** [example/testcpputest/stubs/aiert_mock.c:602-609] [XAie_PerfCounterControlReset] *)
Definition XAie_PerfCounterControlReset (DevInst : Z) (Loc : loc) (Module Counter : Z) : Mo Z :=
  actualCall "XAie_PerfCounterControlReset"
    [withPointerParameters "DevInst" DevInst; withLoc "Loc" Loc;
     withIntParameters "Module" Module;
     withUnsignedIntParameters "Counter" (u8 Counter)]
    (returnIntValueOrDefault XAIE_OK).

(** [example/testcpputest/stubs/aiert_mock.c:611-619] [XAie_PerfCounterResetControlSet] *)
Definition XAie_PerfCounterResetControlSet (DevInst : Z) (Loc : loc) (Module Counter ResetEvent : Z) : Mo Z :=
  actualCall "XAie_PerfCounterResetControlSet"
    [withPointerParameters "DevInst" DevInst; withLoc "Loc" Loc;
     withIntParameters "Module" Module;
     withUnsignedIntParameters "Counter" (u8 Counter);
     withUnsignedIntParameters "ResetEvent" (u32 ResetEvent)]
    (returnIntValueOrDefault XAIE_OK).

(** [example/testcpputest/stubs/aiert_mock.c:621-630] [XAie_PerfCounterControlSet] *)
Definition XAie_PerfCounterControlSet (DevInst : Z) (Loc : loc) (Module Counter StartEvent StopEvent : Z) : Mo Z :=
  actualCall "XAie_PerfCounterControlSet"
    [withPointerParameters "DevInst" DevInst; withLoc "Loc" Loc;
     withIntParameters "Module" Module;
     withUnsignedIntParameters "Counter" (u8 Counter);
     withUnsignedIntParameters "StartEvent" (u32 StartEvent);
     withUnsignedIntParameters "StopEvent" (u32 StopEvent)]
    (returnIntValueOrDefault XAIE_OK).

(** [example/testcpputest/stubs/aiert_mock.c:632-640] [XAie_EventBroadcast] *)
Definition XAie_EventBroadcast (DevInst : Z) (Loc : loc) (Module BroadcastId Event : Z) : Mo Z :=
  actualCall "XAie_EventBroadcast"
    [withPointerParameters "DevInst" DevInst; withLoc "Loc" Loc;
     withIntParameters "Module" Module;
     withUnsignedIntParameters "BroadcastId" (u8 BroadcastId);
     withUnsignedIntParameters "Event" (u32 Event)]
    (returnIntValueOrDefault XAIE_OK).

(** [example/testcpputest/stubs/aiert_mock.c:642-650] [XAie_PerfCounterEventValueSet] *)
Definition XAie_PerfCounterEventValueSet (DevInst : Z) (Loc : loc) (Module Counter EventVal : Z) : Mo Z :=
  actualCall "XAie_PerfCounterEventValueSet"
    [withPointerParameters "DevInst" DevInst; withLoc "Loc" Loc;
     withIntParameters "Module" Module;
     withUnsignedIntParameters "Counter" (u8 Counter);
     withUnsignedIntParameters "EventVal" (u32 EventVal)]
    (returnIntValueOrDefault XAIE_OK).

(** [example/testcpputest/stubs/aiert_mock.c:652-661] [XAie_EventBroadcastUnblockDir] *)
Definition XAie_EventBroadcastUnblockDir (DevInst : Z) (Loc : loc) (Module Switch BroadcastId Dir : Z) : Mo Z :=
  actualCall "XAie_EventBroadcastUnblockDir"
    [withPointerParameters "DevInst" DevInst; withLoc "Loc" Loc;
     withIntParameters "Module" Module; withUnsignedIntParameters "Switch" Switch;
     withUnsignedIntParameters "BroadcastId" (u8 BroadcastId);
     withUnsignedIntParameters "Dir" (u8 Dir)]
    (returnIntValueOrDefault XAIE_OK).

(** [example/testcpputest/stubs/aiert_mock.c:663-672] [XAie_EventBroadcastBlockDir] *)
Definition XAie_EventBroadcastBlockDir (DevInst : Z) (Loc : loc) (Module Switch BroadcastId Dir : Z) : Mo Z :=
  actualCall "XAie_EventBroadcastBlockDir"
    [withPointerParameters "DevInst" DevInst; withLoc "Loc" Loc;
     withIntParameters "Module" Module; withUnsignedIntParameters "Switch" Switch;
     withUnsignedIntParameters "BroadcastId" (u8 BroadcastId);
     withUnsignedIntParameters "Dir" (u8 Dir)]
    (returnIntValueOrDefault XAIE_OK).

(** [example/testcpputest/stubs/aiert_mock.c:674-683] [XAie_EventBroadcastBlockMapDir] *)
Definition XAie_EventBroadcastBlockMapDir (DevInst : Z) (Loc : loc) (Module Switch ChannelBitMap Dir : Z) : Mo Z :=
  actualCall "XAie_EventBroadcastBlockMapDir"
    [withPointerParameters "DevInst" DevInst; withLoc "Loc" Loc;
     withIntParameters "Module" Module; withUnsignedIntParameters "Switch" Switch;
     withUnsignedIntParameters "ChannelBitMap" (u32 ChannelBitMap);
     withUnsignedIntParameters "Dir" (u8 Dir)]
    (returnIntValueOrDefault XAIE_OK).

(** [example/testcpputest/stubs/aiert_mock.c:685-691] [XAie_EventPCReset] *)
Definition XAie_EventPCReset (DevInst : Z) (Loc : loc) (PCEventId : Z) : Mo Z :=
  actualCall "XAie_EventPCReset"
    [withPointerParameters "DevInst" DevInst; withLoc "Loc" Loc;
     withUnsignedIntParameters "PCEventId" (u8 PCEventId)]
    (returnIntValueOrDefault XAIE_OK).

(** [example/testcpputest/stubs/aiert_mock.c:693-699] [XAie_Write32] *)
Definition XAie_Write32 (DevInst RegOff Value : Z) : Mo Z :=
  actualCall "XAie_Write32"
    [withPointerParameters "DevInst" DevInst;
     withUnsignedLongLongIntParameters "RegOff" (u64 RegOff);
     withUnsignedIntParameters "Value" (u32 Value)]
    (returnIntValueOrDefault XAIE_OK).

(** [example/testcpputest/stubs/aiert_mock.c:721-725] [XAie_MemSyncForDev] *)
Definition XAie_MemSyncForDev (MemInst : Z) : Mo Z :=
  actualCall "XAie_MemSyncForDev"
    [withPointerParameters "MemInst" MemInst]
    (returnIntValueOrDefault XAIE_OK).

(** [example/testcpputest/stubs/aiert_mock.c:727-731] [XAie_MemGetDevAddr] *)
Definition XAie_MemGetDevAddr (MemInst : Z) : Mo Z :=
  actualCall "XAie_MemGetDevAddr"
    [withPointerParameters "MemInst" MemInst]
    (fun v => u64 (returnIntValueOrDefault 0 v)).

(** [example/testcpputest/stubs/aiert_mock.c:733-737] [XAie_MemGetVAddr] *)
Definition XAie_MemGetVAddr (MemInst : Z) : Mo Z :=
  actualCall "XAie_MemGetVAddr"
    [withPointerParameters "MemInst" MemInst]
    (returnPointerValueOrDefault 0).

(** [example/testcpputest/stubs/aiert_mock.c:739-743] [XAie_MemFree] *)
Definition XAie_MemFree (MemInst : Z) : Mo Z :=
  actualCall "XAie_MemFree"
    [withPointerParameters "MemInst" MemInst]
    (returnIntValueOrDefault XAIE_OK).

(** [example/testcpputest/stubs/aiert_mock.c:745-751] [XAie_LoadUcMem] *)
Definition XAie_LoadUcMem (DevInst : Z) (Loc : loc) (ElfMem : Z) : Mo Z :=
  actualCall "XAie_LoadUcMem"
    [withPointerParameters "DevInst" DevInst; withLoc "Loc" Loc;
     withPointerParameters "ElfMem" ElfMem]
    (returnIntValueOrDefault XAIE_OK).

(** [example/testcpputest/stubs/aiert_mock.c:753-757] [XAie_Finish] *)
Definition XAie_Finish (DevInst : Z) : Mo Z :=
  actualCall "XAie_Finish"
    [withPointerParameters "DevInst" DevInst]
    (returnIntValueOrDefault XAIE_OK).

(** [example/testcpputest/stubs/aiert_mock.c:759-765] [XAie_CoreWaitForDone] *)
Definition XAie_CoreWaitForDone (DevInst : Z) (Loc : loc) (TimeOut : Z) : Mo Z :=
  actualCall "XAie_CoreWaitForDone"
    [withPointerParameters "DevInst" DevInst; withLoc "Loc" Loc;
     withUnsignedIntParameters "TimeOut" (u32 TimeOut)]
    (returnIntValueOrDefault XAIE_OK).

(** [example/testcpputest/stubs/aiert_mock.c:767-772] [XAie_CoreDisable] *)
Definition XAie_CoreDisable (DevInst : Z) (Loc : loc) : Mo Z :=
  actualCall "XAie_CoreDisable"
    [withPointerParameters "DevInst" DevInst; withLoc "Loc" Loc]
    (returnIntValueOrDefault XAIE_OK).

(** [example/testcpputest/stubs/aiert_mock.c:774-781] [XAie_WaitCycles] *)
Definition XAie_WaitCycles (DevInst : Z) (Loc : loc) (Module CycleCnt : Z) : Mo Z :=
  actualCall "XAie_WaitCycles"
    [withPointerParameters "DevInst" DevInst; withLoc "Loc" Loc;
     withIntParameters "Module" Module;
     withUnsignedLongLongIntParameters "CycleCnt" (u64 CycleCnt)]
    (returnIntValueOrDefault XAIE_OK).

(** [example/testcpputest/stubs/aiert_mock.c:787-792] [XAie_GetNumRows] *)
Definition XAie_GetNumRows (DevInst TileType : Z) : Mo Z :=
  actualCall "XAie_GetNumRows"
    [withPointerParameters "DevInst" DevInst;
     withUnsignedIntParameters "Tiletype" (u8 TileType)]
    (fun v => u32 (returnIntValueOrDefault XAIE_OK v)).

(** [example/testcpputest/stubs/aiert_mock.c:793-798] [XAie_GetStartRow] *)
Definition XAie_GetStartRow (DevInst TileType : Z) : Mo Z :=
  actualCall "XAie_GetStartRow"
    [withPointerParameters "DevInst" DevInst;
     withUnsignedIntParameters "Tiletype" (u8 TileType)]
    (fun v => u32 (returnIntValueOrDefault XAIE_OK v)).

(** [example/testcpputest/stubs/aiert_mock.c:799-807] [XAie_TraceEventReset] *)
Definition XAie_TraceEventReset (DevInst : Z) (Loc : loc) (Module SlotId : Z) : Mo Z :=
  actualCall "XAie_TraceEventReset"
    [withPointerParameters "DevInst" DevInst; withLoc "Loc" Loc;
     withIntParameters "Module" Module; withIntParameters "SlotId" (u8 SlotId)]
    (returnIntValueOrDefault XAIE_OK).

(** [example/testcpputest/stubs/aiert_mock.c:808-818] [XAie_TraceEventList] *)
Definition XAie_TraceEventList (DevInst : Z) (Loc : loc) (Module Events SlotId NumEvents : Z) : Mo Z :=
  actualCall "XAie_TraceEventList"
    [withPointerParameters "DevInst" DevInst; withLoc "Loc" Loc;
     withIntParameters "Module" Module; withPointerParameters "Events" Events;
     withPointerParameters "SlotId" SlotId;
     withIntParameters "NumEvents" (u8 NumEvents)]
    (returnIntValueOrDefault XAIE_OK).

(** [example/testcpputest/stubs/aiert_mock.c:819-827] [XAie_TraceControlConfigReset] *)
Definition XAie_TraceControlConfigReset (DevInst : Z) (Loc : loc) (Module : Z) : Mo Z :=
  actualCall "XAie_TraceControlConfigReset"
    [withPointerParameters "DevInst" DevInst; withLoc "Loc" Loc;
     withIntParameters "Module" Module]
    (returnIntValueOrDefault XAIE_OK).

(** [example/testcpputest/stubs/aiert_mock.c:834-845] [XAie_TraceControlConfig] *)
Definition XAie_TraceControlConfig (DevInst : Z) (Loc : loc) (Module StartEvent StopEvent Mode : Z) : Mo Z :=
  actualCall "XAie_TraceControlConfig"
    [withPointerParameters "DevInst" DevInst; withLoc "Loc" Loc;
     withIntParameters "Module" Module; withIntParameters "StartEvent" StartEvent;
     withIntParameters "StopEvent" StopEvent; withIntParameters "Mode" Mode]
    (returnIntValueOrDefault XAIE_OK).

(** [example/testcpputest/stubs/aiert_mock.c:846-854] [XAie_TracePktConfig] *)
Definition XAie_TracePktConfig (DevInst : Z) (Loc : loc) (Module : Z) (Pkt : XAie_Packet) : Mo Z :=
  actualCall "XAie_TracePktConfig"
    [withPointerParameters "DevInst" DevInst; withLoc "Loc" Loc;
     withIntParameters "Module" Module; withPacket "Pkt" Pkt]
    (returnIntValueOrDefault XAIE_OK).

(** [example/testcpputest/stubs/aiert_mock.c:864-873] [XAie_EventPhysicalToLogicalConv] *)
Definition XAie_EventPhysicalToLogicalConv (DevInst : Z) (Loc : loc) (Module HwEvent EnumEvent : Z) : Mo Z :=
  actualCall "XAie_EventPhysicalToLogicalConv"
    [withPointerParameters "DevInst" DevInst; withLoc "Loc" Loc;
     withIntParameters "Module" Module; withIntParameters "HwEvent" (u16 HwEvent);
     withPointerParameters "EnumEvent" EnumEvent]
    (returnIntValueOrDefault XAIE_OK).

(** [example/testcpputest/stubs/aiert_mock.c:874-879] [XAie_SetIOBackend] *)
Definition XAie_SetIOBackend (DevInst Backend : Z) : Mo Z :=
  actualCall "XAie_SetIOBackend"
    [withPointerParameters "DevInst" DevInst; withIntParameters "Backend" Backend]
    (returnIntValueOrDefault XAIE_OK).

(** * The functions that keep state *)

(** [example/testcpputest/stubs/aiert_mock.c:41-59] [XAie_SetupPartitionConfig]
    An empty partition is given one column. *)
Definition XAie_SetupPartitionConfig (DevInst PartBaseAddr PartStartCol PartNumCols : Z) : Mo Z :=
  rc <~ actualCall "XAie_SetupPartitionConfig"
    [withPointerParameters "DevInst" DevInst;
     withUnsignedLongLongIntParameters "PartBaseAddr" (u64 PartBaseAddr);
     withUnsignedIntParameters "PartStartCol" (u8 PartStartCol);
     withUnsignedIntParameters "PartNumCols" (u8 PartNumCols)]
    (returnIntValueOrDefault XAIE_OK) ;;
  if negb (DevInst =? 0) && (rc =? XAIE_OK) then
    _ <~ update (set_part DevInst
           {| StartCol := u8 PartStartCol;
              NumCols := if negb (u8 PartNumCols =? 0) then u8 PartNumCols else 1 |}) ;;
    mret rc
  else mret rc.

(** [sizeof(XAie_ErrorPayload)], a constant of the driver's headers. *)
Variable sizeof_XAie_ErrorPayload : nat.

(** [example/testcpputest/stubs/aiert_mock.c:508-536] [XAie_BacktrackErrorInterrupts]
    The build with [__BAREMETAL_UTESTS__]. *)
Definition XAie_BacktrackErrorInterrupts (DevInst MData : Z) : Mo Z :=
  rc <~ actualCall "XAie_BacktrackErrorInterrupts"
    [withPointerParameters "DevInst" DevInst; withPointerParameters "MData" MData]
    (returnIntValueOrDefault XAIE_OK) ;;
  m <~ get (fun s => mdata s !! MData) ;;
  remaining <~ get next_valid_calls_remaining ;;
  override <~ get error_count_override ;;
  match m with
  | Some m =>
      if negb (MData =? 0) && (rc =? XAIE_OK) then
        let m' := {| Payload := Payload m; ArraySize := ArraySize m;
                     ErrorCount := if negb (override =? 0) then override else 1;
                     IsNextInfoValid := if 0 <? remaining then 1 else 0 |} in
        _ <~ update (set_mdata MData m' (if 0 <? remaining then remaining - 1 else remaining)) ;;
        if negb (Payload m =? 0) && (0 <? ArraySize m) then
          _ <~ update (store (Payload m) (replicate sizeof_XAie_ErrorPayload 0)) ;;
          mret rc
        else mret rc
      else mret rc
  | None => if negb (MData =? 0) && (rc =? XAIE_OK) then (fun _ => None) else mret rc
  end.

(** [example/testcpputest/stubs/aiert_mock.c:701-719] [XAie_MemSyncForCPU]
    The completion word is written once the memory instance was synchronised more
    often than the threshold. *)
Definition XAie_MemSyncForCPU (MemInst : Z) : Mo Z :=
  inst <~ get test_comp_sig_meminst ;;
  ptr <~ get test_completion_ptr ;;
  n <~ get test_sync_call_count ;;
  threshold <~ get test_completion_threshold ;;
  value <~ get test_completion_value ;;
  _ <~ (if negb (inst =? 0) && (MemInst =? inst) then
          _ <~ update (set_sync_count (n + 1)) ;;
          if negb (ptr =? 0) && (threshold <? n + 1)
          then update (store ptr (le_bytes 4 (u32 value)))
          else mret tt
        else mret tt) ;;
  actualCall "XAie_MemSyncForCPU" [withPointerParameters "MemInst" MemInst]
    (returnIntValueOrDefault XAIE_OK).

(** [example/testcpputest/stubs/aiert_mock.c:462-469] [XAie_MemSyncForCPUVAddr]
    Unlike its siblings it reports the address of its own parameter, [amp_DevInst]. *)
Definition XAie_MemSyncForCPUVAddr (amp_DevInst VAddr size : Z) : Mo Z :=
  actualCall "XAie_MemSyncForCPUVAddr"
    [withPointerParameters "DevInst" amp_DevInst; withPointerParameters "VAddr" VAddr;
     withUnsignedLongLongIntParameters "size" (u64 size)]
    (returnIntValueOrDefault XAIE_OK).

(** [example/testcpputest/stubs/aiert_mock.c:783-786] [_XAie_GetTTypefromLoc] *)
Definition XAie_GetTTypefromLoc_ (DevInst : Z) (Loc : loc) : Mo Z := mret 1.
End Mock.

(** * The mock as a driver

    The runtime's calls ([Driver.call]) run against the mock.  A reported call can be
    read back by the names of its arguments, the way a test states its
    expectations; the numbering of the driver's enumerations is a parameter. *)

Class Enums := {
  mod_num : xmodule -> Z;
  mod_of : Z -> option xmodule;
  ev_num : xevent -> Z;
  ev_of : Z -> option xevent;
  pos_num : pad_pos -> Z;
  pos_of : Z -> option pad_pos;
  TRANSACTION_ENABLE_AUTO_FLUSH : Z;
  mod_of_num : forall m, mod_of (mod_num m) = Some m;
  ev_of_num : forall e, ev_of (ev_num e) = Some e;
  pos_of_num : forall p, pos_of (pos_num p) = Some p;
  mod_small : forall m, 0 <= mod_num m < 2 ^ 31;
  ev_small : forall e, 0 <= ev_num e < 2 ^ 31;
  pos_small : forall p, 0 <= pos_num p < 2 ^ 31
}.

Definition getZ (n : string) (ps : list param) : option Z :=
  p ← List.find (fun p => match p with
        | PPtr m _ | PInt m _ | PUInt m _ | PULL m _ => String.eqb n m | _ => false end) ps;
  match p with PPtr _ v | PInt _ v | PUInt _ v | PULL _ v => Some v | _ => None end.

Definition getLoc (n : string) (ps : list param) : option loc :=
  p ← List.find (fun p => match p with PLoc m _ => String.eqb n m | _ => false end) ps;
  match p with PLoc _ l => Some l | _ => None end.

Definition getLock (n : string) (ps : list param) : option lock :=
  p ← List.find (fun p => match p with PLock m _ => String.eqb n m | _ => false end) ps;
  match p with PLock _ l => Some l | _ => None end.

Definition getPacket (n : string) (ps : list param) : option XAie_Packet :=
  p ← List.find (fun p => match p with PPacket m _ => String.eqb n m | _ => false end) ps;
  match p with PPacket _ l => Some l | _ => None end.

Section Client.
Context `{mock : MockSupport} `{en : Enums}.

(** The device and the caller's output variable. *)
Variables dev o : Z.

(** The calls whose arguments are all values; a pointer to data, to a new memory
    instance or to the caller's own variable is not one. *)
Definition run_on_mock (c : call) : option (Mo Z) :=
  match c with
  | Driver.XAie_ReadTimer l m => Some (XAie_ReadTimer dev l (mod_num m) o)
  | Driver.XAie_WaitCycles l m n => Some (XAie_WaitCycles dev l (mod_num m) n)
  | Driver.XAie_StartTransaction =>
      Some (XAie_StartTransaction dev TRANSACTION_ENABLE_AUTO_FLUSH)
  | Driver.XAie_SubmitTransaction => Some (XAie_SubmitTransaction dev 0)
  | Driver.XAie_ClearCoreDisableEventOccurred l =>
      Some (XAie_ClearCoreDisableEventOccurred dev l)
  | Driver.XAie_CoreConfigureEnableEvent l e =>
      Some (XAie_CoreConfigureEnableEvent dev l (ev_num e))
  | Driver.XAie_EventGenerate l m e => Some (XAie_EventGenerate dev l (mod_num m) (ev_num e))
  | Driver.XAie_CoreEnable l => Some (XAie_CoreEnable dev l)
  | Driver.XAie_CoreDisable l => Some (XAie_CoreDisable dev l)
  | Driver.XAie_CoreWaitForDone l t => Some (XAie_CoreWaitForDone dev l t)
  | Driver.XAie_CoreReadDoneBit l => Some (XAie_CoreReadDoneBit dev l o)
  | Driver.XAie_DataMemWrWord l a d => Some (XAie_DataMemWrWord dev l a d)
  | Driver.XAie_DataMemRdWord l a => Some (XAie_DataMemRdWord dev l a o)
  | Driver.XAie_DataMemBlockRead l a n => Some (XAie_DataMemBlockRead dev l a o n)
  | Driver.XAie_LockAcquire l k t => Some (XAie_LockAcquire dev l k t)
  | Driver.XAie_LockRelease l k t => Some (XAie_LockRelease dev l k t)
  | Driver.XAie_LockSetValue l k => Some (XAie_LockSetValue dev l k)
  | Driver.XAie_DmaDescInit d l => Some (XAie_DmaDescInit dev d l)
  | Driver.XAie_DmaSetAxi d s b q c e => Some (XAie_DmaSetAxi d s b q c e)
  | Driver.XAie_DmaSetAddrLen d a n => Some (XAie_DmaSetAddrLen d a n)
  | Driver.XAie_DmaSetZeroPadding d i p n => Some (XAie_DmaSetZeroPadding d i (pos_num p) n)
  | Driver.XAie_DmaSetPkt d i t => Some (XAie_DmaSetPkt d (mkPacket i t))
  | Driver.XAie_DmaSetOutofOrderBdId d i => Some (XAie_DmaSetOutofOrderBdId d i)
  | Driver.XAie_DmaTlastDisable d => Some (XAie_DmaTlastDisable d)
  | Driver.XAie_DmaSetBdIteration d s w i => Some (XAie_DmaSetBdIteration d s w i)
  | Driver.XAie_DmaEnableCompression d => Some (XAie_DmaEnableCompression d)
  | Driver.XAie_DmaSetLock d a r => Some (XAie_DmaSetLock d a r)
  | Driver.XAie_DmaSetNextBd d n e => Some (XAie_DmaSetNextBd d n e)
  | Driver.XAie_DmaEnableBd d => Some (XAie_DmaEnableBd d)
  | Driver.XAie_DmaWriteBd d l b => Some (XAie_DmaWriteBd dev d l b)
  | Driver.XAie_DmaUpdateBdAddr l a b => Some (XAie_DmaUpdateBdAddr dev l a b)
  | Driver.XAie_DmaChannelEnable l c d => Some (XAie_DmaChannelEnable dev l c d)
  | Driver.XAie_DmaGetMaxQueueSize l => Some (XAie_DmaGetMaxQueueSize dev l o)
  | Driver.XAie_DmaGetPendingBdCount l c d => Some (XAie_DmaGetPendingBdCount dev l c d o)
  | Driver.XAie_DmaChannelPushBdToQueue l c d b =>
      Some (XAie_DmaChannelPushBdToQueue dev l c d b)
  | Driver.XAie_DmaChannelSetStartQueue l c d b r t =>
      Some (XAie_DmaChannelSetStartQueue dev l c d b r t)
  | Driver.XAie_DmaWaitForDone l c d t => Some (XAie_DmaWaitForDone dev l c d t)
  | Driver.XAie_MemFreeVAddr v => Some (XAie_MemFreeVAddr dev v)
  | Driver.XAie_MemSyncForDevVAddr v n => Some (XAie_MemSyncForDevVAddr dev v n)
  | _ => None
  end.

(** The arguments fit the parameter types of the functions. *)
Definition fit (w x : Z) : Prop := 0 <= x < 2 ^ w.
Definition fits_s32 (x : Z) : Prop := - 2 ^ 31 <= x < 2 ^ 31.
Definition fits (c : call) : Prop :=
  match c with
  | Driver.XAie_WaitCycles _ _ n => fit 64 n
  | Driver.XAie_CoreWaitForDone _ t => fit 32 t
  | Driver.XAie_DataMemWrWord _ a d => fit 32 a /\ fit 32 d
  | Driver.XAie_DataMemRdWord _ a => fit 32 a
  | Driver.XAie_DataMemBlockRead _ a n => fit 32 a /\ fit 32 n
  | Driver.XAie_LockAcquire _ _ t | Driver.XAie_LockRelease _ _ t => fit 32 t
  | Driver.XAie_DmaSetAxi _ s b q c e => fit 8 s /\ fit 8 b /\ fit 8 q /\ fit 8 c /\ fit 8 e
  | Driver.XAie_DmaSetAddrLen _ a n => fit 64 a /\ fit 32 n
  | Driver.XAie_DmaSetZeroPadding _ i _ n => fit 8 i /\ fit 8 n
  | Driver.XAie_DmaSetOutofOrderBdId _ i => fit 8 i
  | Driver.XAie_DmaSetBdIteration _ s w i => fit 32 s /\ fit 16 w /\ fit 8 i
  | Driver.XAie_DmaSetNextBd _ n e => fit 16 n /\ fit 8 e
  | Driver.XAie_DmaWriteBd _ _ b => fit 16 b
  | Driver.XAie_DmaUpdateBdAddr _ a b => fit 64 a /\ fit 16 b
  | Driver.XAie_DmaChannelEnable _ c d | Driver.XAie_DmaGetPendingBdCount _ c d =>
      fit 8 c /\ fits_s32 d
  | Driver.XAie_DmaChannelPushBdToQueue _ c d b => fit 8 c /\ fits_s32 d /\ fit 16 b
  | Driver.XAie_DmaChannelSetStartQueue _ c d b r t =>
      fit 8 c /\ fits_s32 d /\ fit 16 b /\ fit 32 r /\ fit 8 t
  | Driver.XAie_DmaWaitForDone _ c d t => fit 8 c /\ fits_s32 d /\ fit 32 t
  | Driver.XAie_MemSyncForDevVAddr _ n => fit 64 n
  | _ => True
  end.

(** Reading a reported call back. *)
Definition decoders : list (string * (list param -> option call)) :=
  [("XAie_ReadTimer", fun ps => l ← getLoc "Loc" ps; m ← getZ "Module" ps ≫= mod_of;
      Some (Driver.XAie_ReadTimer l m));
   ("XAie_WaitCycles", fun ps => l ← getLoc "Loc" ps; m ← getZ "Module" ps ≫= mod_of;
      n ← getZ "CycleCnt" ps; Some (Driver.XAie_WaitCycles l m n));
   ("XAie_StartTransaction", fun ps => Some Driver.XAie_StartTransaction);
   ("XAie_SubmitTransaction", fun ps => Some Driver.XAie_SubmitTransaction);
   ("XAie_ClearCoreDisableEventOccurred", fun ps => l ← getLoc "Loc" ps;
      Some (Driver.XAie_ClearCoreDisableEventOccurred l));
   ("XAie_CoreConfigureEnableEvent", fun ps => l ← getLoc "Loc" ps;
      e ← getZ "Event" ps ≫= ev_of; Some (Driver.XAie_CoreConfigureEnableEvent l e));
   ("XAie_EventGenerate", fun ps => l ← getLoc "Loc" ps; m ← getZ "Module" ps ≫= mod_of;
      e ← getZ "Event" ps ≫= ev_of; Some (Driver.XAie_EventGenerate l m e));
   ("XAie_CoreEnable", fun ps => l ← getLoc "Loc" ps; Some (Driver.XAie_CoreEnable l));
   ("XAie_CoreDisable", fun ps => l ← getLoc "Loc" ps; Some (Driver.XAie_CoreDisable l));
   ("XAie_CoreWaitForDone", fun ps => l ← getLoc "Loc" ps; t ← getZ "TimeOut" ps;
      Some (Driver.XAie_CoreWaitForDone l t));
   ("XAie_CoreReadDoneBit", fun ps => l ← getLoc "Loc" ps;
      Some (Driver.XAie_CoreReadDoneBit l));
   ("XAie_DataMemWrWord", fun ps => l ← getLoc "Loc" ps; a ← getZ "Addr" ps;
      d ← getZ "Data" ps; Some (Driver.XAie_DataMemWrWord l a d));
   ("XAie_DataMemRdWord", fun ps => l ← getLoc "Loc" ps; a ← getZ "Addr" ps;
      Some (Driver.XAie_DataMemRdWord l a));
   ("XAie_DataMemBlockRead", fun ps => l ← getLoc "Loc" ps; a ← getZ "Addr" ps;
      n ← getZ "Size" ps; Some (Driver.XAie_DataMemBlockRead l a n));
   ("XAie_LockAcquire", fun ps => l ← getLoc "Loc" ps; k ← getLock "Lock" ps;
      t ← getZ "TimeOut" ps; Some (Driver.XAie_LockAcquire l k t));
   ("XAie_LockRelease", fun ps => l ← getLoc "Loc" ps; k ← getLock "Lock" ps;
      t ← getZ "TimeOut" ps; Some (Driver.XAie_LockRelease l k t));
   ("XAie_LockSetValue", fun ps => l ← getLoc "Loc" ps; k ← getLock "Lock" ps;
      Some (Driver.XAie_LockSetValue l k));
   ("XAie_DmaDescInit", fun ps => l ← getLoc "Loc" ps; d ← getZ "DmaDesc" ps;
      Some (Driver.XAie_DmaDescInit d l));
   ("XAie_DmaSetAxi", fun ps => d ← getZ "DmaDesc" ps; s ← getZ "Smid" ps;
      b ← getZ "BurstLen" ps; q ← getZ "Qos" ps; c ← getZ "Cache" ps; e ← getZ "Secure" ps;
      Some (Driver.XAie_DmaSetAxi d s b q c e));
   ("XAie_DmaSetAddrLen", fun ps => d ← getZ "DmaDesc" ps; a ← getZ "Addr" ps;
      n ← getZ "Len" ps; Some (Driver.XAie_DmaSetAddrLen d a n));
   ("XAie_DmaSetZeroPadding", fun ps => d ← getZ "DmaDesc" ps; i ← getZ "Dim" ps;
      p ← getZ "Pos" ps ≫= pos_of; n ← getZ "NumZeros" ps;
      Some (Driver.XAie_DmaSetZeroPadding d i p n));
   ("XAie_DmaSetPkt", fun ps => d ← getZ "DmaDesc" ps; p ← getPacket "Pkt" ps;
      Some (Driver.XAie_DmaSetPkt d (PktId p) (PktType p)));
   ("XAie_DmaSetOutofOrderBdId", fun ps => d ← getZ "DmaDesc" ps;
      i ← getZ "OutofOrderBdId" ps; Some (Driver.XAie_DmaSetOutofOrderBdId d i));
   ("XAie_DmaTlastDisable", fun ps => d ← getZ "DmaDesc" ps;
      Some (Driver.XAie_DmaTlastDisable d));
   ("XAie_DmaSetBdIteration", fun ps => d ← getZ "DmaDesc" ps; s ← getZ "StepSize" ps;
      w ← getZ "Wrap" ps; i ← getZ "IterCurr" ps; Some (Driver.XAie_DmaSetBdIteration d s w i));
   ("XAie_DmaEnableCompression", fun ps => d ← getZ "DmaDesc" ps;
      Some (Driver.XAie_DmaEnableCompression d));
   ("XAie_DmaSetLock", fun ps => d ← getZ "DmaDesc" ps; a ← getLock "Acq" ps;
      r ← getLock "Rel" ps; Some (Driver.XAie_DmaSetLock d a r));
   ("XAie_DmaSetNextBd", fun ps => d ← getZ "DmaDesc" ps; n ← getZ "NextBd" ps;
      e ← getZ "EnableNextBd" ps; Some (Driver.XAie_DmaSetNextBd d n e));
   ("XAie_DmaEnableBd", fun ps => d ← getZ "DmaDesc" ps; Some (Driver.XAie_DmaEnableBd d));
   ("XAie_DmaWriteBd", fun ps => d ← getZ "DmaDesc" ps; l ← getLoc "Loc" ps;
      b ← getZ "BdNum" ps; Some (Driver.XAie_DmaWriteBd d l b));
   ("XAie_DmaUpdateBdAddr", fun ps => l ← getLoc "Loc" ps; a ← getZ "Addr" ps;
      b ← getZ "BdNum" ps; Some (Driver.XAie_DmaUpdateBdAddr l a b));
   ("XAie_DmaChannelEnable", fun ps => l ← getLoc "Loc" ps; c ← getZ "ChNum" ps;
      d ← getZ "Dir" ps; Some (Driver.XAie_DmaChannelEnable l c d));
   ("XAie_DmaGetMaxQueueSize", fun ps => l ← getLoc "Loc" ps;
      Some (Driver.XAie_DmaGetMaxQueueSize l));
   ("XAie_DmaGetPendingBdCount", fun ps => l ← getLoc "Loc" ps; c ← getZ "ChNum" ps;
      d ← getZ "Dir" ps; Some (Driver.XAie_DmaGetPendingBdCount l c d));
   ("XAie_DmaChannelPushBdToQueue", fun ps => l ← getLoc "Loc" ps; c ← getZ "ChNum" ps;
      d ← getZ "Dir" ps; b ← getZ "BdNum" ps;
      Some (Driver.XAie_DmaChannelPushBdToQueue l c d b));
   ("XAie_DmaChannelSetStartQueue", fun ps => l ← getLoc "Loc" ps; c ← getZ "ChNum" ps;
      d ← getZ "Dir" ps; b ← getZ "BdNum" ps; r ← getZ "RepeatCount" ps;
      t ← getZ "EnTokenIssue" ps; Some (Driver.XAie_DmaChannelSetStartQueue l c d b r t));
   ("XAie_DmaWaitForDone", fun ps => l ← getLoc "Loc" ps; c ← getZ "ChNum" ps;
      d ← getZ "Dir" ps; t ← getZ "TimeOutUs" ps; Some (Driver.XAie_DmaWaitForDone l c d t));
   ("XAie_MemFreeVAddr", fun ps => v ← getZ "VAddr" ps; Some (Driver.XAie_MemFreeVAddr v));
   ("XAie_MemSyncForDevVAddr", fun ps => v ← getZ "VAddr" ps; n ← getZ "size" ps;
      Some (Driver.XAie_MemSyncForDevVAddr v n))].

Definition decode (a : actual) : option call :=
  d ← List.find (fun d => String.eqb (a_name a) (fst d)) decoders; (snd d) (a_params a).

(** A reporting function: it reports one call, fails when that call is unexpected,
    and otherwise returns the scripted code. *)
Definition reports (a : actual) (m : Mo Z) : Prop :=
  forall s, m s =
    match expects (log s) a with
    | None => None
    | Some e => Some (s32 (default XAIE_OK (e_ret e)),
                      with_log (log s ++ [a]) (stores s ++ copies (a_params a) (e_out e)) s)
    end.

Lemma wrap_fit w x : fit w x -> wrap_u w x = x.
Proof. apply wrap_u_small. Qed.

Lemma wrap_fit_le v w x : v <= w -> fit v x -> wrap_u w x = x.
Proof.
  intros Hle [H0 H1]; apply wrap_u_small; split; [done|].
  eapply Z.lt_le_trans; [exact H1|]; apply Z.pow_le_mono_r; lia.
Qed.

Lemma wrap_fits_s32 x : fits_s32 x -> s32 x = x.
Proof. intros; apply wrap_s_small; [lia|exact H]. Qed.

Lemma small_s32 x : 0 <= x < 2 ^ 31 -> s32 x = x.
Proof. intros; apply wrap_s_small; lia. Qed.

Lemma small_u32 x : 0 <= x < 2 ^ 31 -> u32 x = x.
Proof. intros; apply wrap_u_small; lia. Qed.

Ltac simpl_fits :=
  repeat match goal with
  | H : _ /\ _ |- _ => destruct H
  | H : fit 64 ?x |- context [u64 ?x] => rewrite !(wrap_fit 64 x H)
  | H : fit 32 ?x |- context [u32 ?x] => rewrite !(wrap_fit 32 x H)
  | H : fit 16 ?x |- context [u16 ?x] => rewrite !(wrap_fit 16 x H)
  | H : fit 8 ?x |- context [u8 ?x] => rewrite !(wrap_fit 8 x H)
  | H : fit 16 ?x |- context [u32 ?x] => rewrite !(wrap_fit_le 16 32 x ltac:(lia) H)
  | H : fit 8 ?x |- context [u32 ?x] => rewrite !(wrap_fit_le 8 32 x ltac:(lia) H)
  | H : fits_s32 ?x |- context [s32 ?x] => rewrite !(wrap_fits_s32 x H)
  | |- context [s32 (mod_num ?m)] => rewrite !(small_s32 (mod_num m) (mod_small m))
  | |- context [s32 (ev_num ?m)] => rewrite !(small_s32 (ev_num m) (ev_small m))
  | |- context [u32 (ev_num ?m)] => rewrite !(small_u32 (ev_num m) (ev_small m))
  | |- context [s32 (pos_num ?m)] => rewrite !(small_s32 (pos_num m) (pos_small m))
  end.

Lemma reports_actualCall n ps :
  reports (mkActual n ps) (actualCall n ps (returnIntValueOrDefault XAIE_OK)).
Proof. intros s; reflexivity. Qed.

(** Each function reports a call from which the runtime's call can be read back. *)
Lemma run_on_mock_reports c m :
  run_on_mock c = Some m -> fits c -> exists a, decode a = Some c /\ reports a m.
Proof.
  intros Hm Hf; destruct c; simpl in Hm; try done; injection Hm as <-.
  all: refine (ex_intro _ _ (conj _ (reports_actualCall _ _))).
  all: cbn in Hf |- *; unfold withPointerParameters, withIntParameters,
    withUnsignedIntParameters, withUnsignedLongLongIntParameters; simpl_fits.
  all: rewrite ?mod_of_num, ?ev_of_num, ?pos_of_num; reflexivity.
Qed.

(** A sequence of runtime calls, and what the test scripted for a sequence of reports:
    [None] when some report was not expected. *)
Fixpoint mock_calls (cs : list call) : Mo (list Z) :=
  match cs with
  | [] => mret []
  | c :: cs =>
      match run_on_mock c with
      | Some m => r <~ m ;; rs <~ mock_calls cs ;; mret (r :: rs)
      | None => fun _ => None
      end
  end.

Fixpoint scripted (lg l : list actual) : option (list Z) :=
  match l with
  | [] => Some []
  | a :: l =>
      e ← expects lg a; rs ← scripted (lg ++ [a]) l;
      Some (s32 (default XAIE_OK (e_ret e)) :: rs)
  end.

(** A test over the mock observes the runtime completely: any sequence of calls
    with values as arguments is reported call by call, in order, and reading the
    reports back by argument names gives the sequence again; the sequence runs to
    its end exactly when the test expected every report, and then it is answered
    with the scripted codes. *)
Theorem mock_log_replays cs :
  Forall (fun c => is_Some (run_on_mock c) /\ fits c) cs ->
  exists l, mapM decode l = Some cs /\
    forall s, match scripted (log s) l with
              | None => mock_calls cs s = None
              | Some rs => exists s', mock_calls cs s = Some (rs, s') /\ log s' = log s ++ l
              end.
Proof.
  induction 1 as [|c cs [[m Hm] Hf] _ (l & Hl & IH)].
  - exists []; split; [done|]; intros s; exists s; rewrite app_nil_r; done.
  - destruct (run_on_mock_reports c m Hm Hf) as (a & Ha & Hr).
    exists (a :: l); split; [simpl; rewrite Ha, Hl; done|]; intros s.
    simpl; rewrite Hm; unfold mbind'; rewrite Hr.
    destruct (expects (log s) a) as [e|]; simpl; [|done].
    specialize (IH (with_log (log s ++ [a]) (stores s ++ copies (a_params a) (e_out e)) s)).
    simpl in IH; destruct (scripted (log s ++ [a]) l) as [rs|]; simpl.
    + destruct IH as (s' & -> & Hlog); exists s'; rewrite Hlog, <- app_assoc; done.
    + rewrite IH; done.
Qed.

(** ** The stateful functions *)

(** A device whose partition was configured through the mock has at least one
    column, whatever the caller asked for. *)
Lemma setup_partition_columns base start n s r s' p :
  XAie_SetupPartitionConfig dev base start n s = Some (r, s') -> dev <> 0 -> r = XAIE_OK ->
  parts s' !! dev = Some p -> 1 <= NumCols p < 256 /\ StartCol p = u8 start.
Proof.
  unfold XAie_SetupPartitionConfig, mbind'; intros H Hd Hr Hp.
  destruct (actualCall _ _ _ s) as [[rc1 s1]|]; [|done].
  destruct (negb (dev =? 0) && (rc1 =? XAIE_OK)) eqn:E; unfold mret, update in H; simplify_eq.
  - unfold set_part in Hp; cbn in Hp; rewrite lookup_insert_eq in Hp; simplify_eq; simpl; split; [|done].
    pose proof (wrap_u_range 8 n ltac:(lia)); change (2 ^ 8) with 256 in *.
    destruct (u8 n =? 0) eqn:En; simpl; lia.
  - apply andb_false_iff in E; lia.
Qed.

(** [n] synchronisations of the signal memory, all expected. *)
Fixpoint sync_times (n : nat) (mi : Z) : Mo unit :=
  match n with
  | O => mret tt
  | S n => _ <~ XAie_MemSyncForCPU mi ;; sync_times n mi
  end.

Lemma mem_sync_step mi s :
  (forall lg a, is_Some (expects lg a)) ->
  mi = test_comp_sig_meminst s -> mi <> 0 -> test_completion_ptr s <> 0 ->
  exists r s1, XAie_MemSyncForCPU mi s = Some (r, s1) /\
    test_sync_call_count s1 = test_sync_call_count s + 1 /\
    test_comp_sig_meminst s1 = mi /\ test_completion_ptr s1 = test_completion_ptr s /\
    test_completion_threshold s1 = test_completion_threshold s /\
    test_completion_value s1 = test_completion_value s /\
    stores s1 = stores s ++
      (if test_completion_threshold s <? test_sync_call_count s + 1
       then [(test_completion_ptr s, le_bytes 4 (u32 (test_completion_value s)))] else []).
Proof.
  intros He Hmi H0 Hp.
  unfold XAie_MemSyncForCPU, mbind', get, update, mret; rewrite <- Hmi, Z.eqb_refl.
  rewrite (proj2 (Z.eqb_neq mi 0)), (proj2 (Z.eqb_neq (test_completion_ptr s) 0)) by done.
  cbn [negb andb]; cbv iota; destruct (_ <? _) eqn:E; unfold actualCall.
  all: match goal with |- context [expects ?l ?a] => destruct (He l a) as [e ->] end.
  all: eexists _, _; split; [reflexivity|].
  all: cbn -[le_bytes]; rewrite ?app_nil_r; auto 10.
Qed.

(** The completion word is withheld for the first [threshold] synchronisations of
    the signal memory and written, with the scripted value, at each later one. *)
Theorem mock_completion_after_threshold n mi s :
  (forall lg a, is_Some (expects lg a)) ->
  mi = test_comp_sig_meminst s -> mi <> 0 -> test_completion_ptr s <> 0 ->
  exists s', sync_times n mi s = Some (tt, s') /\
    test_sync_call_count s' = test_sync_call_count s + Z.of_nat n /\
    stores s' = stores s ++
      replicate (n `min` Z.to_nat (test_sync_call_count s + Z.of_nat n
                                   - test_completion_threshold s))
        (test_completion_ptr s, le_bytes 4 (u32 (test_completion_value s))).
Proof.
  intros He; revert s; induction n as [|n IH]; intros s Hmi H0 Hp.
  - exists s; rewrite Z.add_0_r, app_nil_r; done.
  - destruct (mem_sync_step mi s He Hmi H0 Hp) as (r & s1 & Hs & Hc & Hm & Hpt & Ht & Hv & Hst).
    cbn [sync_times]; unfold mbind'; rewrite Hs.
    destruct (IH s1) as (s' & -> & Hc' & Hst'); [done|done|by rewrite Hpt|].
    exists s'; split; [done|]; split; [lia|].
    rewrite Hst', Hst, Hc, Hpt, Ht, Hv, <- app_assoc; f_equal.
    destruct (Z.ltb_spec (test_completion_threshold s) (test_sync_call_count s + 1)).
    + rewrite !Nat.min_l by lia; done.
    + rewrite app_nil_l; f_equal; lia.
Qed.
End Client.

(** * A concrete test *)

Definition lenient : MockSupport := {| expects := fun _ _ => Some {| e_ret := None; e_out := [] |} |}.

Definition demo_enums : Enums.
Proof.
  refine {| mod_num := fun m => match m with XAIE_CORE_MOD => 1 | XAIE_PL_MOD => 2 | XAIE_MEM_MOD => 0 end;
            mod_of := fun z => if z =? 1 then Some XAIE_CORE_MOD
                               else if z =? 2 then Some XAIE_PL_MOD
                               else if z =? 0 then Some XAIE_MEM_MOD else None;
            ev_num := fun e => match e with XAIE_EVENT_NONE_CORE => 0
                               | XAIE_EVENT_BROADCAST_7_CORE => 1
                               | XAIE_EVENT_BROADCAST_A_8_PL => 2 end;
            ev_of := fun z => if z =? 0 then Some XAIE_EVENT_NONE_CORE
                              else if z =? 1 then Some XAIE_EVENT_BROADCAST_7_CORE
                              else if z =? 2 then Some XAIE_EVENT_BROADCAST_A_8_PL else None;
            pos_num := fun p => match p with DMA_ZERO_PADDING_BEFORE => 0
                                | DMA_ZERO_PADDING_AFTER => 1 end;
            pos_of := fun z => if z =? 0 then Some DMA_ZERO_PADDING_BEFORE
                               else if z =? 1 then Some DMA_ZERO_PADDING_AFTER else None;
            TRANSACTION_ENABLE_AUTO_FLUSH := 1 |}.
  all: intros []; (reflexivity || (cbn; lia)).
Defined.

Definition fresh_mock : mstate := mkM [] [] ∅ ∅ 0 0 0x500 0x600 0 2 4.

Lemma mock_log_replays_witness :
  exists l, mapM (@decode demo_enums) l =
    Some [Driver.XAie_CoreEnable (mkLoc 2 3);
          Driver.XAie_DmaSetBdIteration 0x100 4 8 1].
Proof.
  destruct (@mock_log_replays lenient demo_enums 0x1000 0x2000
    [Driver.XAie_CoreEnable (mkLoc 2 3); Driver.XAie_DmaSetBdIteration 0x100 4 8 1])
    as (l & Hl & _).
  - repeat constructor; try (eexists; reflexivity); vm_compute; intuition discriminate.
  - exists l; exact Hl.
Defined.

Lemma mock_completion_after_threshold_witness :
  exists s', @sync_times lenient 5 0x600 fresh_mock = Some (tt, s') /\
    stores s' = replicate 3 (0x500, [4; 0; 0; 0]).
Proof.
  destruct (@mock_completion_after_threshold lenient 5 0x600 fresh_mock) as (s' & H & _ & Hst).
  - intros; eexists; reflexivity.
  - reflexivity.
  - discriminate.
  - discriminate.
  - exists s'; split; [exact H|rewrite Hst; reflexivity].
Defined.
