(* ===== verification/HostQueue.v ===== *)
(** The host queue shared with the control firmware (CERT) of the array: packet formats
    and completion codes ([src/include/host_queue.h]) and the handshake block
    ([src/include/handshake.h]), as the bytes the host stores.

    The firmware is not part of the repository; what it reads is taken from the format
    description in [host_queue.h]: [jobs] follows a packet through its levels of
    indirection to the control code of every column. *)
From stdpp Require Import base list.
From Stdlib Require Import ZArith Lia.
From S2P Require Import Prelude.
Local Open Scope Z_scope.

(** * Completion codes *)

(** [src/include/host_queue.h:16-28] [hsa_cmd_state] *)
Inductive hsa_cmd_state :=
| HSA_CMD_STATE_NEW | HSA_CMD_STATE_QUEUED | HSA_CMD_STATE_RUNNING
| HSA_CMD_STATE_COMPLETED | HSA_CMD_STATE_ERROR | HSA_CMD_STATE_ABORT
| HSA_CMD_STATE_SUBMITTED | HSA_CMD_STATE_TIMEOUT | HSA_CMD_STATE_NORESPONSE
| HSA_CMD_STATE_SKERROR | HSA_CMD_STATE_SKCRASHED.

Definition cmd_state_num (s : hsa_cmd_state) : Z :=
  match s with
  | HSA_CMD_STATE_NEW => 1 | HSA_CMD_STATE_QUEUED => 2 | HSA_CMD_STATE_RUNNING => 3
  | HSA_CMD_STATE_COMPLETED => 4 | HSA_CMD_STATE_ERROR => 5 | HSA_CMD_STATE_ABORT => 6
  | HSA_CMD_STATE_SUBMITTED => 7 | HSA_CMD_STATE_TIMEOUT => 8
  | HSA_CMD_STATE_NORESPONSE => 9 | HSA_CMD_STATE_SKERROR => 10
  | HSA_CMD_STATE_SKCRASHED => 11
  end.

(** [src/include/host_queue.h:29-29] [HSA_COMP_SUCCESS] *)
Definition HSA_COMP_SUCCESS : Z := cmd_state_num HSA_CMD_STATE_COMPLETED.
(** [src/include/host_queue.h:30-37] [HSA_ERR] *)
Definition HSA_ERR (e : Z) : Z := u32 (Z.lor (Z.shiftl e 4) (cmd_state_num HSA_CMD_STATE_ERROR)).
Definition HSA_EXIT_PKT : Z := HSA_ERR 0.
Definition HSA_PDI_LOAD_NO_MAPPING (self_id : Z) : Z := HSA_ERR (self_id * 100 + 1).
Definition HSA_PDI_LOAD_FAILURE (self_id : Z) : Z := HSA_ERR (self_id * 100 + 2).
Definition HSA_INVALID_OPCODE (self_id : Z) : Z := HSA_ERR (self_id * 100 + 3).
Definition HSA_INVALID_PKT : Z := HSA_ERR 4.
Definition HSA_INVALID_PAGE (self_id : Z) : Z := HSA_ERR (self_id * 100 + 5).
Definition HSA_PKT_TIMEOUT (self_id : Z) : Z := HSA_ERR (self_id * 100 + 6).
(** [src/include/host_queue.h:38-38] [HSA_MAX_LEVEL1_INDIRECT_ENTRIES] *)
Definition HSA_MAX_LEVEL1_INDIRECT_ENTRIES : Z := 6.
(** [src/include/host_queue.h:40-44] [host_queue_packet_opcode] *)
Definition HOST_QUEUE_PACKET_EXEC_BUF : Z := 1.
Definition HOST_QUEUE_PACKET_TEST : Z := 2.
Definition HOST_QUEUE_PACKET_EXIT : Z := 3.
(** [src/include/host_queue.h:78-81] [host_queue_packet_type] *)
Definition HOST_QUEUE_PACKET_TYPE_VENDOR_SPECIFIC : Z := 0.
Definition HOST_QUEUE_PACKET_TYPE_INVALID : Z := 1.

(** * Structures and their bytes *)

(** [src/include/host_queue.h:56-65] [exec_buf] *)
Record exec_buf := {
  cu_index : Z; reserved0 : Z;
  dpu_control_code_host_addr_low : Z; dpu_control_code_host_addr_high : Z;
  args_len : Z; reserved1 : Z;
  args_host_addr_low : Z; args_host_addr_high : Z }.

(** [src/include/host_queue.h:95-109] [common_header]
    [header] is the union of the 16-bit word and its bit-fields; [type] is its low byte. *)
Record common_header := { header : Z; opcode : Z; count : Z; distribute : Z; indirect : Z }.

(** [src/include/host_queue.h:121-125] [host_indirect_packet_entry] *)
Record host_indirect_packet_entry := {
  host_addr_low : Z; host_addr_high : Z; uc_index : Z }.

Definition sizeof_common_header : Z := 8.
Definition sizeof_xrt_packet_header : Z := 16.
Definition sizeof_exec_buf : Z := 24.
Definition sizeof_indirect_entry : Z := 8.
Definition sizeof_host_queue_packet : Z := 64.

Definition enc_exec_buf (e : exec_buf) : list Z :=
  le_bytes 2 (cu_index e) ++ le_bytes 2 (reserved0 e) ++
  le_bytes 4 (dpu_control_code_host_addr_low e) ++
  le_bytes 4 (dpu_control_code_host_addr_high e) ++
  le_bytes 2 (args_len e) ++ le_bytes 2 (reserved1 e) ++
  le_bytes 4 (args_host_addr_low e) ++ le_bytes 4 (args_host_addr_high e).

Definition enc_common_header (c : common_header) : list Z :=
  le_bytes 2 (header c) ++ le_bytes 2 (opcode c) ++ le_bytes 2 (count c) ++
  le_bytes 1 (distribute c) ++ le_bytes 1 (indirect c).

(** The bit-fields share a word: 25 bits of address below 7 bits of index. *)
Definition enc_entry (e : host_indirect_packet_entry) : list Z :=
  le_bytes 4 (host_addr_low e) ++
  le_bytes 4 (Z.lor (wrap_u 25 (host_addr_high e)) (Z.shiftl (wrap_u 7 (uc_index e)) 25)).

(** [src/include/host_queue.h:111-114] [xrt_packet_header] *)
Definition enc_xrt_header (c : common_header) (completion_signal : Z) : list Z :=
  enc_common_header c ++ le_bytes 8 completion_signal.

(** [src/include/host_queue.h:238-241] [host_queue_packet]
    The header, then 12 words of data; [data] shorter than that is followed by
    the zeros the packet was cleared to. *)
Definition enc_packet (c : common_header) (completion_signal : Z) (data : list Z) : list Z :=
  enc_xrt_header c completion_signal ++ data ++ replicate (48 - length data) 0.

(** [src/include/host_queue.h:67-76] [host_queue_header]
    Offsets of the fields the host touches, and the size. *)
Definition off_capacity : Z := 12.
Definition off_write_index : Z := 16.
Definition off_data_address : Z := 24.
Definition sizeof_host_queue_header : Z := 32.

(** * The handshake block *)

(** [src/include/handshake.h:53-133] [handshake_t]
    Its first five words; the rest is zero in every block the host writes. *)
Record handshake_t := {
  mpaie_alive : Z;
  partition_base_address : Z;
  partition_size : Z;
  hsa_addr_high : Z;
  hsa_addr_low : Z }.

Definition sizeof_handshake : nat := 184.
(** [src/include/handshake.h:222-222] [ALIVE_MAGIC] *)
Definition ALIVE_MAGIC : Z := 0x404C5645.

Definition enc_handshake (h : handshake_t) : list Z :=
  le_bytes 4 (mpaie_alive h) ++ le_bytes 4 (partition_base_address h) ++
  le_bytes 4 (wrap_u 7 (partition_size h)) ++ le_bytes 4 (hsa_addr_high h) ++
  le_bytes 4 (hsa_addr_low h) ++ replicate (sizeof_handshake - 20) 0.

(** [src/include/handshake.h:135-141] [HSA_QUEUE_ADDR] and the other readers. *)
Definition PARTITION_START (h : handshake_t) : Z :=
  Z.land (Z.shiftr (partition_base_address h) 25) 0x7F.
Definition HSA_QUEUE_ADDR (h : handshake_t) : Z :=
  Z.lor (hsa_addr_low h) (Z.shiftl (hsa_addr_high h) 32).
Definition SLAVE_HSA_ADDR : Z := 0xFFFFFFFFFFFFFFFF.

(** * What the firmware reads *)

Definition slice (k n : nat) (bs : list Z) : list Z := take n (drop k bs).
Definition field (k n : nat) (bs : list Z) : Z := le_val (slice k n bs).

Definition dec_common_header (bs : list Z) : common_header :=
  {| header := field 0 2 bs; opcode := field 2 2 bs; count := field 4 2 bs;
     distribute := field 6 1 bs; indirect := field 7 1 bs |}.

Definition dec_exec_buf (bs : list Z) : exec_buf :=
  {| cu_index := field 0 2 bs; reserved0 := field 2 2 bs;
     dpu_control_code_host_addr_low := field 4 4 bs;
     dpu_control_code_host_addr_high := field 8 4 bs;
     args_len := field 12 2 bs; reserved1 := field 14 2 bs;
     args_host_addr_low := field 16 4 bs; args_host_addr_high := field 20 4 bs |}.

Definition dec_entry (bs : list Z) : host_indirect_packet_entry :=
  {| host_addr_low := field 0 4 bs;
     host_addr_high := wrap_u 25 (field 4 4 bs);
     uc_index := Z.shiftr (field 4 4 bs) 25 |}.

Definition entry_addr (e : host_indirect_packet_entry) : Z :=
  host_addr_low e + host_addr_high e * 2 ^ 32.

Definition code_addr (e : exec_buf) : Z :=
  dpu_control_code_host_addr_low e + dpu_control_code_host_addr_high e * 2 ^ 32.

Section Firmware.
(** Reads of [n] bytes at a device address. *)
Variable rd : Z -> nat -> list Z.

(** The work a header describes: its payload starts at [a]; [uc] is the index that
    led here, [lvl] bounds the levels of indirection. *)
Fixpoint jobs (lvl : nat) (uc : Z) (h : common_header) (a : Z) : option (list (Z * exec_buf)) :=
  match lvl with
  | O => None
  | S lvl =>
      if indirect h =? 0 then Some [(uc, dec_exec_buf (rd a 24))]
      else
        let entry i := dec_entry (rd (a + 8 * Z.of_nat i) 8) in
        js ← mapM (fun i =>
               let e := entry i in
               jobs lvl (uc_index e) (dec_common_header (rd (entry_addr e) 8))
                    (entry_addr e + 8))
             (seq 0 (Z.to_nat (count h / 8)));
        Some (concat js)
  end.

(** The work of the packet at device address [p]: at most two levels. *)
Definition packet_jobs (p : Z) : option (list (Z * exec_buf)) :=
  jobs 3 0 (dec_common_header (rd p 8)) (p + 16).
End Firmware.

(** * Byte memory *)

Definition mem : Type := Z -> Z.

Definition write_bytes (a : Z) (bs : list Z) (m : mem) : mem := fun x =>
  if (a <=? x) && (x <? a + Z.of_nat (length bs)) then nth (Z.to_nat (x - a)) bs 0 else m x.

Definition read_bytes (a : Z) (n : nat) (m : mem) : list Z :=
  map (fun i => m (a + Z.of_nat i)) (seq 0 n).

(** Two ranges of addresses do not overlap. *)
Definition apart (a : Z) (n : nat) (b : Z) (k : nat) : Prop :=
  a + Z.of_nat n <= b \/ b + Z.of_nat k <= a.

Lemma read_bytes_length a n m : length (read_bytes a n m) = n.
Proof. unfold read_bytes; rewrite length_map, length_seq; done. Qed.

Lemma read_bytes_app a n k m :
  read_bytes a (n + k) m = read_bytes a n m ++ read_bytes (a + Z.of_nat n) k m.
Proof.
  unfold read_bytes; rewrite seq_app, map_app; f_equal; simpl.
  apply nth_ext with (d := 0) (d' := 0); rewrite !length_map, !length_seq; [done|].
  intros i Hi.
  rewrite (nth_indep _ 0 (m (a + Z.of_nat 0))), (nth_indep (map _ (seq 0 k)) 0
    (m (a + Z.of_nat n + Z.of_nat 0))) by (rewrite length_map, length_seq; done).
  rewrite (map_nth (fun i => m (a + Z.of_nat i)) (seq n k) O).
  rewrite (map_nth (fun i => m (a + Z.of_nat n + Z.of_nat i)) (seq 0 k) O).
  rewrite !seq_nth by done; f_equal; lia.
Qed.

Lemma read_bytes_ext a n m m' :
  (forall i, (i < n)%nat -> m (a + Z.of_nat i) = m' (a + Z.of_nat i)) ->
  read_bytes a n m = read_bytes a n m'.
Proof.
  intros H; unfold read_bytes; apply map_ext_in; intros i Hi.
  apply in_seq in Hi; apply H; lia.
Qed.

(** What was written is read back; a write elsewhere does not disturb a read. *)
Lemma read_write_same a bs m : read_bytes a (length bs) (write_bytes a bs m) = bs.
Proof.
  apply nth_ext with (d := 0) (d' := 0); rewrite read_bytes_length; [done|]; intros i Hi.
  unfold read_bytes.
  rewrite (nth_indep _ 0 (write_bytes a bs m (a + Z.of_nat 0)))
    by (rewrite length_map, length_seq; done).
  rewrite (map_nth (fun i => write_bytes a bs m (a + Z.of_nat i)) (seq 0 (length bs)) O).
  rewrite seq_nth by done; unfold write_bytes.
  rewrite (proj2 (Z.leb_le _ _)), (proj2 (Z.ltb_lt _ _)) by lia; simpl; f_equal; lia.
Qed.

Lemma read_write_apart a n b bs m :
  apart a n b (length bs) -> read_bytes a n (write_bytes b bs m) = read_bytes a n m.
Proof.
  intros Hd; apply read_bytes_ext; intros i Hi; unfold write_bytes.
  destruct (Z.leb_spec b (a + Z.of_nat i)), (Z.ltb_spec (a + Z.of_nat i) (b + Z.of_nat (length bs)));
    simpl; try done; unfold apart in Hd; lia.
Qed.

(** A part of a known range. *)
Lemma read_bytes_slice a n k j m bs :
  read_bytes a n m = bs -> (k + j <= n)%nat ->
  read_bytes (a + Z.of_nat k) j m = slice k j bs.
Proof.
  intros <- Hk; unfold slice.
  replace n with (k + (j + (n - k - j)))%nat by lia.
  rewrite read_bytes_app, drop_app_length' by (rewrite read_bytes_length; done).
  rewrite read_bytes_app, take_app_length' by (rewrite read_bytes_length; done); done.
Qed.

(** * Encodings are read back *)

Definition header_ok (c : common_header) : Prop :=
  0 <= header c < 2 ^ 16 /\ 0 <= opcode c < 2 ^ 16 /\ 0 <= count c < 2 ^ 16 /\
  0 <= distribute c < 2 ^ 8 /\ 0 <= indirect c < 2 ^ 8.

Definition exec_buf_ok (e : exec_buf) : Prop :=
  0 <= cu_index e < 2 ^ 16 /\ 0 <= reserved0 e < 2 ^ 16 /\
  0 <= dpu_control_code_host_addr_low e < 2 ^ 32 /\
  0 <= dpu_control_code_host_addr_high e < 2 ^ 32 /\
  0 <= args_len e < 2 ^ 16 /\ 0 <= reserved1 e < 2 ^ 16 /\
  0 <= args_host_addr_low e < 2 ^ 32 /\ 0 <= args_host_addr_high e < 2 ^ 32.

Lemma enc_common_header_length c : length (enc_common_header c) = 8%nat.
Proof. reflexivity. Qed.
Lemma enc_exec_buf_length e : length (enc_exec_buf e) = 24%nat.
Proof. reflexivity. Qed.
Lemma enc_entry_length e : length (enc_entry e) = 8%nat.
Proof. reflexivity. Qed.

Lemma le_bytes_field (k n : nat) (z : Z) (bs : list Z) :
  slice k n bs = le_bytes n z -> field k n bs = wrap_u (8 * Z.of_nat n) z.
Proof.
  unfold field, wrap_u; intros ->; rewrite le_val_bytes; f_equal.
  rewrite Z.pow_mul_r by lia; done.
Qed.

Lemma dec_enc_common_header c rest :
  header_ok c -> dec_common_header (enc_common_header c ++ rest) = c.
Proof.
  intros (H1 & H2 & H3 & H4 & H5); unfold dec_common_header.
  rewrite (le_bytes_field 0 2 (header c)), (le_bytes_field 2 2 (opcode c)),
    (le_bytes_field 4 2 (count c)), (le_bytes_field 6 1 (distribute c)),
    (le_bytes_field 7 1 (indirect c)) by reflexivity.
  rewrite !wrap_u_small by (simpl Z.of_nat; lia); destruct c; done.
Qed.

Lemma dec_enc_exec_buf e rest :
  exec_buf_ok e -> dec_exec_buf (enc_exec_buf e ++ rest) = e.
Proof.
  intros (H1 & H2 & H3 & H4 & H5 & H6 & H7 & H8); unfold dec_exec_buf.
  rewrite (le_bytes_field 0 2 (cu_index e)), (le_bytes_field 2 2 (reserved0 e)),
    (le_bytes_field 4 4 (dpu_control_code_host_addr_low e)),
    (le_bytes_field 8 4 (dpu_control_code_host_addr_high e)),
    (le_bytes_field 12 2 (args_len e)), (le_bytes_field 14 2 (reserved1 e)),
    (le_bytes_field 16 4 (args_host_addr_low e)),
    (le_bytes_field 20 4 (args_host_addr_high e)) by reflexivity.
  rewrite !wrap_u_small by (simpl Z.of_nat; lia); destruct e; done.
Qed.

Lemma wrap_u_add_high w a b : 0 <= w -> wrap_u w (a + b * 2 ^ w) = wrap_u w a.
Proof. intros; apply Z.mod_add, Z.pow_nonzero; lia. Qed.

Lemma dec_enc_entry e rest :
  0 <= host_addr_low e < 2 ^ 32 ->
  dec_entry (enc_entry e ++ rest) =
  {| host_addr_low := host_addr_low e; host_addr_high := wrap_u 25 (host_addr_high e);
     uc_index := wrap_u 7 (uc_index e) |}.
Proof.
  intros H; unfold dec_entry.
  pose proof (wrap_u_range 25 (host_addr_high e) ltac:(lia)) as Hh.
  pose proof (wrap_u_range 7 (uc_index e) ltac:(lia)) as Hu.
  set (w := Z.lor (wrap_u 25 (host_addr_high e)) (Z.shiftl (wrap_u 7 (uc_index e)) 25)).
  assert (Hw : w = wrap_u 25 (host_addr_high e) + wrap_u 7 (uc_index e) * 2 ^ 25)
    by (apply lor_shiftl_add; lia).
  rewrite (le_bytes_field 0 4 (host_addr_low e)), (le_bytes_field 4 4 w) by reflexivity.
  rewrite (wrap_u_small _ (host_addr_low e)), (wrap_u_small _ w) by (simpl Z.of_nat; lia).
  f_equal; rewrite Hw.
  - rewrite wrap_u_add_high, wrap_u_idemp by lia; done.
  - rewrite Z.shiftr_div_pow2, Z.div_add, Z.div_small by lia; lia.
Qed.

(** ** Addresses of indirect entries *)

(** [src/cert_host.cc:398-400] [cert_api::submit_command] how the host fills an entry for
    a device address: 32 bits of the high word, but only the low 25 bits of the low word. *)
Definition entry_for (col a : Z) : host_indirect_packet_entry :=
  {| host_addr_low := u32 (Z.land a (2 ^ 25 - 1));
     host_addr_high := u32 (Z.land (Z.shiftr a 32) 0xFFFFFFFF);
     uc_index := u32 col |}.

(** [src/cert_host.cc:489-493] [cert_api::submit_command] the address of the first level in
    the two-level case keeps 32 bits. *)
Definition first_entry_for (a : Z) : host_indirect_packet_entry :=
  {| host_addr_low := u32 (Z.land a 0xFFFFFFFF);
     host_addr_high := u32 (Z.land (Z.shiftr a 32) 0xFFFFFFFF);
     uc_index := 0 |}.

Lemma land_ones_mod a w : 0 <= w -> Z.land a (2 ^ w - 1) = a mod 2 ^ w.
Proof.
  intros; replace (2 ^ w - 1) with (Z.ones w) by (rewrite Z.ones_equiv; lia).
  apply Z.land_ones; done.
Qed.

Lemma dec_entry_for col a rest :
  0 <= a < 2 ^ 64 ->
  dec_entry (enc_entry (entry_for col a) ++ rest) =
  {| host_addr_low := a mod 2 ^ 25; host_addr_high := (a / 2 ^ 32) mod 2 ^ 25;
     uc_index := wrap_u 7 col |}.
Proof.
  intros Ha; unfold entry_for; rewrite land_ones_mod by lia.
  change 0xFFFFFFFF with (2 ^ 32 - 1); rewrite land_ones_mod, Z.shiftr_div_pow2 by lia.
  pose proof (Z.mod_pos_bound a (2 ^ 25) ltac:(lia)).
  assert (0 <= a / 2 ^ 32 < 2 ^ 32) by (split; [apply Z.div_pos|apply Z.div_lt_upper_bound]; lia).
  rewrite dec_enc_entry; cbn [host_addr_low host_addr_high uc_index].
  2: { rewrite wrap_u_small; lia. }
  rewrite !(wrap_u_small 32 (_ mod _)), (Z.mod_small (a / 2 ^ 32) (2 ^ 32)) by lia.
  f_equal; unfold wrap_u; apply Z.mod_mod_divide;
    [exists (2 ^ 7)|exists (2 ^ 25)]; reflexivity.
Qed.

Lemma entry_addr_for col a rest :
  0 <= a < 2 ^ 57 -> a mod 2 ^ 32 < 2 ^ 25 ->
  entry_addr (dec_entry (enc_entry (entry_for col a) ++ rest)) = a.
Proof.
  intros Ha Hlo; rewrite dec_entry_for by lia; unfold entry_addr; cbn [host_addr_low host_addr_high].
  pose proof (Z.div_mod a (2 ^ 32) ltac:(lia)) as E.
  assert (E2 : a mod 2 ^ 25 = (a mod 2 ^ 32) mod 2 ^ 25).
  { symmetry; apply Z.mod_mod_divide; exists (2 ^ 7); reflexivity. }
  pose proof (Z.mod_pos_bound a (2 ^ 32) ltac:(lia)).
  rewrite E2, (Z.mod_small (a mod 2 ^ 32)), (Z.mod_small (a / 2 ^ 32)); [lia| |lia].
  split; [apply Z.div_pos|apply Z.div_lt_upper_bound]; lia.
Qed.

(** C39: the address an entry decodes to is the one it was filled with exactly when the low
    word of the address is below 2^25 and the address below 2^57; for any other
    address the firmware looks for the column's packet elsewhere. *)
Theorem indirect_address_exact col a rest :
  0 <= a < 2 ^ 64 ->
  entry_addr (dec_entry (enc_entry (entry_for col a) ++ rest)) = a <->
  a mod 2 ^ 32 < 2 ^ 25 /\ a < 2 ^ 57.
Proof.
  intros Ha; split; [|intros [Hlo Hhi]; apply entry_addr_for; lia].
  rewrite dec_entry_for by done; unfold entry_addr; cbn [host_addr_low host_addr_high].
  intros E; pose proof (Z.mod_pos_bound a (2 ^ 25) ltac:(lia)).
  pose proof (Z.mod_pos_bound (a / 2 ^ 32) (2 ^ 25) ltac:(lia)).
  split; [|lia]; rewrite <- E, Z.mod_add, Z.mod_small by lia; lia.
Qed.

Lemma indirect_address_exact_witness :
  entry_addr (dec_entry (enc_entry (entry_for 3 0x3000))) = 0x3000 /\
  entry_addr (dec_entry (enc_entry (entry_for 3 0x80001000))) <> 0x80001000.
Proof.
  pose proof (indirect_address_exact 3 0x3000 [] ltac:(lia)) as H1.
  pose proof (indirect_address_exact 3 0x80001000 [] ltac:(lia)) as H2.
  rewrite app_nil_r in H1, H2; split.
  - apply H1; split; reflexivity.
  - intros E; apply H2 in E as [E _]; vm_compute in E; discriminate.
Defined.

Lemma dec_first_entry_for a rest :
  0 <= a < 2 ^ 57 -> entry_addr (dec_entry (enc_entry (first_entry_for a) ++ rest)) = a.
Proof.
  intros Ha; unfold first_entry_for.
  change 0xFFFFFFFF with (2 ^ 32 - 1); rewrite !land_ones_mod, Z.shiftr_div_pow2 by lia.
  pose proof (Z.mod_pos_bound a (2 ^ 32) ltac:(lia)).
  pose proof (Z.div_mod a (2 ^ 32) ltac:(lia)).
  assert (0 <= a / 2 ^ 32 < 2 ^ 25) by (split; [apply Z.div_pos|apply Z.div_lt_upper_bound]; lia).
  rewrite (Z.mod_small (a / 2 ^ 32)), !(wrap_u_small 32) by lia.
  rewrite dec_enc_entry by (cbn; lia); unfold entry_addr; cbn [host_addr_low host_addr_high].
  rewrite wrap_u_small by lia; lia.
Qed.
