(* ===== verification/CertHost.v ===== *)
(** The host side of the control firmware ([cert_api], [src/cert_host.cc],
    [src/include/cert_host.h]): loading and waking the microcontrollers, the handshake
    and the submission of commands through the host queue.

    The control code of a command comes from the ELF loader (CertElf.v) as one byte sequence per
    column; it is an argument here.  Pointers are addresses, null is zero; the stores to
    one structure between two calls are one store of its bytes.  Log output is left out,
    except for the arguments of log calls that insert into a map or read volatile memory. *)
From stdpp Require Import base list gmap.
From Stdlib Require Import ZArith Lia.
From S2P Require Import Prelude Driver HostQueue.
Local Open Scope Z_scope.
Local Open Scope aeg_scope.

(** * State *)

(** The fields of [XAie_DevInst] the code reads. *)
Record dev_inst := { StartCol : Z; NumCols : Z; ColShift : Z }.

(** [src/include/cert_host.h:13-13] [HSA_QUEUE_ENTRY] *)
Definition HSA_QUEUE_ENTRY : Z := 32.
(** [src/include/cert_host.h:16-20] [hsa_queue]
    Offset of an entry, and the size with the trailing pointer. *)
Definition off_hq_entry (i : Z) : Z := sizeof_host_queue_header + sizeof_host_queue_packet * i.
Definition sizeof_hsa_queue : Z := off_hq_entry HSA_QUEUE_ENTRY + 8.

(** [src/include/cert_host.h:23-55] [cert_api]
    [external_buffer_map] is in key order, as [std::map] iterates. *)
Record cert_api := mkCert {
  external_buffer_map : list (Z * Z);
  external_buffer_addr_map : gmap Z Z;
  DevInst : dev_inst;
  host_args_low : Z;
  host_args_high : Z;
  host_args_meminst : Z;
  hsa_meminst : Z;
  comp_sig_meminst : Z
}.

(** [src/cert_host.cc:20-22] [cert_api::cert_api] *)
Definition cert_api_new (d : dev_inst) : cert_api := mkCert [] ∅ d 0 0 0 0 0.

(** [src/cert_host.cc:35-38] [cert_api::init_devinst] *)
Definition init_devinst (d : dev_inst) (c : cert_api) : cert_api :=
  mkCert (external_buffer_map c) (external_buffer_addr_map c) d (host_args_low c)
    (host_args_high c) (host_args_meminst c) (hsa_meminst c) (comp_sig_meminst c).

Definition set_insts (hsa comp : Z) (c : cert_api) : cert_api :=
  mkCert (external_buffer_map c) (external_buffer_addr_map c) (DevInst c) (host_args_low c)
    (host_args_high c) (host_args_meminst c) hsa comp.
Definition set_host_args (low high mi : Z) (c : cert_api) : cert_api :=
  mkCert (external_buffer_map c) (external_buffer_addr_map c) (DevInst c) low high mi
    (hsa_meminst c) (comp_sig_meminst c).
Definition set_addr_map (m : gmap Z Z) (c : cert_api) : cert_api :=
  mkCert (external_buffer_map c) m (DevInst c) (host_args_low c)
    (host_args_high c) (host_args_meminst c) (hsa_meminst c) (comp_sig_meminst c).

(** The column loop [for (i = start; i < start + n; ++i)]. *)
Definition columns (start n : Z) : list Z := map (fun i => start + Z.of_nat i) (seq 0 (Z.to_nat n)).
Definition part_columns (c : cert_api) : list Z := columns (StartCol (DevInst c)) (NumCols (DevInst c)).

(** [XAie_LocType Loc = {0, col}] *)
Definition uc_loc (col : Z) : loc := mkLoc (u8 col) 0.

Definition hi32 (a : Z) : Z := u32 (Z.land (Z.shiftr a 32) 0xFFFFFFFF).
Definition lo32 (a : Z) : Z := u32 (Z.land a 0xFFFFFFFF).

(** The code of the columns, in key order. *)
Abbreviation ccode := (list (Z * list Z)).

Section Operations.
Context `{rt : AieRt}.

(** [src/cert_host.cc:24-33] [cert_api::~cert_api] *)
Definition cert_api_delete (c : cert_api) : M cert_api :=
  (if negb (hsa_meminst c =? 0) then exec_ (XAie_MemFree (hsa_meminst c)) else ret tt) ;;;
  (if negb (comp_sig_meminst c =? 0) then exec_ (XAie_MemFree (comp_sig_meminst c)) else ret tt) ;;;
  ret (set_insts 0 0 c).

(** ** Microcontrollers *)

(** [src/cert_host.cc:40-53] [cert_api::wakeup_cert(uint32_t)] *)
Definition wakeup_cert_col (col : Z) : M Z :=
  exec_ (uc_tile_type (uc_loc col)) ;;;
  r <-- exec (uc_wakeup (uc_loc col)) ;;
  ret (s32 (rc r)).

(** [src/cert_host.cc:55-65] [cert_api::wakeup_cert()] *)
Definition wakeup_cert (c : cert_api) : M Z :=
  r <-- for_each (fun col acc => r <-- wakeup_cert_col col ;; ret (Z.lor acc (u32 r)))
          (part_columns c) 0 ;;
  ret (s32 r).

(** [src/cert_host.cc:82-116] [cert_api::load_cert(uint32_t)]
    [cert_elf_len] is the size of the firmware image linked into the program. *)
Definition load_cert_col (cert_elf_len col : Z) : M Z :=
  exec_ (uc_tile_type (uc_loc col)) ;;;
  if cert_elf_len =? 0 then ret (-1)
  else
    exec_ (uc_core_status (uc_loc col)) ;;;
    exec_ (XAie_LoadUcMem (uc_loc col)) ;;;
    exec_ (uc_core_status (uc_loc col)) ;;;
    ret 0.

(** [src/cert_host.cc:72-79] [cert_api::load_cert()] the loop *)
Fixpoint load_cert_cols (cert_elf_len : Z) (cols : list Z) : M Z :=
  match cols with
  | [] => ret 0
  | col :: cols =>
      r <-- load_cert_col cert_elf_len col ;;
      if negb (r =? 0) then ret r else load_cert_cols cert_elf_len cols
  end.
(** [src/cert_host.cc:67-80] [cert_api::load_cert()] over the columns of the partition *)
Definition load_cert (cert_elf_len : Z) (c : cert_api) : M Z :=
  load_cert_cols cert_elf_len (part_columns c).

(** [src/cert_host.cc:118-133] [cert_api::run_cert] *)
Definition run_cert_pass (c : cert_api) : M unit :=
  for_each (fun col _ => exec_ (uc_tile_type (uc_loc col)) ;;; exec_ (uc_core_status (uc_loc col)))
    (part_columns c) tt.
Fixpoint run_cert (cycles : nat) (c : cert_api) : M unit :=
  match cycles with
  | O => ret tt
  | S cycles => run_cert_pass c ;;; run_cert cycles c
  end.

(** ** The handshake *)

(** [src/cert_host.cc:226-234] [cert_api::parse_host_args] the loop: [operator[]] inserts a
    zero address for an unknown buffer. *)
Fixpoint host_arg_words (entries : list (Z * Z)) (m : gmap Z Z) : list Z * gmap Z Z :=
  match entries with
  | [] => ([], m)
  | (_, sim_id) :: entries =>
      let addr := default 0 (m !! sim_id) in
      let '(ws, m') := host_arg_words entries (<[sim_id := addr]> m) in
      (hi32 addr :: lo32 addr :: ws, m')
  end.

(** [src/cert_host.cc:202-247] [cert_api::parse_host_args] *)
Definition parse_host_args (c : cert_api) : M cert_api :=
  match external_buffer_map c with
  | [] => ret (set_host_args 0 0 0 c)
  | entries =>
      r <-- exec (mem_allocate_inst (Z.of_nat (length entries) * 8)) ;;
      let mi := out r in
      if mi =? 0 then ret (set_host_args 0 0 0 c)
      else
        v <-- exec (XAie_MemGetVAddr mi) ;;
        let '(ws, m) := host_arg_words entries (external_buffer_addr_map c) in
        exec_ (cpu_store (out v) (flat_map (le_bytes 4) ws)) ;;;
        d <-- exec (XAie_MemGetDevAddr mi) ;;
        s <-- exec (XAie_MemSyncForDev mi) ;;
        let c := set_addr_map m c in
        if negb (rc s =? XAIE_OK) then ret (set_host_args 0 0 0 c)
        else ret (set_host_args (lo32 (out d)) (hi32 (out d)) mi c)
  end.

(** [src/cert_host.cc:169-188] [cert_api::init_handshake] the block of a column: only the
    first column, the leader, is given the queue. *)
Definition handshake_for (d : dev_inst) (hsa_q_dma_addr : Z) (col_idx : Z) : handshake_t :=
  {| mpaie_alive := ALIVE_MAGIC;
     partition_base_address := u32 (Z.shiftl (StartCol d) (ColShift d));
     partition_size := NumCols d;
     hsa_addr_high := if col_idx =? 0 then hi32 hsa_q_dma_addr else 0xFFFFFFFF;
     hsa_addr_low := if col_idx =? 0 then lo32 hsa_q_dma_addr else 0xFFFFFFFF |}.

(** [src/cert_host.cc:135-200] [cert_api::init_handshake] *)
Definition init_handshake (c : cert_api) : M (Z * cert_api) :=
  r <-- exec (mem_allocate_inst sizeof_hsa_queue) ;;
  let hsa := out r in
  if hsa =? 0 then ret (-1, set_insts 0 (comp_sig_meminst c) c)
  else
    r <-- exec (mem_allocate_inst (4 * HSA_QUEUE_ENTRY)) ;;
    let comp := out r in
    if comp =? 0 then
      exec_ (XAie_MemFree hsa) ;;;
      ret (-12, set_insts 0 0 c)
    else
      let c := set_insts hsa comp c in
      cv <-- exec (XAie_MemGetVAddr comp) ;;
      exec_ (cpu_store (out cv) (replicate (Z.to_nat (4 * HSA_QUEUE_ENTRY)) 0)) ;;;
      q <-- exec (XAie_MemGetVAddr hsa) ;;
      exec_ (cpu_store (out q) (replicate (Z.to_nat sizeof_hsa_queue) 0)) ;;;
      qd <-- exec (XAie_MemGetDevAddr hsa) ;;
      exec_ (cpu_store (out q + off_capacity) (le_bytes 4 HSA_QUEUE_ENTRY)) ;;;
      exec_ (cpu_store (out q + off_data_address) (le_bytes 8 (u64 (out qd + off_hq_entry 0)))) ;;;
      exec_ (XAie_MemSyncForDev hsa) ;;;
      for_each (fun col _ =>
          exec_ (XAie_DataMemBlockWrite (uc_loc col) 0
                   (enc_handshake (handshake_for (DevInst c) (out qd) col))
                   (Z.of_nat sizeof_handshake)))
        (columns 0 (NumCols (DevInst c))) tt ;;;
      c <-- parse_host_args c ;;
      ret (0, c).

(** ** Submitting a command *)

(** Where the next packet goes: the queue, the write index and the completion word, at its
    address on the host and on the device. *)
Record slot := { hsa_q : Z; write_index : Z; comp_sig_va : Z; comp_sig_dma : Z }.
Definition hq_entry (s : slot) : Z := hsa_q s + off_hq_entry (write_index s).

(** [src/cert_host.cc:252-274] [cert_api::submit_command] the part before the packet.
    Indexing the entries beyond the array is undefined. *)
Definition open_slot (c : cert_api) : M slot :=
  q <-- exec (XAie_MemGetVAddr (hsa_meminst c)) ;;
  exec_ (XAie_MemGetDevAddr (hsa_meminst c)) ;;;
  exec_ (XAie_MemSyncForCPU (hsa_meminst c)) ;;;
  w <-- exec (cpu_load (out q + off_write_index) 8) ;;
  let wi := u64 (out w) in
  if HSA_QUEUE_ENTRY <=? wi then undefined
  else
    v <-- exec (XAie_MemGetVAddr (comp_sig_meminst c)) ;;
    d <-- exec (XAie_MemGetDevAddr (comp_sig_meminst c)) ;;
    exec_ (XAie_MemSyncForCPU (comp_sig_meminst c)) ;;;
    exec_ (cpu_store (out v + 4 * wi) (le_bytes 4 0)) ;;;
    exec_ (XAie_MemSyncForDev (comp_sig_meminst c)) ;;;
    wakeup_cert c ;;;
    ret {| hsa_q := out q; write_index := wi; comp_sig_va := out v + 4 * wi;
           comp_sig_dma := u64 (out d + 4 * wi) |}.

(** [src/cert_host.cc:329-334] [cert_api::submit_command] making a packet visible, the same
    in every case: the queue is synchronised before and after the index moves. *)
Definition ring (c : cert_api) (s : slot) : M unit :=
  exec_ (XAie_MemSyncForDev (hsa_meminst c)) ;;;
  exec_ smp_wmb ;;;
  exec_ (cpu_store (hsa_q s + off_write_index)
           (le_bytes 8 (Z.land (u64 (write_index s + 1)) (HSA_QUEUE_ENTRY - 1)))) ;;;
  exec_ (XAie_MemSyncForDev (hsa_meminst c)).

(** [src/cert_host.cc:336-340] [cert_api::submit_command] waiting for the completion word *)
Fixpoint wait_completion (fuel : nat) (cycles : nat) (c : cert_api) (s : slot) : M unit :=
  match fuel with
  | O => out_of_fuel
  | S fuel =>
      exec_ (XAie_MemSyncForCPU (comp_sig_meminst c)) ;;;
      exec_ (cpu_load (comp_sig_va s) 4) ;;;
      run_cert cycles c ;;;
      r <-- exec (cpu_load (comp_sig_va s) 4) ;;
      if u32 (out r) =? 0 then wait_completion fuel cycles c s else ret tt
  end.

(** [src/cert_host.cc:567-567] [cert_api::submit_command] the result *)
Definition completion_result (s : slot) : M Z :=
  r <-- exec (cpu_load (comp_sig_va s) 4) ;;
  if u32 (out r) =? HSA_COMP_SUCCESS then ret 0
  else r <-- exec (cpu_load (comp_sig_va s) 4) ;; ret (s32 (u32 (out r))).

(** [src/cert_host.cc:534-543] [cert_api::submit_command] the work of a column whose code is at
    device address [a] *)
Definition exec_buf_for (c : cert_api) (a : Z) : exec_buf :=
  let args := negb (bool_decide (external_buffer_map c = [])) in
  {| cu_index := 0; reserved0 := 0;
     dpu_control_code_host_addr_low := lo32 a; dpu_control_code_host_addr_high := hi32 a;
     args_len := if args then u16 (Z.of_nat (length (external_buffer_map c)) * 8) else 0;
     reserved1 := 0;
     args_host_addr_low := if args then host_args_low c else 0;
     args_host_addr_high := if args then host_args_high c else 0 |}.

Definition exec_header (count distribute indirect : Z) : common_header :=
  {| header := HOST_QUEUE_PACKET_TYPE_VENDOR_SPECIFIC; opcode := HOST_QUEUE_PACKET_EXEC_BUF;
     count := u16 count; distribute := distribute; indirect := indirect |}.

Definition code_size (cols : ccode) : Z := Z.of_nat (length (flat_map snd cols)).

(** [src/cert_host.cc:278-280] [cert_api::submit_command] the log call evaluates [cols[0]], which
    inserts an empty column 0 into a map that lacks it. *)
Definition touch_col0 (cols : ccode) : ccode :=
  match cols with
  | [] => []
  | _ => if bool_decide (0 ∈ map fst cols) then cols
         else List.filter (fun p => fst p <? 0) cols ++
              (0, []) :: List.filter (fun p => 0 <? fst p) cols
  end.

Definition code_of (col : Z) (cols : ccode) : list Z :=
  match List.find (fun p => fst p =? col) cols with Some p => snd p | None => [] end.

(** [src/cert_host.cc:286-328] [cert_api::submit_command] case 1: the work in the packet.
    [None]: the command failed with -1. *)
Definition direct_packet (c : cert_api) (s : slot) (cols : ccode) : M (option (list Z)) :=
  let code := code_of 0 cols in
  r <-- exec (mem_allocate_inst (Z.of_nat (length code))) ;;
  let mi := out r in
  v <-- exec (XAie_MemGetVAddr mi) ;;
  d <-- exec (XAie_MemGetDevAddr mi) ;;
  if out v =? 0 then ret None
  else
    exec_ (cpu_store (out v) code) ;;;
    exec_ (XAie_MemSyncForDev mi) ;;;
    exec_ (cpu_store (hq_entry s)
             (enc_packet (exec_header sizeof_exec_buf 0 0) (comp_sig_dma s)
                (enc_exec_buf (exec_buf_for c (out d))))) ;;;
    ret (Some [mi]).

(** [src/cert_host.cc:388-427] [cert_api::submit_command] the loop over the columns: the code, the
    entry that points to the column's packet, and the packet itself. *)
Fixpoint emit_columns (c : cert_api) (ctrl indirect entry_va entry_dma ctrl_size : Z)
    (cols : ccode) : M unit :=
  match cols with
  | [] => ret tt
  | (col, code) :: cols =>
      v <-- exec (XAie_MemGetVAddr ctrl) ;;
      d <-- exec (XAie_MemGetDevAddr ctrl) ;;
      exec_ (cpu_store (out v + ctrl_size) code) ;;;
      exec_ (cpu_store indirect (enc_entry (entry_for col entry_dma))) ;;;
      exec_ (cpu_store entry_va
               (enc_common_header (exec_header sizeof_exec_buf 1 0) ++
                enc_exec_buf (exec_buf_for c (u64 (out d + ctrl_size))))) ;;;
      emit_columns c ctrl (indirect + sizeof_indirect_entry)
        (entry_va + sizeof_common_header + sizeof_exec_buf)
        (u64 (entry_dma + sizeof_common_header + sizeof_exec_buf))
        (ctrl_size + Z.of_nat (length code)) cols
  end.

(** [src/cert_host.cc:354-375] [cert_api::submit_command] the memory of the indirect cases: the
    entries and the code; [None] when one of them cannot be had. *)
Definition alloc_indirect (entry_size : Z) (cols : ccode) : M (option (Z * Z * Z * Z)) :=
  r <-- exec (mem_allocate_inst entry_size) ;;
  let entry := out r in
  v <-- exec (XAie_MemGetVAddr entry) ;;
  d <-- exec (XAie_MemGetDevAddr entry) ;;
  if entry =? 0 then ret None
  else
    r <-- exec (mem_allocate_inst (code_size cols)) ;;
    let ctrl := out r in
    if ctrl =? 0 then exec_ (XAie_MemFree entry) ;;; ret None
    else ret (Some (entry, out v, u64 (out d), ctrl)).

(** [src/cert_host.cc:341-429] [cert_api::submit_command] case 3: the entries in the packet *)
Definition indirect_packet (c : cert_api) (s : slot) (cols : ccode) : M (option (list Z)) :=
  let n := Z.of_nat (length cols) in
  a <-- alloc_indirect (n * (sizeof_common_header + sizeof_exec_buf)) cols ;;
  match a with
  | None => ret None
  | Some (entry, entry_va, entry_dma, ctrl) =>
      exec_ (cpu_store (hq_entry s)
               (enc_packet (exec_header (n * sizeof_indirect_entry) 1 1) (comp_sig_dma s) [])) ;;;
      emit_columns c ctrl (hq_entry s + sizeof_xrt_packet_header) entry_va entry_dma 0 cols ;;;
      exec_ (XAie_MemSyncForDev ctrl) ;;;
      exec_ (XAie_MemSyncForDev entry) ;;;
      ret (Some [ctrl; entry])
  end.

(** [src/cert_host.cc:444-551] [cert_api::submit_command] case 4: one entry in the packet leads to
    the entries.  The first header of the second level is not cleared: only its fields
    are stored, the other bits of its first word stay as the memory was. *)
Definition indirect2_packet (c : cert_api) (s : slot) (cols : ccode) : M (option (list Z)) :=
  let n := Z.of_nat (length cols) in
  a <-- alloc_indirect (sizeof_common_header +
          n * (sizeof_indirect_entry + sizeof_common_header + sizeof_exec_buf)) cols ;;
  match a with
  | None => ret None
  | Some (entry, entry_va, entry_dma, ctrl) =>
      exec_ (cpu_store (hq_entry s)
               (enc_packet (exec_header sizeof_indirect_entry 1 1) (comp_sig_dma s) [])) ;;;
      exec_ (cpu_store (hq_entry s + sizeof_xrt_packet_header)
               (enc_entry (first_entry_for entry_dma))) ;;;
      exec_ (cpu_store entry_va [HOST_QUEUE_PACKET_TYPE_VENDOR_SPECIFIC]) ;;;
      exec_ (cpu_store (entry_va + 2) (le_bytes 2 HOST_QUEUE_PACKET_EXEC_BUF)) ;;;
      exec_ (cpu_store (entry_va + 4) (le_bytes 2 (u16 (n * sizeof_indirect_entry)))) ;;;
      exec_ (cpu_store (entry_va + 6) [1]) ;;;
      exec_ (cpu_store (entry_va + 7) [1]) ;;;
      let skip := sizeof_common_header + n * sizeof_indirect_entry in
      emit_columns c ctrl (entry_va + sizeof_common_header) (entry_va + skip)
        (u64 (entry_dma + skip)) 0 cols ;;;
      exec_ (XAie_MemSyncForDev ctrl) ;;;
      exec_ (XAie_MemSyncForDev entry) ;;;
      ret (Some [ctrl; entry])
  end.

(** [src/cert_host.cc:281-285] [cert_api::submit_command] the packet of a command, by its
    number of columns *)
Definition build_packet (c : cert_api) (s : slot) (cols : ccode) : M (option (list Z)) :=
  let n := Z.of_nat (length cols) in
  if (24 <? n) || (n =? 0) then ret None
  else if n =? 1 then direct_packet c s cols
  else if n <=? HSA_MAX_LEVEL1_INDIRECT_ENTRIES then indirect_packet c s cols
  else indirect2_packet c s cols.

(** [src/cert_host.cc:249-568] [cert_api::submit_command]
    [cols] is what the loader parsed from the control ELF. *)
Definition submit_command (fuel : nat) (c : cert_api) (cols : ccode) : M Z :=
  s <-- open_slot c ;;
  p <-- build_packet c s (touch_col0 cols) ;;
  match p with
  | None => ret (-1)
  | Some insts =>
      ring c s ;;;
      wait_completion fuel (Z.to_nat 0xffffff) c s ;;;
      for_each (fun mi _ => exec_ (XAie_MemFree mi)) insts tt ;;;
      completion_result s
  end.

(** [src/cert_host.cc:570-609] [cert_api::submit_test_command] *)
Definition submit_test_command (fuel : nat) (c : cert_api) : M Z :=
  q <-- exec (XAie_MemGetVAddr (hsa_meminst c)) ;;
  exec_ (XAie_MemSyncForCPU (hsa_meminst c)) ;;;
  w <-- exec (cpu_load (out q + off_write_index) 8) ;;
  let wi := u64 (out w) in
  v <-- exec (XAie_MemGetVAddr (comp_sig_meminst c)) ;;
  exec_ (XAie_MemSyncForCPU (comp_sig_meminst c)) ;;;
  exec_ (cpu_store (out v + 4 * wi) (le_bytes 4 0)) ;;;
  exec_ (XAie_MemSyncForDev (comp_sig_meminst c)) ;;;
  d <-- exec (XAie_MemGetDevAddr (comp_sig_meminst c)) ;;
  if HSA_QUEUE_ENTRY <=? wi then undefined
  else
    let s := {| hsa_q := out q; write_index := wi; comp_sig_va := out v + 4 * wi;
                comp_sig_dma := u64 (out d + 4 * wi) |} in
    exec_ (cpu_store (hq_entry s)
             (enc_packet {| header := HOST_QUEUE_PACKET_TYPE_VENDOR_SPECIFIC;
                            opcode := HOST_QUEUE_PACKET_TEST; count := 0;
                            distribute := 0; indirect := 0 |} (comp_sig_dma s) [])) ;;;
    ring c s ;;;
    wait_completion fuel (Z.to_nat 0xfff) c s ;;;
    completion_result s.
End Operations.

(** * Properties of loading and of the handshake *)

Definition args_ok (c : cert_api) : Prop :=
  0 <= host_args_low c < 2 ^ 32 /\ 0 <= host_args_high c < 2 ^ 32.

Definition block_writes : list call -> list call :=
  List.filter (fun k => match k with XAie_DataMemBlockWrite _ _ _ _ => true | _ => false end).

Lemma lo32_mod a : lo32 a = a mod 2 ^ 32.
Proof.
  unfold lo32; change 0xFFFFFFFF with (2 ^ 32 - 1); rewrite land_ones_mod by lia.
  apply wrap_u_small, Z.mod_pos_bound; lia.
Qed.

Lemma hi32_mod a : hi32 a = (a / 2 ^ 32) mod 2 ^ 32.
Proof.
  unfold hi32; change 0xFFFFFFFF with (2 ^ 32 - 1).
  rewrite land_ones_mod, Z.shiftr_div_pow2 by lia.
  apply wrap_u_small, Z.mod_pos_bound; lia.
Qed.

(** The two words of an address are its 64 bits. *)
Lemma hi_lo_word a : Z.lor (lo32 a) (Z.shiftl (hi32 a) 32) = u64 a.
Proof.
  rewrite lor_shiftl_add, lo32_mod, hi32_mod; [|lia|rewrite lo32_mod; apply Z.mod_pos_bound; lia].
  unfold wrap_u; change (2 ^ 64) with (2 ^ 32 * 2 ^ 32); rewrite Z.rem_mul_r by lia; lia.
Qed.

(** Only the leader is given the queue; the other columns are told they have none. *)
Lemma handshake_queue d qd col :
  HSA_QUEUE_ADDR (handshake_for d qd col) = if col =? 0 then u64 qd else SLAVE_HSA_ADDR.
Proof.
  unfold HSA_QUEUE_ADDR, handshake_for; cbn [hsa_addr_low hsa_addr_high].
  destruct (col =? 0); [apply hi_lo_word|reflexivity].
Qed.

Section Facts.
Context `{rt : AieRt}.

Lemma parse_host_args_eq c h :
  exists c' cs, parse_host_args c h = Some (c', after h cs) /\ block_writes cs = [] /\
    hsa_meminst c' = hsa_meminst c /\ comp_sig_meminst c' = comp_sig_meminst c /\
    DevInst c' = DevInst c /\ args_ok c'.
Proof.
  assert (Hr : forall a, 0 <= lo32 a < 2 ^ 32 /\ 0 <= hi32 a < 2 ^ 32).
  { intros a; rewrite lo32_mod, hi32_mod; split; apply Z.mod_pos_bound; lia. }
  unfold parse_host_args, args_ok; destruct (external_buffer_map c) as [|e l].
  { eexists _, []; rewrite after_nil; split; [reflexivity|]; simpl; repeat split; lia. }
  run_m; destruct (_ =? 0); [|run_m].
  { eexists _, _; split; [reflexivity|]; simpl; repeat split; lia. }
  destruct (host_arg_words _ _) as [ws m]; run_m.
  destruct (negb _); eexists _, _; (split; [reflexivity|]); simpl; repeat split;
    try lia; apply Hr.
Qed.

Lemma block_writes_app a b : block_writes (a ++ b) = block_writes a ++ block_writes b.
Proof. apply List.filter_app. Qed.

Lemma block_writes_map {A} (l : A -> loc) (d : A -> list Z) n (xs : list A) :
  block_writes (map (fun x => XAie_DataMemBlockWrite (l x) 0 (d x) n) xs) =
  map (fun x => XAie_DataMemBlockWrite (l x) 0 (d x) n) xs.
Proof. induction xs; simpl; congruence. Qed.

(** the handshake always returns.  Without memory for the queue it fails with -1, without
    memory for the completion words with -ENOMEM after giving the queue back, and the
    object then holds no instance.  Otherwise it returns 0, keeps both instances, leaves
    argument words that fit the packet, and writes one handshake block to every column in
    order: the first column is told the device address of the queue, the others that they have none. *)
Theorem init_handshake_outcomes c h :
  exists r c' cs, init_handshake c h = Some ((r, c'), after h cs) /\
    ((r = -1 /\ hsa_meminst c' = 0 /\ block_writes cs = []) \/
     (r = -12 /\ hsa_meminst c' = 0 /\ comp_sig_meminst c' = 0 /\
      exists q, cs = [mem_allocate_inst 2088; mem_allocate_inst 128; XAie_MemFree q] /\ q <> 0) \/
     (r = 0 /\ hsa_meminst c' <> 0 /\ comp_sig_meminst c' <> 0 /\ args_ok c' /\
      exists qd hs,
        block_writes cs =
          map (fun col => XAie_DataMemBlockWrite (uc_loc col) 0 (enc_handshake (hs col)) 184)
            (columns 0 (NumCols (DevInst c))) /\
        (forall col, mpaie_alive (hs col) = ALIVE_MAGIC /\
           HSA_QUEUE_ADDR (hs col) = if col =? 0 then u64 qd else SLAVE_HSA_ADDR))).
Proof.
  unfold init_handshake; run_m.
  destruct (Z.eqb_spec (out (drv h (mem_allocate_inst sizeof_hsa_queue))) 0) as [E|E].
  { eexists _, _, _; split; [reflexivity|]; left; done. }
  run_m; set (comp := out (drv (after h [mem_allocate_inst sizeof_hsa_queue])
                             (mem_allocate_inst (4 * HSA_QUEUE_ENTRY)))).
  destruct (Z.eqb_spec comp 0) as [E2|E2]; run_m.
  { eexists _, _, _; split; [reflexivity|]; right; left; simpl; eauto 10. }
  match goal with |- context [bind (parse_host_args ?c1) _ ?h1] =>
    destruct (parse_host_args_eq c1 h1) as (c' & cs & Hp & Hb & H1 & H2 & H3 & H4) end.
  rewrite (bind_Some _ _ _ _ _ Hp), after_app.
  eexists 0, c', _; split; [reflexivity|]; right; right.
  simpl in H1, H2; rewrite H1, H2; split; [done|split; [done|split; [done|split; [done|]]]].
  match goal with |- context [handshake_for _ ?q _] => exists q,
    (handshake_for (DevInst c) q) end.
  split; [|intros col; split; [done|apply handshake_queue]].
  rewrite !block_writes_app, Hb, app_nil_r, block_writes_map; reflexivity.
Qed.

(** The calls of loading one column. *)
Definition load_calls (col : Z) : list call :=
  [uc_tile_type (uc_loc col); uc_core_status (uc_loc col); XAie_LoadUcMem (uc_loc col);
   uc_core_status (uc_loc col)].

(** loading the firmware reports success exactly when there is an image (or no column);
    every column is loaded once, in order, and the code the driver returns for a load has no
    influence on the result. *)
Theorem load_cert_ignores_driver len c h :
  load_cert len c h =
  match part_columns c with
  | [] => Some (0, h)
  | col :: _ =>
      if len =? 0 then Some (-1, after h [uc_tile_type (uc_loc col)])
      else Some (0, after h (flat_map load_calls (part_columns c)))
  end.
Proof.
  unfold load_cert; destruct (part_columns c) as [|col cols]; [done|].
  destruct (len =? 0) eqn:El.
  - cbn [load_cert_cols]; unfold load_cert_col; rewrite El; run_m; done.
  - change (col :: cols) with ([col] ++ cols); generalize ([col] ++ cols); clear col cols.
    intros l; revert h; induction l as [|x l IH]; intros h; cbn [load_cert_cols flat_map].
    + rewrite after_nil; done.
    + assert (Hx : load_cert_col len x h = Some (0, after h (load_calls x)))
        by (unfold load_cert_col; rewrite El; run_m; done).
      rewrite (bind_Some _ _ _ _ _ Hx); simpl; rewrite IH, after_app; done.
Qed.
End Facts.
