(* ===== verification/CertDelivery.v ===== *)
(** What a submitted command delivers ([src/cert_host.cc], [submit_command]).

    The device sees shared memory as of its last synchronisation.  Following the packet the
    way [host_queue.h] describes it, the firmware reaches the code of every column:
    for one column in the packet itself, for up to six through entries in the packet, for up
    to 24 through a second level. *)
From stdpp Require Import base list gmap.
From Stdlib Require Import ZArith Lia.
From S2P Require Import Prelude Driver HostQueue CertHost.
Local Open Scope Z_scope.
Local Open Scope aeg_scope.

(** * Memory after a sequence of calls *)

Definition mem_step (m : mem) (c : call) : mem :=
  match c with cpu_store a bs => write_bytes a bs m | _ => m end.
Definition mem_of (m : mem) (cs : list call) : mem := fold_left mem_step cs m.

Lemma mem_of_app m cs cs' : mem_of m (cs ++ cs') = mem_of (mem_of m cs) cs'.
Proof. apply fold_left_app. Qed.

(** The driver keeps the addresses of a memory instance. *)
Class StableMem (rt : AieRt) := {
  va : Z -> Z;
  da : Z -> Z;
  va_eq : forall h mi, out (drv h (XAie_MemGetVAddr mi)) = va mi;
  da_eq : forall h mi, out (drv h (XAie_MemGetDevAddr mi)) = da mi
}.

Section Columns.
Context {rt : AieRt} {sm : StableMem rt}.

(** The calls of the column loop. *)
Fixpoint column_calls (c : cert_api) (ctrl ind eva edma off : Z) (cols : ccode) : list call :=
  match cols with
  | [] => []
  | (col, code) :: cols =>
      [XAie_MemGetVAddr ctrl; XAie_MemGetDevAddr ctrl;
       cpu_store (va ctrl + off) code;
       cpu_store ind (enc_entry (entry_for col edma));
       cpu_store eva (enc_common_header (exec_header 24 1 0) ++
                      enc_exec_buf (exec_buf_for c (u64 (da ctrl + off))))] ++
      column_calls c ctrl (ind + 8) (eva + 8 + 24) (u64 (edma + 8 + 24))
        (off + Z.of_nat (length code)) cols
  end.

Lemma emit_columns_eq c ctrl ind eva edma off cols h :
  emit_columns c ctrl ind eva edma off cols h =
  Some (tt, after h (column_calls c ctrl ind eva edma off cols)).
Proof.
  revert ind eva edma off h; induction cols as [|[col code] cols IH]; intros.
  - simpl; rewrite after_nil; done.
  - cbn [emit_columns column_calls]; run_m; rewrite !va_eq, !da_eq, IH, !after_app; done.
Qed.

(** The three ranges the loop writes. *)
Definition outside (a : Z) (k : nat) (ctrl ind eva off : Z) (cols : ccode) : Prop :=
  apart a k (va ctrl + off) (length (flat_map snd cols)) /\
  apart a k ind (8 * length cols) /\ apart a k eva (32 * length cols).

Definition three_apart (ctrl ind eva off : Z) (cols : ccode) : Prop :=
  apart ind (8 * length cols) eva (32 * length cols) /\
  apart (va ctrl + off) (length (flat_map snd cols)) ind (8 * length cols) /\
  apart (va ctrl + off) (length (flat_map snd cols)) eva (32 * length cols).

Lemma packet_bytes_length c a :
  length (enc_common_header (exec_header 24 1 0) ++ enc_exec_buf (exec_buf_for c a)) = 32%nat.
Proof. reflexivity. Qed.

(** Nothing else is written. *)
Lemma column_calls_frame c ctrl ind eva edma off cols a k m :
  outside a k ctrl ind eva off cols ->
  read_bytes a k (mem_of m (column_calls c ctrl ind eva edma off cols)) = read_bytes a k m.
Proof.
  revert ind eva edma off m; induction cols as [|[col code] cols IH];
    intros ind eva edma off m (H1 & H2 & H3); [done|].
  cbn [column_calls flat_map length snd] in *; rewrite length_app in *.
  rewrite mem_of_app, IH.
  - unfold apart in *; cbn [mem_of fold_left mem_step].
    rewrite !read_write_apart; [done| | |]; unfold apart;
      rewrite ?enc_entry_length, ?packet_bytes_length; lia.
  - unfold outside, apart in *; lia.
Qed.

Definition code_offset (i : nat) (cols : ccode) : Z := code_size (take i cols).

(** What the loop leaves for the [i]-th column: its entry, its packet and its code. *)
Lemma column_calls_read c ctrl ind eva edma off cols m i col code :
  three_apart ctrl ind eva off cols ->
  0 <= edma -> edma + 32 * Z.of_nat (length cols) < 2 ^ 64 ->
  0 <= da ctrl + off -> da ctrl + off + code_size cols < 2 ^ 64 ->
  cols !! i = Some (col, code) ->
  let m' := mem_of m (column_calls c ctrl ind eva edma off cols) in
  let o := off + code_offset i cols in
  read_bytes (ind + 8 * Z.of_nat i) 8 m' = enc_entry (entry_for col (edma + 32 * Z.of_nat i)) /\
  read_bytes (eva + 32 * Z.of_nat i) 32 m' =
    enc_common_header (exec_header 24 1 0) ++ enc_exec_buf (exec_buf_for c (da ctrl + o)) /\
  read_bytes (va ctrl + o) (length code) m' = code.
Proof.
  revert ind eva edma off m i; induction cols as [|[col0 code0] cols IH];
    intros ind eva edma off m i (D1 & D2 & D3) He0 He Hd0 Hd Hi m' o; [done|].
  cbn [length flat_map snd] in D1, D2, D3, He; rewrite length_app in D2, D3.
  unfold code_size in Hd; cbn [flat_map snd] in Hd; rewrite length_app in Hd.
  subst m'; cbn [column_calls]; rewrite mem_of_app.
  set (m1 := mem_of m _).
  destruct i as [|i].
  - simpl in Hi; injection Hi as -> ->.
    assert (Ho : o = off) by (subst o; unfold code_offset, code_size; simpl; lia).
    rewrite Ho; clear o Ho.
    rewrite !column_calls_frame by (unfold outside, apart in *; lia).
    subst m1; cbn [mem_of fold_left mem_step].
    rewrite !Z.mul_0_r, !Z.add_0_r, (wrap_u_small 64 (da ctrl + off)) by lia.
    split; [|split].
    + rewrite read_write_apart by (rewrite packet_bytes_length; unfold apart in *; lia).
      apply (read_write_same ind (enc_entry _)).
    + apply (read_write_same eva (enc_common_header (exec_header 24 1 0) ++
                                   enc_exec_buf (exec_buf_for c (da ctrl + off)))).
    + do 2 rewrite read_write_apart
        by (rewrite ?enc_entry_length, ?packet_bytes_length; unfold apart in *; lia).
      apply read_write_same.
  - simpl in Hi.
    destruct (IH (ind + 8) (eva + 8 + 24) (u64 (edma + 8 + 24)) (off + Z.of_nat (length code0)) m1 i)
      as (E1 & E2 & E3).
    + unfold three_apart, apart in *; lia.
    + apply wrap_u_range; lia.
    + rewrite wrap_u_small; lia.
    + lia.
    + unfold code_size; lia.
    + done.
    + assert (Ho : off + Z.of_nat (length code0) + code_offset i cols = o).
      { subst o; unfold code_offset, code_size; cbn [take flat_map snd]; rewrite length_app; lia. }
      rewrite Ho in E2, E3.
      rewrite (wrap_u_small 64 (edma + 8 + 24)) in E1, E2, E3 |- * by lia.
      rewrite Nat2Z.inj_succ.
      replace (ind + 8 * Z.succ (Z.of_nat i)) with (ind + 8 + 8 * Z.of_nat i) by lia.
      replace (eva + 32 * Z.succ (Z.of_nat i)) with (eva + 8 + 24 + 32 * Z.of_nat i) by lia.
      replace (edma + 32 * Z.succ (Z.of_nat i)) with (edma + 8 + 24 + 32 * Z.of_nat i) by lia.
      done.
Qed.
End Columns.

(** * What the device sees

    A store changes the memory as the host sees it; the device sees an instance as it was
    when it was last synchronised for the device. *)

Section Device.
Context {rt : AieRt} {sm : StableMem rt}.

(** The size of an instance, and the host address behind a device address. *)
Variable inst_size : Z -> nat.
Variable host_of : Z -> Z.

Definition dev_step (v : mem * mem) (c : call) : mem * mem :=
  match c with
  | cpu_store a bs => (write_bytes a bs (fst v), snd v)
  | XAie_MemSyncForDev mi =>
      (fst v, write_bytes (va mi) (read_bytes (va mi) (inst_size mi) (fst v)) (snd v))
  | _ => v
  end.
Definition dev_view (v : mem * mem) (cs : list call) : mem * mem := fold_left dev_step cs v.

(** A range of bytes a call leaves alone. *)
Definition keeps (a : Z) (k : nat) (c : call) : Prop :=
  match c with cpu_store b bs => apart a k b (length bs) | _ => True end.

Lemma dev_view_app v cs cs' : dev_view v (cs ++ cs') = dev_view (dev_view v cs) cs'.
Proof. apply fold_left_app. Qed.

Lemma dev_view_host v cs : fst (dev_view v cs) = mem_of (fst v) cs.
Proof.
  revert v; induction cs as [|c cs IH]; intros v; [done|].
  change (fst (dev_view (dev_step v c) cs) = mem_of (mem_step (fst v) c) cs).
  rewrite IH; destruct c; done.
Qed.

(** The bytes of [[a, a + k)] inside an instance. *)
Definition inside (a : Z) (k : nat) (mi : Z) : Prop :=
  va mi <= a /\ a + Z.of_nat k <= va mi + Z.of_nat (inst_size mi).

Definition same_on (a : Z) (k : nat) (v : mem * mem) : Prop :=
  forall i, (i < k)%nat -> snd v (a + Z.of_nat i) = fst v (a + Z.of_nat i).

Lemma read_bytes_nth a n m i :
  (i < n)%nat -> nth i (read_bytes a n m) 0 = m (a + Z.of_nat i).
Proof.
  intros Hi; unfold read_bytes.
  rewrite (nth_indep _ 0 (m (a + Z.of_nat 0))) by (rewrite length_map, length_seq; done).
  rewrite (map_nth (fun i => m (a + Z.of_nat i)) (seq 0 n) O), seq_nth by done; done.
Qed.

Lemma sync_view mi m dm x :
  write_bytes (va mi) (read_bytes (va mi) (inst_size mi) m) dm x =
  if (va mi <=? x) && (x <? va mi + Z.of_nat (inst_size mi)) then m x else dm x.
Proof.
  unfold write_bytes; rewrite read_bytes_length.
  destruct ((va mi <=? x) && (x <? _)) eqn:E; [|done].
  apply andb_true_iff in E as [E1%Z.leb_le E2%Z.ltb_lt].
  rewrite read_bytes_nth by lia; f_equal; lia.
Qed.

Lemma same_on_step a k v c : same_on a k v -> keeps a k c -> same_on a k (dev_step v c).
Proof.
  intros Hs Hk i Hi; specialize (Hs i Hi).
  destruct c; try exact Hs; cbn [dev_step fst snd].
  - rewrite sync_view; destruct (_ && _); done.
  - simpl in Hk; unfold write_bytes.
    destruct ((_ <=? _) && _) eqn:E; [|done].
    apply andb_true_iff in E as [E1%Z.leb_le E2%Z.ltb_lt]; unfold apart in Hk; lia.
Qed.

Lemma same_on_view a k v cs :
  same_on a k v -> Forall (keeps a k) cs -> same_on a k (dev_view v cs).
Proof.
  intros Hs Hf; revert v Hs; induction Hf as [|c cs Hc _ IH]; intros v Hs; [done|].
  apply IH, same_on_step; done.
Qed.

(** Bytes of an instance that was synchronised and not stored to since are seen as the host
    stored them. *)
Lemma device_sees v cs1 mi cs2 a k :
  inside a k mi -> Forall (keeps a k) cs2 ->
  read_bytes a k (snd (dev_view v (cs1 ++ XAie_MemSyncForDev mi :: cs2))) =
  read_bytes a k (mem_of (fst v) (cs1 ++ XAie_MemSyncForDev mi :: cs2)).
Proof.
  intros Hin Hk; rewrite <- dev_view_host; apply read_bytes_ext.
  rewrite dev_view_app; change (dev_view ?w (?c :: cs2)) with (dev_view (dev_step w c) cs2).
  apply same_on_view; [|done].
  intros i Hi; cbn [dev_step fst snd]; rewrite sync_view; unfold inside in Hin.
  rewrite (proj2 (Z.leb_le _ _)), (proj2 (Z.ltb_lt _ _)) by lia; done.
Qed.

(** ** Reading a packet *)

(** A read of the device. *)
Definition rd (m : mem) (a : Z) (n : nat) : list Z :=
  map (fun i => m (host_of (a + Z.of_nat i))) (seq 0 n).

Definition mapped (mi : Z) : Prop :=
  forall k, 0 <= k < Z.of_nat (inst_size mi) -> host_of (da mi + k) = va mi + k.

Lemma rd_mapped mi m k n :
  mapped mi -> 0 <= k -> k + Z.of_nat n <= Z.of_nat (inst_size mi) ->
  rd m (da mi + k) n = read_bytes (va mi + k) n m.
Proof.
  intros Hm Hk Hn; unfold rd, read_bytes; apply map_ext_in; intros i Hi.
  apply in_seq in Hi; rewrite <- Z.add_assoc, Hm by lia; f_equal; lia.
Qed.

Lemma rd_app m a n k : rd m a (n + k) = rd m a n ++ rd m (a + Z.of_nat n) k.
Proof. apply (read_bytes_app a n k (fun x => m (host_of x))). Qed.

(** The work of the columns: each is handed the code at its offset. *)
Definition jobs_of (c : cert_api) (ctrl : Z) (cols : ccode) : list (Z * exec_buf) :=
  imap (fun i p => (wrap_u 7 (fst p), exec_buf_for c (da ctrl + code_offset i cols))) cols.

Lemma exec_buf_for_ok c a : args_ok c -> exec_buf_ok (exec_buf_for c a).
Proof.
  intros [H1 H2]; unfold exec_buf_ok, exec_buf_for, lo32, hi32; simpl.
  pose proof (wrap_u_range 32 (Z.land a 0xFFFFFFFF) ltac:(lia)).
  pose proof (wrap_u_range 32 (Z.land (Z.shiftr a 32) 0xFFFFFFFF) ltac:(lia)).
  pose proof (wrap_u_range 16 (Z.of_nat (length (external_buffer_map c)) * 8) ltac:(lia)).
  destruct (bool_decide _); simpl; repeat split; try lia.
Qed.

(** Following the entries of a level to the columns' packets. *)
Lemma jobs_columns lvl uc h ia edma m c ctrl cols :
  args_ok c -> indirect h <> 0 -> count h = 8 * Z.of_nat (length cols) ->
  (forall i col code, cols !! i = Some (col, code) ->
     let a := edma + 32 * Z.of_nat i in
     rd m (ia + 8 * Z.of_nat i) 8 = enc_entry (entry_for col a) /\
     rd m a 32 = enc_common_header (exec_header 24 1 0) ++
                 enc_exec_buf (exec_buf_for c (da ctrl + code_offset i cols)) /\
     0 <= a < 2 ^ 57 /\ a mod 2 ^ 32 < 2 ^ 25) ->
  jobs (rd m) (S (S lvl)) uc h ia = Some (jobs_of c ctrl cols).
Proof.
  intros Hargs Hind Hcnt Hcol.
  cbn [jobs]; rewrite (proj2 (Z.eqb_neq _ _) Hind).
  replace (Z.to_nat (count h / 8)) with (length cols)
    by (rewrite Hcnt, Z.mul_comm, Z.div_mul by lia; lia).
  rewrite (proj2 (mapM_Some _ _ (map (fun j => [j]) (jobs_of c ctrl cols)))).
  - simpl; f_equal; induction (jobs_of c ctrl cols); simpl; congruence.
  - apply Forall2_same_length_lookup_2.
    { rewrite length_map, length_seq; unfold jobs_of; rewrite length_imap; done. }
    intros i x y Hx Hy.
    apply lookup_seq in Hx as [-> Hi]; rewrite Nat.add_0_l.
    rewrite list_lookup_fmap in Hy; unfold jobs_of in Hy; rewrite list_lookup_imap in Hy.
    destruct (lookup_lt_is_Some_2 cols i Hi) as [[col code] Hl].
    rewrite Hl in Hy; simpl in Hy; injection Hy as <-.
    destruct (Hcol i col code Hl) as (E1 & E2 & Ha & Hlow).
    rewrite E1, <- (app_nil_r (enc_entry _)).
    rewrite entry_addr_for by done.
    change 32%nat with (8 + 24)%nat in E2; rewrite rd_app in E2.
    apply app_inj_1 in E2 as [Eh Eb]; [|reflexivity].
    rewrite Eh, <- (app_nil_r (enc_common_header _)), dec_enc_common_header
      by (repeat split; vm_compute; congruence).
    change (Z.of_nat 8) with 8 in Eb; rewrite dec_entry_for by lia; cbn [uc_index].
    cbn [indirect exec_header]; rewrite Z.eqb_refl, Eb.
    rewrite <- (app_nil_r (enc_exec_buf _)), dec_enc_exec_buf by (apply exec_buf_for_ok; done).
    done.
Qed.

(** ** Publishing *)

Definition ring_calls (c : cert_api) (s : slot) : list call :=
  [XAie_MemSyncForDev (hsa_meminst c); smp_wmb;
   cpu_store (hsa_q s + 16) (le_bytes 8 (Z.land (u64 (write_index s + 1)) 31));
   XAie_MemSyncForDev (hsa_meminst c)].

Lemma ring_eq c s h : ring c s h = Some (tt, after h (ring_calls c s)).
Proof. unfold ring; run_m; rewrite exec__eq, after_app; reflexivity. Qed.

(** A range the index store does not touch. *)
Definition off_index (s : slot) (a : Z) (k : nat) : Prop := apart a k (hsa_q s + 16) 8.

Lemma ring_keeps c s a k : off_index s a k -> Forall (keeps a k) (ring_calls c s).
Proof. intros H; unfold ring_calls; rewrite !Forall_cons; repeat split; exact H || constructor. Qed.

Lemma mem_of_ring c s a k m :
  off_index s a k -> read_bytes a k (mem_of m (ring_calls c s)) = read_bytes a k m.
Proof. intros H; cbn [mem_of fold_left mem_step ring_calls]; apply read_write_apart; exact H. Qed.

Lemma apart_sub a k b n a' k' :
  apart a k b n -> a <= a' -> a' + Z.of_nat k' <= a + Z.of_nat k -> apart a' k' b n.
Proof. unfold apart; lia. Qed.

Lemma code_offset_bound (i : nat) (cols : ccode) col code :
  cols !! i = Some (col, code) ->
  0 <= code_offset i cols /\
  code_offset i cols + Z.of_nat (length code) <= code_size cols.
Proof.
  intros H; unfold code_offset, code_size; split; [lia|].
  rewrite <- (take_drop_middle _ _ _ H) at 2.
  rewrite flat_map_app, length_app; cbn [flat_map snd]; rewrite length_app; lia.
Qed.

Section Published.
Variables (c : cert_api) (s : slot) (cols : ccode) (ctrl entry : Z) (pre : list call).
Variables (ind eva edma : Z).

Definition published : list call :=
  pre ++ column_calls c ctrl ind eva edma 0 cols ++
  [XAie_MemSyncForDev ctrl; XAie_MemSyncForDev entry] ++ ring_calls c s.

Hypothesis Hthree : three_apart ctrl ind eva 0 cols.
Hypothesis Hedma : 0 <= edma /\ edma + 32 * Z.of_nat (length cols) < 2 ^ 64.
Hypothesis Hctrl : 0 <= da ctrl /\ da ctrl + code_size cols < 2 ^ 64.
Hypothesis Hentry_in : inside eva (32 * length cols) entry.
Hypothesis Hctrl_in : inside (va ctrl) (length (flat_map snd cols)) ctrl.
Hypothesis Hind_off : off_index s ind (8 * length cols).
Hypothesis Heva_off : off_index s eva (32 * length cols).
Hypothesis Hctrl_off : off_index s (va ctrl) (length (flat_map snd cols)).

Lemma published_mem m a k :
  off_index s a k ->
  read_bytes a k (mem_of m published) =
  read_bytes a k (mem_of (mem_of m pre) (column_calls c ctrl ind eva edma 0 cols)).
Proof.
  intros H; unfold published; rewrite !mem_of_app, mem_of_ring by done; done.
Qed.

(** What the device finds once the index has moved. *)
Lemma published_columns v i col code :
  cols !! i = Some (col, code) ->
  read_bytes (ind + 8 * Z.of_nat i) 8 (mem_of (fst v) published) =
    enc_entry (entry_for col (edma + 32 * Z.of_nat i)) /\
  read_bytes (eva + 32 * Z.of_nat i) 32 (snd (dev_view v published)) =
    enc_common_header (exec_header 24 1 0) ++
    enc_exec_buf (exec_buf_for c (da ctrl + code_offset i cols)) /\
  read_bytes (va ctrl + code_offset i cols) (length code) (snd (dev_view v published)) = code.
Proof.
  intros Hi; pose proof (lookup_lt_Some _ _ _ Hi) as Hlt.
  pose proof (code_offset_bound _ _ _ _ Hi) as [Ho Hob].
  unfold code_size in Hob.
  assert (Oe : off_index s (eva + 32 * Z.of_nat i) 32)
    by (eapply apart_sub; [exact Heva_off| |]; lia).
  assert (Oc : off_index s (va ctrl + code_offset i cols) (length code))
    by (eapply apart_sub; [exact Hctrl_off| |]; lia).
  destruct (column_calls_read c ctrl ind eva edma 0 cols (mem_of (fst v) pre) i col code)
    as (E1 & E2 & E3); try done; try lia; rewrite ?Z.add_0_r, ?Z.add_0_l in *; try lia.
  split; [|split].
  - rewrite published_mem; [exact E1|]; eapply apart_sub; [exact Hind_off| |]; lia.
  - unfold published; rewrite 2!app_assoc.
    change (?l ++ [XAie_MemSyncForDev ctrl; XAie_MemSyncForDev entry])
      with (l ++ [XAie_MemSyncForDev ctrl] ++ [XAie_MemSyncForDev entry]).
    rewrite app_assoc, <- (app_assoc _ [XAie_MemSyncForDev entry]); cbn [app].
    rewrite device_sees; [|unfold inside in *; lia|apply ring_keeps; done].
    rewrite <- E2, <- published_mem by done; unfold published; rewrite <- !app_assoc; done.
  - unfold published; rewrite app_assoc; cbn [app].
    rewrite device_sees.
    + rewrite <- E3 at 2; rewrite <- published_mem by done.
      unfold published; rewrite <- !app_assoc; done.
    + unfold inside in *; lia.
    + constructor; [done|apply ring_keeps; done].
Qed.

Lemma hsa_visible v a k :
  inside a k (hsa_meminst c) ->
  read_bytes a k (snd (dev_view v published)) = read_bytes a k (mem_of (fst v) published).
Proof.
  intros Hin.
  replace published with ((pre ++ column_calls c ctrl ind eva edma 0 cols ++
    [XAie_MemSyncForDev ctrl; XAie_MemSyncForDev entry] ++ take 3 (ring_calls c s)) ++
    XAie_MemSyncForDev (hsa_meminst c) :: []) by (unfold published; rewrite <- !app_assoc; done).
  apply device_sees; done.
Qed.

Lemma entry_visible v a k :
  inside a k entry -> off_index s a k ->
  read_bytes a k (snd (dev_view v published)) = read_bytes a k (mem_of (fst v) published).
Proof.
  intros Hin Hoff.
  replace published with ((pre ++ column_calls c ctrl ind eva edma 0 cols ++
    [XAie_MemSyncForDev ctrl]) ++ XAie_MemSyncForDev entry :: ring_calls c s)
    by (unfold published; rewrite <- !app_assoc; done).
  apply device_sees; [done|apply ring_keeps; done].
Qed.
End Published.

(** The layout of a command: the queue, the entries and the code are mapped for the device and
    do not overlap, and the entries lie where an entry can address them. *)
Record layout (c : cert_api) (s : slot) (cols : ccode) (ctrl entry : Z) (esz : nat) : Prop := {
  l_queue : hsa_q s = va (hsa_meminst c);
  l_index : 0 <= write_index s < HSA_QUEUE_ENTRY;
  l_hsa_size : sizeof_hsa_queue <= Z.of_nat (inst_size (hsa_meminst c));
  l_entry_size : (esz <= inst_size entry)%nat;
  l_ctrl_size : (length (flat_map snd cols) <= inst_size ctrl)%nat;
  l_hsa_mapped : mapped (hsa_meminst c);
  l_entry_mapped : mapped entry;
  l_ctrl_mapped : mapped ctrl;
  l_hsa_entry : apart (va (hsa_meminst c)) (Z.to_nat sizeof_hsa_queue) (va entry) esz;
  l_hsa_ctrl : apart (va (hsa_meminst c)) (Z.to_nat sizeof_hsa_queue)
                 (va ctrl) (length (flat_map snd cols));
  l_entry_ctrl : apart (va entry) esz (va ctrl) (length (flat_map snd cols));
  l_entry_addr : 0 <= da entry /\ da entry + Z.of_nat esz <= 2 ^ 57;
  l_entry_low : da entry mod 2 ^ 32 + Z.of_nat esz <= 2 ^ 25;
  l_ctrl_addr : 0 <= da ctrl /\ da ctrl + code_size cols < 2 ^ 64
}.

(** The device address of the packet of a slot. *)
Definition packet_addr (c : cert_api) (s : slot) : Z :=
  da (hsa_meminst c) + off_hq_entry (write_index s).

(** The contract of a submission: once the index has moved, the firmware finds, for every
    column in order, the column's index and the address of its code, and at that
    address the code. *)
Definition delivers (c : cert_api) (s : slot) (cols : ccode) (ctrl : Z) (T : list call) : Prop :=
  forall v, let dm := snd (dev_view v T) in
    packet_jobs (rd dm) (packet_addr c s) = Some (jobs_of c ctrl cols) /\
    (forall i col code, cols !! i = Some (col, code) ->
       rd dm (da ctrl + code_offset i cols) (length code) = code).

Lemma low_word_add a k : 0 <= k -> a mod 2 ^ 32 + k < 2 ^ 32 -> (a + k) mod 2 ^ 32 = a mod 2 ^ 32 + k.
Proof.
  intros Hk H; pose proof (Z.mod_pos_bound a (2 ^ 32) ltac:(lia)).
  rewrite Z.add_mod, (Z.mod_small k) by lia; apply Z.mod_small; lia.
Qed.

Lemma packet_header_read (c : cert_api) (s : slot) hd data m :
  (length data <= 48)%nat ->
  read_bytes (hq_entry s) 16 (mem_of m [cpu_store (hq_entry s) (enc_packet hd (comp_sig_dma s) data)])
  = enc_xrt_header hd (comp_sig_dma s).
Proof.
  intros Hd; cbn [mem_of fold_left mem_step].
  assert (E : length (enc_packet hd (comp_sig_dma s) data) = 64%nat).
  { unfold enc_packet; rewrite !length_app, length_replicate.
    change (length (enc_xrt_header hd (comp_sig_dma s))) with 16%nat; lia. }
  pose proof (read_write_same (hq_entry s) (enc_packet hd (comp_sig_dma s) data) m) as H.
  rewrite E in H; pose proof (read_bytes_slice _ 64 0 16 _ _ H ltac:(lia)) as H'.
  rewrite Z.add_0_r in H'; rewrite H'; reflexivity.
Qed.

Ltac layout_lia H :=
  destruct H; unfold inside, off_index, three_apart, apart, hq_entry, packet_addr, sizeof_hsa_queue,
    off_hq_entry, HSA_QUEUE_ENTRY, sizeof_host_queue_header, sizeof_host_queue_packet,
    code_size in *; rewrite ?Z.add_0_r in *; lia.

Lemma hsa_addr_read c s cols ctrl entry esz m k n :
  layout c s cols ctrl entry esz -> 0 <= k -> k + Z.of_nat n <= 64 ->
  rd m (packet_addr c s + k) n = read_bytes (hq_entry s + k) n m.
Proof.
  intros L Hk Hn; unfold packet_addr, hq_entry; rewrite (l_queue _ _ _ _ _ _ L), <- !Z.add_assoc.
  apply rd_mapped; [exact (l_hsa_mapped _ _ _ _ _ _ L)| |]; layout_lia L.
Qed.

Lemma exec_header_ok n d i :
  0 <= n <= 24 -> (d = 0 \/ d = 1) -> (i = 0 \/ i = 1) ->
  header_ok (exec_header (n * 8) d i) /\ count (exec_header (n * 8) d i) = 8 * n.
Proof.
  intros Hn Hd Hi; unfold header_ok, exec_header; cbn [header opcode count distribute indirect].
  rewrite wrap_u_small by lia; vm_compute (2 ^ 8); vm_compute (2 ^ 16).
  unfold HOST_QUEUE_PACKET_TYPE_VENDOR_SPECIFIC, HOST_QUEUE_PACKET_EXEC_BUF; lia.
Qed.

(** The entries of the columns, at [edma] inside the instance [entry], can be addressed. *)
Lemma entry_addressable c s cols ctrl entry esz k i :
  layout c s cols ctrl entry esz -> 0 <= k -> (i < length cols)%nat ->
  k + 32 * Z.of_nat (length cols) <= Z.of_nat esz ->
  let a := da entry + k + 32 * Z.of_nat i in 0 <= a < 2 ^ 57 /\ a mod 2 ^ 32 < 2 ^ 25.
Proof.
  intros L Hk Hi Hs a; subst a; pose proof (l_entry_low _ _ _ _ _ _ L).
  rewrite <- Z.add_assoc, low_word_add by lia; split; [layout_lia L|lia].
Qed.

Lemma indirect_delivers c s cols ctrl entry pre0 :
  args_ok c -> (2 <= length cols <= 6)%nat ->
  layout c s cols ctrl entry (32 * length cols) ->
  delivers c s cols ctrl
    (published c s cols ctrl entry
       (pre0 ++ [cpu_store (hq_entry s)
          (enc_packet (exec_header (Z.of_nat (length cols) * 8) 1 1) (comp_sig_dma s) [])])
       (hq_entry s + 16) (va entry) (da entry)).
Proof.
  intros Hargs Hn L v dm.
  set (hd := exec_header _ 1 1) in *.
  destruct (exec_header_ok (Z.of_nat (length cols)) 1 1 ltac:(lia) ltac:(lia) ltac:(lia))
    as [Hhd Hcnt]; fold hd in Hhd, Hcnt.
  subst dm; set (pre := pre0 ++ _).
  assert (Hcols := published_columns c s cols ctrl entry pre (hq_entry s + 16) (va entry) (da entry)
    ltac:(layout_lia L) ltac:(layout_lia L) ltac:(layout_lia L) ltac:(layout_lia L)
    ltac:(layout_lia L) ltac:(layout_lia L) ltac:(layout_lia L) ltac:(layout_lia L) v).
  set (T := published _ _ _ _ _ _ _ _ _) in *.
  split.
  - unfold packet_jobs.
    assert (Eh : rd (snd (dev_view v T)) (packet_addr c s) 8 = enc_common_header hd).
    { rewrite <- (Z.add_0_r (packet_addr c s)), (hsa_addr_read _ _ _ _ _ _ _ 0 8 L) by lia.
      rewrite Z.add_0_r; subst T; rewrite hsa_visible by layout_lia L.
      rewrite published_mem by layout_lia L.
      rewrite column_calls_frame by (unfold outside; layout_lia L).
      subst pre; rewrite mem_of_app.
      pose proof (packet_header_read c s hd [] (mem_of (fst v) pre0) ltac:(simpl; lia)) as E.
      pose proof (read_bytes_slice _ 16 0 8 _ _ E ltac:(lia)) as E'.
      rewrite Z.add_0_r in E'; rewrite E'; reflexivity. }
    rewrite Eh, <- (app_nil_r (enc_common_header hd)), dec_enc_common_header by done.
    apply (jobs_columns 1 0 hd _ (da entry)); [done|done|rewrite Hcnt; done|].
    intros i col code Hi a; subst a; destruct (Hcols i col code Hi) as (E1 & E2 & _).
    pose proof (lookup_lt_Some _ _ _ Hi).
    pose proof (entry_addressable _ _ _ _ _ _ 0 i L ltac:(lia) ltac:(lia) ltac:(lia)) as Ha.
    cbv zeta in Ha; rewrite Z.add_0_r in Ha; split; [|split; [|exact Ha]].
    + rewrite <- Z.add_assoc, (hsa_addr_read _ _ _ _ _ _ _ _ _ L), Z.add_assoc by lia.
      rewrite <- E1; subst T; apply hsa_visible; layout_lia L.
    + rewrite <- E2; apply rd_mapped; [exact (l_entry_mapped _ _ _ _ _ _ L)| |]; layout_lia L.
  - intros i col code Hi; destruct (Hcols i col code Hi) as (_ & _ & E3).
    pose proof (code_offset_bound _ _ _ _ Hi); rewrite <- E3 at 2.
    apply rd_mapped; [exact (l_ctrl_mapped _ _ _ _ _ _ L)| |]; layout_lia L.
Qed.

(** The header of the second level, stored field by field: whatever the memory held, it
    announces [n] further entries. *)
Definition first_header_stores (a n : Z) : list call :=
  [cpu_store a [HOST_QUEUE_PACKET_TYPE_VENDOR_SPECIFIC];
   cpu_store (a + 2) (le_bytes 2 HOST_QUEUE_PACKET_EXEC_BUF);
   cpu_store (a + 4) (le_bytes 2 (u16 (n * 8)));
   cpu_store (a + 6) [1]; cpu_store (a + 7) [1]].

Lemma field_read a n k j m :
  (k + j <= n)%nat -> field k j (read_bytes a n m) = le_val (read_bytes (a + Z.of_nat k) j m).
Proof. intros H; unfold field; rewrite <- (read_bytes_slice a n k j m _ eq_refl H); done. Qed.

Lemma first_header_read a n m :
  0 <= n <= 24 ->
  let h := dec_common_header (read_bytes a 8 (mem_of m (first_header_stores a n))) in
  count h = 8 * n /\ indirect h = 1.
Proof.
  intros Hn; cbn [dec_common_header count indirect].
  rewrite !field_read by lia; cbn [mem_of fold_left mem_step first_header_stores].
  split.
  - do 2 rewrite read_write_apart by (unfold apart; simpl; lia).
    rewrite (read_write_same _ (le_bytes 2 (u16 (n * 8)))), le_val_bytes.
    change (256 ^ Z.of_nat 2) with (2 ^ 16); rewrite wrap_u_small by lia.
    rewrite Z.mod_small; lia.
  - rewrite (read_write_same _ [1]); reflexivity.
Qed.

Lemma first_header_frame a n b k m :
  apart b k a 8 -> read_bytes b k (mem_of m (first_header_stores a n)) = read_bytes b k m.
Proof.
  intros H; cbn [mem_of fold_left mem_step first_header_stores].
  rewrite !read_write_apart; unfold apart in *; simpl; lia || done.
Qed.

(** A level with one entry. *)
Lemma jobs_single (r : Z -> nat -> list Z) lvl uc h a js :
  indirect h <> 0 -> count h = 8 ->
  let e := dec_entry (r a 8%nat) in
  jobs r lvl (uc_index e) (dec_common_header (r (entry_addr e) 8%nat)) (entry_addr e + 8) = Some js ->
  jobs r (S lvl) uc h a = Some js.
Proof.
  intros Hi Hc e Hj; cbn [jobs]; rewrite (proj2 (Z.eqb_neq _ _) Hi), Hc.
  change (Z.to_nat (8 / 8)) with 1%nat; cbn [seq mapM].
  change (Z.of_nat 0) with 0; rewrite Z.mul_0_r, Z.add_0_r; fold e; rewrite Hj; simpl.
  rewrite app_nil_r; done.
Qed.

(** The calls that publish a command with two levels of indirection. *)
Definition two_level_head (s : slot) (entry : Z) : list call :=
  [cpu_store (hq_entry s) (enc_packet (exec_header 8 1 1) (comp_sig_dma s) []);
   cpu_store (hq_entry s + 16) (enc_entry (first_entry_for (da entry)))].
Definition two_levels (c : cert_api) (s : slot) (cols : ccode) (ctrl entry : Z) (pre0 : list call)
  : list call :=
  let n := Z.of_nat (length cols) in
  published c s cols ctrl entry
    (pre0 ++ two_level_head s entry ++ first_header_stores (va entry) n)
    (va entry + 8) (va entry + (8 + n * 8)) (da entry + (8 + n * 8)).

Section TwoLevels.
Variables (c : cert_api) (s : slot) (cols : ccode) (ctrl entry : Z) (pre0 : list call).
Hypothesis Hn : (6 < length cols <= 24)%nat.
Hypothesis L : layout c s cols ctrl entry (8 + 40 * length cols).
Let n := Z.of_nat (length cols).
Let T := two_levels c s cols ctrl entry pre0.

Lemma two_level_packet v k j :
  0 <= k -> k + Z.of_nat j <= 64 ->
  rd (snd (dev_view v T)) (packet_addr c s + k) j =
  read_bytes (hq_entry s + k) j (mem_of (mem_of (fst v) pre0) (two_level_head s entry)).
Proof.
  intros Hk Hj; rewrite (hsa_addr_read _ _ _ _ _ _ _ k j L) by lia.
  subst T; unfold two_levels; rewrite hsa_visible by layout_lia L.
  rewrite published_mem by layout_lia L.
  rewrite column_calls_frame by (unfold outside; layout_lia L).
  rewrite !mem_of_app, first_header_frame by layout_lia L; done.
Qed.

Lemma two_level_header v :
  rd (snd (dev_view v T)) (packet_addr c s) 8 = enc_common_header (exec_header 8 1 1).
Proof.
  rewrite <- (Z.add_0_r (packet_addr c s)), two_level_packet, Z.add_0_r by lia.
  cbn [two_level_head mem_of fold_left mem_step]; rewrite read_write_apart
    by (rewrite enc_entry_length; unfold apart; lia).
  pose proof (packet_header_read c s (exec_header 8 1 1) [] (mem_of (fst v) pre0)
    ltac:(simpl; lia)) as E.
  pose proof (read_bytes_slice _ 16 0 8 _ _ E ltac:(lia)) as E'.
  rewrite Z.add_0_r in E'; exact E'.
Qed.

Lemma two_level_entry v :
  rd (snd (dev_view v T)) (packet_addr c s + 16) 8 = enc_entry (first_entry_for (da entry)).
Proof. rewrite two_level_packet by lia; apply (read_write_same _ (enc_entry _)). Qed.

Lemma two_level_second v :
  let h := dec_common_header (rd (snd (dev_view v T)) (da entry) 8) in
  count h = 8 * n /\ indirect h = 1.
Proof.
  rewrite <- (Z.add_0_r (da entry)), (rd_mapped entry), Z.add_0_r;
    [|exact (l_entry_mapped _ _ _ _ _ _ L)|lia|layout_lia L].
  subst T; unfold two_levels; rewrite entry_visible by layout_lia L.
  rewrite published_mem by layout_lia L.
  rewrite column_calls_frame by (unfold outside; layout_lia L).
  rewrite !mem_of_app; apply first_header_read; lia.
Qed.

Lemma indirect2_delivers : args_ok c -> delivers c s cols ctrl T.
Proof.
  intros Hargs v dm; subst dm.
  assert (Hcols := published_columns c s cols ctrl entry
    (pre0 ++ two_level_head s entry ++ first_header_stores (va entry) n) (va entry + 8)
    (va entry + (8 + n * 8)) (da entry + (8 + n * 8))
    ltac:(layout_lia L) ltac:(layout_lia L) ltac:(layout_lia L) ltac:(layout_lia L)
    ltac:(layout_lia L) ltac:(layout_lia L) ltac:(layout_lia L) ltac:(layout_lia L) v).
  split.
  - unfold packet_jobs; rewrite two_level_header, <- (app_nil_r (enc_common_header _)).
    rewrite dec_enc_common_header by (apply (exec_header_ok 1 1 1); lia).
    apply jobs_single; [done|reflexivity|]; rewrite two_level_entry.
    assert (Ea : entry_addr (dec_entry (enc_entry (first_entry_for (da entry)))) = da entry).
    { rewrite <- (app_nil_r (enc_entry _)); apply dec_first_entry_for; layout_lia L. }
    rewrite Ea; destruct (two_level_second v) as [Hc1 Hi1].
    apply (jobs_columns 0 _ _ _ (da entry + (8 + n * 8))); [done|by rewrite Hi1|by rewrite Hc1|].
    intros i col code Hi a; subst a; destruct (Hcols i col code Hi) as (E1 & E2 & _).
    pose proof (lookup_lt_Some _ _ _ Hi).
    split; [|split; [|apply (entry_addressable _ _ _ _ _ _ (8 + n * 8) i L); lia]].
    + rewrite <- Z.add_assoc, rd_mapped, Z.add_assoc;
        [|exact (l_entry_mapped _ _ _ _ _ _ L)|lia|layout_lia L].
      rewrite <- E1; apply entry_visible; layout_lia L.
    + unfold T, two_levels; fold n; rewrite <- E2, <- !(Z.add_assoc _ (8 + n * 8)).
      apply rd_mapped; [exact (l_entry_mapped _ _ _ _ _ _ L)| |]; layout_lia L.
  - intros i col code Hi; destruct (Hcols i col code Hi) as (_ & _ & E3).
    pose proof (code_offset_bound _ _ _ _ Hi); rewrite <- E3 at 2.
    apply rd_mapped; [exact (l_ctrl_mapped _ _ _ _ _ _ L)| |]; layout_lia L.
Qed.
End TwoLevels.

(** The layout of a command with one column: there are no entries. *)
Record direct_layout (c : cert_api) (s : slot) (code : list Z) (ctrl : Z) : Prop := {
  dl_queue : hsa_q s = va (hsa_meminst c);
  dl_index : 0 <= write_index s < HSA_QUEUE_ENTRY;
  dl_hsa_size : sizeof_hsa_queue <= Z.of_nat (inst_size (hsa_meminst c));
  dl_ctrl_size : (length code <= inst_size ctrl)%nat;
  dl_hsa_mapped : mapped (hsa_meminst c);
  dl_ctrl_mapped : mapped ctrl;
  dl_hsa_ctrl : apart (va (hsa_meminst c)) (Z.to_nat sizeof_hsa_queue) (va ctrl) (length code)
}.

Lemma direct_delivers c s code ctrl pre0 :
  args_ok c -> direct_layout c s code ctrl ->
  delivers c s [(0, code)] ctrl
    (pre0 ++ [cpu_store (va ctrl) code; XAie_MemSyncForDev ctrl;
              cpu_store (hq_entry s) (enc_packet (exec_header 24 0 0) (comp_sig_dma s)
                (enc_exec_buf (exec_buf_for c (da ctrl))))] ++ ring_calls c s).
Proof.
  intros Hargs L v dm; subst dm.
  set (pkt := enc_packet _ _ _).
  assert (Hpkt : length pkt = 64%nat) by reflexivity.
  set (T := pre0 ++ _).
  assert (Hq : read_bytes (hq_entry s) 64 (snd (dev_view v T)) = pkt).
  { replace T with ((pre0 ++ [cpu_store (va ctrl) code; XAie_MemSyncForDev ctrl;
      cpu_store (hq_entry s) pkt] ++ take 3 (ring_calls c s)) ++
      XAie_MemSyncForDev (hsa_meminst c) :: []) by (subst T; rewrite <- !app_assoc; done).
    rewrite device_sees; [|layout_lia L|done].
    rewrite <- app_assoc, mem_of_app; cbn [app take ring_calls mem_of fold_left mem_step].
    rewrite read_write_apart by (rewrite le_bytes_length; layout_lia L).
    apply (read_write_same (hq_entry s) pkt). }
  assert (Hrd : forall k j, (k + j <= 64)%nat ->
    rd (snd (dev_view v T)) (packet_addr c s + Z.of_nat k) j = slice k j pkt).
  { intros k j Hk; unfold packet_addr; rewrite <- Z.add_assoc, rd_mapped;
      [|exact (dl_hsa_mapped _ _ _ _ L)|layout_lia L|layout_lia L].
    rewrite <- (dl_queue _ _ _ _ L), Z.add_assoc; apply (read_bytes_slice _ 64); done. }
  split.
  - unfold packet_jobs; pose proof (Hrd 0%nat 8%nat ltac:(lia)) as H0.
    pose proof (Hrd 16%nat 24%nat ltac:(lia)) as H16.
    change (Z.of_nat 16) with 16 in H16; change (Z.of_nat 0) with 0 in H0.
    rewrite Z.add_0_r in H0; rewrite H0; cbn [jobs].
    change (slice 0 8 pkt) with (enc_common_header (exec_header 24 0 0)).
    rewrite <- (app_nil_r (enc_common_header _)), dec_enc_common_header
      by (apply (exec_header_ok 3 0 0); lia); cbn [indirect exec_header].
    rewrite Z.eqb_refl, H16.
    change (slice 16 24 pkt) with (enc_exec_buf (exec_buf_for c (da ctrl))).
    rewrite <- (app_nil_r (enc_exec_buf _)), dec_enc_exec_buf by (apply exec_buf_for_ok; done).
    unfold jobs_of, code_offset, code_size; simpl; rewrite Z.add_0_r; done.
  - intros [|i] col code' Hi; [|done]; simpl in Hi; injection Hi as <- <-.
    unfold code_offset, code_size; simpl take; simpl flat_map.
    rewrite rd_mapped; [|exact (dl_ctrl_mapped _ _ _ _ L)|simpl; lia|simpl; layout_lia L].
    rewrite Z.add_0_r; subst T.
    replace (pre0 ++ _) with ((pre0 ++ [cpu_store (va ctrl) code]) ++ XAie_MemSyncForDev ctrl ::
      cpu_store (hq_entry s) pkt :: ring_calls c s) by (rewrite <- !app_assoc; done).
    rewrite device_sees; [|layout_lia L|].
    + rewrite mem_of_app, mem_of_app; cbn [mem_of fold_left mem_step ring_calls].
      rewrite read_write_apart by (rewrite le_bytes_length; layout_lia L).
      rewrite read_write_apart by (rewrite Hpkt; layout_lia L); apply read_write_same.
    + constructor; [cbn [keeps]; rewrite Hpkt; layout_lia L|apply ring_keeps; layout_lia L].
Qed.

(** ** From the operations to the layout *)

Definition command_layout (c : cert_api) (s : slot) (cols : ccode) (insts : list Z) : Prop :=
  match insts with
  | [ctrl] => direct_layout c s (flat_map snd cols) ctrl
  | [ctrl; entry] =>
      layout c s cols ctrl entry
        (if decide (length cols <= 6)%nat then 32 * length cols else 8 + 40 * length cols)
  | _ => False
  end.

Lemma alloc_indirect_inv sz cols h a h' :
  alloc_indirect sz cols h = Some (Some a, h') ->
  exists entry ctrl, a = (entry, va entry, u64 (da entry), ctrl) /\
    h' = after h [mem_allocate_inst sz; XAie_MemGetVAddr entry; XAie_MemGetDevAddr entry;
                  mem_allocate_inst (code_size cols)].
Proof.
  unfold alloc_indirect; run_m; rewrite va_eq, da_eq.
  set (entry := out _); destruct (entry =? 0); [done|]; run_m.
  set (ctrl := out _); destruct (ctrl =? 0); run_m; intros H; [done|].
  unfold ret in H; injection H as <- <-; exists entry, ctrl; done.
Qed.

Lemma single_col0 (cols : ccode) :
  length cols = 1%nat -> 0 ∈ map fst cols -> exists code, cols = [(0, code)].
Proof.
  destruct cols as [|[col code] [|]]; intros Hl Hin; try done.
  simpl in Hin; apply list_elem_of_singleton in Hin as <-; eauto.
Qed.

(** Each case, from the operation to what it delivers once the index has moved. *)
Definition built (c : cert_api) (s : slot) (cols : ccode) (h : hist) (insts : list Z) (h' : hist)
    (pre : list call) : Prop :=
  exists cs ctrl, h' = after h cs /\ head insts = Some ctrl /\
    delivers c s cols ctrl (pre ++ cs ++ ring_calls c s).

Lemma direct_packet_built c s code h insts h' pre :
  args_ok c -> direct_packet c s [(0, code)] h = Some (Some insts, h') ->
  command_layout c s [(0, code)] insts -> built c s [(0, code)] h insts h' pre.
Proof.
  intros Hargs H HL; revert H; unfold direct_packet; run_m; rewrite va_eq, da_eq.
  set (ctrl := out _); destruct (va ctrl =? 0); [done|]; run_m.
  unfold ret; intros H; injection H as <- <-.
  simpl in HL; rewrite app_nil_r in HL.
  eexists _, ctrl; split; [reflexivity|split; [done|]].
  pose proof (direct_delivers c s code ctrl
    (pre ++ [mem_allocate_inst (Z.of_nat (length code)); XAie_MemGetVAddr ctrl;
             XAie_MemGetDevAddr ctrl]) Hargs HL) as D.
  rewrite <- !app_assoc in D; exact D.
Qed.

Lemma indirect_packet_built c s cols h insts h' pre :
  args_ok c -> (2 <= length cols <= 6)%nat ->
  indirect_packet c s cols h = Some (Some insts, h') ->
  command_layout c s cols insts -> built c s cols h insts h' pre.
Proof.
  intros Hargs Hn H HL.
  apply bind_inv in H as (a & h1 & Ha & H); destruct a as [a|]; [|done].
  apply alloc_indirect_inv in Ha as (entry & ctrl & -> & ->); revert H.
  run_m; rewrite (bind_Some _ _ _ _ _ (emit_columns_eq _ _ _ _ _ _ _ _)); run_m.
  unfold ret; intros H; injection H as <- <-.
  unfold command_layout in HL; rewrite decide_True in HL by lia.
  rewrite (wrap_u_small 64 (da entry)) by (destruct HL; lia).
  eexists _, ctrl; split; [reflexivity|split; [done|]].
  pose proof (indirect_delivers c s cols ctrl entry
    (pre ++ [mem_allocate_inst (Z.of_nat (length cols) * 32); XAie_MemGetVAddr entry;
             XAie_MemGetDevAddr entry; mem_allocate_inst (code_size cols)])
    Hargs ltac:(lia) HL) as D.
  refine (eq_ind _ (delivers c s cols ctrl) D _ _).
  unfold published; rewrite <- ?app_assoc; cbn [app]; rewrite <- ?app_assoc; reflexivity.
Qed.

Lemma indirect2_packet_built c s cols h insts h' pre :
  args_ok c -> (6 < length cols <= 24)%nat ->
  indirect2_packet c s cols h = Some (Some insts, h') ->
  command_layout c s cols insts -> built c s cols h insts h' pre.
Proof.
  intros Hargs Hn H HL.
  apply bind_inv in H as (a & h1 & Ha & H); destruct a as [a|]; [|done].
  apply alloc_indirect_inv in Ha as (entry & ctrl & -> & ->); revert H.
  cbv zeta; run_m; rewrite (bind_Some _ _ _ _ _ (emit_columns_eq _ _ _ _ _ _ _ _)); run_m.
  unfold ret; intros H; injection H as <- <-.
  unfold command_layout in HL; rewrite decide_False in HL by lia.
  rewrite !(wrap_u_small 64 (da entry)) by (destruct HL; lia).
  rewrite (wrap_u_small 64 (da entry + _))
    by (destruct HL; unfold sizeof_common_header, sizeof_indirect_entry; lia).
  eexists _, ctrl; split; [reflexivity|split; [done|]].
  pose proof (indirect2_delivers c s cols ctrl entry
    (pre ++ [mem_allocate_inst (8 + Z.of_nat (length cols) * 40); XAie_MemGetVAddr entry;
             XAie_MemGetDevAddr entry; mem_allocate_inst (code_size cols)])
    ltac:(lia) HL Hargs) as D.
  refine (eq_ind _ (delivers c s cols ctrl) D _ _).
  unfold two_levels, two_level_head, published, first_header_stores.
  rewrite <- ?app_assoc; cbn [app]; rewrite <- ?app_assoc; reflexivity.
Qed.

Lemma build_packet_delivers c s cols h insts h' pre :
  args_ok c -> 0 ∈ map fst cols ->
  build_packet c s cols h = Some (Some insts, h') -> command_layout c s cols insts ->
  built c s cols h insts h' pre.
Proof.
  intros Hargs Hin H HL; unfold build_packet in H.
  destruct ((24 <? _) || _) eqn:Hn; [done|].
  apply orb_false_iff in Hn as [Hn1%Z.ltb_ge Hn2%Z.eqb_neq].
  destruct (Z.eqb_spec (Z.of_nat (length cols)) 1) as [E1|E1];
    [|destruct (Z.leb_spec (Z.of_nat (length cols)) HSA_MAX_LEVEL1_INDIRECT_ENTRIES) as [E6|E6]];
    unfold HSA_MAX_LEVEL1_INDIRECT_ENTRIES in *.
  - destruct (single_col0 cols ltac:(lia) Hin) as [code ->].
    apply direct_packet_built; done.
  - apply indirect_packet_built; done || lia.
  - apply indirect2_packet_built; done || lia.
Qed.
(** ** The whole submission *)

(** Calls that change neither the host's nor the device's view of memory. *)
Definition quiet (k : call) : Prop :=
  match k with cpu_store _ _ | XAie_MemSyncForDev _ => False | _ => True end.

Lemma dev_view_quiet v cs : Forall quiet cs -> dev_view v cs = v.
Proof.
  intros H; revert v; induction H as [|k cs Hk _ IH]; intros v; [done|].
  change (dev_view (dev_step v k) cs = v); rewrite IH; destruct k; done.
Qed.

Lemma uc_pass_eq (f : Z -> list call) (body : Z -> Z -> M Z) cols acc h :
  (forall col acc h, exists acc', body col acc h = Some (acc', after h (f col))) ->
  exists acc', for_each body cols acc h = Some (acc', after h (flat_map f cols)).
Proof.
  intros Hb; revert acc h; induction cols as [|col cols IH]; intros acc h; simpl.
  - rewrite after_nil; eauto.
  - destruct (Hb col acc h) as [a1 H1]; rewrite (bind_Some _ _ _ _ _ H1).
    destruct (IH a1 (after h (f col))) as [a2 ->]; rewrite after_app; eauto.
Qed.

Lemma wakeup_cert_eq c h :
  exists r, wakeup_cert c h =
    Some (r, after h (flat_map (fun col => [uc_tile_type (uc_loc col); uc_wakeup (uc_loc col)])
                        (part_columns c))).
Proof.
  unfold wakeup_cert.
  destruct (uc_pass_eq (fun col => [uc_tile_type (uc_loc col); uc_wakeup (uc_loc col)])
    (fun col acc => r <-- wakeup_cert_col col ;; ret (Z.lor acc (u32 r))) (part_columns c) 0 h)
    as [r Hr].
  - intros col acc h0; unfold wakeup_cert_col; run_m; eauto.
  - rewrite (bind_Some _ _ _ _ _ Hr); eexists; reflexivity.
Qed.

Lemma quiet_uc_calls (f : Z -> list call) cols :
  (forall col, Forall quiet (f col)) -> Forall quiet (flat_map f cols).
Proof. intros H; induction cols; simpl; [constructor|apply Forall_app; auto]. Qed.

Definition pass_calls (c : cert_api) : list call :=
  flat_map (fun col => [uc_tile_type (uc_loc col); uc_core_status (uc_loc col)]) (part_columns c).

Lemma run_cert_eq n c h :
  run_cert n c h = Some (tt, after h (concat (replicate n (pass_calls c)))).
Proof.
  revert h; induction n as [|n IH]; intros h; simpl; [by rewrite after_nil|].
  assert (Hp : run_cert_pass c h = Some (tt, after h (pass_calls c))).
  { unfold run_cert_pass; apply (for_each_block _ _); intros col h0; run_m.
    rewrite exec__eq, after_app; done. }
  rewrite (bind_Some _ _ _ _ _ Hp), IH, after_app; done.
Qed.

Lemma quiet_run n c : Forall quiet (concat (replicate n (pass_calls c))).
Proof.
  induction n; simpl; [constructor|]; apply Forall_app; split; [|done].
  apply quiet_uc_calls; intros; repeat constructor.
Qed.

(** One round of waiting. *)
Definition round_calls (cycles : nat) (c : cert_api) (s : slot) : list call :=
  XAie_MemSyncForCPU (comp_sig_meminst c) :: cpu_load (comp_sig_va s) 4 ::
  concat (replicate cycles (pass_calls c)) ++ [cpu_load (comp_sig_va s) 4].

Lemma wait_round fuel cycles c s h :
  exists r, wait_completion (S fuel) cycles c s h =
    (if u32 (out r) =? 0 then wait_completion fuel cycles c s (after h (round_calls cycles c s))
     else Some (tt, after h (round_calls cycles c s))) /\
    r = drv (after h (XAie_MemSyncForCPU (comp_sig_meminst c) :: cpu_load (comp_sig_va s) 4 ::
                      concat (replicate cycles (pass_calls c)))) (cpu_load (comp_sig_va s) 4).
Proof.
  eexists; split; [|reflexivity]; cbn [wait_completion].
  do 2 run_step; rewrite (bind_Some _ _ _ _ _ (run_cert_eq _ _ _)); run_m.
  unfold round_calls; rewrite <- ?app_assoc; cbn [app]; destruct (_ =? 0); done.
Qed.

Lemma wait_completion_quiet fuel cycles c s h u h' :
  wait_completion fuel cycles c s h = Some (u, h') ->
  exists cs, h' = after h cs /\ Forall quiet cs.
Proof.
  revert h; induction fuel as [|fuel IH]; intros h H; [done|].
  destruct (wait_round fuel cycles c s h) as (r & E & _); rewrite E in H.
  assert (Hq : Forall quiet (round_calls cycles c s)).
  { unfold round_calls; do 2 (constructor; [done|]); apply Forall_app; split; [apply quiet_run|].
    repeat constructor. }
  destruct (_ =? 0).
  - destruct (IH _ H) as (cs & -> & Hcs); rewrite after_app; eexists; split; [done|].
    apply Forall_app; done.
  - injection H as <- <-; eauto.
Qed.
(** The calls of a round before the completion word is tested. *)
Definition round_head (cycles : nat) (c : cert_api) (s : slot) : list call :=
  XAie_MemSyncForCPU (comp_sig_meminst c) :: cpu_load (comp_sig_va s) 4 ::
  concat (replicate cycles (pass_calls c)).

(** The device completes: polled as [submit_command] polls it after the history [h], it answers
    one of the first [n] tests of the completion word with a non-zero value. *)
Definition completes (n cycles : nat) (c : cert_api) (s : slot) (h : hist) : Prop :=
  exists k, (k < n)%nat /\
    u32 (out (drv (after h (concat (replicate k (round_calls cycles c s)) ++ round_head cycles c s))
               (cpu_load (comp_sig_va s) 4))) <> 0.

Lemma completes_next n cycles c s h :
  completes (S n) cycles c s h ->
  u32 (out (drv (after h (round_head cycles c s)) (cpu_load (comp_sig_va s) 4))) = 0 ->
  completes n cycles c s (after h (round_calls cycles c s)).
Proof.
  intros ([|k] & Hk & Hc) Hz; [done|].
  exists k; split; [lia|]; rewrite after_app.
  cbn [replicate concat] in Hc; rewrite <- app_assoc in Hc; exact Hc.
Qed.

Lemma wait_completion_total n fuel cycles c s h :
  completes n cycles c s h -> (n <= fuel)%nat ->
  exists h', wait_completion fuel cycles c s h = Some (tt, h').
Proof.
  revert n h; induction fuel as [|fuel IH]; intros n h Hc Hn.
  - destruct Hc as (k & Hk & _); lia.
  - destruct (wait_round fuel cycles c s h) as (r & E & Hr); rewrite E.
    destruct (Z.eqb_spec (u32 (out r)) 0) as [Hz|]; [|eauto].
    destruct n as [|n]; [destruct Hc as (k & Hk & _); lia|].
    apply (IH n); [|lia]; apply completes_next; [done|].
    rewrite Hr in Hz; exact Hz.
Qed.

Lemma open_slot_inv c h s h' :
  open_slot c h = Some (s, h') ->
  hsa_q s = va (hsa_meminst c) /\ 0 <= write_index s < HSA_QUEUE_ENTRY /\
  exists cs, h' = after h cs.
Proof.
  unfold open_slot; run_m; rewrite !va_eq.
  set (w := u64 _); destruct (Z.leb_spec HSA_QUEUE_ENTRY w) as [|Hw]; [done|]; run_m.
  match goal with |- bind _ _ ?h1 = _ -> _ => destruct (wakeup_cert_eq c h1) as [r1 Hr1] end.
  rewrite (bind_Some _ _ _ _ _ Hr1); unfold ret; intros H; injection H as <- <-; simpl.
  split; [done|split].
  - split; [apply wrap_u_range; lia|done].
  - rewrite ?after_app; eauto.
Qed.
Lemma touch_col0_in (cols : ccode) : cols <> [] -> 0 ∈ map fst (touch_col0 cols).
Proof.
  intros H; destruct cols as [|p cols]; [done|]; unfold touch_col0.
  case_bool_decide as E; [exact E|].
  rewrite map_app; apply elem_of_app; right; cbn [map fst]; left.
Qed.

Lemma delivers_quiet c s cols ctrl T rest :
  delivers c s cols ctrl T -> Forall quiet rest -> delivers c s cols ctrl (T ++ rest).
Proof.
  intros H Hq v; specialize (H v); cbv zeta in *.
  rewrite dev_view_app, (dev_view_quiet _ rest) by done; exact H.
Qed.

Lemma completion_result_quiet s h :
  exists r cs, completion_result s h = Some (r, after h cs) /\ Forall quiet cs.
Proof.
  unfold completion_result; run_m; destruct (_ =? _); run_m; unfold ret;
    eexists _, _; (split; [reflexivity|repeat constructor]).
Qed.

Lemma submit_delivers n fuel c cols h s h1 insts h2 :
  args_ok c -> cols <> [] ->
  open_slot c h = Some (s, h1) ->
  build_packet c s (touch_col0 cols) h1 = Some (Some insts, h2) ->
  command_layout c s (touch_col0 cols) insts ->
  completes n (Z.to_nat 0xffffff) c s (after h2 (ring_calls c s)) -> (n <= fuel)%nat ->
  exists r pre rest ctrl,
    submit_command fuel c cols h = Some (r, after h (pre ++ ring_calls c s ++ rest)) /\
    Forall quiet rest /\ head insts = Some ctrl /\
    delivers c s (touch_col0 cols) ctrl (pre ++ ring_calls c s ++ rest).
Proof.
  intros Hargs Hne Ho Hb HL Hc Hf.
  destruct (open_slot_inv _ _ _ _ Ho) as (_ & _ & cs0 & ->).
  destruct (build_packet_delivers c s _ _ _ _ cs0 Hargs (touch_col0_in _ Hne) Hb HL)
    as (cs & ctrl & -> & Hctrl & D).
  unfold submit_command; rewrite (bind_Some _ _ _ _ _ Ho), (bind_Some _ _ _ _ _ Hb).
  rewrite (bind_Some _ _ _ _ _ (ring_eq _ _ _)), !after_app.
  destruct (wait_completion_total n fuel (Z.to_nat 0xffffff) c s
    (after h (cs0 ++ cs ++ ring_calls c s))) as [h3 Hw];
    [rewrite !after_app in Hc; exact Hc|done|].
  destruct (wait_completion_quiet _ _ _ _ _ _ _ Hw) as (cw & -> & Hq).
  rewrite (bind_Some _ _ _ _ _ Hw), (bind_Some _ _ _ _ _ (for_each_exec_ _ _ _)), !after_app.
  match goal with |- context [completion_result s ?h4] =>
    destruct (completion_result_quiet s h4) as (r & cr & -> & Hqr) end.
  exists r, (cs0 ++ cs), (cw ++ map XAie_MemFree insts ++ cr), ctrl.
  assert (Hrest : Forall quiet (cw ++ map XAie_MemFree insts ++ cr)).
  { apply Forall_app; split; [done|]; apply Forall_app; split; [|done].
    apply Forall_map, Forall_true; intros; exact I. }
  split; [rewrite after_app, <- !app_assoc; done|].
  split; [done|split; [done|]].
  rewrite app_assoc; apply delivers_quiet; [rewrite <- app_assoc; exact D|done].
Qed.

(** C1: a submitted command reaches every column.  Let the driver keep the address of every
    memory instance; let the arguments of the external buffers fit the packet, the command have
    at least one column, the packet have been built, the memory instances it lies in not overlap,
    and the entries lie where an entry can address them.  If the device, once the queue was rung
    and as long as it is polled the way [submit_command] polls it, answers one of the first [n]
    tests of the completion word with a non-zero value, then [submit_command] returns, and from
    the moment the write index moved until it returns the firmware, following the packet
    in the memory the device sees, finds for every column in order the column's index
    and the address of its control code, and at that address the code. *)
Theorem submit_command_delivers n fuel c cols h s h1 insts h2 :
  args_ok c -> cols <> [] ->
  open_slot c h = Some (s, h1) ->
  build_packet c s (touch_col0 cols) h1 = Some (Some insts, h2) ->
  command_layout c s (touch_col0 cols) insts ->
  (forall h3, ring c s h2 = Some (tt, h3) -> completes n (Z.to_nat 0xffffff) c s h3) ->
  (n <= fuel)%nat ->
  exists r pre rest ctrl,
    submit_command fuel c cols h = Some (r, after h (pre ++ ring_calls c s ++ rest)) /\
    Forall quiet rest /\ head insts = Some ctrl /\
    delivers c s (touch_col0 cols) ctrl (pre ++ ring_calls c s ++ rest).
Proof. intros ? ? ? ? ? Hc ?; eapply submit_delivers; eauto using ring_eq. Qed.
End Device.

(** * A concrete device

    Instances are numbered by the history; instance [i] is at host address [0x10000 i] and
    device address [0x4000 i].  What the host loads is what it stored, until the firmware, rung
    by a store to the write index of the queue, has completed the command: then the next
    synchronisation of the signal memory brings the completion word. *)
Definition device_step (st : mem * bool) (k : call) : mem * bool :=
  let '(m, rung) := st in
  match k with
  | cpu_store a bs => (write_bytes a bs m, a =? 0x10010)
  | XAie_MemSyncForCPU 2 => (if rung then write_bytes 0x20000 [4; 0; 0; 0] m else m, rung)
  | _ => st
  end.
Definition device_state (h : hist) : mem * bool :=
  fold_left device_step (map fst h) (fun _ => 0, false).

Definition cert_rt : AieRt := {|
  drv := fun h k =>
    match k with
    | mem_allocate_inst _ => mkResp 0 (10 + Z.of_nat (length h)) []
    | XAie_MemGetVAddr mi => mkResp 0 (0x10000 * mi) []
    | XAie_MemGetDevAddr mi => mkResp 0 (0x4000 * mi) []
    | cpu_load a n => mkResp 0 (le_val (read_bytes a (Z.to_nat n) (fst (device_state h)))) []
    | _ => mkResp 0 0 []
    end;
  XAIE_ERR := 1; XAIE_CORE_STATUS_TIMEOUT := 12; XAIE_LOCK_WITH_NO_VALUE := -1;
  XAIE_DEV_GEN_AIE := 1; XAIE_DEV_GEN_AIEML := 2; XAIE_DEV_GEN_S100 := 6; XAIE_DEV_GEN_S200 := 7
|}.

Definition cert_mem : StableMem cert_rt.
Proof.
  refine (@Build_StableMem cert_rt (fun mi => 0x10000 * mi) (fun mi => 0x4000 * mi) _ _);
    reflexivity.
Defined.

Definition demo_cert : cert_api :=
  set_insts 1 2 (cert_api_new {| StartCol := 0; NumCols := 2; ColShift := 25 |}).
Definition demo_cols : ccode := [(0, [1; 2; 3]); (1, [4; 5])].
Definition demo_slot : slot :=
  {| hsa_q := 0x10000; write_index := 0; comp_sig_va := 0x20000; comp_sig_dma := 0x8000 |}.
Definition demo_host_of (a : Z) : Z := a / 0x4000 * 0x10000 + a mod 0x4000.

Lemma demo_mapped mi : @mapped cert_rt cert_mem (fun _ => 0x3000%nat) demo_host_of mi.
Proof.
  intros k Hk; change (demo_host_of (0x4000 * mi + k) = 0x10000 * mi + k); unfold demo_host_of.
  rewrite (Z.add_comm (0x4000 * mi)), (Z.mul_comm 0x4000 mi), Z.div_add, Z.mod_add by lia.
  rewrite Z.div_small, Z.mod_small by lia; lia.
Qed.

Definition demo_opened : hist :=
  match @open_slot cert_rt demo_cert [] with Some (_, h) => h | None => [] end.
Definition demo_built : list Z * hist :=
  match @build_packet cert_rt demo_cert demo_slot demo_cols demo_opened with
  | Some (Some l, h) => (l, h) | _ => ([], []) end.

(** The calls that leave this device as it is. *)
Definition idle (k : call) : Prop :=
  match k with cpu_store _ _ | XAie_MemSyncForCPU _ => False | _ => True end.

Lemma device_idle st cs : Forall idle cs -> fold_left device_step cs st = st.
Proof.
  intros H; revert st; induction H as [|k cs Hk _ IH]; intros [m r]; [done|]; cbn [fold_left].
  rewrite IH; destruct k; done.
Qed.

Lemma idle_run n c : Forall idle (concat (replicate n (pass_calls c))).
Proof.
  induction n as [|n IH]; simpl; [constructor|]; apply Forall_app; split; [|exact IH].
  unfold pass_calls; induction (part_columns c); simpl; repeat constructor; done.
Qed.

(** Once the queue was rung, the first test finds the command completed. *)
Lemma demo_completes cycles h h3 :
  @ring cert_rt demo_cert demo_slot h = Some (tt, h3) ->
  @completes cert_rt 1 cycles demo_cert demo_slot h3.
Proof.
  rewrite (ring_eq (rt := cert_rt)); intros H; injection H as <-.
  exists O; split; [lia|]; cbn [replicate concat app]; rewrite (after_app (rt := cert_rt)).
  unfold cert_rt at 1; cbn [drv out Driver.out].
  unfold device_state, round_head, ring_calls; rewrite (after_calls (rt := cert_rt)), fold_left_app.
  destruct (fold_left device_step (map fst h) _) as [m r]; cbn [app fold_left].
  rewrite device_idle by apply idle_run; cbn [device_step].
  change (hsa_q demo_slot + 16 =? 0x10010) with true.
  change (comp_sig_meminst demo_cert) with 2; cbn [fst device_step].
  set (m' := write_bytes (hsa_q demo_slot + 16) _ m).
  change (u32 (le_val (read_bytes 0x20000 (length [4; 0; 0; 0]) (write_bytes 0x20000 [4; 0; 0; 0] m'))) <> 0).
  rewrite read_write_same; vm_compute; discriminate.
Qed.

Lemma submit_command_delivers_witness :
  exists r pre rest ctrl,
    @submit_command cert_rt 1 demo_cert demo_cols [] =
      Some (r, @after cert_rt [] (pre ++ ring_calls demo_cert demo_slot ++ rest)) /\
    @delivers cert_rt cert_mem (fun _ => 0x3000%nat) demo_host_of demo_cert demo_slot
      demo_cols ctrl (pre ++ ring_calls demo_cert demo_slot ++ rest).
Proof.
  destruct (@submit_command_delivers cert_rt cert_mem (fun _ => 0x3000%nat) demo_host_of
    1 1 demo_cert demo_cols [] demo_slot demo_opened (fst demo_built) (snd demo_built))
    as (r & pre & rest & ctrl & H & _ & _ & D).
  - vm_compute; intuition discriminate.
  - discriminate.
  - vm_compute; reflexivity.
  - vm_compute; reflexivity.
  - replace (fst demo_built) with [26; 23] by (vm_compute; reflexivity).
    constructor; try apply demo_mapped;
      try (apply Nat.leb_le; vm_compute; reflexivity); vm_compute;
      try (left; discriminate); try (right; discriminate); repeat split; discriminate.
  - intros h; apply demo_completes.
  - lia.
  - exists r, pre, rest, ctrl; split; [exact H|exact D].
Defined.
