(* ===== verification/Barrier.v ===== *)
(** * Memory barriers

    [src/include/barrier.h] gives the host its barriers and its single-access reads and writes;
    [submit_command] relies on [smp_wmb] and on [XAie_MemSyncForDev] between filling a queue packet
    and moving the queue's index.  This file models what each function of the header executes on
    each architecture, and a machine with two memories: the one the host's caches show, and the
    one the device (the control firmware) reads, which is not coherent with them.
    - The instructions of the program wait in a buffer.  On the Arm architectures a store may
      overtake earlier stores to other bytes, and the cleaning of a byte earlier instructions that
      do not store to it, unless, for a store, an instruction that orders stores stands between; on
      the Intel ones the buffer is left in order.
    - A store changes the host's memory only.  [XAie_MemSyncForDev] cleans the bytes of the instance
      one by one, in any order: each is copied to the device's memory once the stores to it that
      come first have been committed.
    - At any time the cache may write any byte back on its own.
    - A barrier leaves the buffer from its front only, so it waits for the cleaning the driver was
      called for before it; the driver's call has in fact completed when it returns.  That later
      stores may overtake the cleaning when no barrier stands between allows more than that.
    A program is put into the buffer whole, which allows every interleaving of issuing and
    committing.  The theorems quantify over all reachable states of this machine. *)
From stdpp Require Import base list gmap relations.
From Stdlib Require Import ZArith Lia.
From S2P Require Import Prelude Driver HostQueue CertHost CertDelivery.
Local Open Scope Z_scope.

(** ** The header *)

(** The architectures the header distinguishes. *)
Inductive arch := arm | aarch64 | i386 | x86_64.

(** The instructions its functions consist of; [asm_memory] is the empty statement that only
    constrains the compiler, and [clean] what the driver executes for a byte of an instance it
    synchronises. *)
Inductive instr :=
  | asm_memory
  | dmb_ish | dmb_ishst | dmb_ishld
  | lock_add | mfence | lfence | sfence
  | st (a : Z) (bs : list Z)
  | ld (a : Z) (n : nat)
  | clean (x : Z).

(** [src/include/barrier.h:11-13] [barrier] *)
Definition barrier : list instr := [asm_memory].

(** [src/include/barrier.h:59-96] [smp_mb] *)
Definition smp_mb (a : arch) : list instr :=
  match a with arm => [asm_memory] | aarch64 => [dmb_ish] | i386 => [lock_add] | x86_64 => [lock_add] end.

(** [src/include/barrier.h:59-96] [smp_wmb] *)
Definition smp_wmb (a : arch) : list instr :=
  match a with arm => [asm_memory] | aarch64 => [dmb_ishst] | i386 => [lock_add] | x86_64 => barrier end.

(** [src/include/barrier.h:59-96] [smp_rmb] *)
Definition smp_rmb (a : arch) : list instr :=
  match a with arm => [asm_memory] | aarch64 => [dmb_ishld] | i386 => [lock_add] | x86_64 => barrier end.

(** [src/include/barrier.h:59-96] [mb] *)
Definition mb (a : arch) : list instr :=
  match a with arm | aarch64 => smp_mb a | i386 => [lock_add] | x86_64 => [mfence] end.

(** [src/include/barrier.h:59-96] [wmb] *)
Definition wmb (a : arch) : list instr :=
  match a with arm | aarch64 => smp_wmb a | i386 => [lock_add] | x86_64 => [sfence] end.

(** [src/include/barrier.h:59-96] [rmb] *)
Definition rmb (a : arch) : list instr :=
  match a with arm | aarch64 => smp_rmb a | i386 => [lock_add] | x86_64 => [lfence] end.

(** The pointer form; a null pointer is not written.
    [src/include/barrier.h:50-57] [WRITE_ONCE] *)
Definition WRITE_ONCE (ptr : option Z) (val : list Z) : list instr :=
  match ptr with Some p => [st p val] | None => [] end.

(** The pointer form; a null pointer yields a value-initialised result.
    [src/include/barrier.h:32-41] [READ_ONCE] *)
Definition READ_ONCE (ptr : option Z) (size : nat) (m : mem) : list instr * list Z :=
  match ptr with Some p => ([ld p size], read_bytes p size m) | None => ([], repeat 0 size) end.

(** [src/include/barrier.h:98-102] [smp_store_release] *)
Definition smp_store_release (ptr : option Z) (val : list Z) : list instr := barrier ++ WRITE_ONCE ptr val.

(** [src/include/barrier.h:104-109] [smp_load_acquire] *)
Definition smp_load_acquire (ptr : option Z) (size : nat) (m : mem) : list instr * list Z :=
  let '(is_, value) := READ_ONCE ptr size m in (is_ ++ barrier, value).

(** ** The machine *)

(** The instructions that order earlier stores before later ones. *)
Definition orders_stores (i : instr) : bool :=
  match i with dmb_ish | dmb_ishst | lock_add | mfence | sfence => true | _ => false end.

(** The architectures that commit in program order. *)
Definition in_order (a : arch) : bool := match a with i386 | x86_64 => true | _ => false end.

(** A store of [bs] at [x] may overtake the instruction [i]. *)
Definition overtakes (x : Z) (bs : list Z) (i : instr) : Prop :=
  match i with
  | st y cs => apart x (length bs) y (length cs)
  | _ => orders_stores i = false
  end.

(** The instruction does not store to the byte [x]. *)
Definition leaves (x : Z) (i : instr) : Prop :=
  match i with st a bs => x < a \/ a + Z.of_nat (length bs) <= x | _ => True end.
Definition clear_of (x : Z) (l : list instr) : Prop := Forall (leaves x) l.

(** The instructions that wait in the buffer until they take effect. *)
Definition waits (i : instr) : bool := match i with st _ _ | clean _ => true | _ => false end.

(** The pending instructions, the memory the host sees and the one the device sees. *)
Record machine := mk { pending : list instr; host : mem; device : mem }.

Inductive commit (a : arch) : machine -> machine -> Prop :=
  | commit_store l1 x bs l2 C D :
      (in_order a = true -> l1 = []) -> Forall (overtakes x bs) l1 ->
      commit a (mk (l1 ++ st x bs :: l2) C D) (mk (l1 ++ l2) (write_bytes x bs C) D)
  | commit_clean l1 x l2 C D :
      (in_order a = true -> l1 = []) -> clear_of x l1 ->
      commit a (mk (l1 ++ clean x :: l2) C D) (mk (l1 ++ l2) C (write_bytes x [C x] D))
  | commit_retire i l C D :
      waits i = false -> commit a (mk (i :: l) C D) (mk l C D)
  | write_back x l C D :
      commit a (mk l C D) (mk l C (write_bytes x [C x] D)).

(** In-order execution, as the host sees it. *)
Definition exec1 (m : mem) (i : instr) : mem :=
  match i with st x bs => write_bytes x bs m | _ => m end.
Definition run (m : mem) (l : list instr) : mem := fold_left exec1 l m.

(** ** Facts *)

Lemma machine_run_app m l l' : run m (l ++ l') = run (run m l) l'.
Proof. apply fold_left_app. Qed.

Lemma run_ext l : forall m m', (forall x, m x = m' x) -> forall x, run m l x = run m' l x.
Proof.
  induction l as [|i l IH]; intros m m' H x; [apply H|]. apply IH. intros y.
  destruct i; cbn [exec1]; try apply H. unfold write_bytes. by rewrite H.
Qed.

Lemma write_clear x a bs m : leaves x (st a bs) -> write_bytes a bs m x = m x.
Proof.
  intros Hi. unfold write_bytes. destruct (_ && _) eqn:E; [|done].
  apply andb_true_iff in E as [?%Z.leb_le ?%Z.ltb_lt]. cbn [leaves] in Hi. lia.
Qed.

Lemma write_one x v m y : write_bytes x [v] m y = if decide (y = x) then v else m y.
Proof.
  destruct (decide (y = x)) as [->|Hne].
  - unfold write_bytes. cbn [length]. rewrite (proj2 (Z.leb_le x x)) by lia.
    rewrite (proj2 (Z.ltb_lt x (x + Z.of_nat 1))) by lia. cbn [andb]. by rewrite Z.sub_diag.
  - apply write_clear. cbn [leaves length]. lia.
Qed.

Lemma run_clear l : forall m x, clear_of x l -> run m l x = m x.
Proof.
  induction l as [|i l IH]; intros m x H; [done|]. apply Forall_cons in H as [Hi H].
  change (run (exec1 m i) l x = m x). rewrite IH by done. destruct i; try done. by apply write_clear.
Qed.

Lemma write_swap x bs y cs m z : apart x (length bs) y (length cs) ->
  write_bytes x bs (write_bytes y cs m) z = write_bytes y cs (write_bytes x bs m) z.
Proof.
  intros H. unfold write_bytes, apart in *.
  destruct (_ && _) eqn:E1, ((y <=? z) && _) eqn:E2; try done.
  apply andb_true_iff in E1 as [?%Z.leb_le ?%Z.ltb_lt].
  apply andb_true_iff in E2 as [?%Z.leb_le ?%Z.ltb_lt]. lia.
Qed.

(** A store that overtakes [l] commutes with it. *)
Lemma run_overtaken l : forall x bs m z, Forall (overtakes x bs) l ->
  run (write_bytes x bs m) l z = write_bytes x bs (run m l) z.
Proof.
  induction l as [|i l IH]; intros x bs m z H; [done|]. apply Forall_cons in H as [Hi H].
  change (run (exec1 (write_bytes x bs m) i) l z = write_bytes x bs (run (exec1 m i) l) z).
  rewrite <- IH by done. apply run_ext. intros w. destruct i; try done. cbn [exec1].
  symmetry. apply write_swap, Hi.
Qed.

(** A step does not change the host memory that in-order execution of the rest arrives at. *)
Lemma commit_run a s s' : commit a s s' ->
  forall z, run (host s') (pending s') z = run (host s) (pending s) z.
Proof.
  intros [l1 x bs l2 C D _ H|l1 x l2 C D _ _|i l C D H|x l C D] z; cbn [host pending]; [..|done].
  - rewrite !machine_run_app. cbn [run fold_left]. apply run_ext. intros w.
    change (run (write_bytes x bs C) l1 w = write_bytes x bs (run C l1) w). by apply run_overtaken.
  - by rewrite !machine_run_app.
  - by destruct i.
Qed.

Lemma commits_run a s s' : rtc (commit a) s s' ->
  forall z, run (host s') (pending s') z = run (host s) (pending s) z.
Proof. induction 1 as [|s1 s2 s3 H _ IH]; intros z; [done|]. rewrite IH. by eapply commit_run. Qed.

(** whatever the order in which stores overtake each other, when the buffer is empty the host's
    memory is what in-order execution leaves: the machine never changes what the program stores,
    only when it is seen. *)
Theorem drained_memory_in_order a l C D s :
  rtc (commit a) (mk l C D) s -> pending s = [] -> forall x, host s x = run C l x.
Proof. intros H E x. pose proof (commits_run a _ _ H x) as Hr. by rewrite E in Hr. Qed.

(** Every buffer can be drained. *)
Lemma drains a s : exists s', rtc (commit a) s s' /\ pending s' = [].
Proof.
  destruct s as [l C D]. revert C D. induction l as [|i l IH]; intros C D; [by eexists|].
  assert (H : exists C' D', commit a (mk (i :: l) C D) (mk l C' D')).
  { destruct i; try (do 2 eexists; by apply commit_retire).
    - do 2 eexists. by apply (commit_store a [] _ _ l).
    - do 2 eexists. apply (commit_clean a [] _ l); [done|constructor]. }
  destruct H as (C' & D' & H). destruct (IH C' D') as (s' & Hs & E).
  exists s'. split; [by eapply rtc_l|done].
Qed.

(** A byte no pending store touches, and that both memories agree on, stays. *)
Definition still (x v : Z) (s : machine) : Prop :=
  clear_of x (pending s) /\ host s x = v /\ device s x = v.

Lemma clear_of_removed x l1 i l2 : clear_of x (l1 ++ i :: l2) -> clear_of x (l1 ++ l2) /\ leaves x i.
Proof. unfold clear_of. rewrite !Forall_app, Forall_cons. tauto. Qed.

Lemma still_commits a x v s s' : rtc (commit a) s s' -> still x v s -> still x v s'.
Proof.
  induction 1 as [|s1 s2 s3 H _ IH]; intros Hs; [done|]. apply IH. clear IH. unfold still in *.
  destruct H as [l1 y bs l2 C D _ _|l1 y l2 C D _ _|i l C D _|y l C D]; cbn [pending host device] in *;
    destruct Hs as (Hc & Hh & Hd).
  - apply clear_of_removed in Hc as [Hc Hl]. by rewrite write_clear.
  - apply clear_of_removed in Hc as [Hc _]. rewrite write_one. by case_decide; subst.
  - by apply Forall_cons in Hc as [_ Hc].
  - rewrite write_one. by case_decide; subst.
Qed.

(** A byte that is still to be cleaned behind every store to it, or that no store is pending to
    and that the device sees as the host does. *)
Definition synced (x : Z) (s : machine) : Prop :=
  (exists k1 k2, pending s = k1 ++ clean x :: k2 /\ clear_of x k2) \/
  (clear_of x (pending s) /\ device s x = host s x).

Lemma split_cases {A} (l1 l2 k1 k2 : list A) i j : l1 ++ i :: l2 = k1 ++ j :: k2 ->
  (exists k, k1 = l1 ++ i :: k /\ l2 = k ++ j :: k2) \/ (l1 = k1 /\ i = j /\ l2 = k2) \/
  (exists k, l1 = k1 ++ j :: k /\ k2 = k ++ i :: l2).
Proof.
  revert k1. induction l1 as [|b l1 IH]; intros [|d k1] E; cbn [app] in E; simplify_eq.
  - right; left. done.
  - left. by eexists.
  - right; right. by eexists.
  - destruct (IH k1) as [(k & -> & ->)|[(-> & -> & ->)|(k & -> & ->)]]; [done|..]; [left|right..].
    + by eexists.
    + by left.
    + right. by eexists.
Qed.

(** Taking an instruction out of the buffer that is not the cleaning. *)
Lemma synced_removed x l1 i l2 k1 k2 : l1 ++ i :: l2 = k1 ++ clean x :: k2 -> clear_of x k2 ->
  i = clean x /\ l2 = k2 \/ exists k1' k2', l1 ++ l2 = k1' ++ clean x :: k2' /\ clear_of x k2'.
Proof.
  intros [(k & -> & ->)|[(-> & -> & ->)|(k & -> & ->)]]%split_cases Hc; [right| by left |right].
  - exists (l1 ++ k), k2. by rewrite <- app_assoc.
  - exists k1, (k ++ l2). rewrite <- app_assoc. split; [done|]. by apply clear_of_removed in Hc as [? _].
Qed.

Lemma synced_commits a x s s' : rtc (commit a) s s' -> synced x s -> synced x s'.
Proof.
  induction 1 as [|s1 s2 s3 H _ IH]; intros Hs; [done|]. apply IH. clear IH. unfold synced in *.
  destruct H as [l1 y bs l2 C D _ _|l1 y l2 C D _ Hy|i l C D Hi|y l C D]; cbn [pending host device] in *;
    destruct Hs as [(k1 & k2 & E & Hc)|[Hc Hd]]; try (by left; eauto).
  - destruct (synced_removed _ _ _ _ _ _ E Hc) as [[? _]|Hk]; [done|by left].
  - apply clear_of_removed in Hc as [Hc Hl]. right. by rewrite write_clear.
  - destruct (synced_removed _ _ _ _ _ _ E Hc) as [[[= ->] ->]|Hk]; [right|by left].
    rewrite write_one, decide_True by done. split; [by apply Forall_app|done].
  - apply clear_of_removed in Hc as [Hc _]. right. rewrite write_one. by case_decide; subst.
  - destruct (synced_removed _ [] _ _ _ _ E Hc) as [[-> _]|Hk]; [done|by left].
  - apply Forall_cons in Hc as [_ Hc]. by right.
  - right. rewrite write_one. by case_decide; subst.
Qed.

(** When nothing is pending the device sees such a byte as the program leaves it. *)
Lemma synced_seen a x l C D s : rtc (commit a) (mk l C D) s -> synced x (mk l C D) ->
  pending s = [] -> device s x = run C l x.
Proof.
  intros H Hs E. apply (synced_commits _ _ _ _ H) in Hs as [(k1 & k2 & Ek & _)|[_ Hd]].
  - rewrite E in Ek. by destruct k1.
  - rewrite Hd. by eapply drained_memory_in_order.
Qed.

(** ** Publication *)

(** The instruction [f] keeps later stores behind it, by itself or because nothing overtakes. *)
Definition holds_back (a : arch) (f : instr) : Prop :=
  waits f = false /\ (orders_stores f = true \/ in_order a = true).

(** What can be reached from [pre; f; post], where [post] stores to the bytes [J] alone: as long as
    [f] is pending, what [pre] by itself reaches; afterwards every other byte is what [pre] leaves,
    for the host and, where [pre] cleaned it last, for the device. *)
Definition fenced (a : arch) (J : Z -> Prop) (pre : list instr) (f : instr) (C0 D0 : mem) (s : machine) : Prop :=
  (exists l1 post, pending s = l1 ++ f :: post /\ (forall x, ~ J x -> clear_of x post) /\
     rtc (commit a) (mk pre C0 D0) (mk l1 (host s) (device s))) \/
  (forall x, ~ J x -> clear_of x (pending s) /\ host s x = run C0 pre x /\
     (synced x (mk pre C0 D0) -> device s x = run C0 pre x)).

(** A store that can be committed stands before [f]. *)
Lemma fenced_split a f l1 post k1 x bs k2 : holds_back a f ->
  (in_order a = true -> k1 = []) -> Forall (overtakes x bs) k1 ->
  k1 ++ st x bs :: k2 = l1 ++ f :: post -> exists k, l1 = k1 ++ st x bs :: k /\ k2 = k ++ f :: post.
Proof.
  intros [Hw Hf] Ho Hk [(k & E & ->)|[(-> & <- & ->)|(k & -> & ->)]]%split_cases; [by exists k|done|].
  destruct Hf as [Hf|Hf]; [|by destruct l1; specialize (Ho Hf)].
  apply Forall_app in Hk as [_ [Hi _]%Forall_cons]. destruct f; cbn in *; congruence.
Qed.

Lemma fenced_step a J pre f C0 D0 s s' : holds_back a f ->
  fenced a J pre f C0 D0 s -> commit a s s' -> fenced a J pre f C0 D0 s'.
Proof.
  intros Hf [(l1 & post & El & Hp & Hr)|Hdone] H.
  - inversion H as [k1 x bs k2 C D Ho Hk E1 E2|k1 x k2 C D Ho Hk E1 E2|i l C D Hi E1 E2|x l C D E1 E2];
      subst; cbn [pending host device] in *.
    + destruct (fenced_split a f l1 post k1 x bs k2 Hf Ho Hk El) as (k & -> & ->).
      left. exists (k1 ++ k), post. split; [by rewrite <- app_assoc|]. split; [done|].
      eapply rtc_r; [exact Hr|]. by apply commit_store.
    + left. apply split_cases in El as [(k & -> & ->)|[(-> & <- & ->)|(k & -> & ->)]].
      * exists (k1 ++ k), post. split; [by rewrite <- app_assoc|]. split; [done|].
        eapply rtc_r; [exact Hr|]. by apply commit_clean.
      * by destruct Hf.
      * exists l1, (k ++ k2). split; [by rewrite <- app_assoc|]. split.
        -- intros z Hz. by apply Hp, clear_of_removed in Hz as [? _].
        -- eapply rtc_r; [exact Hr|]. apply write_back.
    + destruct l1 as [|j l1]; injection El as -> ->.
      * right. intros x Hx. split; [by apply Hp|].
        split; [by eapply (drained_memory_in_order a _ _ _ _ Hr)|]. intros Hs. by apply (synced_seen a _ _ _ _ _ Hr).
      * left. exists l1, post. split; [done|]. split; [done|].
        eapply rtc_r; [exact Hr|]. by apply commit_retire.
    + left. exists l1, post. split; [done|]. split; [done|]. eapply rtc_r; [exact Hr|]. apply write_back.
  - right. intros z Hz. destruct (Hdone z Hz) as (Hc & Hh & Hd). clear Hdone.
    destruct H as [k1 x bs k2 C D Ho Hk|k1 x k2 C D Ho Hk|i l C D Hi|x l C D]; cbn [pending host device] in *.
    + apply clear_of_removed in Hc as [Hc Hl]. by rewrite write_clear.
    + apply clear_of_removed in Hc as [Hc _]. split_and!; [done..|]. rewrite write_one.
      intros Hs. case_decide; [by subst|by apply Hd].
    + apply Forall_cons in Hc as [_ Hc]. done.
    + split_and!; [done..|]. rewrite write_one. intros Hs. case_decide; [by subst|by apply Hd].
Qed.

Lemma fenced_reach a J pre f post C0 D0 s : holds_back a f -> (forall x, ~ J x -> clear_of x post) ->
  rtc (commit a) (mk (pre ++ f :: post) C0 D0) s -> fenced a J pre f C0 D0 s.
Proof.
  intros Hf Hp H. remember (mk (pre ++ f :: post) C0 D0) as s0.
  assert (H0 : fenced a J pre f C0 D0 s0) by (subst s0; left; by exists pre, post).
  clear Heqs0. induction H as [|s1 s2 s3 Hs _ IH]; [done|]. apply IH. by eapply fenced_step.
Qed.

(** On every architecture but 32-bit Arm, [smp_wmb] is one such instruction. *)
Lemma wmb_holds_back a : a <> arm -> exists f, smp_wmb a = [f] /\ holds_back a f.
Proof. intros Ha. destruct a; [done|..]; (eexists; split; [reflexivity|]); split; (reflexivity || (by left) || by right). Qed.

(** Two one-byte stores with only a compiler barrier between them are seen in the wrong order. *)
Lemma compiler_barrier_overtaken a p q m : in_order a = false -> p <> q ->
  exists s, rtc (commit a) (mk ([st p [1]] ++ barrier ++ [st q [1]]) m m) s /\
    device s q = 1 /\ device s p = m p.
Proof.
  intros Ha Hpq. eexists. split.
  - eapply rtc_l; [|apply rtc_once, (write_back a q)]. cbn [app barrier].
    apply (commit_store a [st p [1]; asm_memory] q [1] []).
    + by rewrite Ha.
    + apply Forall_cons. split; [unfold overtakes, apart; cbn [length]; lia | by repeat constructor].
  - cbn [device]. rewrite !write_one. repeat case_decide; done.
Qed.

(** two functions of the header do not order what they are named for.  On 32-bit Arm [smp_wmb]
    is only a compiler barrier, and [smp_store_release] is one on every architecture, so that on
    both Arm architectures the device can see the later store while the earlier byte still has
    its old value. *)
Theorem barriers_without_hardware_order p q m :
  p <> q ->
  (exists s, rtc (commit arm) (mk ([st p [1]] ++ smp_wmb arm ++ [st q [1]]) m m) s /\
     device s q = 1 /\ device s p = m p) /\
  (exists s, rtc (commit aarch64) (mk ([st p [1]] ++ smp_store_release (Some q) [1]) m m) s /\
     device s q = 1 /\ device s p = m p).
Proof. intros Hpq. split; by apply compiler_barrier_overtaken. Qed.

(** ** The queue of the control firmware *)

Section Queue.
Context {rt : AieRt} {sm : StableMem rt}.
Variable inst_size : Z -> nat.

(** What the calls of the host execute: stores, the barrier, and the cleaning of an instance.
    The other calls neither store nor order anything the theorem relies on. *)
Definition instrs_of_call (a : arch) (c : call) : list instr :=
  match c with
  | cpu_store x bs => [st x bs]
  | Driver.smp_wmb => smp_wmb a
  | XAie_MemSyncForDev mi => map (fun i => clean (va mi + Z.of_nat i)) (seq 0 (inst_size mi))
  | _ => []
  end.
Definition instrs_of (a : arch) (cs : list call) : list instr := flat_map (instrs_of_call a) cs.

(** The calls made between two histories. *)
Definition calls_since (h h' : hist) : list call := drop (length h) (map fst h').

Lemma instrs_of_app a cs cs' : instrs_of a (cs ++ cs') = instrs_of a cs ++ instrs_of a cs'.
Proof. apply flat_map_app. Qed.

Lemma run_cleans (f : nat -> Z) l m : run m (map (fun i => clean (f i)) l) = m.
Proof. induction l as [|i l IH]; done. Qed.

Lemma run_instrs_of a cs : forall m, run m (instrs_of a cs) = mem_of m cs.
Proof.
  induction cs as [|c cs IH]; intros m; [done|]. cbn [instrs_of flat_map]. rewrite machine_run_app, IH.
  destruct c; try done; cbn [instrs_of_call]; [by rewrite run_cleans | by destruct a].
Qed.

Lemma clear_cleans x (f : nat -> Z) l : clear_of x (map (fun i => clean (f i)) l).
Proof. apply Forall_map, Forall_true. done. Qed.

Lemma instrs_of_keeps a cs x n : Forall (keeps x n) cs ->
  forall y, x <= y < x + Z.of_nat n -> clear_of y (instrs_of a cs).
Proof.
  intros H y Hy. induction H as [|c cs Hc H IH]; [constructor|]. cbn [instrs_of flat_map].
  apply Forall_app. split; [|done]. destruct c; try constructor; cbn [keeps] in Hc.
  - apply clear_cleans.
  - unfold apart in Hc. cbn [leaves]. lia.
  - constructor.
  - destruct a; by repeat constructor.
Qed.

Lemma read_bytes_ext_in a n m m' :
  (forall x, a <= x < a + Z.of_nat n -> m x = m' x) -> read_bytes a n m = read_bytes a n m'.
Proof.
  intros H. unfold read_bytes. apply map_ext_in. intros i Hi%in_seq. apply H. lia.
Qed.

(** A byte of an instance that is cleaned behind the last store to it. *)
Lemma synced_instance a mi x cs1 cs2 C D :
  va mi <= x < va mi + Z.of_nat (inst_size mi) -> clear_of x (instrs_of a cs2) ->
  synced x (mk (instrs_of a (cs1 ++ XAie_MemSyncForDev mi :: cs2)) C D).
Proof.
  intros Hx Hc. left. cbn [pending]. rewrite instrs_of_app. cbn [instrs_of flat_map instrs_of_call].
  set (n := Z.to_nat (x - va mi)).
  replace (inst_size mi) with (n + S (inst_size mi - S n))%nat by lia.
  rewrite seq_app. cbn [seq]. rewrite map_app. cbn [map].
  exists (instrs_of a cs1 ++ map (fun i => clean (va mi + Z.of_nat i)) (seq 0 n)),
    (map (fun i => clean (va mi + Z.of_nat i)) (seq (S (0 + n)) (inst_size mi - S n)) ++ instrs_of a cs2).
  split.
  - rewrite <- !app_assoc. cbn [app]. do 4 f_equal. lia.
  - apply Forall_app. split; [apply clear_cleans|done].
Qed.

(** The bytes [[b, b + k)] have been synchronised for the device since the host last stored to
    them: by the calls [pre], or because they lie in the queue's instance [mi], which [ring]
    synchronises itself. *)
Definition flushed (pre : list call) (mi b : Z) (k : nat) : Prop :=
  inside inst_size b k mi \/
  exists mi' p1 p2, pre = p1 ++ XAie_MemSyncForDev mi' :: p2 /\ inside inst_size b k mi' /\
    Forall (keeps b k) p2.

Lemma flushed_synced a pre mi b k x C D : flushed pre mi b k -> b <= x < b + Z.of_nat k ->
  synced x (mk (instrs_of a (pre ++ [XAie_MemSyncForDev mi])) C D).
Proof.
  intros [Hin|(mi' & p1 & p2 & -> & Hin & Hk)] Hx; unfold inside in Hin.
  - apply synced_instance; [lia|constructor].
  - rewrite <- app_assoc. apply synced_instance; [lia|]. rewrite instrs_of_app. apply Forall_app. split.
    + by eapply instrs_of_keeps.
    + by apply (instrs_of_keeps a _ x 1); [repeat constructor|lia].
Qed.

(** C21: the queue's index is the last thing the firmware can see of a submission.  After any
    calls [pre] that leave the index alone, in whatever order their stores reach memory, let [ring]
    run: in every state of the device's memory that can be reached on an architecture other than
    32-bit Arm, caches writing back whatever and whenever they like, either the device still has
    the old index, or it has every byte that was synchronised since it was last stored to,
    the bytes of the queue among them, as all the stores of [pre] leave it.  And from every such
    state the rest can be executed; once nothing is pending the device has the whole queue, the
    new index included, as the host stored it.  The two memories are taken to agree on the index
    at the start, and the queue's memory to hold the index. *)
Theorem index_visible_last a c sl h h' pre C0 D0 s :
  let idx := hsa_q sl + off_write_index in
  let program := pre ++ calls_since h h' in
  a <> arm -> hsa_q sl = va (hsa_meminst c) -> inside inst_size idx 8 (hsa_meminst c) ->
  Forall (keeps idx 8) pre -> (forall x, idx <= x < idx + 8 -> D0 x = C0 x) ->
  ring c sl h = Some (tt, h') ->
  rtc (commit a) (mk (instrs_of a program) C0 D0) s ->
  (read_bytes idx 8 (device s) = read_bytes idx 8 C0 \/
   forall b k, flushed pre (hsa_meminst c) b k -> apart b k idx 8 ->
     read_bytes b k (device s) = read_bytes b k (mem_of C0 pre)) /\
  (exists s', rtc (commit a) s s' /\ pending s' = []) /\
  (pending s = [] -> forall b k, inside inst_size b k (hsa_meminst c) ->
     read_bytes b k (device s) = read_bytes b k (mem_of C0 program)).
Proof.
  intros idx program Ha Hq Hidx Hpre H0 Hring H.
  assert (Hp : program = (pre ++ [XAie_MemSyncForDev (hsa_meminst c)]) ++ Driver.smp_wmb ::
      [cpu_store idx (le_bytes 8 (Z.land (u64 (write_index sl + 1)) 31)); XAie_MemSyncForDev (hsa_meminst c)]).
  { subst program. rewrite ring_eq in Hring. injection Hring as <-. unfold calls_since.
    rewrite after_calls, drop_app_length' by (by rewrite length_map). by rewrite <- app_assoc. }
  clearbody program. subst program. split_and!; [|apply drains|].
  - destruct (wmb_holds_back a Ha) as (f & Hw & Hf). rewrite instrs_of_app in H.
    cbn [instrs_of flat_map instrs_of_call] in H. rewrite Hw, app_nil_r in H. cbn [app] in H.
    apply (fenced_reach a (fun x => idx <= x < idx + 8) _ _ _ _ _ _ Hf) in H.
    2: { intros x Hx. apply Forall_cons. split; [|apply clear_cleans].
         cbn [leaves]. change (Z.of_nat (length _)) with 8. lia. }
    destruct H as [(l1 & post & _ & _ & Hr)|Hdone]; [left|right].
    + apply read_bytes_ext_in. intros x Hx.
      apply (still_commits _ x (C0 x)) in Hr as (_ & _ & Hd); [done|]. split_and!; cbn [pending host device].
      * rewrite instrs_of_app. apply Forall_app. split; [by eapply instrs_of_keeps|].
        by apply (instrs_of_keeps a _ x 1); [repeat constructor|lia].
      * done.
      * apply H0, Hx.
    + intros b k Hb Hap. apply read_bytes_ext_in. intros x Hx.
      destruct (Hdone x) as (_ & _ & Hd); [unfold apart in Hap; lia|].
      rewrite Hd by (by eapply flushed_synced). by rewrite run_instrs_of, mem_of_app.
  - intros E b k Hb. apply read_bytes_ext_in. intros x Hx. unfold inside in Hb.
    rewrite <- (run_instrs_of a). eapply synced_seen; [exact H| |exact E].
    match goal with |- synced _ (mk (instrs_of _ (?p ++ ?w :: ?i :: ?t)) _ _) =>
      replace (p ++ w :: i :: t) with ((p ++ [w; i]) ++ t) by (by rewrite <- app_assoc) end.
    apply synced_instance; [lia|constructor].
Qed.
End Queue.

(** ** Witnesses *)

Module BarrierDemo.
Definition demo_api : cert_api := set_insts 7 8 (cert_api_new {| StartCol := 0; NumCols := 2; ColShift := 25 |}).
Definition demo_slot : slot := {| hsa_q := 0x70000; write_index := 3; comp_sig_va := 0; comp_sig_dma := 0 |}.
(** A packet's word behind the header. *)
Definition demo_pre : list call := [cpu_store 0x70040 [5; 6; 7; 8]].
Definition demo_ring : list call := ring_calls demo_api demo_slot.
Definition demo_program : list instr :=
  @instrs_of cert_rt cert_mem (fun _ => 128%nat) aarch64 (demo_pre ++ demo_ring).
Definition zeroes : mem := fun _ => 0.
End BarrierDemo.

Lemma drained_memory_in_order_witness :
  exists s, rtc (commit aarch64) (mk BarrierDemo.demo_program BarrierDemo.zeroes BarrierDemo.zeroes) s /\
    forall x, host s x = run BarrierDemo.zeroes BarrierDemo.demo_program x.
Proof.
  destruct (drains aarch64 (mk BarrierDemo.demo_program BarrierDemo.zeroes BarrierDemo.zeroes)) as (s & H & E).
  exists s. split; [exact H|]. exact (drained_memory_in_order aarch64 _ _ _ s H E).
Defined.

(** The whole submission executed: the device sees the packet's word and the new index. *)
Lemma index_visible_last_witness :
  exists s, rtc (commit aarch64) (mk BarrierDemo.demo_program BarrierDemo.zeroes BarrierDemo.zeroes) s /\
    read_bytes 0x70010 8 (device s) = le_bytes 8 4 /\ read_bytes 0x70040 4 (device s) = [5; 6; 7; 8].
Proof.
  destruct (drains aarch64 (mk BarrierDemo.demo_program BarrierDemo.zeroes BarrierDemo.zeroes)) as (s & H & E).
  exists s. split; [exact H|].
  destruct (@index_visible_last cert_rt cert_mem (fun _ => 128%nat) aarch64
    BarrierDemo.demo_api BarrierDemo.demo_slot [] (@after cert_rt [] BarrierDemo.demo_ring)
    BarrierDemo.demo_pre BarrierDemo.zeroes BarrierDemo.zeroes s) as (_ & _ & Hd).
  - discriminate.
  - reflexivity.
  - split; vm_compute; discriminate.
  - apply Forall_singleton. left. vm_compute. discriminate.
  - reflexivity.
  - reflexivity.
  - exact H.
  - split; (rewrite (Hd E); [vm_compute; reflexivity|split; vm_compute; discriminate]).
Defined.

Lemma barriers_without_hardware_order_witness :
  exists s, rtc (commit arm) (mk ([st 0 [1]] ++ smp_wmb arm ++ [st 8 [1]]) BarrierDemo.zeroes BarrierDemo.zeroes) s /\
    device s 8 = 1 /\ device s 0 = 0.
Proof. apply (barriers_without_hardware_order 0 8 BarrierDemo.zeroes). discriminate. Defined.
