(* ===== verification/CertElf.v ===== *)
(** The loader of control ELF files ([cert_elf_loader], [src/cert_elf_loader.cc],
    [src/include/cert_elf_loader.h]): it collects the control code of every column from the
    sections of an ELF file, patches host addresses into it and hands one byte sequence per
    column to [cert_api::submit_command].

    The ELF library is third-party: reading a file and decoding the entries of a relocation
    or symbol section are the members of the class [ElfIO].  A section is its name and its
    data; the data of a section is absent for the types without contents, and the library
    keeps a zero byte behind it.  Buffers inside a section are kept as the index of the
    section, since patching writes through them.  [None] is undefined behaviour: a patch
    outside the data of its section.  Log output is left out. *)
From stdpp Require Import base list gmap sorting.
From Stdlib Require Import ZArith Lia.
From S2P Require Import Prelude HostQueue CertHost.
Local Open Scope Z_scope.
Local Open Scope aeg_scope.

(** * Ordered maps

    [std::map<int, T>] as the list of its entries in key order. *)
Section OrderedMap.
Context {V : Type}.

(** [f(m[k])] where [m[k]] is inserted as [d] when absent. *)
Fixpoint alter_at (k : Z) (d : V) (f : V -> V) (m : list (Z * V)) : list (Z * V) :=
  match m with
  | [] => [(k, f d)]
  | (j, v) :: m' =>
      if k <? j then (k, f d) :: m
      else if k =? j then (j, f v) :: m'
      else (j, v) :: alter_at k d f m'
  end.

Fixpoint assoc (k : Z) (m : list (Z * V)) : option V :=
  match m with
  | [] => None
  | (j, v) :: m => if k =? j then Some v else assoc k m
  end.
End OrderedMap.

(** * Data *)

(** [src/include/cert_elf_loader.h:20-29] [Kind] *)
Definition UC_DMA_REMOTE_PTR_SYMBOL_KIND : Z := 1.
Definition SHIM_DMA_BASE_ADDR_SYMBOL_KIND : Z := 2.
Definition SCALAR_32BIT_KIND : Z := 3.
Definition CONTROL_PACKET_48 : Z := 4.
Definition SHIM_DMA_AIE4_BASE_ADDR_SYMBOL_KIND : Z := 6.
Definition CONTROL_PACKET_57 : Z := 7.
Definition CONTROL_PACKET_57_AIE4 : Z := 9.
Definition UNKNOWN_SYMBOL_KIND : Z := 10.

(** [src/include/cert_elf_loader.h:41-46] [ctrl_page] *)
Record ctrl_page := mkPage {
  text_buf : option nat;
  text_size : Z;
  data_buf : option nat;
  data_size : Z
}.
Definition no_page : ctrl_page := mkPage None 0 None 0.

(** [src/include/cert_elf_loader.h:48-53] [ctrl_pad] *)
Record ctrl_pad := mkPad { pad_buf : option nat; pad_size : Z }.

(** [src/include/cert_elf_loader.h:55-61] [col_code] *)
Record col_code := mkCol {
  pages : list (Z * ctrl_page);
  pad : list ctrl_pad;
  code : list Z;
  host_args : list Z
}.
Definition no_col : col_code := mkCol [] [] [] [].

(** [src/include/cert_elf_loader.h:68-73] [rela_patch] *)
Record rela_patch := mkRela { r_offset : Z; r_symbol : Z; r_type : Z; r_addend : Z }.
Definition no_rela : rela_patch := mkRela 0 0 0 0.

(** [src/include/cert_elf_loader.h:75-83] [dynsym_patch] *)
Record dynsym_patch := mkSym {
  sym_name : list Z; sym_value : Z; sym_size : Z; sym_bind : Z; sym_type : Z;
  section_index : nat; sym_other : Z
}.
Definition no_sym : dynsym_patch := mkSym [] 0 0 0 0 0 0.

(** [src/include/cert_elf_loader.h:85-98] [ccode]
    A string of the dynamic string table is its section and its offset there. *)
Record ccode_t := mkCcode {
  cols : list (Z * col_code);
  rela : list rela_patch;
  dynsym : list dynsym_patch;
  dynstr : list (nat * nat);
  symbol_map : gmap (list Z) Z
}.

(** What the loader sees of a loaded ELF file. *)
Record section := mkSection { get_name : list Z; get_data : option (list Z) }.
Record elfio := mkElf { get_abi_version : Z; sections : list section }.

(** The ELF library: loading a byte sequence or a file, and the accessors of relocation and
    symbol sections, whose results overwrite a value-initialised record. *)
Class ElfIO := {
  elf_load : list Z -> bool * elfio;
  elf_load_file : list Z -> bool * elfio;
  get_entries_num : elfio -> section -> Z;
  get_entry : elfio -> section -> Z -> rela_patch -> rela_patch;
  get_symbols_num : elfio -> section -> Z;
  get_symbol : elfio -> section -> Z -> dynsym_patch -> dynsym_patch
}.

(** [src/include/cert_elf_loader.h:100-124] [cert_elf_loader] *)
Record loader := mkLoader { the_code : ccode_t; elf : elfio }.

Definition with_cols (f : list (Z * col_code) -> list (Z * col_code)) (c : ccode_t) : ccode_t :=
  mkCcode (f (cols c)) (rela c) (dynsym c) (dynstr c) (symbol_map c).
Definition with_rela (f : list rela_patch -> list rela_patch) (c : ccode_t) : ccode_t :=
  mkCcode (cols c) (f (rela c)) (dynsym c) (dynstr c) (symbol_map c).
Definition with_dynsym (f : list dynsym_patch -> list dynsym_patch) (c : ccode_t) : ccode_t :=
  mkCcode (cols c) (rela c) (f (dynsym c)) (dynstr c) (symbol_map c).
Definition with_dynstr (f : list (nat * nat) -> list (nat * nat)) (c : ccode_t) : ccode_t :=
  mkCcode (cols c) (rela c) (dynsym c) (f (dynstr c)) (symbol_map c).
Definition with_pages (f : list (Z * ctrl_page) -> list (Z * ctrl_page)) (c : col_code) : col_code :=
  mkCol (f (pages c)) (pad c) (code c) (host_args c).
Definition with_pad (f : list ctrl_pad -> list ctrl_pad) (c : col_code) : col_code :=
  mkCol (pages c) (f (pad c)) (code c) (host_args c).
Definition with_code (f : list Z -> list Z) (c : col_code) : col_code :=
  mkCol (pages c) (pad c) (f (code c)) (host_args c).
Definition set_text (b : nat) (n : Z) (p : ctrl_page) : ctrl_page :=
  mkPage (Some b) n (data_buf p) (data_size p).
Definition set_data (b : nat) (n : Z) (p : ctrl_page) : ctrl_page :=
  mkPage (text_buf p) (text_size p) (Some b) n.

(** * Section names *)

Definition is_digit (b : Z) : bool := (48 <=? b) && (b <=? 57).
Definition dot : Z := 46.
Definition minus : Z := 45.

(** The longest prefix of digits, its value and the rest. *)
Fixpoint digits (acc : Z) (s : list Z) : Z * list Z :=
  match s with
  | b :: s' => if is_digit b then digits (10 * acc + (b - 48)) s' else (acc, s)
  | [] => (acc, s)
  end.

(** [std::from_chars] for [int32_t] followed by the test that it consumed the whole view: an
    optional minus sign and at least one digit, the value in range. *)
Definition from_chars_all (s : list Z) : option Z :=
  let '(neg, s') := match s with b :: s' => if b =? minus then (true, s') else (false, s) | [] => (false, s) end in
  match s' with
  | b :: _ =>
      if is_digit b then
        let '(v, rest) := digits 0 s' in
        let v := if neg then - v else v in
        match rest with
        | [] => if (- 2 ^ 31 <=? v) && (v <? 2 ^ 31) then Some v else None
        | _ => None
        end
      else None
  | [] => None
  end.

(** [name->compare(0, prefix.size(), prefix) == 0], giving the part behind the prefix. *)
Fixpoint strip_prefix (pre name : list Z) : option (list Z) :=
  match pre, name with
  | [], _ => Some name
  | p :: pre, b :: name => if p =? b then strip_prefix pre name else None
  | _ :: _, [] => None
  end.

(** The part before the first dot and the part behind it. *)
Fixpoint split_dot (s : list Z) : option (list Z * list Z) :=
  match s with
  | [] => None
  | b :: s =>
      if b =? dot then Some ([], s)
      else '(l, r) ← split_dot s; Some (b :: l, r)
  end.

(** ".pad.", ".ctrltext.", ".ctrldata.", ".rela.dyn", ".dynsym", ".dynstr" *)
Definition pad_prefix : list Z := [46; 112; 97; 100; 46].
Definition ctrltext_prefix : list Z := [46; 99; 116; 114; 108; 116; 101; 120; 116; 46].
Definition ctrldata_prefix : list Z := [46; 99; 116; 114; 108; 100; 97; 116; 97; 46].
Definition rela_dyn_name : list Z := [46; 114; 101; 108; 97; 46; 100; 121; 110].
Definition dynsym_name : list Z := [46; 100; 121; 110; 115; 121; 109].
Definition dynstr_name : list Z := [46; 100; 121; 110; 115; 116; 114].

Definition bytes_eqb (a b : list Z) : bool := bool_decide (a = b).

(** [src/cert_elf_loader.cc:352-369] [cert_elf_loader::is_pad] *)
Definition is_pad (name : list Z) : option Z :=
  scol ← strip_prefix pad_prefix name; from_chars_all scol.

(** A column and a page, separated by the first dot. *)
Definition col_page (s : list Z) : option (Z * Z) :=
  '(scol, spage) ← split_dot s;
  match scol with
  | [] => None
  | _ => c ← from_chars_all scol; p ← from_chars_all spage; Some (c, p)
  end.

(** [src/cert_elf_loader.cc:371-402] [cert_elf_loader::is_ctrltext] *)
Definition is_ctrltext (name : list Z) : option (Z * Z) :=
  s ← strip_prefix ctrltext_prefix name; col_page s.

(** [src/cert_elf_loader.cc:404-435] [cert_elf_loader::is_ctrldata] *)
Definition is_ctrldata (name : list Z) : option (Z * Z) :=
  s ← strip_prefix ctrldata_prefix name; col_page s.

(** * Patching *)

(** [ptr[k]] for a [uint32_t *] that points to byte [p] of [d]. *)
Definition in_words (d : list Z) (p k : Z) : bool :=
  (0 <=? p + 4 * k) && (p + 4 * k + 4 <=? Z.of_nat (length d)).
Definition get_word (d : list Z) (p k : Z) : option Z :=
  if in_words d p k then Some (le_val (take 4 (drop (Z.to_nat (p + 4 * k)) d))) else None.
Definition set_word (p k v : Z) (d : list Z) : option (list Z) :=
  if in_words d p k then
    let o := Z.to_nat (p + 4 * k) in
    Some (take o d ++ le_bytes 4 v ++ drop (o + 4) d)
  else None.

(** [src/cert_elf_loader.cc:282-286] [cert_elf_loader::patch_scalar_32] *)
Definition patch_scalar_32 (p patch : Z) (d : list Z) : option (list Z) :=
  w0 ← get_word d p 0;
  let base_address := u64 (w0 + patch) in
  set_word p 0 (u32 (Z.land base_address 0xFFFFFFFF)) d.

(** [src/cert_elf_loader.cc:288-295] [cert_elf_loader::aie4_patch_57] *)
Definition aie4_patch_57 (p offset_val : Z) (d : list Z) : option (list Z) :=
  w0 ← get_word d p 0;
  w1 ← get_word d p 1;
  let base_address := u64 (Z.lor (u64 (Z.shiftl (Z.land w0 0x1FFFFFF) 32)) w1 + offset_val) in
  d ← set_word p 1 (u32 (Z.land base_address 0xFFFFFFFF)) d;
  w0 ← get_word d p 0;
  set_word p 0 (Z.lor (Z.land w0 0xFE000000) (u32 (Z.land (Z.shiftr base_address 32) 0x1FFFFFF))) d.

(** [src/cert_elf_loader.cc:297-304] [cert_elf_loader::aie2ps_patch_57] *)
Definition aie2ps_patch_57 (p patch : Z) (d : list Z) : option (list Z) :=
  w8 ← get_word d p 8;
  w2 ← get_word d p 2;
  w1 ← get_word d p 1;
  let base_address :=
    u64 (Z.lor (Z.lor (u64 (Z.shiftl (Z.land w8 0x1FF) 48)) (u64 (Z.shiftl (Z.land w2 0xFFFF) 32))) w1 + patch) in
  d ← set_word p 1 (u32 (Z.land base_address 0xFFFFFFFF)) d;
  w2 ← get_word d p 2;
  d ← set_word p 2 (Z.lor (Z.land w2 0xFFFF0000) (u32 (Z.land (Z.shiftr base_address 32) 0xFFFF))) d;
  w8 ← get_word d p 8;
  set_word p 8 (Z.lor (Z.land w8 0xFFFFFE00) (u32 (Z.land (Z.shiftr base_address 48) 0x1FF))) d.

(** [src/cert_elf_loader.cc:306-319] [cert_elf_loader::aie2ps_patch_ctrl_57] *)
Definition aie2ps_patch_ctrl_57 (p patch : Z) (d : list Z) : option (list Z) :=
  bd_word2 ← get_word d p 2;
  bd_word3 ← get_word d p 3;
  let base_high := u64 (Z.shiftl (Z.land bd_word3 0xFFFF) 32) in
  let base_address := u64 (Z.lor base_high bd_word2 + patch) in
  d ← set_word p 2 (u32 (Z.land base_address 0xFFFFFFFC)) d;
  w3 ← get_word d p 3;
  set_word p 3 (Z.lor (Z.land w3 0xFFFF0000) (u32 (Z.shiftr base_address 32))) d.

(** [src/cert_elf_loader.cc:321-327] [cert_elf_loader::aie4_patch_ctrl_57] *)
Definition aie4_patch_ctrl_57 (p patch : Z) (d : list Z) : option (list Z) :=
  w1 ← get_word d p 1;
  w2 ← get_word d p 2;
  let base_address := u64 (Z.lor (u64 (Z.shiftl (Z.land w1 0x1FFFFFF) 32)) w2 + patch) in
  d ← set_word p 2 (u32 (Z.land base_address 0xFFFFFFFF)) d;
  w0 ← get_word d p 0;
  set_word p 1 (Z.lor (Z.land w0 0xFE000000) (u32 (Z.land (Z.shiftr base_address 32) 0x1FFFFFF))) d.

(** * Parsing *)

(** The string that starts at byte [o]: the library keeps a zero byte behind the data. *)
Fixpoint c_string (s : list Z) : list Z :=
  match s with
  | b :: s => if b =? 0 then [] else b :: c_string s
  | [] => []
  end.
Definition string_at (e : elfio) (v : nat * nat) : list Z :=
  match sections e !! fst v with
  | Some (mkSection _ (Some d)) => c_string (drop (snd v) d)
  | _ => []
  end.

(** [src/cert_elf_loader.cc:158-169] [cert_elf_loader::parse] the offsets at which the strings
    of a string table start *)
Fixpoint string_starts (p : nat) (at_start : bool) (s : list Z) : list nat :=
  match s with
  | [] => []
  | b :: s => (if at_start then [p] else []) ++ string_starts (S p) (b =? 0) s
  end.

(** [src/cert_elf_loader.cc:20-31] [append_bytes] *)
Definition append_bytes (dst : list Z) (src : option (list Z)) (n : Z) : list Z :=
  match src with
  | None => dst
  | Some s => dst ++ take (Z.to_nat n) s
  end.

(** The bytes a buffer points to. *)
Definition buf_bytes (e : elfio) (b : option nat) : option (list Z) :=
  i ← b; s ← sections e !! i; get_data s.

Definition int_range (n : Z) : list Z := map Z.of_nat (seq 0 (Z.to_nat n)).

Section Parse.
Context {EIO : ElfIO}.

(** [src/cert_elf_loader.cc:84-172] [cert_elf_loader::parse] the body of the section loop *)
Definition parse_section (e : elfio) (i : nat) (c : ccode_t) : ccode_t :=
  match sections e !! i with
  | None => c
  | Some s =>
      match get_data s with
      | None => c
      | Some data =>
          let name := get_name s in
          let size := Z.of_nat (length data) in
          match is_ctrltext name with
          | Some (col, page) =>
              with_cols (alter_at col no_col (with_pages (alter_at page no_page (set_text i size)))) c
          | None =>
          match is_ctrldata name with
          | Some (col, page) =>
              with_cols (alter_at col no_col (with_pages (alter_at page no_page (set_data i size)))) c
          | None =>
          match is_pad name with
          | Some col =>
              with_cols (alter_at col no_col (with_pad (fun ps => ps ++ [mkPad (Some i) size]))) c
          | None =>
              if bytes_eqb name rela_dyn_name then
                with_rela (fun rs => rs ++ map (fun k => get_entry e s k no_rela)
                                             (int_range (s32 (get_entries_num e s)))) c
              else if bytes_eqb name dynsym_name then
                with_dynsym (fun ds => ds ++ map (fun k => get_symbol e s k no_sym)
                                               (int_range (s32 (get_symbols_num e s)))) c
              else if bytes_eqb name dynstr_name then
                with_dynstr (fun vs => vs ++ map (pair i) (string_starts 0 true data)) c
              else c
          end end end
      end
  end.

(** [src/cert_elf_loader.cc:83-173] [cert_elf_loader::parse] the section loop *)
Definition parse_sections (e : elfio) (c : ccode_t) : ccode_t :=
  foldl (fun c i => parse_section e i c) c (seq 0 (length (sections e))).
End Parse.

(** [src/cert_elf_loader.cc:218-221] [cert_elf_loader::parse] what is patched, and by how much *)
Definition patch_kind (e : elfio) (r : rela_patch) : Z :=
  if get_abi_version e =? 2 then s32 (r_type r) else s32 (r_addend r).
Definition patch_addend (e : elfio) (r : rela_patch) : Z :=
  if get_abi_version e =? 2 then u64 (r_addend r) else Z.shiftr (u64 (r_addend r)) 4.

(** [src/cert_elf_loader.cc:223-256] [cert_elf_loader::parse] the switch on the kind *)
Definition apply_patch (kind p patch : Z) (d : list Z) : option (list Z) :=
  if kind =? SCALAR_32BIT_KIND then patch_scalar_32 p patch d
  else if kind =? SHIM_DMA_BASE_ADDR_SYMBOL_KIND then aie2ps_patch_57 p patch d
  else if kind =? SHIM_DMA_AIE4_BASE_ADDR_SYMBOL_KIND then aie4_patch_57 p patch d
  else if kind =? CONTROL_PACKET_57 then aie2ps_patch_ctrl_57 p patch d
  else if kind =? CONTROL_PACKET_57_AIE4 then aie4_patch_ctrl_57 p patch d
  else Some d.

Definition set_section_data (i : nat) (d : list Z) (e : elfio) : elfio :=
  mkElf (get_abi_version e)
    (match sections e !! i with
     | Some s => <[i := mkSection (get_name s) (Some d)]> (sections e)
     | None => sections e
     end).

(** The section a relocation patches and the value it adds, when the loader finds them. *)
Definition target (c : ccode_t) (e : elfio) (r : rela_patch) : option (nat * Z) :=
  let dynsym_index := Z.to_nat (r_symbol r) in
  sym ← dynsym c !! dynsym_index;
  str ← dynstr c !! dynsym_index;
  a ← symbol_map c !! string_at e str;
  _ ← sections e !! section_index sym;
  Some (section_index sym, a).

(** [src/cert_elf_loader.cc:177-256] [cert_elf_loader::parse] the body of the relocation loop *)
Definition relocate (c : ccode_t) (e : elfio) (r : rela_patch) : option elfio :=
  match target c e r with
  | None => Some e
  | Some (i, a) =>
      let p := u64 (r_offset r + 16) in
      let kind := patch_kind e r in
      match buf_bytes e (Some i) with
      | Some d =>
          d' ← apply_patch kind p (u64 (a + patch_addend e r)) d;
          Some (set_section_data i d' e)
      | None => None
      end
  end.

(** [src/cert_elf_loader.cc:176-257] [cert_elf_loader::parse] the relocation loop *)
Fixpoint relocate_all (c : ccode_t) (rs : list rela_patch) (e : elfio) : option elfio :=
  match rs with
  | [] => Some e
  | r :: rs => e ← relocate c e r; relocate_all c rs e
  end.

(** [src/cert_elf_loader.cc:261-271] [cert_elf_loader::parse] the code of a column *)
Definition build_code (e : elfio) (cc : col_code) : col_code :=
  let cc := foldl (fun cc '(_, cpage) =>
      let cc := with_code (fun b => append_bytes b (buf_bytes e (text_buf cpage)) (text_size cpage)) cc in
      with_code (fun b => append_bytes b (buf_bytes e (data_buf cpage)) (data_size cpage)) cc)
    cc (pages cc) in
  foldl (fun cc p => with_code (fun b => append_bytes b (buf_bytes e (pad_buf p)) (pad_size p)) cc)
    cc (pad cc).

Section Loader.
Context {EIO : ElfIO}.

(** [src/cert_elf_loader.cc:57-280] [cert_elf_loader::parse] *)
Definition parse (l : loader) : option (Z * loader) :=
  let c := mkCcode [] [] [] [] (symbol_map (the_code l)) in
  let c := parse_sections (elf l) c in
  e ← relocate_all c (rela c) (elf l);
  Some (0, mkLoader (with_cols (map (fun '(col, cc) => (col, build_code e cc))) c) e).

(** [src/cert_elf_loader.cc:339-350] [cert_elf_loader::begin(elf_ptr, elf_size)] on a new
    loader; -19 is [-ENODEV]. *)
Definition begin (bytes : list Z) (l : loader) : Z * loader :=
  let '(ret, e) := elf_load bytes in
  ((if ret then 0 else -19), mkLoader (the_code l) e).

(** [src/cert_elf_loader.cc:329-337] [cert_elf_loader::begin(filename)] *)
Definition begin_file (filename : list Z) (l : loader) : Z * loader :=
  let '(ret, e) := elf_load_file filename in
  ((if ret then 0 else -19), mkLoader (the_code l) e).

(** [src/cert_elf_loader.cc:36-42] [cert_elf_loader::cert_elf_loader] *)
Definition cert_elf_loader_new : loader := mkLoader (mkCcode [] [] [] [] ∅) (mkElf 0 []).
Definition cert_elf_loader (ctrl_elf : list Z) (symbol : gmap (list Z) Z) : loader :=
  snd (begin ctrl_elf (mkLoader (mkCcode [] [] [] [] symbol) (mkElf 0 []))).

(** The code of the columns, as [submit_command] reads it. *)
Definition column_codes (l : loader) : ccode := map (fun '(col, cc) => (col, code cc)) (cols (the_code l)).
End Loader.

(** * Words in memory *)

(** Bytes outside the word are not touched. *)
Definition same_outside (lo hi : Z) (d d' : list Z) : Prop :=
  length d' = length d /\
  forall n, Z.of_nat n < lo \/ hi <= Z.of_nat n -> d' !! n = d !! n.

Lemma same_outside_refl lo hi d : same_outside lo hi d d.
Proof. done. Qed.

Lemma same_outside_trans lo hi d1 d2 d3 :
  same_outside lo hi d1 d2 -> same_outside lo hi d2 d3 -> same_outside lo hi d1 d3.
Proof. intros [L1 H1] [L2 H2]; split; [lia|intros n Hn; rewrite H2, H1; done]. Qed.

Lemma same_outside_weaken lo hi lo' hi' d d' :
  lo' <= lo -> hi <= hi' -> same_outside lo hi d d' -> same_outside lo' hi' d d'.
Proof. intros ?? [L H]; split; [done|intros n Hn; apply H; lia]. Qed.

Lemma in_words_iff d p k :
  in_words d p k = true <-> 0 <= p + 4 * k /\ p + 4 * k + 4 <= Z.of_nat (length d).
Proof. unfold in_words; rewrite andb_true_iff, !Z.leb_le; done. Qed.

Lemma get_word_Some d p k w :
  get_word d p k = Some w <->
  in_words d p k = true /\ w = le_val (take 4 (drop (Z.to_nat (p + 4 * k)) d)).
Proof. unfold get_word; destruct (in_words d p k); split; [intros [= <-]|intros [? ->]|intros|intros []]; done. Qed.

Lemma get_word_range d p k w : bytes_ok d -> get_word d p k = Some w -> 0 <= w < 2 ^ 32.
Proof.
  intros Hd [Hi ->]%get_word_Some; apply in_words_iff in Hi.
  assert (Hb : bytes_ok (take 4 (drop (Z.to_nat (p + 4 * k)) d)))
    by (apply Forall_take, Forall_drop; done).
  pose proof (le_val_range _ Hb) as Hr; rewrite length_take, length_drop in Hr.
  replace (4 `min` (length d - Z.to_nat (p + 4 * k)))%nat with 4%nat in Hr by lia; lia.
Qed.

Lemma set_word_outside p k v d d' :
  set_word p k v d = Some d' -> same_outside (p + 4 * k) (p + 4 * k + 4) d d'.
Proof.
  unfold set_word; destruct (in_words d p k) eqn:Hi; [|done]; intros <-%(inj Some).
  apply in_words_iff in Hi; split.
  - rewrite !length_app, length_take, length_drop, le_bytes_length; lia.
  - intros n Hn; destruct (decide (Z.of_nat n < p + 4 * k)).
    + rewrite lookup_app_l by (rewrite length_take; lia); apply lookup_take_lt; lia.
    + rewrite lookup_app_r by (rewrite length_take; lia).
      rewrite lookup_app_r by (rewrite length_take, le_bytes_length; lia).
      rewrite lookup_drop, length_take, le_bytes_length; f_equal; lia.
Qed.

Lemma set_word_ok p k v d d' : bytes_ok d -> set_word p k v d = Some d' -> bytes_ok d'.
Proof.
  unfold set_word; destruct (in_words d p k); [|done]; intros Hd <-%(inj Some).
  apply Forall_app; split; [by apply Forall_take|].
  apply Forall_app; split; [apply le_bytes_ok|by apply Forall_drop].
Qed.

Lemma set_word_total p k v d :
  0 <= p + 4 * k -> p + 4 * k + 4 <= Z.of_nat (length d) -> exists d', set_word p k v d = Some d'.
Proof.
  intros; unfold set_word; rewrite (proj2 (in_words_iff d p k)) by done; eauto.
Qed.

Lemma get_set_same p k v d d' :
  set_word p k v d = Some d' -> get_word d' p k = Some (u32 v).
Proof.
  intros H; pose proof (proj1 (set_word_outside _ _ _ _ _ H)) as Hl; revert H.
  unfold set_word; destruct (in_words d p k) eqn:Hi; [|done]; intros <-%(inj Some).
  apply get_word_Some; unfold in_words in *; rewrite Hl; split; [done|].
  apply in_words_iff in Hi; rewrite drop_app_ge by (rewrite length_take; lia).
  rewrite length_take.
  replace (Z.to_nat (p + 4 * k) - Z.to_nat (p + 4 * k) `min` length d)%nat with 0%nat by lia.
  rewrite drop_0, take_app_le, take_ge, le_val_bytes by (rewrite ?le_bytes_length; lia); done.
Qed.

Lemma get_set_other p k j v d d' :
  j <> k -> set_word p k v d = Some d' -> get_word d' p j = get_word d p j.
Proof.
  intros Hjk H; destruct (set_word_outside _ _ _ _ _ H) as [Hl Ho].
  unfold get_word, in_words; rewrite Hl; fold (in_words d p j).
  destruct (in_words d p j) eqn:Hi; [|done]; apply in_words_iff in Hi; do 2 f_equal.
  apply list_eq; intros n; destruct (decide (n < 4)%nat).
  - rewrite !lookup_take_lt, !lookup_drop by lia; apply Ho; lia.
  - rewrite !lookup_take_ge by lia; done.
Qed.

(** * What patching means

    A patch adds to an address whose bits are spread over words: [(k, w)] is the low [w] bits
    of word [k], the least significant part first. *)
Definition format := list (Z * Z).

Definition word (d : list Z) (p k : Z) : Z := default 0 (get_word d p k).

Fixpoint address (f : format) (d : list Z) (p : Z) : Z :=
  match f with
  | [] => 0
  | (k, w) :: f => word d p k mod 2 ^ w + 2 ^ w * address f d p
  end.
Definition width (f : format) : Z := foldr (fun '(_, w) n => w + n) 0 f.

(** The address has grown by [a], modulo its width; the other bits of its words and all other
    words are as before. *)
Definition patched (f : format) (p a : Z) (d d' : list Z) : Prop :=
  address f d' p = (address f d p + a) mod 2 ^ width f /\
  Forall (fun '(k, w) => word d' p k / 2 ^ w = word d p k / 2 ^ w) f /\
  (forall k, k ∉ f.*1 -> word d' p k = word d p k) /\
  same_outside p (p + 36) d d' /\ bytes_ok d'.

(** Where the address of a kind of patch is. *)
Definition kind_format (kind : Z) : option format :=
  if kind =? SCALAR_32BIT_KIND then Some [(0, 32)]
  else if kind =? SHIM_DMA_BASE_ADDR_SYMBOL_KIND then Some [(1, 32); (2, 16); (8, 9)]
  else if kind =? SHIM_DMA_AIE4_BASE_ADDR_SYMBOL_KIND then Some [(1, 32); (0, 25)]
  else if kind =? CONTROL_PACKET_57 then Some [(2, 32); (3, 16)]
  else if kind =? CONTROL_PACKET_57_AIE4 then Some [(2, 32); (1, 25)]
  else None.

(** What a control packet must satisfy for its patch to be exact. *)
Definition packet_ok (kind p a : Z) (d : list Z) : Prop :=
  (kind = CONTROL_PACKET_57 ->
     let v := address [(2, 32); (3, 16)] d p + a in v < 2 ^ 48 /\ v mod 4 = 0) /\
  (kind = CONTROL_PACKET_57_AIE4 -> word d p 0 / 2 ^ 25 = word d p 1 / 2 ^ 25).

Lemma word_range d p k : bytes_ok d -> 0 <= word d p k < 2 ^ 32.
Proof.
  intros Hd; unfold word; destruct (get_word d p k) eqn:E; simpl; [|lia].
  eapply get_word_range; done.
Qed.

Lemma get_word_word d p k :
  0 <= p + 4 * k -> p + 4 * k + 4 <= Z.of_nat (length d) -> get_word d p k = Some (word d p k).
Proof.
  intros; unfold word, get_word; rewrite (proj2 (in_words_iff d p k)) by done; done.
Qed.

(** Keeping the bits from [n] upwards of a 32-bit word and putting [x] below them. *)
Lemma put_low w x n :
  0 <= w < 2 ^ 32 -> 0 <= n <= 32 -> 0 <= x < 2 ^ n ->
  Z.lor (Z.land w (2 ^ 32 - 2 ^ n)) x = w / 2 ^ n * 2 ^ n + x.
Proof.
  intros Hw Hn Hx.
  assert (E : 2 ^ 32 - 2 ^ n = Z.shiftl (Z.ones (32 - n)) n).
  { rewrite Z.shiftl_mul_pow2, Z.ones_equiv, <- Z.sub_1_r by lia.
    rewrite Z.mul_sub_distr_r, <- Z.pow_add_r by lia; f_equal; [f_equal|]; lia. }
  assert (E2 : Z.land w (2 ^ 32 - 2 ^ n) = Z.shiftl (w / 2 ^ n) n).
  { rewrite E; apply Z.bits_inj'; intros i Hi; rewrite Z.land_spec, !Z.shiftl_spec by done.
    destruct (decide (i < n)).
    - rewrite !(Z.testbit_neg_r _ (i - n)) by lia; apply andb_false_r.
    - rewrite Z.testbit_ones_nonneg, Z.div_pow2_bits by lia.
      replace (i - n + n) with i by lia; destruct (Z.ltb_spec (i - n) (32 - n)); [apply andb_true_r|].
      rewrite <- (Z.mod_small w (2 ^ 32)) by lia.
      rewrite Z.mod_pow2_bits_high by lia; done. }
  rewrite E2, Z.lor_comm, lor_shiftl_add by lia; lia.
Qed.

Lemma field_split v a b : 0 <= a -> 0 <= b -> v mod 2 ^ (a + b) = v mod 2 ^ a + 2 ^ a * ((v / 2 ^ a) mod 2 ^ b).
Proof.
  intros; rewrite Z.pow_add_r by lia; apply Z.rem_mul_r; [apply Z.pow_nonzero|apply Z.pow_pos_nonneg]; lia.
Qed.

Lemma set_word_word p k v d d' : set_word p k v d = Some d' -> word d' p k = u32 v.
Proof. intros H; unfold word; by rewrite (get_set_same _ _ _ _ _ H). Qed.

Lemma set_word_other p k j v d d' : set_word p k v d = Some d' -> j <> k -> word d' p j = word d p j.
Proof. intros H Hj; unfold word; by rewrite (get_set_other _ _ _ _ _ _ Hj H). Qed.

Lemma field_put w x n :
  0 <= w < 2 ^ 32 -> 0 <= n <= 32 -> 0 <= x < 2 ^ n ->
  let v := u32 (Z.lor (Z.land w (2 ^ 32 - 2 ^ n)) x) in v / 2 ^ n = w / 2 ^ n /\ v mod 2 ^ n = x.
Proof.
  intros Hw Hn Hx; cbv zeta; rewrite put_low by done.
  assert (Hp : 0 < 2 ^ n) by (apply Z.pow_pos_nonneg; lia).
  assert (E : 2 ^ 32 = 2 ^ (32 - n) * 2 ^ n) by (rewrite <- Z.pow_add_r by lia; f_equal; lia).
  assert (Hq : 0 <= w / 2 ^ n < 2 ^ (32 - n)).
  { split; [apply Z.div_pos; lia|]; apply Z.div_lt_upper_bound; lia. }
  rewrite wrap_u_small by (split; [nia|]; rewrite E; nia).
  rewrite Z.div_add_l, (Z.div_small x), Z.add_0_r by lia; split; [done|].
  rewrite Z.add_comm, Z.mod_add, Z.mod_small by lia; done.
Qed.

Lemma set_step p k v d :
  0 <= p + 4 * k -> p + 4 * k + 4 <= Z.of_nat (length d) -> bytes_ok d ->
  exists d', set_word p k v d = Some d' /\ word d' p k = u32 v /\
    (forall j, j <> k -> word d' p j = word d p j) /\
    length d' = length d /\ bytes_ok d' /\ same_outside (p + 4 * k) (p + 4 * k + 4) d d'.
Proof.
  intros H1 H2 Hd; destruct (set_word_total p k v d H1 H2) as [d' E]; exists d'.
  pose proof (set_word_outside _ _ _ _ _ E) as Ho.
  split_and!; eauto using set_word_word, set_word_other, set_word_ok; apply Ho.
Qed.

(** Runs a chain of word accesses that stay inside the data. *)
Ltac run_words :=
  repeat match goal with
  | |- context [get_word ?d ?p ?k] => rewrite (get_word_word d p k) by lia; cbn [mbind option_bind]
  | |- context [set_word ?p ?k ?v ?d] =>
      let d' := fresh "d" in let E := fresh "E" in let L := fresh "L" in
      destruct (set_step p k v d) as (d' & E & ? & ? & L & ? & ?); [lia|lia|done|];
      rewrite E; cbn [mbind option_bind]
  end.

(** Chains what a sequence of word writes leaves alone. *)
Ltac chain_outside :=
  repeat match goal with
  | H : same_outside ?lo ?hi ?d ?e |- same_outside ?lo' ?hi' ?d ?e' =>
      apply (same_outside_trans _ _ _ e);
      [eapply same_outside_weaken; [| |exact H]; lia|]; clear H
  end; try apply same_outside_refl.

Lemma address_range f d p : Forall (fun '(_, w) => 0 <= w) f -> 0 <= address f d p < 2 ^ width f.
Proof.
  induction 1 as [|[k w] f Hw Hf IH]; simpl; [lia|].
  assert (0 <= width f) by (clear -Hf; induction Hf as [|[] ? ? ? IH]; simpl; lia).
  rewrite Z.pow_add_r by done; pose proof (Z.mod_pos_bound (word d p k) (2 ^ w) (pow2_pos w Hw)).
  simpl in *; nia.
Qed.

Lemma wrap_add_mod x n : 0 <= n <= 64 -> u64 x mod 2 ^ n = x mod 2 ^ n.
Proof.
  intros Hn; unfold wrap_u; replace 64 with (n + (64 - n)) by lia.
  rewrite Z.pow_add_r, Z.rem_mul_r by (try apply Z.pow_pos_nonneg; try apply Z.pow_nonzero; lia).
  rewrite (Z.mul_comm (2 ^ n)), Z.mod_add, Z.mod_mod by (apply Z.pow_nonzero; lia); done.
Qed.

Lemma u32_low_word x : u32 (Z.land x 0xFFFFFFFF) = x mod 2 ^ 32.
Proof. change 0xFFFFFFFF with (2 ^ 32 - 1); rewrite land_ones_mod by lia; apply Z.mod_mod; lia. Qed.

Lemma u32_field x s n :
  0 <= s -> 0 <= n <= 32 -> u32 (Z.land (Z.shiftr x s) (2 ^ n - 1)) = (x / 2 ^ s) mod 2 ^ n.
Proof.
  intros; rewrite land_ones_mod, Z.shiftr_div_pow2 by lia; apply wrap_u_small.
  pose proof (Z.mod_pos_bound (x / 2 ^ s) (2 ^ n) (pow2_pos n ltac:(lia))).
  pose proof (Z.pow_le_mono_r 2 n 32); lia.
Qed.

Lemma hi_lo hi lo : 0 <= hi < 2 ^ 32 -> 0 <= lo < 2 ^ 32 -> Z.lor (u64 (Z.shiftl hi 32)) lo = lo + hi * 2 ^ 32.
Proof.
  intros; rewrite Z.shiftl_mul_pow2, wrap_u_small, <- Z.shiftl_mul_pow2 by lia.
  rewrite Z.lor_comm, lor_shiftl_add, Z.shiftl_mul_pow2 by lia; done.
Qed.

Lemma patch_scalar_32_spec p a d :
  bytes_ok d -> 0 <= p -> p + 36 <= Z.of_nat (length d) ->
  exists d', patch_scalar_32 p a d = Some d' /\ patched [(0, 32)] p a d d'.
Proof.
  intros Hd Hp Hl; pose proof (word_range d p 0 Hd); unfold patch_scalar_32; run_words.
  eexists; split; [done|]; rewrite u32_low_word in *; unfold patched; simpl.
  split_and!; [| | |chain_outside|done].
  - match goal with H : word _ p 0 = _ |- _ => rewrite H end.
    unfold wrap_u at 1; rewrite !Z.mod_mod, wrap_add_mod by lia.
    rewrite (Z.mod_small (word d p 0)), ?Z.mul_0_r, ?Z.add_0_r by lia; done.
  - constructor; [|done]; pose proof (word_range d0 p 0).
    rewrite !Z.div_small; auto.
  - intros k [Hk _]%not_elem_of_cons; auto.
Qed.

Lemma patched_two kl kh n p a d d' :
  0 <= n <= 32 -> bytes_ok d -> bytes_ok d' ->
  let v := u64 (word d p kl + word d p kh mod 2 ^ n * 2 ^ 32 + a) in
  word d' p kl = v mod 2 ^ 32 ->
  word d' p kh / 2 ^ n = word d p kh / 2 ^ n -> word d' p kh mod 2 ^ n = (v / 2 ^ 32) mod 2 ^ n ->
  (forall j, j <> kl -> j <> kh -> word d' p j = word d p j) ->
  same_outside p (p + 36) d d' ->
  patched [(kl, 32); (kh, n)] p a d d'.
Proof.
  intros Hn Hd Hd' v Hl Hh1 Hh2 Ho Hs; unfold patched; split_and!; [|..|done|done].
  - cbn [address width foldr]; rewrite Hh2, Hl, Z.mod_mod, !Z.mul_0_r, !Z.add_0_r by lia.
    rewrite <- field_split by lia; unfold v; rewrite wrap_add_mod by lia.
    rewrite (Z.mod_small (word d p kl)) by (apply word_range; done); f_equal; lia.
  - repeat constructor; [|done]; pose proof (word_range d p kl Hd); pose proof (word_range d' p kl Hd').
    rewrite !Z.div_small by lia; done.
  - intros k Hk; cbn in Hk; rewrite !not_elem_of_cons in Hk; apply Ho; tauto.
Qed.

(** Reads a word through the writes that did not touch it. *)
Ltac other_words :=
  repeat match goal with
  | H : forall j, j <> _ -> word ?d' ?p j = _ |- context [word ?d' ?p ?k] => rewrite (H k) by lia
  | H : forall j, j <> _ -> word ?d' ?p j = _, F : context [word ?d' ?p ?k] |- _ =>
      rewrite (H k) in F by lia
  end.

Lemma u32_mod x : u32 (x mod 2 ^ 32) = x mod 2 ^ 32.
Proof. apply Z.mod_mod; lia. Qed.

(** Splits the last write of a chain into its address bits and the bits it keeps. *)
Ltac split_field n :=
  match goal with
  | H : word _ _ _ = u32 (Z.lor (Z.land ?w (2 ^ 32 - 2 ^ n)) ?x) |- _ =>
      let F1 := fresh "F" in let F2 := fresh "F" in
      destruct (field_put w x n) as [F1 F2];
      [apply word_range; done|lia|apply Z.mod_pos_bound; lia|];
      rewrite <- H in F1, F2; clear H
  end.

Lemma aie4_patch_57_spec p a d :
  bytes_ok d -> 0 <= p -> p + 36 <= Z.of_nat (length d) ->
  exists d', aie4_patch_57 p a d = Some d' /\ patched [(1, 32); (0, 25)] p a d d'.
Proof.
  intros Hd Hp Hl; pose proof (word_range d p 0 Hd) as H0; pose proof (word_range d p 1 Hd).
  unfold aie4_patch_57; run_words; eexists; split; [done|].
  change 0x1FFFFFF with (2 ^ 25 - 1) in *; change 0xFE000000 with (2 ^ 32 - 2 ^ 25) in *.
  pose proof (Z.mod_pos_bound (word d p 0) (2 ^ 25)).
  rewrite u32_low_word, u32_field, hi_lo, land_ones_mod in * by (rewrite ?land_ones_mod; lia).
  split_field 25; rewrite u32_mod in *.
  apply patched_two; [lia|done|done|..|chain_outside].
  all: intros; other_words; done.
Qed.

Lemma hi_mid_lo hi mid lo :
  0 <= hi < 2 ^ 9 -> 0 <= mid < 2 ^ 16 -> 0 <= lo < 2 ^ 32 ->
  Z.lor (Z.lor (u64 (Z.shiftl hi 48)) (u64 (Z.shiftl mid 32))) lo = lo + 2 ^ 32 * (mid + 2 ^ 16 * hi).
Proof.
  intros; rewrite !wrap_u_small by (rewrite ?Z.shiftl_mul_pow2 by lia; lia).
  replace (Z.lor (Z.shiftl hi 48) (Z.shiftl mid 32)) with (Z.shiftl (mid + hi * 2 ^ 16) 32).
  - rewrite Z.lor_comm, lor_shiftl_add by lia; lia.
  - rewrite <- lor_shiftl_add, Z.shiftl_lor, Z.shiftl_shiftl, Z.lor_comm by lia; done.
Qed.

Lemma aie2ps_patch_57_spec p a d :
  bytes_ok d -> 0 <= p -> p + 36 <= Z.of_nat (length d) ->
  exists d', aie2ps_patch_57 p a d = Some d' /\ patched [(1, 32); (2, 16); (8, 9)] p a d d'.
Proof.
  intros Hd Hp Hl; pose proof (word_range d p 1 Hd) as R1.
  unfold aie2ps_patch_57; run_words; eexists; split; [done|].
  change 0x1FF with (2 ^ 9 - 1) in *; change 0xFFFF with (2 ^ 16 - 1) in *.
  change 0xFFFF0000 with (2 ^ 32 - 2 ^ 16) in *; change 0xFFFFFE00 with (2 ^ 32 - 2 ^ 9) in *.
  rewrite u32_low_word, !u32_field, !land_ones_mod, hi_mid_lo in *
    by (try apply Z.mod_pos_bound; lia).
  split_field 16; split_field 9; rewrite u32_mod in *; other_words.
  set (v := u64 _) in *; unfold patched; split_and!; [| | |chain_outside|done].
  - cbn [address width foldr]; other_words.
    repeat match goal with H : word _ p _ = _ |- _ => rewrite H; clear H
           | H : word _ p _ mod _ = _ |- _ => rewrite H; clear H end.
    rewrite !Z.mul_0_r, !Z.add_0_r, Z.mod_mod by lia.
    replace (v / 2 ^ 48) with (v / 2 ^ 32 / 2 ^ 16) by (rewrite Z.div_div by lia; done).
    rewrite <- !field_split by lia; unfold v; rewrite wrap_add_mod by lia.
    rewrite (Z.mod_small (word d p 1)) by lia; f_equal; lia.
  - pose proof (word_range d2 p 1 ltac:(done)).
    repeat constructor; other_words; [rewrite !Z.div_small by lia; done|done..].
  - intros k Hk; cbn in Hk; rewrite !not_elem_of_cons in Hk; other_words; done.
Qed.

Lemma land_low2 x : x mod 4 = 0 -> u32 (Z.land x 0xFFFFFFFC) = x mod 2 ^ 32.
Proof.
  intros H; rewrite <- u32_low_word; f_equal; apply Z.bits_inj'; intros i Hi; rewrite !Z.land_spec.
  destruct (decide (i < 2)) as [Hlt|Hge].
  - assert (E : Z.testbit x i = false); [|rewrite E; done].
    rewrite <- (Z.mod_pow2_bits_low x 2) by lia; change (2 ^ 2) with 4; rewrite H; apply Z.bits_0.
  - f_equal; change 0xFFFFFFFC with (Z.lor 0xFFFFFFFC 0 ); change 0xFFFFFFFF with (Z.lor 0xFFFFFFFC 3).
    rewrite !Z.lor_spec, Z.bits_0; f_equal; symmetry; apply Z.bits_above_log2; [lia|].
    change (Z.log2 3) with 1; lia.
Qed.

Lemma aie2ps_patch_ctrl_57_spec p a d :
  bytes_ok d -> 0 <= p -> p + 36 <= Z.of_nat (length d) -> 0 <= a ->
  packet_ok CONTROL_PACKET_57 p a d ->
  exists d', aie2ps_patch_ctrl_57 p a d = Some d' /\ patched [(2, 32); (3, 16)] p a d d'.
Proof.
  intros Hd Hp Hl Ha [Hk _]; specialize (Hk eq_refl); cbv zeta in Hk; cbn [address] in Hk.
  pose proof (word_range d p 2 Hd) as R2.
  rewrite Z.mul_0_r, Z.add_0_r, (Z.mod_small (word d p 2)) in Hk by lia.
  unfold aie2ps_patch_ctrl_57; run_words; eexists; split; [done|].
  pose proof (Z.mod_pos_bound (word d p 3) (2 ^ 16)).
  change 0xFFFF0000 with (2 ^ 32 - 2 ^ 16) in *; change 0xFFFF with (2 ^ 16 - 1) in *.
  rewrite hi_lo, land_ones_mod in * by (rewrite ?land_ones_mod; lia).
  assert (Ev : u64 (word d p 2 + word d p 3 mod 2 ^ 16 * 2 ^ 32 + a)
             = word d p 2 + word d p 3 mod 2 ^ 16 * 2 ^ 32 + a) by (apply wrap_u_small; lia).
  rewrite land_low2 in * by (rewrite Ev; rewrite (Z.mul_comm _ (2 ^ 32)); apply Hk).
  rewrite u32_mod, Z.shiftr_div_pow2 in * by lia.
  rewrite (wrap_u_small 32 (_ / _)) in * by
    (rewrite Ev; split; [apply Z.div_pos|apply Z.div_lt_upper_bound]; lia).
  rewrite <- (Z.mod_small (_ / 2 ^ 32) (2 ^ 16)) in * by
    (rewrite Ev; split; [apply Z.div_pos|apply Z.div_lt_upper_bound]; lia).
  split_field 16.
  apply patched_two; [lia|done|done|..|chain_outside].
  all: intros; other_words; done.
Qed.

Lemma aie4_patch_ctrl_57_spec p a d :
  bytes_ok d -> 0 <= p -> p + 36 <= Z.of_nat (length d) ->
  packet_ok CONTROL_PACKET_57_AIE4 p a d ->
  exists d', aie4_patch_ctrl_57 p a d = Some d' /\ patched [(2, 32); (1, 25)] p a d d'.
Proof.
  intros Hd Hp Hl [_ Hk]; specialize (Hk eq_refl); pose proof (word_range d p 2 Hd).
  unfold aie4_patch_ctrl_57; run_words; eexists; split; [done|].
  change 0x1FFFFFF with (2 ^ 25 - 1) in *; change 0xFE000000 with (2 ^ 32 - 2 ^ 25) in *.
  pose proof (Z.mod_pos_bound (word d p 1) (2 ^ 25)).
  rewrite u32_low_word, u32_field, hi_lo, land_ones_mod in * by (rewrite ?land_ones_mod; lia).
  split_field 25; rewrite u32_mod in *.
  apply patched_two; [lia|done|done|..|chain_outside].
  all: intros; other_words; congruence.
Qed.

Lemma apply_patch_spec kind f p a d :
  kind_format kind = Some f -> bytes_ok d -> 0 <= p -> p + 36 <= Z.of_nat (length d) -> 0 <= a ->
  packet_ok kind p a d ->
  exists d', apply_patch kind p a d = Some d' /\ patched f p a d d'.
Proof.
  unfold kind_format, apply_patch; intros Hf Hd Hp Hl Ha Hk.
  destruct (Z.eqb_spec kind SCALAR_32BIT_KIND); simplify_eq; [by apply patch_scalar_32_spec|].
  destruct (Z.eqb_spec kind SHIM_DMA_BASE_ADDR_SYMBOL_KIND); simplify_eq;
    [by apply aie2ps_patch_57_spec|].
  destruct (Z.eqb_spec kind SHIM_DMA_AIE4_BASE_ADDR_SYMBOL_KIND); simplify_eq;
    [by apply aie4_patch_57_spec|].
  destruct (Z.eqb_spec kind CONTROL_PACKET_57) as [->|]; simplify_eq;
    [by apply aie2ps_patch_ctrl_57_spec|].
  destruct (Z.eqb_spec kind CONTROL_PACKET_57_AIE4) as [->|]; simplify_eq;
    by apply aie4_patch_ctrl_57_spec.
Qed.

(** Patching adds to an address: whatever the kind of the patch, if the data of the section
    has room for it then the patch succeeds, the address the kind names (57 bits over three or
    two words of a buffer descriptor, 48 or 57 bits of a control packet, a 32-bit scalar) grows
    by the value modulo its width, the other bits of its words, all other words and all other
    bytes stay as they were.  For control packets it needs more: the new address of
    [CONTROL_PACKET_57] is a multiple of four below [2 ^ 48], and the two first words of a
    [CONTROL_PACKET_57_AIE4] have the same seven upper bits. *)
Theorem patch_adds_address kind f p a d :
  kind_format kind = Some f -> bytes_ok d -> 0 <= p -> p + 36 <= Z.of_nat (length d) -> 0 <= a ->
  packet_ok kind p a d ->
  exists d', apply_patch kind p a d = Some d' /\ patched f p a d d'.
Proof. apply apply_patch_spec. Qed.

Definition demo_bd : list Z := flat_map (le_bytes 4) [0x80000001; 0x10; 0xABCD0002; 3; 4; 5; 6; 7; 0xFFFFFE00].

Lemma patch_adds_address_witness :
  exists d', apply_patch SHIM_DMA_BASE_ADDR_SYMBOL_KIND 0 0x1000300000000 demo_bd = Some d' /\
    patched [(1, 32); (2, 16); (8, 9)] 0 0x1000300000000 demo_bd d'.
Proof.
  apply (patch_adds_address SHIM_DMA_BASE_ADDR_SYMBOL_KIND);
    [reflexivity|repeat constructor; vm_compute; done|lia|vm_compute; done|lia|].
  split; intros H; vm_compute in H; done.
Defined.

Lemma shiftr_lor_low w x n : 0 <= n -> Z.lor w x / 2 ^ n = Z.lor (w / 2 ^ n) (x / 2 ^ n).
Proof. intros; rewrite <- !Z.shiftr_div_pow2 by done; apply Z.shiftr_lor. Qed.

(** Control packets are patched wrongly outside those conditions: the AIE4 patch replaces
    the seven upper bits of word 1 by those of word 0, and the 57-bit patch of an address at or
    above [2 ^ 48] spills its bits 48 to 63 into the upper half of word 3. *)
Theorem control_packet_spills p a d :
  bytes_ok d -> 0 <= p -> p + 36 <= Z.of_nat (length d) -> 0 <= a ->
  (exists d', apply_patch CONTROL_PACKET_57_AIE4 p a d = Some d' /\
     word d' p 1 / 2 ^ 25 = word d p 0 / 2 ^ 25) /\
  (exists d', apply_patch CONTROL_PACKET_57 p a d = Some d' /\
     word d' p 3 / 2 ^ 16 =
     Z.lor (word d p 3 / 2 ^ 16) (u64 (address [(2, 32); (3, 16)] d p + a) / 2 ^ 48)).
Proof.
  intros Hd Hp Hl Ha; split; [change (apply_patch CONTROL_PACKET_57_AIE4) with aie4_patch_ctrl_57
    |change (apply_patch CONTROL_PACKET_57) with aie2ps_patch_ctrl_57].
  - unfold aie4_patch_ctrl_57; run_words; eexists; split; [done|].
    change 0x1FFFFFF with (2 ^ 25 - 1) in *; change 0xFE000000 with (2 ^ 32 - 2 ^ 25) in *.
    rewrite (u32_field _ 32 25) in * by lia; split_field 25; other_words; done.
  - pose proof (word_range d p 2 Hd); pose proof (word_range d p 3 Hd).
    unfold aie2ps_patch_ctrl_57; run_words; eexists; split; [done|].
    pose proof (Z.mod_pos_bound (word d p 3) (2 ^ 16)).
    change 0xFFFF0000 with (2 ^ 32 - 2 ^ 16) in *; change 0xFFFF with (2 ^ 16 - 1) in *.
    rewrite hi_lo, land_ones_mod in * by (rewrite ?land_ones_mod; lia); cbn [address].
    rewrite Z.mul_0_r, Z.add_0_r, (Z.mod_small (word d p 2)), (Z.mul_comm (2 ^ 32)) by lia.
    set (v := u64 _) in *; pose proof (wrap_u_range 64 (word d p 2 + word d p 3 mod 2 ^ 16 * 2 ^ 32 + a)
      ltac:(lia)) as Rv; fold v in Rv.
    assert (Hv : u32 (Z.shiftr v 32) = v / 2 ^ 32).
    { rewrite Z.shiftr_div_pow2 by lia; apply wrap_u_small.
      split; [apply Z.div_pos|apply Z.div_lt_upper_bound]; lia. }
    rewrite Hv in *; other_words.
    match goal with H : word ?e p 3 = u32 _ |- _ => rewrite H end.
    assert (Em : Z.land (word d p 3) (2 ^ 32 - 2 ^ 16) = word d p 3 / 2 ^ 16 * 2 ^ 16).
    { pose proof (put_low (word d p 3) 0 16); rewrite Z.lor_0_r in *; lia. }
    rewrite wrap_u_small.
    + rewrite shiftr_lor_low, Em, Z.div_mul, Z.div_div by lia; done.
    + apply lor_range; [lia|apply land_range; lia|].
      split; [apply Z.div_pos|apply Z.div_lt_upper_bound]; lia.
Qed.

Lemma control_packet_spills_witness :
  exists d', apply_patch CONTROL_PACKET_57_AIE4 0 0x1000 demo_bd = Some d' /\
    word d' 0 1 / 2 ^ 25 = 64.
Proof.
  destruct (control_packet_spills 0 0x1000 demo_bd) as [(d' & E & H) _]; try lia; try done.
  { repeat constructor; vm_compute; done. }
  exists d'; split; [exact E|rewrite H; vm_compute; done].
Defined.
