(* ===== verification/CertLayout.v ===== *)
(** What the control ELF loader produces: the layout of the code of every column, the effect
    of the relocations, and the composition with the submission of the code. *)
From stdpp Require Import base list gmap sorting.
From Stdlib Require Import ZArith Lia.
From S2P Require Import Prelude Driver HostQueue CertHost CertDelivery CertElf.
Local Open Scope Z_scope.
Local Open Scope aeg_scope.

(** * Ordered maps: lookup and order *)
Section OrderedMapFacts.
Context {V : Type}.
Implicit Types m : list (Z * V).

Abbreviation ordered := (StronglySorted Z.lt).

Lemma alter_at_keys k d (f : V -> V) m j : j ∈ (alter_at k d f m).*1 <-> j = k \/ j ∈ m.*1.
Proof.
  induction m as [|[i v] m IH]; simpl; [rewrite list_elem_of_singleton, elem_of_nil; tauto|].
  destruct (Z.ltb_spec k i); [cbn; rewrite !elem_of_cons; tauto|].
  destruct (Z.eqb_spec k i); cbn; rewrite !elem_of_cons, ?IH; [subst; tauto|tauto].
Qed.

Lemma alter_at_ordered k d (f : V -> V) m : ordered m.*1 -> ordered (alter_at k d f m).*1.
Proof.
  induction m as [|[i v] m IH]; simpl; intros Hs; [repeat constructor|].
  apply StronglySorted_inv in Hs as [Hs Hi].
  destruct (Z.ltb_spec k i) as [Hlt|]; [|destruct (Z.eqb_spec k i)]; cbn.
  - constructor; [constructor; done|constructor; [done|]].
    eapply Forall_impl; [exact Hi|]; simpl; lia.
  - subst; constructor; done.
  - constructor; [auto|]; apply Forall_forall; intros j [->|Hj]%alter_at_keys; [lia|].
    rewrite Forall_forall in Hi; auto.
Qed.

Lemma assoc_not_in k m : k ∉ m.*1 -> assoc k m = None.
Proof.
  induction m as [|[j v] m IH]; [done|]; cbn; rewrite not_elem_of_cons; intros [Hj Hm].
  rewrite (proj2 (Z.eqb_neq k j) Hj); auto.
Qed.

Lemma assoc_alter_at k d (f : V -> V) m j :
  ordered m.*1 ->
  assoc j (alter_at k d f m) = if j =? k then Some (f (default d (assoc k m))) else assoc j m.
Proof.
  induction m as [|[i v] m IH]; simpl; intros Hs; [done|].
  apply StronglySorted_inv in Hs as [Hs Hi].
  destruct (Z.ltb_spec k i) as [Hlt|]; simpl.
  - replace (k =? i) with false by lia; rewrite (assoc_not_in k m); [done|].
    intros Hk; rewrite Forall_forall in Hi; apply Hi in Hk; lia.
  - destruct (Z.eqb_spec k i) as [->|]; simpl; [destruct (j =? i); done|].
    rewrite IH by done; destruct (Z.eqb_spec j i), (Z.eqb_spec j k); done || lia.
Qed.

Lemma assoc_in k v m : ordered m.*1 -> (k, v) ∈ m -> assoc k m = Some v.
Proof.
  induction m as [|[j w] m IH]; simpl; intros Hs; [by intros ?%elem_of_nil|].
  apply StronglySorted_inv in Hs as [Hs Hi]; intros [[= -> ->]|Hm]%elem_of_cons.
  - by rewrite Z.eqb_refl.
  - rewrite Forall_forall in Hi; specialize (Hi k (list_elem_of_fmap_2 fst m (k, v) Hm)).
    replace (k =? j) with false by lia; auto.
Qed.
End OrderedMapFacts.

(** The keys of a list in order, each once. *)
Definition sort_keys (l : list Z) : list Z := merge_sort Z.le (remove_dups l).

Lemma ordered_unique (l1 l2 : list Z) :
  StronglySorted Z.lt l1 -> StronglySorted Z.lt l2 -> (forall x, x ∈ l1 <-> x ∈ l2) -> l1 = l2.
Proof.
  revert l2; induction l1 as [|x l1 IH]; intros l2 S1 S2 H.
  - destruct l2 as [|y l2]; [done|]; exfalso; apply (not_elem_of_nil y), H; left.
  - destruct l2 as [|y l2]; [exfalso; apply (not_elem_of_nil x), H; left|].
    apply StronglySorted_inv in S1 as [S1 F1], S2 as [S2 F2].
    rewrite Forall_forall in F1, F2.
    assert (x = y) as ->.
    { destruct (proj1 (elem_of_cons _ _ _) (proj1 (H x) ltac:(left))) as [|Hx]; [done|].
      destruct (proj1 (elem_of_cons _ _ _) (proj2 (H y) ltac:(left))) as [|Hy]; [done|].
      apply F2 in Hx; apply F1 in Hy; lia. }
    f_equal; apply IH; [done..|]; intros z; specialize (H z); rewrite !elem_of_cons in H.
    split; intros Hz; destruct (proj1 H ltac:(right; done)) || destruct (proj2 H ltac:(right; done));
      done || (subst; apply F1 in Hz || apply F2 in Hz; lia).
Qed.

Lemma sort_keys_elem l x : x ∈ sort_keys l <-> x ∈ l.
Proof. unfold sort_keys; rewrite merge_sort_Permutation, elem_of_remove_dups; done. Qed.

Lemma sort_keys_ordered l : StronglySorted Z.lt (sort_keys l).
Proof.
  assert (Hn : NoDup (sort_keys l)).
  { unfold sort_keys; rewrite merge_sort_Permutation; apply NoDup_remove_dups. }
  assert (Hs : StronglySorted Z.le (sort_keys l)).
  { unfold sort_keys; apply (StronglySorted_merge_sort Z.le). }
  revert Hn; induction Hs as [|x k Hs IH Hf]; intros Hn; [constructor|].
  apply NoDup_cons in Hn as [Hx Hn]; constructor; [auto|].
  rewrite Forall_forall in *; intros y Hy; specialize (Hf y Hy).
  destruct (decide (x = y)) as [->|]; [done|lia].
Qed.

Lemma ordered_sort_keys ks l :
  StronglySorted Z.lt ks -> (forall x, x ∈ ks <-> x ∈ l) -> ks = sort_keys l.
Proof.
  intros Hs H; apply ordered_unique; [done|apply sort_keys_ordered|].
  intros x; rewrite sort_keys_elem; done.
Qed.

(** * The layout of the code

    What a section contributes to the code of a column. *)
Inductive piece :=
  | Text (col page : Z)
  | Data (col page : Z)
  | Pad (col : Z)
  | Other.

Definition classify (name : list Z) : piece :=
  match is_ctrltext name, is_ctrldata name, is_pad name with
  | Some (c, p), _, _ => Text c p
  | None, Some (c, p), _ => Data c p
  | None, None, Some c => Pad c
  | None, None, None => Other
  end.

#[global] Instance piece_eq_dec : EqDecision piece.
Proof. solve_decision. Defined.

(** The sections that have contents, with their place in the file. *)
Definition contents (e : elfio) : list (piece * nat * Z) :=
  omap (fun i => s ← sections e !! i; d ← get_data s;
          Some (classify (get_name s), i, Z.of_nat (length d))) (seq 0 (length (sections e))).

Definition piece_col (pc : piece) : option Z :=
  match pc with Text c _ | Data c _ | Pad c => Some c | Other => None end.
Definition piece_page (c : Z) (pc : piece) : option Z :=
  match pc with Text c' p | Data c' p => if c' =? c then Some p else None | _ => None end.

Definition place (x : piece * nat * Z) (m : list (Z * col_code)) : list (Z * col_code) :=
  let '(pc, i, n) := x in
  match pc with
  | Text c p => alter_at c no_col (with_pages (alter_at p no_page (set_text i n))) m
  | Data c p => alter_at c no_col (with_pages (alter_at p no_page (set_data i n))) m
  | Pad c => alter_at c no_col (with_pad (fun ps => ps ++ [mkPad (Some i) n])) m
  | Other => m
  end.

(** The places of the sections of one piece, in file order. *)
Definition places (pc : piece) (xs : list (piece * nat * Z)) : list (nat * Z) :=
  omap (fun '(pc', i, n) => if decide (pc' = pc) then Some (i, n) else None) xs.

Definition page_of (c p : Z) (xs : list (piece * nat * Z)) : ctrl_page :=
  let t := last (places (Text c p) xs) in
  let d := last (places (Data c p) xs) in
  mkPage (fst <$> t) (from_option snd 0 t) (fst <$> d) (from_option snd 0 d).

Definition col_keys (xs : list (piece * nat * Z)) : list Z := omap (fun x => piece_col (fst (fst x))) xs.
Definition page_keys (c : Z) (xs : list (piece * nat * Z)) : list Z :=
  omap (fun x => piece_page c (fst (fst x))) xs.

(** What the columns hold after the sections [xs]. *)
Definition col_holds (xs : list (piece * nat * Z)) (c : Z) (cc : col_code) : Prop :=
  StronglySorted Z.lt (pages cc).*1 /\
  (forall p, assoc p (pages cc) = if decide (p ∈ page_keys c xs) then Some (page_of c p xs) else None) /\
  (forall p, p ∈ (pages cc).*1 <-> p ∈ page_keys c xs) /\
  pad cc = map (fun '(i, n) => mkPad (Some i) n) (places (Pad c) xs) /\
  code cc = [].

Definition cols_hold (xs : list (piece * nat * Z)) (m : list (Z * col_code)) : Prop :=
  StronglySorted Z.lt m.*1 /\
  (forall c, c ∈ m.*1 <-> c ∈ col_keys xs) /\
  (forall c, col_holds xs c (default no_col (assoc c m))).

Lemma places_snoc pc xs pc' i n :
  places pc (xs ++ [(pc', i, n)]) = places pc xs ++ (if decide (pc' = pc) then [(i, n)] else []).
Proof. unfold places; rewrite omap_app; simpl; destruct (decide (pc' = pc)); done. Qed.

Lemma col_keys_snoc xs x :
  col_keys (xs ++ [x]) = col_keys xs ++ option_list (piece_col (fst (fst x))).
Proof. unfold col_keys; rewrite omap_app; simpl; destruct (piece_col _); done. Qed.

Lemma page_keys_snoc c xs x :
  page_keys c (xs ++ [x]) = page_keys c xs ++ option_list (piece_page c (fst (fst x))).
Proof. unfold page_keys; rewrite omap_app; simpl; destruct (piece_page _ _); done. Qed.

Lemma places_absent pc c p xs :
  piece_page c pc = Some p -> p ∉ page_keys c xs -> places pc xs = [].
Proof.
  intros Hpc; induction xs as [|[[pc' i] n] xs IH]; [done|].
  unfold page_keys, places in *; simpl; destruct (piece_page c pc') as [q|] eqn:E.
  - intros [Hq Hp]%not_elem_of_cons; rewrite decide_False by congruence; auto.
  - intros Hp; rewrite decide_False by congruence; auto.
Qed.

Lemma page_of_absent c p xs : p ∉ page_keys c xs -> page_of c p xs = no_page.
Proof.
  intros H; unfold page_of.
  rewrite !(places_absent _ c p) by (simpl; rewrite ?Z.eqb_refl; done); done.
Qed.

Lemma page_of_snoc_other c p xs pc i n :
  pc <> Text c p -> pc <> Data c p -> page_of c p (xs ++ [(pc, i, n)]) = page_of c p xs.
Proof. intros; unfold page_of; rewrite !places_snoc, !decide_False, !app_nil_r by done; done. Qed.

Lemma page_of_snoc_text c p xs i n :
  page_of c p (xs ++ [(Text c p, i, n)]) = set_text i n (page_of c p xs).
Proof.
  unfold page_of; rewrite !places_snoc, decide_True, decide_False, app_nil_r, last_snoc by done; done.
Qed.

Lemma page_of_snoc_data c p xs i n :
  page_of c p (xs ++ [(Data c p, i, n)]) = set_data i n (page_of c p xs).
Proof.
  unfold page_of; rewrite !places_snoc, decide_False, decide_True, app_nil_r, last_snoc by done; done.
Qed.

(** A section of another column leaves a column as it is. *)
Lemma col_holds_other xs c cc pc i n :
  piece_col pc <> Some c -> col_holds xs c cc -> col_holds (xs ++ [(pc, i, n)]) c cc.
Proof.
  intros Hc (S & A & K & P & C).
  assert (Ek : page_keys c (xs ++ [(pc, i, n)]) = page_keys c xs).
  { rewrite page_keys_snoc; simpl; destruct pc as [c' p|c' p| |]; simpl in *;
      [replace (c' =? c) with false by (symmetry; apply Z.eqb_neq; congruence)..| |]; apply app_nil_r. }
  unfold col_holds; rewrite Ek, places_snoc, decide_False, app_nil_r by (intros ->; apply Hc; done).
  split_and!; [done| |done..]; intros p; rewrite A; destruct (decide _); [|done].
  rewrite page_of_snoc_other by (intros ->; apply Hc; done); done.
Qed.

(** A section of page [p] replaces a part of that page. *)
Lemma col_holds_page xs c cc p pc i n f :
  piece_page c pc = Some p -> page_of c p (xs ++ [(pc, i, n)]) = f (page_of c p xs) ->
  col_holds xs c cc ->
  col_holds (xs ++ [(pc, i, n)]) c (with_pages (alter_at p no_page f) cc).
Proof.
  intros Hpc Hf (S & A & K & P & C); unfold col_holds.
  rewrite page_keys_snoc, places_snoc; cbn [fst]; rewrite Hpc; change (option_list (Some p)) with [p].
  rewrite decide_False, app_nil_r by (intros ->; done).
  split_and!; [by apply alter_at_ordered| | |done|done]; cbn [pages with_pages].
  - intros q; rewrite assoc_alter_at by done; destruct (Z.eqb_spec q p) as [->|Hq].
    + rewrite (decide_True (P := p ∈ _)) by (apply elem_of_app; right; left).
      rewrite Hf; do 2 f_equal; rewrite A; destruct (decide _); [done|].
      symmetry; apply page_of_absent; done.
    + rewrite A, page_of_snoc_other by (intros ->; simpl in Hpc; rewrite Z.eqb_refl in Hpc; congruence).
      apply decide_ext; rewrite elem_of_app, list_elem_of_singleton; tauto.
  - intros q; rewrite alter_at_keys, K, elem_of_app, list_elem_of_singleton; tauto.
Qed.

Lemma col_holds_pad xs c cc i n :
  col_holds xs c cc ->
  col_holds (xs ++ [(Pad c, i, n)]) c (with_pad (fun ps => ps ++ [mkPad (Some i) n]) cc).
Proof.
  intros (S & A & K & P & C); unfold col_holds; rewrite page_keys_snoc, places_snoc; cbn [fst piece_page].
  rewrite decide_True, app_nil_r, map_app by done; cbn [pages with_pages with_pad pad code].
  split_and!; [done| |done|by rewrite P|done].
  intros p; rewrite A, page_of_snoc_other by done; done.
Qed.

Lemma cols_hold_alter xs m c pc i n f :
  cols_hold xs m -> piece_col pc = Some c ->
  (forall cc, col_holds xs c cc -> col_holds (xs ++ [(pc, i, n)]) c (f cc)) ->
  cols_hold (xs ++ [(pc, i, n)]) (alter_at c no_col f m).
Proof.
  intros (S & K & H) Hc Hf; split_and!; [by apply alter_at_ordered|..].
  - intros c'; rewrite alter_at_keys, K, col_keys_snoc; simpl; rewrite Hc.
    change (option_list (Some c)) with [c].
    rewrite elem_of_app, list_elem_of_singleton; tauto.
  - intros c'; rewrite assoc_alter_at by done; destruct (Z.eqb_spec c' c) as [->|].
    + apply Hf, H.
    + apply col_holds_other; [congruence|apply H].
Qed.

Lemma cols_hold_place xs m x : cols_hold xs m -> cols_hold (xs ++ [x]) (place x m).
Proof.
  destruct x as [[pc i] n]; intros H; destruct pc as [c p|c p|c|]; simpl.
  - apply cols_hold_alter; [done..|]; intros; apply col_holds_page; [|apply page_of_snoc_text|done].
    simpl; by rewrite Z.eqb_refl.
  - apply cols_hold_alter; [done..|]; intros; apply col_holds_page; [|apply page_of_snoc_data|done].
    simpl; by rewrite Z.eqb_refl.
  - apply cols_hold_alter; [done..|]; intros; by apply col_holds_pad.
  - destruct H as (S & K & H); split_and!; [done| |intros; by apply col_holds_other].
    intros c; rewrite K, col_keys_snoc; simpl; by rewrite app_nil_r.
Qed.

Lemma cols_hold_all xs : cols_hold xs (foldl (fun m x => place x m) [] xs).
Proof.
  induction xs as [|x xs IH] using rev_ind; [|rewrite foldl_snoc; by apply cols_hold_place].
  split_and!; [constructor|done|]; intros c; simpl; split_and!; try done; constructor.
Qed.

(** ** The code of a column *)

(** The parts of a column as the names of the sections say: for every page, in page order,
    the last text and the last data section of the page, then all pads in file order. *)
Definition part_bytes (pc : piece) (secs : list section) : list (list Z) :=
  omap (fun s => if decide (classify (get_name s) = pc) then get_data s else None) secs.

Definition file_pieces (secs : list section) : list piece :=
  omap (fun s => _ ← get_data s; Some (classify (get_name s))) secs.

Definition file_cols (secs : list section) : list Z := sort_keys (omap piece_col (file_pieces secs)).
Definition file_pages (c : Z) (secs : list section) : list Z :=
  sort_keys (omap (piece_page c) (file_pieces secs)).

Definition page_bytes (secs : list section) (c p : Z) : list Z :=
  default [] (last (part_bytes (Text c p) secs)) ++ default [] (last (part_bytes (Data c p) secs)).

Definition column_code (secs : list section) (c : Z) : list Z :=
  flat_map (page_bytes secs c) (file_pages c secs) ++ concat (part_bytes (Pad c) secs).

Lemma omap_lookup_seq {A B} (g : A -> option B) (l : list A) :
  omap (fun i => s ← l !! i; g s) (seq 0 (length l)) = omap g l.
Proof.
  induction l as [|x l IH] using rev_ind; [done|].
  rewrite length_app, Nat.add_comm, seq_S, !omap_app; simpl; f_equal.
  - rewrite <- IH; apply list_omap_ext.
    apply Forall_Forall2_diag, Forall_forall; intros i [_ Hi]%elem_of_seq.
    rewrite lookup_app_l by lia; done.
  - rewrite lookup_app_r, Nat.sub_diag by lia; simpl; destruct (g x); done.
Qed.

Lemma contents_pieces e : map (fun x => fst (fst x)) (contents e) = file_pieces (sections e).
Proof.
  unfold file_pieces; rewrite <- omap_lookup_seq; unfold contents.
  induction (seq 0 (length (sections e))) as [|i ks IH]; [done|]; simpl.
  destruct (sections e !! i) as [[n [d|]]|]; simpl; [f_equal|..]; exact IH.
Qed.

Lemma omap_map {A B C} (f : A -> B) (g : B -> option C) l : omap g (map f l) = omap (fun x => g (f x)) l.
Proof. induction l as [|x l IH]; [done|]; simpl; destruct (g (f x)); [f_equal|]; exact IH. Qed.

Lemma contents_places pc e :
  map (fun '(i, n) => append_bytes [] (buf_bytes e (Some i)) n) (places pc (contents e))
  = part_bytes pc (sections e).
Proof.
  unfold part_bytes, places; rewrite <- (omap_lookup_seq _ (sections e)); unfold contents.
  induction (seq 0 (length (sections e))) as [|i ks IH]; [done|]; simpl.
  destruct (sections e !! i) as [[n [d|]]|] eqn:E; simpl; [| |exact IH].
  - destruct (decide (classify n = pc)); simpl; [|exact IH]; rewrite E; simpl.
    rewrite Nat2Z.id, take_ge by done; f_equal; exact IH.
  - destruct (decide _); exact IH.
Qed.

Lemma append_bytes_app b src n : append_bytes b src n = b ++ append_bytes [] src n.
Proof. destruct src; simpl; [done|by rewrite app_nil_r]. Qed.

Lemma build_code_bytes e cc :
  code (build_code e cc) =
  code cc ++ flat_map (fun '(_, cpage) =>
      append_bytes [] (buf_bytes e (text_buf cpage)) (text_size cpage) ++
      append_bytes [] (buf_bytes e (data_buf cpage)) (data_size cpage)) (pages cc)
    ++ flat_map (fun p => append_bytes [] (buf_bytes e (pad_buf p)) (pad_size p)) (pad cc).
Proof.
  unfold build_code; set (f := fun cc '(_, cpage) => _); set (g := fun cc p => with_code _ cc).
  assert (Hg : forall ps cc, code (foldl g cc ps) = code cc ++
    flat_map (fun p => append_bytes [] (buf_bytes e (pad_buf p)) (pad_size p)) ps).
  { induction ps as [|p ps IH]; intros c; simpl; [by rewrite app_nil_r|].
    rewrite IH; unfold g; simpl; rewrite append_bytes_app, <- app_assoc; done. }
  assert (Hf : forall ps cc, pad (foldl f cc ps) = pad cc /\ code (foldl f cc ps) = code cc ++
    flat_map (fun '(_, cpage) =>
      append_bytes [] (buf_bytes e (text_buf cpage)) (text_size cpage) ++
      append_bytes [] (buf_bytes e (data_buf cpage)) (data_size cpage)) ps).
  { induction ps as [|[k pg] ps IH]; intros c; [by rewrite app_nil_r|].
    change (foldl f c ((k, pg) :: ps)) with (foldl f (f c (k, pg)) ps).
    destruct (IH (f c (k, pg))) as [-> ->]; split; [done|]; unfold f; simpl.
    rewrite append_bytes_app, (append_bytes_app (code c)), <- !app_assoc; done. }
  destruct (Hf (pages cc) cc) as [Hp Hc].
  rewrite Hg, Hc, Hp, <- app_assoc; done.
Qed.

(** ** What relocation leaves alone *)

Lemma set_word_window p k v d d' :
  0 <= k <= 8 -> set_word p k v d = Some d' ->
  same_outside p (p + 36) d d' /\ (bytes_ok d -> bytes_ok d').
Proof.
  intros Hk E; split; [|intros; by eapply set_word_ok].
  eapply same_outside_weaken; [| |by eapply set_word_outside]; lia.
Qed.

(** Splits a chain of word accesses that succeeded. *)
Ltac split_chain :=
  repeat match goal with
  | H : (_ ≫= _) = Some _ |- _ => apply option.bind_Some in H as (? & ? & H)
  | H : set_word _ _ _ _ = Some _ |- _ => apply set_word_window in H as [? ?]; [|lia]
  end.

Lemma apply_patch_window kind p a d d' :
  apply_patch kind p a d = Some d' -> same_outside p (p + 36) d d' /\ (bytes_ok d -> bytes_ok d').
Proof.
  unfold apply_patch, patch_scalar_32, aie2ps_patch_57, aie4_patch_57, aie2ps_patch_ctrl_57,
    aie4_patch_ctrl_57.
  intros H; repeat case_match; split_chain;
    [..|injection H as <-; split; [apply same_outside_refl|done]];
    (split; [chain_outside|tauto]).
Qed.

(** The same sections with data of the same size. *)
Definition same_shape (s s' : section) : Prop :=
  get_name s' = get_name s /\ length <$> get_data s' = length <$> get_data s.
Definition elf_like (e e' : elfio) : Prop :=
  get_abi_version e' = get_abi_version e /\ Forall2 same_shape (sections e) (sections e').

#[global] Instance same_shape_preorder : PreOrder same_shape.
Proof. split; [done|]; intros ??? [] []; split; congruence. Qed.
#[global] Instance elf_like_preorder : PreOrder elf_like.
Proof.
  split; [intros e; split; [done|reflexivity]|].
  intros e1 e2 e3 [A1 S1] [A2 S2]; split; [congruence|etrans; done].
Qed.

Lemma elf_like_lookup e e' i s :
  elf_like e e' -> sections e !! i = Some s -> exists s', sections e' !! i = Some s' /\ same_shape s s'.
Proof. intros [_ H] Hi; destruct (Forall2_lookup_l _ _ _ _ _ H Hi) as (s' & ? & ?); eauto. Qed.

Lemma set_section_like e i s d d' :
  sections e !! i = Some s -> get_data s = Some d -> length d' = length d ->
  elf_like e (set_section_data i d' e).
Proof.
  intros Hi Hd Hl; split; [done|]; unfold set_section_data; simpl; rewrite Hi.
  apply Forall2_same_length_lookup; split; [by rewrite length_insert|].
  intros j x y Hx Hy; destruct (decide (i = j)) as [<-|].
  - rewrite list_lookup_insert_eq in Hy by (eapply lookup_lt_Some; done); simplify_eq.
    split; simpl; [done|]; rewrite Hd; simpl; congruence.
  - rewrite list_lookup_insert_ne in Hy by done; simplify_eq; done.
Qed.

Lemma contents_like e e' : elf_like e e' -> contents e' = contents e.
Proof.
  intros [_ H]; pose proof (Forall2_length _ _ _ H) as Hl; unfold contents; rewrite <- Hl.
  apply list_omap_ext, Forall_Forall2_diag, Forall_forall; intros i [_ Hi]%elem_of_seq.
  destruct (lookup_lt_is_Some_2 (sections e) i) as [s Hs]; [lia|].
  destruct (Forall2_lookup_l _ _ _ _ _ H Hs) as (s' & Hs' & En & Ed); rewrite Hs, Hs'; simpl.
  rewrite En; destruct (get_data s), (get_data s'); simplify_eq/=; congruence.
Qed.

Lemma relocate_like c e r e' : relocate c e r = Some e' -> elf_like e e'.
Proof.
  unfold relocate; destruct (target c e r) as [[i a]|]; [|by intros [= <-]].
  unfold buf_bytes; simpl; destruct (sections e !! i) as [s|] eqn:Hs; simpl; [|done].
  destruct (get_data s) as [d|] eqn:Hd; [|done].
  intros (d' & Hp & [= <-])%option.bind_Some; apply apply_patch_window in Hp as [[Hl _] _].
  eapply set_section_like; done.
Qed.

Lemma relocate_all_like c rs e e' : relocate_all c rs e = Some e' -> elf_like e e'.
Proof.
  revert e; induction rs as [|r rs IH]; intros e; simpl; [by intros [= <-]|].
  intros (e1 & H1 & H2)%option.bind_Some; etrans; [eapply relocate_like; done|auto].
Qed.

(** ** The columns after the section loop *)
Section Layout.
Context {EIO : ElfIO}.

Lemma parse_section_cols e i c :
  cols (parse_section e i c) =
  foldl (fun m x => place x m) (cols c)
    (option_list (s ← sections e !! i; d ← get_data s;
       Some (classify (get_name s), i, Z.of_nat (length d)))).
Proof.
  unfold parse_section, classify; destruct (sections e !! i) as [[nm [d|]]|]; [simpl|done..].
  destruct (is_ctrltext nm) as [[]|]; [done|]; destruct (is_ctrldata nm) as [[]|]; [done|].
  destruct (is_pad nm); [done|]; repeat case_match; done.
Qed.

Lemma parse_sections_cols e c :
  cols (parse_sections e c) = foldl (fun m x => place x m) (cols c) (contents e).
Proof.
  unfold parse_sections, contents; revert c.
  induction (seq 0 (length (sections e))) as [|i ks IH]; intros c; [done|].
  simpl foldl at 1; rewrite IH, parse_section_cols; simpl omap.
  destruct (s ← sections e !! i; _) as [x|]; done.
Qed.
End Layout.

Lemma ordered_map_entries {V} (d : V) (m : list (Z * V)) :
  StronglySorted Z.lt m.*1 -> m = map (fun k => (k, default d (assoc k m))) m.*1.
Proof.
  intros Hs; apply list_eq; intros i.
  rewrite (list_lookup_fmap (fun k => (k, default d (assoc k m)))), list_lookup_fmap.
  destruct (m !! i) as [[k v]|] eqn:E; [|done]; simpl.
  rewrite (assoc_in k v m); [done..|]; eapply list_elem_of_lookup_2; done.
Qed.

Lemma col_keys_pieces e : col_keys (contents e) = omap piece_col (file_pieces (sections e)).
Proof. rewrite <- contents_pieces, omap_map; done. Qed.

Lemma page_keys_pieces e c : page_keys c (contents e) = omap (piece_page c) (file_pieces (sections e)).
Proof. rewrite <- contents_pieces, omap_map; done. Qed.

Lemma last_part_bytes pc e :
  let t := last (places pc (contents e)) in
  append_bytes [] (buf_bytes e (fst <$> t)) (from_option snd 0 t)
  = default [] (last (part_bytes pc (sections e))).
Proof.
  cbv zeta; rewrite <- contents_places.
  destruct (last (places pc (contents e))) as [[i n]|] eqn:E.
  - apply last_Some in E as [l ->]; rewrite map_app; cbn [map]; rewrite last_snoc; done.
  - apply last_None in E as ->; done.
Qed.

Lemma col_holds_code e c cc :
  col_holds (contents e) c cc -> code (build_code e cc) = column_code (sections e) c.
Proof.
  intros (S & A & K & P & C); rewrite build_code_bytes, C, P; unfold column_code; simpl; f_equal.
  - rewrite (ordered_map_entries no_page (pages cc)) by done.
    rewrite (ordered_sort_keys (pages cc).*1 (page_keys c (contents e))) by done.
    unfold file_pages; rewrite <- page_keys_pieces, !flat_map_concat_map, map_map; f_equal.
    apply map_ext_in; intros p Hp; apply list_elem_of_In in Hp; rewrite sort_keys_elem in Hp.
    rewrite A, decide_True by done; cbn [default page_of text_buf text_size data_buf data_size].
    unfold page_bytes; f_equal; apply last_part_bytes.
  - rewrite <- contents_places, flat_map_concat_map, map_map; f_equal.
    apply map_ext; intros []; done.
Qed.

Section LayoutTheorem.
Context {EIO : ElfIO}.

Lemma parse_column_codes l l' :
  parse l = Some (0, l') ->
  elf_like (elf l) (elf l') /\
  column_codes l' =
  map (fun c => (c, column_code (sections (elf l')) c)) (file_cols (sections (elf l'))).
Proof.
  unfold parse; intros (e & He & [= <-])%option.bind_Some; simpl.
  pose proof (relocate_all_like _ _ _ _ He) as HL; split; [done|].
  unfold column_codes; simpl; rewrite parse_sections_cols, <- (contents_like _ _ HL); simpl.
  destruct (cols_hold_all (contents e)) as (S & K & H); set (m := foldl _ _ _) in *.
  unfold file_cols; rewrite <- col_keys_pieces, <- (ordered_sort_keys m.*1) by done.
  rewrite !map_map; apply map_ext_in; intros [c cc] Hc; f_equal.
  apply col_holds_code; specialize (H c).
  rewrite (assoc_in c cc m) in H by (try apply list_elem_of_In; done); done.
Qed.
End LayoutTheorem.

(** ** Relocations inside their sections *)

Lemma apply_patch_total kind p a d :
  0 <= p -> p + 36 <= Z.of_nat (length d) -> exists d', apply_patch kind p a d = Some d'.
Proof.
  intros Hp Hl.
  assert (Hg : forall e k, length e = length d -> 0 <= k <= 8 -> get_word e p k = Some (word e p k))
    by (intros; apply get_word_word; lia).
  assert (Hs : forall e k v, length e = length d -> 0 <= k <= 8 ->
    exists e', set_word p k v e = Some e' /\ length e' = length d).
  { intros e k v He Hk; destruct (set_word_total p k v e) as [e' E]; [lia..|].
    exists e'; split; [done|]; rewrite (proj1 (set_word_outside _ _ _ _ _ E)); done. }
  unfold apply_patch, patch_scalar_32, aie2ps_patch_57, aie4_patch_57, aie2ps_patch_ctrl_57,
    aie4_patch_ctrl_57.
  repeat case_match; repeat match goal with
  | |- context [get_word ?e p ?k] => rewrite (Hg e k) by (done || lia); cbn [mbind option_bind]
  | |- context [set_word p ?k ?v ?e] =>
      destruct (Hs e k v) as (? & -> & ?); [done|lia|]; cbn [mbind option_bind]
  end; eauto.
Qed.

(** The symbol of a relocation names a section that has room for a patch at its offset. *)
Definition reloc_fits (c : ccode_t) (e : elfio) (r : rela_patch) : Prop :=
  0 <= r_offset r < 2 ^ 64 - 16 /\
  forall sym s, dynsym c !! Z.to_nat (r_symbol r) = Some sym ->
    sections e !! section_index sym = Some s ->
    exists d, get_data s = Some d /\ r_offset r + 52 <= Z.of_nat (length d).

(** Byte [n] of section [i] is in the window of relocation [r]. *)
Definition in_window (c : ccode_t) (r : rela_patch) (i n : nat) : Prop :=
  exists sym, dynsym c !! Z.to_nat (r_symbol r) = Some sym /\ section_index sym = i /\
    r_offset r + 16 <= Z.of_nat n < r_offset r + 52.

Definition byte_at (e : elfio) (i n : nat) : option Z := d ← buf_bytes e (Some i); d !! n.

Lemma reloc_fits_like c e e' r : elf_like e e' -> reloc_fits c e r -> reloc_fits c e' r.
Proof.
  intros [_ H] [Ho Hf]; split; [done|]; intros sym s' Hs Hi.
  destruct (Forall2_lookup_r _ _ _ _ _ H Hi) as (s & Hi' & _ & Hd).
  destruct (Hf _ _ Hs Hi') as (d & Ed & Hl); rewrite Ed in Hd; simpl in Hd.
  destruct (get_data s') as [d'|]; simplify_eq/=; exists d'; split; [done|lia].
Qed.

Lemma target_inv c e r i a :
  target c e r = Some (i, a) ->
  exists sym str s, dynsym c !! Z.to_nat (r_symbol r) = Some sym /\
    dynstr c !! Z.to_nat (r_symbol r) = Some str /\
    symbol_map c !! string_at e str = Some a /\
    sections e !! i = Some s /\ section_index sym = i.
Proof.
  unfold target; intros (sym & E1 & (str & E2 & (b & E3 & (s & E4 & [= <- <-])%option.bind_Some
    )%option.bind_Some)%option.bind_Some)%option.bind_Some; eauto 10.
Qed.

(** A relocation with room patches its section and nothing else. *)
Lemma relocate_step c e r :
  reloc_fits c e r ->
  exists e', relocate c e r = Some e' /\ elf_like e e' /\
    (forall i n, byte_at e' i n <> byte_at e i n -> in_window c r i n) /\
    (forall i a, target c e r = Some (i, a) ->
       exists d d', buf_bytes e (Some i) = Some d /\ buf_bytes e' (Some i) = Some d' /\
         r_offset r + 52 <= Z.of_nat (length d) /\
         apply_patch (patch_kind e r) (r_offset r + 16) (u64 (a + patch_addend e r)) d = Some d').
Proof.
  intros [Ho Hf]; unfold relocate; destruct (target c e r) as [[i a]|] eqn:T.
  2: { exists e; split_and!; [done|reflexivity|done|done]. }
  destruct (target_inv _ _ _ _ _ T) as (sym & str & s & Hs & _ & _ & Hi & Ei).
  destruct (Hf sym s) as (d & Hd & Hl); [done|by rewrite Ei|].
  assert (Hb : buf_bytes e (Some i) = Some d) by (unfold buf_bytes; simpl; rewrite Hi; done).
  rewrite Hb, (wrap_u_small 64) by lia.
  destruct (apply_patch_total (patch_kind e r) (r_offset r + 16) (u64 (a + patch_addend e r)) d)
    as [d' E]; [lia..|].
  rewrite E; simpl; exists (set_section_data i d' e).
  apply apply_patch_window in E as W; destruct W as [[Lw Hw] _].
  assert (Hb' : forall j, buf_bytes (set_section_data i d' e) (Some j)
                = if decide (i = j) then Some d' else buf_bytes e (Some j)).
  { intros j; unfold buf_bytes, set_section_data; simpl; rewrite Hi; destruct (decide (i = j)) as [<-|].
    - rewrite list_lookup_insert_eq by (eapply lookup_lt_Some; done); done.
    - rewrite list_lookup_insert_ne by done; done. }
  split_and!; [done|by eapply set_section_like|..].
  - intros j n Hn; unfold byte_at in Hn; rewrite Hb' in Hn; destruct (decide (i = j)) as [<-|]; [|done].
    exists sym; split_and!; [done|done|..]; rewrite Hb in Hn; simpl in Hn.
    all: destruct (decide (r_offset r + 16 <= Z.of_nat n < r_offset r + 52)) as [|Hout]; [lia|].
    all: exfalso; apply Hn, Hw; lia.
  - intros ? ? [= <- <-]; exists d, d'; specialize (Hb' i); rewrite decide_True in Hb' by done; done.
Qed.

Lemma relocate_all_bounded c rs e :
  Forall (reloc_fits c e) rs ->
  exists e', relocate_all c rs e = Some e' /\ elf_like e e' /\
    forall i n, byte_at e' i n <> byte_at e i n -> exists r, r ∈ rs /\ in_window c r i n.
Proof.
  revert e; induction rs as [|r rs IH]; intros e; simpl.
  { exists e; split_and!; [done|reflexivity|done]. }
  intros [Hr Hrs]%Forall_cons; destruct (relocate_step c e r Hr) as (e1 & E1 & L1 & W1 & _).
  destruct (IH e1) as (e2 & E2 & L2 & W2).
  { eapply Forall_impl; [exact Hrs|]; intros; by eapply reloc_fits_like. }
  exists e2; rewrite E1; simpl; split_and!; [done|by etrans|].
  intros i n Hn; destruct (decide (byte_at e2 i n = byte_at e1 i n)) as [E|N].
  - exists r; split; [left|apply W1; congruence].
  - destruct (W2 _ _ N) as (r' & ? & ?); exists r'; split; [right|]; done.
Qed.

(** ** The addresses after relocation *)

(** The windows of two relocations do not meet. *)
Definition windows_apart (c : ccode_t) (r r' : rela_patch) : Prop :=
  forall i n, in_window c r i n -> in_window c r' i n -> False.

(** No relocation writes into a string table. *)
Definition strings_fixed (c : ccode_t) (r : rela_patch) : Prop :=
  forall v i n, v ∈ dynstr c -> in_window c r i n -> fst v <> i.

(** What relocation [r] must have done between [e] and [e']. *)
Definition reloc_done (c : ccode_t) (e e' : elfio) (r : rela_patch) : Prop :=
  forall i a f d, target c e r = Some (i, a) -> kind_format (patch_kind e r) = Some f ->
    buf_bytes e (Some i) = Some d ->
    let p := r_offset r + 16 in
    let v := u64 (a + patch_addend e r) in
    packet_ok (patch_kind e r) p v d ->
    exists d', buf_bytes e' (Some i) = Some d' /\
      address f d' p = (address f d p + v) mod 2 ^ width f /\
      Forall (fun '(k, w) => word d' p k / 2 ^ w = word d p k / 2 ^ w) f /\
      forall k, 0 <= k <= 8 -> k ∉ f.*1 -> word d' p k = word d p k.

Lemma kind_format_words kind f k w : kind_format kind = Some f -> (k, w) ∈ f -> 0 <= k <= 8.
Proof.
  unfold kind_format; intros H; repeat case_match; simplify_eq.
  all: rewrite !elem_of_cons, elem_of_nil; intros; destruct_or?; simplify_eq; lia.
Qed.

Lemma word_window p d d' k :
  length d' = length d -> (forall n, p <= Z.of_nat n < p + 36 -> d' !! n = d !! n) ->
  0 <= p -> 0 <= k <= 8 -> word d' p k = word d p k.
Proof.
  intros Hl H Hp Hk; unfold word, get_word, in_words; rewrite Hl; fold (in_words d p k).
  destruct (in_words d p k) eqn:Hi; [|done]; apply in_words_iff in Hi; simpl; f_equal.
  apply list_eq; intros n; destruct (decide (n < 4)%nat).
  - rewrite !lookup_take_lt, !lookup_drop by lia; apply H; lia.
  - rewrite !lookup_take_ge by lia; done.
Qed.

Lemma address_words f p d d' :
  (forall k w, (k, w) ∈ f -> word d' p k = word d p k) -> address f d' p = address f d p.
Proof.
  induction f as [|[k w] f IH]; simpl; intros H; [done|].
  rewrite (H k w), IH; [done| |left]; intros; eapply H; right; done.
Qed.

Lemma packet_ok_words kind p v d d' :
  (forall k, 0 <= k <= 8 -> word d' p k = word d p k) -> packet_ok kind p v d -> packet_ok kind p v d'.
Proof.
  intros H [H1 H2]; split; intros Hk; [specialize (H1 Hk)|specialize (H2 Hk)].
  - simpl in *; rewrite !H by lia; done.
  - rewrite !H by lia; done.
Qed.

Lemma u64_range x : 0 <= u64 x < 2 ^ 64.
Proof. apply wrap_u_range; lia. Qed.

Lemma buf_like e e' i d :
  elf_like e e' -> buf_bytes e (Some i) = Some d ->
  exists d', buf_bytes e' (Some i) = Some d' /\ length d' = length d.
Proof.
  intros HL; unfold buf_bytes; simpl; intros (s & Hs & Hd)%option.bind_Some.
  destruct (elf_like_lookup _ _ _ _ HL Hs) as (s' & -> & _ & Hl); simpl.
  rewrite Hd in Hl; destruct (get_data s') as [d'|]; simplify_eq/=; eauto.
Qed.

(** The words of a window no byte of which changed. *)
Lemma window_words c r e e' i sym d d' :
  dynsym c !! Z.to_nat (r_symbol r) = Some sym -> section_index sym = i -> 0 <= r_offset r ->
  buf_bytes e (Some i) = Some d -> buf_bytes e' (Some i) = Some d' -> length d' = length d ->
  (forall n, in_window c r i n -> byte_at e' i n = byte_at e i n) ->
  forall k, 0 <= k <= 8 -> word d' (r_offset r + 16) k = word d (r_offset r + 16) k.
Proof.
  intros Hs Hi Ho Hd Hd' Hl H k Hk; apply word_window; [done| |lia|done].
  intros n Hn; specialize (H n ltac:(exists sym; split_and!; [done|done|lia..])).
  unfold byte_at in H; rewrite Hd, Hd' in H; done.
Qed.

Definition elf_ok (e : elfio) : Prop := forall i d, buf_bytes e (Some i) = Some d -> bytes_ok d.

Lemma relocate_ok c e r e' : elf_ok e -> relocate c e r = Some e' -> elf_ok e'.
Proof.
  intros Hok; unfold relocate; destruct (target c e r) as [[i a]|]; [|by intros [= <-]].
  destruct (buf_bytes e (Some i)) as [d|] eqn:Hb; [|done].
  intros (d' & E & [= <-])%option.bind_Some j dj; apply apply_patch_window in E as [_ Hd].
  unfold buf_bytes in *; simpl in *; unfold set_section_data; simpl.
  destruct (sections e !! i) as [s|] eqn:Hi; simpl in Hb; [|done].
  destruct (decide (i = j)) as [<-|].
  - rewrite list_lookup_insert_eq by (eapply lookup_lt_Some; done); intros [= <-]; apply Hd.
    apply (Hok i); unfold buf_bytes; simpl; rewrite Hi; done.
  - rewrite list_lookup_insert_ne by done; apply (Hok j).
Qed.

Lemma string_at_same e e' v :
  elf_like e e' -> (forall n, byte_at e' (fst v) n = byte_at e (fst v) n) ->
  string_at e' v = string_at e v.
Proof.
  intros HL H; unfold string_at; destruct (sections e !! fst v) as [[nm [d|]]|] eqn:Hs.
  - destruct (elf_like_lookup _ _ _ _ HL Hs) as ([nm' [d'|]] & Hs' & [_ Hl]); [|done].
    rewrite Hs'; do 2 f_equal; apply list_eq; intros n; specialize (H n).
    unfold byte_at, buf_bytes in H; simpl in H; rewrite Hs, Hs' in H; done.
  - destruct (elf_like_lookup _ _ _ _ HL Hs) as ([nm' [d'|]] & Hs' & [_ Hl]); [done|].
    rewrite Hs'; done.
  - destruct (sections e' !! fst v) as [s'|] eqn:Hs'; [|done].
    destruct HL as [_ HL]; destruct (Forall2_lookup_r _ _ _ _ _ HL Hs') as (? & ? & _); congruence.
Qed.

Lemma target_same c e e' r :
  elf_like e e' -> (forall v n, v ∈ dynstr c -> byte_at e' (fst v) n = byte_at e (fst v) n) ->
  target c e' r = target c e r.
Proof.
  intros HL H; unfold target; destruct (dynsym c !! _) as [sym|]; [simpl|done].
  destruct (dynstr c !! _) as [str|] eqn:Es; [simpl|done].
  rewrite (string_at_same e e') by (try intros n; try apply H; try eapply list_elem_of_lookup_2; done).
  destruct (symbol_map c !! _); [simpl|done].
  destruct (sections e !! section_index sym) as [s|] eqn:Hs.
  - destruct (elf_like_lookup _ _ _ _ HL Hs) as (s' & -> & _); done.
  - destruct (sections e' !! section_index sym) as [s'|] eqn:Hs'; [|done].
    destruct HL as [_ HL]; destruct (Forall2_lookup_r _ _ _ _ _ HL Hs') as (? & ? & _); congruence.
Qed.

Lemma patch_same e e' r :
  elf_like e e' -> patch_kind e' r = patch_kind e r /\ patch_addend e' r = patch_addend e r.
Proof. intros [Ha _]; unfold patch_kind, patch_addend; rewrite Ha; done. Qed.

(** A relocation whose window and strings did not change before it ran. *)
Lemma reloc_done_pre c e e1 e2 r :
  elf_like e e1 -> 0 <= r_offset r ->
  (forall v n, v ∈ dynstr c -> byte_at e1 (fst v) n = byte_at e (fst v) n) ->
  (forall i n, in_window c r i n -> byte_at e1 i n = byte_at e i n) ->
  reloc_done c e1 e2 r -> reloc_done c e e2 r.
Proof.
  intros HL Ho Hs Hw HD i a f d T F Hd p v Hk; subst p v; destruct (patch_same e e1 r HL) as [Ek Ea].
  destruct (target_inv _ _ _ _ _ T) as (sym & _ & _ & Esym & _ & _ & _ & Ei).
  destruct (buf_like _ _ _ _ HL Hd) as (d1 & Hd1 & Hl).
  pose proof (window_words c r e e1 i sym d d1 Esym Ei Ho Hd Hd1 Hl (Hw i)) as W.
  destruct (HD i a f d1) as (d' & Hd' & A1 & A2 & A3);
    [by rewrite (target_same c e e1)|by rewrite Ek|done| |].
  { rewrite Ek, Ea; eapply packet_ok_words; [exact W|exact Hk]. }
  rewrite Ea in A1; exists d'; split_and!; [done| | |].
  - rewrite A1, (address_words f _ d d1); [done|].
    intros; apply W; eapply kind_format_words; done.
  - rewrite Forall_forall in A2 |- *; intros [k w] Hkw; specialize (A2 _ Hkw); simpl in *.
    rewrite A2, W; [done|eapply kind_format_words; done].
  - intros k Hk1 Hk2; rewrite A3, W by done; done.
Qed.

(** A relocation whose window did not change after it ran. *)
Lemma reloc_done_post c e e1 e2 r :
  elf_like e1 e2 -> 0 <= r_offset r ->
  (forall i n, in_window c r i n -> byte_at e2 i n = byte_at e1 i n) ->
  reloc_done c e e1 r -> reloc_done c e e2 r.
Proof.
  intros HL Ho Hw HD i a f d T F Hd p v Hk; subst p v.
  destruct (HD i a f d T F Hd Hk) as (d1 & Hd1 & A1 & A2 & A3).
  destruct (target_inv _ _ _ _ _ T) as (sym & _ & _ & Esym & _ & _ & _ & Ei).
  destruct (buf_like _ _ _ _ HL Hd1) as (d2 & Hd2 & Hl).
  pose proof (window_words c r e1 e2 i sym d1 d2 Esym Ei Ho Hd1 Hd2 Hl (Hw i)) as W.
  exists d2; split_and!; [done| | |].
  - rewrite <- A1; apply address_words; intros; apply W; eapply kind_format_words; done.
  - rewrite Forall_forall in A2 |- *; intros [k w] Hkw; specialize (A2 _ Hkw); simpl in *.
    rewrite <- A2, W; [done|eapply kind_format_words; done].
  - intros k Hk1 Hk2; rewrite W by done; auto.
Qed.

Lemma relocate_done c e r e' : elf_ok e -> reloc_fits c e r -> relocate c e r = Some e' -> reloc_done c e e' r.
Proof.
  intros Hok Hf E i a f d T F Hd p v Hk; subst p v; destruct (relocate_step c e r Hf) as (e1 & E1 & _ & _ & HP).
  simplify_eq; destruct (HP i a T) as (d0 & d' & Hd0 & Hd' & Hl & HA); simplify_eq.
  destruct Hf as [Ho _].
  destruct (apply_patch_spec (patch_kind e r) f (r_offset r + 16) (u64 (a + patch_addend e r)) d)
    as (d1 & HA' & P1 & P2 & P3 & _);
    [done|by eapply Hok|lia|lia|apply u64_range|done|].
  rewrite HA in HA'; simplify_eq; exists d1; split_and!; auto.
Qed.

Lemma relocate_all_done c rs e :
  elf_ok e -> Forall (reloc_fits c e) rs -> ForallOrdPairs (windows_apart c) rs ->
  Forall (strings_fixed c) rs ->
  exists e', relocate_all c rs e = Some e' /\ Forall (reloc_done c e e') rs.
Proof.
  revert e; induction rs as [|r rs IH]; intros e Hok HF HA HS; [exists e; done|].
  apply Forall_cons in HF as [Hr HF]; apply Forall_cons in HS as [Sr HS].
  inversion HA as [|? ? Ar HA']; subst.
  destruct (relocate_step c e r Hr) as (e1 & E1 & L1 & W1 & _).
  assert (HF1 : Forall (reloc_fits c e1) rs)
    by (eapply Forall_impl; [exact HF|]; intros; by eapply reloc_fits_like).
  destruct (IH e1) as (e2 & E2 & D2); [by eapply relocate_ok|done..|].
  destruct (relocate_all_bounded c rs e1 HF1) as (e2' & E2' & L2 & W2); simplify_eq.
  exists e2; simpl; rewrite E1; split; [done|]; constructor.
  - apply (reloc_done_post c e e1); [done|apply Hr| |by eapply relocate_done].
    intros i n Hw; destruct (decide (byte_at e2 i n = byte_at e1 i n)) as [|N]; [done|exfalso].
    destruct (W2 _ _ N) as (r' & Hr' & Hw'); rewrite Forall_forall in Ar; by eapply Ar.
  - rewrite Forall_forall in *; intros r' Hr'; apply (reloc_done_pre c e e1);
      [done|apply HF; done| | |by apply D2].
    + intros v n Hv; destruct (decide (byte_at e1 (fst v) n = byte_at e (fst v) n)) as [|N]; [done|].
      exfalso; by eapply Sr; [|apply W1|].
    + intros i n Hw; destruct (decide (byte_at e1 i n = byte_at e i n)) as [|N]; [done|].
      exfalso; by eapply (Ar r'); [|apply W1|].
Qed.

(** ** Section names *)

(** The decimal digits of a number below [10 ^ fuel]. *)
Fixpoint decimal (fuel : nat) (n : Z) : list Z :=
  match fuel with
  | O => []
  | S fuel => (if n <? 10 then [] else decimal fuel (n / 10)) ++ [48 + n mod 10]
  end.

(** The way the assembler writes an [int32_t] into a section name. *)
Definition int_name (n : Z) : list Z :=
  if n <? 0 then minus :: decimal 10 (- n) else decimal 10 n.

Lemma digits_app acc s b rest :
  Forall (fun b => is_digit b = true) s -> is_digit b = false ->
  digits acc (s ++ b :: rest) = (fst (digits acc s), b :: rest) /\
  digits acc s = (fst (digits acc s), []).
Proof.
  intros Hs Hb; revert acc; induction Hs as [|x s Hx Hs IH]; intros acc; simpl.
  - rewrite Hb; done.
  - rewrite Hx; apply IH.
Qed.

Lemma digits_snoc acc s x :
  Forall (fun b => is_digit b = true) s -> is_digit x = true ->
  fst (digits acc (s ++ [x])) = 10 * fst (digits acc s) + (x - 48).
Proof.
  intros Hs Hx; revert acc; induction Hs as [|y s Hy Hs IH]; intros acc; simpl.
  - rewrite Hx; done.
  - rewrite Hy; apply IH.
Qed.

Lemma decimal_ok fuel n :
  (0 < fuel)%nat -> 0 <= n < 10 ^ Z.of_nat fuel ->
  Forall (fun b => is_digit b = true) (decimal fuel n) /\ decimal fuel n <> [] /\
  fst (digits 0 (decimal fuel n)) = n.
Proof.
  revert n; induction fuel as [|fuel IH]; [lia|]; intros n _ Hn; cbn [decimal].
  rewrite Nat2Z.inj_succ, Z.pow_succ_r in Hn by lia.
  pose proof (Z.mod_pos_bound n 10 ltac:(lia)).
  assert (Hd : is_digit (48 + n mod 10) = true) by (unfold is_digit; lia).
  destruct (Z.ltb_spec n 10) as [Hlt|Hge].
  { rewrite Z.mod_small in * by lia; split_and!; [by repeat constructor|done|].
    cbn [app digits]; rewrite Hd; simpl; lia. }
  assert (Hf : (0 < fuel)%nat) by (destruct fuel; simpl in *; lia).
  destruct (IH (n / 10) Hf) as (F & N & V).
  { split; [apply Z.div_pos; lia|apply Z.div_lt_upper_bound; lia]. }
  split_and!; [apply Forall_app; split; [done|by repeat constructor]|by intros [_ ?]%app_eq_nil|].
  rewrite digits_snoc, V by done; pose proof (Z.div_mod n 10); lia.
Qed.

Lemma from_chars_name n : - 2 ^ 31 <= n < 2 ^ 31 -> from_chars_all (int_name n) = Some n.
Proof.
  intros Hn; unfold int_name; destruct (Z.ltb_spec n 0) as [Hlt|Hge].
  - destruct (decimal_ok 10 (- n)) as (F & N & V); [lia|simpl; lia|].
    destruct (decimal 10 (- n)) as [|x s] eqn:E; [done|]; pose proof (proj1 (proj1 (Forall_cons _ _ _) F)) as Hx.
    unfold from_chars_all; simpl; rewrite Hx.
    destruct (digits_app 0 (x :: s) 0 [] F eq_refl) as [_ D]; simpl in D, V; rewrite Hx in D, V.
    rewrite D, V, Z.opp_involutive; replace ((- 2147483648 <=? n) && _) with true by lia; done.
  - destruct (decimal_ok 10 n) as (F & N & V); [lia|simpl; lia|].
    destruct (decimal 10 n) as [|x s] eqn:E; [done|]; pose proof (proj1 (proj1 (Forall_cons _ _ _) F)) as Hx.
    unfold from_chars_all.
    replace (x =? minus) with false by (unfold is_digit, minus in *; lia); rewrite Hx.
    destruct (digits_app 0 (x :: s) 0 [] F eq_refl) as [_ D]; rewrite D, V.
    replace ((_ <=? n) && _) with true by lia; done.
Qed.

Lemma decimal_no_dot fuel n : 0 <= n -> Forall (fun b => b <> dot) (decimal fuel n).
Proof.
  revert n; induction fuel as [|fuel IH]; intros n Hn; [constructor|]; cbn [decimal].
  apply Forall_app; split; [destruct (n <? 10); [constructor|apply IH, Z.div_pos; lia]|].
  pose proof (Z.mod_pos_bound n 10 ltac:(lia)); repeat constructor; unfold dot; lia.
Qed.

Lemma int_name_no_dot n : Forall (fun b => b <> dot) (int_name n).
Proof.
  unfold int_name; destruct (Z.ltb_spec n 0); [constructor; [done|]|]; apply decimal_no_dot; lia.
Qed.

Lemma split_dot_app s rest : Forall (fun b => b <> dot) s -> split_dot (s ++ dot :: rest) = Some (s, rest).
Proof.
  induction 1 as [|x s Hx Hs IH]; simpl; [done|].
  rewrite (proj2 (Z.eqb_neq x dot) Hx), IH; done.
Qed.

Lemma col_page_name c p :
  - 2 ^ 31 <= c < 2 ^ 31 -> - 2 ^ 31 <= p < 2 ^ 31 ->
  col_page (int_name c ++ dot :: int_name p) = Some (c, p).
Proof.
  intros Hc Hp; unfold col_page; rewrite split_dot_app by apply int_name_no_dot; simpl.
  destruct (int_name c) eqn:E; [pose proof (from_chars_name c Hc) as F; rewrite E in F; done|].
  rewrite <- E, !from_chars_name by done; done.
Qed.

Lemma strip_prefix_app pre s : strip_prefix pre (pre ++ s) = Some s.
Proof. induction pre as [|x pre IH]; simpl; [done|by rewrite Z.eqb_refl]. Qed.

(** * Properties *)

Definition is_int32 (n : Z) : Prop := - 2 ^ 31 <= n < 2 ^ 31.

(** The names the assembler gives to sections are read back: for every column and page of
    [int32_t], negative ones included, the text, data and pad sections of a column are
    classified as such, with that column and page. *)
Theorem section_names_roundtrip c p :
  is_int32 c -> is_int32 p ->
  classify (ctrltext_prefix ++ int_name c ++ dot :: int_name p) = Text c p /\
  classify (ctrldata_prefix ++ int_name c ++ dot :: int_name p) = Data c p /\
  classify (pad_prefix ++ int_name c) = Pad c.
Proof.
  intros Hc Hp; unfold classify, is_ctrltext, is_ctrldata, is_pad; rewrite !strip_prefix_app; simpl.
  rewrite col_page_name, from_chars_name by done; done.
Qed.

Lemma section_names_roundtrip_witness :
  classify (ctrltext_prefix ++ int_name (-17) ++ dot :: int_name 2147483647) = Text (-17) 2147483647.
Proof. apply (section_names_roundtrip (-17) 2147483647); unfold is_int32; lia. Defined.

Section Properties.
Context {EIO : ElfIO}.

(** The code of every column as the patched sections say. *)
Definition file_code (e : elfio) : ccode :=
  map (fun c => (c, column_code (sections e) c)) (file_cols (sections e)).

(** What the section loop collects from the ELF file of a loader. *)
Definition collected (l : loader) : ccode_t :=
  parse_sections (elf l) (mkCcode [] [] [] [] (symbol_map (the_code l))).

(** C7: Parsing succeeds and lays out the code: when every relocation whose symbol exists lies
    inside the data of its section, [parse] returns 0; for every column that some section
    names, in column order, the code is the concatenation over the pages in page order of the
    last text and the last data section of the page, followed by all pads in file order, with
    the relocations applied; and a byte differs from the file only inside the 36 bytes behind
    the header of a relocation's place. *)
Theorem parse_lays_out_code l :
  Forall (reloc_fits (collected l) (elf l)) (rela (collected l)) ->
  exists l', parse l = Some (0, l') /\
    column_codes l' = file_code (elf l') /\
    file_cols (sections (elf l')) = file_cols (sections (elf l)) /\
    forall i n, byte_at (elf l') i n <> byte_at (elf l) i n ->
      exists r, r ∈ rela (collected l) /\ in_window (collected l) r i n.
Proof.
  intros HF; destruct (relocate_all_bounded _ _ _ HF) as (e' & E & HL & HW).
  assert (HP : exists l', parse l = Some (0, l') /\ elf l' = e').
  { unfold parse; fold (collected l); rewrite E; simpl; eauto. }
  destruct HP as (l' & HP & <-); exists l'; destruct (parse_column_codes _ _ HP) as [_ HC].
  split_and!; [done|done| |done].
  unfold file_cols; rewrite <- !col_keys_pieces, (contents_like _ _ HL); done.
Qed.

(** C36: Every relocation the loader can apply is applied exactly once.  Let the bytes of the file
    be bytes, the relocations fit their sections, not overlap and not patch a string table.  Then
    [parse] returns 0, and for each relocation whose symbol has an address and whose kind is one
    of the five the loader knows, the address at its place is its address in the file
    plus the host address of the symbol and the addend, modulo the width of the address,
    and the bits around it are those of the file.  For the two kinds of control packet this needs
    what their encoding can hold: for the first, that the sum is below 2^48 and divisible by four;
    for the AIE4 one, that words 0 and 1 of the place agree in their upper seven bits. *)
Theorem parse_relocates l :
  elf_ok (elf l) -> Forall (reloc_fits (collected l) (elf l)) (rela (collected l)) ->
  ForallOrdPairs (windows_apart (collected l)) (rela (collected l)) ->
  Forall (strings_fixed (collected l)) (rela (collected l)) ->
  exists l', parse l = Some (0, l') /\
    forall r i a f d,
      r ∈ rela (collected l) -> target (collected l) (elf l) r = Some (i, a) ->
      kind_format (patch_kind (elf l) r) = Some f -> buf_bytes (elf l) (Some i) = Some d ->
      let p := r_offset r + 16 in
      let v := u64 (a + patch_addend (elf l) r) in
      (patch_kind (elf l) r = CONTROL_PACKET_57 ->
         let s := address [(2, 32); (3, 16)] d p + v in s < 2 ^ 48 /\ s mod 4 = 0) ->
      (patch_kind (elf l) r = CONTROL_PACKET_57_AIE4 ->
         word d p 0 / 2 ^ 25 = word d p 1 / 2 ^ 25) ->
      exists d', buf_bytes (elf l') (Some i) = Some d' /\
        address f d' p = (address f d p + v) mod 2 ^ width f /\
        Forall (fun '(k, w) => word d' p k / 2 ^ w = word d p k / 2 ^ w) f /\
        forall k, 0 <= k <= 8 -> k ∉ f.*1 -> word d' p k = word d p k.
Proof.
  intros Hok HF HA HS; destruct (relocate_all_done _ _ _ Hok HF HA HS) as (e' & E & HD).
  assert (HP : exists l', parse l = Some (0, l') /\ elf l' = e').
  { unfold parse; fold (collected l); rewrite E; simpl; eauto. }
  destruct HP as (l' & HP & <-); exists l'; split; [done|].
  intros r i a f d Hr Ht Hk Hb p v H1 H2; rewrite Forall_forall in HD.
  exact (HD r Hr i a f d Ht Hk Hb (conj H1 H2)).
Qed.

(** Renaming symbols, keeping their sections. *)
Definition rename (g : list Z -> list Z) (s : dynsym_patch) : dynsym_patch :=
  mkSym (g (sym_name s)) (sym_value s) (sym_size s) (sym_bind s) (sym_type s) (section_index s)
    (sym_other s).

Lemma relocate_rename g c e r : relocate (with_dynsym (map (rename g)) c) e r = relocate c e r.
Proof.
  unfold relocate, target; cbn [dynsym with_dynsym dynstr symbol_map].
  rewrite (list_lookup_fmap (rename g)); destruct (dynsym c !! _); done.
Qed.

(** The names of the symbols are never consulted: the loader looks up the string at the
    index of the symbol in the string table, so renaming the symbols changes no relocation. *)
Theorem symbol_names_ignored g c rs e :
  relocate_all (with_dynsym (map (rename g)) c) rs e = relocate_all c rs e.
Proof.
  revert e; induction rs as [|r rs IH]; intros e; simpl; [done|].
  rewrite relocate_rename; destruct (relocate c e r); simpl; auto.
Qed.

(** Relocations the loader mishandles: one whose place lies behind the data of its section
    is applied all the same, outside the section; and in a file whose ABI version is not 2,
    one whose addend carries an offset besides the patch kind is not applied at all. *)
Theorem relocation_mishandled c e r i a d :
  target c e r = Some (i, a) -> buf_bytes e (Some i) = Some d -> 0 <= r_offset r < 2 ^ 64 - 16 ->
  (forall f, kind_format (patch_kind e r) = Some f -> Z.of_nat (length d) <= r_offset r + 16 ->
     relocate c e r = None) /\
  (forall x k, get_abi_version e <> 2 -> r_addend r = 16 * x + k -> 0 < x < 2 ^ 27 -> 0 <= k < 16 ->
     relocate c e r = Some e).
Proof.
  intros T Hb Ho; unfold relocate; rewrite T, Hb, (wrap_u_small 64) by lia; split.
  - intros f F Hl; cut (apply_patch (patch_kind e r) (r_offset r + 16) (u64 (a + patch_addend e r)) d = None);
      [by intros ->|].
    assert (Hg : forall k, 0 <= k -> get_word d (r_offset r + 16) k = None).
    { intros k Hk; unfold get_word; destruct (in_words _ _ _) eqn:Hi; [|done].
      apply in_words_iff in Hi; lia. }
    unfold kind_format in F; unfold apply_patch, patch_scalar_32, aie2ps_patch_57, aie4_patch_57,
      aie2ps_patch_ctrl_57, aie4_patch_ctrl_57; rewrite !Hg by lia; repeat case_match; done.
  - intros x k Habi Ha Hx Hk; unfold patch_kind; rewrite (proj2 (Z.eqb_neq _ _) Habi), Ha.
    rewrite (wrap_s_small 32) by lia; unfold apply_patch.
    unfold SCALAR_32BIT_KIND, SHIM_DMA_BASE_ADDR_SYMBOL_KIND, SHIM_DMA_AIE4_BASE_ADDR_SYMBOL_KIND,
      CONTROL_PACKET_57, CONTROL_PACKET_57_AIE4.
    rewrite !(proj2 (Z.eqb_neq (16 * x + k) _)) by lia; simpl; f_equal.
    unfold buf_bytes in Hb; simpl in Hb; unfold set_section_data.
    destruct (sections e !! i) as [[nm dd]|] eqn:Hi; simpl in Hb; [|done]; subst dd.
    rewrite list_insert_id by done; destruct e; done.
Qed.

(** [src/cert_host.cc:249-276] [cert_api::submit_command] with the loading of the control ELF *)
Definition submit_elf `{rt : AieRt} (fuel : nat) (c : cert_api) (ctrl_elf : list Z)
    (symbol : gmap (list Z) Z) : M Z :=
  match parse (cert_elf_loader ctrl_elf symbol) with
  | None => undefined
  | Some (_, l) => submit_command fuel c (column_codes l)
  end.

(** C5: From the control ELF to the device.  Let the driver keep the address of every memory
    instance, the relocations of a control ELF fit their sections, some section name a column,
    the arguments of the external buffers fit the packet, and the packet for the code be built
    and laid out without overlap where entries can address it.  If the device, once the queue was
    rung and as long as it is polled the way [submit_command] polls it, answers one of the first
    [n] tests of the completion word with a non-zero value, then [submit_command] returns
    and from the moment the write index moved until it returns the firmware finds for every
    column the code the patched sections of the file describe. *)
Theorem control_elf_delivered `{rt : AieRt} {sm : StableMem rt} inst_size host_of
    n fuel c ctrl_elf symbol h s h1 insts h2 :
  let l := cert_elf_loader ctrl_elf symbol in
  Forall (reloc_fits (collected l) (elf l)) (rela (collected l)) ->
  file_cols (sections (elf l)) <> [] -> args_ok c -> open_slot c h = Some (s, h1) ->
  (forall e, relocate_all (collected l) (rela (collected l)) (elf l) = Some e ->
     build_packet c s (touch_col0 (file_code e)) h1 = Some (Some insts, h2) /\
     command_layout inst_size host_of c s (touch_col0 (file_code e)) insts) ->
  (forall h3, ring c s h2 = Some (tt, h3) -> completes n (Z.to_nat 0xffffff) c s h3) ->
  (n <= fuel)%nat ->
  exists l' r pre rest ctrl,
    parse l = Some (0, l') /\
    submit_elf fuel c ctrl_elf symbol h = Some (r, after h (pre ++ ring_calls c s ++ rest)) /\
    delivers inst_size host_of c s (touch_col0 (file_code (elf l'))) ctrl
      (pre ++ ring_calls c s ++ rest).
Proof.
  intros l HF Hne Hargs Ho Hb Hc Hf.
  destruct (relocate_all_bounded _ _ _ HF) as (e' & E & HL & _).
  assert (HP : exists l', parse l = Some (0, l') /\ elf l' = e').
  { unfold parse; fold (collected l); rewrite E; simpl; eauto. }
  destruct HP as (l' & HP & <-); destruct (parse_column_codes _ _ HP) as [_ HC].
  destruct (Hb _ E) as [Hb1 Hb2].
  assert (Hne' : file_code (elf l') <> []).
  { unfold file_code, file_cols in *; rewrite <- !col_keys_pieces, (contents_like _ _ HL) in *.
    by destruct (sort_keys _). }
  destruct (submit_delivers inst_size host_of n fuel c _ h s h1 insts h2 Hargs Hne' Ho Hb1 Hb2 (Hc _ (ring_eq _ _ _)) Hf)
    as (r & pre & rest & ctrl & HS & _ & _ & HD).
  exists l', r, pre, rest, ctrl; split_and!; [done| |done].
  unfold submit_elf; fold l; rewrite HP, HC; exact HS.
Qed.
End Properties.

(** * A concrete control ELF

    Two columns, one relocation of a buffer descriptor in the text of column 0. *)
Definition demo_text : list Z := replicate 16 0xEE ++ flat_map (le_bytes 4) [0; 0x10; 0; 3; 4; 5; 6; 7; 0] ++ [9; 9].
Definition demo_sections : list section :=
  [mkSection [] None;
   mkSection (ctrltext_prefix ++ int_name 0 ++ dot :: int_name 1) (Some [1; 2]);
   mkSection (ctrltext_prefix ++ int_name 0 ++ dot :: int_name 0) (Some demo_text);
   mkSection (ctrldata_prefix ++ int_name 0 ++ dot :: int_name 0) (Some [7; 7; 7]);
   mkSection (ctrltext_prefix ++ int_name 1 ++ dot :: int_name 0) (Some [4; 5]);
   mkSection (pad_prefix ++ int_name 0) (Some [0; 0]);
   mkSection rela_dyn_name (Some (replicate 24 0));
   mkSection dynsym_name (Some (replicate 48 0));
   mkSection dynstr_name (Some [0; 98; 117; 102; 0])].

#[local] Instance demo_elfio : ElfIO := {|
  elf_load := fun _ => (true, mkElf 2 demo_sections);
  elf_load_file := fun _ => (true, mkElf 2 demo_sections);
  get_entries_num := fun _ _ => 1;
  get_entry := fun _ _ _ _ => mkRela 0 1 SHIM_DMA_BASE_ADDR_SYMBOL_KIND 0x20;
  get_symbols_num := fun _ _ => 2;
  get_symbol := fun _ _ k s =>
    if k =? 1 then mkSym [98; 117; 102] 0 0 0 0 2 0 else s
|}.
Definition demo_symbols : gmap (list Z) Z := {[ [98; 117; 102] := 0x800000000000 ]}.
Definition demo_loader : loader := cert_elf_loader [] demo_symbols.

Lemma demo_collected :
  rela (collected demo_loader) = [mkRela 0 1 2 0x20] /\
  dynsym (collected demo_loader) = [no_sym; mkSym [98; 117; 102] 0 0 0 0 2 0] /\
  dynstr (collected demo_loader) = [(8%nat, 0%nat); (8%nat, 1%nat)].
Proof. vm_compute; done. Qed.

Lemma demo_fits : Forall (reloc_fits (collected demo_loader) (elf demo_loader)) (rela (collected demo_loader)).
Proof.
  destruct demo_collected as (-> & Hs & _); constructor; [|done]; split; [simpl; lia|].
  rewrite Hs; intros sym s [= <-] [= <-]; eexists; split; [reflexivity|vm_compute; done].
Qed.

Lemma parse_lays_out_code_witness :
  exists l', parse demo_loader = Some (0, l') /\ column_codes l' = file_code (elf l').
Proof.
  destruct (parse_lays_out_code demo_loader demo_fits) as (l' & H & HC & _); exists l'; done.
Defined.

Lemma demo_ok : elf_ok (elf demo_loader).
Proof.
  intros i d H; unfold buf_bytes in H; simpl in H.
  do 9 (destruct i as [|i]; [simplify_eq/=; repeat constructor; vm_compute; done|]); done.
Qed.

Lemma parse_relocates_witness :
  exists l', parse demo_loader = Some (0, l') /\
    exists d', buf_bytes (elf l') (Some 2%nat) = Some d' /\
      address [(1, 32); (2, 16); (8, 9)] d' 16 = 0x800000000030.
Proof.
  destruct (parse_relocates demo_loader) as (l' & H & HD).
  - exact demo_ok.
  - exact demo_fits.
  - rewrite (proj1 demo_collected); repeat constructor.
  - destruct demo_collected as (-> & Hs & Hd); repeat constructor; intros v i n Hv (sym & E & <- & _).
    rewrite Hs in E; rewrite Hd in Hv; injection E as <-; rewrite !elem_of_cons in Hv.
    destruct Hv as [->|[->|[]%elem_of_nil]]; simpl; lia.
  - exists l'; split; [exact H|].
    destruct (HD (mkRela 0 1 2 0x20) 2%nat 0x800000000000 [(1, 32); (2, 16); (8, 9)] demo_text)
      as (d' & Hd' & HA & _);
      [rewrite (proj1 demo_collected); left|vm_compute; reflexivity..|
       intros Hk; vm_compute in Hk; done|intros Hk; vm_compute in Hk; done|].
    exists d'; split; [exact Hd'|]; refine (eq_trans HA _); vm_compute; reflexivity.
Defined.

Lemma relocation_mishandled_witness :
  relocate (collected demo_loader) (elf demo_loader) (mkRela 54 1 2 0) = None.
Proof.
  apply (relocation_mishandled (collected demo_loader) (elf demo_loader) (mkRela 54 1 2 0)
    2 0x800000000000 demo_text) with (f := [(1, 32); (2, 16); (8, 9)]);
    [vm_compute; reflexivity|vm_compute; reflexivity|simpl; lia|vm_compute; reflexivity|vm_compute; done].
Defined.

Definition demo_patched : elfio :=
  default (elf demo_loader)
    (relocate_all (collected demo_loader) (rela (collected demo_loader)) (elf demo_loader)).
Definition demo_elf_built : list Z * hist :=
  match @build_packet cert_rt demo_cert demo_slot (touch_col0 (file_code demo_patched)) demo_opened with
  | Some (Some l, h) => (l, h) | _ => ([], []) end.

Lemma control_elf_delivered_witness :
  exists l' r pre rest ctrl,
    parse demo_loader = Some (0, l') /\
    @submit_elf demo_elfio cert_rt 1 demo_cert [] demo_symbols [] =
      Some (r, @after cert_rt [] (pre ++ ring_calls demo_cert demo_slot ++ rest)) /\
    @delivers cert_rt cert_mem (fun _ => 0x3000%nat) demo_host_of demo_cert demo_slot
      (touch_col0 (file_code (elf l'))) ctrl (pre ++ ring_calls demo_cert demo_slot ++ rest).
Proof.
  apply (@control_elf_delivered demo_elfio cert_rt cert_mem (fun _ => 0x3000%nat) demo_host_of
    1 1 demo_cert [] demo_symbols [] demo_slot demo_opened (fst demo_elf_built) (snd demo_elf_built)).
  - exact demo_fits.
  - vm_compute; discriminate.
  - vm_compute; intuition discriminate.
  - vm_compute; reflexivity.
  - intros e He; assert (Ee : e = demo_patched).
    { unfold demo_patched; change (cert_elf_loader [] demo_symbols) with demo_loader in He.
      rewrite He; done. }
    subst e; split; [vm_compute; reflexivity|].
    replace (fst demo_elf_built) with [26; 23] by (vm_compute; reflexivity).
    constructor; try apply demo_mapped;
      try (apply Nat.leb_le; vm_compute; reflexivity); vm_compute;
      try (left; discriminate); try (right; discriminate); repeat split; discriminate.
  - intros h; apply demo_completes.
  - lia.
Defined.
