(* ===== verification/TestStubs.v ===== *)
(** The stand-in for driver memory the command-queue tests link against
    ([example/testcpputest/stubs/submit_cmd_stubs/stub_xaie_mem.c]).

    Its memory instances are static objects named here by constructors; the storage a
    virtual address points to is one of two static arrays.  The completion words follow a
    script per entry of the queue, one step per synchronisation. *)
From stdpp Require Import base list gmap.
From Stdlib Require Import ZArith Lia.
From S2P Require Import Prelude.
Local Open Scope Z_scope.

(** * State *)

(** [example/testcpputest/stubs/submit_cmd_stubs/stub_xaie_mem.c:7-21] [comp_behaviour_t]
    [sequence] has 16 words. *)
Definition HSA_QUEUE_ENTRY : nat := 32.
Definition STUB_COMP_SUCCESS : Z := 1.
Record comp_behaviour_t := {
  sequence : list Z; length_ : Z; pos : Z; sync_count : Z }.
Definition no_behaviour : comp_behaviour_t :=
  {| sequence := replicate 16 0; length_ := 0; pos := 0; sync_count := 0 |}.

(** A memory instance: one of the static ones, or one a test passes in. *)
Inductive inst := hsa_storage | comp_storage | extra_storage | test_inst (id : Z).
#[export] Instance inst_eq_dec : EqDecision inst.
Proof. solve_decision. Defined.

(** What a virtual address points to. *)
Inductive vaddr_t := vnull | vqueue | vcompletion | vother (a : Z).
#[export] Instance vaddr_eq_dec : EqDecision vaddr_t.
Proof. solve_decision. Defined.

Record XAie_MemInst := { vaddr : vaddr_t; devAddr : Z }.
Definition zeroed : XAie_MemInst := {| vaddr := vnull; devAddr := 0 |}.

(** [example/testcpputest/stubs/submit_cmd_stubs/stub_xaie_mem.c:23-37] the globals
    The contents of the queue storage are not tracked; a null pointer is [None]. *)
Record stub := {
  g_completion : list Z;
  g_hsa_meminst : option inst;
  g_comp_meminst : option inst;
  g_comp_behaviour : list comp_behaviour_t;
  g_insts : inst -> XAie_MemInst;
  g_force_ctrlcode_vaddr_null : bool;
  g_alloc_call_count : Z;
  g_free_call_count : Z;
  g_fail_alloc_index : Z;
  g_stub_comp_sig_value : Z;
  g_case3 : bool * bool;
  g_case4 : bool * bool
}.

Definition upd_inst (i : inst) (m : XAie_MemInst) (f : inst -> XAie_MemInst) : inst -> XAie_MemInst :=
  fun j => if decide (j = i) then m else f j.

(** ** Field updates *)

Definition with_flags (null : bool) (c3 c4 : bool * bool) (s : stub) : stub :=
  {| g_completion := g_completion s; g_hsa_meminst := g_hsa_meminst s;
     g_comp_meminst := g_comp_meminst s; g_comp_behaviour := g_comp_behaviour s;
     g_insts := g_insts s; g_force_ctrlcode_vaddr_null := null;
     g_alloc_call_count := g_alloc_call_count s; g_free_call_count := g_free_call_count s;
     g_fail_alloc_index := g_fail_alloc_index s;
     g_stub_comp_sig_value := g_stub_comp_sig_value s; g_case3 := c3; g_case4 := c4 |}.
Definition with_counts (a f i v : Z) (s : stub) : stub :=
  {| g_completion := g_completion s; g_hsa_meminst := g_hsa_meminst s;
     g_comp_meminst := g_comp_meminst s; g_comp_behaviour := g_comp_behaviour s;
     g_insts := g_insts s; g_force_ctrlcode_vaddr_null := g_force_ctrlcode_vaddr_null s;
     g_alloc_call_count := a; g_free_call_count := f; g_fail_alloc_index := i;
     g_stub_comp_sig_value := v; g_case3 := g_case3 s; g_case4 := g_case4 s |}.
Definition with_insts (h c : option inst) (f : inst -> XAie_MemInst) (s : stub) : stub :=
  {| g_completion := g_completion s; g_hsa_meminst := h; g_comp_meminst := c;
     g_comp_behaviour := g_comp_behaviour s; g_insts := f;
     g_force_ctrlcode_vaddr_null := g_force_ctrlcode_vaddr_null s;
     g_alloc_call_count := g_alloc_call_count s; g_free_call_count := g_free_call_count s;
     g_fail_alloc_index := g_fail_alloc_index s;
     g_stub_comp_sig_value := g_stub_comp_sig_value s;
     g_case3 := g_case3 s; g_case4 := g_case4 s |}.
Definition with_completion (ws : list Z) (bs : list comp_behaviour_t) (s : stub) : stub :=
  {| g_completion := ws; g_hsa_meminst := g_hsa_meminst s;
     g_comp_meminst := g_comp_meminst s; g_comp_behaviour := bs; g_insts := g_insts s;
     g_force_ctrlcode_vaddr_null := g_force_ctrlcode_vaddr_null s;
     g_alloc_call_count := g_alloc_call_count s; g_free_call_count := g_free_call_count s;
     g_fail_alloc_index := g_fail_alloc_index s;
     g_stub_comp_sig_value := g_stub_comp_sig_value s;
     g_case3 := g_case3 s; g_case4 := g_case4 s |}.

(** * Control of a test *)

(** [example/testcpputest/stubs/submit_cmd_stubs/stub_xaie_mem.c:39-42] [Stub_XAie_ForceCtrlCodeVaddrNull] *)
Definition Stub_XAie_ForceCtrlCodeVaddrNull (enable : Z) (s : stub) : stub :=
  with_flags (negb (enable =? 0)) (g_case3 s) (g_case4 s) s.

(** [example/testcpputest/stubs/submit_cmd_stubs/stub_xaie_mem.c:44-47] [Stub_AieMem_SetAllocateFailIndex] *)
Definition Stub_AieMem_SetAllocateFailIndex (index : Z) (s : stub) : stub :=
  with_counts (g_alloc_call_count s) (g_free_call_count s) index (g_stub_comp_sig_value s) s.

(** [example/testcpputest/stubs/submit_cmd_stubs/stub_xaie_mem.c:49-55] [Stub_AieMem_ResetAll] *)
Definition Stub_AieMem_ResetAll (s : stub) : stub := with_counts 0 0 (-1) 0 s.

(** [example/testcpputest/stubs/submit_cmd_stubs/stub_xaie_mem.c:57-65] [Stub_AieMem_GetAllocateCallCount]
    and [Stub_AieMem_GetFreeCallCount] *)
Definition Stub_AieMem_GetCallCounts (s : stub) : Z * Z :=
  (g_alloc_call_count s, g_free_call_count s).

(** [example/testcpputest/stubs/submit_cmd_stubs/stub_xaie_mem.c:72-76] [Stub_XAie_ForceCase3AllocPattern] *)
Definition Stub_XAie_ForceCase3AllocPattern (entry_fail ctrl_fail : Z) (s : stub) : stub :=
  with_flags (g_force_ctrlcode_vaddr_null s)
    (negb (entry_fail =? 0), negb (ctrl_fail =? 0)) (g_case4 s) s.

(** [example/testcpputest/stubs/submit_cmd_stubs/stub_xaie_mem.c:78-82] [Stub_XAie_ForceCase4AllocPattern] *)
Definition Stub_XAie_ForceCase4AllocPattern (entry_fail ctrl_fail : Z) (s : stub) : stub :=
  with_flags (g_force_ctrlcode_vaddr_null s) (g_case3 s)
    (negb (entry_fail =? 0), negb (ctrl_fail =? 0)) s.

(** [example/testcpputest/stubs/submit_cmd_stubs/stub_xaie_mem.c:84-87] [Stub_XAie_Case3EntryShouldFail]
    and the three like it *)
Definition Stub_XAie_ShouldFail (s : stub) : (bool * bool) * (bool * bool) :=
  (g_case3 s, g_case4 s).

(** [example/testcpputest/stubs/submit_cmd_stubs/stub_xaie_mem.c:89-106] [Stub_XAie_Reset]
    The instances a test passed in are not touched, nor are the allocation counters. *)
Definition Stub_XAie_Reset (s : stub) : stub :=
  with_flags false (false, false) (false, false)
    (with_insts None None
       (upd_inst hsa_storage zeroed (upd_inst comp_storage zeroed
          (upd_inst extra_storage zeroed (g_insts s))))
       (with_completion (replicate HSA_QUEUE_ENTRY 0) (replicate HSA_QUEUE_ENTRY no_behaviour) s)).

(** [example/testcpputest/stubs/submit_cmd_stubs/stub_xaie_mem.c:108-124] [Stub_XAie_InitQueue] *)
Definition Stub_XAie_InitQueue (hsa comp : option inst) (entries : Z) (s : stub) : stub :=
  let f := g_insts s in
  let f := match hsa with
           | Some i => upd_inst i {| vaddr := vqueue; devAddr := 0x1000 |} f | None => f end in
  let f := match comp with
           | Some i => upd_inst i {| vaddr := vcompletion; devAddr := 0x2000 |} f | None => f end in
  with_insts hsa comp f s.

(** [example/testcpputest/stubs/submit_cmd_stubs/stub_xaie_mem.c:126-139] [Stub_XAie_SetCompletionBehavior]
    [seq] is [None] for a null pointer and holds at least [len] words. *)
Definition Stub_XAie_SetCompletionBehavior (index : Z) (seq : option (list Z)) (len : Z)
    (s : stub) : stub :=
  match seq, g_comp_behaviour s !! Z.to_nat index with
  | Some ws, Some b =>
      if (Z.of_nat HSA_QUEUE_ENTRY <=? index) || (16 <? len) then s
      else
        let k := Z.to_nat len in
        let b' := {| sequence := take k ws ++ drop k (sequence b);
                     length_ := len; pos := 0; sync_count := 0 |} in
        with_completion (g_completion s) (<[Z.to_nat index := b']> (g_comp_behaviour s)) s
  | _, _ => s
  end.

(** [example/testcpputest/stubs/submit_cmd_stubs/stub_xaie_mem.c:141-147] [Stub_XAie_GetCompSyncCount] *)
Definition Stub_XAie_GetCompSyncCount (index : Z) (s : stub) : Z :=
  if Z.of_nat HSA_QUEUE_ENTRY <=? index then 0
  else match g_comp_behaviour s !! Z.to_nat index with Some b => sync_count b | None => 0 end.

(** [example/testcpputest/stubs/submit_cmd_stubs/stub_xaie_mem.c:149-155] [Stub_XAie_GetCompletionDevAddr] *)
Definition Stub_XAie_GetCompletionDevAddr (index : Z) (s : stub) : Z :=
  match g_comp_meminst s with
  | None => 0
  | Some i => u64 (devAddr (g_insts s i) + 4 * index)
  end.

(** [example/testcpputest/stubs/submit_cmd_stubs/stub_xaie_mem.c:157-165] [Stub_XAie_GetQueueMemInst]
    and [Stub_XAie_GetCompMemInst] *)
Definition Stub_XAie_GetMemInsts (s : stub) : option inst * option inst :=
  (g_hsa_meminst s, g_comp_meminst s).

(** * The driver functions *)

(** [example/testcpputest/stubs/submit_cmd_stubs/stub_xaie_mem.c:167-177] [Stub_XAie_EnsureBackingStore] *)
Definition Stub_XAie_EnsureBackingStore (mem : option inst) (s : stub) : stub :=
  match mem with
  | None => s
  | Some i =>
      if decide (vaddr (g_insts s i) = vnull)
      then with_insts (g_hsa_meminst s) (g_comp_meminst s)
             (upd_inst i {| vaddr := vqueue; devAddr := 0x3000 |} (g_insts s)) s
      else s
  end.

(** [example/testcpputest/stubs/submit_cmd_stubs/stub_xaie_mem.c:188-201] [XAie_MemGetVAddr] *)
Definition XAie_MemGetVAddr (mem : option inst) (s : stub) : vaddr_t * stub :=
  match mem with
  | None => (vnull, s)
  | Some i =>
      if g_force_ctrlcode_vaddr_null s &&
         bool_decide (Some i <> g_hsa_meminst s) && bool_decide (Some i <> g_comp_meminst s)
      then (vnull, s)
      else let s' := Stub_XAie_EnsureBackingStore mem s in (vaddr (g_insts s' i), s')
  end.

(** [example/testcpputest/stubs/submit_cmd_stubs/stub_xaie_mem.c:203-210] [XAie_MemGetDevAddr] *)
Definition XAie_MemGetDevAddr (mem : option inst) (s : stub) : Z * stub :=
  match mem with
  | None => (0, s)
  | Some i => let s' := Stub_XAie_EnsureBackingStore mem s in (devAddr (g_insts s' i), s')
  end.

(** [example/testcpputest/stubs/submit_cmd_stubs/stub_xaie_mem.c:217-227] [XAie_MemSyncForCPU] one entry *)
Definition comp_step (value : Z) (b : comp_behaviour_t) : Z * comp_behaviour_t :=
  if (0 <? length_ b) && (pos b <? length_ b) then
    (nth (Z.to_nat (pos b)) (sequence b) 0,
     {| sequence := sequence b; length_ := length_ b; pos := pos b + 1;
        sync_count := u32 (sync_count b + 1) |})
  else if negb (value =? 0) then (value, b)
  else (STUB_COMP_SUCCESS, b).

(** [example/testcpputest/stubs/submit_cmd_stubs/stub_xaie_mem.c:212-231] [XAie_MemSyncForCPU] *)
Definition XAie_MemSyncForCPU (mem : option inst) (s : stub) : Z * stub :=
  let r := map (comp_step (g_stub_comp_sig_value s)) (g_comp_behaviour s) in
  (0, with_completion (map fst r) (map snd r) s).

(** [example/testcpputest/stubs/submit_cmd_stubs/stub_xaie_mem.c:233-237] [XAie_MemSyncForDev] *)
Definition XAie_MemSyncForDev (mem : option inst) (s : stub) : Z * stub := (0, s).

Definition count_alloc (s : stub) : stub :=
  with_counts (g_alloc_call_count s + 1) (g_free_call_count s) (g_fail_alloc_index s)
    (g_stub_comp_sig_value s) s.

(** [example/testcpputest/stubs/submit_cmd_stubs/stub_xaie_mem.c:239-272] [XAie_MemAllocate] *)
Definition XAie_MemAllocate (size flags : Z) (s : stub) : option inst * stub :=
  if (0 <=? g_fail_alloc_index s) && (g_alloc_call_count s =? g_fail_alloc_index s)
  then (None, count_alloc s)
  else
    match g_hsa_meminst s, g_comp_meminst s with
    | None, c =>
        (Some hsa_storage,
         count_alloc (with_insts (Some hsa_storage) c
           (upd_inst hsa_storage {| vaddr := vqueue; devAddr := 0x1000 |} (g_insts s)) s))
    | Some h, None =>
        (Some comp_storage,
         count_alloc (with_insts (Some h) (Some comp_storage)
           (upd_inst comp_storage {| vaddr := vcompletion; devAddr := 0x2000 |} (g_insts s)) s))
    | Some h, Some c =>
        let s := with_insts (Some h) (Some c) (upd_inst extra_storage zeroed (g_insts s)) s in
        (Some extra_storage, count_alloc (Stub_XAie_EnsureBackingStore (Some extra_storage) s))
    end.

(** [example/testcpputest/stubs/submit_cmd_stubs/stub_xaie_mem.c:274-278] [XAie_MemFree] *)
Definition XAie_MemFree (mem : option inst) (s : stub) : stub :=
  with_counts (g_alloc_call_count s) (g_free_call_count s + 1) (g_fail_alloc_index s)
    (g_stub_comp_sig_value s) s.

(** [example/testcpputest/stubs/submit_cmd_stubs/stub_xaie_mem.c:280-300] [XAie_LoadUcMem]
    and [XAie_DataMemBlockWrite] *)
Definition XAie_LoadUcMem (s : stub) : Z * stub := (0, s).

(** * Properties *)

(** [n] synchronisations. *)
Fixpoint sync_n (n : nat) (s : stub) : stub :=
  match n with O => s | S n => snd (XAie_MemSyncForCPU None (sync_n n s)) end.

Fixpoint step_n (v : Z) (n : nat) (b : comp_behaviour_t) : comp_behaviour_t :=
  match n with O => b | S n => snd (comp_step v (step_n v n b)) end.

Lemma sync_n_behaviour n s :
  g_comp_behaviour (sync_n n s) = map (step_n (g_stub_comp_sig_value s) n) (g_comp_behaviour s) /\
  g_stub_comp_sig_value (sync_n n s) = g_stub_comp_sig_value s.
Proof.
  induction n as [|n [IH1 IH2]]; [split; [symmetry; apply map_id|done]|].
  cbn [sync_n step_n]; split; [|exact IH2].
  cbn [XAie_MemSyncForCPU with_completion g_comp_behaviour snd]; rewrite IH1, IH2, !map_map; done.
Qed.

(** A fresh script after [n] steps: it advances to its end and stays there. *)
Lemma step_n_fresh v n b :
  0 <= length_ b < 2 ^ 32 -> pos b = 0 -> sync_count b = 0 ->
  let k := Z.min (Z.of_nat n) (length_ b) in
  step_n v n b = {| sequence := sequence b; length_ := length_ b; pos := k; sync_count := k |}.
Proof.
  intros Hl Hp Hc; induction n as [|n IH]; cbv zeta in *.
  - rewrite Z.min_l by lia; destruct b; simpl in *; subst; done.
  - cbn [step_n]; rewrite IH; unfold comp_step; cbn [length_ pos sync_count sequence].
    destruct (Z.ltb_spec 0 (length_ b)), (Z.ltb_spec (Z.min (Z.of_nat n) (length_ b)) (length_ b));
      cbn [andb snd].
    all: try (rewrite wrap_u_small by lia); try destruct (negb _); cbn [snd]; f_equal; lia.
Qed.

(** a script of completion words is played back: when a test scripts [len] words for an entry
    of the queue, the [n]-th synchronisation leaves the [n]-th word in the entry's
    completion word; once the script is used up, the word the test set for all entries, or
    the success code if it set none.  The entry counts exactly the scripted synchronisations. *)
Theorem stub_completion_script s index ws len n :
  length (g_comp_behaviour s) = HSA_QUEUE_ENTRY ->
  0 <= index < 32 -> 0 <= len <= 16 -> (Z.to_nat len <= length ws)%nat ->
  let s0 := Stub_XAie_SetCompletionBehavior index (Some ws) len s in
  let s1 := sync_n (S n) s0 in
  g_completion s1 !! Z.to_nat index =
    Some (if Z.of_nat n <? len then nth n ws 0
          else if negb (g_stub_comp_sig_value s =? 0) then g_stub_comp_sig_value s
          else STUB_COMP_SUCCESS) /\
  Stub_XAie_GetCompSyncCount index s1 = Z.min (Z.of_nat (S n)) len.
Proof.
  intros Hb Hi Hl Hw; cbv zeta.
  destruct (lookup_lt_is_Some_2 (g_comp_behaviour s) (Z.to_nat index)) as [b0 Hb0];
    [rewrite Hb; unfold HSA_QUEUE_ENTRY; lia|].
  unfold Stub_XAie_SetCompletionBehavior; rewrite Hb0.
  rewrite (proj2 (Z.leb_gt _ _)), (proj2 (Z.ltb_ge _ _)) by (unfold HSA_QUEUE_ENTRY; lia).
  cbn [orb]; set (b := {| sequence := _; length_ := len; pos := 0; sync_count := 0 |}).
  set (s0 := with_completion _ _ s).
  destruct (sync_n_behaviour n s0) as [E1 E2]; set (v := g_stub_comp_sig_value s) in *.
  assert (Hlk : g_comp_behaviour (sync_n n s0) !! Z.to_nat index = Some (step_n v n b)).
  { rewrite E1, list_lookup_fmap; cbn [s0 with_completion g_comp_behaviour].
    rewrite list_lookup_insert_eq by (rewrite Hb; unfold HSA_QUEUE_ENTRY; lia); done. }
  pose proof (step_n_fresh v n b ltac:(simpl; lia) eq_refl eq_refl) as Hf; cbv zeta in Hf.
  cbn [sequence length_] in Hf.
  change (sync_n (S n) s0) with (snd (XAie_MemSyncForCPU None (sync_n n s0))).
  unfold Stub_XAie_GetCompSyncCount; rewrite (proj2 (Z.leb_gt _ _)) by (unfold HSA_QUEUE_ENTRY; lia).
  cbn [XAie_MemSyncForCPU snd with_completion g_completion g_comp_behaviour].
  rewrite !map_map, !list_lookup_fmap, Hlk, E2; change (g_stub_comp_sig_value s0) with v;
    cbn [fmap option_fmap option_map].
  rewrite Hf; unfold comp_step; cbn [length_ pos sync_count sequence b].
  destruct (Z.ltb_spec (Z.of_nat n) len) as [Hn|Hn].
  - rewrite Z.min_l, (proj2 (Z.ltb_lt 0 len)), (proj2 (Z.ltb_lt (Z.of_nat n) len)) by lia.
    cbn [andb fst snd sync_count]; split; [|rewrite wrap_u_small; lia].
    rewrite Nat2Z.id, app_nth1 by (rewrite length_take; lia); f_equal.
    rewrite <- (take_drop (Z.to_nat len) ws) at 2; rewrite app_nth1 by (rewrite length_take; lia); done.
  - rewrite Z.min_r, (Z.ltb_irrefl len), andb_false_r by lia.
    destruct (negb (v =? 0)); cbn [fst snd sync_count]; split; try done; lia.
Qed.

Definition fresh_stub : stub :=
  Stub_AieMem_ResetAll (Stub_XAie_Reset
    {| g_completion := []; g_hsa_meminst := None; g_comp_meminst := None;
       g_comp_behaviour := []; g_insts := fun _ => zeroed;
       g_force_ctrlcode_vaddr_null := true; g_alloc_call_count := 7; g_free_call_count := 9;
       g_fail_alloc_index := 3; g_stub_comp_sig_value := 5;
       g_case3 := (true, false); g_case4 := (false, true) |}).

Lemma stub_completion_script_witness :
  let s1 := sync_n 2 (Stub_XAie_SetCompletionBehavior 3 (Some [0; 4]) 2 fresh_stub) in
  g_completion s1 !! 3%nat = Some 4 /\ Stub_XAie_GetCompSyncCount 3 s1 = 2.
Proof.
  exact (stub_completion_script fresh_stub 3 [0; 4] 2 1 eq_refl
    ltac:(lia) ltac:(lia) ltac:(simpl; lia)).
Defined.

(** The [n]-th allocation of a test, counted from 0. *)
Fixpoint alloc_n (n : nat) (s : stub) : option inst * stub :=
  match n with
  | O => XAie_MemAllocate 0 0 s
  | S n => alloc_n n (snd (XAie_MemAllocate 0 0 s))
  end.

Lemma alloc_counts s : let s' := snd (XAie_MemAllocate 0 0 s) in
  g_alloc_call_count s' = g_alloc_call_count s + 1 /\ g_fail_alloc_index s' = g_fail_alloc_index s.
Proof.
  unfold XAie_MemAllocate; destruct (_ && _); [done|].
  destruct (g_hsa_meminst s), (g_comp_meminst s); done.
Qed.

(** Exactly the allocation a test selects fails. *)
Lemma alloc_fails_at_index n s :
  fst (alloc_n n s) = None <->
  0 <= g_fail_alloc_index s /\ g_alloc_call_count s + Z.of_nat n = g_fail_alloc_index s.
Proof.
  revert s; induction n as [|n IH]; intros s.
  - cbn [alloc_n]; rewrite Z.add_0_r; unfold XAie_MemAllocate.
    destruct (Z.leb_spec 0 (g_fail_alloc_index s)),
      (Z.eqb_spec (g_alloc_call_count s) (g_fail_alloc_index s)); cbn [andb];
      destruct (g_hsa_meminst s), (g_comp_meminst s); cbn [fst]; split; intros;
      try done; lia.
  - cbn [alloc_n]; rewrite IH; destruct (alloc_counts s) as [-> ->]; lia.
Qed.
