(* ===== verification/Ipc.v ===== *)
(** Simulation in two processes ([src/ipc]): the wire protocol ([ps_ipc_protocol.h]), the client
    the application links ([aeg_ps_ipc_backend.cpp]), the server inside the simulator
    ([aeg_ipc_server.cpp]: requests, dispatch and replies; its threads are in IpcServer.v) and the
    function-pointer plumbing of the simulator side ([xioutils.cpp]).

    A connection is two byte channels.  What the kernel answers to [read] and [write] is a
    schedule: interruptions, failures and transfers cut anywhere; past the end of its schedule a
    call transfers as much as it can, so interruptions are finitely many.  The simulator's
    entry points are a type class.  A client that waits for a reply lets the server run until
    it has to wait itself; [None] is a client that waits for ever.  Logging is left out. *)
From stdpp Require Import base list.
From Stdlib Require Import ZArith Lia.
From S2P Require Import Prelude.
Local Open Scope Z_scope.

(** * The protocol *)

(** [src/ipc/ps_ipc_protocol.h:11-32] [aeg_ps_ipc_cmd_t] *)
Inductive ipc_cmd :=
  PING | WRITE32 | READ32 | NPI_WRITE32 | NPI_READ32 | WRITE_GM | READ_GM | ALLOC_GM | FREE_GM
| START_PLIO | GRAPH_INIT | EXIT.

(** [src/ipc/ps_ipc_protocol.h:11-32] [aeg_ps_ipc_cmd_t] *)
Definition cmd_code (c : ipc_cmd) : Z :=
  match c with
  | PING => 1 | WRITE32 => 16 | READ32 => 17 | NPI_WRITE32 => 18 | NPI_READ32 => 19
  | WRITE_GM => 32 | READ_GM => 33 | ALLOC_GM => 34 | FREE_GM => 35 | START_PLIO => 48
  | GRAPH_INIT => 64 | EXIT => 255
  end.

Definition all_cmds : list ipc_cmd :=
  [PING; WRITE32; READ32; NPI_WRITE32; NPI_READ32; WRITE_GM; READ_GM; ALLOC_GM; FREE_GM;
   START_PLIO; GRAPH_INIT; EXIT].

(** The command a byte names, if any: the cases of the server's [switch]. *)
Definition cmd_of (z : Z) : option ipc_cmd := List.find (fun c => cmd_code c =? z) all_cmds.

Lemma cmd_of_code c : cmd_of (cmd_code c) = Some c.
Proof. destruct c; reflexivity. Qed.

(** [src/ipc/ps_ipc_protocol.h:36-40] [aeg_ps_ipc_status_t] *)
Definition STATUS_OK : Z := 0.
(** [src/ipc/ps_ipc_protocol.h:36-40] [aeg_ps_ipc_status_t] *)
Definition STATUS_ERR_PROTO : Z := 1.
(** [src/ipc/ps_ipc_protocol.h:36-40] [aeg_ps_ipc_status_t] *)
Definition STATUS_ERR_IO : Z := 2.
(** What the client stores when the connection failed. *)
Definition STATUS_CONN : Z := 255.

(** [src/ipc/ps_ipc_protocol.h:44-49] [aeg_ps_ipc_request_t]
    Without the reserved bytes, which are written as zero and never read. *)
Record request := { req_cmd : Z; req_arg1 : Z; req_arg2 : Z }.

(** [src/ipc/ps_ipc_protocol.h:51-55] [aeg_ps_ipc_response_t] *)
Record response := { resp_status : Z; resp_value : Z }.

Definition request_size : nat := 16.
Definition response_size : nat := 16.

(** [src/ipc/ps_ipc_protocol.h:106-113] [send_request] the packed structure as little-endian bytes *)
Definition encode_request (r : request) : list Z :=
  [u8 (req_cmd r); 0; 0; 0] ++ le_bytes 8 (req_arg1 r) ++ le_bytes 4 (req_arg2 r).

Definition decode_request (bs : list Z) : request :=
  {| req_cmd := le_val (take 1 bs);
     req_arg1 := le_val (take 8 (drop 4 bs));
     req_arg2 := le_val (take 4 (drop 12 bs)) |}.

Definition encode_response (r : response) : list Z :=
  [u8 (resp_status r); 0; 0; 0; 0; 0; 0; 0] ++ le_bytes 8 (resp_value r).

(** The structure after its first bytes were overwritten by [bs], the others still zero. *)
Definition decode_response (bs : list Z) : response :=
  {| resp_status := le_val (take 1 bs); resp_value := le_val (take 8 (drop 8 bs)) |}.

Definition wf_request (r : request) : Prop :=
  0 <= req_cmd r < 2 ^ 8 /\ 0 <= req_arg1 r < 2 ^ 64 /\ 0 <= req_arg2 r < 2 ^ 32.
Definition wf_response (r : response) : Prop :=
  0 <= resp_status r < 2 ^ 8 /\ 0 <= resp_value r < 2 ^ 64.

Lemma encode_request_length r : length (encode_request r) = request_size.
Proof. unfold encode_request; rewrite !length_app, !le_bytes_length; reflexivity. Qed.

Lemma encode_response_length r : length (encode_response r) = response_size.
Proof. unfold encode_response; rewrite !length_app, !le_bytes_length; reflexivity. Qed.

Lemma decode_encode_request r : wf_request r -> decode_request (encode_request r) = r.
Proof.
  intros (Hc & H1 & H2); destruct r as [c a1 a2]; cbn [req_cmd req_arg1 req_arg2] in *.
  transitivity {| req_cmd := le_val [u8 c]; req_arg1 := le_val (le_bytes 8 a1);
                  req_arg2 := le_val (le_bytes 4 a2) |}; [reflexivity|].
  rewrite !le_val_bytes; cbn [le_val]; unfold wrap_u.
  f_equal; rewrite Z.mod_small; lia.
Qed.

Lemma decode_encode_response r : wf_response r -> decode_response (encode_response r) = r.
Proof.
  intros (Hs & Hv); destruct r as [s v]; cbn [resp_status resp_value] in *.
  transitivity {| resp_status := le_val [u8 s]; resp_value := le_val (le_bytes 8 v) |}; [reflexivity|].
  rewrite !le_val_bytes; cbn [le_val]; unfold wrap_u.
  f_equal; rewrite Z.mod_small; lia.
Qed.

(** * Channels *)

(** What one call of [read] or [write] meets: a signal, an error, a transfer of at most [S n] bytes. *)
Inductive kernel := interrupted | failed | upto (n : nat).

(** One direction of a connection: the bytes written and not yet read, whether the writer has
    closed it, and the schedules of the calls that read and write it. *)
Record chan := {
  pending : list Z;
  closed : bool;
  rsched : list kernel;
  wsched : list kernel
}.

(** What a receiver ends up with: success, the bytes stored in the buffer, the rest. *)
Record received := { got_all : bool; got : list Z; left_over : list Z; rest_sched : list kernel }.

(** [src/ipc/ps_ipc_protocol.h:88-104] [recv_all]
    The loop over the calls of [read] for the [n] bytes still missing; [None] when it waits for
    bytes nobody has sent.  Without a schedule one call takes what there is and the next
    finds the end of the stream or waits. *)
Fixpoint recv_loop (ks : list kernel) (p : list Z) (eof : bool) (n : nat) (buf : list Z) : option received :=
  match n with
  | O => Some {| got_all := true; got := buf; left_over := p; rest_sched := ks |}
  | S _ =>
      match ks with
      | interrupted :: ks => recv_loop ks p eof n buf
      | failed :: ks => Some {| got_all := false; got := buf; left_over := p; rest_sched := ks |}
      | upto k :: ks =>
          match p with
          | [] => if eof then Some {| got_all := false; got := buf; left_over := []; rest_sched := ks |} else None
          | _ :: _ =>
              let m := Nat.min (Nat.min (S k) n) (length p) in
              recv_loop ks (drop m p) eof (n - m) (buf ++ take m p)
          end
      | [] =>
          if (n <=? length p)%nat then
            Some {| got_all := true; got := buf ++ take n p; left_over := drop n p; rest_sched := [] |}
          else if eof then Some {| got_all := false; got := buf ++ p; left_over := []; rest_sched := [] |}
          else None
      end
  end.

(** [src/ipc/ps_ipc_protocol.h:88-104] [recv_all] *)
Definition recv_all (c : chan) (n : nat) : option (bool * list Z * chan) :=
  match recv_loop (rsched c) (pending c) (closed c) n [] with
  | None => None
  | Some r =>
      Some (got_all r, got r,
            {| pending := left_over r; closed := closed c; rsched := rest_sched r; wsched := wsched c |})
  end.

(** [src/ipc/ps_ipc_protocol.h:70-86] [send_all] success, the bytes written, the rest of the schedule *)
Fixpoint send_loop (ks : list kernel) (data sent : list Z) : bool * list Z * list kernel :=
  match data with
  | [] => (true, sent, ks)
  | _ :: _ =>
      match ks with
      | interrupted :: ks => send_loop ks data sent
      | failed :: ks => (false, sent, ks)
      | upto k :: ks => send_loop ks (drop (S k) data) (sent ++ take (S k) data)
      | [] => (true, sent ++ data, [])
      end
  end.

(** [src/ipc/ps_ipc_protocol.h:70-86] [send_all] *)
Definition send_all (c : chan) (data : list Z) : bool * chan :=
  let '(ok, sent, ks) := send_loop (wsched c) data [] in
  (ok, {| pending := pending c ++ sent; closed := closed c; rsched := rsched c; wsched := ks |}).

(** [src/ipc/ps_ipc_protocol.h:106-121] [send_request] *)
Definition send_request (c : chan) (cmd : ipc_cmd) (arg1 arg2 : Z) (payload : list Z) : bool * chan :=
  let req := {| req_cmd := cmd_code cmd; req_arg1 := u64 arg1; req_arg2 := u32 arg2 |} in
  let '(ok, c) := send_all c (encode_request req) in
  if negb ok then (false, c)
  else match payload with [] => (true, c) | _ :: _ => send_all c payload end.

(** [src/ipc/ps_ipc_protocol.h:123-123] [recv_response] *)
Definition recv_response (c : chan) : option (bool * response * chan) :=
  match recv_all c response_size with
  | None => None
  | Some (ok, bs, c) => Some (ok, decode_response bs, c)
  end.

(** A schedule without failures, and a channel in working order. *)
Definition no_failure (ks : list kernel) : Prop := Forall (fun k => k <> failed) ks.
Definition working (c : chan) : Prop := no_failure (rsched c) /\ no_failure (wsched c) /\ closed c = false.

Lemma recv_loop_complete ks p eof n buf :
  no_failure ks -> (n <= length p)%nat ->
  exists ks', no_failure ks' /\
    recv_loop ks p eof n buf
    = Some {| got_all := true; got := buf ++ take n p; left_over := drop n p; rest_sched := ks' |}.
Proof.
  revert p n buf; induction ks as [|k ks IH]; intros p n buf Hk Hn.
  - destruct n as [|n]; [exists []; cbn; rewrite app_nil_r; done|].
    exists []; split; [done|]; cbn [recv_loop].
    destruct (Nat.leb_spec (S n) (length p)); [done|lia].
  - destruct n as [|n]; [exists (k :: ks); cbn; rewrite app_nil_r; done|].
    apply Forall_cons in Hk as [Hk Hks]; destruct k as [| |k]; [|done|].
    + apply IH; done.
    + destruct p as [|b p]; [cbn in Hn; lia|].
      set (m := Nat.min (Nat.min (S k) (S n)) (length (b :: p))).
      destruct (IH (drop m (b :: p)) (S n - m)%nat (buf ++ take m (b :: p)) Hks) as (ks' & Hok & E);
        [rewrite length_drop; lia|].
      exists ks'; split; [done|]; cbn [recv_loop]; fold m; rewrite E.
      rewrite <- app_assoc, drop_drop, <- (firstn_skipn m (take (S n) (b :: p))).
      rewrite take_take, skipn_firstn_comm.
      replace (m `min` S n)%nat with m by lia; replace (m + (S n - m))%nat with (S n) by lia; done.
Qed.

Lemma send_loop_complete ks data sent :
  no_failure ks -> exists ks', no_failure ks' /\ send_loop ks data sent = (true, sent ++ data, ks').
Proof.
  revert data sent; induction ks as [|k ks IH]; intros data sent Hk.
  - destruct data; [exists []; rewrite app_nil_r|exists []]; done.
  - destruct data as [|b data]; [exists (k :: ks); rewrite app_nil_r; done|].
    apply Forall_cons in Hk as [Hk Hks]; destruct k as [| |k]; [exact (IH (b :: data) sent Hks)|done|].
    destruct (IH (drop (S k) (b :: data)) (sent ++ take (S k) (b :: data)) Hks) as (ks' & Hok & E).
    exists ks'; split; [done|]; cbn [send_loop]; rewrite E, <- app_assoc, take_drop; done.
Qed.

(** Receiving [n] bytes that have been sent succeeds for every segmentation. *)
Lemma recv_all_gets c n bs more :
  no_failure (rsched c) -> pending c = bs ++ more -> length bs = n ->
  exists c', recv_all c n = Some (true, bs, c') /\ no_failure (rsched c') /\ wsched c' = wsched c /\
    closed c' = closed c /\ pending c' = more.
Proof.
  intros Hr Hp Hn; unfold recv_all.
  destruct (recv_loop_complete (rsched c) (pending c) (closed c) n [] Hr) as (ks & Hks & ->).
  { rewrite Hp, length_app; lia. }
  eexists; split; [cbn [got_all got left_over rest_sched]; rewrite Hp, take_app_length' by done; reflexivity|].
  rewrite drop_app_length' by done; done.
Qed.

Lemma recv_all_ok c n bs more :
  working c -> pending c = bs ++ more -> length bs = n ->
  exists c', recv_all c n = Some (true, bs, c') /\ working c' /\ pending c' = more.
Proof.
  intros (Hr & Hw & Hc) Hp Hn.
  destruct (recv_all_gets c n bs more Hr Hp Hn) as (c' & -> & Hr' & Hw' & Hc' & Hp').
  exists c'; unfold working; rewrite Hw', Hc'; done.
Qed.

(** Sending succeeds for every segmentation and appends the bytes to the channel. *)
Lemma send_all_ok c data :
  working c -> exists c', send_all c data = (true, c') /\ working c' /\ pending c' = pending c ++ data.
Proof.
  intros (Hr & Hw & Hc); unfold send_all.
  destruct (send_loop_complete (wsched c) data [] Hw) as (ks & Hks & ->).
  eexists; split; [reflexivity|]; split; [repeat split|]; done.
Qed.

(** A receiver of more bytes than were sent on an open channel waits. *)
Lemma recv_loop_short ks p n buf :
  no_failure ks -> (length p < n)%nat -> recv_loop ks p false n buf = None.
Proof.
  revert p n buf; induction ks as [|k ks IH]; intros p n buf Hk Hn; (destruct n as [|n]; [lia|]); cbn [recv_loop].
  - destruct (Nat.leb_spec (S n) (length p)); [lia|done].
  - apply Forall_cons in Hk as [Hk Hks]; destruct k as [| |k]; [apply IH; done|done|].
    destruct p as [|b p]; [done|]; apply IH; [done|]; rewrite length_drop; cbn [length] in *; lia.
Qed.

Lemma recv_all_waits c n : working c -> (length (pending c) < n)%nat -> recv_all c n = None.
Proof. intros (Hr & _ & Hc) Hn; unfold recv_all; rewrite Hc, recv_loop_short by done; done. Qed.

(** * The simulator *)

(** What the server calls in the simulator it is linked into and in the generated graph set-up,
    as functions on the simulator's state. *)
Class Simulator (sigma : Type) := {
  PSWrite32 : Z -> Z -> sigma -> sigma;
  PSRead32 : Z -> sigma -> Z * sigma;
  PSNpiWrite32 : Z -> Z -> sigma -> sigma;
  PSNpiRead32 : Z -> sigma -> Z * sigma;
  PSWriteGM : Z -> list Z -> sigma -> sigma;
  PSReadGM : Z -> Z -> sigma -> list Z * sigma;
  PSStartPLIO : sigma -> sigma;
  aeg_ipc_alloc_mem : Z -> sigma -> Z * sigma;
  aeg_ipc_free_mem : Z -> sigma -> sigma;
  (** The driver operation the server calls before a graph is set up, where there is one. *)
  SetPartIsolationAfterRst : option (sigma -> sigma);
  aeg_ipc_run_graph_init : list Z -> list Z -> sigma -> Z * sigma
}.

(** The C types of the results: words, addresses, and a buffer filled to its size. *)
Class SimulatorTypes (sigma : Type) `{Simulator sigma} := {
  PSRead32_word a s : 0 <= fst (PSRead32 a s) < 2 ^ 32;
  PSNpiRead32_word a s : 0 <= fst (PSNpiRead32 a s) < 2 ^ 32;
  PSReadGM_fills a n s : 0 <= n -> Z.of_nat (length (fst (PSReadGM a n s))) = n;
  alloc_mem_address n s : 0 <= fst (aeg_ipc_alloc_mem n s) < 2 ^ 64
}.

(** A C string: the bytes before the first zero. *)
Fixpoint c_string (bs : list Z) : list Z :=
  match bs with
  | [] => []
  | b :: bs => if b =? 0 then [] else b :: c_string bs
  end.

(** The bytes of ["./Work"]. *)
Definition default_work_dir : list Z := [46; 47; 87; 111; 114; 107].

(** [src/ipc/aeg_ipc_server.cpp:282-283] [dispatch_work_item] the work directory of a graph set-up *)
Definition work_dir_of (env : option (list Z)) : list Z :=
  match env with None | Some [] => default_work_dir | Some d => d end.

(** The server: the simulator, the value [ps_main] returns, whether the socket thread is in its
    loop, and the environment variable [AIE_WORK_DIR]. *)
Record server (sigma : Type) := {
  sim : sigma;
  graph_return_value : Z;
  running : bool;
  AIE_WORK_DIR : option (list Z)
}.
Arguments sim {_}.
Arguments graph_return_value {_}.
Arguments running {_}.
Arguments AIE_WORK_DIR {_}.

Definition with_sim {sigma} (s : server sigma) (x : sigma) : server sigma :=
  {| sim := x; graph_return_value := graph_return_value s; running := running s;
     AIE_WORK_DIR := AIE_WORK_DIR s |}.

Definition ok_value (v : Z) : response := {| resp_status := STATUS_OK; resp_value := v |}.
Definition err_status (st : Z) : response := {| resp_status := st; resp_value := 0 |}.

Section Dispatch.
Context {sigma : Type} `{Simulator sigma}.

(** [src/ipc/aeg_ipc_server.cpp:281-297] [dispatch_work_item] the case of [GRAPH_INIT] *)
Definition dispatch_graph_init (gm_data : list Z) (s : server sigma) : response * server sigma :=
  let x := match SetPartIsolationAfterRst with Some f => f (sim s) | None => sim s end in
  let '(r, x) := aeg_ipc_run_graph_init (c_string gm_data) (work_dir_of (AIE_WORK_DIR s)) x in
  (if r =? 0 then ok_value 0 else err_status STATUS_ERR_IO, with_sim s x).

(** [src/ipc/aeg_ipc_server.cpp:247-267] [dispatch_work_item] the case of [ALLOC_GM] *)
Definition dispatch_alloc (size : Z) (s : server sigma) : response * server sigma :=
  if size =? 0 then (err_status STATUS_ERR_IO, s)
  else
    let '(a, x) := aeg_ipc_alloc_mem size (sim s) in
    (if a =? 0 then err_status STATUS_ERR_IO else ok_value a, with_sim s x).

(** [src/ipc/aeg_ipc_server.cpp:195-318] [dispatch_work_item]
    The reply, the data of the work item afterwards and the server. *)
Definition dispatch_work_item (req : request) (gm_data : list Z) (s : server sigma)
  : response * list Z * server sigma :=
  match cmd_of (req_cmd req) with
  | Some WRITE32 => (ok_value 0, gm_data, with_sim s (PSWrite32 (req_arg1 req) (req_arg2 req) (sim s)))
  | Some READ32 => let '(v, x) := PSRead32 (req_arg1 req) (sim s) in (ok_value v, gm_data, with_sim s x)
  | Some NPI_WRITE32 =>
      (ok_value 0, gm_data, with_sim s (PSNpiWrite32 (req_arg1 req) (req_arg2 req) (sim s)))
  | Some NPI_READ32 =>
      let '(v, x) := PSNpiRead32 (req_arg1 req) (sim s) in (ok_value v, gm_data, with_sim s x)
  | Some WRITE_GM =>
      (ok_value 0, gm_data,
       match gm_data with [] => s | _ :: _ => with_sim s (PSWriteGM (req_arg1 req) gm_data (sim s)) end)
  | Some READ_GM =>
      if 0 <? req_arg2 req then
        let '(d, x) := PSReadGM (req_arg1 req) (req_arg2 req) (sim s) in (ok_value 0, d, with_sim s x)
      else (ok_value 0, gm_data, s)
  | Some ALLOC_GM => let '(r, s) := dispatch_alloc (req_arg2 req) s in (r, gm_data, s)
  | Some FREE_GM => (ok_value 0, gm_data, with_sim s (aeg_ipc_free_mem (req_arg1 req) (sim s)))
  | Some START_PLIO => (ok_value 0, gm_data, with_sim s (PSStartPLIO (sim s)))
  | Some GRAPH_INIT => let '(r, s) := dispatch_graph_init gm_data s in (r, gm_data, s)
  | Some EXIT =>
      (ok_value 0, gm_data,
       {| sim := sim s; graph_return_value := s32 (req_arg1 req); running := running s;
          AIE_WORK_DIR := AIE_WORK_DIR s |})
  | Some PING | None => (err_status STATUS_ERR_PROTO, gm_data, s)
  end.

End Dispatch.

(** * The connection *)

(** [src/ipc/aeg_ps_ipc_backend.cpp:207-211] [GmHostAlloc] *)
Record GmHostAlloc := { dev_addr : Z; alloc_size : Z }.

(** The whole system: the client's socket and its map of host buffers in the order of the keys
    ([g_fd], [g_gm_host_allocs]), the two directions of the connection, the server. *)
Record world (sigma : Type) := {
  g_fd : Z;
  g_gm_host_allocs : list (Z * GmHostAlloc);
  c2s : chan;
  s2c : chan;
  srv : server sigma
}.
Arguments g_fd {_}.
Arguments g_gm_host_allocs {_}.
Arguments c2s {_}.
Arguments s2c {_}.
Arguments srv {_}.

Definition with_c2s {sigma} (w : world sigma) (c : chan) : world sigma :=
  {| g_fd := g_fd w; g_gm_host_allocs := g_gm_host_allocs w; c2s := c; s2c := s2c w; srv := srv w |}.
Definition with_s2c {sigma} (w : world sigma) (c : chan) : world sigma :=
  {| g_fd := g_fd w; g_gm_host_allocs := g_gm_host_allocs w; c2s := c2s w; s2c := c; srv := srv w |}.
Definition with_srv {sigma} (w : world sigma) (s : server sigma) : world sigma :=
  {| g_fd := g_fd w; g_gm_host_allocs := g_gm_host_allocs w; c2s := c2s w; s2c := s2c w; srv := s |}.
Definition with_allocs {sigma} (w : world sigma) (m : list (Z * GmHostAlloc)) : world sigma :=
  {| g_fd := g_fd w; g_gm_host_allocs := m; c2s := c2s w; s2c := s2c w; srv := srv w |}.
Definition with_fd {sigma} (w : world sigma) (fd : Z) : world sigma :=
  {| g_fd := fd; g_gm_host_allocs := g_gm_host_allocs w; c2s := c2s w; s2c := s2c w; srv := srv w |}.

Definition close_chan (c : chan) : chan :=
  {| pending := pending c; closed := true; rsched := rsched c; wsched := wsched c |}.

Section Server.
Context {sigma : Type} `{Simulator sigma}.

(** [src/ipc/aeg_ipc_server.cpp:500-524] [run_ps_ipc_server_thread] the loop was left: the socket
    is closed (the wait for debug readers before it is in IpcServer.v) *)
Definition server_stop (w : world sigma) : world sigma :=
  let s := srv w in
  with_s2c (with_srv w {| sim := sim s; graph_return_value := graph_return_value s; running := false;
                          AIE_WORK_DIR := AIE_WORK_DIR s |}) (close_chan (s2c w)).

(** [src/ipc/aeg_ipc_server.cpp:484-498] [run_ps_ipc_server_thread] the work item and its reply *)
Definition serve_item (req : request) (payload : list Z) (w : world sigma) : world sigma :=
  let '(resp, data, s) := dispatch_work_item req payload (srv w) in
  let w := with_srv w s in
  let '(_, c) := send_all (s2c w) (encode_response resp) in
  let w := with_s2c w c in
  let w :=
    match cmd_of (req_cmd req), data with
    | Some READ_GM, _ :: _ => let '(_, c) := send_all (s2c w) data in with_s2c w c
    | _, _ => w
    end in
  match cmd_of (req_cmd req) with Some EXIT => server_stop w | _ => w end.

(** [src/ipc/aeg_ipc_server.cpp:460-482] [run_ps_ipc_server_thread] what happens to a request *)
Definition serve_request (req : request) (w : world sigma) : option (world sigma) :=
  match cmd_of (req_cmd req) with
  | Some PING =>
      let '(_, c) := send_all (s2c w) (encode_response (ok_value 0)) in Some (with_s2c w c)
  | Some WRITE_GM | Some GRAPH_INIT =>
      if 0 <? req_arg2 req then
        match recv_all (c2s w) (Z.to_nat (req_arg2 req)) with
        | None => None
        | Some (ok, payload, c) =>
            let w := with_c2s w c in
            if ok then Some (serve_item req payload w)
            else let '(_, c) := send_all (s2c w) (encode_response (err_status STATUS_ERR_IO)) in
                 Some (with_s2c w c)
        end
      else Some (serve_item req [] w)
  | _ => Some (serve_item req [] w)
  end.

(** [src/ipc/aeg_ipc_server.cpp:441-498] [run_ps_ipc_server_thread] one round of the loop
    [None]: the thread waits for bytes that have not been sent; the round is then taken again
    from its start once they are there. *)
Definition serve_one (w : world sigma) : option (world sigma) :=
  if negb (running (srv w)) then None
  else
    match recv_all (c2s w) request_size with
    | None => None
    | Some (ok, bs, c) =>
        let w := with_c2s w c in
        if ok then serve_request (decode_request bs) w else Some (server_stop w)
    end.

(** The server thread until it waits or stops, at most [fuel] rounds. *)
Fixpoint server_run (fuel : nat) (w : world sigma) : world sigma :=
  match fuel with
  | O => w
  | S fuel => match serve_one w with None => w | Some w => server_run fuel w end
  end.

(** A round takes 16 bytes at least, so this is more rounds than there can be requests. *)
Definition await (w : world sigma) : world sigma := server_run (S (length (pending (c2s w)))) w.

End Server.

(** * The client *)

Section Client.
Context {sigma : Type} `{Simulator sigma}.

(** [src/ipc/aeg_ps_ipc_backend.cpp:76-103] [aeg_ipc_backend_connect]
    [fd] is what [socket] answers, [connected] whether [connect] succeeds. *)
Definition aeg_ipc_backend_connect (fd : Z) (connected : bool) (w : world sigma) : Z * world sigma :=
  if 0 <=? g_fd w then (0, w)
  else if fd <? 0 then (-1, w)
  else if negb connected then (-1, w)
  else (0, with_fd w fd).

(** [src/ipc/aeg_ps_ipc_backend.cpp:126-165] [do_transaction]
    Success, the reply as the caller gets it, the system afterwards. *)
Definition do_transaction (cmd : ipc_cmd) (arg1 arg2 : Z) (payload : list Z) (w : world sigma)
  : option (bool * response * world sigma) :=
  if g_fd w <? 0 then Some (false, err_status STATUS_CONN, w)
  else
    let '(ok, c) := send_request (c2s w) cmd arg1 arg2 payload in
    let w := with_c2s w c in
    if negb ok then Some (false, err_status STATUS_CONN, w)
    else
      let w := await w in
      match recv_response (s2c w) with
      | None => None
      | Some (ok, resp, c) =>
          let resp := if ok then resp else {| resp_status := STATUS_CONN; resp_value := resp_value resp |} in
          Some (ok && (resp_status resp =? STATUS_OK), resp, with_s2c w c)
      end.

(** The transaction of a caller that ignores the outcome. *)
Definition transact_ (cmd : ipc_cmd) (arg1 arg2 : Z) (payload : list Z) (w : world sigma)
  : option (world sigma) :=
  match do_transaction cmd arg1 arg2 payload w with None => None | Some (_, _, w) => Some w end.

(** [src/ipc/aeg_ps_ipc_backend.cpp:167-173] [aeg_ipc_alloc_gm] *)
Definition aeg_ipc_alloc_gm (size : Z) (w : world sigma) : option (Z * world sigma) :=
  match do_transaction ALLOC_GM 0 size [] w with
  | None => None
  | Some (ok, resp, w) => Some (if ok then resp_value resp else 0, w)
  end.

(** [src/ipc/aeg_ps_ipc_backend.cpp:175-179] [aeg_ipc_free_gm] *)
Definition aeg_ipc_free_gm (aie_addr : Z) : world sigma -> option (world sigma) :=
  transact_ FREE_GM aie_addr 0 [].

(** [src/ipc/aeg_ps_ipc_backend.cpp:181-185] [aeg_ipc_write_gm] the size goes into 32 bits, the data whole *)
Definition aeg_ipc_write_gm (aie_addr : Z) (data : list Z) : world sigma -> option (world sigma) :=
  transact_ WRITE_GM aie_addr (Z.of_nat (length data)) data.

(** [src/ipc/aeg_ps_ipc_backend.cpp:195-203] [aeg_ipc_read_gm] the reply and the data after it *)
Definition read_gm_reply (buf : list Z) (w : world sigma) : option (list Z * world sigma) :=
  match recv_response (s2c w) with
  | None => None
  | Some (ok, resp, c) =>
      if negb (ok && (resp_status resp =? STATUS_OK)) then Some (buf, with_s2c w c)
      else
        match recv_all c (length buf) with
        | None => None
        | Some (_, got, c) => Some (got ++ drop (length got) buf, with_s2c w c)
        end
  end.

(** [src/ipc/aeg_ps_ipc_backend.cpp:187-204] [aeg_ipc_read_gm]
    [buf] is the caller's buffer of the size to read; the result is its contents afterwards. *)
Definition aeg_ipc_read_gm (aie_addr : Z) (buf : list Z) (w : world sigma) : option (list Z * world sigma) :=
  if g_fd w <? 0 then Some (buf, w)
  else
    let '(_, c) := send_request (c2s w) READ_GM aie_addr (Z.of_nat (length buf)) [] in
    read_gm_reply buf (await (with_c2s w c)).

(** [src/ipc/aeg_ps_ipc_backend.cpp:248-252] [ess_Write32] *)
Definition ess_Write32 (Addr Data : Z) : world sigma -> option (world sigma) := transact_ WRITE32 Addr Data [].

(** [src/ipc/aeg_ps_ipc_backend.cpp:254-258] [ess_Read32] the value is used whatever the status *)
Definition ess_Read32 (Addr : Z) (w : world sigma) : option (Z * world sigma) :=
  match do_transaction READ32 Addr 0 [] w with
  | None => None
  | Some (_, resp, w) => Some (u32 (resp_value resp), w)
  end.

(** [src/ipc/aeg_ps_ipc_backend.cpp:260-264] [ess_NpiWrite32] *)
Definition ess_NpiWrite32 (Addr Data : Z) : world sigma -> option (world sigma) :=
  transact_ NPI_WRITE32 Addr Data [].

(** [src/ipc/aeg_ps_ipc_backend.cpp:266-270] [ess_NpiRead32] *)
Definition ess_NpiRead32 (Addr : Z) (w : world sigma) : option (Z * world sigma) :=
  match do_transaction NPI_READ32 Addr 0 [] w with
  | None => None
  | Some (_, resp, w) => Some (u32 (resp_value resp), w)
  end.

(** [src/ipc/aeg_ps_ipc_backend.cpp:272-272] [ess_WriteGM] *)
Definition ess_WriteGM (addr : Z) (data : list Z) : world sigma -> option (world sigma) :=
  aeg_ipc_write_gm addr data.

(** [src/ipc/aeg_ps_ipc_backend.cpp:274-274] [ess_ReadGM] *)
Definition ess_ReadGM (addr : Z) (data : list Z) : world sigma -> option (list Z * world sigma) :=
  aeg_ipc_read_gm addr data.

(** [src/ipc/aeg_ps_ipc_backend.cpp:279-279] [start_plios] *)
Definition start_plios : world sigma -> option (world sigma) := transact_ START_PLIO 0 0 [].

(** [src/ipc/aeg_ps_ipc_backend.cpp:286-290] [aeg_ipc_graph_init_ipc] *)
Definition aeg_ipc_graph_init_ipc (graph_name : list Z) (w : world sigma) : option (Z * world sigma) :=
  match graph_name with
  | [] => Some (-1, w)
  | _ :: _ =>
      match do_transaction GRAPH_INIT 0 (Z.of_nat (length graph_name)) graph_name w with
      | None => None
      | Some (ok, _, w) => Some (if ok then 0 else -1, w)
      end
  end.

(** [src/ipc/aeg_ps_ipc_backend.cpp:116-118] [aeg_ipc_backend_disconnect] reading what is left, 64
    bytes at a time, until [read] returns zero or an error *)
Fixpoint drain (ks : list kernel) (p : list Z) (eof : bool) : option (list Z * list kernel) :=
  match ks with
  | interrupted :: ks | failed :: ks => Some (p, ks)
  | upto k :: ks =>
      match p with
      | [] => if eof then Some ([], ks) else None
      | _ :: _ => drain ks (drop (Nat.min (S k) 64) p) eof
      end
  | [] => if eof then Some ([], []) else None
  end.

(** [src/ipc/aeg_ps_ipc_backend.cpp:105-124] [aeg_ipc_backend_disconnect] *)
Definition aeg_ipc_backend_disconnect (exit_code : Z) (w : world sigma) : option (world sigma) :=
  if g_fd w <? 0 then Some w
  else
    let '(_, c) := send_request (c2s w) EXIT (u64 exit_code) 0 [] in
    let w := await (with_c2s w c) in
    match recv_response (s2c w) with
    | None => None
    | Some (_, _, c) =>
        let w := with_s2c w c in
        let w := await (with_c2s w (close_chan (c2s w))) in
        match drain (rsched (s2c w)) (pending (s2c w)) (closed (s2c w)) with
        | None => None
        | Some (p, ks) =>
            Some (with_fd (with_s2c w {| pending := p; closed := closed (s2c w); rsched := ks;
                                         wsched := wsched (s2c w) |}) (-1))
        end
    end.

End Client.

(** * Host buffers *)

(** [std::map::operator[]] and [erase] on the entries in the order of the keys. *)
Fixpoint map_insert (k : Z) (a : GmHostAlloc) (m : list (Z * GmHostAlloc)) : list (Z * GmHostAlloc) :=
  match m with
  | [] => [(k, a)]
  | (k', a') :: m' =>
      if k <? k' then (k, a) :: m
      else if k =? k' then (k, a) :: m'
      else (k', a') :: map_insert k a m'
  end.
Definition map_erase (k : Z) (m : list (Z * GmHostAlloc)) : list (Z * GmHostAlloc) :=
  List.filter (fun e => negb (fst e =? k)) m.
Definition map_find (k : Z) (m : list (Z * GmHostAlloc)) : option GmHostAlloc :=
  match List.find (fun e => fst e =? k) m with Some e => Some (snd e) | None => None end.

(** The entry before [upper_bound k]: the last one whose key is at most [k]. *)
Fixpoint before_upper_bound (k : Z) (m : list (Z * GmHostAlloc)) : option (Z * GmHostAlloc) :=
  match m with
  | [] => None
  | e :: m => if k <? fst e then None
              else match before_upper_bound k m with Some e' => Some e' | None => Some e end
  end.

(** [src/ipc/aeg_ps_ipc_backend.cpp:236-246] [aeg_ipc_dev_addr] *)
Definition aeg_ipc_dev_addr (m : list (Z * GmHostAlloc)) (addr : Z) : Z :=
  match before_upper_bound addr m with
  | None => 0
  | Some (base, a) =>
      if (addr <? base) || (u64 (base + alloc_size a) <=? addr) then 0
      else u64 (dev_addr a + u64 (addr - base))
  end.

Section HostBuffers.
Context {sigma : Type} `{Simulator sigma}.

(** [src/ipc/aeg_ps_ipc_backend.cpp:214-225] [aeg_ipc_alloc_gm_host]
    [host] is what [malloc] answers. *)
Definition aeg_ipc_alloc_gm_host (size host : Z) (w : world sigma) : option (Z * world sigma) :=
  match aeg_ipc_alloc_gm size w with
  | None => None
  | Some (dev, w) =>
      if dev =? 0 then Some (0, w)
      else if host =? 0 then
        match aeg_ipc_free_gm dev w with None => None | Some w => Some (0, w) end
      else
        Some (host, with_allocs w (map_insert host {| dev_addr := dev; alloc_size := size |} (g_gm_host_allocs w)))
  end.

(** [src/ipc/aeg_ps_ipc_backend.cpp:227-234] [aeg_ipc_free_gm_host] *)
Definition aeg_ipc_free_gm_host (host : Z) (w : world sigma) : option (world sigma) :=
  match map_find host (g_gm_host_allocs w) with
  | None => Some w
  | Some a =>
      match aeg_ipc_free_gm (dev_addr a) w with
      | None => None
      | Some w => Some (with_allocs w (map_erase host (g_gm_host_allocs w)))
      end
  end.

End HostBuffers.
