(* ===== verification/IpcFacts.v ===== *)
(** What the application observes through the connection of Ipc.v: a session is the session of a
    simulator in the same process, for every segmentation; the addresses of host buffers; the
    end of a session; transfers that do not fit the 32-bit size of a request. *)
From stdpp Require Import base list sets.
From Stdlib Require Import ZArith Lia Sorted.
From S2P Require Import Prelude Ipc.
Local Open Scope Z_scope.

(** * The client sees the simulator

    Every request is answered as if the client called the simulator directly, however the kernel
    cuts and interrupts the transfers. *)

Lemma send_request_ok c cmd a1 a2 payload :
  working c ->
  exists c', send_request c cmd a1 a2 payload = (true, c') /\ working c' /\
    pending c' = pending c ++
      encode_request {| req_cmd := cmd_code cmd; req_arg1 := u64 a1; req_arg2 := u32 a2 |} ++ payload.
Proof.
  intros Hc; unfold send_request.
  destruct (send_all_ok c (encode_request {| req_cmd := cmd_code cmd; req_arg1 := u64 a1; req_arg2 := u32 a2 |}) Hc)
    as (c1 & -> & H1 & P1); cbn [negb].
  destruct payload as [|b payload]; [rewrite app_nil_r; eauto|].
  destruct (send_all_ok c1 (b :: payload) H1) as (c2 & -> & H2 & P2).
  exists c2; rewrite P2, P1, <- app_assoc; auto.
Qed.

Lemma recv_response_ok c r more :
  working c -> wf_response r -> pending c = encode_response r ++ more ->
  exists c', recv_response c = Some (true, r, c') /\ working c' /\ pending c' = more.
Proof.
  intros Hc Hr Hp; unfold recv_response.
  destruct (recv_all_ok c response_size _ more Hc Hp (encode_response_length r)) as (c' & -> & ? & ?).
  exists c'; rewrite decode_encode_response by done; auto.
Qed.

Lemma wf_sent_request cmd a1 a2 :
  wf_request {| req_cmd := cmd_code cmd; req_arg1 := u64 a1; req_arg2 := u32 a2 |}.
Proof.
  split; [destruct cmd; cbn; lia|].
  split; apply wrap_u_range; lia.
Qed.

Section Transparent.
Context {sigma : Type} `{SimulatorTypes sigma}.

(** Connected, both directions working and empty, the server waiting for a request. *)
Definition ready (w : world sigma) : Prop :=
  0 <= g_fd w /\ working (c2s w) /\ working (s2c w) /\
  pending (c2s w) = [] /\ pending (s2c w) = [] /\ running (srv w) = true.

Lemma dispatch_running req d (s : server sigma) : running (dispatch_work_item req d s).2 = running s.
Proof.
  unfold dispatch_work_item, dispatch_alloc, dispatch_graph_init.
  destruct (cmd_of _) as [[]|]; repeat case_match; simplify_eq; done.
Qed.

Lemma dispatch_wf req d (s : server sigma) : wf_response (dispatch_work_item req d s).1.1.
Proof.
  unfold dispatch_work_item, dispatch_alloc, dispatch_graph_init, wf_response.
  pose proof (PSRead32_word (req_arg1 req) (sim s)).
  pose proof (PSNpiRead32_word (req_arg1 req) (sim s)).
  pose proof (alloc_mem_address (req_arg2 req) (sim s)).
  destruct (cmd_of _) as [[]|]; repeat case_match; simplify_eq; cbn in *;
    unfold STATUS_OK, STATUS_ERR_IO, STATUS_ERR_PROTO; lia.
Qed.

(** What follows a request of the kind [cmd]. *)
Definition payload_fits (cmd : ipc_cmd) (a2 : Z) (payload : list Z) : Prop :=
  match cmd with
  | WRITE_GM | GRAPH_INIT => Z.of_nat (length payload) = u32 a2
  | _ => payload = []
  end.

Definition request_of (cmd : ipc_cmd) (a1 a2 : Z) : request :=
  {| req_cmd := cmd_code cmd; req_arg1 := u64 a1; req_arg2 := u32 a2 |}.

(** The bytes the server sends back. *)
Definition reply_bytes (cmd : ipc_cmd) (resp : response) (data : list Z) : list Z :=
  encode_response resp ++ match cmd with READ_GM => data | _ => [] end.

(** The world after a request was served: the requests read, the reply sent. *)
Definition served (cmd : ipc_cmd) (a1 a2 : Z) (payload rest : list Z) (w w' : world sigma) : Prop :=
  let '(resp, data, s) := dispatch_work_item (request_of cmd a1 a2) payload (srv w) in
  srv w' = s /\ g_fd w' = g_fd w /\ g_gm_host_allocs w' = g_gm_host_allocs w /\
  working (c2s w') /\ pending (c2s w') = rest /\
  working (s2c w') /\ pending (s2c w') = pending (s2c w) ++ reply_bytes cmd resp data.

Lemma serve_item_ok cmd a1 a2 payload (w : world sigma) :
  cmd <> EXIT -> cmd <> PING -> working (c2s w) -> working (s2c w) ->
  served cmd a1 a2 payload (pending (c2s w)) w (serve_item (request_of cmd a1 a2) payload w).
Proof.
  intros Hx Hp Hc Hs; unfold served, serve_item.
  destruct (dispatch_work_item _ payload (srv w)) as [[resp data] s] eqn:E.
  destruct (send_all_ok (s2c w) (encode_response resp) Hs) as (c1 & E1 & H1 & P1).
  cbn [s2c with_srv]; rewrite E1; cbn [req_cmd request_of]; rewrite cmd_of_code.
  unfold reply_bytes.
  destruct cmd; try done; try (rewrite app_nil_r; done).
  destruct data as [|b data]; [rewrite app_nil_r; done|].
  destruct (send_all_ok c1 (b :: data) H1) as (c2 & E2 & H2 & P2).
  cbn [s2c with_s2c]; rewrite E2; cbn; rewrite P2, P1, <- app_assoc; done.
Qed.

Lemma serve_one_ok cmd a1 a2 payload rest (w : world sigma) :
  cmd <> EXIT -> cmd <> PING -> payload_fits cmd a2 payload ->
  working (c2s w) -> working (s2c w) -> running (srv w) = true ->
  pending (c2s w) = encode_request (request_of cmd a1 a2) ++ payload ++ rest ->
  exists w', serve_one w = Some w' /\ served cmd a1 a2 payload rest w w'.
Proof.
  intros Hx Hp Hfit Hc Hs Hrun Hpend; unfold serve_one; rewrite Hrun; cbn [negb].
  destruct (recv_all_ok (c2s w) request_size _ _ Hc Hpend (encode_request_length _)) as (c & -> & Hc' & Pc).
  rewrite decode_encode_request by apply wf_sent_request.
  unfold serve_request; cbn [req_cmd request_of]; rewrite cmd_of_code.
  assert (Hsimple : payload = [] -> served cmd a1 a2 payload rest w (serve_item (request_of cmd a1 a2) [] (with_c2s w c))).
  { intros ->; pose proof (serve_item_ok cmd a1 a2 [] (with_c2s w c) Hx Hp Hc' Hs) as E.
    cbn [c2s with_c2s] in E; rewrite Pc in E; exact E. }
  assert (Hpay : Z.of_nat (length payload) = u32 a2 ->
    exists w', (if 0 <? req_arg2 (request_of cmd a1 a2)
      then match recv_all (c2s (with_c2s w c)) (Z.to_nat (req_arg2 (request_of cmd a1 a2))) with
           | None => None
           | Some (ok, payload, c') =>
               let w := with_c2s (with_c2s w c) c' in
               if ok then Some (serve_item (request_of cmd a1 a2) payload w)
               else let '(_, c) := send_all (s2c w) (encode_response (err_status STATUS_ERR_IO)) in
                    Some (with_s2c w c)
           end
      else Some (serve_item (request_of cmd a1 a2) [] (with_c2s w c))) = Some w' /\
      served cmd a1 a2 payload rest w w').
  { intros Hlen; cbn [req_arg2 request_of].
    destruct (Z.ltb_spec 0 (u32 a2)) as [Hpos|Hzero].
    2: { destruct payload; [eauto|cbn in Hlen; lia]. }
    destruct (recv_all_ok c (Z.to_nat (u32 a2)) payload rest Hc' Pc) as (c2 & E2 & H2 & P2); [lia|].
    cbn [c2s with_c2s]; rewrite E2; eexists; split; [reflexivity|].
    pose proof (serve_item_ok cmd a1 a2 payload (with_c2s (with_c2s w c) c2) Hx Hp H2 Hs) as E.
    cbn [c2s with_c2s] in E; rewrite P2 in E; exact E. }
  destruct cmd; try done; cbn [payload_fits] in Hfit; eauto.
Qed.

Lemma serve_one_waits (w : world sigma) :
  working (c2s w) -> pending (c2s w) = [] -> serve_one w = None.
Proof.
  intros Hc Hp; unfold serve_one; destruct (running (srv w)); [|done].
  cbn; rewrite recv_all_waits by (rewrite ?Hp; unfold request_size; cbn; auto with lia); done.
Qed.

Lemma await_ok cmd a1 a2 payload (w : world sigma) :
  cmd <> EXIT -> cmd <> PING -> payload_fits cmd a2 payload ->
  working (c2s w) -> working (s2c w) -> running (srv w) = true ->
  pending (c2s w) = encode_request (request_of cmd a1 a2) ++ payload ->
  served cmd a1 a2 payload [] w (await w).
Proof.
  intros Hx Hp Hfit Hc Hs Hrun Hpend; unfold await.
  destruct (serve_one_ok cmd a1 a2 payload [] w Hx Hp Hfit Hc Hs Hrun) as (w' & E & Hw').
  { rewrite app_nil_r; done. }
  cbn [server_run]; rewrite E, Hpend, length_app, encode_request_length; cbn [Nat.add request_size server_run].
  enough (serve_one w' = None) as -> by done.
  unfold served in Hw'; destruct (dispatch_work_item _ _ _) as [[? ?] ?].
  apply serve_one_waits; tauto.
Qed.

(** The system after the request was sent and served. *)
Lemma send_await_ok cmd a1 a2 payload (w : world sigma) :
  cmd <> EXIT -> cmd <> PING -> payload_fits cmd a2 payload -> ready w ->
  exists c, send_request (c2s w) cmd a1 a2 payload = (true, c) /\
    served cmd a1 a2 payload [] w (await (with_c2s w c)).
Proof.
  intros Hx Hp Hfit (_ & Hc & Hs & Pc & _ & Hrun).
  destruct (send_request_ok (c2s w) cmd a1 a2 payload Hc) as (c & E & Hc' & P); rewrite Pc in P.
  exists c; split; [done|].
  exact (await_ok cmd a1 a2 payload (with_c2s w c) Hx Hp Hfit Hc' Hs Hrun P).
Qed.

(** A transaction is a call of [dispatch_work_item] on the server. *)
Lemma do_transaction_ok cmd a1 a2 payload (w : world sigma) resp data s :
  cmd <> EXIT -> cmd <> PING -> cmd <> READ_GM -> payload_fits cmd a2 payload -> ready w ->
  dispatch_work_item (request_of cmd a1 a2) payload (srv w) = (resp, data, s) ->
  exists w', do_transaction cmd a1 a2 payload w = Some (resp_status resp =? STATUS_OK, resp, w') /\
    ready w' /\ srv w' = s /\ g_gm_host_allocs w' = g_gm_host_allocs w.
Proof.
  intros Hx Hp Hg Hfit Hw E; pose proof Hw as (Hfd & _ & _ & _ & Ps & Hrun).
  pose proof (dispatch_wf (request_of cmd a1 a2) payload (srv w)) as Hwf.
  pose proof (dispatch_running (request_of cmd a1 a2) payload (srv w)) as Hdr.
  destruct (send_await_ok cmd a1 a2 payload w Hx Hp Hfit Hw) as (c & Es & Hv).
  unfold served in Hv; rewrite E in Hv, Hwf, Hdr; cbn in Hwf, Hdr.
  destruct Hv as (Hsrv & Hfd' & Hal & Hc' & Pc' & Hs' & Ps').
  rewrite Ps, app_nil_l in Ps'; unfold do_transaction.
  destruct (Z.ltb_spec (g_fd w) 0); [lia|]; rewrite Es; cbn [negb].
  destruct (recv_response_ok (s2c (await (with_c2s w c))) resp [] Hs' Hwf) as (c2 & -> & H2 & P2).
  { rewrite Ps'; unfold reply_bytes; destruct cmd; done. }
  eexists; split; [reflexivity|].
  unfold ready, with_s2c; cbn [g_fd c2s s2c srv g_gm_host_allocs]; rewrite Hsrv, Hdr, Hfd'; done.
Qed.

Lemma transact_ok cmd a1 a2 payload (w : world sigma) resp data s :
  cmd <> EXIT -> cmd <> PING -> cmd <> READ_GM -> payload_fits cmd a2 payload -> ready w ->
  dispatch_work_item (request_of cmd a1 a2) payload (srv w) = (resp, data, s) ->
  exists w', transact_ cmd a1 a2 payload w = Some w' /\
    ready w' /\ srv w' = s /\ g_gm_host_allocs w' = g_gm_host_allocs w.
Proof.
  intros Hx Hp Hg Hfit Hw E.
  destruct (do_transaction_ok _ _ _ _ _ _ _ _ Hx Hp Hg Hfit Hw E) as (w' & Et & Hr).
  exists w'; unfold transact_; rewrite Et; done.
Qed.

End Transparent.

(** ** The contract: a simulator in the same process *)

(** What the application asks for: the entry points of the client. *)
Inductive ipc_op :=
| OpWrite32 (Addr Data : Z)
| OpRead32 (Addr : Z)
| OpNpiWrite32 (Addr Data : Z)
| OpNpiRead32 (Addr : Z)
| OpWriteGM (addr : Z) (data : list Z)
| OpReadGM (addr : Z) (buf : list Z)
| OpAllocGM (size : Z)
| OpFreeGM (addr : Z)
| OpStartPlios
| OpGraphInit (name : list Z).

Section Contract.
Context {sigma : Type} `{SimulatorTypes sigma}.

(** The call on a simulator [x] in the same process, with [wd] its work directory: the value or the
    buffer the caller gets, and the simulator. *)
Definition local_op (wd : list Z) (o : ipc_op) (x : sigma) : list Z * sigma :=
  match o with
  | OpWrite32 a d => ([], PSWrite32 (u64 a) (u32 d) x)
  | OpRead32 a => let '(v, x) := PSRead32 (u64 a) x in ([v], x)
  | OpNpiWrite32 a d => ([], PSNpiWrite32 (u64 a) (u32 d) x)
  | OpNpiRead32 a => let '(v, x) := PSNpiRead32 (u64 a) x in ([v], x)
  | OpWriteGM a data => ([], match data with [] => x | _ :: _ => PSWriteGM (u64 a) data x end)
  | OpReadGM a buf => match buf with [] => ([], x) | _ :: _ => PSReadGM (u64 a) (Z.of_nat (length buf)) x end
  | OpAllocGM n =>
      if u32 n =? 0 then ([0], x) else let '(a, x) := aeg_ipc_alloc_mem (u32 n) x in ([a], x)
  | OpFreeGM a => ([], aeg_ipc_free_mem (u64 a) x)
  | OpStartPlios => ([], PSStartPLIO x)
  | OpGraphInit name =>
      match name with
      | [] => ([-1], x)
      | _ :: _ =>
          let x := match SetPartIsolationAfterRst with Some f => f x | None => x end in
          let '(r, x) := aeg_ipc_run_graph_init (c_string name) wd x in
          ([if r =? 0 then 0 else -1], x)
      end
  end.

Definition no_value (r : option (world sigma)) : option (list Z * world sigma) :=
  match r with None => None | Some w => Some ([], w) end.
Definition one_value (r : option (Z * world sigma)) : option (list Z * world sigma) :=
  match r with None => None | Some (v, w) => Some ([v], w) end.

(** The same call through the connection. *)
Definition remote_op (o : ipc_op) (w : world sigma) : option (list Z * world sigma) :=
  match o with
  | OpWrite32 a d => no_value (ess_Write32 a d w)
  | OpRead32 a => one_value (ess_Read32 a w)
  | OpNpiWrite32 a d => no_value (ess_NpiWrite32 a d w)
  | OpNpiRead32 a => one_value (ess_NpiRead32 a w)
  | OpWriteGM a data => no_value (ess_WriteGM a data w)
  | OpReadGM a buf => ess_ReadGM a buf w
  | OpAllocGM n => one_value (aeg_ipc_alloc_gm n w)
  | OpFreeGM a => no_value (aeg_ipc_free_gm a w)
  | OpStartPlios => no_value (start_plios w)
  | OpGraphInit name => one_value (aeg_ipc_graph_init_ipc name w)
  end.

(** The sizes fit the 32 bits of the request. *)
Definition op_fits (o : ipc_op) : Prop :=
  match o with
  | OpWriteGM _ d | OpReadGM _ d | OpGraphInit d => Z.of_nat (length d) < 2 ^ 32
  | _ => True
  end.

Lemma u32_length (l : list Z) : Z.of_nat (length l) < 2 ^ 32 -> u32 (Z.of_nat (length l)) = Z.of_nat (length l).
Proof. intros; apply wrap_u_small; lia. Qed.

Lemma read_gm_reply_ok buf data (w : world sigma) :
  working (s2c w) -> pending (s2c w) = encode_response (ok_value 0) ++ data -> length data = length buf ->
  exists c, read_gm_reply buf w = Some (data, with_s2c w c) /\ working c /\ pending c = [].
Proof.
  intros Hs Ps Hd; unfold read_gm_reply.
  destruct (recv_response_ok (s2c w) (ok_value 0) data Hs ltac:(cbv; done) Ps) as (c2 & -> & H2 & P2).
  cbn [andb negb resp_status ok_value]; change (STATUS_OK =? STATUS_OK) with true; cbn [negb].
  destruct (recv_all_ok c2 (length buf) data [] H2) as (c3 & -> & H3 & P3); [rewrite app_nil_r; done|done|].
  exists c3; rewrite Hd, drop_all, app_nil_r; done.
Qed.

Lemma dispatch_read_gm a n (s : server sigma) :
  0 <= n < 2 ^ 32 ->
  dispatch_work_item (request_of READ_GM a n) [] s
  = if 0 <? n then
      let '(d, x) := PSReadGM (u64 a) n (sim s) in (ok_value 0, d, with_sim s x)
    else (ok_value 0, [], s).
Proof.
  intros Hn; unfold dispatch_work_item; cbn [req_cmd req_arg1 req_arg2 request_of].
  rewrite cmd_of_code, (wrap_u_small 32) by lia; done.
Qed.

Lemma read_gm_ok wd a buf (w : world sigma) :
  ready w -> Z.of_nat (length buf) < 2 ^ 32 ->
  exists w', aeg_ipc_read_gm a buf w = Some ((local_op wd (OpReadGM a buf) (sim (srv w))).1, w') /\
    ready w' /\ srv w' = with_sim (srv w) (local_op wd (OpReadGM a buf) (sim (srv w))).2 /\
    g_gm_host_allocs w' = g_gm_host_allocs w.
Proof.
  intros Hw Hlen; pose proof Hw as (Hfd & _ & _ & _ & Ps & Hrun).
  destruct (send_await_ok READ_GM a (Z.of_nat (length buf)) [] w ltac:(done) ltac:(done) eq_refl Hw) as (c & Es & Hv).
  unfold served in Hv; rewrite dispatch_read_gm in Hv by lia.
  unfold aeg_ipc_read_gm; destruct (Z.ltb_spec (g_fd w) 0); [lia|]; rewrite Es.
  set (w1 := await (with_c2s w c)) in *; clearbody w1; cbn [local_op].
  pose proof (PSReadGM_fills (u64 a) (Z.of_nat (length buf)) (sim (srv w)) ltac:(lia)) as Hfill.
  assert (Hin : exists d x, (match buf with [] => ([], sim (srv w))
              | _ :: _ => PSReadGM (u64 a) (Z.of_nat (length buf)) (sim (srv w)) end) = (d, x) /\
            length d = length buf /\ srv w1 = with_sim (srv w) x /\ g_fd w1 = g_fd w /\
            g_gm_host_allocs w1 = g_gm_host_allocs w /\ working (c2s w1) /\ pending (c2s w1) = [] /\
            working (s2c w1) /\ pending (s2c w1) = encode_response (ok_value 0) ++ d).
  { destruct (Z.ltb_spec 0 (Z.of_nat (length buf))); destruct buf as [|b buf]; try (cbn in *; lia).
    - destruct (PSReadGM _ _ _) as [d x]; exists d, x; rewrite Ps, app_nil_l in Hv; cbn [fst] in Hfill.
      split; [done|]; split; [lia|done].
    - exists [], (sim (srv w)); rewrite Ps, app_nil_l in Hv; destruct (srv w); done. }
  destruct Hin as (d & x & -> & Hd & Hs1 & Hf1 & Ha1 & Hc1 & Pc1 & Hr1 & Pr1).
  destruct (read_gm_reply_ok buf d w1 Hr1 Pr1 Hd) as (c2 & -> & H2 & P2).
  eexists; split; [reflexivity|].
  unfold ready, with_s2c; cbn [g_fd c2s s2c srv g_gm_host_allocs]; rewrite Hs1, Hf1; done.
Qed.

(** The outcome of a call through the connection agrees with the local one. *)
Definition agrees (wd : list Z) (o : ipc_op) (w : world sigma) (r : option (list Z * world sigma)) : Prop :=
  exists w', r = Some ((local_op wd o (sim (srv w))).1, w') /\ ready w' /\
    srv w' = with_sim (srv w) (local_op wd o (sim (srv w))).2 /\
    g_gm_host_allocs w' = g_gm_host_allocs w.

(** A transaction whose reply is [resp] and which leaves the simulator in [x]. *)
Lemma transaction_step cmd a1 a2 payload (w : world sigma) resp data x :
  cmd <> EXIT -> cmd <> PING -> cmd <> READ_GM -> payload_fits cmd a2 payload -> ready w ->
  dispatch_work_item (request_of cmd a1 a2) payload (srv w) = (resp, data, with_sim (srv w) x) ->
  exists w', do_transaction cmd a1 a2 payload w = Some (resp_status resp =? STATUS_OK, resp, w') /\
    transact_ cmd a1 a2 payload w = Some w' /\
    ready w' /\ srv w' = with_sim (srv w) x /\ g_gm_host_allocs w' = g_gm_host_allocs w.
Proof.
  intros Hx Hp Hg Hf Hw E.
  destruct (do_transaction_ok _ _ _ _ _ _ _ _ Hx Hp Hg Hf Hw E) as (w' & Et & Hr).
  exists w'; split; [done|]; split; [unfold transact_; rewrite Et; done|done].
Qed.

Lemma with_sim_same (s : server sigma) : with_sim s (sim s) = s.
Proof. destruct s; reflexivity. Qed.

Lemma alloc_op_agrees wd n (w : world sigma) :
  ready w -> agrees wd (OpAllocGM n) w (remote_op (OpAllocGM n) w).
Proof.
  intros Hw; unfold agrees; cbn [remote_op local_op]; unfold aeg_ipc_alloc_gm.
  pose proof (eq_refl (dispatch_work_item (request_of ALLOC_GM 0 n) [] (srv w))) as E.
  unfold dispatch_work_item at 2 in E; cbn [req_cmd req_arg2 request_of] in E.
  rewrite cmd_of_code in E; unfold dispatch_alloc in E.
  destruct (Z.eqb_spec (u32 n) 0) as [Hz|Hz].
  - rewrite <- (with_sim_same (srv w)) in E at 2.
    destruct (transaction_step ALLOC_GM 0 n [] w _ _ _ ltac:(done) ltac:(done) ltac:(done) eq_refl Hw E) as (w' & -> & _ & Hr).
    exists w'; done.
  - destruct (aeg_ipc_alloc_mem (u32 n) (sim (srv w))) as [a x].
    destruct (transaction_step ALLOC_GM 0 n [] w _ _ _ ltac:(done) ltac:(done) ltac:(done) eq_refl Hw E) as (w' & -> & _ & Hr).
    exists w'; split; [|done]; destruct (Z.eqb_spec a 0) as [->|]; done.
Qed.

Lemma graph_init_op_agrees name (w : world sigma) :
  ready w -> Z.of_nat (length name) < 2 ^ 32 ->
  agrees (work_dir_of (AIE_WORK_DIR (srv w))) (OpGraphInit name) w (remote_op (OpGraphInit name) w).
Proof.
  intros Hw Hlen; unfold agrees; cbn [remote_op local_op]; unfold aeg_ipc_graph_init_ipc.
  destruct name as [|b name]; [exists w; rewrite with_sim_same; done|].
  set (nm := b :: name) in *; clearbody nm.
  pose proof (eq_refl (dispatch_work_item (request_of GRAPH_INIT 0 (Z.of_nat (length nm))) nm (srv w))) as E.
  unfold dispatch_work_item at 2 in E; cbn [req_cmd request_of] in E.
  rewrite cmd_of_code in E; unfold dispatch_graph_init in E.
  destruct (aeg_ipc_run_graph_init _ _ _) as [r x].
  destruct (transaction_step GRAPH_INIT 0 _ nm w _ _ _ ltac:(done) ltac:(done) ltac:(done)
              (eq_sym (u32_length nm Hlen)) Hw E) as (w' & -> & _ & Hr).
  exists w'; split; [|done]; destruct (r =? 0); done.
Qed.

Lemma read_op_agrees cmd a (w : world sigma) v x :
  (cmd = READ32 /\ PSRead32 (u64 a) (sim (srv w)) = (v, x)) \/
  (cmd = NPI_READ32 /\ PSNpiRead32 (u64 a) (sim (srv w)) = (v, x)) ->
  ready w ->
  exists w', do_transaction cmd a 0 [] w = Some (true, ok_value v, w') /\ u32 v = v /\ ready w' /\
    srv w' = with_sim (srv w) x /\ g_gm_host_allocs w' = g_gm_host_allocs w.
Proof.
  intros Hcmd Hw.
  assert (Hv : u32 v = v).
  { apply wrap_u_small; destruct Hcmd as [[_ E]|[_ E]];
      [pose proof (PSRead32_word (u64 a) (sim (srv w))) as P|pose proof (PSNpiRead32_word (u64 a) (sim (srv w))) as P];
      rewrite E in P; exact P. }
  assert (E : dispatch_work_item (request_of cmd a 0) [] (srv w) = (ok_value v, [], with_sim (srv w) x)).
  { unfold dispatch_work_item; cbn [req_cmd req_arg1 request_of]; rewrite cmd_of_code.
    destruct Hcmd as [[-> ->]|[-> ->]]; done. }
  destruct (transaction_step cmd a 0 [] w (ok_value v) [] x) as (w' & -> & _ & Hr);
    try (destruct Hcmd as [[-> _]|[-> _]]; done); try done.
  exists w'; done.
Qed.

(** Requests that return nothing. *)
Lemma plain_op_agrees cmd a1 a2 (w : world sigma) resp x :
  cmd <> EXIT -> cmd <> PING -> cmd <> READ_GM -> payload_fits cmd a2 [] -> ready w ->
  dispatch_work_item (request_of cmd a1 a2) [] (srv w) = (resp, [], with_sim (srv w) x) ->
  exists w', no_value (transact_ cmd a1 a2 [] w) = Some ([], w') /\ ready w' /\
    srv w' = with_sim (srv w) x /\ g_gm_host_allocs w' = g_gm_host_allocs w.
Proof.
  intros Hx Hp Hg Hf Hw E.
  destruct (transaction_step _ _ _ _ _ _ _ _ Hx Hp Hg Hf Hw E) as (w' & _ & -> & Hr); exists w'; done.
Qed.

Lemma write_gm_op_agrees wd a data (w : world sigma) :
  ready w -> Z.of_nat (length data) < 2 ^ 32 ->
  agrees wd (OpWriteGM a data) w (remote_op (OpWriteGM a data) w).
Proof.
  intros Hw Hlen; unfold agrees; cbn [remote_op local_op]; unfold ess_WriteGM, aeg_ipc_write_gm.
  destruct (transaction_step WRITE_GM a (Z.of_nat (length data)) data w (ok_value 0) data
              (match data with [] => sim (srv w) | _ :: _ => PSWriteGM (u64 a) data (sim (srv w)) end)
              ltac:(done) ltac:(done) ltac:(done) (eq_sym (u32_length data Hlen)) Hw) as (w' & _ & -> & Hr).
  - destruct data; [rewrite with_sim_same|]; done.
  - exists w'; done.
Qed.

(** Every entry point agrees with the local call. *)
Lemma remote_op_agrees o (w : world sigma) :
  ready w -> op_fits o -> agrees (work_dir_of (AIE_WORK_DIR (srv w))) o w (remote_op o w).
Proof.
  intros Hw Hfit; destruct o; cbn [op_fits] in Hfit;
    auto using alloc_op_agrees, graph_init_op_agrees, write_gm_op_agrees.
  all: unfold agrees; cbn [remote_op local_op].
  - eapply (plain_op_agrees WRITE32 Addr Data); done.
  - unfold ess_Read32; destruct (PSRead32 (u64 Addr) (sim (srv w))) as [v x] eqn:E.
    destruct (read_op_agrees READ32 Addr w v x ltac:(eauto) Hw) as (w' & -> & Hv & Hr).
    exists w'; split; [cbn; rewrite Hv|]; done.
  - eapply (plain_op_agrees NPI_WRITE32 Addr Data); done.
  - unfold ess_NpiRead32; destruct (PSNpiRead32 (u64 Addr) (sim (srv w))) as [v x] eqn:E.
    destruct (read_op_agrees NPI_READ32 Addr w v x ltac:(eauto) Hw) as (w' & -> & Hv & Hr).
    exists w'; split; [cbn; rewrite Hv|]; done.
  - apply (read_gm_ok (work_dir_of (AIE_WORK_DIR (srv w)))); done.
  - eapply (plain_op_agrees FREE_GM addr 0); done.
  - eapply (plain_op_agrees START_PLIO 0 0); done.
Qed.

(** * Sessions *)

(** A sequence of calls on the local simulator, and through the connection. *)
Fixpoint local_session (wd : list Z) (os : list ipc_op) (x : sigma) : list (list Z) * sigma :=
  match os with
  | [] => ([], x)
  | o :: os =>
      let '(r, x) := local_op wd o x in
      let '(rs, x) := local_session wd os x in (r :: rs, x)
  end.
Fixpoint remote_session (os : list ipc_op) (w : world sigma) : option (list (list Z) * world sigma) :=
  match os with
  | [] => Some ([], w)
  | o :: os =>
      match remote_op o w with
      | None => None
      | Some (r, w) => match remote_session os w with None => None | Some (rs, w) => Some (r :: rs, w) end
      end
  end.

(** C8: The two processes behave as one.  For every simulator, every sequence of register accesses,
    global-memory transfers, allocations, graph set-ups and starts whose sizes fit 32 bits, and
    every way the kernel cuts or interrupts the transfers of a working connection, the client
    gets exactly the results it would get by calling the simulator in its own process, it never
    waits for ever, the simulator ends in the same state and the connection is empty again. *)
Theorem ipc_session_transparent (os : list ipc_op) (w : world sigma) :
  ready w -> Forall op_fits os ->
  let '(rs, x) := local_session (work_dir_of (AIE_WORK_DIR (srv w))) os (sim (srv w)) in
  exists w', remote_session os w = Some (rs, w') /\ sim (srv w') = x /\ ready w'.
Proof.
  revert w; induction os as [|o os IH]; intros w Hw Hfit; cbn [local_session remote_session]; [eauto|].
  apply Forall_cons in Hfit as [Ho Hos].
  destruct (remote_op_agrees o w Hw Ho) as (w1 & -> & Hw1 & Hs1 & _).
  destruct (local_op _ o _) as [r x]; cbn [fst snd] in *.
  specialize (IH w1 Hw1 Hos); rewrite Hs1 in IH; cbn [with_sim sim AIE_WORK_DIR] in IH.
  destruct (local_session _ os x) as [rs y]; destruct IH as (w2 & -> & Hs2 & Hw2).
  exists w2; done.
Qed.

End Contract.

(** * Addresses of host buffers *)

Definition block_end (e : Z * GmHostAlloc) : Z := fst e + alloc_size (snd e).
Definition in_block (addr : Z) (e : Z * GmHostAlloc) : bool := (fst e <=? addr) && (addr <? block_end e).

(** The entries are blocks of the address space in increasing order, none overlapping another. *)
Definition allocs_ok (m : list (Z * GmHostAlloc)) : Prop :=
  Forall (fun e => 0 < fst e /\ 0 < alloc_size (snd e) /\ block_end e < 2 ^ 64) m /\
  StronglySorted (fun e e' => block_end e <= fst e') m.

(** A block that [malloc] may return while the blocks of [m] are allocated. *)
Definition fresh_block (host size : Z) (m : list (Z * GmHostAlloc)) : Prop :=
  0 < host /\ host + size < 2 ^ 64 /\ Forall (fun e => host + size <= fst e \/ block_end e <= host) m.

(** The device address of [addr] given by the block it lies in. *)
Definition resolve (m : list (Z * GmHostAlloc)) (addr : Z) : Z :=
  match List.find (in_block addr) m with
  | Some e => u64 (dev_addr (snd e) + (addr - fst e))
  | None => 0
  end.

Lemma allocs_ok_cons e m :
  allocs_ok (e :: m) <->
  (0 < fst e /\ 0 < alloc_size (snd e) /\ block_end e < 2 ^ 64) /\
  Forall (fun e' => block_end e <= fst e') m /\ allocs_ok m.
Proof.
  unfold allocs_ok; rewrite Forall_cons; split.
  - intros [[He Hm] Hs]; inversion Hs; subst; done.
  - intros (He & Hb & Hm & Hs); repeat split; try tauto; constructor; done.
Qed.

Lemma find_below m addr :
  allocs_ok m -> Forall (fun e => addr < fst e) m -> List.find (in_block addr) m = None.
Proof.
  intros _ Hb; induction Hb as [|e m He Hm IH]; [done|]; cbn.
  unfold in_block at 1; destruct (Z.leb_spec (fst e) addr); [lia|]; exact IH.
Qed.

Lemma before_upper_bound_spec m addr :
  allocs_ok m ->
  match before_upper_bound addr m with
  | None => List.find (in_block addr) m = None
  | Some e => e ∈ m /\ fst e <= addr /\
      List.find (in_block addr) m = if in_block addr e then Some e else None
  end.
Proof.
  induction m as [|e m IH]; intros Hm; cbn [before_upper_bound List.find]; [done|].
  pose proof Hm as ((H1 & H2 & H3) & Hb & Hm')%allocs_ok_cons; specialize (IH Hm').
  destruct (Z.ltb_spec addr (fst e)) as [Hlt|Hge].
  - unfold in_block at 1; destruct (Z.leb_spec (fst e) addr); [lia|]; cbn.
    apply find_below; [done|].
    eapply Forall_impl; [exact Hb|]; cbn; unfold block_end; intros; lia.
  - destruct (before_upper_bound addr m) as [e'|].
    + destruct IH as (Hin & Hle & ->); split; [set_solver|]; split; [done|].
      rewrite Forall_forall in Hb; specialize (Hb e' Hin).
      unfold in_block at 1; destruct (Z.ltb_spec addr (block_end e)); [lia|]; rewrite andb_false_r; done.
    + split; [set_solver|]; split; [done|]; rewrite IH; destruct (in_block addr e); done.
Qed.

(** The look-up finds the block an address lies in. *)
Lemma dev_addr_resolve m addr :
  allocs_ok m -> addr < 2 ^ 64 -> aeg_ipc_dev_addr m addr = resolve m addr.
Proof.
  intros Hm Ha; unfold aeg_ipc_dev_addr, resolve.
  pose proof (before_upper_bound_spec m addr Hm) as S.
  destruct (before_upper_bound addr m) as [[b a]|]; [|rewrite S; done].
  destruct S as (Hin & Hle & ->); cbn in Hle; destruct Hm as [Hm _].
  rewrite Forall_forall in Hm; specialize (Hm _ Hin) as (H1 & H2 & H3); unfold block_end in H3; cbn in H1, H2, H3.
  unfold in_block, block_end; cbn.
  rewrite (wrap_u_small 64) by lia.
  destruct (Z.ltb_spec addr b), (Z.leb_spec b addr), (Z.leb_spec (b + alloc_size a) addr),
    (Z.ltb_spec addr (b + alloc_size a)); try lia; cbn; [done|].
  rewrite (wrap_u_small 64 (addr - b)) by lia; done.
Qed.

Lemma map_insert_elem k a m e : e ∈ map_insert k a m -> e = (k, a) \/ e ∈ m.
Proof.
  induction m as [|[k' a'] m IH]; cbn; [rewrite elem_of_cons; tauto|].
  destruct (k <? k'); [|destruct (k =? k')]; rewrite !elem_of_cons; tauto.
Qed.

Lemma map_insert_ok k a m :
  allocs_ok m -> 0 < alloc_size a -> fresh_block k (alloc_size a) m -> allocs_ok (map_insert k a m).
Proof.
  intros Hm Ha (Hk & Hend & Hf); induction m as [|[k' a'] m IH]; cbn [map_insert].
  { apply allocs_ok_cons; unfold block_end; cbn; repeat split; try lia; constructor. }
  pose proof Hm as ((H1 & H2 & H3) & Hb & Hm')%allocs_ok_cons.
  apply Forall_cons in Hf as [Hfe Hf]; unfold block_end in Hfe, H3; cbn in Hfe, H1, H2, H3.
  destruct (Z.ltb_spec k k') as [Hlt|Hge]; [|destruct (Z.eqb_spec k k'); [lia|]].
  - apply allocs_ok_cons; unfold block_end at 1 2; cbn; repeat split; try lia; try apply Hm.
    constructor; [cbn; lia|].
    eapply Forall_impl; [exact Hb|]; unfold block_end; cbn; intros; lia.
  - apply allocs_ok_cons; unfold block_end at 1; cbn; repeat split; try lia; try (apply IH; done).
    rewrite Forall_forall in Hb |- *; intros e [->|He]%map_insert_elem; [unfold block_end; cbn; lia|eauto].
Qed.

Lemma find_map_insert k a m addr :
  fresh_block k (alloc_size a) m -> 0 < alloc_size a ->
  List.find (in_block addr) (map_insert k a m)
  = if in_block addr (k, a) then Some (k, a) else List.find (in_block addr) m.
Proof.
  intros (Hk & Hend & Hf) Ha; induction m as [|[k' a'] m IH]; [done|]; cbn [map_insert].
  apply Forall_cons in Hf as [Hfe Hf]; unfold block_end in Hfe; cbn in Hfe.
  destruct (Z.ltb_spec k k'); [done|]; destruct (Z.eqb_spec k k') as [->|].
  - destruct Hfe; [lia|]; cbn [List.find].
    destruct (in_block addr (k', a)); [done|].
    unfold in_block, block_end; cbn.
    destruct (Z.leb_spec k' addr); [|done]; destruct (Z.ltb_spec addr (k' + alloc_size a')); [lia|done].
  - cbn [List.find]; rewrite (IH Hf).
    unfold in_block, block_end; cbn.
    destruct (Z.leb_spec k' addr), (Z.ltb_spec addr (k' + alloc_size a')), (Z.leb_spec k addr),
      (Z.ltb_spec addr (k + alloc_size a)); cbn; try done; lia.
Qed.

Lemma map_erase_ok k m : allocs_ok m -> allocs_ok (map_erase k m).
Proof.
  induction m as [|e m IH]; intros Hm; [done|]; cbn [map_erase List.filter].
  apply allocs_ok_cons in Hm as (He & Hb & Hm); fold (map_erase k m).
  destruct (negb (fst e =? k)); [|auto].
  apply allocs_ok_cons; split; [done|]; split; [|auto].
  rewrite Forall_forall in Hb |- *; intros e' He'; apply Hb.
  apply list_elem_of_In, filter_In in He' as [? _]; apply list_elem_of_In; done.
Qed.

Lemma map_erase_above k m : Forall (fun e => k < fst e) m -> map_erase k m = m.
Proof.
  induction 1 as [|e m He Hm IH]; [done|]; cbn; destruct (Z.eqb_spec (fst e) k); [lia|].
  cbn; f_equal; exact IH.
Qed.

Lemma map_find_elem k a m : map_find k m = Some a -> (k, a) ∈ m.
Proof.
  unfold map_find; destruct (List.find _ m) as [[k' a']|] eqn:E; intros; simplify_eq; cbn.
  apply find_some in E as [Hin Hk]; apply Z.eqb_eq in Hk; cbn in Hk; subst; apply list_elem_of_In; done.
Qed.

Lemma map_find_head k a m : map_find k ((k, a) :: m) = Some a.
Proof. unfold map_find; cbn; rewrite Z.eqb_refl; done. Qed.

(** Erasing a block forgets its addresses and no others. *)
Lemma resolve_erase k a m addr :
  allocs_ok m -> map_find k m = Some a ->
  List.find (in_block addr) (map_erase k m) = if in_block addr (k, a) then None else List.find (in_block addr) m.
Proof.
  induction m as [|[k' a'] m IH]; intros Hm Hfind; [done|].
  pose proof Hm as ((H1 & H2 & H3) & Hb & Hm')%allocs_ok_cons; unfold block_end in Hb; cbn in H1, H2, Hb.
  destruct (Z.eq_dec k' k) as [->|Hne].
  - rewrite map_find_head in Hfind; simplify_eq; cbn [map_erase List.filter fst]; rewrite Z.eqb_refl; cbn [negb].
    fold (map_erase k m); rewrite map_erase_above by (eapply Forall_impl; [exact Hb|cbn; intros; lia]).
    cbn [List.find]; destruct (in_block addr (k, a)) eqn:E; [|done].
    apply andb_prop in E as [_ E]; apply Z.ltb_lt in E; unfold block_end in E; cbn in E.
    apply find_below; [done|]; eapply Forall_impl; [exact Hb|cbn; intros; lia].
  - assert (Hf : map_find k m = Some a).
    { revert Hfind; unfold map_find; cbn; destruct (Z.eqb_spec k' k); done. }
    cbn [map_erase List.filter fst]; destruct (Z.eqb_spec k' k) as [|_]; [done|]; cbn [negb List.find].
    fold (map_erase k m); rewrite (IH Hm' Hf).
    rewrite Forall_forall in Hb; specialize (Hb _ (map_find_elem _ _ _ Hf)); cbn in Hb.
    unfold in_block, block_end; cbn.
    destruct (Z.leb_spec k' addr), (Z.ltb_spec addr (k' + alloc_size a')), (Z.leb_spec k addr); cbn; try done; lia.
Qed.

Section Buffers.
Context {sigma : Type} `{SimulatorTypes sigma}.

(** A host buffer and its device memory stay in step.  When the simulator grants device memory
    for a buffer and [malloc] returns a block that overlaps no other, the client records it so
    that every address inside the block resolves to the device address at the same offset, every
    other address resolves as before, and the map stays ordered and free of overlaps. *)
Theorem host_alloc_resolves (size host dev : Z) (x : sigma) (w : world sigma) :
  ready w -> allocs_ok (g_gm_host_allocs w) -> 0 < size < 2 ^ 32 ->
  fresh_block host size (g_gm_host_allocs w) ->
  aeg_ipc_alloc_mem size (sim (srv w)) = (dev, x) -> dev <> 0 ->
  exists w', aeg_ipc_alloc_gm_host size host w = Some (host, w') /\ ready w' /\ sim (srv w') = x /\
    allocs_ok (g_gm_host_allocs w') /\
    forall addr, addr < 2 ^ 64 ->
      aeg_ipc_dev_addr (g_gm_host_allocs w') addr
      = if (host <=? addr) && (addr <? host + size) then u64 (dev + (addr - host))
        else aeg_ipc_dev_addr (g_gm_host_allocs w) addr.
Proof.
  intros Hw Hm Hsz Hf Ea Hdev; pose proof Hf as (Hpos & _ & _).
  destruct (alloc_op_agrees [] size w Hw) as (w1 & E1 & Hw1 & Hs1 & Ha1).
  cbn [remote_op local_op] in E1, Hs1; rewrite (wrap_u_small 32) in E1, Hs1 by lia.
  destruct (Z.eqb_spec size 0) as [|_]; [lia|]; rewrite Ea in E1, Hs1; cbn [fst snd] in E1, Hs1.
  unfold aeg_ipc_alloc_gm_host.
  destruct (aeg_ipc_alloc_gm size w) as [[d w1']|]; cbn in E1; [|done]; simplify_eq.
  destruct (Z.eqb_spec dev 0) as [|_]; [done|]; destruct (Z.eqb_spec host 0) as [|_]; [lia|].
  set (a := {| dev_addr := dev; alloc_size := size |}).
  assert (Hok : allocs_ok (map_insert host a (g_gm_host_allocs w))) by (apply map_insert_ok; cbn; done || lia).
  eexists; split; [reflexivity|]; unfold with_allocs, ready; cbn [g_fd c2s s2c srv g_gm_host_allocs].
  rewrite Ha1; split; [exact Hw1|]; rewrite Hs1; split; [done|]; split; [done|].
  intros addr Haddr; rewrite !dev_addr_resolve by done; unfold resolve.
  rewrite (find_map_insert host a) by (cbn; done || lia).
  unfold in_block at 1, block_end; cbn [fst snd alloc_size a]; destruct (_ && _); done.
Qed.

(** Freeing a host buffer gives its device memory back, makes its addresses resolve to nothing
    and changes no other address. *)
Theorem host_free_forgets (host : Z) (a : GmHostAlloc) (w : world sigma) :
  ready w -> allocs_ok (g_gm_host_allocs w) -> map_find host (g_gm_host_allocs w) = Some a ->
  exists w', aeg_ipc_free_gm_host host w = Some w' /\ ready w' /\
    sim (srv w') = aeg_ipc_free_mem (u64 (dev_addr a)) (sim (srv w)) /\
    allocs_ok (g_gm_host_allocs w') /\
    forall addr, addr < 2 ^ 64 ->
      aeg_ipc_dev_addr (g_gm_host_allocs w') addr
      = if (host <=? addr) && (addr <? host + alloc_size a) then 0
        else aeg_ipc_dev_addr (g_gm_host_allocs w) addr.
Proof.
  intros Hw Hm Hf; unfold aeg_ipc_free_gm_host; rewrite Hf.
  destruct (remote_op_agrees (OpFreeGM (dev_addr a)) w Hw I) as (w1 & E1 & Hw1 & Hs1 & Ha1).
  cbn [remote_op] in E1; destruct (aeg_ipc_free_gm (dev_addr a) w) as [w1'|]; cbn in E1; [|done]; simplify_eq.
  pose proof (map_erase_ok host _ Hm) as Hok.
  eexists; split; [reflexivity|]; unfold with_allocs, ready; cbn [g_fd c2s s2c srv g_gm_host_allocs].
  rewrite Ha1; split; [exact Hw1|]; rewrite Hs1; split; [done|]; split; [done|].
  intros addr Haddr; rewrite !dev_addr_resolve by done; unfold resolve.
  rewrite (resolve_erase host a) by done.
  unfold in_block at 1, block_end; cbn [fst snd]; destruct (_ && _); done.
Qed.

(** * The end of a session *)

Lemma drain_ends ks p : exists r, drain ks p true = Some r.
Proof.
  revert p; induction ks as [|k ks IH]; intros p; [eexists; reflexivity|].
  destruct k; cbn; [eexists; reflexivity|eexists; reflexivity|destruct p; [eexists; reflexivity|apply IH]].
Qed.

Lemma s32_u64 z : s32 (u64 z) = s32 z.
Proof.
  unfold wrap_s, wrap_u; f_equal.
  rewrite <- (Zplus_mod_idemp_l (z mod 2 ^ 64)), <- (Zplus_mod_idemp_l z).
  rewrite Z.mod_mod_divide by (exists (2 ^ 32); done); done.
Qed.

(** The server after [EXIT]: the code stored, the reply sent, the socket closed. *)
Lemma await_exit code (w : world sigma) :
  working (c2s w) -> working (s2c w) -> running (srv w) = true -> pending (s2c w) = [] ->
  pending (c2s w) = encode_request (request_of EXIT code 0) ->
  let w' := await w in
  g_fd w' = g_fd w /\ running (srv w') = false /\ graph_return_value (srv w') = s32 code /\
  sim (srv w') = sim (srv w) /\ no_failure (rsched (s2c w')) /\ closed (s2c w') = true /\
  pending (s2c w') = encode_response (ok_value 0).
Proof.
  intros Hc Hs Hrun Ps Pc; unfold await; cbn [server_run].
  assert (E : exists w', serve_one w = Some w' /\ g_fd w' = g_fd w /\ running (srv w') = false /\
    graph_return_value (srv w') = s32 code /\ sim (srv w') = sim (srv w) /\ no_failure (rsched (s2c w')) /\
    closed (s2c w') = true /\ pending (s2c w') = encode_response (ok_value 0)).
  { unfold serve_one; rewrite Hrun; cbn [negb].
    destruct (recv_all_ok (c2s w) request_size _ [] Hc ltac:(rewrite app_nil_r; exact Pc) (encode_request_length _))
      as (c & -> & Hc' & Pc').
    rewrite decode_encode_request by apply wf_sent_request.
    unfold serve_request; cbn [req_cmd request_of]; rewrite cmd_of_code; unfold serve_item.
    destruct (send_all_ok (s2c w) (encode_response (ok_value 0)) Hs) as (c1 & E1 & (Hr1 & _) & P1).
    eexists; split; [reflexivity|].
    unfold dispatch_work_item; cbn [req_cmd req_arg1 request_of]; rewrite cmd_of_code.
    cbn [srv s2c with_srv with_c2s]; rewrite E1; cbn.
    rewrite P1, Ps, s32_u64; done. }
  destruct E as (w' & -> & Hfd & Hrun' & Hr); enough (server_run (length (pending (c2s w))) w' = w') as -> by done.
  destruct (length _); [done|]; cbn [server_run]; unfold serve_one; rewrite Hrun'; done.
Qed.

(** Disconnecting ends.  The client returns with its socket closed, the server has left its
    loop with the exit code of the application as the value the simulator's main function
    returns, and the simulator has not been touched. *)
Theorem disconnect_delivers_exit_code (code : Z) (w : world sigma) :
  ready w ->
  exists w', aeg_ipc_backend_disconnect code w = Some w' /\ g_fd w' = -1 /\
    running (srv w') = false /\ graph_return_value (srv w') = s32 code /\ sim (srv w') = sim (srv w).
Proof.
  intros (Hfd & Hc & Hs & Pc & Ps & Hrun); unfold aeg_ipc_backend_disconnect.
  destruct (Z.ltb_spec (g_fd w) 0); [lia|].
  destruct (send_request_ok (c2s w) EXIT (u64 code) 0 [] Hc) as (c & -> & Hc' & P').
  rewrite Pc, app_nil_l, app_nil_r in P'.
  destruct (await_exit (u64 code) (with_c2s w c) Hc' Hs Hrun Ps P') as (Hfd1 & Hrun1 & Hg1 & Hsim1 & Hr1 & Hcl1 & P1).
  set (w1 := await (with_c2s w c)) in *; clearbody w1.
  unfold recv_response.
  destruct (recv_all_gets (s2c w1) response_size _ [] Hr1 ltac:(rewrite app_nil_r; exact P1) (encode_response_length _))
    as (c2 & -> & _ & _ & Hcl2 & _).
  set (w2 := with_c2s _ _); assert (await w2 = w2) as ->.
  { unfold await; cbn [server_run]; unfold serve_one; cbn; rewrite Hrun1; done. }
  cbn [w2 s2c with_c2s with_s2c]; rewrite Hcl2, Hcl1.
  destruct (drain_ends (rsched c2) (pending c2)) as ([p ks] & ->).
  eexists; split; [reflexivity|]; cbn; rewrite Hrun1, Hg1, Hsim1, s32_u64; done.
Qed.

(** * Transfers of 4 GiB and more *)

(** A write of 4 GiB or more desynchronises the connection: the client sends all of its data
    but announces the size modulo 2^32, so the server stores only that many bytes in global
    memory and takes the rest of the data for its next requests. *)
Theorem write_gm_4gib_desynchronises (a : Z) (data : list Z) (w : world sigma) :
  ready w -> 2 ^ 32 <= Z.of_nat (length data) ->
  let stored := take (Z.to_nat (u32 (Z.of_nat (length data)))) data in
  exists c w', send_request (c2s w) WRITE_GM a (Z.of_nat (length data)) data = (true, c) /\
    serve_one (with_c2s w c) = Some w' /\
    sim (srv w') = (match stored with [] => sim (srv w) | _ :: _ => PSWriteGM (u64 a) stored (sim (srv w)) end) /\
    pending (c2s w') = drop (length stored) data /\ (length stored < length data)%nat.
Proof.
  intros (Hfd & Hc & Hs & Pc & Ps & Hrun) Hbig stored.
  pose proof (wrap_u_range 32 (Z.of_nat (length data)) ltac:(lia)) as Hr.
  assert (Hlen : Z.of_nat (length stored) = u32 (Z.of_nat (length data))).
  { unfold stored; rewrite length_take; lia. }
  destruct (send_request_ok (c2s w) WRITE_GM a (Z.of_nat (length data)) data Hc) as (c & E & Hc' & P).
  rewrite Pc, app_nil_l in P.
  destruct (serve_one_ok WRITE_GM a (Z.of_nat (length data)) stored (drop (length stored) data) (with_c2s w c))
    as (w' & E' & Hw'); try done.
  { cbn [c2s with_c2s]; rewrite P; unfold request_of; f_equal; unfold stored.
    rewrite length_take_le by lia; rewrite take_drop; done. }
  exists c, w'; split; [done|]; split; [done|].
  unfold served, dispatch_work_item in Hw'; cbn [req_cmd request_of] in Hw'; rewrite cmd_of_code in Hw'.
  destruct Hw' as (Hsrv & _ & _ & _ & Hp & _); rewrite Hsrv.
  split; [destruct stored; done|]; split; [done|lia].
Qed.

(** A read of 4 GiB or more never returns: the server sends the size modulo 2^32 bytes and the
    client waits for the rest on a connection that stays open. *)
Theorem read_gm_4gib_hangs (a : Z) (buf : list Z) (w : world sigma) :
  ready w -> 2 ^ 32 <= Z.of_nat (length buf) -> aeg_ipc_read_gm a buf w = None.
Proof.
  intros Hw Hbig; pose proof Hw as (Hfd & _ & _ & _ & Ps & _).
  set (n := Z.of_nat (length buf)) in *.
  pose proof (wrap_u_range 32 n ltac:(lia)) as Hr.
  destruct (send_await_ok READ_GM a n [] w ltac:(done) ltac:(done) eq_refl Hw) as (c & Es & Hv).
  unfold aeg_ipc_read_gm; fold n; destruct (Z.ltb_spec (g_fd w) 0); [lia|]; rewrite Es.
  set (w1 := await (with_c2s w c)) in *; clearbody w1.
  assert (Hv' : exists d, (length d < length buf)%nat /\ working (s2c w1) /\
            pending (s2c w1) = encode_response (ok_value 0) ++ d).
  { unfold served, dispatch_work_item in Hv; cbn [req_cmd req_arg1 req_arg2 request_of] in Hv.
    rewrite cmd_of_code, Ps in Hv; destruct (Z.ltb_spec 0 (u32 n)).
    - pose proof (PSReadGM_fills (u64 a) (u32 n) (sim (srv w)) ltac:(lia)) as Hfill.
      destruct (PSReadGM _ _ _) as [d x]; cbn [fst] in Hfill; exists d; split; [lia|tauto].
    - exists []; split; [cbn; lia|tauto]. }
  destruct Hv' as (d & Hd & Hs1 & P1); unfold read_gm_reply.
  destruct (recv_response_ok (s2c w1) (ok_value 0) d Hs1 ltac:(cbv; done) P1) as (c2 & -> & H2 & P2).
  cbn [andb negb resp_status ok_value]; change (STATUS_OK =? STATUS_OK) with true; cbn [negb].
  rewrite recv_all_waits by (rewrite ?P2; done); done.
Qed.

End Buffers.

(** * A lost server *)

Lemma recv_loop_eof ks n : (0 < n)%nat ->
  exists r, recv_loop ks [] true n [] = Some r /\ got_all r = false /\ got r = [].
Proof.
  intros Hn; destruct n as [|n]; [lia|].
  induction ks as [|k ks (r & E & Hr)]; [eexists; done|].
  destruct k; [exists r; done|eexists; done|eexists; done].
Qed.

Section Lost.
Context {sigma : Type} `{Simulator sigma}.

(** When the simulator is gone (its end of the connection closed), a register read returns zero
    at once: the connection error of the transaction does not reach the caller, who cannot tell
    it from a register that holds zero. *)
Theorem read32_of_lost_server_is_zero (Addr : Z) (w : world sigma) :
  0 <= g_fd w -> running (srv w) = false -> closed (s2c w) = true -> pending (s2c w) = [] ->
  exists w', ess_Read32 Addr w = Some (0, w') /\ srv w' = srv w.
Proof.
  intros Hfd Hrun Hcl Hp; unfold ess_Read32, do_transaction.
  destruct (Z.ltb_spec (g_fd w) 0); [lia|].
  destruct (send_request (c2s w) READ32 Addr 0 []) as [ok c]; destruct ok; cbn [negb]; [|eexists; done].
  assert (await (with_c2s w c) = with_c2s w c) as ->.
  { unfold await; cbn [server_run]; unfold serve_one; cbn [srv with_c2s]; rewrite Hrun; done. }
  cbn [s2c with_c2s]; unfold recv_response, recv_all; rewrite Hp, Hcl.
  destruct (recv_loop_eof (rsched (s2c w)) response_size ltac:(cbv; lia)) as (r & -> & -> & ->).
  eexists; done.
Qed.

End Lost.

(** * A concrete simulator *)

(** Registers, NPI registers and global memory as association lists, an allocator that hands out
    consecutive addresses, and the graphs set up with their work directories. *)
Record demo_sim := {
  regs : list (Z * Z);
  npi : list (Z * Z);
  gm : list (Z * Z);
  next : Z;
  graphs : list (list Z * list Z);
  plio : bool
}.

Definition look (k : Z) (m : list (Z * Z)) : Z :=
  match List.find (fun e => fst e =? k) m with Some e => snd e | None => 0 end.

#[export] Instance demo_simulator : Simulator demo_sim := {|
  PSWrite32 a d s := {| regs := (a, d) :: regs s; npi := npi s; gm := gm s; next := next s;
                        graphs := graphs s; plio := plio s |};
  PSRead32 a s := (u32 (look a (regs s)), s);
  PSNpiWrite32 a d s := {| regs := regs s; npi := (a, d) :: npi s; gm := gm s; next := next s;
                           graphs := graphs s; plio := plio s |};
  PSNpiRead32 a s := (u32 (look a (npi s)), s);
  PSWriteGM a data s := {| regs := regs s; npi := npi s;
                           gm := imap (fun i b => (a + Z.of_nat i, b)) data ++ gm s;
                           next := next s; graphs := graphs s; plio := plio s |};
  PSReadGM a n s := (map (fun i => look (a + Z.of_nat i) (gm s)) (seq 0 (Z.to_nat n)), s);
  PSStartPLIO s := {| regs := regs s; npi := npi s; gm := gm s; next := next s; graphs := graphs s; plio := true |};
  aeg_ipc_alloc_mem n s := (u64 (next s), {| regs := regs s; npi := npi s; gm := gm s; next := next s + n;
                                             graphs := graphs s; plio := plio s |});
  aeg_ipc_free_mem _ s := s;
  SetPartIsolationAfterRst := None;
  aeg_ipc_run_graph_init name wd s := (0, {| regs := regs s; npi := npi s; gm := gm s; next := next s;
                                             graphs := (name, wd) :: graphs s; plio := plio s |})
|}.

#[export] Instance demo_types : SimulatorTypes demo_sim.
Proof.
  constructor; intros; cbn.
  - apply wrap_u_range; lia.
  - apply wrap_u_range; lia.
  - rewrite length_map, length_seq; lia.
  - apply wrap_u_range; lia.
Qed.

(** Transfers cut into single bytes, with signals. *)
Definition demo_sched : list kernel := [interrupted; upto 0; upto 2; interrupted; upto 0; upto 4].
Definition demo_chan : chan := {| pending := []; closed := false; rsched := demo_sched; wsched := demo_sched |}.
Definition demo_world : world demo_sim :=
  {| g_fd := 3; g_gm_host_allocs := [(4096, {| dev_addr := 65536; alloc_size := 256 |})];
     c2s := demo_chan; s2c := demo_chan;
     srv := {| sim := {| regs := []; npi := []; gm := []; next := 131072; graphs := []; plio := false |};
               graph_return_value := 0; running := true; AIE_WORK_DIR := None |} |}.
Definition demo_ops : list ipc_op :=
  [OpGraphInit [103; 114]; OpWrite32 512 7; OpRead32 512; OpAllocGM 64; OpWriteGM 131072 [9; 8; 7];
   OpReadGM 131073 [0; 0]; OpStartPlios].

Lemma demo_ready : ready demo_world.
Proof. unfold ready, working, no_failure; cbn; repeat split; try lia; repeat constructor; done. Qed.

Lemma demo_allocs : allocs_ok (g_gm_host_allocs demo_world).
Proof. unfold allocs_ok, block_end; cbn; split; repeat constructor; cbn; lia. Qed.

Lemma ipc_session_transparent_witness :
  exists w', remote_session demo_ops demo_world = Some ([[0]; []; [7]; [131072]; []; [8; 7]; []], w') /\
    sim (srv w') = {| regs := [(512, 7)]; npi := []; gm := [(131072, 9); (131073, 8); (131074, 7)];
                      next := 131136; graphs := [([103; 114], default_work_dir)]; plio := true |} /\ ready w'.
Proof.
  assert (Hfit : Forall op_fits demo_ops) by (repeat constructor; cbn; lia).
  exact (ipc_session_transparent demo_ops demo_world demo_ready Hfit).
Defined.

Lemma host_alloc_resolves_witness :
  exists w', aeg_ipc_alloc_gm_host 128 8192 demo_world = Some (8192, w') /\ ready w' /\
    aeg_ipc_dev_addr (g_gm_host_allocs w') 8195 = 131075 /\ aeg_ipc_dev_addr (g_gm_host_allocs w') 4097 = 65537.
Proof.
  destruct (host_alloc_resolves 128 8192 131072 _ demo_world demo_ready demo_allocs ltac:(lia)
              ltac:(unfold fresh_block, block_end; cbn; repeat split; try lia; repeat constructor; cbn; lia) eq_refl ltac:(done))
    as (w' & E & Hr & _ & _ & Hd).
  exists w'; split; [exact E|]; split; [exact Hr|]; rewrite !Hd by lia; split; reflexivity.
Defined.

Lemma host_free_forgets_witness :
  exists w', aeg_ipc_free_gm_host 4096 demo_world = Some w' /\ ready w' /\
    aeg_ipc_dev_addr (g_gm_host_allocs w') 4097 = 0.
Proof.
  destruct (host_free_forgets 4096 {| dev_addr := 65536; alloc_size := 256 |} demo_world demo_ready demo_allocs eq_refl)
    as (w' & E & Hr & _ & _ & Hd).
  exists w'; split; [exact E|]; split; [exact Hr|]; rewrite Hd by lia; reflexivity.
Defined.

Lemma disconnect_delivers_exit_code_witness :
  exists w', aeg_ipc_backend_disconnect (-3) demo_world = Some w' /\ g_fd w' = -1 /\
    running (srv w') = false /\ graph_return_value (srv w') = -3 /\ sim (srv w') = sim (srv demo_world).
Proof. exact (disconnect_delivers_exit_code (-3) demo_world demo_ready). Defined.

Lemma four_gib : exists l : list Z, Z.of_nat (length l) = 2 ^ 32 + 5.
Proof. exists (replicate (Z.to_nat (2 ^ 32 + 5)) 0); rewrite length_replicate, Z2Nat.id; lia. Qed.

Lemma write_gm_4gib_desynchronises_witness :
  exists data c w', send_request (c2s demo_world) WRITE_GM 131072 (Z.of_nat (length data)) data = (true, c) /\
    serve_one (with_c2s demo_world c) = Some w' /\ Z.of_nat (length (pending (c2s w'))) = 2 ^ 32.
Proof.
  destruct four_gib as [data Hlen].
  destruct (write_gm_4gib_desynchronises 131072 data demo_world demo_ready ltac:(rewrite Hlen; lia))
    as (c & w' & E & E' & _ & Hp & Hl).
  exists data, c, w'; split; [exact E|]; split; [exact E'|].
  rewrite Hp, length_drop, length_take, Hlen.
  change (u32 (2 ^ 32 + 5)) with 5; lia.
Defined.

Lemma read_gm_4gib_hangs_witness : exists buf, aeg_ipc_read_gm 131072 buf demo_world = None.
Proof.
  destruct four_gib as [buf Hlen]; exists buf.
  apply (read_gm_4gib_hangs 131072 buf demo_world demo_ready); rewrite Hlen; lia.
Defined.

(** The system after the simulator has exited. *)
Definition lost_world : world demo_sim := server_stop demo_world.

Lemma read32_of_lost_server_is_zero_witness :
  exists w', ess_Read32 512 lost_world = Some (0, w') /\ srv w' = srv lost_world.
Proof. apply (read32_of_lost_server_is_zero 512 lost_world); cbn; lia || done. Defined.
