(* ===== verification/IpcServer.v ===== *)
(** The threads of the simulator's server ([src/ipc/aeg_ipc_server.cpp]): the socket thread of the
    application, one thread per read-only debug client, and the SystemC thread that alone calls
    the simulator, connected by a queue of shared work items.

    One step is what a thread does between two points where another may run; time passes on its own.
    Requests arrive as the wire of Ipc.v decodes them.  A work item is created by the thread that
    received the request, found in the queue by its number and shared with the SystemC thread,
    which marks it ready. *)
From stdpp Require Import base list relations.
From Stdlib Require Import ZArith Lia.
From S2P Require Import Prelude Ipc IpcFacts.
Local Open Scope Z_scope.

(** * State *)

Inductive origin := FromMain | FromDebug (i : nat).

(** [src/ipc/aeg_ipc_server.cpp:108-119] [ipc_work_item] *)
Record work_item := {
  wi_req : request;
  wi_data : list Z;
  wi_from : origin;
  wi_ready : bool;
  wi_resp : response
}.

(** Where the socket thread is: reading a request, waiting for its work item, past its loop,
    ended. *)
Inductive main_state := MRead | MWait (id : nat) | MHold | MDone.

(** A debug client's thread: reading a request, waiting for its work item, ended. *)
Inductive debug_state := DRead | DWait (id : nat) | DGone.

(** The SystemC thread: at the test of the outer loop, in the inner loop, after the dispatch of an
    item, at the end of a round of the outer loop, returned from [ps_main]. *)
Inductive sc_state := SHead | SInner | SAfter (id : nat) | SOuter | SReturned.

(** A dispatch: the item, its request and data, the reply. *)
Record dispatch_entry := { le_id : nat; le_req : request; le_data : list Z; le_resp : response }.

(** [src/ipc/aeg_ipc_server.cpp:121-139] globals of the server; [dispatched] records the calls of
    the dispatcher in their order, the replies what the clients were sent *)
Record sys (sigma : Type) := {
  items : list work_item;
  g_work_queue : list nat;
  main_thread : main_state;
  debug_threads : list debug_state;
  sc_thread : sc_state;
  core : server sigma;
  hold_sec : Z;
  now_ms : Z;
  g_exit_deadline_ms : Z;
  g_server_done : bool;
  g_ipc_exit_done : bool;
  g_ipc_exit_code : Z;
  dispatched : list dispatch_entry;
  main_replies : list (nat * response);
  debug_replies : list (nat * option nat * response)
}.
Arguments items {_}.
Arguments g_work_queue {_}.
Arguments main_thread {_}.
Arguments debug_threads {_}.
Arguments sc_thread {_}.
Arguments core {_}.
Arguments hold_sec {_}.
Arguments now_ms {_}.
Arguments g_exit_deadline_ms {_}.
Arguments g_server_done {_}.
Arguments g_ipc_exit_done {_}.
Arguments g_ipc_exit_code {_}.
Arguments dispatched {_}.
Arguments main_replies {_}.
Arguments debug_replies {_}.

Section Setters.
Context {sigma : Type}.
Implicit Types s : sys sigma.

Definition set_main (m : main_state) s : sys sigma :=
  {| items := items s; g_work_queue := g_work_queue s; main_thread := m; debug_threads := debug_threads s;
     sc_thread := sc_thread s; core := core s; hold_sec := hold_sec s; now_ms := now_ms s;
     g_exit_deadline_ms := g_exit_deadline_ms s; g_server_done := g_server_done s;
     g_ipc_exit_done := g_ipc_exit_done s; g_ipc_exit_code := g_ipc_exit_code s;
     dispatched := dispatched s; main_replies := main_replies s; debug_replies := debug_replies s |}.
Definition set_debug (d : list debug_state) s : sys sigma :=
  {| items := items s; g_work_queue := g_work_queue s; main_thread := main_thread s; debug_threads := d;
     sc_thread := sc_thread s; core := core s; hold_sec := hold_sec s; now_ms := now_ms s;
     g_exit_deadline_ms := g_exit_deadline_ms s; g_server_done := g_server_done s;
     g_ipc_exit_done := g_ipc_exit_done s; g_ipc_exit_code := g_ipc_exit_code s;
     dispatched := dispatched s; main_replies := main_replies s; debug_replies := debug_replies s |}.
Definition set_sc (c : sc_state) s : sys sigma :=
  {| items := items s; g_work_queue := g_work_queue s; main_thread := main_thread s;
     debug_threads := debug_threads s; sc_thread := c; core := core s; hold_sec := hold_sec s; now_ms := now_ms s;
     g_exit_deadline_ms := g_exit_deadline_ms s; g_server_done := g_server_done s;
     g_ipc_exit_done := g_ipc_exit_done s; g_ipc_exit_code := g_ipc_exit_code s;
     dispatched := dispatched s; main_replies := main_replies s; debug_replies := debug_replies s |}.
Definition set_exit (deadline : Z) (done : bool) (code : Z) s : sys sigma :=
  {| items := items s; g_work_queue := g_work_queue s; main_thread := main_thread s;
     debug_threads := debug_threads s; sc_thread := sc_thread s; core := core s; hold_sec := hold_sec s;
     now_ms := now_ms s; g_exit_deadline_ms := deadline; g_server_done := g_server_done s;
     g_ipc_exit_done := done; g_ipc_exit_code := code;
     dispatched := dispatched s; main_replies := main_replies s; debug_replies := debug_replies s |}.
Definition set_done s : sys sigma :=
  {| items := items s; g_work_queue := g_work_queue s; main_thread := main_thread s;
     debug_threads := debug_threads s; sc_thread := sc_thread s; core := core s; hold_sec := hold_sec s;
     now_ms := now_ms s; g_exit_deadline_ms := g_exit_deadline_ms s; g_server_done := true;
     g_ipc_exit_done := g_ipc_exit_done s; g_ipc_exit_code := g_ipc_exit_code s;
     dispatched := dispatched s; main_replies := main_replies s; debug_replies := debug_replies s |}.
Definition set_now (t : Z) s : sys sigma :=
  {| items := items s; g_work_queue := g_work_queue s; main_thread := main_thread s;
     debug_threads := debug_threads s; sc_thread := sc_thread s; core := core s; hold_sec := hold_sec s;
     now_ms := t; g_exit_deadline_ms := g_exit_deadline_ms s; g_server_done := g_server_done s;
     g_ipc_exit_done := g_ipc_exit_done s; g_ipc_exit_code := g_ipc_exit_code s;
     dispatched := dispatched s; main_replies := main_replies s; debug_replies := debug_replies s |}.
Definition add_main_reply (r : nat * response) s : sys sigma :=
  {| items := items s; g_work_queue := g_work_queue s; main_thread := main_thread s;
     debug_threads := debug_threads s; sc_thread := sc_thread s; core := core s; hold_sec := hold_sec s;
     now_ms := now_ms s; g_exit_deadline_ms := g_exit_deadline_ms s; g_server_done := g_server_done s;
     g_ipc_exit_done := g_ipc_exit_done s; g_ipc_exit_code := g_ipc_exit_code s;
     dispatched := dispatched s; main_replies := main_replies s ++ [r]; debug_replies := debug_replies s |}.
Definition add_debug_reply (r : nat * option nat * response) s : sys sigma :=
  {| items := items s; g_work_queue := g_work_queue s; main_thread := main_thread s;
     debug_threads := debug_threads s; sc_thread := sc_thread s; core := core s; hold_sec := hold_sec s;
     now_ms := now_ms s; g_exit_deadline_ms := g_exit_deadline_ms s; g_server_done := g_server_done s;
     g_ipc_exit_done := g_ipc_exit_done s; g_ipc_exit_code := g_ipc_exit_code s;
     dispatched := dispatched s; main_replies := main_replies s; debug_replies := debug_replies s ++ [r] |}.

(** [src/ipc/aeg_ipc_server.cpp:180-193] [enqueue_work] *)
Definition enqueue_work (from : origin) (req : request) (payload : list Z) s : sys sigma :=
  let item := {| wi_req := req; wi_data := payload; wi_from := from; wi_ready := false;
                 wi_resp := err_status 0 |} in
  {| items := items s ++ [item]; g_work_queue := g_work_queue s ++ [length (items s)];
     main_thread := main_thread s; debug_threads := debug_threads s; sc_thread := sc_thread s; core := core s;
     hold_sec := hold_sec s; now_ms := now_ms s; g_exit_deadline_ms := g_exit_deadline_ms s;
     g_server_done := g_server_done s; g_ipc_exit_done := g_ipc_exit_done s;
     g_ipc_exit_code := g_ipc_exit_code s; dispatched := dispatched s; main_replies := main_replies s;
     debug_replies := debug_replies s |}.

(** [src/ipc/aeg_ipc_server.cpp:163-173] [arm_exit_hold] *)
Definition arm_exit_hold s : bool * sys sigma :=
  if hold_sec s =? 0 then (false, s)
  else if g_exit_deadline_ms s =? -1 then
    (true, set_exit (now_ms s + hold_sec s * 1000) (g_ipc_exit_done s) (g_ipc_exit_code s) s)
  else (true, s).

(** Arming changes the deadline only, and always reports a hold as set. *)
Lemma arm_exit_hold_eq s :
  exists b d, arm_exit_hold s = (b, set_exit d (g_ipc_exit_done s) (g_ipc_exit_code s) s) /\
    b = negb (hold_sec s =? 0).
Proof.
  unfold arm_exit_hold; destruct (hold_sec s =? 0); [|destruct (g_exit_deadline_ms s =? -1)].
  - exists false, (g_exit_deadline_ms s); destruct s; done.
  - eexists _, _; done.
  - exists true, (g_exit_deadline_ms s); destruct s; done.
Qed.

(** [src/ipc/aeg_ipc_server.cpp:175-178] [exit_hold_active] *)
Definition exit_hold_active s : bool :=
  (0 <=? g_exit_deadline_ms s) && (now_ms s <? g_exit_deadline_ms s).

End Setters.

(** * Steps *)

(** What happens next: the application's request is read or its connection ends; the socket thread
    is woken, or looks whether to end; a debug client connects, sends a request, is woken or
    leaves; the SystemC thread goes on; time passes. *)
Inductive label :=
| LMainRequest (req : request) (payload : list Z)
| LMainClosed
| LMainWake
| LMainEnd
| LDebugConnect
| LDebugRequest (i : nat) (req : request)
| LDebugWake (i : nat)
| LDebugClosed (i : nat)
| LSystemC
| LTime (ms : nat).

Definition is_exit (req : request) : bool :=
  match cmd_of (req_cmd req) with Some EXIT => true | _ => false end.
Definition is_ping (req : request) : bool :=
  match cmd_of (req_cmd req) with Some PING => true | _ => false end.
Definition is_read (req : request) : bool :=
  match cmd_of (req_cmd req) with Some READ32 | Some NPI_READ32 => true | _ => false end.

Section Steps.
Context {sigma : Type} `{Simulator sigma}.
Implicit Types s : sys sigma.

(** [src/ipc/aeg_ipc_server.cpp:588-599] [ps_main] the first item of the queue is taken out and
    dispatched; [src/ipc/aeg_ipc_server.cpp:313-317] marks it ready *)
Definition sc_dispatch (id : nat) (q : list nat) (it : work_item) s : sys sigma :=
  let '(resp, data, c) := dispatch_work_item (wi_req it) (wi_data it) (core s) in
  let it' := {| wi_req := wi_req it; wi_data := data; wi_from := wi_from it; wi_ready := true; wi_resp := resp |} in
  {| items := <[id := it']> (items s); g_work_queue := q; main_thread := main_thread s;
     debug_threads := debug_threads s; sc_thread := SAfter id; core := c; hold_sec := hold_sec s;
     now_ms := now_ms s; g_exit_deadline_ms := g_exit_deadline_ms s; g_server_done := g_server_done s;
     g_ipc_exit_done := g_ipc_exit_done s; g_ipc_exit_code := g_ipc_exit_code s;
     dispatched := dispatched s ++ [{| le_id := id; le_req := wi_req it; le_data := wi_data it; le_resp := resp |}];
     main_replies := main_replies s; debug_replies := debug_replies s |}.

(** [src/ipc/aeg_ipc_server.cpp:601-608] [ps_main] the end of the run requested by [EXIT] *)
Definition sc_exit s : sys sigma :=
  let '(held, s) := arm_exit_hold s in
  if held then s
  else set_exit (g_exit_deadline_ms s) true (graph_return_value (core s)) s.

(** [src/ipc/aeg_ipc_server.cpp:619-633] [ps_main] the end of a round: has the hold elapsed? *)
Definition sc_check_hold s : sys sigma :=
  if (0 <=? g_exit_deadline_ms s) && negb (exit_hold_active s)
  then set_exit (g_exit_deadline_ms s) true (graph_return_value (core s)) s
  else s.

(** [src/ipc/aeg_ipc_server.cpp:584-636] [ps_main] the next step of the SystemC thread *)
Definition sc_step s : option (sys sigma) :=
  match sc_thread s with
  | SHead => Some (set_sc (if g_ipc_exit_done s then SReturned else SInner) s)
  | SInner =>
      match g_work_queue s with
      | [] => Some (set_sc SOuter s)
      | id :: q => match items s !! id with Some it => Some (sc_dispatch id q it s) | None => None end
      end
  | SAfter id =>
      match items s !! id with
      | Some it => Some (if is_exit (wi_req it) then set_sc SOuter (sc_exit s) else set_sc SInner s)
      | None => None
      end
  | SOuter => Some (set_sc SHead (sc_check_hold s))
  | SReturned => None
  end.

(** [src/ipc/aeg_ipc_server.cpp:441-492] [run_ps_ipc_server_thread] a request was read whole *)
Definition main_request (req : request) (payload : list Z) s : option (sys sigma) :=
  match main_thread s with
  | MRead =>
      if is_ping req then Some s
      else Some (set_main (MWait (length (items s))) (enqueue_work FromMain req payload s))
  | _ => None
  end.

(** [src/ipc/aeg_ipc_server.cpp:444-458] [run_ps_ipc_server_thread] the connection has ended *)
Definition main_closed s : option (sys sigma) :=
  match main_thread s with
  | MRead =>
      let '(held, s) := arm_exit_hold s in
      Some (set_main MHold (if held then s else set_exit (g_exit_deadline_ms s) true (g_ipc_exit_code s) s))
  | _ => None
  end.

(** [src/ipc/aeg_ipc_server.cpp:486-498] [run_ps_ipc_server_thread] the work item is ready *)
Definition main_wake s : option (sys sigma) :=
  match main_thread s with
  | MWait id =>
      match items s !! id with
      | Some it =>
          if wi_ready it then
            Some (add_main_reply (id, wi_resp it) (set_main (if is_exit (wi_req it) then MHold else MRead) s))
          else None
      | None => None
      end
  | _ => None
  end.

(** [src/ipc/aeg_ipc_server.cpp:505-524] [run_ps_ipc_server_thread] past the hold: no debug client
    is accepted any more *)
Definition main_end s : option (sys sigma) :=
  match main_thread s with
  | MHold => if exit_hold_active s then None else Some (set_main MDone (set_done s))
  | _ => None
  end.

(** [src/ipc/aeg_ipc_server.cpp:350-386] [run_debug_socket_thread] a client connects *)
Definition debug_connect s : option (sys sigma) :=
  if g_server_done s then None else Some (set_debug (debug_threads s ++ [DRead]) s).

(** [src/ipc/aeg_ipc_server.cpp:322-329] [run_debug_client_thread] a request; only register reads
    are passed on *)
Definition debug_request (i : nat) (req : request) s : option (sys sigma) :=
  match debug_threads s !! i with
  | Some DRead =>
      if is_read req then
        Some (set_debug (<[i := DWait (length (items s))]> (debug_threads s))
                (enqueue_work (FromDebug i) req [] s))
      else Some (add_debug_reply (i, None, err_status STATUS_ERR_PROTO) s)
  | _ => None
  end.

(** [src/ipc/aeg_ipc_server.cpp:330-345] [run_debug_client_thread] the item is ready, or the server
    is done *)
Definition debug_wake (i : nat) s : option (sys sigma) :=
  match debug_threads s !! i with
  | Some (DWait id) =>
      match items s !! id with
      | Some it =>
          let s' := set_debug (<[i := DRead]> (debug_threads s)) s in
          if wi_ready it then Some (add_debug_reply (i, Some id, wi_resp it) s')
          else if g_server_done s then Some (add_debug_reply (i, Some id, err_status STATUS_ERR_IO) s')
          else None
      | None => None
      end
  | _ => None
  end.

(** [src/ipc/aeg_ipc_server.cpp:324-347] [run_debug_client_thread] the client is gone *)
Definition debug_closed (i : nat) s : option (sys sigma) :=
  match debug_threads s !! i with
  | Some DRead => Some (set_debug (<[i := DGone]> (debug_threads s)) s)
  | _ => None
  end.

Definition step (l : label) (s : sys sigma) : option (sys sigma) :=
  match l with
  | LMainRequest req payload => main_request req payload s
  | LMainClosed => main_closed s
  | LMainWake => main_wake s
  | LMainEnd => main_end s
  | LDebugConnect => debug_connect s
  | LDebugRequest i req => debug_request i req s
  | LDebugWake i => debug_wake i s
  | LDebugClosed i => debug_closed i s
  | LSystemC => sc_step s
  | LTime ms => Some (set_now (now_ms s + Z.of_nat ms) s)
  end.

Fixpoint run (ls : list label) (s : sys sigma) : option (sys sigma) :=
  match ls with
  | [] => Some s
  | l :: ls => match step l s with Some s => run ls s | None => None end
  end.

Lemma run_app ls1 ls2 s : run (ls1 ++ ls2) s = match run ls1 s with Some s => run ls2 s | None => None end.
Proof. revert s; induction ls1 as [|l ls1 IH]; intros s; cbn; [done|]; destruct (step l s); [apply IH|done]. Qed.

(** [src/ipc/aeg_ipc_server.cpp:557-584] [ps_main] the server when its threads have started *)
Definition start (c : server sigma) (hold : Z) : sys sigma :=
  {| items := []; g_work_queue := []; main_thread := MRead; debug_threads := []; sc_thread := SHead;
     core := c; hold_sec := hold; now_ms := 0; g_exit_deadline_ms := -1; g_server_done := false;
     g_ipc_exit_done := false; g_ipc_exit_code := 0; dispatched := []; main_replies := [];
     debug_replies := [] |}.

Definition reachable (c : server sigma) (hold : Z) (s : sys sigma) : Prop :=
  exists ls, run ls (start c hold) = Some s.

End Steps.

(** * The queue *)

Section Queue.
Context {sigma : Type} `{Simulator sigma}.
Implicit Types s : sys sigma.

(** The dispatches [log] made one after the other take the server from [c] to [c'] and give the
    replies recorded. *)
Fixpoint serial (c : server sigma) (log : list dispatch_entry) (c' : server sigma) : Prop :=
  match log with
  | [] => c = c'
  | e :: log =>
      let '(r, _, c1) := dispatch_work_item (le_req e) (le_data e) c in
      le_resp e = r /\ serial c1 log c'
  end.

Lemma serial_snoc c log c1 e r d c2 :
  serial c log c1 -> dispatch_work_item (le_req e) (le_data e) c1 = (r, d, c2) -> le_resp e = r ->
  serial c (log ++ [e]) c2.
Proof.
  revert c; induction log as [|e0 log IH]; intros c Hs E Hr; cbn in *; [subst; rewrite E; done|].
  destruct (dispatch_work_item (le_req e0) (le_data e0) c) as [[? ?] c3]; destruct Hs; split; auto.
Qed.

Definition new_item (from : origin) (req : request) (payload : list Z) : work_item :=
  {| wi_req := req; wi_data := payload; wi_from := from; wi_ready := false; wi_resp := err_status 0 |}.

(** The parts of the state the queue is made of. *)
Definition same_queue (s s' : sys sigma) : Prop :=
  items s' = items s /\ g_work_queue s' = g_work_queue s /\ dispatched s' = dispatched s /\ core s' = core s.
Definition enqueued (from : origin) (req : request) (payload : list Z) (s s' : sys sigma) : Prop :=
  items s' = items s ++ [new_item from req payload] /\
  g_work_queue s' = g_work_queue s ++ [length (items s)] /\
  dispatched s' = dispatched s /\ core s' = core s /\
  match from with FromMain => main_thread s = MRead | FromDebug _ => is_read req = true end.

(** Every step leaves the queue, puts an item in, or dispatches the first one. *)
Lemma step_queue l s s' :
  step l s = Some s' ->
  same_queue s s' \/ (exists from req payload, enqueued from req payload s s') \/
  (l = LSystemC /\ sc_thread s = SInner /\
   exists id q it, g_work_queue s = id :: q /\ items s !! id = Some it /\ s' = sc_dispatch id q it s).
Proof.
  destruct l as [req p| | | | |i req|i|i| |t]; cbn [step].
  - unfold main_request; destruct (main_thread s) eqn:Hm; try done.
    destruct (is_ping req); intros; simplify_eq; [left; done|].
    right; left; exists FromMain, req, p; done.
  - unfold main_closed, arm_exit_hold; intros; left; repeat case_match; simplify_eq; done.
  - unfold main_wake; intros; left; repeat case_match; simplify_eq; done.
  - unfold main_end; intros; left; repeat case_match; simplify_eq; done.
  - unfold debug_connect; intros; left; repeat case_match; simplify_eq; done.
  - unfold debug_request; destruct (debug_threads s !! i) as [[]|]; try done.
    destruct (is_read req) eqn:Er; intros; simplify_eq; [|left; done].
    right; left; exists (FromDebug i), req, []; done.
  - unfold debug_wake; intros; left; repeat case_match; simplify_eq; done.
  - unfold debug_closed; intros; left; repeat case_match; simplify_eq; done.
  - unfold sc_step, sc_exit, sc_check_hold, arm_exit_hold.
    destruct (sc_thread s) eqn:Hsc; intros Hs; try (left; repeat case_match; simplify_eq; done).
    destruct (g_work_queue s) as [|id q] eqn:Hq; [left; simplify_eq; done|].
    destruct (items s !! id) as [it|] eqn:Hit; simplify_eq; right; right; eauto 10.
  - intros; simplify_eq; left; done.
Qed.

(** First in, first out; the calls of the simulator are serial; a ready item carries the reply of
    its dispatch; debug clients only read. *)
Record queue_inv (c0 : server sigma) (s : sys sigma) : Prop := {
  q_fifo : map le_id (dispatched s) ++ g_work_queue s = seq 0 (length (items s));
  q_serial : serial c0 (dispatched s) (core s);
  q_ready : forall id it, items s !! id = Some it -> wi_ready it = true ->
    exists e, e ∈ dispatched s /\ le_id e = id /\ le_resp e = wi_resp it;
  q_waiting : forall id it, items s !! id = Some it -> wi_ready it = false -> id ∈ g_work_queue s;
  q_queued : forall id, id ∈ g_work_queue s -> exists it, items s !! id = Some it /\ wi_ready it = false;
  q_debug : forall id it i, items s !! id = Some it -> wi_from it = FromDebug i -> is_read (wi_req it) = true;
  q_log : forall e, e ∈ dispatched s -> exists it, items s !! le_id e = Some it /\ le_req e = wi_req it
}.

Lemma queue_inv_start c hold : queue_inv c (start c hold).
Proof. split; cbn; try done; intros; set_solver. Qed.

Lemma queue_inv_same c s s' : same_queue s s' -> queue_inv c s -> queue_inv c s'.
Proof.
  intros (Hi & Hq & Hd & Hc) [F1 F2 F3 F4 F5 F6 F7].
  split; rewrite ?Hi, ?Hq, ?Hd, ?Hc; done.
Qed.

Lemma lookup_snoc_cases {A} (l : list A) x i y :
  (l ++ [x]) !! i = Some y -> l !! i = Some y \/ (i = length l /\ y = x).
Proof.
  intros [?|[Hge Hl]]%lookup_app_Some; [auto|]; right.
  apply list_lookup_singleton_Some in Hl as [? ->]; split; [lia|done].
Qed.

Lemma queue_inv_enqueue c from req payload s s' :
  enqueued from req payload s s' -> queue_inv c s -> queue_inv c s'.
Proof.
  intros (Hi & Hq & Hd & Hc & Hf) [F1 F2 F3 F4 F5 F6 F7].
  split; rewrite ?Hi, ?Hq, ?Hd, ?Hc; try done.
  - rewrite app_assoc, F1, length_app; cbn; rewrite seq_app; done.
  - intros id it [Hl|[-> ->]]%lookup_snoc_cases Hr; [eauto|done].
  - intros id it [Hl|[-> ->]]%lookup_snoc_cases Hr; set_solver.
  - intros id [Hin| ->%list_elem_of_singleton]%elem_of_app.
    + destruct (F5 id Hin) as (it & Hit & ?); exists it; split; [apply lookup_app_l_Some|]; done.
    + eexists; split; [rewrite lookup_app_r, Nat.sub_diag by lia|]; done.
  - intros id it i [Hl|[-> ->]]%lookup_snoc_cases Hr; [eauto|]; cbn in *; subst from; done.
  - intros e He; destruct (F7 e He) as (it & Hit & ?); exists it; split; [apply lookup_app_l_Some|]; done.
Qed.

Lemma queue_inv_dispatch c id q it s :
  g_work_queue s = id :: q -> items s !! id = Some it ->
  queue_inv c s -> queue_inv c (sc_dispatch id q it s).
Proof.
  intros Hq Hit [F1 F2 F3 F4 F5 F6 F7]; unfold sc_dispatch.
  destruct (dispatch_work_item (wi_req it) (wi_data it) (core s)) as [[resp data] c'] eqn:E.
  rewrite Hq in *.
  assert (Hnd : id ∉ q).
  { pose proof (NoDup_seq 0 (length (items s))) as Hn; rewrite <- F1 in Hn.
    apply NoDup_app in Hn as (_ & _ & Hn); apply NoDup_cons in Hn; tauto. }
  assert (Hlt : (id < length (items s))%nat) by (eapply lookup_lt_Some; done).
  split; cbn.
  - rewrite map_app, <- app_assoc, length_insert; exact F1.
  - eapply serial_snoc; [exact F2|cbn; exact E|done].
  - intros j jt [(<- & <- & _)|[Hne Hj]]%list_lookup_insert_Some Hr.
    + eexists; split; [apply elem_of_app; right; apply list_elem_of_singleton; reflexivity|done].
    + destruct (F3 j jt Hj Hr) as (e & He & ?); exists e; split; [apply elem_of_app; auto|done].
  - intros j jt [(<- & <- & _)|[Hne Hj]]%list_lookup_insert_Some Hr; [done|].
    pose proof (F4 j jt Hj Hr) as [->|]%elem_of_cons; done.
  - intros j Hj; destruct (F5 j ltac:(apply elem_of_cons; auto)) as (jt & Hl & Hr).
    exists jt; split; [rewrite list_lookup_insert_ne; [done|intros ->; done]|done].
  - intros j jt i [(<- & <- & _)|[Hne Hj]]%list_lookup_insert_Some Hr; cbn in *; eauto.
  - intros e [He| ->%list_elem_of_singleton]%elem_of_app; cbn.
    + destruct (F7 e He) as (jt & Hl & Hr); destruct (decide (id = le_id e)) as [->|Hne].
      * rewrite Hl in Hit; simplify_eq; eexists; split; [apply list_lookup_insert_eq; done|done].
      * exists jt; rewrite list_lookup_insert_ne by done; done.
    + eexists; split; [apply list_lookup_insert_eq; done|done].
Qed.

Lemma queue_inv_step c l s s' : queue_inv c s -> step l s = Some s' -> queue_inv c s'.
Proof.
  intros Hi [Hs|[(f & r & p & Hs)|(_ & _ & id & q & it & Hq & Hit & ->)]]%step_queue;
    eauto using queue_inv_same, queue_inv_enqueue, queue_inv_dispatch.
Qed.

End Queue.

(** * Replies *)

Section Replies.
Context {sigma : Type} `{Simulator sigma}.
Implicit Types s : sys sigma.

(** Items keep their request and their sender, and do not change once they are ready. *)
Definition items_le (l l' : list work_item) : Prop :=
  forall id it, l !! id = Some it ->
    exists it', l' !! id = Some it' /\ wi_req it' = wi_req it /\ wi_from it' = wi_from it /\
      (wi_ready it = true -> it' = it).

#[local] Instance items_le_refl : Reflexive items_le.
Proof. intros l id it Hit; exists it; done. Qed.

Lemma items_le_snoc l x : items_le l (l ++ [x]).
Proof. intros id it Hit; exists it; split; [apply lookup_app_l_Some|]; done. Qed.

Lemma step_items c l s s' : queue_inv c s -> step l s = Some s' -> items_le (items s) (items s').
Proof.
  intros Hi [(-> & _)|[(f & r & p & -> & _)|(_ & _ & id & q & it & Hq & Hit & ->)]]%step_queue.
  - done.
  - apply items_le_snoc.
  - unfold sc_dispatch; destruct (dispatch_work_item _ _ _) as [[resp data] c']; cbn.
    intros j jt Hj; destruct (decide (id = j)) as [<-|Hne].
    + rewrite Hit in Hj; simplify_eq; eexists; split; [apply list_lookup_insert_eq; by eapply lookup_lt_Some|].
      split; [done|]; split; [done|]; intros Hr.
      destruct (q_queued _ _ Hi id) as (it' & Hit' & Hr'); [rewrite Hq; apply elem_of_cons; auto|]; congruence.
    + exists jt; rewrite list_lookup_insert_ne by done; done.
Qed.

(** Who waits for what, and what was sent. *)
Record reply_inv (s : sys sigma) : Prop := {
  r_main_wait : forall id, main_thread s = MWait id ->
    exists it, items s !! id = Some it /\ wi_from it = FromMain;
  r_debug_wait : forall i id, debug_threads s !! i = Some (DWait id) ->
    exists it, items s !! id = Some it /\ wi_from it = FromDebug i;
  r_main : forall id r, (id, r) ∈ main_replies s ->
    exists it, items s !! id = Some it /\ wi_from it = FromMain /\ wi_ready it = true /\ wi_resp it = r;
  r_debug : forall i id r, (i, Some id, r) ∈ debug_replies s ->
    exists it, items s !! id = Some it /\ wi_from it = FromDebug i /\
      (wi_ready it = true /\ wi_resp it = r \/ r = err_status STATUS_ERR_IO /\ g_server_done s = true);
  r_refused : forall i r, (i, None, r) ∈ debug_replies s -> r = err_status STATUS_ERR_PROTO
}.

Lemma reply_inv_start c hold : reply_inv (start c hold).
Proof. split; cbn; try done; intros; set_solver. Qed.

(** The replies survive a step that only lets items grow and sends nothing. *)
Lemma reply_inv_mono s s' :
  items_le (items s) (items s') -> reply_inv s ->
  (main_thread s' = main_thread s \/ main_thread s' = MRead \/ main_thread s' = MHold \/ main_thread s' = MDone \/
   exists it, main_thread s' = MWait (length (items s)) /\ items s' !! length (items s) = Some it /\ wi_from it = FromMain) ->
  (forall i id, debug_threads s' !! i = Some (DWait id) ->
     debug_threads s !! i = Some (DWait id) \/
     exists it, items s' !! id = Some it /\ wi_from it = FromDebug i) ->
  main_replies s' = main_replies s -> debug_replies s' = debug_replies s ->
  (g_server_done s = true -> g_server_done s' = true) -> reply_inv s'.
Proof.
  intros Hle [R1 R2 R3 R4 R5] Hm Hd Em Ed Hdone; split; rewrite ?Em, ?Ed.
  - intros id E; destruct Hm as [Hm|[Hm|[Hm|[Hm|(it & Hm & Hit & Hf)]]]]; rewrite Hm in E; simplify_eq; [|eauto].
    destruct (R1 id E) as (it & Hit & Hf); destruct (Hle _ _ Hit) as (it' & ? & _ & Hf' & _).
    exists it'; rewrite Hf'; done.
  - intros i id [Hw|?]%Hd; [|done].
    destruct (R2 i id Hw) as (it & Hit & Hf); destruct (Hle _ _ Hit) as (it' & ? & _ & Hf' & _).
    exists it'; rewrite Hf'; done.
  - intros id r (it & Hit & Hf & Hr & Hv)%R3; destruct (Hle _ _ Hit) as (it' & ? & _ & _ & Heq).
    rewrite (Heq Hr) in *; eauto.
  - intros i id r (it & Hit & Hf & Hv)%R4; destruct (Hle _ _ Hit) as (it' & ? & _ & Hf' & Heq).
    exists it'; split; [done|]; split; [congruence|].
    destruct Hv as [[Hr Hv]|[Hr Hg]]; [left; rewrite (Heq Hr); done|right; auto].
  - exact R5.
Qed.

Lemma debug_insert_wait (ds : list debug_state) i j d id :
  (<[i := d]> ds) !! j = Some (DWait id) -> (i = j /\ d = DWait id) \/ ds !! j = Some (DWait id).
Proof. intros [(-> & -> & _)|[_ ?]]%list_lookup_insert_Some; auto. Qed.

Lemma reply_inv_step c l s s' : queue_inv c s -> reply_inv s -> step l s = Some s' -> reply_inv s'.
Proof.
  intros Hq Hr Hs; pose proof (step_items c l s s' Hq Hs) as Hle.
  destruct l as [req p| | | | |i req|i|i| |t]; cbn [step] in Hs.
  - unfold main_request in Hs; destruct (main_thread s) eqn:Hm; try done.
    destruct (is_ping req); simplify_eq; [done|].
    apply (reply_inv_mono s); cbn; eauto 10.
    right; right; right; right; eexists; split; [done|]; rewrite lookup_app_r, Nat.sub_diag by lia; done.
  - unfold main_closed in Hs; destruct (main_thread s) eqn:Hm; try done.
    destruct (arm_exit_hold_eq s) as ([] & d & E & _); rewrite E in Hs; simplify_eq;
      apply (reply_inv_mono s); cbn; eauto 10.
  - unfold main_wake in Hs; destruct (main_thread s) as [|id| |] eqn:Hm; try done.
    destruct (items s !! id) as [it|] eqn:Hit; [|done]; destruct (wi_ready it) eqn:Hrd; simplify_eq.
    destruct Hr as [R1 R2 R3 R4 R5]; destruct (R1 id Hm) as (it' & Hit' & Hf); simplify_eq.
    split; cbn; try done.
    + destruct (is_exit _); done.
    + intros j r [Hj|Hj%list_elem_of_singleton]%elem_of_app; [eauto|]; simplify_eq; eauto.
  - unfold main_end in Hs; repeat case_match; simplify_eq; apply (reply_inv_mono s); cbn; eauto 10.
  - unfold debug_connect in Hs; case_match; simplify_eq; apply (reply_inv_mono s); cbn; eauto.
    intros i id [?|[_ ?]]%lookup_snoc_cases; [auto|done].
  - unfold debug_request in Hs; destruct (debug_threads s !! i) as [[]|] eqn:Hd; try done.
    destruct (is_read req); simplify_eq.
    + apply (reply_inv_mono s); cbn; eauto.
      intros j id [[<- [= <-]]|?]%debug_insert_wait; [right|auto].
      eexists; rewrite lookup_app_r, Nat.sub_diag by lia; done.
    + destruct Hr as [R1 R2 R3 R4 R5]; split; cbn; try done.
      * intros j id r [Hj|Hj%list_elem_of_singleton]%elem_of_app; [eauto|done].
      * intros j r [Hj|Hj%list_elem_of_singleton]%elem_of_app; [eauto|]; simplify_eq; done.
  - unfold debug_wake in Hs; destruct (debug_threads s !! i) as [[|id|]|] eqn:Hd; try done.
    destruct (items s !! id) as [it|] eqn:Hit; [|done].
    destruct Hr as [R1 R2 R3 R4 R5]; destruct (R2 i id Hd) as (it' & Hit' & Hf); simplify_eq.
    destruct (wi_ready it) eqn:Hrd; [|destruct (g_server_done s) eqn:Hg]; simplify_eq; (split; cbn; try done).
    1, 4: intros j k [[_ ?]|?]%debug_insert_wait; [done|eauto].
    1, 3: intros j k r [Hj|Hj%list_elem_of_singleton]%elem_of_app; rewrite ?Hg; [eauto|]; simplify_eq; eauto 10.
    all: intros j r [Hj|Hj%list_elem_of_singleton]%elem_of_app; [eauto|done].
  - unfold debug_closed in Hs; repeat case_match; simplify_eq; apply (reply_inv_mono s); cbn; eauto.
    intros j k [[_ ?]|?]%debug_insert_wait; [done|auto].
  - assert (main_thread s' = main_thread s /\ debug_threads s' = debug_threads s /\ main_replies s' = main_replies s /\
            debug_replies s' = debug_replies s /\ g_server_done s' = g_server_done s) as (E1 & E2 & E3 & E4 & E5).
    { unfold sc_step, sc_dispatch, sc_exit, sc_check_hold in Hs.
      destruct (arm_exit_hold_eq s) as ([] & d & E & _); rewrite E in Hs;
        repeat case_match; simplify_eq; done. }
    apply (reply_inv_mono s); rewrite ?E1, ?E2, ?E5; eauto.
  - simplify_eq; apply (reply_inv_mono s); cbn; eauto.
Qed.

End Replies.

(** * The end of a run *)

Section Exit.
Context {sigma : Type} `{Simulator sigma}.
Implicit Types s : sys sigma.

(** The application has been told that the run ends, or will be when its thread is next woken. *)
Definition past_exit s : Prop :=
  main_thread s = MHold \/ main_thread s = MDone \/
  exists id it, main_thread s = MWait id /\ items s !! id = Some it /\ wi_ready it = true /\
    is_exit (wi_req it) = true.

(** The socket thread has at most one item in the queue; the run is not ended behind its back. *)
Record exit_inv (s : sys sigma) : Prop := {
  x_pend : forall id it, id ∈ g_work_queue s -> items s !! id = Some it -> wi_from it = FromMain ->
    main_thread s = MWait id;
  x_after : forall id, sc_thread s = SAfter id ->
    exists it, items s !! id = Some it /\ wi_ready it = true /\ (is_exit (wi_req it) = true -> past_exit s);
  x_quiet : g_ipc_exit_done s = true \/ g_exit_deadline_ms s <> -1 -> past_exit s;
  x_returned : sc_thread s = SReturned -> g_ipc_exit_done s = true
}.

Lemma exit_inv_start c hold : exit_inv (start c hold).
Proof. split; cbn; try done; intros [?|?]; done. Qed.

Lemma past_exit_mono s s' :
  items_le (items s) (items s') -> main_thread s' = main_thread s -> past_exit s -> past_exit s'.
Proof.
  intros Hle Hm [Hp|[Hp|(id & it & Hp & Hit & Hr & Hx)]]; [left; congruence|right; left; congruence|].
  destruct (Hle _ _ Hit) as (it' & Hit' & _ & _ & Heq); rewrite (Heq Hr) in Hit'.
  right; right; exists id, it; rewrite Hm; done.
Qed.

Lemma past_exit_not_reading s : main_thread s = MRead -> past_exit s -> False.
Proof. intros Hm [Hp|[Hp|(id & it & Hp & _)]]; congruence. Qed.

Lemma after_mono s s' id :
  items_le (items s) (items s') -> (past_exit s -> past_exit s') ->
  (exists it, items s !! id = Some it /\ wi_ready it = true /\ (is_exit (wi_req it) = true -> past_exit s)) ->
  exists it, items s' !! id = Some it /\ wi_ready it = true /\ (is_exit (wi_req it) = true -> past_exit s').
Proof.
  intros Hle Hp (it & Hit & Hr & Hx); destruct (Hle _ _ Hit) as (it' & Hit' & _ & _ & Heq).
  rewrite (Heq Hr) in Hit'; exists it; auto.
Qed.

(** A step of the socket thread that is not reading afterwards, or leaves an item that is not an
    [EXIT] behind. *)
Lemma exit_inv_main c s s' :
  queue_inv c s -> exit_inv s -> same_queue s s' ->
  sc_thread s' = sc_thread s -> g_ipc_exit_done s = true \/ g_ipc_exit_done s' = g_ipc_exit_done s \/ past_exit s' ->
  g_exit_deadline_ms s' = g_exit_deadline_ms s \/ past_exit s' ->
  (sc_thread s = SReturned -> g_ipc_exit_done s' = true) ->
  (past_exit s -> past_exit s') ->
  (forall id it, items s !! id = Some it -> wi_ready it = false -> main_thread s <> MWait id) -> exit_inv s'.
Proof.
  intros Hq [X1 X2 X3 X4] (Hi & Hw & _ & _) Hsc Hdone Hdl Hret Hp Hnw; split.
  - rewrite Hw, Hi; intros id it Hin Hit Hf; exfalso.
    destruct (q_queued _ _ Hq id Hin) as (it' & Hit' & Hr); simplify_eq.
    exact (Hnw id it Hit Hr (X1 id it Hin Hit Hf)).
  - rewrite Hsc; intros id E; apply (after_mono s); [rewrite Hi; intros ? ?; eauto|done|eauto].
  - intros [Hx|Hx].
    + destruct Hdone as [?|[E|?]]; [|rewrite E in Hx|]; auto.
    + destruct Hdl as [E|?]; [rewrite E in Hx|]; auto.
  - rewrite Hsc; exact Hret.
Qed.

(** A step that does not touch the end of the run. *)
Lemma exit_inv_same s s' :
  exit_inv s -> items_le (items s) (items s') -> main_thread s' = main_thread s -> sc_thread s' = sc_thread s ->
  g_ipc_exit_done s' = g_ipc_exit_done s -> g_exit_deadline_ms s' = g_exit_deadline_ms s ->
  (forall id it, id ∈ g_work_queue s' -> items s' !! id = Some it -> wi_from it = FromMain ->
     id ∈ g_work_queue s /\ items s !! id = Some it) -> exit_inv s'.
Proof.
  intros [X1 X2 X3 X4] Hle Hm Hsc Hdone Hdl Hq.
  pose proof (past_exit_mono s s' Hle Hm) as Hp; split; rewrite ?Hm, ?Hsc, ?Hdone, ?Hdl; auto.
  - intros id it Hin Hit Hf; destruct (Hq id it Hin Hit Hf); eauto.
  - intros id E; apply (after_mono s); eauto.
Qed.

Lemma exit_inv_sc c s s' :
  queue_inv c s -> exit_inv s -> items_le (items s) (items s') -> sc_step s = Some s' -> exit_inv s'.
Proof.
  intros Hq [X1 X2 X3 X4] Hle Hs; unfold sc_step in Hs.
  assert (Hsame : forall t, items t = items s -> main_thread t = main_thread s -> past_exit s -> past_exit t).
  { intros t Hi Hm; apply past_exit_mono; [rewrite Hi; intros ? ?; eauto|done]. }
  destruct (sc_thread s) as [| |id| |] eqn:Hsc; try done.
  - simplify_eq; split; cbn; auto.
    + destruct (g_ipc_exit_done s); done.
    + destruct (g_ipc_exit_done s); done.
  - destruct (g_work_queue s) as [|id q] eqn:Hwq; [simplify_eq; split; cbn; rewrite ?Hwq; auto; done|].
    destruct (items s !! id) as [it|] eqn:Hit; [|done]; simplify_eq.
    assert (Hin : id ∈ id :: q) by (apply elem_of_cons; auto).
    unfold sc_dispatch in *; destruct (dispatch_work_item _ _ _) as [[resp data] c'] eqn:E; cbn in Hle.
    set (it' := {| wi_req := wi_req it; wi_data := data; wi_from := wi_from it; wi_ready := true; wi_resp := resp |}) in *.
    assert (Hit' : <[id:=it']> (items s) !! id = Some it') by (apply list_lookup_insert_eq; by eapply lookup_lt_Some).
    split; cbn.
    + intros j jt Hj [(<- & <- & _)|[Hne Hjt]]%list_lookup_insert_Some Hf; [apply (X1 id it); done|].
      apply (X1 j jt); [apply elem_of_cons; auto|done|done].
    + intros j [= <-]; exists it'; split; [done|]; split; [done|]; cbn; intros Hx.
      destruct (wi_from it) as [|i] eqn:Hf.
      * right; right; exists id, it'; split; [apply (X1 id it); done|done].
      * pose proof (q_debug _ _ Hq id it i Hit Hf) as Hrd; unfold is_read, is_exit in Hrd, Hx.
        destruct (cmd_of _) as [[]|]; done.
    + intros Hx; apply X3 in Hx; revert Hx; apply past_exit_mono; done.
    + done.
  - destruct (X2 id eq_refl) as (it & Hit & Hr & Hx); rewrite Hit in Hs; simplify_eq.
    destruct (is_exit (wi_req it)); [|split; cbn; done].
    unfold sc_exit; destruct (arm_exit_hold_eq s) as ([] & d & -> & _); split; cbn; auto; done.
  - simplify_eq; unfold sc_check_hold.
    destruct (Z.leb_spec 0 (g_exit_deadline_ms s)) as [Hd|_]; cbn [andb]; [|split; cbn; auto; done].
    destruct (exit_hold_active s); cbn [negb]; (split; cbn; auto; try done).
    intros _; apply X3; right; lia.
Qed.

Lemma exit_inv_step c l s s' : queue_inv c s -> exit_inv s -> step l s = Some s' -> exit_inv s'.
Proof.
  intros Hq Hx Hs; pose proof (step_items c l s s' Hq Hs) as Hle.
  destruct l as [req p| | | | |i req|i|i| |t]; cbn [step] in Hs.
  - unfold main_request in Hs; destruct (main_thread s) eqn:Hm; try done.
    destruct (is_ping req); simplify_eq; [done|].
    pose proof (past_exit_not_reading s Hm) as Hno; destruct Hx as [X1 X2 X3 X4]; split; cbn.
    + intros id it [Hin| ->%list_elem_of_singleton]%elem_of_app Hit Hf; [|done]; exfalso.
      destruct (q_queued _ _ Hq id Hin) as (it0 & Hit0 & _).
      destruct (Hle _ _ Hit0) as (it1 & Hit1 & _ & Hf1 & _); cbn in Hit1; simplify_eq.
      rewrite Hf in Hf1; specialize (X1 id it0 Hin Hit0 (eq_sym Hf1)); congruence.
    + intros id E; destruct (X2 id E) as (it & Hit & Hr & Hxx).
      destruct (Hle _ _ Hit) as (it1 & Hit1 & _ & _ & Heq); cbn in Hit1; rewrite (Heq Hr) in Hit1.
      exists it; split; [done|]; split; [done|]; intros ?%Hxx%Hno; done.
    + intros Hd; apply X3, Hno in Hd; done.
    + done.
  - unfold main_closed in Hs; destruct (main_thread s) eqn:Hm; try done.
    destruct (arm_exit_hold_eq s) as (b & d & E & _); rewrite E in Hs.
    assert (past_exit s' /\ same_queue s s' /\ sc_thread s' = sc_thread s /\
            (g_ipc_exit_done s = true -> g_ipc_exit_done s' = true)) as (Hp & Hsq & Hsc & Hdn).
    { destruct b; simplify_eq; split; [left|..|left|]; done. }
    eapply exit_inv_main; eauto; [intros ?%(x_returned s Hx); auto|congruence].
  - unfold main_wake in Hs; destruct (main_thread s) as [|id| |] eqn:Hm; try done.
    destruct (items s !! id) as [it|] eqn:Hit; [|done]; destruct (wi_ready it) eqn:Hr; simplify_eq.
    eapply exit_inv_main; eauto; cbn; [done|exact (x_returned s Hx)| |].
    + intros [Hp|[Hp|(j & jt & Hp & Hj & _ & Hxx)]]; try congruence.
      rewrite Hp in Hm; simplify_eq; left; cbn; rewrite Hxx; done.
    + intros j jt Hj Hrj Hmj; congruence.
  - unfold main_end in Hs; destruct (main_thread s) eqn:Hm; try done; case_match; simplify_eq.
    eapply exit_inv_main; eauto; cbn; [done|exact (x_returned s Hx)|right; left; done|congruence].
  - unfold debug_connect in Hs; case_match; simplify_eq; apply (exit_inv_same s); done.
  - unfold debug_request in Hs; destruct (debug_threads s !! i) as [[]|]; try done.
    destruct (is_read req); simplify_eq; apply (exit_inv_same s); try done; cbn.
    intros id it Hin [Hit|[-> ->]]%lookup_snoc_cases Hf; [|done].
    apply elem_of_app in Hin as [?| ->%list_elem_of_singleton]; [done|].
    apply lookup_lt_Some in Hit; lia.
  - unfold debug_wake in Hs; repeat case_match; simplify_eq; apply (exit_inv_same s); done.
  - unfold debug_closed in Hs; repeat case_match; simplify_eq; apply (exit_inv_same s); done.
  - eapply exit_inv_sc; eauto.
  - simplify_eq; apply (exit_inv_same s); done.
Qed.

End Exit.

(** * What clients can rely on *)

Section Reachable.
Context {sigma : Type} `{Simulator sigma}.
Implicit Types s : sys sigma.

Record server_inv (c : server sigma) (s : sys sigma) : Prop := {
  inv_queue : queue_inv c s;
  inv_reply : reply_inv s;
  inv_exit : exit_inv s
}.

Lemma server_inv_step c l s s' : server_inv c s -> step l s = Some s' -> server_inv c s'.
Proof. intros [Hq Hr Hx] Hs; split; eauto using queue_inv_step, reply_inv_step, exit_inv_step. Qed.

Lemma server_inv_run c ls s s' : server_inv c s -> run ls s = Some s' -> server_inv c s'.
Proof.
  revert s; induction ls as [|l ls IH]; intros s Hi Hr; cbn in Hr; [simplify_eq; done|].
  destruct (step l s) as [s1|] eqn:E; [|done]; eauto using server_inv_step.
Qed.

Lemma server_inv_reachable c hold s : reachable c hold s -> server_inv c s.
Proof.
  intros [ls Hr]; eapply server_inv_run; [|exact Hr].
  split; [apply queue_inv_start|apply (reply_inv_start c)|apply (exit_inv_start c)].
Qed.

(** C9: The threads of the server behave as one that handles requests one at a time.  In every
    interleaving the simulator has been called for a prefix of the requests in the order they
    were queued, each call starting from the state the previous one left; every reply sent to
    the application or to a debug client is the result of the one call made for that client's own
    request (a debug client may instead get an I/O error once the server is done); and every
    call that is not a register read was made for the application. *)
Theorem server_linearizable c hold s :
  reachable c hold s ->
  serial c (dispatched s) (core s) /\
  map le_id (dispatched s) ++ g_work_queue s = seq 0 (length (items s)) /\
  (forall id r, (id, r) ∈ main_replies s ->
     exists it e, items s !! id = Some it /\ wi_from it = FromMain /\
       e ∈ dispatched s /\ le_id e = id /\ le_resp e = r) /\
  (forall i id r, (i, Some id, r) ∈ debug_replies s ->
     exists it, items s !! id = Some it /\ wi_from it = FromDebug i /\
       ((exists e, e ∈ dispatched s /\ le_id e = id /\ le_resp e = r) \/
        r = err_status STATUS_ERR_IO /\ g_server_done s = true)) /\
  (forall e, e ∈ dispatched s -> is_read (le_req e) = false ->
     exists it, items s !! le_id e = Some it /\ wi_from it = FromMain).
Proof.
  intros [Hq Hr Hx]%server_inv_reachable.
  split; [apply Hq|]; split; [apply Hq|]; split; [|split].
  - intros id r (it & Hit & Hf & Hrd & <-)%(r_main s Hr).
    destruct (q_ready _ _ Hq id it Hit Hrd) as (e & He); exists it, e; tauto.
  - intros i id r (it & Hit & Hf & [[Hrd <-]|?])%(r_debug s Hr); exists it; (split; [done|]); (split; [done|]); [left|right; done].
    apply (q_ready _ _ Hq id it Hit Hrd).
  - intros e He Hn; destruct (q_log _ _ Hq e He) as (it & Hit & Hreq); exists it; split; [done|].
    destruct (wi_from it) as [|i] eqn:Hf; [done|].
    pose proof (q_debug _ _ Hq _ it i Hit Hf); congruence.
Qed.

(** While the socket thread waits for an item that is not ready, nothing has ended the run. *)
Lemma waiting_not_ended c id it s :
  server_inv c s -> main_thread s = MWait id -> items s !! id = Some it -> wi_ready it = false ->
  g_ipc_exit_done s = false /\ g_exit_deadline_ms s = -1 /\ sc_thread s <> SReturned.
Proof.
  intros [Hq Hr Hx] Hm Hit Hrd.
  assert (Hno : past_exit s -> False).
  { intros [?|[?|(j & jt & Hp & Hj & Hrj & _)]]; congruence. }
  assert (Hd : g_ipc_exit_done s = false).
  { destruct (g_ipc_exit_done s) eqn:E; [|done]; exfalso; apply Hno, (x_quiet s Hx); auto. }
  split; [done|]; split.
  - destruct (Z.eq_dec (g_exit_deadline_ms s) (-1)); [done|]; exfalso; apply Hno, (x_quiet s Hx); auto.
  - intros E; rewrite (x_returned s Hx E) in Hd; done.
Qed.

(** The SystemC thread reaches its inner loop, nothing else changing. *)
Lemma sc_reaches_inner c id it s :
  server_inv c s -> main_thread s = MWait id -> items s !! id = Some it -> wi_ready it = false ->
  exists n s', run (replicate n LSystemC) s = Some s' /\ sc_thread s' = SInner /\
    main_thread s' = main_thread s /\ same_queue s s'.
Proof.
  intros Hi Hm Hit Hrd; destruct (waiting_not_ended c id it s Hi Hm Hit Hrd) as (Hd & Hdl & Hnr).
  destruct (sc_thread s) as [| |j| |] eqn:Hsc; [|exists 0%nat, s; done| | |done].
  - exists 1%nat; eexists; cbn [replicate run step]; unfold sc_step; rewrite Hsc, Hd; done.
  - destruct (x_after s (inv_exit c s Hi) j Hsc) as (jt & Hj & Hrj & Hxj).
    assert (is_exit (wi_req jt) = false) as Hne.
    { destruct (is_exit _); [|done]; destruct (Hxj eq_refl) as [?|[?|(k & kt & Hp & Hk & Hrk & _)]]; congruence. }
    exists 1%nat; eexists; cbn [replicate run step]; unfold sc_step; rewrite Hsc, Hj, Hne; done.
  - exists 2%nat; eexists; cbn [replicate run step]; unfold sc_step at 1; rewrite Hsc.
    unfold sc_check_hold; rewrite Hdl; cbn [andb Z.leb Z.compare].
    unfold sc_step; cbn [sc_thread set_sc g_ipc_exit_done]; rewrite Hd; done.
Qed.

Lemma queue_served c pre : forall s id post it,
  server_inv c s -> g_work_queue s = pre ++ id :: post ->
  main_thread s = MWait id -> items s !! id = Some it -> wi_ready it = false ->
  exists n s' it', run (replicate n LSystemC) s = Some s' /\ main_thread s' = MWait id /\
    items s' !! id = Some it' /\ wi_ready it' = true /\ wi_req it' = wi_req it.
Proof.
  induction pre as [|j pre IH]; intros s id post it Hi Hq Hm Hit Hrd.
  all: destruct (sc_reaches_inner c id it s Hi Hm Hit Hrd) as (n1 & s1 & R1 & Hsc1 & Hm1 & (Hi1 & Hq1 & _ & _)).
  all: pose proof (server_inv_run c _ s s1 Hi R1) as Hinv1; rewrite <- Hi1 in Hit.
  all: rewrite Hq in Hq1; cbn [app] in Hq1; rewrite Hm in Hm1.
  - assert (E : step LSystemC s1 = Some (sc_dispatch id post it s1)).
    { cbn [step]; unfold sc_step; rewrite Hsc1, Hq1, Hit; done. }
    exists (n1 + 1)%nat; rewrite replicate_add, run_app, R1; cbn [replicate run]; rewrite E.
    unfold sc_dispatch; destruct (dispatch_work_item _ _ _) as [[resp data] c'].
    eexists _, _; split; [reflexivity|]; cbn; split; [done|].
    split; [apply list_lookup_insert_eq; by eapply lookup_lt_Some|done].
  - destruct (q_queued _ _ (inv_queue _ _ Hinv1) j) as (jt & Hj & Hrj); [rewrite Hq1; apply elem_of_cons; auto|].
    assert (E : step LSystemC s1 = Some (sc_dispatch j (pre ++ id :: post) jt s1)).
    { cbn [step]; unfold sc_step; rewrite Hsc1, Hq1, Hj; done. }
    pose proof (server_inv_step _ _ _ _ Hinv1 E) as Hinv2.
    set (s2 := sc_dispatch j (pre ++ id :: post) jt s1) in *.
    assert (Hne : j <> id).
    { intros ->; pose proof (NoDup_seq 0 (length (items s1))) as Hn; rewrite <- (q_fifo _ _ (inv_queue _ _ Hinv1)), Hq1 in Hn.
      apply NoDup_app in Hn as (_ & _ & Hn); apply NoDup_cons in Hn as [Hn _]; apply Hn, elem_of_app; right; apply elem_of_cons; auto. }
    assert (g_work_queue s2 = pre ++ id :: post /\ main_thread s2 = MWait id /\ items s2 !! id = Some it) as (Q2 & M2 & I2).
    { unfold s2, sc_dispatch; destruct (dispatch_work_item _ _ _) as [[? ?] ?]; cbn.
      rewrite list_lookup_insert_ne by done; done. }
    destruct (IH s2 id post it Hinv2 Q2 M2 I2 Hrd) as (n & s' & it' & R & Hrest).
    exists (n1 + S n)%nat, s', it'; rewrite replicate_add, run_app, R1; cbn [replicate run]; rewrite E; done.
Qed.

(** C10: A request of the application is always answered.  From every reachable state in which the
    socket thread waits for its item, steps of the SystemC thread alone make the item ready, and
    the thread can then send the reply: neither a debug client nor the end of a run can
    leave the application waiting for ever. *)
Theorem main_request_answered c hold s id :
  reachable c hold s -> main_thread s = MWait id ->
  exists n s' it, run (replicate n LSystemC ++ [LMainWake]) s = Some s' /\
    items s' !! id = Some it /\ wi_ready it = true /\ main_replies s' = main_replies s ++ [(id, wi_resp it)].
Proof.
  intros Hi%server_inv_reachable Hm.
  destruct (r_main_wait s (inv_reply _ _ Hi) id Hm) as (it & Hit & Hf).
  assert (exists n s1 it1, run (replicate n LSystemC) s = Some s1 /\ main_thread s1 = MWait id /\
            items s1 !! id = Some it1 /\ wi_ready it1 = true) as (n & s1 & it1 & R & M1 & I1 & Rd1).
  { destruct (wi_ready it) eqn:Hrd; [exists 0%nat, s, it; done|].
    destruct (list_elem_of_split _ _ (q_waiting _ _ (inv_queue _ _ Hi) id it Hit Hrd)) as (pre & post & Hq).
    destruct (queue_served c pre s id post it Hi Hq Hm Hit Hrd) as (n & s1 & it1 & R & M1 & I1 & Rd1 & _).
    exists n, s1, it1; done. }
  assert (Em : main_replies s1 = main_replies s).
  { clear -R; revert s R; induction n as [|n IH]; intros s R; cbn in R; [simplify_eq; done|].
    destruct (sc_step s) as [s2|] eqn:E; [|done]; rewrite (IH s2 R).
    unfold sc_step, sc_dispatch, sc_exit, sc_check_hold in E.
    destruct (arm_exit_hold_eq s) as ([] & d & Ea & _); rewrite Ea in E; repeat case_match; simplify_eq; done. }
  exists n; eexists; exists it1; rewrite run_app, R; cbn [run step]; unfold main_wake; rewrite M1, I1, Rd1.
  split; [reflexivity|]; cbn; rewrite Em; done.
Qed.

End Reachable.

(** * The hold after a run *)

(** The order of steps in which the socket thread overtakes the SystemC thread between the moment
    the [EXIT] item is marked ready and the moment the hold is armed. *)
Definition overtaking (req : request) : list label :=
  [LMainRequest req []; LSystemC; LSystemC; LMainWake; LMainEnd].

Section Hold.
Context {sigma : Type} `{Simulator sigma}.

(** C40: The window for debug reads after a run can be lost.  The hold is armed only after the item of
    [EXIT] has been marked ready, so the socket thread may find no hold, and close the debug
    socket at once; the SystemC thread then arms the hold and keeps the simulator open for the
    whole time with no debug client admitted. *)
Theorem exit_hold_overtaken (c : server sigma) hold req :
  0 < hold -> cmd_of (req_cmd req) = Some EXIT ->
  exists s s', run (overtaking req) (start c hold) = Some s /\ step LSystemC s = Some s' /\
    now_ms s' = 0 /\ g_exit_deadline_ms s' = hold * 1000 /\ exit_hold_active s' = true /\
    main_thread s' = MDone /\ g_server_done s' = true /\ step LDebugConnect s' = None.
Proof.
  intros Hh Hreq.
  assert (Hx : is_exit req = true) by (unfold is_exit; rewrite Hreq; done).
  assert (Hp : is_ping req = false) by (unfold is_ping; rewrite Hreq; done).
  cbn [overtaking run step]; unfold main_request; cbn [main_thread start]; rewrite Hp.
  unfold sc_step at 1; cbn [sc_thread set_main enqueue_work start g_ipc_exit_done].
  unfold sc_step at 1; cbn [sc_thread set_sc set_main enqueue_work start g_work_queue items app length lookup list_lookup].
  unfold sc_dispatch; cbn [wi_req wi_data core set_sc set_main enqueue_work start].
  destruct (dispatch_work_item req [] c) as [[resp data] c1].
  unfold main_wake; cbn [main_thread items insert list_insert lookup list_lookup wi_ready wi_req set_sc set_main
    enqueue_work start app length]; rewrite Hx.
  eexists _, _; split; [reflexivity|].
  unfold step, sc_step; cbn [sc_thread set_main set_done add_main_reply items lookup list_lookup wi_req].
  rewrite Hx; split; [reflexivity|].
  unfold sc_exit, arm_exit_hold; cbn.
  destruct (Z.eqb_spec hold 0); [lia|]; cbn; repeat split.
  unfold exit_hold_active; cbn.
  destruct (Z.leb_spec 0 (hold * 1000)), (Z.ltb_spec 0 (hold * 1000)); cbn; done || lia.
Qed.

End Hold.

(** * A concrete run: the application writes a register while a debug client reads it *)

Definition demo_server : server demo_sim := srv demo_world.
Definition demo_labels : list label :=
  [LDebugConnect; LDebugRequest 0 (request_of READ32 512 0); LMainRequest (request_of WRITE32 512 7) [];
   LSystemC; LSystemC; LSystemC; LDebugWake 0; LDebugRequest 0 (request_of READ32 512 0)].
Definition demo_sys : sys demo_sim := default (start demo_server 0) (run demo_labels (start demo_server 0)).

Lemma demo_sys_reachable : reachable demo_server 0 demo_sys.
Proof. exists demo_labels; vm_compute; reflexivity. Qed.

Lemma server_linearizable_witness :
  map le_id (dispatched demo_sys) ++ g_work_queue demo_sys = [0%nat; 1%nat; 2%nat] /\
  serial demo_server (dispatched demo_sys) (core demo_sys).
Proof.
  destruct (server_linearizable demo_server 0 demo_sys demo_sys_reachable) as (Hs & Hf & _).
  split; [exact Hf|exact Hs].
Defined.

Lemma main_request_answered_witness :
  exists n s' it, run (replicate n LSystemC ++ [LMainWake]) demo_sys = Some s' /\
    items s' !! 1%nat = Some it /\ wi_ready it = true /\
    main_replies s' = main_replies demo_sys ++ [(1%nat, wi_resp it)].
Proof. exact (main_request_answered demo_server 0 demo_sys 1 demo_sys_reachable eq_refl). Defined.

Lemma exit_hold_overtaken_witness :
  exists s s', run (overtaking (request_of EXIT 0 0)) (start demo_server 60) = Some s /\ step LSystemC s = Some s' /\
    now_ms s' = 0 /\ g_exit_deadline_ms s' = 60 * 1000 /\ exit_hold_active s' = true /\
    main_thread s' = MDone /\ g_server_done s' = true /\ step LDebugConnect s' = None.
Proof. apply (exit_hold_overtaken demo_server 60 (request_of EXIT 0 0)); [lia|reflexivity]. Defined.
