(* ===== verification/XIoUtils.v ===== *)
(** The simulator side of register accesses ([src/ipc/xioutils.cpp]): entry points behind function
    pointers, and the accessors of the programmable logic's address space; the list of graph
    names the server takes from its environment ([get_graph_names] of
    [src/ipc/aeg_ipc_server.cpp]).

    A function pointer is an optional function on the state of the simulator. *)
From stdpp Require Import base list.
From Stdlib Require Import ZArith Lia.
From S2P Require Import Prelude.
Local Open Scope Z_scope.

(** * Function pointers *)

(** [src/ipc/xioutils.cpp:7-14] [Write32Ptr] and the other pointers *)
Record pointers (sigma : Type) := {
  Write32Ptr : option (Z -> Z -> sigma -> sigma);
  Read32Ptr : option (Z -> sigma -> Z * sigma);
  WriteCmdPtr : option (Z -> Z -> Z -> Z -> Z -> list Z -> sigma -> sigma);
  NpiWrite32Ptr : option (Z -> Z -> sigma -> sigma);
  NpiRead32Ptr : option (Z -> sigma -> Z * sigma);
  WriteGMPtr : option (Z -> list Z -> sigma -> sigma);
  ReadGMPtr : option (Z -> list Z -> sigma -> list Z * sigma);
  StartPlio : option (sigma -> sigma)
}.
Arguments Write32Ptr {_}.
Arguments Read32Ptr {_}.
Arguments WriteCmdPtr {_}.
Arguments NpiWrite32Ptr {_}.
Arguments NpiRead32Ptr {_}.
Arguments WriteGMPtr {_}.
Arguments ReadGMPtr {_}.
Arguments StartPlio {_}.

Section Plumbing.
Context {sigma : Type}.
Implicit Types p : pointers sigma.

Definition no_pointers : pointers sigma :=
  {| Write32Ptr := None; Read32Ptr := None; WriteCmdPtr := None; NpiWrite32Ptr := None; NpiRead32Ptr := None;
     WriteGMPtr := None; ReadGMPtr := None; StartPlio := None |}.

(** [src/ipc/xioutils.cpp:16-19] [setWrite32Ptr] *)
Definition setWrite32Ptr f p : pointers sigma :=
  {| Write32Ptr := f; Read32Ptr := Read32Ptr p; WriteCmdPtr := WriteCmdPtr p; NpiWrite32Ptr := NpiWrite32Ptr p;
     NpiRead32Ptr := NpiRead32Ptr p; WriteGMPtr := WriteGMPtr p; ReadGMPtr := ReadGMPtr p; StartPlio := StartPlio p |}.
(** [src/ipc/xioutils.cpp:20-23] [setRead32Ptr] *)
Definition setRead32Ptr f p : pointers sigma :=
  {| Write32Ptr := Write32Ptr p; Read32Ptr := f; WriteCmdPtr := WriteCmdPtr p; NpiWrite32Ptr := NpiWrite32Ptr p;
     NpiRead32Ptr := NpiRead32Ptr p; WriteGMPtr := WriteGMPtr p; ReadGMPtr := ReadGMPtr p; StartPlio := StartPlio p |}.
(** [src/ipc/xioutils.cpp:24-27] [setWriteCmdPtr] *)
Definition setWriteCmdPtr f p : pointers sigma :=
  {| Write32Ptr := Write32Ptr p; Read32Ptr := Read32Ptr p; WriteCmdPtr := f; NpiWrite32Ptr := NpiWrite32Ptr p;
     NpiRead32Ptr := NpiRead32Ptr p; WriteGMPtr := WriteGMPtr p; ReadGMPtr := ReadGMPtr p; StartPlio := StartPlio p |}.
(** [src/ipc/xioutils.cpp:28-31] [setNpiWrite32Ptr] *)
Definition setNpiWrite32Ptr f p : pointers sigma :=
  {| Write32Ptr := Write32Ptr p; Read32Ptr := Read32Ptr p; WriteCmdPtr := WriteCmdPtr p; NpiWrite32Ptr := f;
     NpiRead32Ptr := NpiRead32Ptr p; WriteGMPtr := WriteGMPtr p; ReadGMPtr := ReadGMPtr p; StartPlio := StartPlio p |}.
(** [src/ipc/xioutils.cpp:32-35] [setNpiRead32Ptr] *)
Definition setNpiRead32Ptr f p : pointers sigma :=
  {| Write32Ptr := Write32Ptr p; Read32Ptr := Read32Ptr p; WriteCmdPtr := WriteCmdPtr p;
     NpiWrite32Ptr := NpiWrite32Ptr p; NpiRead32Ptr := f; WriteGMPtr := WriteGMPtr p; ReadGMPtr := ReadGMPtr p;
     StartPlio := StartPlio p |}.
(** [src/ipc/xioutils.cpp:36-39] [setWriteGMPtr] *)
Definition setWriteGMPtr f p : pointers sigma :=
  {| Write32Ptr := Write32Ptr p; Read32Ptr := Read32Ptr p; WriteCmdPtr := WriteCmdPtr p;
     NpiWrite32Ptr := NpiWrite32Ptr p; NpiRead32Ptr := NpiRead32Ptr p; WriteGMPtr := f; ReadGMPtr := ReadGMPtr p;
     StartPlio := StartPlio p |}.
(** [src/ipc/xioutils.cpp:40-43] [setReadGMPtr] *)
Definition setReadGMPtr f p : pointers sigma :=
  {| Write32Ptr := Write32Ptr p; Read32Ptr := Read32Ptr p; WriteCmdPtr := WriteCmdPtr p;
     NpiWrite32Ptr := NpiWrite32Ptr p; NpiRead32Ptr := NpiRead32Ptr p; WriteGMPtr := WriteGMPtr p; ReadGMPtr := f;
     StartPlio := StartPlio p |}.
(** [src/ipc/xioutils.cpp:44-47] [setPLIOStartPtr] *)
Definition setPLIOStartPtr f p : pointers sigma :=
  {| Write32Ptr := Write32Ptr p; Read32Ptr := Read32Ptr p; WriteCmdPtr := WriteCmdPtr p;
     NpiWrite32Ptr := NpiWrite32Ptr p; NpiRead32Ptr := NpiRead32Ptr p; WriteGMPtr := WriteGMPtr p;
     ReadGMPtr := ReadGMPtr p; StartPlio := f |}.

(** [src/ipc/xioutils.cpp:50-53] [ess_Write32] *)
Definition ess_Write32 p (Addr Data : Z) (x : sigma) : sigma :=
  match Write32Ptr p with Some f => f Addr Data x | None => x end.
(** [src/ipc/xioutils.cpp:54-56] [ess_Read32] *)
Definition ess_Read32 p (Addr : Z) (x : sigma) : Z * sigma :=
  match Read32Ptr p with Some f => f Addr x | None => (0, x) end.
(** [src/ipc/xioutils.cpp:57-60] [ess_WriteGM] *)
Definition ess_WriteGM p (addr : Z) (data : list Z) (x : sigma) : sigma :=
  match WriteGMPtr p with Some f => f addr data x | None => x end.
(** [src/ipc/xioutils.cpp:61-64] [ess_ReadGM] *)
Definition ess_ReadGM p (addr : Z) (buf : list Z) (x : sigma) : list Z * sigma :=
  match ReadGMPtr p with Some f => f addr buf x | None => (buf, x) end.
(** [src/ipc/xioutils.cpp:65-68] [ess_NpiWrite32] *)
Definition ess_NpiWrite32 p (Addr Data : Z) (x : sigma) : sigma :=
  match NpiWrite32Ptr p with Some f => f Addr Data x | None => x end.
(** [src/ipc/xioutils.cpp:69-72] [ess_NpiRead32] *)
Definition ess_NpiRead32 p (Addr : Z) (x : sigma) : Z * sigma :=
  match NpiRead32Ptr p with Some f => f Addr x | None => (0, x) end.
(** [src/ipc/xioutils.cpp:73-77] [ess_WriteCmd] *)
Definition ess_WriteCmd p (Command ColId RowId CmdWd0 CmdWd1 : Z) (CmdStr : list Z) (x : sigma) : sigma :=
  match WriteCmdPtr p with Some f => f Command ColId RowId CmdWd0 CmdWd1 CmdStr x | None => x end.
(** [src/ipc/xioutils.cpp:116-120] [XPl_IOstart] *)
Definition XPl_IOstart p (x : sigma) : sigma := match StartPlio p with Some f => f x | None => x end.

(** * Programmable logic *)

(** [src/ipc/xioutils.cpp:87-87] [XPl_Write32] the address; the product of the index and the stride is
    computed in 32 bits *)
Definition absolute_address (ctrl_pl_offset ctrl_ip_stride pl_ip_index relative_address : Z) : Z :=
  u64 (ctrl_pl_offset + u32 (u32 pl_ip_index * ctrl_ip_stride) + relative_address).

(** [src/ipc/xioutils.cpp:85-89] [XPl_Write32] *)
Definition XPl_Write32 p (off stride index rel value : Z) (x : sigma) : sigma :=
  ess_Write32 p (absolute_address off stride index rel) value x.

(** [src/ipc/xioutils.cpp:91-98] [XPl_Write64] *)
Definition XPl_Write64 p (off stride index rel value : Z) (x : sigma) : sigma :=
  let a := absolute_address off stride index rel in
  let lo := u32 (Z.land value 0xFFFFFFFF) in
  let hi := u32 (Z.land (Z.shiftr value 32) 0xFFFFFFFF) in
  ess_Write32 p (u64 (a + 4)) hi (ess_Write32 p a lo x).

(** [src/ipc/xioutils.cpp:100-104] [XPl_Read32] *)
Definition XPl_Read32 p (off stride index rel : Z) (x : sigma) : Z * sigma :=
  ess_Read32 p (absolute_address off stride index rel) x.

(** [src/ipc/xioutils.cpp:106-112] [XPl_Read64] *)
Definition XPl_Read64 p (off stride index rel : Z) (x : sigma) : Z * sigma :=
  let a := absolute_address off stride index rel in
  let '(lo, x) := ess_Read32 p a x in
  let '(hi, x) := ess_Read32 p (u64 (a + 4)) x in
  (Z.lor (u64 (Z.shiftl hi 32)) lo, x).

(** The registers behind the pointers behave as memory: a read returns the last word written to
    its address and changes nothing. *)
Class RegisterMemory p := {
  mem_write : Z -> Z -> sigma -> sigma;
  mem_read : Z -> sigma -> Z;
  mem_pointers : Write32Ptr p = Some mem_write /\ Read32Ptr p = Some (fun a x => (mem_read a x, x));
  mem_read_same a v x : mem_read a (mem_write a v x) = v;
  mem_read_other a b v x : a <> b -> mem_read b (mem_write a v x) = mem_read b x
}.

Lemma split_words v : 0 <= v < 2 ^ 64 ->
  Z.lor (u64 (Z.shiftl (u32 (Z.land (Z.shiftr v 32) 0xFFFFFFFF)) 32)) (u32 (Z.land v 0xFFFFFFFF)) = v.
Proof.
  intros Hv; change 0xFFFFFFFF with (Z.ones 32); rewrite !Z.land_ones by lia.
  rewrite Z.shiftr_div_pow2 by lia.
  unfold wrap_u at 2 3; rewrite !Zmod_mod.
  rewrite (Z.mod_small (v / 2 ^ 32)) by (split; [apply Z.div_pos|apply Z.div_lt_upper_bound]; lia).
  pose proof (Z.div_mod v (2 ^ 32) ltac:(lia)); pose proof (Z.mod_pos_bound v (2 ^ 32) ltac:(lia)).
  rewrite wrap_u_small, Z.lor_comm, lor_shiftl_add; try lia.
  rewrite Z.shiftl_mul_pow2 by lia; lia.
Qed.

Lemma next_word_differs a : 0 <= a < 2 ^ 64 -> u64 (a + 4) <> a.
Proof.
  intros Ha; unfold wrap_u; destruct (Z.lt_ge_cases (a + 4) (2 ^ 64)).
  - rewrite Z.mod_small by lia; lia.
  - rewrite <- (Z_mod_plus_full (a + 4) (-1)), Z.mod_small by lia; lia.
Qed.

(** A 64-bit register of a kernel in the programmable logic reads back as it was written: the two
    words go to consecutive addresses, low word first, and are put together again, for every
    address, index and stride. *)
Theorem pl_write64_read64 p `{RegisterMemory p} off stride index rel value x :
  0 <= value < 2 ^ 64 ->
  fst (XPl_Read64 p off stride index rel (XPl_Write64 p off stride index rel value x)) = value.
Proof.
  intros Hv; unfold XPl_Read64, XPl_Write64, ess_Read32, ess_Write32.
  destruct mem_pointers as [-> ->].
  set (a := absolute_address off stride index rel); cbn.
  pose proof (next_word_differs a (wrap_u_range 64 _ ltac:(lia))) as Hne.
  rewrite (mem_read_other (u64 (a + 4)) a), !mem_read_same by exact Hne.
  apply split_words; done.
Qed.

(** The address of a kernel's register is the one the arguments describe exactly when the index
    is not negative and its product with the stride fits 32 bits; beyond that the product wraps
    and the access reaches another kernel. *)
Theorem pl_address_exact off stride index rel :
  0 <= off -> 0 <= rel -> 0 <= stride -> 0 <= index < 2 ^ 31 -> off + index * stride + rel < 2 ^ 64 ->
  absolute_address off stride index rel = off + index * stride + rel <-> index * stride < 2 ^ 32.
Proof.
  intros Ho Hr Hs Hi Hsum; unfold absolute_address.
  rewrite (wrap_u_small 32 index) by lia.
  pose proof (wrap_u_range 32 (index * stride) ltac:(lia)) as Hw.
  assert (Hle : u32 (index * stride) <= index * stride) by (apply Z.mod_le; nia).
  rewrite wrap_u_small by lia; split; intros E.
  - lia.
  - rewrite wrap_u_small by nia; lia.
Qed.

End Plumbing.

(** * Graph names *)

Definition comma : Z := 44.

(** The first position of a comma in [s] at or after [pos], or the length of [s]. *)
Fixpoint find_comma (s : list Z) (pos : nat) : nat :=
  match s with
  | [] => O
  | b :: s =>
      match pos with
      | S pos => S (find_comma s pos)
      | O => if b =? comma then O else S (find_comma s O)
      end
  end.

(** [src/ipc/aeg_ipc_server.cpp:533-542] [get_graph_names] the loop over the commas *)
Fixpoint names_loop (fuel : nat) (s : list Z) (pos : nat) (names : list (list Z)) : option (list (list Z)) :=
  if (pos <? length s)%nat then
    match fuel with
    | O => None
    | S fuel =>
        let c := find_comma s pos in
        let name := take (c - pos) (drop pos s) in
        names_loop fuel s (c + 1) (match name with [] => names | _ :: _ => names ++ [name] end)
    end
  else Some names.

(** [src/ipc/aeg_ipc_server.cpp:527-555] [get_graph_names]
    [multi] and [single] are the environment variables [AEG_IPC_GRAPH_NAMES] and
    [AEG_IPC_GRAPH_NAME].  The loop passes a position at every round. *)
Definition get_graph_names (multi single : option (list Z)) : option (list (list Z)) :=
  match (match multi with Some s => names_loop (length s) s 0 [] | None => Some [] end) with
  | None => None
  | Some [] => Some (match single with None | Some [] => [] | Some n => [n] end)
  | Some names => Some names
  end.

(** The fields between commas. *)
Fixpoint split_commas (s : list Z) : list (list Z) :=
  match s with
  | [] => [[]]
  | b :: s =>
      if b =? comma then [] :: split_commas s
      else match split_commas s with [] => [[b]] | f :: fs => (b :: f) :: fs end
  end.
Definition non_empty (f : list Z) : bool := match f with [] => false | _ => true end.

Lemma find_comma_drop s pos :
  (pos <= length s)%nat -> find_comma s pos = (pos + find_comma (drop pos s) 0)%nat.
Proof.
  revert pos; induction s as [|b s IH]; intros [|pos] Hp; cbn in *; try lia.
  rewrite IH by lia; done.
Qed.

Lemma find_comma_le s : (find_comma s 0 <= length s)%nat.
Proof. induction s as [|b s IH]; cbn; [lia|]; destruct (b =? comma); lia. Qed.

Lemma split_commas_head s :
  split_commas s = take (find_comma s 0) s ::
    (if (find_comma s 0 <? length s)%nat then split_commas (drop (S (find_comma s 0)) s) else []).
Proof.
  induction s as [|b s IH]; [done|]; cbn [split_commas find_comma].
  destruct (b =? comma); [done|]; rewrite IH; cbn [take drop length]; f_equal.
Qed.

Lemma names_loop_end fuel s pos names : (length s <= pos)%nat -> names_loop fuel s pos names = Some names.
Proof. intros Hp; destruct fuel; cbn [names_loop]; destruct (Nat.ltb_spec pos (length s)); done || lia. Qed.

Lemma names_loop_split fuel s pos names :
  (pos <= length s)%nat -> (length s - pos <= fuel)%nat ->
  names_loop fuel s pos names
  = Some (names ++ List.filter non_empty (split_commas (drop pos s))).
Proof.
  revert pos names; induction fuel as [|fuel IH]; intros pos names Hp Hf; cbn [names_loop].
  - destruct (Nat.ltb_spec pos (length s)); [lia|]; rewrite drop_ge by lia; cbn; rewrite app_nil_r; done.
  - destruct (Nat.ltb_spec pos (length s)) as [Hlt|]; [|rewrite drop_ge by lia; cbn; rewrite app_nil_r; done].
    rewrite find_comma_drop by lia; set (d := drop pos s).
    pose proof (find_comma_le d) as Hle.
    assert (Hd : length d = (length s - pos)%nat) by (apply length_drop).
    replace (pos + find_comma d 0 - pos)%nat with (find_comma d 0) by lia.
    rewrite (split_commas_head d).
    destruct (Nat.ltb_spec (find_comma d 0) (length d)).
    + rewrite IH by lia.
      replace (drop (pos + find_comma d 0 + 1) s) with (drop (S (find_comma d 0)) d)
        by (unfold d; rewrite drop_drop; f_equal; lia).
      destruct (take (find_comma d 0) d); cbn [List.filter non_empty]; rewrite <- ?app_assoc; done.
    + assert (Hend : (length s < pos + find_comma d 0 + 1)%nat) by lia.
      rewrite names_loop_end by lia.
      destruct (take (find_comma d 0) d); cbn [List.filter non_empty]; rewrite ?app_nil_r; done.
Qed.

(** The list of graph names is the list of the non-empty fields between the commas of the
    variable, in order and for every string; only when there are none the single-name variable
    is used.  The loop always ends. *)
Theorem graph_names_are_fields multi single :
  get_graph_names (Some multi) single =
  Some (match List.filter non_empty (split_commas multi) with
        | [] => match single with None | Some [] => [] | Some n => [n] end
        | names => names
        end).
Proof.
  unfold get_graph_names; rewrite names_loop_split by lia.
  rewrite drop_0, app_nil_l; destruct (List.filter non_empty (split_commas multi)); done.
Qed.

(** * Concrete instances *)

(** Registers as a list of the words written, the last one first. *)
Definition word_at (a : Z) (m : list (Z * Z)) : Z :=
  match List.find (fun e => fst e =? a) m with Some e => snd e | None => 0 end.
Definition demo_pointers : pointers (list (Z * Z)) :=
  setWrite32Ptr (Some (fun a v m => (a, v) :: m))
    (setRead32Ptr (Some (fun a m => (word_at a m, m))) no_pointers).

#[export] Instance demo_registers : RegisterMemory demo_pointers.
Proof.
  refine {| mem_write := fun a v m => (a, v) :: m; mem_read := word_at |}.
  - split; reflexivity.
  - intros a v m; unfold word_at; cbn; rewrite Z.eqb_refl; done.
  - intros a b v m Hne; unfold word_at; cbn; destruct (Z.eqb_spec a b); done.
Defined.

Lemma pl_write64_read64_witness :
  fst (XPl_Read64 demo_pointers 4096 256 2 16 (XPl_Write64 demo_pointers 4096 256 2 16 0x123456789ABCDEF []))
  = 0x123456789ABCDEF.
Proof. apply (pl_write64_read64 demo_pointers 4096 256 2 16 0x123456789ABCDEF []); lia. Defined.

Lemma pl_address_exact_witness :
  absolute_address 4096 65536 65536 16 = 4096 + 65536 * 65536 + 16 <-> 65536 * 65536 < 2 ^ 32.
Proof. apply (pl_address_exact 4096 65536 65536 16); lia. Defined.
