(* ===== verification/UartRx.v ===== *)
(** Console input of the AI demo on Zephyr
    ([example/example_ai_model/aeg/res18sw/zephyr/uart_rx_fixup.c]): bringing up the
    receiver of a PL011 UART, and the queue between its interrupt handler and the reader.

    A volatile access is a call of the environment ([Xil_In32], [Xil_Out32]). *)
From stdpp Require Import base list.
From Stdlib Require Import ZArith Lia.
From S2P Require Import Prelude Driver.
Local Open Scope Z_scope.
Local Open Scope aeg_scope.

(** * Registers *)

(** [example/example_ai_model/aeg/res18sw/zephyr/uart_rx_fixup.c:42-48] PL011 register offsets *)
Definition PL011_DR : Z := 0x00.
Definition PL011_RSR : Z := 0x04.
Definition PL011_FR : Z := 0x18.
Definition PL011_LCRH : Z := 0x2c.
Definition PL011_CR : Z := 0x30.
Definition PL011_IMSC : Z := 0x38.
(** [example/example_ai_model/aeg/res18sw/zephyr/uart_rx_fixup.c:50-59] register bits *)
Definition FR_BUSY : Z := Z.shiftl 1 3.
Definition FR_RXFE : Z := Z.shiftl 1 4.
Definition CR_UARTEN : Z := Z.shiftl 1 0.
Definition CR_LBE : Z := Z.shiftl 1 7.
Definition CR_TXE : Z := Z.shiftl 1 8.
Definition CR_RXE : Z := Z.shiftl 1 9.
Definition CR_DTR : Z := Z.shiftl 1 10.
Definition CR_RTS : Z := Z.shiftl 1 11.
Definition LCRH_FEN : Z := Z.shiftl 1 4.
(** [example/example_ai_model/aeg/res18sw/zephyr/uart_rx_fixup.c:61-65] [GICD_CTLR_ADDR] *)
Definition GICD_CTLR_ADDR : Z := 0xF9000000.
Definition GICD_CTLR_ARE_S : Z := Z.shiftl 1 4.
Definition GICD_CTLR_ENG1S : Z := Z.shiftl 1 2.

Definition has (mask : Z) (r : resp) : bool := negb (Z.land (u32 (out r)) mask =? 0).

(** * The receive queue *)

(** [example/example_ai_model/aeg/res18sw/zephyr/uart_rx_fixup.c:67-68] [abr_console_rx_q] *)
Definition rx_q_size : nat := 256.

(** [k_msgq_put] with [K_NO_WAIT]: a full queue drops the byte. *)
Definition msgq_put (b : Z) (q : list Z) : list Z :=
  if (length q <? rx_q_size)%nat then q ++ [b] else q.

(** [example/example_ai_model/aeg/res18sw/zephyr/uart_rx_fixup.c:70-82] [abr_console_rx_cb]
    [rounds] are the bytes the FIFO yields each time the receiver is found ready. *)
Fixpoint abr_console_rx_cb (rounds : list (list Z)) (q : list Z) : list Z :=
  match rounds with
  | [] => q
  | bs :: rounds => abr_console_rx_cb rounds (fold_left (fun q b => msgq_put b q) bs q)
  end.

(** [example/example_ai_model/aeg/res18sw/zephyr/uart_rx_fixup.c:84-96] [abr_console_rx_getc]
    An empty queue is a timeout. *)
Definition abr_console_rx_getc (q : list Z) : Z * list Z :=
  match q with
  | [] => (-1, [])
  | b :: q => (u8 b, q)
  end.

(** * Bring-up *)

Section Operations.
Context `{rt : AieRt}.
(** The address the registers are mapped at, and the interrupt of the console. *)
Variables regs uart_irqn : Z.

(** [*reg op= bits] *)
Definition rmw (a : Z) (f : Z -> Z) : M unit :=
  r <-- exec (Xil_In32 a) ;; exec_ (Xil_Out32 a (u32 (f (u32 (out r))))).
Definition set_bits (a m : Z) : M unit := rmw a (fun v => Z.lor v m).
Definition clear_bits (a m : Z) : M unit := rmw a (fun v => Z.land v (Z.lnot m)).

Definition cr := regs + PL011_CR.
Definition fr := regs + PL011_FR.
Definition dr := regs + PL011_DR.

(** [while (( *fr & mask) && spin++ < n)] *)
Fixpoint spin_while (mask : Z) (n : nat) : M unit :=
  r <-- exec (Xil_In32 fr) ;;
  if has mask r then match n with O => ret tt | S n => spin_while mask n end else ret tt.

(** [for (i = 0; i < n && !( *fr & FR_RXFE); i++) (void)*dr;] *)
Fixpoint drain_fifo (n : nat) : M unit :=
  match n with
  | O => ret tt
  | S n =>
      r <-- exec (Xil_In32 fr) ;;
      if has FR_RXFE r then ret tt else exec_ (Xil_In32 dr) ;;; drain_fifo n
  end.

(** [example/example_ai_model/aeg/res18sw/zephyr/uart_rx_fixup.c:114-122] [versal_sbsa_uart_rx_init]
    enabling the receiver *)
Definition enable_receiver (fuel : nat) : M unit :=
  let* (_, _) := poll_until fuel (Xil_In32 fr) (fun r => negb (has FR_BUSY r)) 0 in
  clear_bits cr CR_UARTEN ;;;
  set_bits (regs + PL011_LCRH) LCRH_FEN ;;;
  set_bits cr (Z.lor (Z.lor (Z.lor CR_TXE CR_RXE) CR_DTR) CR_RTS) ;;;
  set_bits cr CR_UARTEN ;;;
  exec_ (Xil_Out32 (regs + PL011_RSR) 0) ;;;
  exec_ (Xil_Out32 (regs + PL011_IMSC) 0).

(** [example/example_ai_model/aeg/res18sw/zephyr/uart_rx_fixup.c:124-148] [versal_sbsa_uart_rx_init]
    the loopback self-test; the result says whether the byte came back *)
Definition rx_prime : M bool :=
  spin_while FR_BUSY (Z.to_nat 100000) ;;;
  clear_bits cr CR_UARTEN ;;;
  set_bits cr CR_LBE ;;;
  set_bits cr CR_UARTEN ;;;
  drain_fifo 64 ;;;
  exec_ (Xil_Out32 dr 0x5a) ;;;
  spin_while FR_RXFE (Z.to_nat 2000000) ;;;
  r <-- exec (Xil_In32 fr) ;;
  spin_while FR_BUSY (Z.to_nat 100000) ;;;
  clear_bits cr CR_UARTEN ;;;
  clear_bits cr CR_LBE ;;;
  set_bits cr CR_UARTEN ;;;
  exec_ (Xil_Out32 (regs + PL011_RSR) 0) ;;;
  drain_fifo 64 ;;;
  ret (negb (has FR_RXFE r)).

(** [example/example_ai_model/aeg/res18sw/zephyr/uart_rx_fixup.c:155-175] [versal_sbsa_uart_rx_init]
    routing and interrupt, with [CONFIG_UART_INTERRUPT_DRIVEN] *)
Definition wire_interrupt : M unit :=
  set_bits GICD_CTLR_ADDR GICD_CTLR_ARE_S ;;;
  set_bits GICD_CTLR_ADDR GICD_CTLR_ENG1S ;;;
  exec_ (irq_disable uart_irqn) ;;;
  exec_ (irq_enable uart_irqn) ;;;
  exec_ uart_irq_rx_disable ;;;
  exec_ uart_irq_tx_disable ;;;
  exec_ uart_irq_callback_set ;;;
  exec_ uart_irq_rx_enable.

(** [example/example_ai_model/aeg/res18sw/zephyr/uart_rx_fixup.c:98-181] [versal_sbsa_uart_rx_init]
    The result is paired with the outcome of the self-test, which is only printed. *)
Definition versal_sbsa_uart_rx_init (fuel : nat) (ready : bool) : M (Z * bool) :=
  if negb ready then ret (-19, false)
  else
    enable_receiver fuel ;;;
    got <-- rx_prime ;;
    wire_interrupt ;;;
    ret (0, got).
End Operations.

(** * Properties *)

(** ** The queue *)

Lemma put_all bs q :
  (length q <= rx_q_size)%nat ->
  fold_left (fun q b => msgq_put b q) bs q = q ++ take (rx_q_size - length q) bs.
Proof.
  revert q; induction bs as [|b bs IH]; intros q Hq; cbn [fold_left].
  - rewrite take_nil, app_nil_r; done.
  - unfold msgq_put at 2; destruct (Nat.ltb_spec (length q) rx_q_size) as [Hlt|Hge].
    + rewrite IH by (rewrite length_app; simpl; lia).
      replace (rx_q_size - length q)%nat with (S (rx_q_size - length (q ++ [b])))
        by (rewrite length_app; simpl; lia).
      cbn [take]; rewrite <- app_assoc; done.
    + rewrite IH by done; replace (rx_q_size - length q)%nat with O by lia; done.
Qed.

(** Reading [n] times. *)
Fixpoint getc_n (n : nat) (q : list Z) : list Z :=
  match n with
  | O => []
  | S n => let '(b, q) := abr_console_rx_getc q in b :: getc_n n q
  end.

(** console input is first in, first out, and bounded: after the interrupt handler ran on
    bytes received in any number of rounds, the queue holds what it held followed by the
    received bytes, in order, as far as they fit into 256; the newest bytes are the ones
    dropped; and reading returns the bytes of the queue in order and then reports timeouts. *)
Theorem console_rx_fifo rounds q n :
  (length q <= 256)%nat -> bytes_ok (q ++ concat rounds) ->
  let q' := abr_console_rx_cb rounds q in
  q' = q ++ take (256 - length q) (concat rounds) /\ (length q' <= 256)%nat /\
  getc_n (length q' + n) q' = q' ++ replicate n (-1).
Proof.
  intros Hq Hb q'.
  assert (E : q' = q ++ take (256 - length q) (concat rounds)).
  { subst q'; clear Hb; revert q Hq; induction rounds as [|bs rounds IH]; intros q Hq.
    - simpl; rewrite take_nil, app_nil_r; done.
    - cbn [abr_console_rx_cb concat]; rewrite put_all by exact Hq; unfold rx_q_size.
      rewrite IH by (rewrite length_app, length_take; lia).
      rewrite length_app, length_take, <- app_assoc; f_equal.
      destruct (Nat.le_ge_cases (256 - length q) (length bs)) as [H|H].
      + rewrite take_app_le, Nat.min_l by lia.
        replace (256 - (length q + (256 - length q)))%nat with O by lia; simpl; rewrite app_nil_r; done.
      + rewrite take_app_ge, take_ge, Nat.min_r by lia; do 2 f_equal; lia. }
  split; [exact E|split].
  { rewrite E, length_app, length_take; lia. }
  assert (Hq' : bytes_ok q').
  { rewrite E; apply Forall_app in Hb as [H1 H2]; apply Forall_app; split; [done|].
    apply Forall_take; done. }
  clear E Hq Hb; induction Hq' as [|b l Hb _ IH].
  - simpl; induction n; simpl; congruence.
  - simpl; rewrite IH; f_equal; apply wrap_u_small; exact Hb.
Qed.

Lemma console_rx_fifo_witness :
  getc_n 4 (abr_console_rx_cb [[65]; [66; 67]] []) = [65; 66; 67; -1].
Proof.
  destruct (console_rx_fifo [[65]; [66; 67]] [] 1 ltac:(simpl; lia)
    ltac:(repeat constructor; unfold is_byte; simpl; lia)) as (_ & _ & H); exact H.
Defined.

(** ** The control register *)

(** What was last stored to a register. *)
Fixpoint last_write (a : Z) (rev_h : hist) : option Z :=
  match rev_h with
  | [] => None
  | (Xil_Out32 b v, _) :: rev_h => if b =? a then Some v else last_write a rev_h
  | _ :: rev_h => last_write a rev_h
  end.

Section ControlRegister.
Context `{rt : AieRt}.
Variables regs uart_irqn cr0 : Z.

(** The control register holds what was last stored to it; it is not the interrupt
    controller's register. *)
Definition cr_val (h : hist) : Z := default cr0 (last_write (cr regs) (rev h)).
Hypothesis Hcr : forall h, out (drv h (Xil_In32 (cr regs))) = cr_val h.
Hypothesis Hgic : cr regs <> GICD_CTLR_ADDR.

Definition writes_cr (c : call) : option Z :=
  match c with Xil_Out32 b v => if b =? cr regs then Some v else None | _ => None end.

Lemma cr_val_exec c h : cr_val (after h [c]) = default (cr_val h) (writes_cr c).
Proof.
  unfold cr_val, after; cbn [events]; rewrite rev_app_distr; simpl.
  destruct c; try done; simpl; destruct (_ =? _); done.
Qed.

(** A program that returns and stores [v] to the register, or leaves it alone. *)
Definition cr_becomes {A} (m : M A) (h : hist) (v : Z) : Prop :=
  exists x h', m h = Some (x, h') /\ cr_val h' = v.

Lemma cr_bind {A B} (m : M A) (k : A -> M B) h v v' :
  cr_becomes m h v -> (forall x h', cr_val h' = v -> cr_becomes (k x) h' v') ->
  cr_becomes (bind m k) h v'.
Proof.
  intros (x & h' & Hm & Hv) Hk; destruct (Hk x h' Hv) as (y & h'' & Hy & Hv').
  exists y, h''; rewrite (bind_Some _ _ _ _ _ Hm); done.
Qed.

Lemma cr_exec c h : writes_cr c = None -> cr_becomes (exec c) h (cr_val h).
Proof. intros H; eexists _, _; split; [apply exec_eq|]; rewrite cr_val_exec, H; done. Qed.

Lemma cr_exec_ c h : writes_cr c = None -> cr_becomes (exec_ c) h (cr_val h).
Proof. intros H; eexists _, _; split; [apply exec__eq|]; rewrite cr_val_exec, H; done. Qed.

Lemma cr_ret {A} (a : A) h : cr_becomes (ret a) h (cr_val h).
Proof. eexists _, _; done. Qed.

Lemma cr_rmw f h : cr_becomes (rmw (cr regs) f) h (u32 (f (u32 (cr_val h)))).
Proof.
  unfold rmw; eexists _, _; split.
  - rewrite (bind_Some _ _ _ _ _ (exec_eq _ _)), exec__eq; reflexivity.
  - rewrite cr_val_exec; simpl; rewrite Z.eqb_refl, Hcr; done.
Qed.

Lemma cr_rmw_other a f h : a <> cr regs -> cr_becomes (rmw a f) h (cr_val h).
Proof.
  intros Ha; unfold rmw; eapply cr_bind; [apply cr_exec; done|].
  intros x h' <-; apply cr_exec_; simpl; rewrite (proj2 (Z.eqb_neq _ _) Ha); done.
Qed.

Lemma cr_spin_while mask n h : cr_becomes (spin_while regs mask n) h (cr_val h).
Proof.
  revert h; induction n as [|n IH]; intros h; cbn [spin_while];
    (eapply cr_bind; [apply cr_exec; done|]); intros x h' <-; destruct (has mask x);
    (apply cr_ret || apply IH).
Qed.

Lemma cr_drain_fifo n h : cr_becomes (drain_fifo regs n) h (cr_val h).
Proof.
  revert h; induction n as [|n IH]; intros h; cbn [drain_fifo]; [apply cr_ret|].
  eapply cr_bind; [apply cr_exec; done|]; intros x h' <-; destruct (has _ x); [apply cr_ret|].
  eapply cr_bind; [apply cr_exec_; done|]; intros ? h'' <-; apply IH.
Qed.

Lemma cr_poll fuel n h :
  stops_within n (Xil_In32 (fr regs)) (fun r => negb (has FR_BUSY r)) -> (n < fuel)%nat ->
  cr_becomes (poll_until fuel (Xil_In32 (fr regs)) (fun r => negb (has FR_BUSY r)) 0) h (cr_val h).
Proof.
  intros Hs Hf; destruct (poll_until_total n fuel _ _ 0 h Hs Hf) as (r & ds & h' & E).
  exists (r, ds), h'; split; [exact E|].
  destruct (poll_until_inv _ _ _ _ _ _ _ _ E) as (k & _ & _ & _ & _ & -> & _).
  generalize (S k) as j; intros j; induction j as [|j IH]; [simpl; rewrite after_nil; done|].
  replace (replicate (S j) (Xil_In32 (fr regs))) with
    (replicate j (Xil_In32 (fr regs)) ++ [Xil_In32 (fr regs)])
    by (rewrite <- replicate_cons_app; done).
  rewrite <- after_app, cr_val_exec; exact IH.
Qed.

(** Bits of a 32-bit value. *)
Lemma u32_testbit x i : 0 <= i -> Z.testbit (u32 x) i = (i <? 32) && Z.testbit x i.
Proof.
  intros Hi; unfold wrap_u; destruct (Z.ltb_spec i 32).
  - rewrite Z.mod_pow2_bits_low by lia; done.
  - rewrite Z.mod_pow2_bits_high by lia; done.
Qed.

Lemma bit_testbit k i : 0 <= k -> 0 <= i -> Z.testbit (Z.shiftl 1 k) i = (i =? k).
Proof.
  intros; rewrite Z.shiftl_spec by done; destruct (Z.eqb_spec i k) as [->|].
  - rewrite Z.sub_diag; done.
  - destruct (Z.ltb_spec i k); [rewrite Z.testbit_neg_r by lia; done|].
    rewrite (Z.bits_above_log2 1) by (simpl; lia); done.
Qed.

Lemma cr_conseq {A} (m : M A) h v v' : cr_becomes m h v -> v = v' -> cr_becomes m h v'.
Proof. intros H <-; exact H. Qed.

Definition clear_of (m v : Z) : Z := u32 (Z.land (u32 v) (Z.lnot m)).
Definition set_of (m v : Z) : Z := u32 (Z.lor (u32 v) m).
Definition enables : Z := Z.lor (Z.lor (Z.lor CR_TXE CR_RXE) CR_DTR) CR_RTS.

(** One step of a program, by the lemma for its first statement. *)
Ltac cr_stmt :=
  lazymatch goal with
  | |- cr_becomes (spin_while _ _ _) _ _ => apply cr_spin_while
  | |- cr_becomes (drain_fifo _ _) _ _ => apply cr_drain_fifo
  | |- cr_becomes (rmw (cr _) _) _ _ => apply cr_rmw
  | |- cr_becomes (rmw _ _) _ _ =>
      apply cr_rmw_other; unfold cr, PL011_CR, PL011_LCRH in *; (lia || congruence)
  | |- cr_becomes (exec _) _ _ => apply cr_exec; reflexivity
  | |- cr_becomes (exec_ (Xil_Out32 _ _)) _ _ =>
      apply cr_exec_; cbn [writes_cr]; rewrite (proj2 (Z.eqb_neq _ _)); [reflexivity|];
      unfold cr, dr, PL011_CR, PL011_DR, PL011_RSR, PL011_IMSC in *; lia
  | |- cr_becomes (exec_ _) _ _ => apply cr_exec_; reflexivity
  end.
Ltac cr_step := eapply cr_bind; [cr_stmt|]; intros ? ? ?.
Ltac cr_end :=
  repeat match goal with E : cr_val _ = _ |- _ => rewrite E; clear E end;
  unfold set_of, clear_of, enables; reflexivity.

Lemma enable_receiver_cr fuel n h :
  stops_within n (Xil_In32 (fr regs)) (fun r => negb (has FR_BUSY r)) -> (n < fuel)%nat ->
  cr_becomes (enable_receiver regs fuel) h
    (set_of CR_UARTEN (set_of enables (clear_of CR_UARTEN (cr_val h)))).
Proof.
  intros Hs Hf; unfold enable_receiver, clear_bits, set_bits.
  eapply cr_bind; [apply (cr_poll _ _ _ Hs Hf)|]; intros [? ?] ? ?; do 5 cr_step.
  eapply cr_conseq; [cr_stmt|cr_end].
Qed.

Lemma rx_prime_cr h :
  cr_becomes (rx_prime regs) h
    (set_of CR_UARTEN (clear_of CR_LBE (clear_of CR_UARTEN
      (set_of CR_UARTEN (set_of CR_LBE (clear_of CR_UARTEN (cr_val h))))))).
Proof.
  unfold rx_prime, clear_bits, set_bits; do 14 cr_step.
  eapply cr_conseq; [apply cr_ret|cr_end].
Qed.

Lemma wire_interrupt_cr h : cr_becomes (wire_interrupt uart_irqn) h (cr_val h).
Proof.
  unfold wire_interrupt, set_bits; do 7 cr_step; eapply cr_conseq; [cr_stmt|cr_end].
Qed.

(** bringing up the console always ends when the UART becomes idle: it reports success and
    leaves the control register with the UART, its transmitter and receiver and both
    modem lines enabled and the loopback of the self-test off; the other bits are as before. *)
Theorem uart_rx_init_enables fuel n h :
  stops_within n (Xil_In32 (fr regs)) (fun r => negb (has FR_BUSY r)) -> (n < fuel)%nat ->
  exists got h', versal_sbsa_uart_rx_init regs uart_irqn fuel true h = Some ((0, got), h') /\
    forall i, 0 <= i -> Z.testbit (cr_val h') i =
      (i <? 32) && (negb (i =? 7) &&
        ((i =? 0) || (i =? 8) || (i =? 9) || (i =? 10) || (i =? 11) || Z.testbit (cr_val h) i)).
Proof.
  intros Hs Hf.
  destruct (enable_receiver_cr fuel n h Hs Hf) as ([] & h1 & E1 & V1).
  destruct (rx_prime_cr h1) as (got & h2 & E2 & V2).
  destruct (wire_interrupt_cr h2) as ([] & h3 & E3 & V3).
  exists got, h3; split.
  - unfold versal_sbsa_uart_rx_init; cbn [negb].
    rewrite (bind_Some _ _ _ _ _ E1), (bind_Some _ _ _ _ _ E2), (bind_Some _ _ _ _ _ E3); done.
  - intros i Hi; rewrite V3, V2, V1; unfold set_of, clear_of, enables.
    unfold CR_UARTEN, CR_TXE, CR_RXE, CR_DTR, CR_RTS, CR_LBE.
    repeat (rewrite ?u32_testbit, ?Z.lor_spec, ?Z.land_spec, ?Z.lnot_spec, ?bit_testbit by lia).
    destruct (Z.ltb_spec i 32); [|done].
    destruct (Z.testbit (cr_val h) i), (Z.eqb_spec i 0), (Z.eqb_spec i 7), (Z.eqb_spec i 8),
      (Z.eqb_spec i 9), (Z.eqb_spec i 10), (Z.eqb_spec i 11); try lia; reflexivity.
Qed.
End ControlRegister.

(** A UART whose control register reads back and whose flags are clear. *)
Definition uart_rt : AieRt := {|
  drv := fun h c =>
    match c with
    | Xil_In32 a => if a =? 0xFF000030 then mkResp 0 (default 0 (last_write a (rev h))) []
                    else mkResp 0 0 []
    | _ => mkResp 0 0 []
    end;
  XAIE_ERR := 1; XAIE_CORE_STATUS_TIMEOUT := 12; XAIE_LOCK_WITH_NO_VALUE := -1;
  XAIE_DEV_GEN_AIE := 1; XAIE_DEV_GEN_AIEML := 2; XAIE_DEV_GEN_S100 := 6; XAIE_DEV_GEN_S200 := 7
|}.

Lemma uart_rx_init_enables_witness :
  exists got h', @versal_sbsa_uart_rx_init uart_rt 0xFF000000 50 1 true [] = Some ((0, got), h') /\
    Z.testbit (cr_val 0xFF000000 0 h') 9 = true.
Proof.
  destruct (@uart_rx_init_enables uart_rt 0xFF000000 50 0) with (fuel := 1%nat) (n := 0%nat)
    (h := @nil event) as (got & h' & H & Hb).
  - intros h; reflexivity.
  - discriminate.
  - intros h; exists 0%nat; split; [lia|reflexivity].
  - lia.
  - exists got, h'; split; [exact H|]; rewrite Hb by lia; reflexivity.
Defined.
