(* ===== verification/Classify.v ===== *)
(** * The image classification application

    [example/example_ai_model/aeg/res18sw/sw/resnet18_top.cpp] is the host program of the ResNet
    example: it allocates the buffers through the graph object, publishes their addresses in
    [external_map], lets the serialized transaction of [transactionsubmit.h] run the network and
    reads the class with the highest score; a menu selects local runs, a benchmark or the network
    server.  The model composes what the other files provide:
    - the graph object is an interface, [GraphObject], which the application is written against;
      the runtime's [AieApi] operations implement it, and so does a log of the operations;
    - the transaction is [Txn.executeRuntimeControl_TXN];
    - the Zephyr console is read with [UartRx.abr_console_rx_getc].
    The generated name table ([nameIdMapping]) and the linked-in data are parameters.  The floating
    point statistics of the benchmark are printed only and left out. *)
From Stdlib Require Import ZArith Lia Ascii String.
From stdpp Require Import base list gmap strings pretty.
From S2P Require Import Prelude ApiTypes Driver GraphApi ConfigBin Configure Regs Cdo Event AieGraph AieApi.
From S2P Require Import Txn.
From S2P Require Import UartRx.
Local Open Scope Z_scope.
Local Open Scope aeg_scope.

(** ** The graph object *)

(** What the application uses of [BaremetalGraph]: [init] and [run] and [end] with whether they
    succeeded, [malloc] with the address or zero, and [free]. *)
Class GraphObject (S : Type) := {
  gr_init : S -> M (bool * S);
  gr_malloc : Z -> S -> M (Z * S);
  gr_run : Z -> S -> M (bool * S);
  gr_end : S -> M (bool * S);
  gr_free : Z -> S -> M (bool * S)
}.

(** ** Constants *)

(** [example/example_ai_model/aeg/res18sw/sw/resnet18_top.cpp:122-123] [wts_ddr_offset] *)
Definition NUM_LAYERS : nat := 23.
Definition wts_ddr_offset : list Z :=
  [0; 3776; 13760; 23744; 33728; 43712; 64704; 67392; 106816; 146240; 185664; 264512; 275008; 432704;
   590400; 748096; 1063488; 1100864; 1416256; 1731648; 2362432; 2677824; 2993216].

(** [example/example_ai_model/aeg/res18sw/sw/resnet18_top.cpp:139-145] [ifm_size] *)
Definition ifm_size : Z := 200704.
Definition wts_size : Z := 12632320.
Definition ofm_size : Z := 2048.

(** ** Pure parts *)

(** The loop of [argmax] from index [i] on, with the best value and its index so far; the index is
    a 16-bit variable.
    [example/example_ai_model/aeg/res18sw/sw/resnet18_top.cpp:149-154] [argmax] *)
Fixpoint argmax_loop (i : Z) (vmax idx : Z) (l : list Z) : Z :=
  match l with
  | [] => idx
  | x :: l => if vmax <? x then argmax_loop (i + 1) x (u16 i) l else argmax_loop (i + 1) vmax idx l
  end.

(** [array] has at least one element.
    [example/example_ai_model/aeg/res18sw/sw/resnet18_top.cpp:147-157] [argmax] *)
Definition argmax (array : list Z) : Z :=
  match array with [] => 0 | x :: l => argmax_loop 1 x 0 l end.

(** A separator of the console input.
    [example/example_ai_model/aeg/res18sw/sw/resnet18_top.cpp:99-99] [zephyr_console_getline] *)
Definition separator (c : Z) : bool := (c =? 13) || (c =? 10) || (c =? 32) || (c =? 9).

(** The queue holds the bytes that are still to come.  With an empty token and a bounded wait an
    empty queue is the timeout; otherwise the call waits without end, which is [None].
    [example/example_ai_model/aeg/res18sw/sw/resnet18_top.cpp:92-107] [zephyr_console_getline] *)
Fixpoint console_getline (bounded : bool) (fuel : nat) (tok : list Z) (q : list Z) : option (list Z * list Z) :=
  match fuel with
  | O => None
  | S fuel =>
      let '(c, q') := abr_console_rx_getc q in
      if c <? 0 then (if decide (tok = []) then (if bounded then Some (tok, q') else None) else None)
      else if separator c then
        (if decide (tok = []) then console_getline bounded fuel tok q' else Some (tok, q'))
      else console_getline bounded fuel (tok ++ [c]) q'
  end.

(** [example/example_ai_model/aeg/res18sw/sw/resnet18_top.cpp:92-107] [zephyr_console_getline] *)
Definition zephyr_console_getline (bounded : bool) (q : list Z) : option (list Z * list Z) :=
  console_getline bounded (S (List.length q)) [] q.

(** The decimal index in a buffer's name. *)
Definition idx_str (i : nat) : string := pretty (N.of_nat i).

Section Application.
Context `{rt : AieRt} {F : TxnFormat} {S : Type} {GO : GraphObject S}.
(** The build: several instances of the network in one graph, the Zephyr runtime, how many. *)
Context (BATCH_GRAPH zephyr : bool) (NUM_INST : nat).
(** The generated table of buffer numbers, the linked-in transaction, weights and image. *)
Context (getid : string -> Z) (ml_txn_bin : list Z) (base : Z) (fuel : nat).
Context (wts32 : list Z) (ifm32 : Z * list Z).
Context (BENCH_LOOPS : nat).

(** [example/example_ai_model/aeg/res18sw/sw/resnet18_top.cpp:134-138] [ExternSetAddr] *)
Definition ExternSetAddr (buffer_name : string) (addr : Z) (external_map : gmap Z Z) : gmap Z Z :=
  <[getid buffer_name := addr]> external_map.

(** The globals of the program.
    [example/example_ai_model/aeg/res18sw/sw/resnet18_top.cpp:59-61] [g_run_ticks] *)
Record app_state := mkApp {
  external_map : gmap Z Z;
  ifm_buf : list Z; ofm_buf : list Z; wts_buf : Z;
  g_run_ticks : Z; g_ctrl_ticks : Z; g_phase_rounds : Z }.

(** The names of an instance's input and output.
    [example/example_ai_model/aeg/res18sw/sw/resnet18_top.cpp:195-211] [process_data] *)
Definition ifm_name (inst : nat) : string :=
  if BATCH_GRAPH then "compute_graph.resnet18_" +:+ idx_str inst +:+ ".ifm_ddr" else "compute_graph.ifm_ddr".
Definition ofm_name (inst : nat) : string :=
  if BATCH_GRAPH then "compute_graph.resnet18_" +:+ idx_str inst +:+ ".ofm_ddr" else "compute_graph.ofm_ddr".

(** The name of a layer's weights.
    [example/example_ai_model/aeg/res18sw/sw/resnet18_top.cpp:317-321] [main] *)
Definition wts_name (i : nat) : string :=
  if BATCH_GRAPH then "compute_graph.wts_ddr[" +:+ idx_str i +:+ "]"
  else "compute_graph.resnet_layers[" +:+ idx_str i +:+ "].wts_ddr".

(** The instances that are run in one round. *)
Definition instances : nat := if BATCH_GRAPH then NUM_INST else 1.

(** Publishing the input and the output of the instances, with the outputs' cache lines dropped.
    [example/example_ai_model/aeg/res18sw/sw/resnet18_top.cpp:194-213] [process_data] *)
Definition publish_io (ifm_in : Z) (st : app_state) : M app_state :=
  for_each (fun inst st =>
      let m := ExternSetAddr (ifm_name inst) ifm_in (external_map st) in
      let m := ExternSetAddr (ofm_name inst) (nth inst (ofm_buf st) 0) m in
      exec_ (Xil_DCacheInvalidateRange (nth inst (ofm_buf st) 0) ofm_size) ;;;
      ret (mkApp m (ifm_buf st) (ofm_buf st) (wts_buf st) (g_run_ticks st) (g_ctrl_ticks st) (g_phase_rounds st)))
    (seq 0 instances) st.

(** On Zephyr the image is copied into the first input buffer, word by word.
    [example/example_ai_model/aeg/res18sw/sw/resnet18_top.cpp:183-193] [process_data] *)
Definition stage_input (ifm_data : Z * list Z) (ifm_data_len : Z) (st : app_state) : M Z :=
  if zephyr then
    for_each (fun iw _ => exec_ (cpu_store (nth 0 (ifm_buf st) 0 + 4 * Z.of_nat (fst iw)) (le_bytes 4 (snd iw))))
      (zip (seq 0 (Z.to_nat (ifm_data_len / 4))) (snd ifm_data)) tt ;;;
    ret (nth 0 (ifm_buf st) 0)
  else ret (fst ifm_data).

(** A system time. *)
Definition get_time : M Z := r <-- exec XTime_GetTime ;; ret (u64 (out r)).

(** The scores: a thousand 16-bit numbers in the first output buffer. *)
Fixpoint halves (bs : list Z) : list Z :=
  match bs with
  | a :: b :: bs => (a + 256 * b) :: halves bs
  | _ => []
  end.

(** A length other than the expected one is only reported.
    [example/example_ai_model/aeg/res18sw/sw/resnet18_top.cpp:158-264] [process_data] *)
Definition process_data (ifm_data : option (Z * list Z)) (ifm_data_len : Z) (st : app_state) : M (Z * app_state) :=
  match ifm_data with
  | None => ret (-1, st)
  | Some d =>
      get_time ;;;
      ifm_in <-- stage_input d ifm_data_len st ;;
      st <-- publish_io ifm_in st ;;
      pr0 <-- get_time ;;
      pr1 <-- get_time ;;
      executeRuntimeControl_TXN base (external_map st) fuel ml_txn_bin ;;;
      pr2 <-- get_time ;;
      let st := mkApp (external_map st) (ifm_buf st) (ofm_buf st) (wts_buf st)
                  (u64 (g_run_ticks st + u64 (pr1 - pr0))) (u64 (g_ctrl_ticks st + u64 (pr2 - pr1)))
                  (u64 (g_phase_rounds st + 1)) in
      r <-- exec (cpu_load (nth 0 (ofm_buf st) 0) 2000) ;;
      get_time ;;;
      ret (s16 (argmax (halves (outb r))), st)
  end.

(** The integer statistics of a benchmark.
    [example/example_ai_model/aeg/res18sw/sw/resnet18_top.cpp:389-394] [main] *)
Record bench := mkBench { min_ticks : Z; max_ticks : Z; rounds : Z }.

(** [example/example_ai_model/aeg/res18sw/sw/resnet18_top.cpp:395-411] [main] *)
Fixpoint bench_loop (n : nat) (b : bench) (st : app_state) : M (bench * app_state) :=
  match n with
  | O => ret (b, st)
  | Datatypes.S n =>
      r0 <-- get_time ;;
      let* (_, st) := process_data (Some ifm32) ifm_size st in
      r1 <-- get_time ;;
      let ticks := u64 (r1 - r0) in
      bench_loop n (mkBench (if ticks <? min_ticks b then ticks else min_ticks b)
                     (if max_ticks b <? ticks then ticks else max_ticks b) (rounds b + 1)) st
  end.

(** The benchmark of the menu, with the phase counters cleared first.
    [example/example_ai_model/aeg/res18sw/sw/resnet18_top.cpp:362-465] [main] *)
Definition benchmark (st : app_state) : M (bench * app_state) :=
  get_time ;;;
  let* (b, st) := bench_loop BENCH_LOOPS (mkBench (2 ^ 64 - 1) 0 0)
     (mkApp (external_map st) (ifm_buf st) (ofm_buf st) (wts_buf st) 0 0 0) in
  get_time ;;;
  ret (b, st).

(** The network server of [netprocess.h]; it returns only when the interface does not come up. *)
Context (net_server : app_state -> M app_state).

(** The menu of the baremetal build, on the words that are typed; anything but the four options
    asks again.  At the end of the input the program waits for ever.
    [example/example_ai_model/aeg/res18sw/sw/resnet18_top.cpp:265-281] [get_run_arg] *)
Fixpoint menu_baremetal (words : list string) (st : app_state) : M app_state :=
  match words with
  | [] => undefined
  | w :: words =>
      if decide (w = "l"%string) then
        let* (_, st) := process_data (Some ifm32) ifm_size st in menu_baremetal words st
      else if decide (w = "b"%string) then
        let* (_, st) := benchmark st in menu_baremetal words st
      else if decide (w = "n"%string) then net_server st
      else if decide (w = "q"%string) then ret st
      else menu_baremetal words st
  end.

(** The menu of the Zephyr build, on the bytes of the console: the first prompt is bounded in time,
    and a board without a console runs one classification and leaves.
    [example/example_ai_model/aeg/res18sw/sw/resnet18_top.cpp:329-484] [main] *)
Fixpoint menu_zephyr (fuel : nat) (interactive : bool) (q : list Z) (st : app_state) : M app_state :=
  match fuel with
  | O => out_of_fuel
  | Datatypes.S fuel =>
      match zephyr_console_getline (negb interactive) q with
      | None => undefined
      | Some (tok, q) =>
          let interactive := if decide (tok = []) then interactive else true in
          let rtype := if decide (tok = []) then [108] else tok in
          let continue_ (st : app_state) : M app_state := if interactive then menu_zephyr fuel interactive q st else ret st in
          if decide (rtype = [108]) then
            let* (_, st) := process_data (Some ifm32) ifm_size st in continue_ st
          else if decide (rtype = [98]) then
            let* (_, st) := benchmark st in continue_ st
          else if decide (rtype = [113]) then ret st
          else continue_ st
      end
  end.

(** Allocation of the buffers, two for every instance.
    [example/example_ai_model/aeg/res18sw/sw/resnet18_top.cpp:295-298] [main] *)
Definition alloc_buffers (s : S) : M (list Z * list Z * S) :=
  for_each (fun _ '(ifm, ofm, s) =>
      let* (a, s) := gr_malloc (ifm_size + 1024) s in
      let* (b, s) := gr_malloc ofm_size s in
      ret (ifm ++ [a], ofm ++ [b], s)) (seq 0 NUM_INST) ([], [], s).

(** The addresses of the weights of all layers.
    [example/example_ai_model/aeg/res18sw/sw/resnet18_top.cpp:316-322] [main] *)
Definition publish_weights (wts : Z) (m : gmap Z Z) : gmap Z Z :=
  fold_left (fun m i => ExternSetAddr (wts_name i) (wts + 4 * nth i wts_ddr_offset 0) m) (seq 0 NUM_LAYERS) m.

(** The weights are copied word by word.
    [example/example_ai_model/aeg/res18sw/sw/resnet18_top.cpp:315-315] [main] *)
Definition copy_weights (wts : Z) : M unit :=
  for_each (fun iw _ => exec_ (cpu_store (wts + 4 * Z.of_nat (fst iw)) (le_bytes 4 (snd iw))))
    (zip (seq 0 (Z.to_nat (wts_size / 4))) wts32) tt.

(** The buffers are given back in pairs, the weights last.
    [example/example_ai_model/aeg/res18sw/sw/resnet18_top.cpp:515-519] [main] *)
Definition free_buffers (st : app_state) (s : S) : M S :=
  s <-- for_each (fun inst s =>
      let* (_, s) := gr_free (nth inst (ifm_buf st) 0) s in
      let* (_, s) := gr_free (nth inst (ofm_buf st) 0) s in ret s) (seq 0 NUM_INST) s ;;
  let* (_, s) := gr_free (wts_buf st) s in ret s.

(** Only the buffer of the weights is checked.
    [example/example_ai_model/aeg/res18sw/sw/resnet18_top.cpp:282-522] [main] *)
Definition main (menu : app_state -> M app_state) (s : S) : M (Z * S) :=
  let* (good, s) := gr_init s in
  if negb good then ret (-1, s)
  else
    let* (bufs, s) := alloc_buffers s in
    let* (wts, s) := gr_malloc wts_size s in
    if wts =? 0 then ret (-1, s)
    else
      let* (_, s) := gr_run (-1) s in
      copy_weights wts ;;;
      st <-- menu (mkApp (publish_weights wts ∅) (fst bufs) (snd bufs) wts 0 0 0) ;;
      let* (_, s) := gr_end s in
      s <-- free_buffers st s ;;
      ret (0, s).
End Application.

(** ** The best class *)

(** [idx] is the first position of the largest element of [l]. *)
Definition first_maximum (l : list Z) (idx : nat) : Prop :=
  exists x, l !! idx = Some x /\ (forall j y, l !! j = Some y -> y <= x) /\
    (forall j y, (j < idx)%nat -> l !! j = Some y -> y < x).

Lemma argmax_loop_first l : forall pre idx,
  Z.of_nat (List.length (pre ++ l)) <= 65536 -> first_maximum pre idx ->
  exists idx', argmax_loop (Z.of_nat (List.length pre)) (nth idx pre 0) (Z.of_nat idx) l = Z.of_nat idx' /\
    first_maximum (pre ++ l) idx'.
Proof.
  induction l as [|x l IH]; intros pre idx Hlen Hp; cbn [argmax_loop].
  { exists idx. by rewrite app_nil_r. }
  destruct Hp as (m & Hm & Hmax & Hfirst). pose proof (lookup_lt_Some _ _ _ Hm).
  rewrite (nth_lookup_Some _ _ 0 _ Hm).
  replace (Z.of_nat (List.length pre) + 1) with (Z.of_nat (List.length (pre ++ [x])))
    by (rewrite length_app; cbn; lia).
  rewrite length_app in Hlen. cbn in Hlen.
  assert (Hsplit : pre ++ x :: l = (pre ++ [x]) ++ l) by (by rewrite <- app_assoc).
  rewrite Hsplit. destruct (Z.ltb_spec m x) as [Hlt|Hge].
  - unfold u16, wrap_u. rewrite Z.mod_small by lia.
    pose proof (IH (pre ++ [x]) (List.length pre)) as IH'. rewrite nth_middle in IH'. apply IH'.
    + rewrite !length_app. cbn. lia.
    + exists x. split; [by rewrite list_lookup_middle|]. split; intros j y.
      * intros [Hj|[_ [_ ->]%list_lookup_singleton_Some]]%lookup_app_Some; [|lia].
        apply Hmax in Hj. lia.
      * intros Hj Hy. rewrite lookup_app_l in Hy by done. apply Hmax in Hy. lia.
  - pose proof (IH (pre ++ [x]) idx) as IH'.
    rewrite app_nth1, (nth_lookup_Some _ _ 0 _ Hm) in IH' by done. apply IH'.
    + rewrite !length_app. cbn. lia.
    + exists m. split; [by rewrite lookup_app_l|]. split; intros j y.
      * intros [Hj|[_ [_ ->]%list_lookup_singleton_Some]]%lookup_app_Some; [by eapply Hmax | lia].
      * intros Hj Hy. rewrite lookup_app_l in Hy by lia. by eapply Hfirst.
Qed.

Lemma argmax_first array :
  array <> [] -> Z.of_nat (List.length array) <= 65536 ->
  exists idx, argmax array = Z.of_nat idx /\ first_maximum array idx.
Proof.
  destruct array as [|x l]; [done|]. intros _ Hlen.
  apply (argmax_loop_first l [x] 0%nat Hlen). exists x. split; [done|].
  split; intros [|j] y; cbn; try done; [by intros [= ->] | lia].
Qed.

(** the class the program reports is the first one with the highest score: [argmax] of up to
    65536 scores is the index of a largest one, and every earlier score is smaller. *)
Theorem argmax_first_maximum array :
  array <> [] -> Z.of_nat (List.length array) <= 65536 ->
  exists idx, argmax array = Z.of_nat idx /\ first_maximum array idx.
Proof. apply argmax_first. Qed.

(** ** The console *)

Definition is_byte (c : Z) : Prop := 0 <= c < 256.

Lemma getc_byte c q : is_byte c -> abr_console_rx_getc (c :: q) = (c, q).
Proof. intros H. cbn. unfold u8, wrap_u. by rewrite Z.mod_small. Qed.

Lemma getline_token bounded toks : forall fuel acc sep rest,
  Forall (fun c => is_byte c /\ separator c = false) toks -> is_byte sep -> separator sep = true ->
  (acc <> [] \/ toks <> []) -> (List.length toks < fuel)%nat ->
  console_getline bounded fuel acc (toks ++ sep :: rest) = Some (acc ++ toks, rest).
Proof.
  induction toks as [|c toks IH]; intros fuel acc sep rest Ht Hs Hsep Hne Hf;
    (destruct fuel as [|fuel]; [cbn in Hf; lia|]); cbn [console_getline app].
  - rewrite getc_byte by done. rewrite (proj2 (Z.ltb_ge sep 0)) by (unfold is_byte in Hs; lia).
    rewrite Hsep, app_nil_r. by rewrite decide_False by naive_solver.
  - apply Forall_cons in Ht as [[Hc Hsc] Ht]. rewrite getc_byte by done.
    rewrite (proj2 (Z.ltb_ge c 0)), Hsc by (unfold is_byte in Hc; lia).
    rewrite IH; [by rewrite <- app_assoc | done | done | done | left; by destruct acc | cbn in Hf; lia].
Qed.

Lemma getline_skip bounded seps : forall fuel q, Forall (fun c => is_byte c /\ separator c = true) seps ->
  console_getline bounded (List.length seps + fuel) [] (seps ++ q) = console_getline bounded fuel [] q.
Proof.
  induction seps as [|c seps IH]; intros fuel q Hs; [done|].
  apply Forall_cons in Hs as [[Hc Hsc] Hs]. cbn [List.length Nat.add console_getline app].
  rewrite getc_byte by done. rewrite (proj2 (Z.ltb_ge c 0)), Hsc by (unfold is_byte in Hc; lia).
  rewrite decide_True by done. by apply IH.
Qed.

(** the console reader returns the word that is typed: separators before it are skipped, the
    word ends at the next separator, which is consumed, and what is typed after it stays for the
    next call.  Without any word a bounded wait ends in the empty token. *)
Theorem console_word bounded seps toks sep rest :
  Forall (fun c => is_byte c /\ separator c = true) seps ->
  Forall (fun c => is_byte c /\ separator c = false) toks -> toks <> [] ->
  is_byte sep -> separator sep = true ->
  zephyr_console_getline bounded (seps ++ toks ++ sep :: rest) = Some (toks, rest) /\
  zephyr_console_getline true seps = Some ([], []).
Proof.
  intros Hs Ht Hne Hb Hsep. unfold zephyr_console_getline. split.
  - replace (S (List.length (seps ++ toks ++ sep :: rest)))
      with (List.length seps + S (List.length (toks ++ sep :: rest)))%nat by (rewrite (length_app seps); lia).
    rewrite getline_skip by done. rewrite getline_token; [done | done | done | done | by right |].
    rewrite length_app. lia.
  - rewrite <- (app_nil_r seps) at 2. rewrite <- Nat.add_1_r, getline_skip by done. done.
Qed.

(** ** The published addresses *)

(** Assignments to a map, one after the other. *)
Definition assign (l : list (Z * Z)) (m : gmap Z Z) : gmap Z Z :=
  fold_left (fun m kv => <[fst kv := snd kv]> m) l m.

Lemma assign_other l : forall m k, k ∉ l.*1 -> assign l m !! k = m !! k.
Proof.
  induction l as [|[k' v] l IH]; intros m k Hk; [done|]. cbn in Hk. apply not_elem_of_cons in Hk as [Hne Hk].
  change (assign ((k', v) :: l) m) with (assign l (<[k' := v]> m)). rewrite IH by done.
  by rewrite lookup_insert_ne.
Qed.

Lemma assign_in l : forall m k v, NoDup l.*1 -> (k, v) ∈ l -> assign l m !! k = Some v.
Proof.
  induction l as [|[k' v'] l IH]; intros m k v Hnd Hin; [by apply elem_of_nil in Hin|].
  cbn in Hnd. apply NoDup_cons in Hnd as [Hk' Hnd].
  change (assign ((k', v') :: l) m) with (assign l (<[k' := v']> m)).
  apply elem_of_cons in Hin as [[= -> ->]|Hin]; [|by apply IH].
  rewrite assign_other by done. by rewrite lookup_insert_eq.
Qed.

Section Published.
Context (BATCH_GRAPH : bool) (NUM_INST : nat) (getid : string -> Z).

(** The buffers a transaction may ask for. *)
Definition io_names : list string :=
  flat_map (fun i => [ifm_name BATCH_GRAPH i; ofm_name BATCH_GRAPH i]) (seq 0 (instances BATCH_GRAPH NUM_INST)).
Definition buffer_names : list string := io_names ++ (wts_name BATCH_GRAPH <$> seq 0 NUM_LAYERS).

Definition io_pairs (ifm_in : Z) (ofm : list Z) : list (Z * Z) :=
  flat_map (fun i => [(getid (ifm_name BATCH_GRAPH i), ifm_in); (getid (ofm_name BATCH_GRAPH i), nth i ofm 0)])
    (seq 0 (instances BATCH_GRAPH NUM_INST)).
Definition wts_pairs (wts : Z) : list (Z * Z) :=
  (fun i => (getid (wts_name BATCH_GRAPH i), wts + 4 * nth i wts_ddr_offset 0)) <$> seq 0 NUM_LAYERS.

Lemma io_pairs_keys ifm_in ofm : (io_pairs ifm_in ofm).*1 = getid <$> io_names.
Proof. unfold io_pairs, io_names. induction (seq 0 _) as [|i l IH]; [done|]. cbn. by rewrite IH. Qed.

Lemma wts_pairs_keys wts : (wts_pairs wts).*1 = getid <$> (wts_name BATCH_GRAPH <$> seq 0 NUM_LAYERS).
Proof. unfold wts_pairs. rewrite <- !list_fmap_compose. done. Qed.

Lemma publish_weights_assign wts m : publish_weights BATCH_GRAPH getid wts m = assign (wts_pairs wts) m.
Proof.
  unfold publish_weights, wts_pairs. revert m.
  induction (seq 0 NUM_LAYERS) as [|i l IH]; intros m; [done|]. cbn [fold_left fmap list_fmap].
  rewrite IH. done.
Qed.

(** Every layer's weights have their address. *)
Definition weights_published (wts : Z) (m : gmap Z Z) : Prop :=
  forall i, (i < NUM_LAYERS)%nat -> m !! getid (wts_name BATCH_GRAPH i) = Some (wts + 4 * nth i wts_ddr_offset 0).

(** Every instance's input and output have theirs. *)
Definition io_published (ifm_in : Z) (ofm : list Z) (m : gmap Z Z) : Prop :=
  forall i, (i < instances BATCH_GRAPH NUM_INST)%nat ->
    m !! getid (ifm_name BATCH_GRAPH i) = Some ifm_in /\ m !! getid (ofm_name BATCH_GRAPH i) = Some (nth i ofm 0).

Hypothesis ids_distinct : NoDup (getid <$> buffer_names).

Lemma ids_split : NoDup (getid <$> io_names) /\
  NoDup (getid <$> (wts_name BATCH_GRAPH <$> seq 0 NUM_LAYERS)) /\
  (forall k, k ∈ getid <$> io_names -> k ∉ getid <$> (wts_name BATCH_GRAPH <$> seq 0 NUM_LAYERS)).
Proof.
  unfold buffer_names in ids_distinct. rewrite fmap_app in ids_distinct.
  apply NoDup_app in ids_distinct. naive_solver.
Qed.

Lemma weights_assigned wts m : weights_published wts (assign (wts_pairs wts) m).
Proof.
  intros i Hi. apply assign_in.
  - rewrite wts_pairs_keys. apply ids_split.
  - apply list_elem_of_fmap. exists i. split; [done|]. apply elem_of_seq. lia.
Qed.

Lemma io_assigned ifm_in ofm wts m : weights_published wts m ->
  io_published ifm_in ofm (assign (io_pairs ifm_in ofm) m) /\ weights_published wts (assign (io_pairs ifm_in ofm) m).
Proof.
  intros Hw. destruct ids_split as (Hio & _ & Hdisj). split.
  - intros i Hi. split; (apply assign_in; [by rewrite io_pairs_keys|]); unfold io_pairs;
      apply list_elem_of_In, in_flat_map; exists i; (split; [apply in_seq; lia|]); cbn; auto.
  - intros i Hi. rewrite assign_other; [by apply Hw|]. rewrite io_pairs_keys. intros Hk.
    apply (Hdisj _ Hk). apply list_elem_of_fmap. exists (wts_name BATCH_GRAPH i). split; [done|].
    apply list_elem_of_fmap. exists i. split; [done|]. apply elem_of_seq. lia.
Qed.
End Published.

(** The layers' weights lie one after the other inside the buffer. *)
Lemma weights_inside i : (i < NUM_LAYERS)%nat ->
  0 <= 4 * nth i wts_ddr_offset 0 < wts_size /\
  ((S i < NUM_LAYERS)%nat -> nth i wts_ddr_offset 0 < nth (S i) wts_ddr_offset 0).
Proof.
  intros Hi. unfold NUM_LAYERS in *.
  do 23 (destruct i as [|i]; [vm_compute; repeat split; try congruence; lia|]). lia.
Qed.

(** ** One classification *)

(** Calls that do not write a register. *)
Definition quiet (c : call) : bool := match c with Xil_Out32 _ _ => false | _ => true end.

Lemma regs_quiet `{rt : AieRt} r0 cs : forall h, forallb quiet cs = true ->
  regs_after r0 (after h cs) = regs_after r0 h.
Proof.
  induction cs as [|c cs IH]; intros h Hq; [by rewrite after_nil|].
  cbn in Hq. apply andb_true_iff in Hq as [Hc Hq].
  change (c :: cs) with ([c] ++ cs). rewrite <- after_app, IH by done.
  unfold after. cbn [events]. rewrite regs_after_snoc. by destruct c.
Qed.

Section Round.
Context `{rt : AieRt} {F : TxnFormat}.
Context (BATCH_GRAPH zephyr : bool) (NUM_INST : nat) (getid : string -> Z).
Context (base : Z) (fuel : nat).

Local Notation publish_io := (publish_io BATCH_GRAPH NUM_INST getid).
Local Notation io_pairs := (io_pairs BATCH_GRAPH NUM_INST getid).

Definition publish_calls (ofm : list Z) : list call :=
  (fun i => Xil_DCacheInvalidateRange (nth i ofm 0) ofm_size) <$> seq 0 (instances BATCH_GRAPH NUM_INST).

Definition with_map (m : gmap Z Z) (st : app_state) : app_state :=
  mkApp m (ifm_buf st) (ofm_buf st) (wts_buf st) (g_run_ticks st) (g_ctrl_ticks st) (g_phase_rounds st).

Lemma publish_io_eq ifm_in st h :
  publish_io ifm_in st h =
  Some (with_map (assign (io_pairs ifm_in (ofm_buf st)) (external_map st)) st, after h (publish_calls (ofm_buf st))).
Proof.
  unfold Classify.publish_io, Classify.io_pairs, publish_calls.
  revert st h. induction (seq 0 _) as [|i l IH]; intros st h.
  - cbn. rewrite after_nil. by destruct st.
  - cbn [for_each]. unfold bind at 1. cbn [flat_map fmap list_fmap].
    unfold bind at 1. rewrite exec__eq. unfold ret at 1. rewrite IH. cbn [ofm_buf with_map external_map].
    rewrite after_app. done.
Qed.

Definition stage_calls (d : Z * list Z) (len : Z) (st : app_state) : list call :=
  if zephyr then
    (fun iw => cpu_store (nth 0 (ifm_buf st) 0 + 4 * Z.of_nat (fst iw)) (le_bytes 4 (snd iw)))
      <$> zip (seq 0 (Z.to_nat (len / 4))) (snd d)
  else [].

Definition staged (d : Z * list Z) (st : app_state) : Z := if zephyr then nth 0 (ifm_buf st) 0 else fst d.

Lemma stage_input_eq d len st h :
  stage_input zephyr d len st h = Some (staged d st, after h (stage_calls d len st)).
Proof.
  unfold stage_input, stage_calls, staged. destruct zephyr; [|by rewrite after_nil].
  unfold bind. by rewrite for_each_exec_.
Qed.

Lemma get_time_eq h : exists t, get_time h = Some (t, after h [XTime_GetTime]).
Proof. eexists. unfold get_time, bind, exec, ret. reflexivity. Qed.

Lemma prologue_quiet d len st ofm :
  forallb quiet ([XTime_GetTime] ++ stage_calls d len st ++ publish_calls ofm ++ [XTime_GetTime; XTime_GetTime]) = true.
Proof.
  rewrite !forallb_app. cbn [forallb quiet andb]. rewrite andb_true_r. apply andb_true_iff. split.
  - unfold stage_calls. destruct zephyr; [|done]. induction (zip _ _) as [|x l IH]; [done | exact IH].
  - unfold publish_calls. induction (seq 0 _) as [|x l IH]; [done | exact IH].
Qed.

(** The interpreter's variant the application is built with. *)
Definition app_variant : variant := {| check_tiles := false; read_blocks := false; flush_patch := true |}.

(** The registers are those of an array that answers what was last written to it. *)
Definition answers_writes (r0 : regs) : Prop :=
  forall h a, u32 (out (drv h (Xil_In32 a))) = regs_after r0 h a.

(** What is done before the transaction, what the transaction does, and what is done after it. *)
Lemma process_data_phases hdr os bs t d len st h :
  NoDup plain_codes ->
  List.length hdr = sizeof_TxnHeader -> Txn.has hdr h_NumOps (Z.of_nat (List.length os)) ->
  Forall2 (encodes app_variant) os bs ->
  let m := assign (io_pairs (staged d st) (ofm_buf st)) (external_map st) in
  exists cs, forallb quiet cs = true /\
  match run_ops app_variant base (fun id => default 0 (m !! s32 id)) fuel 0 os (after h cs) with
  | Some (_, h2) => exists st' tail,
      process_data BATCH_GRAPH zephyr NUM_INST getid (hdr ++ concat bs ++ t) base fuel (Some d) len st h
        = Some ((s16 (argmax (halves (outb (drv (after h2 [XTime_GetTime]) (cpu_load (nth 0 (ofm_buf st) 0) 2000))))),
                 st'), after h2 tail) /\
      forallb quiet tail = true /\ external_map st' = m /\ g_phase_rounds st' = u64 (g_phase_rounds st + 1)
  | None =>
      process_data BATCH_GRAPH zephyr NUM_INST getid (hdr ++ concat bs ++ t) base fuel (Some d) len st h = None
  end.
Proof.
  intros Hcodes Hl Hn Hf m.
  exists ([XTime_GetTime] ++ stage_calls d len st ++ publish_calls (ofm_buf st) ++ [XTime_GetTime; XTime_GetTime]).
  split; [apply prologue_quiet|].
  remember (process_data BATCH_GRAPH zephyr NUM_INST getid (hdr ++ concat bs ++ t) base fuel (Some d) len st h)
    as res eqn:R. unfold process_data in R.
  destruct (get_time_eq h) as (t0 & E0). unfold bind at 1 in R. rewrite E0 in R.
  unfold bind at 1 in R. rewrite stage_input_eq, after_app in R.
  unfold bind at 1 in R. rewrite publish_io_eq, after_app in R. fold m in R.
  match type of R with context [bind get_time _ (after h ?cs)] => destruct (get_time_eq (after h cs)) as (t1 & E1) end.
  unfold bind at 1 in R. rewrite E1, after_app in R.
  match type of R with context [bind get_time _ (after h ?cs)] => destruct (get_time_eq (after h cs)) as (t2 & E2) end.
  unfold bind at 1 in R. rewrite E2, after_app in R. cbn [external_map with_map] in R.
  rewrite <- !app_assoc in R. cbn [app] in R |- *.
  unfold bind at 1, executeRuntimeControl_TXN in R.
  rewrite (submit_transaction _ _ _ _ Hcodes _ _ _ _ _ Hl Hn Hf) in R. fold app_variant in R.
  destruct (run_ops _ _ _ _ _ _ _) as [[u h2]|]; [|done].
  destruct (get_time_eq h2) as (t3 & E4). unfold bind at 1 in R. rewrite E4 in R.
  unfold bind at 1 in R. rewrite exec_eq, after_app in R.
  match type of R with context [bind get_time _ (after h2 ?cs)] => destruct (get_time_eq (after h2 cs)) as (t5 & E5) end.
  unfold bind at 1 in R. rewrite E5, after_app in R.
  subst res. eexists _, _. split; [reflexivity|]. done.
Qed.

(** C18: one classification, end to end, on any device.  Let the buffers' names have different numbers and
    the opcodes of the transaction format be distinct, the weights be published, and the transaction
    be well formed.  Then the staged image, the instances' output buffers and the layers' weights are
    all published when the transaction runs; [process_data] returns exactly when the operations of
    the transaction, carried out one after the other on the device with the buffer numbers resolved
    to those addresses, get to their end (every poll is answered as it asks in time); it touches no
    register besides; one more round is counted; and of a thousand scores it reports the first
    with the highest score.  On an array whose registers answer what was last written to them, where
    a poll succeeds only on what the host itself has written, the registers are then what the
    operations say one after the other. *)
Theorem classification_round hdr os bs t d len st h :
  NoDup (getid <$> buffer_names BATCH_GRAPH NUM_INST) -> NoDup plain_codes ->
  List.length hdr = sizeof_TxnHeader -> Txn.has hdr h_NumOps (Z.of_nat (List.length os)) ->
  Forall2 (encodes app_variant) os bs ->
  weights_published BATCH_GRAPH getid (wts_buf st) (external_map st) ->
  let m := assign (io_pairs (staged d st) (ofm_buf st)) (external_map st) in
  let ext := fun id => default 0 (m !! s32 id) in
  io_published BATCH_GRAPH NUM_INST getid (staged d st) (ofm_buf st) m /\
  weights_published BATCH_GRAPH getid (wts_buf st) m /\
  exists before, forallb quiet before = true /\
  match run_ops app_variant base ext fuel 0 os (after h before) with
  | Some (_, h2) => exists c st' behind,
      process_data BATCH_GRAPH zephyr NUM_INST getid (hdr ++ concat bs ++ t) base fuel (Some d) len st h
        = Some ((c, st'), after h2 behind) /\
      forallb quiet behind = true /\ external_map st' = m /\
      g_phase_rounds st' = u64 (g_phase_rounds st + 1) /\
      (let scores := halves (outb (drv (after h2 [XTime_GetTime]) (cpu_load (nth 0 (ofm_buf st) 0) 2000))) in
       List.length scores = 1000%nat -> exists idx, c = Z.of_nat idx /\ first_maximum scores idx) /\
      (forall r0, answers_writes r0 -> (0 < fuel)%nat ->
         apply_ops base ext os (regs_after r0 h) = Some (regs_after r0 (after h2 behind)))
  | None =>
      process_data BATCH_GRAPH zephyr NUM_INST getid (hdr ++ concat bs ++ t) base fuel (Some d) len st h = None /\
      (forall r0, answers_writes r0 -> (0 < fuel)%nat -> apply_ops base ext os (regs_after r0 h) = None)
  end.
Proof.
  intros Hids Hcodes Hl Hn Hf Hw m ext.
  destruct (io_assigned BATCH_GRAPH NUM_INST getid Hids (staged d st) (ofm_buf st) (wts_buf st) (external_map st) Hw)
    as [Hio Hw']. split; [done|]. split; [done|].
  destruct (process_data_phases hdr os bs t d len st h Hcodes Hl Hn Hf) as (cs & Hq & H).
  exists cs. split; [done|]. fold m in H. cbv beta zeta in H. fold ext in H.
  assert (Hr : forall r0, answers_writes r0 -> (0 < fuel)%nat ->
    match apply_ops base ext os (regs_after r0 h) with
    | Some r' => leaves r0 (run_ops app_variant base ext fuel 0 os) (after h cs) r'
    | None => run_ops app_variant base ext fuel 0 os (after h cs) = None
    end).
  { intros r0 Hmem Hfuel. rewrite <- (regs_quiet r0 cs h Hq). by apply run_ops_regs. }
  destruct (run_ops _ _ _ _ _ _ _) as [[u h2]|] eqn:E.
  - destruct H as (st' & tail & H & Hq' & Hm & Hp). eexists _, st', tail. split; [exact H|].
    split_and!; [done..| |].
    + intros scores Hlen. fold scores. destruct (argmax_first scores) as (idx & -> & Hi); [by intros ->|lia|].
      exists idx. split; [|done]. destruct Hi as (x & Hx & _). apply lookup_lt_Some in Hx.
      apply wrap_s_small; cbn; lia.
    + intros r0 Hmem Hfuel. specialize (Hr r0 Hmem Hfuel). rewrite (regs_quiet r0 tail h2 Hq').
      destruct (apply_ops _ _ _ _) as [r'|]; [|done].
      destruct Hr as (h3 & E3 & <-). rewrite E in E3. by injection E3 as _ ->.
  - split; [done|]. intros r0 Hmem Hfuel. specialize (Hr r0 Hmem Hfuel).
    destruct (apply_ops _ _ _ _) as [r'|]; [|done]. destruct Hr as (h3 & E3 & _). by rewrite E in E3.
Qed.
End Round.

(** ** Buffers *)

(** Operations on the graph object. *)
Inductive gr_event := EInit | EMalloc (n a : Z) | ERun (n : Z) | EEnd | EFree (a : Z).

(** A graph object that records its operations; [alloc] decides what an allocation returns. *)
Definition log_object (alloc : list gr_event -> Z -> Z) (init_ok : bool) : GraphObject (list gr_event) := {|
  gr_init := fun l => ret (init_ok, l ++ [EInit]);
  gr_malloc := fun n l => ret (alloc l n, l ++ [EMalloc n (alloc l n)]);
  gr_run := fun n l => ret (true, l ++ [ERun n]);
  gr_end := fun l => ret (true, l ++ [EEnd]);
  gr_free := fun a l => ret (true, l ++ [EFree a])
|}.

(** The runtime's object: the operations of [AieApi] on a graph of the program. *)
Definition runtime_object {P R : Type} `{rt : AieRt} {AC : AieConsts} {HO : HashOrder} {Prof : Profiling P R}
    (blob_at : Z -> list Z) (fuel : nat) : GraphObject (AIEGraph * system P R) := {|
  gr_init := fun '(a, sy) => let* (e, s) := api_init blob_at None 0 a sy in ret (aeg_is_ok e, s);
  gr_malloc := fun n '(a, sy) => let* (p, sy) := api_malloc n a sy in ret (p, (a, sy));
  gr_run := fun n '(a, sy) => let* (e, sy) := api_run fuel n a sy in ret (aeg_is_ok e, (a, sy));
  gr_end := fun '(a, sy) => let* (e, sy) := api_end fuel a sy in ret (aeg_is_ok e, (a, sy));
  gr_free := fun p '(a, sy) => let* (e, sy) := api_free p a sy in ret (aeg_is_ok e, (a, sy))
|}.

Definition allocated (l : list gr_event) : list Z :=
  flat_map (fun e => match e with EMalloc _ a => [a] | _ => [] end) l.
Definition freed (l : list gr_event) : list Z :=
  flat_map (fun e => match e with EFree a => [a] | _ => [] end) l.

Lemma allocated_app l l' : allocated (l ++ l') = allocated l ++ allocated l'.
Proof. apply flat_map_app. Qed.
Lemma freed_calls_app l l' : freed (l ++ l') = freed l ++ freed l'.
Proof. apply flat_map_app. Qed.

Definition pairs (l : list (Z * Z)) : list Z := flat_map (fun p => [fst p; snd p]) l.

Lemma pairs_length ps : List.length (pairs ps) = (2 * List.length ps)%nat.
Proof. induction ps as [|p ps IH]; [done|]. cbn [pairs flat_map app List.length]. fold (pairs ps). lia. Qed.

Lemma pairs_nth (ps : list (Z * Z)) :
  flat_map (fun i => [nth i ps.*1 0; nth i ps.*2 0]) (seq 0 (List.length ps)) = pairs ps.
Proof.
  induction ps as [|p ps IH]; [done|]. cbn [List.length seq flat_map]. rewrite <- seq_shift, flat_map_concat_map, map_map.
  cbn [fmap list_fmap nth]. rewrite <- flat_map_concat_map. cbn. by rewrite IH.
Qed.

Section Buffers.
Context `{rt : AieRt} (alloc : list gr_event -> Z -> Z) (NUM_INST : nat) (wts32 : list Z).
Local Notation obj := (log_object alloc true).

Lemma alloc_loop n : forall k ps l h, exists qs l',
  for_each (fun _ '(ifm, ofm, s) =>
      let* (a, s) := @gr_malloc _ obj (ifm_size + 1024) s in
      let* (b, s) := @gr_malloc _ obj ofm_size s in
      ret (ifm ++ [a], ofm ++ [b], s)) (seq k n) (ps.*1, ps.*2, l) h
  = Some ((ps ++ qs).*1, (ps ++ qs).*2, l', h) /\ List.length qs = n /\
    allocated l' = allocated l ++ pairs qs /\ freed l' = freed l.
Proof.
  induction n as [|n IH]; intros k ps l h.
  - exists [], l. rewrite !app_nil_r. done.
  - cbn [seq for_each]. unfold bind at 1. cbn [gr_malloc log_object]. unfold bind, ret at 1 2 3.
    set (a := alloc l _). set (l1 := l ++ [EMalloc _ a]). set (b := alloc l1 _).
    destruct (IH (S k) (ps ++ [(a, b)]) (l1 ++ [EMalloc ofm_size b]) h) as (qs & l' & E & Hq & Ha & Hf).
    exists ((a, b) :: qs), l'. rewrite !fmap_app in E. cbn [fmap list_fmap] in E.
    replace (ps ++ (a, b) :: qs) with ((ps ++ [(a, b)]) ++ qs) by (by rewrite <- app_assoc).
    split; [rewrite !fmap_app; exact E|]. split; [cbn; by rewrite Hq|].
    subst l1. unfold allocated, freed in *. rewrite !flat_map_app in *. cbn in *.
    rewrite <- !app_assoc in *. cbn in *. by rewrite app_nil_r in Hf.
Qed.

Lemma free_loop f g is_ : forall l h, exists l',
  for_each (fun inst s => let* (_, s) := @gr_free _ obj (f inst) s in
                          let* (_, s) := @gr_free _ obj (g inst) s in ret s) is_ l h = Some (l', h) /\
  freed l' = freed l ++ flat_map (fun i : nat => [f i; g i]) is_ /\ allocated l' = allocated l.
Proof.
  induction is_ as [|i is_ IH]; intros l h; [exists l; by rewrite app_nil_r|].
  cbn [for_each]. unfold bind at 1. cbn [gr_free log_object]. unfold bind, ret at 1 2 3.
  destruct (IH ((l ++ [EFree (f i)]) ++ [EFree (g i)]) h) as (l' & E & Hf & Ha).
  exists l'. split; [exact E|]. rewrite Hf, Ha. unfold freed, allocated. rewrite !flat_map_app. cbn.
  rewrite <- !app_assoc, !app_nil_r. done.
Qed.

(** The menu leaves the buffers where they are. *)
Definition same_buffers (st st' : app_state) : Prop :=
  ifm_buf st' = ifm_buf st /\ ofm_buf st' = ofm_buf st /\ wts_buf st' = wts_buf st.

(** a session gives back what it took.  Whatever the addresses the allocator hands out, a run of
    the program in which the graph initialises and the menu is left again returns zero having
    freed exactly the buffers it allocated, in the same order, the weights last; when the weights
    cannot be allocated it returns an error, having freed none of the other buffers. *)
Theorem session_frees_its_buffers getid BATCH (menu : app_state -> M app_state) h :
  (forall st h, exists st' h', menu st h = Some (st', h') /\ same_buffers st st') ->
  exists r l h', main (GO := obj) BATCH NUM_INST getid wts32 menu [] h = Some ((r, l), h') /\
    List.length (allocated l) = (2 * NUM_INST + 1)%nat /\
    (r = 0 /\ freed l = allocated l \/ r = -1 /\ last (allocated l) = Some 0 /\ freed l = []).
Proof.
  intros Hmenu. unfold main, alloc_buffers. cbn [gr_init log_object]. unfold bind at 1, ret at 1. cbn [negb app].
  destruct (alloc_loop NUM_INST 0 [] [EInit] h) as (qs & l1 & E1 & Hq & Ha & Hf).
  unfold bind at 1. cbn [fmap list_fmap app] in E1. rewrite E1. cbn [gr_malloc log_object].
  unfold bind at 1, ret at 1. set (w := alloc l1 wts_size). cbn in Ha, Hf.
  assert (Hal : List.length (pairs qs ++ [w]) = (2 * NUM_INST + 1)%nat).
  { rewrite length_app, pairs_length, Hq. cbn [List.length]. lia. }
  destruct (Z.eqb_spec w 0) as [Hw|Hw].
  { eexists _, _, _. split; [reflexivity|].
    unfold allocated, freed in *. rewrite !flat_map_app, Ha. cbn. split; [done|]. right.
    rewrite last_snoc, Hf, Hw. done. }
  cbn [gr_run log_object]. unfold bind at 1, ret at 1. unfold bind at 1, copy_weights. rewrite for_each_exec_.
  unfold bind at 1. match goal with |- context [menu ?st ?hh] => destruct (Hmenu st hh) as (st' & h2 & E2 & Hi & Ho & Hwb) end.
  rewrite E2. cbn [gr_end log_object]. unfold bind at 1, ret at 1.
  unfold bind at 1, free_buffers. unfold bind at 1. cbn [ifm_buf ofm_buf wts_buf fst snd] in *.
  match goal with |- context [for_each ?f ?is_ ?l ?hh] =>
    destruct (free_loop (fun i => nth i (ifm_buf st') 0) (fun i => nth i (ofm_buf st') 0) is_ l hh)
      as (l3 & E3 & Hf3 & Ha3) end.
  rewrite E3. cbn [gr_free log_object]. unfold bind, ret.
  eexists _, _, _. split; [reflexivity|].
  rewrite allocated_app, freed_calls_app, Ha3, Hf3, !allocated_app, !freed_calls_app, Ha, Hf. cbn.
  rewrite !app_nil_r, Hi, Ho, Hwb. rewrite <- Hq in *. rewrite pairs_nth. split; [exact Hal | by left].
Qed.
End Buffers.

Section MenuKeeps.
Context `{rt : AieRt} {F : TxnFormat} (BATCH zephyr : bool) (NUM_INST : nat) (getid : string -> Z).
Context (txn : list Z) (base : Z) (fuel : nat) (ifm32 : Z * list Z) (loops : nat).
Context (net_server : app_state -> M app_state).
Hypothesis net_keeps : forall st h st' h', net_server st h = Some (st', h') -> same_buffers st st'.

Local Notation run_one := (process_data BATCH zephyr NUM_INST getid txn base fuel).

Lemma same_buffers_trans st1 st2 st3 : same_buffers st1 st2 -> same_buffers st2 st3 -> same_buffers st1 st3.
Proof. unfold same_buffers. intuition congruence. Qed.

Lemma process_data_keeps d len st h c st' h' : run_one d len st h = Some ((c, st'), h') -> same_buffers st st'.
Proof.
  destruct d as [d|]; cbn [process_data]; [|by intros [= _ <- _]].
  intros (t0 & h0 & _ & H)%bind_inv. apply bind_inv in H as (a & h1 & _ & H).
  unfold bind at 1 in H. rewrite publish_io_eq in H.
  do 2 (apply bind_inv in H as (? & ? & _ & H)). apply bind_inv in H as ([] & ? & _ & H).
  do 2 (apply bind_inv in H as (? & ? & _ & H)). apply bind_inv in H as (? & ? & _ & H).
  by injection H as _ <- _.
Qed.

Lemma bench_loop_keeps n : forall b st h b' st' h',
  bench_loop BATCH zephyr NUM_INST getid txn base fuel ifm32 n b st h = Some ((b', st'), h') -> same_buffers st st'.
Proof.
  induction n as [|n IH]; intros b st h b' st' h' H; cbn [bench_loop] in H; [by injection H as _ <- _|].
  apply bind_inv in H as (? & ? & _ & H). apply bind_inv in H as ([c st1] & ? & Hp & H).
  apply bind_inv in H as (? & ? & _ & H). eapply same_buffers_trans; [by eapply process_data_keeps | by eapply IH].
Qed.

Lemma benchmark_keeps st h b st' h' :
  benchmark BATCH zephyr NUM_INST getid txn base fuel ifm32 loops st h = Some ((b, st'), h') -> same_buffers st st'.
Proof.
  unfold benchmark. intros H. apply bind_inv in H as (? & ? & _ & H). apply bind_inv in H as ([b1 st1] & ? & Hb & H).
  apply bind_inv in H as (? & ? & _ & H). injection H as _ <- _. apply bench_loop_keeps in Hb. exact Hb.
Qed.

(** However the menu is used, the buffers it leaves are the ones it was given. *)
Lemma menu_keeps words : forall st h st' h',
  menu_baremetal BATCH zephyr NUM_INST getid txn base fuel ifm32 loops net_server words st h = Some (st', h') ->
  same_buffers st st'.
Proof.
  induction words as [|w words IH]; intros st h st' h' H; cbn [menu_baremetal] in H; [done|].
  repeat case_decide.
  - apply bind_inv in H as ([c st1] & ? & Hp & H).
    eapply same_buffers_trans; [by eapply process_data_keeps | by eapply IH].
  - apply bind_inv in H as ([c st1] & ? & Hp & H).
    eapply same_buffers_trans; [by eapply benchmark_keeps | by eapply IH].
  - by eapply net_keeps.
  - by injection H as <- _.
  - by eapply IH.
Qed.
End MenuKeeps.

(** ** Witnesses *)

Module ClassifyDemo.
#[local] Existing Instance reg_rt.
#[local] Existing Instance demo_format.

(** The position of a name among the buffers of the single-instance build. *)
Definition demo_id (name : string) : Z :=
  match list_find (fun n => n = name) (buffer_names false 1) with Some (i, _) => Z.of_nat i | None => -1 end.

Lemma demo_ids : NoDup (demo_id <$> buffer_names false 1).
Proof. apply (bool_decide_unpack _). vm_compute. exact I. Qed.

Definition demo_state : app_state :=
  mkApp (publish_weights false demo_id 0x40000000 ∅) [0x50000000] [0x60000000] 0x40000000 0 0 0.

Lemma demo_weights : weights_published false demo_id 0x40000000 (external_map demo_state).
Proof.
  unfold demo_state. cbn [external_map]. rewrite publish_weights_assign.
  apply (weights_assigned false 1 demo_id demo_ids).
Qed.

(** Two wrong words and then quit. *)
Lemma demo_menu st h : menu_baremetal false false 1 demo_id [] 0 1 (0, []) 100 (fun st => ret st)
  ["x"; "help"; "q"]%string st h = Some (st, h).
Proof. reflexivity. Qed.
End ClassifyDemo.

Lemma argmax_first_maximum_witness :
  exists idx, argmax [3; 9; 1; 9] = Z.of_nat idx /\ first_maximum [3; 9; 1; 9] idx.
Proof. apply (argmax_first_maximum [3; 9; 1; 9]); [discriminate | vm_compute; discriminate]. Defined.

(** Two line breaks, [b], a line break and the start of the next word. *)
Lemma console_word_witness :
  zephyr_console_getline false ([10; 10] ++ [98] ++ 10 :: [113]) = Some ([98], [113]) /\
  zephyr_console_getline true [10; 10] = Some ([], []).
Proof.
  apply (console_word false [10; 10] [98] 10 [113]);
    [repeat constructor; vm_compute; congruence | repeat constructor; vm_compute; congruence | discriminate |
     split; vm_compute; congruence | reflexivity].
Defined.

Lemma classification_round_witness :
  exists c st' h',
    process_data (rt := reg_rt) (F := demo_format) false false 1 ClassifyDemo.demo_id (demo_hdr 4 184 ++ concat demo_bytes ++ [])
      0x20000000000 1 (Some (0x70000000, [])) 0 ClassifyDemo.demo_state [] = Some ((c, st'), h') /\
    external_map st' !! ClassifyDemo.demo_id "compute_graph.ofm_ddr" = Some 0x60000000 /\ g_phase_rounds st' = 1.
Proof.
  assert (Hmem : @answers_writes reg_rt zero_regs) by (intros h a; apply wrap_u_small, zero_regs_word).
  destruct (classification_round (rt := reg_rt) (F := demo_format) false false 1 ClassifyDemo.demo_id 0x20000000000 1
    (demo_hdr 4 184) demo_ops demo_bytes [] (0x70000000, []) 0 ClassifyDemo.demo_state []
    ClassifyDemo.demo_ids demo_codes eq_refl
    ltac:(apply demo_has; vm_compute; reflexivity) demo_encoded ClassifyDemo.demo_weights)
    as (Hio & _ & before & _ & Hrun).
  destruct (run_ops _ _ _ _ _ _ _) as [[u h2]|].
  - destruct Hrun as (c & st' & tail & H1 & _ & H2 & H4 & _).
    exists c, st'; eexists; split; [exact H1|]. rewrite H2. split; [|exact H4].
    exact (proj2 (Hio 0%nat ltac:(vm_compute; lia))).
  - destruct Hrun as [_ Hrun]. specialize (Hrun zero_regs Hmem (Nat.lt_0_succ 0)).
    match type of Hrun with ?e = None =>
      assert (E : exists r', e = Some r') by (destruct e as [r'|] eqn:E; [by exists r'|vm_compute in E; discriminate E]) end.
    destruct E as (r' & E). rewrite E in Hrun. discriminate Hrun.
Defined.

Lemma session_frees_its_buffers_witness :
  exists r l h', main (rt := reg_rt) (GO := log_object (fun l n => 4096 + Z.of_nat (List.length l)) true) false 2
      ClassifyDemo.demo_id []
      (menu_baremetal (rt := reg_rt) (F := demo_format) false false 1 ClassifyDemo.demo_id [] 0 1 (0, []) 100
         (fun st => ret st) ["x"; "help"; "q"]%string) [] [] = Some ((r, l), h') /\
    List.length (allocated l) = 5%nat /\
    (r = 0 /\ freed l = allocated l \/ r = -1 /\ last (allocated l) = Some 0 /\ freed l = []).
Proof.
  apply (session_frees_its_buffers (rt := reg_rt) (fun l n => 4096 + Z.of_nat (List.length l)) 2 [] ClassifyDemo.demo_id false).
  intros st h. exists st, h. split; [apply ClassifyDemo.demo_menu | done].
Defined.
