(* ===== verification/Echo.v ===== *)
(** The lwIP echo server example ([example/example_lwip_echo/echo.c]): callbacks of the TCP
    stack, as the list of calls they make into it.

    A received buffer is a chain of parts; [len] is the length of its first part. *)
From stdpp Require Import base list.
From Stdlib Require Import ZArith Lia.
From S2P Require Import Prelude.
Local Open Scope Z_scope.

(** Calls into the stack; a received buffer is named by its parts. *)
Inductive lwip_call :=
| tcp_close
| tcp_recv (set : bool)
| tcp_recved (len : Z)
| tcp_write (data : list Z)
| pbuf_free (chain : list (list Z))
| tcp_arg (arg : Z)
| tcp_new
| tcp_bind (port : Z)
| tcp_listen
| tcp_accept.

Definition ERR_OK : Z := 0.

(** [example/example_lwip_echo/echo.c:53-79] [recv_callback]
    [p] is [None] when the peer closed; [sndbuf] is the free space of the send buffer. *)
Definition recv_callback (sndbuf : Z) (p : option (list (list Z))) : Z * list lwip_call :=
  match p with
  | None => (ERR_OK, [tcp_close; tcp_recv false])
  | Some chain =>
      let payload := hd [] chain in
      let len := Z.of_nat (length payload) in
      (ERR_OK,
       [tcp_recved len] ++
       (if len <? sndbuf then [tcp_write payload] else []) ++
       [pbuf_free chain])
  end.

(** [example/example_lwip_echo/echo.c:81-96] [accept_callback]
    [connection] is the static counter. *)
Definition accept_callback (connection : Z) : Z * list lwip_call * Z :=
  (ERR_OK, [tcp_recv true; tcp_arg connection], connection + 1).

(** [example/example_lwip_echo/echo.c:98-134] [start_application]
    The arguments are what the stack answers: a control block, the code of [tcp_bind],
    a listening block. *)
Definition start_application (pcb : bool) (err : Z) (listening : bool) : Z * list lwip_call :=
  if negb pcb then (-1, [tcp_new])
  else if negb (err =? ERR_OK) then (-2, [tcp_new; tcp_bind 7])
  else if negb listening then (-3, [tcp_new; tcp_bind 7; tcp_arg 0; tcp_listen])
  else (0, [tcp_new; tcp_bind 7; tcp_arg 0; tcp_listen; tcp_accept]).

(** * Properties *)

Definition written (cs : list lwip_call) : list Z :=
  flat_map (fun c => match c with tcp_write d => d | _ => [] end) cs.
Definition freed (cs : list lwip_call) : list (list (list Z)) :=
  flat_map (fun c => match c with pbuf_free p => [p] | _ => [] end) cs.
Definition reopened (cs : list lwip_call) : Z :=
  fold_right (fun c n => match c with tcp_recved k => k + n | _ => n end) 0 cs.

(** The calls of a connection that receives the buffers [ps], with room for them. *)
Definition echo_session (ps : list (list (list Z))) (room : list (list Z) -> Z) : list lwip_call :=
  flat_map (fun p => snd (recv_callback (room p) (Some p))) ps.

Lemma written_app a b : written (a ++ b) = written a ++ written b.
Proof. apply flat_map_app. Qed.
Lemma freed_app a b : freed (a ++ b) = freed a ++ freed b.
Proof. apply flat_map_app. Qed.
Lemma reopened_app a b : reopened (a ++ b) = reopened a + reopened b.
Proof. unfold reopened; induction a as [|c a IH]; [done|]; simpl; destruct c; lia. Qed.

(** over a connection whose buffers have one part and fit the send buffer, the server sends
    back exactly the bytes it received, in order; every buffer is given back once and the
    receive window is reopened by exactly the bytes received. *)
Theorem echo_returns_stream ps room :
  Forall (fun p => length p = 1%nat /\ Z.of_nat (length (concat p)) < room p) ps ->
  let cs := echo_session ps room in
  written cs = concat (concat ps) /\ freed cs = ps /\
  reopened cs = Z.of_nat (length (concat (concat ps))).
Proof.
  induction 1 as [|p ps [Hl Hr] _ (IH1 & IH2 & IH3)]; [done|].
  destruct p as [|d [|]]; try done; simpl in Hr; rewrite app_nil_r in Hr.
  unfold echo_session in *; cbn [flat_map].
  rewrite written_app, freed_app, reopened_app, IH1, IH2, IH3.
  cbn [recv_callback snd hd]; rewrite (proj2 (Z.ltb_lt _ _)) by done; simpl.
  rewrite app_nil_r, length_app; repeat split; lia.
Qed.

Lemma echo_returns_stream_witness :
  written (echo_session [[[1; 2]]; [[3]]] (fun _ => 100)) = [1; 2; 3].
Proof.
  destruct (echo_returns_stream [[[1; 2]]; [[3]]] (fun _ => 100)) as (H & _).
  - repeat constructor; simpl; lia.
  - exact H.
Defined.

(** Of a chain only the first part is sent back, though the whole chain is given back. *)
Lemma echo_chain_truncated room d e rest :
  Z.of_nat (length d) < room ->
  written (snd (recv_callback room (Some (d :: e :: rest)))) = d.
Proof.
  intros H; cbn [recv_callback snd hd]; rewrite (proj2 (Z.ltb_lt _ _)) by done; simpl.
  apply app_nil_r.
Qed.
