(* ===== verification/Net.v ===== *)
(** * Network bring-up and service loop

    [src/include/common/net/netprocess.h] brings the network interface up, waits for an address,
    starts the file server of [filerecv.h] and then serves packets for ever;
    [example/example_lwip_echo/net.c] does the same for the echo server.  The lwIP stack, the
    Ethernet driver and the platform's interrupt handlers are not part of the repository: the model
    takes what they answer as an argument ([net_env]) and the interrupts as steps that may happen
    between any two instructions of the service loop.
    - The bring-up is a function to the sequence of calls and the addresses in use.  The DHCP loop
      reads volatile words, so the environment gives their value at every read.
    - The service loop is a step relation: one step per access to a shared flag or call, and one
      step per interrupt. *)
From stdpp Require Import base list relations.
From Stdlib Require Import ZArith Lia.
From S2P Require Import Prelude Echo.
Local Open Scope Z_scope.

(** ** Bring-up *)

(** The build options: the address family, DHCP, the device-tree flow, and the board's clock chip
    and reset line. *)
Record net_config := mkNet {
  LWIP_IPV6 : bool; LWIP_DHCP : bool; SDT : bool; has_sgmii : bool; XPS_BOARD_ZCU102 : bool }.

(** Calls to the platform and the stack, in order. *)
Inductive net_call :=
  | ProgramSi5324 | ProgramSfpPhy | IicPhyReset | init_platform | lwip_init
  | xemac_add (addrs : option (Z * Z * Z))
  | netif_create_ip6_linklocal_address | netif_ip6_addr_set_state
  | netif_set_default | platform_enable_interrupts | netif_set_up
  | dhcp_start | xemacif_input | set_default_address
  | print_ip_settings (ip mask gw : Z)
  | start_process (calls : list lwip_call).

(** What the platform answers.  [ip_at k], [cntr_at k] and so on are the values of the shared words
    at the [k]-th pass of the waiting loop; [k] counts on behind the loop. *)
Record net_env := mkEnv {
  phy_reset_fails : bool;
  xemac_add_ok : bool;
  ip_at : nat -> Z;
  netmask_at : nat -> Z;
  gw_at : nat -> Z;
  cntr_at : nat -> Z;
  new_pcb : bool;
  bind_err : Z;
  listen_pcb : bool }.

(** [IP4_ADDR], the address as a word in network order on a little-endian machine. *)
Definition IP4_ADDR (a b c d : Z) : Z := a + 256 * b + 65536 * c + 16777216 * d.

Definition default_ip : Z := IP4_ADDR 192 168 1 10.
Definition default_netmask : Z := IP4_ADDR 255 255 255 0.
Definition default_gw : Z := IP4_ADDR 192 168 1 1.

(** [src/include/common/net/filerecv.h:138-175] [start_network_process] *)
Definition start_network_process (pcb : bool) (err : Z) (listening : bool) : Z * list lwip_call :=
  if negb pcb then (-1, [tcp_new])
  else if negb (err =? ERR_OK) then (-2, [tcp_new; tcp_bind 7])
  else if negb listening then (-3, [tcp_new; tcp_bind 7; tcp_arg 0; tcp_listen])
  else (0, [tcp_new; tcp_bind 7; tcp_arg 0; tcp_listen; tcp_accept]).

(** The waiting loop: the number of passes, or nothing when the fuel runs out.
    [src/include/common/net/netprocess.h:191-193] [net_process_main] *)
Fixpoint dhcp_wait (fuel : nat) (e : net_env) (k : nat) : option nat :=
  match fuel with
  | O => None
  | S fuel => if (ip_at e k =? 0) && (0 <? cntr_at e k) then dhcp_wait fuel e (S k) else Some k
  end.

(** The addresses after the wait: the words are read once more behind the loop.
    [src/include/common/net/netprocess.h:195-207] [net_process_main] *)
Definition settle (e : net_env) (k : nat) : list net_call * (Z * Z * Z) :=
  if (cntr_at e k <=? 0) && (ip_at e k =? 0)
  then ([set_default_address], (default_ip, default_netmask, default_gw))
  else ([], (ip_at e k, netmask_at e k, gw_at e k)).

(** The result of the bring-up: an early return, or the calls made and the addresses in use when
    the service loop starts. *)
Inductive net_result :=
  | net_return (code : Z) (calls : list net_call)
  | net_serving (calls : list net_call) (addrs : option (Z * Z * Z)) (started : Z).

(** The calls before the interface is added; [None] is the failed reset.
    [src/include/common/net/netprocess.h:119-135] [net_process_main] *)
Definition net_prologue (cf : net_config) (e : net_env) : list net_call * bool :=
  let c0 := if has_sgmii cf then [ProgramSi5324; ProgramSfpPhy] else [] in
  if XPS_BOARD_ZCU102 cf && phy_reset_fails e then (c0 ++ [IicPhyReset], false)
  else (c0 ++ (if XPS_BOARD_ZCU102 cf then [IicPhyReset] else []) ++ [init_platform], true).

(** The addresses the interface is added with.
    [src/include/common/net/netprocess.h:137-148] [net_process_main] *)
Definition initial_addresses (cf : net_config) : option (Z * Z * Z) :=
  if LWIP_IPV6 cf then None
  else if LWIP_DHCP cf then Some (0, 0, 0) else Some (default_ip, default_netmask, default_gw).

(** The bring-up with the application's start as an argument: its result and its calls.
    [src/include/common/net/netprocess.h:111-215] [net_process_main] *)
Definition bring_up (start : Z * list lwip_call) (fuel : nat) (cf : net_config) (e : net_env) : option net_result :=
  let '(c0, ok) := net_prologue cf e in
  if negb ok then Some (net_return (-1) c0)
  else
    let c1 := c0 ++ [lwip_init; xemac_add (initial_addresses cf)] in
    if negb (xemac_add_ok e) then Some (net_return (-1) c1)
    else
      let c2 := c1 ++ (if LWIP_IPV6 cf then [netif_create_ip6_linklocal_address; netif_ip6_addr_set_state] else [])
                   ++ [netif_set_default] ++ (if SDT cf then [] else [platform_enable_interrupts])
                   ++ [netif_set_up] in
      let '(started, sc) := start in
      match initial_addresses cf with
      | None => Some (net_serving (c2 ++ [start_process sc]) None started)
      | Some (ip, mask, gw) =>
          if LWIP_DHCP cf then
            k ← dhcp_wait fuel e 0;
            let '(c, (ip, mask, gw)) := settle e (S k) in
            Some (net_serving (c2 ++ [dhcp_start] ++ repeat xemacif_input k ++ c
                    ++ [print_ip_settings ip mask gw; start_process sc]) (Some (ip, mask, gw)) started)
          else
            Some (net_serving (c2 ++ [print_ip_settings ip mask gw; start_process sc])
                    (Some (ip, mask, gw)) started)
      end.

(** The file server: the whole of [net_process_main] up to the service loop.
    [src/include/common/net/netprocess.h:111-215] [net_process_main] *)
Definition net_process_main (fuel : nat) (cf : net_config) (e : net_env) : option net_result :=
  bring_up (start_network_process (new_pcb e) (bind_err e) (listen_pcb e)) fuel cf e.

(** The echo server: the same sequence, with its own application.
    [example/example_lwip_echo/net.c:118-227] [echo_main] *)
Definition echo_main (fuel : nat) (cf : net_config) (e : net_env) : option net_result :=
  bring_up (start_application (new_pcb e) (bind_err e) (listen_pcb e)) fuel cf e.

(** ** The service loop *)

(** Where the loop stands: at the test of a flag, at the timer call behind it, at the store that
    clears it, or at the packet input.
    [src/include/common/net/netprocess.h:217-227] [net_process_main] *)
Inductive pc := FastTest | FastCall | FastClear | SlowTest | SlowCall | SlowClear | Input.

Record service := mkService {
  at_ : pc;
  TcpFastTmrFlag : bool; TcpSlowTmrFlag : bool;
  fast_calls : nat; slow_calls : nat; inputs : nat }.

(** One instruction of the loop.
    [src/include/common/net/netprocess.h:217-227] [net_process_main] *)
Definition loop_step (s : service) : service :=
  match at_ s with
  | FastTest => mkService (if TcpFastTmrFlag s then FastCall else SlowTest) (TcpFastTmrFlag s)
                  (TcpSlowTmrFlag s) (fast_calls s) (slow_calls s) (inputs s)
  | FastCall => mkService FastClear (TcpFastTmrFlag s) (TcpSlowTmrFlag s) (S (fast_calls s)) (slow_calls s) (inputs s)
  | FastClear => mkService SlowTest false (TcpSlowTmrFlag s) (fast_calls s) (slow_calls s) (inputs s)
  | SlowTest => mkService (if TcpSlowTmrFlag s then SlowCall else Input) (TcpFastTmrFlag s)
                  (TcpSlowTmrFlag s) (fast_calls s) (slow_calls s) (inputs s)
  | SlowCall => mkService SlowClear (TcpFastTmrFlag s) (TcpSlowTmrFlag s) (fast_calls s) (S (slow_calls s)) (inputs s)
  | SlowClear => mkService Input (TcpFastTmrFlag s) false (fast_calls s) (slow_calls s) (inputs s)
  | Input => mkService FastTest (TcpFastTmrFlag s) (TcpSlowTmrFlag s) (fast_calls s) (slow_calls s) (S (inputs s))
  end.

(** The platform's timer interrupt raises a flag. *)
Inductive event := Main | FastTick | SlowTick.

Definition step (ev : event) (s : service) : service :=
  match ev with
  | Main => loop_step s
  | FastTick => mkService (at_ s) true (TcpSlowTmrFlag s) (fast_calls s) (slow_calls s) (inputs s)
  | SlowTick => mkService (at_ s) (TcpFastTmrFlag s) true (fast_calls s) (slow_calls s) (inputs s)
  end.

(** An interleaving of the loop's instructions with interrupts. *)
Definition serve (evs : list event) (s : service) : service := fold_left (fun s ev => step ev s) evs s.

Definition service_start : service := mkService FastTest false false 0 0 0.

Definition count (ev : event -> bool) (evs : list event) : nat := length (List.filter ev evs).
Definition is_fast (ev : event) : bool := match ev with FastTick => true | _ => false end.
Definition is_main (ev : event) : bool := match ev with Main => true | _ => false end.


(** ** The address *)

Lemma dhcp_wait_stops e n : ip_at e n ≠ 0 \/ cntr_at e n <= 0 ->
  forall k, (k <= n)%nat -> exists k', dhcp_wait (S (n - k)) e k = Some k' /\ (k <= k' <= n)%nat /\
    (ip_at e k' ≠ 0 \/ cntr_at e k' <= 0) /\
    (forall j, (k <= j < k')%nat -> ip_at e j = 0 /\ 0 < cntr_at e j).
Proof.
  intros Hn. assert (Hgen : forall d k, (k + d)%nat = n -> exists k', dhcp_wait (S d) e k = Some k' /\
    (k <= k' <= n)%nat /\ (ip_at e k' ≠ 0 \/ cntr_at e k' <= 0) /\
    (forall j, (k <= j < k')%nat -> ip_at e j = 0 /\ 0 < cntr_at e j)).
  - induction d as [|d IH]; intros k Hk.
    + assert (n = k) as -> by lia. exists k. cbn [dhcp_wait].
      destruct (Z.eqb_spec (ip_at e k) 0), (Z.ltb_spec 0 (cntr_at e k)); cbn [andb]; try lia;
        (split_and!; [done | lia | lia | done | lia]).
    + cbn [dhcp_wait]. fold (dhcp_wait (S d) e (S k)).
      destruct (Z.eqb_spec (ip_at e k) 0), (Z.ltb_spec 0 (cntr_at e k)); cbn [andb];
        try (exists k; split_and!; [done | lia | lia | lia | intros; lia]).
      destruct (IH (S k)) as (k' & E & ? & ? & Hj); [lia|]. exists k'. split_and!; [exact E | lia | lia | done |].
      intros j ?. destruct (decide (j = k)) as [->|]; [done | apply Hj; lia].
  - intros k Hk. apply Hgen. lia.
Qed.

Lemma dhcp_wait_more e k k' fuel : dhcp_wait fuel e k = Some k' ->
  forall fuel', (fuel <= fuel')%nat -> dhcp_wait fuel' e k = Some k'.
Proof.
  revert k. induction fuel as [|fuel IH]; intros k H fuel' Hf; [done|].
  destruct fuel' as [|fuel']; [lia|]. cbn [dhcp_wait] in *. destruct (_ && _); [|done].
  apply IH; [done | lia].
Qed.

(** The clock that runs the DHCP time-out: the counter does not grow and runs out by read [n]; an
    address, once given, is not taken back. *)
Definition clock_runs (e : net_env) (n : nat) : Prop :=
  cntr_at e n <= 0 /\ (forall k, cntr_at e (S k) <= cntr_at e k) /\
  (forall k, ip_at e k ≠ 0 -> ip_at e (S k) ≠ 0).

(** with DHCP the bring-up ends once the time-out has run out, and the board has an address: if
    the server answered before the time-out this is the leased one, otherwise the default
    192.168.1.10 (unless the lease arrives with the time-out, which is then used). *)
Theorem bring_up_gets_address start cf e n fuel :
  LWIP_IPV6 cf = false -> LWIP_DHCP cf = true -> phy_reset_fails e = false -> xemac_add_ok e = true ->
  clock_runs e n -> (n < fuel)%nat ->
  exists k calls ip mask gw, (k <= n)%nat /\
    bring_up start fuel cf e = Some (net_serving calls (Some (ip, mask, gw)) (fst start)) /\
    ip ≠ 0 /\ (forall j, (j < k)%nat -> ip_at e j = 0) /\
    ((ip, mask, gw) = (ip_at e (S k), netmask_at e (S k), gw_at e (S k)) \/
     (ip_at e (S k) = 0 /\ cntr_at e k <= 0 /\ (ip, mask, gw) = (default_ip, default_netmask, default_gw))).
Proof.
  intros H6 Hd Hp Hx (Hn & Hmono & Hip) Hf.
  destruct (dhcp_wait_stops e n (or_intror Hn) 0%nat ltac:(lia)) as (k & Hk & Hkn & Hstop & Hj).
  apply (dhcp_wait_more _ _ _ _) with (fuel' := fuel) in Hk; [|lia].
  unfold bring_up, net_prologue, initial_addresses. rewrite H6, Hd, Hp, andb_false_r, Hx. cbn [negb].
  destruct start as [started sc]. cbn [fst].
  rewrite Hk. cbn [mbind option_bind]. unfold settle. specialize (Hmono k). specialize (Hip k).
  destruct (Z.leb_spec (cntr_at e (S k)) 0), (Z.eqb_spec (ip_at e (S k)) 0); cbn [andb];
    (eexists k, _, _, _, _; split_and!; [lia | done | done || lia | intros j ?; apply Hj; lia |]);
    try (by left); right; (split_and!; [done | | done]).
  destruct (decide (ip_at e k = 0)); [lia | by destruct Hip].
Qed.

(** ** The timers *)

(** Raised flags that are still to be served by a call. *)
Definition owed (s : service) : nat :=
  match at_ s with
  | FastClear => 0
  | FastCall => 1
  | _ => if TcpFastTmrFlag s then 1 else 0
  end.

Lemma fast_budget evs : forall s t, (fast_calls s + owed s <= t)%nat -> (at_ s = FastCall -> TcpFastTmrFlag s = true) ->
  (fast_calls (serve evs s) <= t + count is_fast evs)%nat.
Proof.
  induction evs as [|ev evs IH]; intros s t Hs Hc.
  { unfold owed in Hs. cbn. destruct (at_ s); lia. }
  change (serve (ev :: evs) s) with (serve evs (step ev s)).
  assert (Hcount : count is_fast (ev :: evs) = ((if is_fast ev then 1 else 0) + count is_fast evs)%nat)
    by (unfold count; cbn; by destruct (is_fast ev)).
  rewrite Hcount, Nat.add_assoc. apply IH.
  - destruct s as [p f sl fc sc i], ev, p, f, sl; cbn in *; lia.
  - destruct s as [p f sl fc sc i], ev, p, f, sl; cbn in *; try done; intros; by apply Hc.
Qed.

(** Instructions until the next call of the fast timer when its flag is up, outside the window
    between the call and the clearing store; likewise for the slow timer. *)
Definition fast_distance (s : service) : nat :=
  match at_ s with
  | FastCall => 1 | FastTest => 2 | Input => 3 | SlowClear => 4 | SlowCall => 5 | SlowTest => 6 | FastClear => 0
  end.
Definition slow_distance (s : service) : nat :=
  match at_ s with
  | SlowCall => 1 | SlowTest => 2 | FastClear => 3 | FastCall => 4 | FastTest => 5 | Input => 6 | SlowClear => 0
  end.

Lemma calls_grow ev s : (fast_calls s <= fast_calls (step ev s))%nat /\ (slow_calls s <= slow_calls (step ev s))%nat.
Proof. destruct s as [p f sl fc sc i], ev, p; cbn; lia. Qed.

Lemma serve_grow evs : forall s, (fast_calls s <= fast_calls (serve evs s))%nat /\ (slow_calls s <= slow_calls (serve evs s))%nat.
Proof.
  induction evs as [|ev evs IH]; intros s; [done|].
  change (serve (ev :: evs) s) with (serve evs (step ev s)).
  destruct (IH (step ev s)), (calls_grow ev s). lia.
Qed.

(** A raised flag leads to its call as the loop advances. *)
Lemma serve_progress (calls : service -> nat) (distance : service -> nat) (armed : service -> Prop) evs :
  (forall ev s, armed s -> (calls s < calls (step ev s))%nat \/
     (armed (step ev s) /\ (distance (step ev s) <= distance s)%nat /\ calls (step ev s) = calls s /\
      (is_main ev = true -> (distance (step ev s) < distance s)%nat))) ->
  (forall evs s, (calls s <= calls (serve evs s))%nat) ->
  forall s, armed s -> (distance s <= count is_main evs)%nat -> (0 < distance s)%nat ->
  (forall s, armed s -> (0 < distance s)%nat) ->
  (calls s < calls (serve evs s))%nat.
Proof.
  intros Hstep Hgrow. induction evs as [|ev evs IH]; intros s Ha Hd Hpos Hall; [unfold count in Hd; cbn in Hd; lia|].
  change (serve (ev :: evs) s) with (serve evs (step ev s)).
  destruct (Hstep ev s Ha) as [Hlt|(Ha' & Hle & Heq & Hmain)].
  - pose proof (Hgrow evs (step ev s)). lia.
  - rewrite <- Heq. apply IH; [done | | by apply Hall | done].
    assert (Hcount : count is_main (ev :: evs) = ((if is_main ev then 1 else 0) + count is_main evs)%nat)
      by (unfold count; cbn; by destruct (is_main ev)).
    rewrite Hcount in Hd. destruct (is_main ev); [specialize (Hmain eq_refl)|]; lia.
Qed.

(** C26: in every interleaving of the service loop with the timer interrupts, a raised timer flag is
    served: unless the loop is just between the call and the store that clears the flag, the timer
    function is called again within six instructions of the loop, whatever interrupts come in
    between; and the fast timer never runs more often than its interrupt. *)
Theorem raised_flag_served s evs :
  (6 <= count is_main evs)%nat ->
  (TcpFastTmrFlag s = true -> at_ s ≠ FastClear -> (fast_calls s < fast_calls (serve evs s))%nat) /\
  (TcpSlowTmrFlag s = true -> at_ s ≠ SlowClear -> (slow_calls s < slow_calls (serve evs s))%nat) /\
  (fast_calls (serve evs service_start) <= count is_fast evs)%nat.
Proof.
  intros Hn. split_and!.
  - intros Hf Hc. apply (serve_progress fast_calls fast_distance (fun s => TcpFastTmrFlag s = true /\ at_ s ≠ FastClear)).
    + intros ev [p f sl fc sc i] [? ?]. destruct ev, p, sl; cbn in *; subst; try done;
        (left; lia) || (right; split_and!; done || (intros; cbn; lia)).
    + intros evs' s'. apply serve_grow.
    + done.
    + unfold fast_distance. destruct (at_ s); lia.
    + unfold fast_distance. destruct (at_ s) eqn:E; lia || congruence.
    + intros s' [_ ?]. unfold fast_distance. destruct (at_ s') eqn:E; lia || congruence.
  - intros Hf Hc. apply (serve_progress slow_calls slow_distance (fun s => TcpSlowTmrFlag s = true /\ at_ s ≠ SlowClear)).
    + intros ev [p f sl fc sc i] [? ?]. destruct ev, p, f; cbn in *; subst; try done;
        (left; lia) || (right; split_and!; done || (intros; cbn; lia)).
    + intros evs' s'. apply serve_grow.
    + done.
    + unfold slow_distance. destruct (at_ s); lia.
    + unfold slow_distance. destruct (at_ s) eqn:E; lia || congruence.
    + intros s' [_ ?]. unfold slow_distance. destruct (at_ s') eqn:E; lia || congruence.
  - apply (fast_budget evs service_start 0); [cbn; lia | done].
Qed.

(** An interrupt between the call and the clearing store is lost: of two ticks only one is ever
    served, however long the loop runs on. *)
Lemma tick_in_window_lost n :
  fast_calls (serve ([FastTick; Main; Main; FastTick; Main] ++ repeat Main n) service_start) = 1%nat.
Proof.
  unfold serve. rewrite fold_left_app.
  assert (H : forall n p i, p ≠ FastCall -> p ≠ FastClear -> p ≠ SlowCall -> p ≠ SlowClear ->
    fast_calls (fold_left (fun s ev => step ev s) (repeat Main n) (mkService p false false 1 0 i)) = 1%nat).
  { clear. induction n as [|n IH]; intros p i ? ? ? ?; [done|]. cbn [repeat fold_left].
    destruct p; try done; cbn; by apply IH. }
  cbn [fold_left step loop_step at_ service_start]. by apply H.
Qed.

(** A server that could not be started is served all the same: the result is not looked at. *)
Lemma failed_start_ignored fuel cf e : LWIP_IPV6 cf = true -> phy_reset_fails e = false ->
  xemac_add_ok e = true -> new_pcb e = false ->
  exists calls, net_process_main fuel cf e = Some (net_serving calls None (-1)).
Proof.
  intros H6 Hp Hx Hn. unfold net_process_main, bring_up, net_prologue, initial_addresses, start_network_process.
  rewrite H6, Hp, andb_false_r, Hx, Hn. cbn. by eexists.
Qed.

(** ** Witnesses *)

Module NetDemo.
Definition demo_config : net_config := mkNet false true false false false.
(** The counter runs from 3; the lease arrives at the second pass. *)
Definition demo_env : net_env :=
  mkEnv false true (fun k => if (k <? 2)%nat then 0 else IP4_ADDR 10 0 0 7) (fun _ => default_netmask)
    (fun _ => default_gw) (fun k => 3 - Z.of_nat k) true 0 true.

Example demo_up :
  net_process_main 10 demo_config demo_env =
  Some (net_serving [init_platform; lwip_init; xemac_add (Some (0, 0, 0)); netif_set_default;
          platform_enable_interrupts; netif_set_up; dhcp_start; xemacif_input; xemacif_input;
          print_ip_settings (IP4_ADDR 10 0 0 7) default_netmask default_gw;
          start_process [tcp_new; tcp_bind 7; tcp_arg 0; tcp_listen; tcp_accept]]
     (Some (IP4_ADDR 10 0 0 7, default_netmask, default_gw)) 0).
Proof. vm_compute. reflexivity. Qed.
End NetDemo.

Lemma bring_up_gets_address_witness :
  exists k calls ip mask gw, (k <= 3)%nat /\
    net_process_main 10 NetDemo.demo_config NetDemo.demo_env
      = Some (net_serving calls (Some (ip, mask, gw)) 0) /\
    ip ≠ 0 /\ (forall j, (j < k)%nat -> ip_at NetDemo.demo_env j = 0) /\
    ((ip, mask, gw) = (ip_at NetDemo.demo_env (S k), netmask_at NetDemo.demo_env (S k), gw_at NetDemo.demo_env (S k)) \/
     (ip_at NetDemo.demo_env (S k) = 0 /\ cntr_at NetDemo.demo_env k <= 0 /\
      (ip, mask, gw) = (default_ip, default_netmask, default_gw))).
Proof.
  apply (bring_up_gets_address (start_network_process true 0 true) NetDemo.demo_config NetDemo.demo_env 3 10); try reflexivity; [|lia].
  split_and!; [cbn; lia | intros k; cbn [cntr_at NetDemo.demo_env]; lia |].
  intros k. cbn [ip_at NetDemo.demo_env]. destruct (Nat.ltb_spec k 2), (Nat.ltb_spec (S k) 2); try done; lia.
Defined.

Lemma raised_flag_served_witness :
  (0 < fast_calls (serve [Main; SlowTick; Main; Main; Main; Main; Main] (step FastTick service_start)))%nat.
Proof.
  refine (proj1 (raised_flag_served (step FastTick service_start)
    [Main; SlowTick; Main; Main; Main; Main; Main] _) _ _).
  - vm_compute. lia.
  - reflexivity.
  - discriminate.
Defined.
