(* ===== verification/Windows.v ===== *)
(** Kernels that communicate through windows.

    The kernels of the array's matrix multiplication examples ([example/example_oob],
    [example/example_oob_4x4]) exchange windows of data: a connection between two kernels is a small
    number of equal buffers guarded by locks, the producer acquires an empty one, fills it and
    releases it, the consumer acquires the oldest full one and releases it empty.  The library
    behind [window_acquire] and [window_release] is not part of the repository; this file gives the
    environment the kernels run in, for every number of buffers per connection and every
    interleaving of the cores: a core is a process ([proc]) whose actions are the four lock
    operations, the array is a list of processes over a table of buffers, and any core whose next
    action is possible may move.

    The theory of the file is that of a deterministic network: cores that are wired point to point
    cannot influence the outcome by their relative speed.  If one schedule runs the network to its
    end, no schedule can deadlock, none is longer, and all end in the same state
    ([every_schedule]), so that it is enough to exhibit one. *)
From stdpp Require Import base list gmap countable.
From Stdlib Require Import ZArith Lia.
From S2P Require Import Prelude.
Local Open Scope Z_scope.

(** * Processes and buffers *)

(** The two connections between neighbouring cores: operands and results. *)
Inductive stream := Data | Result.

#[global] Instance stream_eq_dec : EqDecision stream.
Proof. solve_decision. Defined.
#[global] Instance stream_countable : Countable stream.
Proof.
  refine (inj_countable' (fun s => match s with Data => false | Result => true end)
            (fun b : bool => if b then Result else Data) _).
  by intros [].
Defined.

(** The connection that ends at the [n]-th core of a row. *)
Abbreviation chan := (stream * nat)%type.

(** A core from one lock operation to the next.  [Done] is a core that has finished, with the
    windows it kept; [Fault] is one that has gone outside the bounds of an array or has released a
    buffer it had not filled. *)
Inductive proc :=
| Done (kept : list (list Z))
| Fault
| AcqIn (c : chan) (k : list Z -> proc)
| RelIn (c : chan) (k : proc)
| AcqOut (c : chan) (k : proc)
| RelOut (c : chan) (w : list Z) (k : proc).

(** The buffers of a connection: the full ones, oldest first, and the number of empty ones. *)
Record buffers := mkBuf { full : list (list Z); free : nat }.

Definition network : Type := list proc * gmap chan buffers.

(** The connection of the next action, and what the action does to its buffers; [None] where the
    action has to wait. *)
Definition target (p : proc) : option chan :=
  match p with
  | Done _ | Fault => None
  | AcqIn c _ | RelIn c _ | AcqOut c _ | RelOut c _ _ => Some c
  end.

Definition effect (p : proc) (b : buffers) : option (proc * buffers) :=
  match p with
  | Done _ | Fault => None
  | AcqIn _ k => match full b with w :: q => Some (k w, mkBuf q (free b)) | [] => None end
  | RelIn _ k => Some (k, mkBuf (full b) (S (free b)))
  | AcqOut _ k => match free b with S f => Some (k, mkBuf (full b) f) | O => None end
  | RelOut _ w k => Some (k, mkBuf (full b ++ [w]) (free b))
  end.

Definition act (p : proc) (cs : gmap chan buffers) : option (proc * gmap chan buffers) :=
  c ← target p; b ← cs !! c; '(p', b') ← effect p b; Some (p', <[c := b']> cs).

(** The [i]-th core moves. *)
Definition fire (i : nat) (s : network) : option network :=
  p ← s.1 !! i; '(p', cs') ← act p s.2; Some (<[i := p']> s.1, cs').

(** A schedule names the core that moves next. *)
Fixpoint play (sched : list nat) (s : network) : option network :=
  match sched with
  | [] => Some s
  | i :: rest => s' ← fire i s; play rest s'
  end.

(** No core can move. *)
Definition halted (s : network) : Prop := forall i, fire i s = None.

(** * Point-to-point wiring *)

Section Wiring.
Context (producer consumer : chan -> nat).

(** A process uses only the ends of connections that are its own. *)
Fixpoint wired_proc (i : nat) (p : proc) : Prop :=
  match p with
  | Done _ | Fault => True
  | AcqIn c k => consumer c = i /\ forall w, wired_proc i (k w)
  | RelIn c k => consumer c = i /\ wired_proc i k
  | AcqOut c k => producer c = i /\ wired_proc i k
  | RelOut c _ k => producer c = i /\ wired_proc i k
  end.

Definition wired (s : network) : Prop := forall i p, s.1 !! i = Some p -> wired_proc i p.

Lemma effect_wired i p b p' b' : wired_proc i p -> effect p b = Some (p', b') -> wired_proc i p'.
Proof.
  destruct b as [[|? ?] [|?]], p; cbn; try done; intros [_ Hk] ?; simplify_eq; auto.
Qed.

Lemma act_inv p cs p' cs' : act p cs = Some (p', cs') ->
  exists c b b', target p = Some c /\ cs !! c = Some b /\ effect p b = Some (p', b') /\
                 cs' = <[c := b']> cs.
Proof.
  unfold act. destruct (target p) as [c|]; cbn; [|done]. destruct (cs !! c) as [b|] eqn:E; cbn; [|done].
  destruct (effect p b) as [[p1 b']|] eqn:Ee; cbn; [|done]. intros [= <- <-]. eauto 8.
Qed.

Lemma act_intro p cs c b p' b' : target p = Some c -> cs !! c = Some b ->
  effect p b = Some (p', b') -> act p cs = Some (p', <[c := b']> cs).
Proof. intros Ht Hc He. unfold act. rewrite Ht. cbn. rewrite Hc. cbn. by rewrite He. Qed.

Lemma fire_inv i s s' : fire i s = Some s' ->
  exists p p' cs', s.1 !! i = Some p /\ act p s.2 = Some (p', cs') /\ s' = (<[i := p']> s.1, cs').
Proof.
  unfold fire. destruct (s.1 !! i) as [p|] eqn:E; cbn; [|done].
  destruct (act p s.2) as [[p' cs']|] eqn:Ea; cbn; [|done]. intros [= <-]. eauto 8.
Qed.

Lemma fire_intro i ps cs p p' cs' : ps !! i = Some p -> act p cs = Some (p', cs') ->
  fire i (ps, cs) = Some (<[i := p']> ps, cs').
Proof. intros Hp Ha. unfold fire. cbn. rewrite Hp. cbn. by rewrite Ha. Qed.

Lemma fire_wired i s s' : wired s -> fire i s = Some s' -> wired s'.
Proof.
  intros Hw (p & p' & cs' & Hp & Ha & ->)%fire_inv j q Hq. cbn in Hq.
  destruct (decide (i = j)) as [<-|Hne].
  - rewrite list_lookup_insert_eq in Hq by eauto using lookup_lt_Some. simplify_eq.
    apply act_inv in Ha as (c & b & b' & _ & _ & He & _). eapply effect_wired; [by apply Hw|done].
  - rewrite list_lookup_insert_ne in Hq by done. by apply Hw.
Qed.

(** The two ends of a connection do not disturb each other. *)
Lemma effect_commute i j c p q b p1 b1 q1 b2 : i <> j -> wired_proc i p -> wired_proc j q ->
  target p = Some c -> target q = Some c ->
  effect p b = Some (p1, b1) -> effect q b = Some (q1, b2) ->
  exists b', effect q b1 = Some (q1, b') /\ effect p b2 = Some (p1, b').
Proof.
  intros Hij Hp Hq Hc Hd Ha Hb. destruct b as [w f].
  destruct p, q; cbn in *; try done; simplify_eq; destruct Hp as [Hp _], Hq as [Hq _];
    try congruence; destruct w, f; simplify_eq; cbn; eauto.
Qed.

(** Two different cores neither disable nor disturb each other. *)
Lemma act_commute i j p q cs p1 cs1 q1 cs2 : i <> j -> wired_proc i p -> wired_proc j q ->
  act p cs = Some (p1, cs1) -> act q cs = Some (q1, cs2) ->
  exists cs', act q cs1 = Some (q1, cs') /\ act p cs2 = Some (p1, cs').
Proof.
  intros Hij Hp Hq (c & b & b1 & Hc & Hcs & Ha & ->)%act_inv (d & b0 & b2 & Hd & Hds & Hb & ->)%act_inv.
  destruct (decide (c = d)) as [->|Hcd].
  - assert (b0 = b) as -> by congruence.
    destruct (effect_commute i j d p q b p1 b1 q1 b2) as (b' & H1 & H2); [done..|].
    exists (<[d := b']> cs). split.
    + rewrite (act_intro q _ d b1 q1 b'), insert_insert_eq; [done|done|by rewrite lookup_insert_eq|done].
    + rewrite (act_intro p _ d b2 p1 b'), insert_insert_eq; [done|done|by rewrite lookup_insert_eq|done].
  - exists (<[d := b2]> (<[c := b1]> cs)). split.
    + apply (act_intro q _ d b0); [done|by rewrite lookup_insert_ne|done].
    + rewrite insert_insert_ne by done. apply (act_intro p _ c b); [done|by rewrite lookup_insert_ne|done].
Qed.

Lemma fire_diamond i j s s1 s2 : wired s -> i <> j -> fire i s = Some s1 -> fire j s = Some s2 ->
  exists s', fire j s1 = Some s' /\ fire i s2 = Some s'.
Proof.
  intros Hw Hij (p & p' & cs1 & Hp & Ha & ->)%fire_inv (q & q' & cs2 & Hq & Hb & ->)%fire_inv.
  destruct (act_commute i j p q s.2 p' cs1 q' cs2) as (cs' & H1 & H2); [by auto..|].
  exists (<[i := p']> (<[j := q']> s.1), cs'). unfold fire. cbn.
  rewrite !list_lookup_insert_ne by done. rewrite Hp, Hq. cbn. rewrite H1, H2. cbn.
  by rewrite list_insert_insert_ne by done.
Qed.

(** * Schedules *)

Lemma play_app l1 l2 s s1 s2 : play l1 s = Some s1 -> play l2 s1 = Some s2 ->
  play (l1 ++ l2) s = Some s2.
Proof.
  revert s; induction l1 as [|i l1 IH]; cbn; intros s; [by intros [= ->]|].
  destruct (fire i s); cbn; [apply IH|done].
Qed.

Lemma play_wired l s s' : wired s -> play l s = Some s' -> wired s'.
Proof.
  revert s; induction l as [|i l IH]; cbn; intros s Hw; [by intros [= <-]|].
  destruct (fire i s) eqn:E; cbn; [|done]. intros Hp. eapply IH; [|done]. by eapply fire_wired.
Qed.

(** A core that can move now can move first in any schedule that runs to the end. *)
Lemma play_swap l i s s1 f : wired s -> fire i s = Some s1 -> play l s = Some f -> halted f ->
  exists l', play l' s1 = Some f /\ length l = S (length l').
Proof.
  revert s s1; induction l as [|j l IH]; cbn; intros s s1 Hw Hi Hp Hf.
  - simplify_eq. by rewrite Hf in Hi.
  - destruct (fire j s) as [s2|] eqn:Hj; cbn in Hp; [|done].
    destruct (decide (i = j)) as [->|Hij]; [simplify_eq; eauto|].
    destruct (fire_diamond i j s s1 s2) as (s' & H1 & H2); [done..|].
    destruct (IH s2 s') as (l' & Hl' & Hlen); [by eapply fire_wired|done..|].
    exists (j :: l'). cbn. rewrite H1. cbn. auto with lia.
Qed.

(** If one schedule runs a network to its end, every other schedule can be continued to the same
    end, in the number of moves that is left. *)
Theorem every_schedule l l' s f s' : wired s -> play l s = Some f -> halted f ->
  play l' s = Some s' -> exists rest, play rest s' = Some f /\ length l = (length l' + length rest)%nat.
Proof.
  revert l s; induction l' as [|i l' IH]; cbn; intros l s Hw Hl Hf Hp.
  - simplify_eq. eauto.
  - destruct (fire i s) as [s1|] eqn:Hi; cbn in Hp; [|done].
    destruct (play_swap l i s s1 f) as (m & Hm & Hlen); [done..|].
    destruct (IH m s1) as (rest & Hr & Hlen'); [by eapply fire_wired|done..|].
    exists rest. split; [done|lia].
Qed.

(** In particular every schedule that cannot be continued ends in that state, and no schedule is
    longer. *)
Corollary every_end l l' s f s' : wired s -> play l s = Some f -> halted f ->
  play l' s = Some s' -> (length l' <= length l)%nat /\ (halted s' -> s' = f).
Proof.
  intros Hw Hl Hf Hp. destruct (every_schedule l l' s f s') as (rest & Hr & Hlen); [done..|].
  split; [lia|]. intros Hs'. destruct rest as [|i rest]; cbn in Hr; [congruence|].
  by rewrite Hs' in Hr.
Qed.
End Wiring.

(** Running a network in turns. *)
Fixpoint in_turns (fuel : nat) (order : list nat) (s : network) : network :=
  match fuel with
  | O => s
  | S fuel' => in_turns fuel' order
      (fold_left (fun s i => match fire i s with Some s' => s' | None => s end) order s)
  end.
