(* ===== verification/Chain.v ===== *)
(** A row of cores that passes windows from neighbour to neighbour.

    [ConnectSystolicArray_Row_LToR] of [example/example_oob/src/graph.h] connects the cores of a row
    into a chain: operands enter at the first core and travel along the row, results travel along
    the row and leave at the last core.  This file runs such a chain, for every behaviour of the
    cores that keeps to the protocol of the kernels: a core first takes its own stripe of operands,
    then passes on the stripes of the cores behind it, then receives and passes on the windows of
    each block, and after some of the blocks passes on the results of the cores before it, followed
    by its own.  The main result ([chain_runs]) exhibits a schedule that takes the chain through one
    call of all kernels; with Windows.v it determines every schedule. *)
From stdpp Require Import base list gmap.
From Stdlib Require Import ZArith Lia.
From S2P Require Import Prelude Windows.
Local Open Scope Z_scope.

(** * Reachability *)

Definition reach (s s' : network) : Prop := exists l, play l s = Some s'.

Lemma reach_refl s : reach s s.
Proof. by exists []. Qed.

Lemma reach_trans s1 s2 s3 : reach s1 s2 -> reach s2 s3 -> reach s1 s3.
Proof. intros [l1 H1] [l2 H2]. exists (l1 ++ l2). by eapply play_app. Qed.

Lemma reach_fire i s s1 s' : fire i s = Some s1 -> reach s1 s' -> reach s s'.
Proof. intros Hi [l Hl]. exists (i :: l). cbn. by rewrite Hi. Qed.

(** A loop of macro steps. *)
Lemma reach_loop (f : nat -> network) n : (forall i, (i < n)%nat -> reach (f i) (f (S i))) ->
  forall m, (m <= n)%nat -> reach (f 0%nat) (f m).
Proof.
  intros Hf m. induction m as [|m IH]; intros Hm; [apply reach_refl|].
  eapply reach_trans; [apply IH; lia|]. apply Hf. lia.
Qed.

(** * What a core does with one window *)

(** It passes the window on, ... *)
Definition forwards (s : stream) (i : nat) (p : proc) (w : list Z) (p' : proc) : Prop :=
  exists k, p = AcqOut (s, S i) (AcqIn (s, i) k) /\ k w = RelIn (s, i) (RelOut (s, S i) w p').

(** ... keeps it, ... *)
Definition absorbs (s : stream) (i : nat) (p : proc) (w : list Z) (p' : proc) : Prop :=
  exists k, p = AcqIn (s, i) k /\ k w = RelIn (s, i) p'.

(** ... or makes it. *)
Definition emits (c : chan) (p : proc) (w : list Z) (p' : proc) : Prop :=
  p = AcqOut c (RelOut c w p').

Section Chain.
Context (n : nat) (cs0 : gmap chan buffers) (cap : chan -> nat).
(** Between two windows all buffers are empty; every connection has at least one. *)
Hypothesis idle : forall s i, (i <= n)%nat -> cs0 !! (s, i) = Some (mkBuf [] (S (cap (s, i)))).

(** The cores of the row, the collector of the results behind the last, and the source of the
    operands. *)
Definition net (P : nat -> proc) (src : proc) : list proc := map P (seq 0 (S n)) ++ [src].

Definition upd (P : nat -> proc) (i : nat) (p : proc) : nat -> proc :=
  fun j => if decide (j = i) then p else P j.

Lemma net_lookup P src i : (i <= n)%nat -> net P src !! i = Some (P i).
Proof.
  intros Hi. unfold net. rewrite lookup_app_l by (rewrite length_map, length_seq; lia).
  rewrite list_lookup_fmap, lookup_seq_lt by lia. done.
Qed.

Lemma net_source P src : net P src !! S n = Some src.
Proof.
  unfold net. rewrite lookup_app_r by (rewrite length_map, length_seq; lia).
  by rewrite length_map, length_seq, Nat.sub_diag.
Qed.

Lemma net_insert P src i p : (i <= n)%nat -> <[i := p]> (net P src) = net (upd P i p) src.
Proof.
  intros Hi. unfold net. rewrite insert_app_l by (rewrite length_map, length_seq; lia). f_equal.
  apply list_eq. intros j. destruct (decide (j = i)) as [->|Hj].
  - rewrite list_lookup_insert_eq by (rewrite length_map, length_seq; lia).
    rewrite list_lookup_fmap, lookup_seq_lt by lia. unfold upd. cbn. by rewrite decide_True.
  - rewrite list_lookup_insert_ne by done. rewrite !list_lookup_fmap.
    destruct (seq 0 (S n) !! j) as [x|] eqn:E; [|done]. cbn.
    apply lookup_seq in E as [-> _]. unfold upd. by rewrite decide_False.
Qed.

Lemma net_insert_source P src p : <[S n := p]> (net P src) = net P p.
Proof.
  unfold net. rewrite insert_app_r_alt by (rewrite length_map, length_seq; lia).
  by rewrite length_map, length_seq, Nat.sub_diag.
Qed.

Lemma net_ext P Q src : (forall i, (i <= n)%nat -> P i = Q i) -> net P src = net Q src.
Proof.
  intros HP. unfold net. f_equal. apply map_ext_in. intros i Hi%in_seq. apply HP. lia.
Qed.

(** One move of a core or of the source. *)
Lemma net_fire P src cs i c b p' b' : (i <= n)%nat -> target (P i) = Some c -> cs !! c = Some b ->
  effect (P i) b = Some (p', b') ->
  fire i (net P src, cs) = Some (net (upd P i p') src, <[c := b']> cs).
Proof.
  intros Hi Ht Hc He. rewrite <- net_insert by done.
  apply (fire_intro i _ _ (P i)); [by apply net_lookup|]. by apply (act_intro _ _ c b p' b').
Qed.

Lemma source_fire P src cs c b p' b' : target src = Some c -> cs !! c = Some b ->
  effect src b = Some (p', b') ->
  fire (S n) (net P src, cs) = Some (net P p', <[c := b']> cs).
Proof.
  intros Ht Hc He. rewrite <- (net_insert_source P src p').
  apply (fire_intro (S n) _ _ src); [apply net_source|]. by apply (act_intro _ _ c b p' b').
Qed.

(** A window waits on a connection, all other connections are empty. *)
Definition waiting (c : chan) (w : list Z) : gmap chan buffers := <[c := mkBuf [w] (cap c)]> cs0.

Lemma upd_same P i p : upd P i p i = p.
Proof. unfold upd. by rewrite decide_True. Qed.

Lemma upd_upd P i p q src : net (upd (upd P i p) i q) src = net (upd P i q) src.
Proof. apply net_ext. intros j _. unfold upd. by destruct (decide (j = i)). Qed.

Lemma hop_absorb s i P src w p' : (i <= n)%nat -> absorbs s i (P i) w p' ->
  reach (net P src, waiting (s, i) w) (net (upd P i p') src, cs0).
Proof.
  intros Hi (k & HP & Hk).
  eapply reach_fire.
  { apply (net_fire _ _ _ i (s, i) (mkBuf [w] (cap (s, i))) (k w) (mkBuf [] (cap (s, i)))); [done| | |];
      rewrite ?HP; try done. by unfold waiting; rewrite lookup_insert_eq. }
  rewrite Hk. eapply reach_fire.
  { apply (net_fire _ _ _ i (s, i) (mkBuf [] (cap (s, i))) p' (mkBuf [] (S (cap (s, i))))); [done| | |];
      rewrite ?upd_same; try done. by rewrite lookup_insert_eq. }
  rewrite upd_upd. unfold waiting. rewrite !insert_insert_eq.
  rewrite insert_id by (by apply idle). apply reach_refl.
Qed.

Lemma hop_forward s i P src w p' : (S i <= n)%nat -> forwards s i (P i) w p' ->
  reach (net P src, waiting (s, i) w) (net (upd P i p') src, waiting (s, S i) w).
Proof.
  intros Hi (k & HP & Hk).
  assert (Hne : (s, i) ≠ (s, S i)) by (intros [=]; lia).
  set (f := cap (s, i)). set (f' := cap (s, S i)).
  eapply reach_fire.
  { apply (net_fire _ _ _ i (s, S i) (mkBuf [] (S f')) (AcqIn (s, i) k) (mkBuf [] f')); [lia| | |];
      rewrite ?HP; try done. unfold waiting. rewrite lookup_insert_ne by done. apply idle. lia. }
  eapply reach_fire.
  { apply (net_fire _ _ _ i (s, i) (mkBuf [w] f) (k w) (mkBuf [] f)); [lia| | |];
      rewrite ?upd_same; try done. rewrite lookup_insert_ne by done.
    unfold waiting. by rewrite lookup_insert_eq. }
  rewrite Hk. eapply reach_fire.
  { apply (net_fire _ _ _ i (s, i) (mkBuf [] f) (RelOut (s, S i) w p') (mkBuf [] (S f))); [lia| | |];
      rewrite ?upd_same; try done. by rewrite lookup_insert_eq. }
  eapply reach_fire.
  { apply (net_fire _ _ _ i (s, S i) (mkBuf [] f') p' (mkBuf [w] f')); [lia| | |];
      rewrite ?upd_same; try done. rewrite !lookup_insert_ne by done. by rewrite lookup_insert_eq. }
  rewrite !upd_upd. unfold waiting. fold f f'.
  rewrite !(insert_insert_ne _ (s, S i) (s, i)) by done. rewrite !insert_insert_eq.
  rewrite (insert_insert_ne _ (s, i) (s, S i)) by done.
  rewrite (insert_id cs0 (s, i)) by (apply idle; lia). apply reach_refl.
Qed.

(** A window that waits at core [j] is passed on up to core [m], which keeps it. *)
Lemma travel s j m P Q src w : (m <= n)%nat -> (j <= m)%nat ->
  (forall i, (j <= i < m)%nat -> forwards s i (P i) w (Q i)) -> absorbs s m (P m) w (Q m) ->
  (forall i, (i <= n)%nat -> (i < j \/ m < i)%nat -> Q i = P i) ->
  reach (net P src, waiting (s, j) w) (net Q src, cs0).
Proof.
  intros Hm Hj. remember (m - j)%nat as d eqn:Hd. revert j P Hj Hd.
  induction d as [|d IH]; intros j P Hj Hd Hf Ha Ho.
  - assert (j = m) as -> by lia. eapply reach_trans; [by apply hop_absorb|].
    rewrite (net_ext _ Q); [apply reach_refl|]. intros i Hi. unfold upd.
    destruct (decide (i = m)) as [->|]; [done|]. symmetry. apply Ho; lia.
  - eapply reach_trans; [apply hop_forward; [lia|apply Hf; lia]|].
    apply IH; [lia|lia| | |].
    + intros i Hi. unfold upd. rewrite decide_False by lia. apply Hf. lia.
    + unfold upd. rewrite decide_False by lia. done.
    + intros i Hn Hi. unfold upd. destruct (decide (i = j)) as [->|]; [done|]. apply Ho; lia.
Qed.

(** The source makes a window for the first core, and a core makes one for the next. *)
Lemma start_data P src src' w : emits (Data, 0%nat) src w src' ->
  reach (net P src, cs0) (net P src', waiting (Data, 0%nat) w).
Proof.
  intros ->. eapply reach_fire.
  { apply (source_fire _ _ _ (Data, 0%nat) (mkBuf [] (S (cap (Data, 0%nat)))) (RelOut (Data, 0%nat) w src')
      (mkBuf [] (cap (Data, 0%nat)))); try done. apply idle. lia. }
  eapply reach_fire.
  { apply (source_fire _ _ _ (Data, 0%nat) (mkBuf [] (cap (Data, 0%nat))) src'
      (mkBuf [w] (cap (Data, 0%nat)))); try done. by rewrite lookup_insert_eq. }
  rewrite insert_insert_eq. apply reach_refl.
Qed.

Lemma start_result i P src w p' : (S i <= n)%nat -> emits (Result, S i) (P i) w p' ->
  reach (net P src, cs0) (net (upd P i p') src, waiting (Result, S i) w).
Proof.
  intros Hi HP. set (c := (Result, S i)). eapply reach_fire.
  { apply (net_fire _ _ _ i c (mkBuf [] (S (cap c))) (RelOut c w p') (mkBuf [] (cap c)));
      [lia| | |]; rewrite ?HP; try done. apply idle. lia. }
  eapply reach_fire.
  { apply (net_fire _ _ _ i c (mkBuf [] (cap c)) p' (mkBuf [w] (cap c))); [lia| | |];
      rewrite ?upd_same; try done. by rewrite lookup_insert_eq. }
  rewrite upd_upd, insert_insert_eq. apply reach_refl.
Qed.

(** * The two ends of the chain *)

(** The source of the operands sends windows to the first core. *)
Fixpoint send (ws : list (list Z)) (k : proc) : proc :=
  match ws with
  | [] => k
  | w :: rest => AcqOut (Data, 0%nat) (RelOut (Data, 0%nat) w (send rest k))
  end.

(** The collector behind the last core keeps [m] more windows. *)
Fixpoint collect (m : nat) (acc : list (list Z)) : proc :=
  match m with
  | O => Done acc
  | S m' => AcqIn (Result, n) (fun w => RelIn (Result, n) (collect m' (acc ++ [w])))
  end.

(** * One call of the kernels of a row

    [A c x] is window [x] of the stripe of core [c], [B g x] window [x] of block [g]; after block [g]
    with [flush_at g] core [c] makes the window [own c g].  [load], [fwd], [blk] and [flush] are the
    cores at the points between two windows. *)
Section Call.
Context (NA NX NB : nat) (flush_at : nat -> bool) (A B own : nat -> nat -> list Z).
Context (load fwd : nat -> nat -> proc) (blk flush : nat -> nat -> nat -> proc).
Hypothesis n_pos : (0 < n)%nat.
Hypothesis load_absorbs : forall c x, (c < n)%nat -> (x < NA)%nat ->
  absorbs Data c (load c x) (A c x) (load c (S x)).
Hypothesis load_end : forall c, (c < n)%nat -> load c NA = fwd c 0.
Hypothesis fwd_forwards : forall c t x, (c < t < n)%nat -> (x < NA)%nat ->
  forwards Data c (fwd c (NA * (t - 1 - c) + x)) (A t x) (fwd c (S (NA * (t - 1 - c) + x))).
Hypothesis fwd_end : forall c, (c < n)%nat -> fwd c (NA * (n - 1 - c)) = blk c 0 0.
Hypothesis blk_forwards : forall c g x, (S c < n)%nat -> (g < NB)%nat -> (x < NX)%nat ->
  forwards Data c (blk c g x) (B g x) (blk c g (S x)).
Hypothesis blk_absorbs : forall c g x, (S c = n)%nat -> (g < NB)%nat -> (x < NX)%nat ->
  absorbs Data c (blk c g x) (B g x) (blk c g (S x)).
Hypothesis blk_end : forall c g, (c < n)%nat -> (g < NB)%nat ->
  blk c g NX = if flush_at g then flush c g 0 else blk c (S g) 0.
Hypothesis flush_forwards : forall c g s, (s < c < n)%nat -> (g < NB)%nat -> flush_at g = true ->
  forwards Result c (flush c g s) (own s g) (flush c g (S s)).
Hypothesis flush_emits : forall c g, (c < n)%nat -> (g < NB)%nat -> flush_at g = true ->
  emits (Result, S c) (flush c g c) (own c g) (blk c (S g) 0).

Definition stripes : list (list Z) := flat_map (fun c => map (A c) (seq 0 NA)) (seq 0 n).
Definition blocks : list (list Z) := flat_map (fun g => map (B g) (seq 0 NX)) (seq 0 NB).
Definition row_results (g : nat) : list (list Z) := map (fun c => own c g) (seq 0 n).
Definition results (m : nat) : list (list Z) :=
  flat_map (fun g => if flush_at g then row_results g else []) (seq 0 m).

(** The row while stripe [t] is passed along. *)
Definition at_stripe (t x : nat) (snk : proc) (c : nat) : proc :=
  if decide (n <= c)%nat then snk
  else if decide (c < t)%nat then fwd c (NA * (t - 1 - c) + x)
  else if decide (c = t) then load c x
  else load c 0.

Lemma stripe_window t x rest k snk : (t < n)%nat -> (x < NA)%nat ->
  reach (net (at_stripe t x snk) (send (A t x :: rest) k), cs0)
        (net (at_stripe t (S x) snk) (send rest k), cs0).
Proof.
  intros Ht Hx. eapply reach_trans; [by apply start_data|].
  apply (travel Data 0 t); [lia|lia|intros i Hi| |intros i Hn Hi]; unfold at_stripe; cbn beta;
    repeat (case_decide; try lia); try done.
  - rewrite Nat.add_succ_r. apply fwd_forwards; lia.
  - by apply load_absorbs.
Qed.

Lemma stripe_windows t x d rest k snk : (t < n)%nat -> (x + d = NA)%nat ->
  reach (net (at_stripe t x snk) (send (map (A t) (seq x d) ++ rest) k), cs0)
        (net (at_stripe t NA snk) (send rest k), cs0).
Proof.
  intros Ht. revert x. induction d as [|d IH]; intros x Hx; cbn [seq map app].
  - replace x with NA by lia. apply reach_refl.
  - eapply reach_trans; [apply stripe_window; lia|]. apply IH. lia.
Qed.

Lemma stripe_next t snk src : (t < n)%nat ->
  net (at_stripe t NA snk) src = net (at_stripe (S t) 0 snk) src.
Proof.
  intros Ht. apply net_ext. intros c Hc. unfold at_stripe.
  repeat (case_decide; try lia); subst; rewrite ?load_end by lia; try done; f_equal; nia.
Qed.

Lemma stripes_pass t d rest k snk : (t + d = n)%nat ->
  reach (net (at_stripe t 0 snk)
          (send (flat_map (fun c => map (A c) (seq 0 NA)) (seq t d) ++ rest) k), cs0)
        (net (at_stripe n 0 snk) (send rest k), cs0).
Proof.
  revert t. induction d as [|d IH]; intros t Ht; cbn [seq flat_map app].
  - replace t with n by lia. apply reach_refl.
  - rewrite <- app_assoc. eapply reach_trans; [apply stripe_windows; lia|].
    rewrite stripe_next by lia. apply IH. lia.
Qed.

(** The row while block [g] is passed along, and while the results of the row leave it. *)
Definition at_block (g x : nat) (snk : proc) (c : nat) : proc :=
  if decide (n <= c)%nat then snk else blk c g x.

Definition at_flush (g s : nat) (snk : proc) (c : nat) : proc :=
  if decide (n <= c)%nat then snk else if decide (c < s)%nat then blk c (S g) 0 else flush c g s.

Lemma stripes_end snk src : net (at_stripe n 0 snk) src = net (at_block 0 0 snk) src.
Proof.
  apply net_ext. intros c Hc. unfold at_stripe, at_block.
  repeat (case_decide; try lia); try done. rewrite Nat.add_0_r. apply fwd_end. lia.
Qed.

Lemma block_window g x rest k snk : (g < NB)%nat -> (x < NX)%nat ->
  reach (net (at_block g x snk) (send (B g x :: rest) k), cs0)
        (net (at_block g (S x) snk) (send rest k), cs0).
Proof.
  intros Hg Hx. eapply reach_trans; [by apply start_data|].
  apply (travel Data 0 (n - 1)); [lia|lia|intros i Hi| |intros i Hn Hi]; unfold at_block; cbn beta;
    repeat (case_decide; try lia); try done.
  - apply blk_forwards; lia.
  - apply blk_absorbs; lia.
Qed.

Lemma block_windows g x d rest k snk : (g < NB)%nat -> (x + d = NX)%nat ->
  reach (net (at_block g x snk) (send (map (B g) (seq x d) ++ rest) k), cs0)
        (net (at_block g NX snk) (send rest k), cs0).
Proof.
  intros Hg. revert x. induction d as [|d IH]; intros x Hx; cbn [seq map app].
  - replace x with NX by lia. apply reach_refl.
  - eapply reach_trans; [apply block_window; lia|]. apply IH. lia.
Qed.

Lemma flush_window g s m acc src : (g < NB)%nat -> flush_at g = true -> (s < n)%nat ->
  reach (net (at_flush g s (collect (S m) acc)) src, cs0)
        (net (at_flush g (S s) (collect m (acc ++ [own s g]))) src, cs0).
Proof.
  intros Hg Hfl Hs. eapply reach_trans.
  { apply (start_result s _ _ (own s g) (blk s (S g) 0)); [lia|].
    unfold at_flush. repeat (case_decide; try lia). by apply flush_emits. }
  apply (travel Result (S s) n); [lia|lia|intros i Hi| |intros i Hn Hi];
    unfold upd, at_flush; cbn beta; repeat (case_decide; try lia); subst; try done.
  - apply flush_forwards; [lia|done..].
  - by eexists.
Qed.

Lemma flush_windows g s d m acc src : (g < NB)%nat -> flush_at g = true -> (s + d = n)%nat ->
  reach (net (at_flush g s (collect (d + m) acc)) src, cs0)
        (net (at_flush g n (collect m (acc ++ map (fun c => own c g) (seq s d)))) src, cs0).
Proof.
  intros Hg Hfl. revert s acc. induction d as [|d IH]; intros s acc Hs; cbn [seq map Nat.add].
  - rewrite app_nil_r. replace s with n by lia. apply reach_refl.
  - eapply reach_trans; [apply flush_window; [done|done|lia]|].
    specialize (IH (S s) (acc ++ [own s g]) ltac:(lia)). by rewrite <- app_assoc in IH.
Qed.

Lemma block_passes g rest k m acc : (g < NB)%nat ->
  let out := if flush_at g then row_results g else [] in
  reach (net (at_block g 0 (collect (length out + m) acc)) (send (map (B g) (seq 0 NX) ++ rest) k), cs0)
        (net (at_block (S g) 0 (collect m (acc ++ out))) (send rest k), cs0).
Proof.
  intros Hg out. eapply reach_trans; [apply block_windows; lia|].
  destruct (flush_at g) eqn:Hfl; subst out.
  - unfold row_results. rewrite length_map, length_seq.
    rewrite (net_ext _ (at_flush g 0 (collect (n + m) acc))).
    2: { intros c Hc. unfold at_block, at_flush. repeat (case_decide; try lia); [done|].
         by rewrite blk_end, Hfl by lia. }
    eapply reach_trans; [apply flush_windows; [done|done|lia]|].
    rewrite (net_ext _ (at_block (S g) 0 (collect m (acc ++ map (fun c => own c g) (seq 0 n)))));
      [apply reach_refl|].
    intros c Hc. unfold at_block, at_flush. by repeat (case_decide; try lia).
  - cbn [length Nat.add]. rewrite app_nil_r.
    rewrite (net_ext _ (at_block (S g) 0 (collect m acc))); [apply reach_refl|].
    intros c Hc. unfold at_block. case_decide; [done|]. by rewrite blk_end, Hfl by lia.
Qed.

Lemma blocks_pass g d rest k m acc : (g + d = NB)%nat ->
  let out := flat_map (fun g => if flush_at g then row_results g else []) (seq g d) in
  reach (net (at_block g 0 (collect (length out + m) acc))
          (send (flat_map (fun g => map (B g) (seq 0 NX)) (seq g d) ++ rest) k), cs0)
        (net (at_block NB 0 (collect m (acc ++ out))) (send rest k), cs0).
Proof.
  revert g acc. induction d as [|d IH]; intros g acc Hg out; subst out; cbn [seq flat_map app length Nat.add].
  - rewrite app_nil_r. replace g with NB by lia. apply reach_refl.
  - rewrite length_app, <- Nat.add_assoc, <- app_assoc.
    eapply reach_trans; [apply block_passes; lia|]. rewrite app_assoc. apply IH. lia.
Qed.

(** A call of the kernels consumes the stripes and the blocks and delivers the results. *)
Lemma chain_runs rest k m acc :
  reach (net (at_stripe 0 0 (collect (length (results NB) + m) acc)) (send (stripes ++ blocks ++ rest) k), cs0)
        (net (at_block NB 0 (collect m (acc ++ results NB))) (send rest k), cs0).
Proof.
  eapply reach_trans; [apply stripes_pass; lia|]. rewrite stripes_end. apply blocks_pass. lia.
Qed.
End Call.
End Chain.
