(* ===== verification/Core.v ===== *)
(** The shape of the kernels of a row, and one call of a row of them.

    The matrix multiplication kernels of [example/example_oob] and [example/example_oob_4x4] are loops
    over windows around array operations.  This file has the loops, the array and window operations
    they are written with, and the common shape of the six kernels ([core]): the files of the two
    examples state each kernel as the source has it and show it to be of this shape.  [call_runs]
    takes a row of such kernels through one call, given what each window does to the arrays of each
    core; [calls_run] through any number of calls. *)
From stdpp Require Import base list gmap.
From Stdlib Require Import ZArith Lia.
From S2P Require Import Prelude Windows Chain.
Local Open Scope Z_scope.

(** * Loops, arrays and windows *)

(** [for (unsigned i = 0; i < n; i++)] around code that may wait for a window, ... *)
Fixpoint for_ {S} (n i : nat) (body : nat -> S -> (S -> proc) -> proc) (s : S) (k : S -> proc) : proc :=
  match n with
  | O => k s
  | Datatypes.S n' => body i s (fun s' => for_ n' (Datatypes.S i) body s' k)
  end.

(** ... and around array operations; [None] is an access outside an array. *)
Fixpoint loop {S} (n i : nat) (body : nat -> S -> option S) (s : S) : option S :=
  match n with
  | O => Some s
  | Datatypes.S n' => s' ← body i s; loop n' (Datatypes.S i) body s'
  end.

Definition opt {S} (x : option S) (k : S -> proc) : proc :=
  match x with Some s => k s | None => Fault end.

(** Storing and loading a vector at an offset of an array. *)
Definition splice (arr : list Z) (off : nat) (v : list Z) : list Z :=
  take off arr ++ v ++ drop (off + length v) arr.

Definition store_v (arr : list Z) (off : nat) (v : list Z) : option (list Z) :=
  if (off + length v <=? length arr)%nat then Some (splice arr off v) else None.

Definition load_v (n : nat) (arr : list Z) (off : nat) : option (list Z) :=
  if (off + n <=? length arr)%nat then Some (take n (drop off arr)) else None.

(** Reading a vector from a window that has been read up to [r]. *)
Definition window_readincr_v (n : nat) (w : list Z) (r : nat) : option (list Z * nat) :=
  v ← load_v n w r; Some (v, (r + n)%nat).

(** Releasing an output window: the buffer must have been filled. *)
Definition window_release (size : nat) (c : chan) (w : list Z) (k : proc) : proc :=
  if (length w =? size)%nat then RelOut c w k else Fault.

(** [n] vectors of a window are stored from an offset of an array on, ... *)
Definition read_into (V n : nat) (arr : list Z) (off : nat) (win : list Z) : option (list Z) :=
  fst <$> loop n 0 (fun x '(arr, r) =>
    '(temp, r') ← window_readincr_v V win r;
    arr' ← store_v arr (off + x * V) temp; Some (arr', r')) (arr, 0%nat).

(** ... or written to another window. *)
Definition copy_window (V n : nat) (win : list Z) : option (list Z) :=
  fst <$> loop n 0 (fun _ '(out, r) =>
    '(temp, r') ← window_readincr_v V win r; Some (out ++ temp, r')) ([], 0%nat).

(** [n] vectors of an array are written to a window, each is cleared behind the write. *)
Definition drain_into (V n : nat) (arr : list Z) : option (list Z * list Z) :=
  loop n 0 (fun z '(arr, out) =>
    v ← load_v V arr (z * V);
    arr' ← store_v arr (z * V) (replicate V 0); Some (arr', out ++ v)) (arr, []).

(** ** What they do *)

Lemma load_v_ok n arr off : (off + n <= length arr)%nat -> load_v n arr off = Some (take n (drop off arr)).
Proof. intros H. unfold load_v. by destruct (Nat.leb_spec (off + n) (length arr)); [|lia]. Qed.

Lemma store_v_ok arr off v : (off + length v <= length arr)%nat -> store_v arr off v = Some (splice arr off v).
Proof. intros H. unfold store_v. by destruct (Nat.leb_spec (off + length v) (length arr)); [|lia]. Qed.

Lemma loop_app {S} n m i body (s : S) :
  loop (n + m) i body s = s' ← loop n i body s; loop m (i + n) body s'.
Proof.
  revert i s; induction n as [|n IH]; intros i s; cbn [loop Nat.add]; [by rewrite Nat.add_0_r|].
  destruct (body i s) as [s'|]; cbn; [|done]. rewrite IH. by rewrite Nat.add_succ_r.
Qed.

(** A loop whose body is defined along a sequence of states ends in the last of them. *)
Lemma loop_states {S} (f : nat -> S) n body s : s = f 0%nat ->
  (forall i, (i < n)%nat -> body i (f i) = Some (f (Datatypes.S i))) -> loop n 0 body s = Some (f n).
Proof.
  intros -> Hf. enough (H : forall m i, (i + m = n)%nat -> loop m i body (f i) = Some (f n)) by (apply H; lia).
  intros m. induction m as [|m IH]; intros i Hi; cbn [loop].
  - by replace i with n by lia.
  - rewrite Hf by lia. cbn. apply IH. lia.
Qed.

Lemma loop_invariant {S} (P : nat -> S -> Prop) n body s : P 0%nat s ->
  (forall i s, (i < n)%nat -> P i s -> exists s', body i s = Some s' /\ P (Datatypes.S i) s') ->
  exists s', loop n 0 body s = Some s' /\ P n s'.
Proof.
  intros H0 Hs. enough (H : forall m i s, (i + m = n)%nat -> P i s -> exists s', loop m i body s = Some s' /\ P n s')
    by (by apply H).
  clear s H0. intros m. induction m as [|m IH]; intros i s Hi Hp; cbn [loop].
  - replace n with i by lia. eauto.
  - destruct (Hs i s ltac:(lia) Hp) as (s' & -> & Hp'). apply IH; [lia|done].
Qed.

Lemma splice_nil arr off : splice arr off [] = arr.
Proof. unfold splice. cbn. rewrite Nat.add_0_r. apply take_drop. Qed.

Lemma length_splice arr off v : (off + length v <= length arr)%nat -> length (splice arr off v) = length arr.
Proof. intros H. unfold splice. rewrite !length_app, length_take, length_drop. lia. Qed.

Lemma splice_lookup arr off v i : (off + length v <= length arr)%nat ->
  splice arr off v !! i =
    if decide (off <= i < off + length v)%nat then v !! (i - off)%nat else arr !! i.
Proof.
  intros H. unfold splice. destruct (decide (i < off)%nat) as [Hi|Hi].
  - rewrite lookup_app_l by (rewrite length_take; lia). rewrite lookup_take_lt by done.
    by rewrite decide_False by lia.
  - rewrite lookup_app_r by (rewrite length_take; lia). rewrite length_take.
    replace (off `min` length arr)%nat with off by lia. case_decide.
    + by rewrite lookup_app_l by lia.
    + rewrite lookup_app_r by lia. rewrite lookup_drop. f_equal. lia.
Qed.

Lemma splice_splice arr off v v' : (off + length v + length v' <= length arr)%nat ->
  splice (splice arr off v) (off + length v) v' = splice arr off (v ++ v').
Proof.
  intros H. apply list_eq. intros i.
  rewrite !splice_lookup by (rewrite ?length_splice, ?length_app; lia). rewrite length_app.
  repeat case_decide; try lia; try done.
  - rewrite lookup_app_r by lia. f_equal. lia.
  - rewrite lookup_app_l by lia. done.
Qed.

(** Filling a block of an array entry by entry, in any order: [D] says which entries of the block [E] at
    [base] are there. *)
Definition written (arr : list Z) (base : nat) (E : list Z) (D : nat -> Prop) (arr' : list Z) : Prop :=
  length arr' = length arr /\
  (forall i, (i < base \/ base + length E <= i)%nat -> arr' !! i = arr !! i) /\
  (forall x, (x < length E)%nat -> D x -> arr' !! (base + x)%nat = E !! x).

Lemma written_none arr base E D : (forall x, ~ D x) -> written arr base E D arr.
Proof. intros H. split_and!; [done|done|]. intros x _ Hx. by destruct (H x). Qed.

Lemma written_mono arr base E (D D' : nat -> Prop) arr' : (forall x, (x < length E)%nat -> D' x -> D x) ->
  written arr base E D arr' -> written arr base E D' arr'.
Proof. intros H (H1 & H2 & H3). split_and!; auto. Qed.

Lemma written_all arr base E (D : nat -> Prop) arr' : (base + length E <= length arr)%nat ->
  (forall x, (x < length E)%nat -> D x) -> written arr base E D arr' -> arr' = splice arr base E.
Proof.
  intros Hb HD (H1 & H2 & H3). apply list_eq. intros i. rewrite splice_lookup by done.
  case_decide as Hi; [|apply H2; lia].
  replace i with (base + (i - base))%nat at 1 by lia. apply H3; [|apply HD]; lia.
Qed.

Lemma written_entry arr base E D arr' x v : (base + length E <= length arr)%nat -> E !! x = Some v ->
  written arr base E D arr' ->
  exists arr'', store_v arr' (base + x) [v] = Some arr'' /\ written arr base E (fun y => D y \/ y = x) arr''.
Proof.
  intros Hb Hx (H1 & H2 & H3). assert (Hl := lookup_lt_Some _ _ _ Hx).
  assert (Hr : (base + x + length [v] <= length arr')%nat) by (cbn [length]; lia).
  eexists. split; [by apply store_v_ok|]. split_and!.
  - by rewrite length_splice.
  - intros i Hi. rewrite splice_lookup by done. cbn [length]. rewrite decide_False by lia. by apply H2.
  - intros y Hy HD. rewrite splice_lookup by done. cbn [length]. case_decide as Hi.
    + assert (y = x) as -> by lia. by rewrite Nat.sub_diag, Hx.
    + destruct HD as [HD| ->]; [by apply H3|lia].
Qed.

Lemma splice_all arr v : length v = length arr -> splice arr 0 v = v.
Proof. intros H. unfold splice. cbn. rewrite H, drop_all. apply app_nil_r. Qed.

Lemma read_into_window V n arr off win : length win = (n * V)%nat -> (off + n * V <= length arr)%nat ->
  read_into V n arr off win = Some (splice arr off win).
Proof.
  intros Hw Ha. unfold read_into.
  rewrite (loop_states (fun i => (splice arr off (take (i * V) win), (i * V)%nat)) n).
  - cbn. rewrite take_ge by lia. done.
  - cbn. by rewrite take_0, splice_nil.
  - intros i Hi. assert (i * V + V <= n * V)%nat by nia.
    unfold window_readincr_v, load_v, store_v. rewrite Hw.
    destruct (Nat.leb_spec (i * V + V) (n * V)); [|lia]. cbn [mbind option_bind].
    assert (Hl : length (take (i * V) win) = (i * V)%nat) by (rewrite length_take; lia).
    assert (Hv : length (take V (drop (i * V) win)) = V) by (rewrite length_take, length_drop; lia).
    rewrite length_splice by lia. rewrite Hv.
    destruct (Nat.leb_spec (off + i * V + V) (length arr)); [|lia]. cbn [mbind option_bind].
    assert (Hs := splice_splice arr off (take (i * V) win) (take V (drop (i * V) win))).
    rewrite Hl, Hv in Hs. rewrite Hs by lia. rewrite take_take_drop. do 3 f_equal; [f_equal|]; lia.
Qed.

Lemma copy_window_id V n win : length win = (n * V)%nat -> copy_window V n win = Some win.
Proof.
  intros Hw. unfold copy_window.
  rewrite (loop_states (fun i => (take (i * V) win, (i * V)%nat)) n).
  - cbn. rewrite take_ge by lia. done.
  - done.
  - intros i Hi. assert (i * V + V <= n * V)%nat by nia.
    unfold window_readincr_v, load_v. rewrite Hw.
    destruct (Nat.leb_spec (i * V + V) (n * V)); [|lia]. cbn [mbind option_bind].
    rewrite take_take_drop. do 3 f_equal; lia.
Qed.

Lemma drain_into_all V n arr : length arr = (n * V)%nat ->
  drain_into V n arr = Some (replicate (n * V) 0, arr).
Proof.
  intros Ha. unfold drain_into.
  rewrite (loop_states (fun i => (splice arr 0 (replicate (i * V) 0), take (i * V) arr)) n).
  - rewrite take_ge by lia. by rewrite splice_all by (rewrite length_replicate; lia).
  - cbn. by rewrite splice_nil.
  - intros i Hi. assert (i * V + V <= n * V)%nat by nia.
    assert (Hl : length (splice arr 0 (replicate (i * V) 0)) = length arr).
    { apply length_splice. rewrite length_replicate. lia. }
    unfold load_v, store_v. rewrite Hl, length_replicate.
    destruct (Nat.leb_spec (i * V + V) (length arr)); [|lia]. cbn [mbind option_bind].
    assert (Hs := splice_splice arr 0 (replicate (i * V) 0) (replicate V 0)).
    rewrite !length_replicate, Nat.add_0_l in Hs. rewrite Hs by lia. rewrite <- replicate_add.
    assert (Hd : drop (i * V) (splice arr 0 (replicate (i * V) 0)) = drop (i * V) arr).
    { apply list_eq. intros j. rewrite !lookup_drop, splice_lookup by (rewrite length_replicate; lia).
      rewrite length_replicate. by rewrite decide_False by lia. }
    rewrite Hd, take_take_drop. do 3 f_equal; [f_equal|]; lia.
Qed.

(** A loop with a positive number of turns left takes one. *)
Lemma for_turn {S} n i body (s : S) k : (0 < n)%nat ->
  for_ n i body s k = body i s (fun s' => for_ (n - 1) (Datatypes.S i) body s' k).
Proof. destruct n as [|n]; [lia|]. intros _. cbn [for_]. by rewrite Nat.sub_succ, Nat.sub_0_r. Qed.

(** The connections of a row before it starts: all buffers empty, at least one for each connection. *)
Fixpoint idle_buffers (cap : chan -> nat) (n : nat) : gmap chan buffers :=
  <[(Data, n) := mkBuf [] (S (cap (Data, n)))]> (<[(Result, n) := mkBuf [] (S (cap (Result, n)))]>
    match n with O => ∅ | S n' => idle_buffers cap n' end).

Lemma idle_buffers_lookup cap n s i : (i <= n)%nat ->
  idle_buffers cap n !! (s, i) = Some (mkBuf [] (S (cap (s, i)))).
Proof.
  induction n as [|n IH]; intros Hi; cbn [idle_buffers].
  - assert (i = 0%nat) as -> by lia. destruct s; [by rewrite lookup_insert_eq|].
    by rewrite lookup_insert_ne, lookup_insert_eq by done.
  - destruct (decide (i = S n)) as [->|Hne].
    + destruct s; [by rewrite lookup_insert_eq|]. by rewrite lookup_insert_ne, lookup_insert_eq by done.
    + rewrite !lookup_insert_ne by congruence. apply IH. lia.
Qed.

(** * The common shape of the kernels *)

Section Core.
Context {S : Type} (NA NN NW NB size : nat).
Context (load_window : nat -> list Z -> S -> option S).
Context (stage_window : nat -> nat -> list Z -> S -> option (S * list Z)).
Context (stage_last : nat -> nat -> list Z -> S -> option S).
Context (copy_data copy_result : list Z -> option (list Z)).
Context (compute : nat -> S -> option S) (ready : nat -> S -> bool) (drain : S -> option (S * list Z)).

(** Taking a window of the core's own stripe, ... *)
Definition load_body (dataIn : chan) (i : nat) (st : S) (k : S -> proc) : proc :=
  AcqIn dataIn (fun w => opt (load_window i w st) (fun st' => RelIn dataIn (k st'))).

(** ... passing on a window, ... *)
Definition pass_body (copy : list Z -> option (list Z)) (from to : chan) (_ : nat) (st : S)
    (k : S -> proc) : proc :=
  AcqOut to (AcqIn from (fun w =>
    opt (copy w) (fun o => RelIn from (window_release size to o (k st))))).

(** ... taking a window of a block, which all cores but the last also pass on. *)
Definition stage_body (more : bool) (dataIn dataOut : chan) (nn w : nat) (st : S) (k : S -> proc) : proc :=
  if more then
    AcqOut dataOut (AcqIn dataIn (fun win =>
      opt (stage_window nn w win st) (fun '(st', o) => RelIn dataIn (window_release size dataOut o (k st')))))
  else AcqIn dataIn (fun win => opt (stage_last nn w win st) (fun st' => RelIn dataIn (k st'))).

(** After the windows of a block: the arithmetic, and where the results fill a window the results of
    the [by_] cores before this one and its own. *)
Definition own_body (result : chan) (st : S) (k : S -> proc) : proc :=
  AcqOut result (opt (drain st) (fun '(st', o) => window_release size result o (k st'))).

Definition finish_block (by_ : nat) (bypass result : chan) (g : nat) (st : S) (k : S -> proc) : proc :=
  opt (compute g st) (fun st' =>
    if ready g st' then for_ by_ 0 (pass_body copy_result bypass result) st' (fun st'' => own_body result st'' k)
    else k st').

Definition block_body (more : bool) (by_ : nat) (dataIn bypass dataOut result : chan) (g : nat) (st : S)
    (k : S -> proc) : proc :=
  for_ NN 0 (fun nn st k => for_ NW 0 (stage_body more dataIn dataOut nn) st k) st
    (fun st' => finish_block by_ bypass result g st' k).

Definition core (more : bool) (F by_ : nat) (dataIn bypass dataOut result : chan) (st : S)
    (k : S -> proc) : proc :=
  for_ NA 0 (load_body dataIn) st (fun st =>
  for_ F 0 (pass_body copy_data dataIn dataOut) st (fun st =>
  for_ NB 0 (block_body more by_ dataIn bypass dataOut result) st k)).

(** * One call of a row of kernels *)

Section Call.
Context (n : nat) (cs0 : gmap chan buffers) (cap : chan -> nat).
Hypothesis idle : forall s i, (i <= n)%nat -> cs0 !! (s, i) = Some (mkBuf [] (Datatypes.S (cap (s, i)))).
Hypotheses (n_pos : (0 < n)%nat) (NN_pos : (0 < NN)%nat) (NW_pos : (0 < NW)%nat).

(** Core [c] of the row, at its place in the chain. *)
Definition row_core (c : nat) (st : S) (k : S -> proc) : proc :=
  core (bool_decide (Datatypes.S c < n)%nat) (NA * (n - 1 - c)) c (Data, c) (Result, c)
    (Data, Datatypes.S c) (Result, Datatypes.S c) st k.

(** The windows of the call and the arrays of the cores: [sA c x] after [x] windows of the stripe of
    core [c], [sB c g x] after [x] windows of block [g], [sC c g] after the arithmetic of the block. *)
Context (flush_at : nat -> bool) (A B own : nat -> nat -> list Z).
Context (sA : nat -> nat -> S) (sB : nat -> nat -> nat -> S) (sC : nat -> nat -> S).
Hypothesis window_A : forall t x, (t < n)%nat -> (x < NA)%nat ->
  length (A t x) = size /\ copy_data (A t x) = Some (A t x).
Hypothesis window_B : forall g x, (g < NB)%nat -> (x < NN * NW)%nat -> length (B g x) = size.
Hypothesis window_own : forall c g, (c < n)%nat -> (g < NB)%nat -> flush_at g = true ->
  length (own c g) = size /\ copy_result (own c g) = Some (own c g).
Hypothesis loads : forall c x, (c < n)%nat -> (x < NA)%nat ->
  load_window x (A c x) (sA c x) = Some (sA c (Datatypes.S x)).
Hypothesis loaded : forall c, (c < n)%nat -> sA c NA = sB c 0 0.
Hypothesis stages : forall c g nn w, (c < n)%nat -> (g < NB)%nat -> (nn < NN)%nat -> (w < NW)%nat ->
  let x := (nn * NW + w)%nat in
  stage_window nn w (B g x) (sB c g x) = Some (sB c g (Datatypes.S x), B g x) /\
  stage_last nn w (B g x) (sB c g x) = Some (sB c g (Datatypes.S x)).
Hypothesis computes : forall c g, (c < n)%nat -> (g < NB)%nat ->
  compute g (sB c g (NN * NW)) = Some (sC c g) /\ ready g (sC c g) = flush_at g.
Hypothesis drains : forall c g, (c < n)%nat -> (g < NB)%nat ->
  if flush_at g then drain (sC c g) = Some (sB c (Datatypes.S g) 0, own c g)
  else sB c (Datatypes.S g) 0 = sC c g.

Context (fin : nat -> S -> proc).

(** The rest of the kernel of core [c] at the points between two windows. *)
Definition rest_blocks (c d g : nat) (st : S) : proc :=
  for_ d g (block_body (bool_decide (Datatypes.S c < n)%nat) c (Data, c) (Result, c) (Data, Datatypes.S c)
              (Result, Datatypes.S c)) st (fin c).

Definition rest_finish (c g : nat) (st : S) : proc :=
  finish_block c (Result, c) (Result, Datatypes.S c) g st (fun st' => rest_blocks c (NB - Datatypes.S g) (Datatypes.S g) st').

Definition rest_windows (c g x : nat) (st : S) : proc :=
  let stage := stage_body (bool_decide (Datatypes.S c < n)%nat) (Data, c) (Data, Datatypes.S c) in
  if (x <? NN * NW)%nat then
    for_ (NW - x mod NW) (x mod NW) (stage (x / NW)%nat) st (fun st' =>
      for_ (NN - Datatypes.S (x / NW)) (Datatypes.S (x / NW)) (fun nn st k => for_ NW 0 (stage nn) st k) st' (rest_finish c g))
  else rest_finish c g st.

Definition p_load (c x : nat) : proc :=
  for_ (NA - x) x (load_body (Data, c)) (sA c x) (fun st =>
  for_ (NA * (n - 1 - c)) 0 (pass_body copy_data (Data, c) (Data, Datatypes.S c)) st
    (fun st' => rest_blocks c NB 0 st')).

Definition p_fwd (c x : nat) : proc :=
  for_ (NA * (n - 1 - c) - x) x (pass_body copy_data (Data, c) (Data, Datatypes.S c)) (sA c NA)
    (fun st => rest_blocks c NB 0 st).

Definition p_blk (c g x : nat) : proc :=
  if (g <? NB)%nat then rest_windows c g x (sB c g x) else fin c (sB c g 0).

Definition p_flush (c g s : nat) : proc :=
  for_ (c - s) s (pass_body copy_result (Result, c) (Result, Datatypes.S c)) (sC c g) (fun st =>
    own_body (Result, Datatypes.S c) st (fun st' => rest_blocks c (NB - Datatypes.S g) (Datatypes.S g) st')).

Lemma rest_blocks_blk c g : (g <= NB)%nat -> rest_blocks c (NB - g) g (sB c g 0) = p_blk c g 0.
Proof.
  intros Hg. unfold p_blk, rest_blocks. destruct (Nat.ltb_spec g NB) as [Hlt|Hge].
  - rewrite for_turn by lia. unfold block_body at 1. rewrite for_turn by lia.
    unfold rest_windows. destruct (Nat.ltb_spec 0 (NN * NW)); [|nia].
    rewrite Nat.Div0.mod_0_l, Nat.Div0.div_0_l, Nat.sub_0_r. unfold rest_finish, rest_blocks.
    by replace (NB - g - 1)%nat with (NB - Datatypes.S g)%nat by lia.
  - by replace (NB - g)%nat with 0%nat by lia.
Qed.

Lemma release_ok c w k : length w = size -> window_release size c w k = RelOut c w k.
Proof. intros <-. unfold window_release. by rewrite Nat.eqb_refl. Qed.

Lemma pass_forwards copy s c m i (st : S) k w : length w = size -> copy w = Some w -> (0 < m)%nat ->
  forwards s c (for_ m i (pass_body copy (s, c) (s, Datatypes.S c)) st k) w
    (for_ (m - 1) (Datatypes.S i) (pass_body copy (s, c) (s, Datatypes.S c)) st k).
Proof.
  intros Hw Hc Hm. rewrite for_turn by done. eexists. split; [reflexivity|]. cbn beta. rewrite Hc.
  cbn [opt]. by rewrite release_ok.
Qed.

(** The next window of a block, in the two nested loops. *)
Lemma rest_windows_next c g x : (x < NN * NW)%nat -> exists k,
  rest_windows c g x (sB c g x)
    = stage_body (bool_decide (Datatypes.S c < n)%nat) (Data, c) (Data, Datatypes.S c) (x / NW) (x mod NW) (sB c g x) k /\
  forall st, k st = rest_windows c g (Datatypes.S x) st.
Proof.
  intros Hx. assert (Hm : (x mod NW < NW)%nat) by (apply Nat.mod_upper_bound; lia).
  assert (Hd : x = (NW * (x / NW) + x mod NW)%nat) by (apply Nat.div_mod; lia).
  assert (Hq : (x / NW < NN)%nat) by (apply Nat.Div0.div_lt_upper_bound; lia).
  unfold rest_windows at 1. destruct (Nat.ltb_spec x (NN * NW)); [|lia]. rewrite for_turn by lia.
  eexists. split; [reflexivity|]. intros st. cbn beta. unfold rest_windows.
  destruct (decide (Datatypes.S (x mod NW) = NW)) as [He|He].
  - replace (NW - x mod NW - 1)%nat with 0%nat by lia. cbn [for_].
    assert (Hsx : Datatypes.S x = (Datatypes.S (x / NW) * NW)%nat) by lia.
    destruct (decide (Datatypes.S (x / NW) = NN)) as [Hn|Hn].
    + destruct (Nat.ltb_spec (Datatypes.S x) (NN * NW)); [nia|].
      by replace (NN - Datatypes.S (x / NW))%nat with 0%nat by lia.
    + destruct (Nat.ltb_spec (Datatypes.S x) (NN * NW)); [|nia].
      rewrite (for_turn (NN - Datatypes.S (x / NW))) by lia. rewrite Hsx.
      rewrite Nat.Div0.mod_mul, Nat.div_mul by lia. rewrite Nat.sub_0_r.
      by replace (NN - Datatypes.S (x / NW) - 1)%nat with (NN - Datatypes.S (Datatypes.S (x / NW)))%nat by lia.
  - assert (Hdiv : (Datatypes.S x / NW = x / NW)%nat).
    { symmetry. apply (Nat.div_unique _ _ _ (Datatypes.S (x mod NW))); lia. }
    assert (Hmod : (Datatypes.S x mod NW = Datatypes.S (x mod NW))%nat).
    { symmetry. apply (Nat.mod_unique _ _ (x / NW)); lia. }
    destruct (Nat.ltb_spec (Datatypes.S x) (NN * NW)); [|nia]. rewrite Hdiv, Hmod.
    by replace (NW - x mod NW - 1)%nat with (NW - Datatypes.S (x mod NW))%nat by lia.
Qed.

Lemma blk_next c g x : (c < n)%nat -> (g < NB)%nat -> (x < NN * NW)%nat ->
  (if bool_decide (Datatypes.S c < n)%nat then forwards Data c (p_blk c g x) (B g x) (p_blk c g (Datatypes.S x))
   else absorbs Data c (p_blk c g x) (B g x) (p_blk c g (Datatypes.S x))).
Proof.
  intros Hc Hg Hx. unfold p_blk. destruct (Nat.ltb_spec g NB); [|lia].
  assert (Hd : x = (x / NW * NW + x mod NW)%nat) by (rewrite Nat.mul_comm; apply Nat.div_mod; lia).
  destruct (stages c g (x / NW) (x mod NW)) as [H1 H2];
    [done|done|apply Nat.Div0.div_lt_upper_bound; lia|apply Nat.mod_upper_bound; lia|].
  rewrite <- Hd in H1, H2. destruct (rest_windows_next c g x Hx) as (k & -> & Hk).
  unfold stage_body. destruct (bool_decide (Datatypes.S c < n)%nat).
  - eexists. split; [reflexivity|]. cbn beta. rewrite H1. cbn [opt].
    rewrite release_ok by (by apply window_B). by rewrite Hk.
  - eexists. split; [reflexivity|]. cbn beta. rewrite H2. cbn [opt]. by rewrite Hk.
Qed.

Lemma blk_end c g : (c < n)%nat -> (g < NB)%nat ->
  p_blk c g (NN * NW) = if flush_at g then p_flush c g 0 else p_blk c (Datatypes.S g) 0.
Proof.
  intros Hc Hg. rewrite <- rest_blocks_blk by lia. unfold p_blk, rest_windows, p_flush.
  destruct (Nat.ltb_spec g NB); [|lia]. rewrite Nat.ltb_irrefl. unfold rest_finish, finish_block.
  destruct (computes c g) as [-> Hr]; [done|done|]. cbn [opt]. rewrite Hr.
  specialize (drains c g Hc Hg). destruct (flush_at g); [by rewrite Nat.sub_0_r|]. by rewrite drains.
Qed.

(** One call of the row: the operands in, the results out, the arrays as the call leaves them. *)
Lemma call_runs rest k m acc :
  let outs := results n flush_at own NB in
  reach (net n (fun c => if decide (n <= c)%nat then collect n (length outs + m) acc
                         else row_core c (sA c 0) (fin c))
          (send (stripes n NA A ++ blocks (NN * NW) NB B ++ rest) k), cs0)
        (net n (fun c => if decide (n <= c)%nat then collect n m (acc ++ outs) else fin c (sB c NB 0))
          (send rest k), cs0).
Proof.
  intros outs.
  assert (H := chain_runs n cs0 cap idle NA (NN * NW) NB flush_at A B own p_load p_fwd p_blk p_flush n_pos).
  eassert (H' := H _ _ _ _ _ _ _ _ _ rest k m acc). clear H. revert H'.
  rewrite (net_ext n (at_stripe _ _ _ _ _ _ _) (fun c => if decide (n <= c)%nat then collect n (length outs + m) acc
                         else row_core c (sA c 0) (fin c))).
  2: { intros c Hc. unfold at_stripe, p_load. repeat (case_decide; try lia); try done;
       rewrite Nat.sub_0_r; reflexivity. }
  rewrite (net_ext n (at_block _ _ _ _ _)
    (fun c => if decide (n <= c)%nat then collect n m (acc ++ outs) else fin c (sB c NB 0))).
  2: { intros c Hc. unfold at_block, p_blk. case_decide; [done|]. by rewrite Nat.ltb_irrefl. }
  done.
  Unshelve.
  - intros c x Hc Hx. unfold p_load. rewrite for_turn by lia. eexists. split; [reflexivity|]. cbn beta.
    rewrite loads by done. cbn [opt]. by replace (NA - x - 1)%nat with (NA - Datatypes.S x)%nat by lia.
  - intros c Hc. unfold p_load, p_fwd. by rewrite Nat.sub_diag, Nat.sub_0_r.
  - intros c t x Ht Hx. unfold p_fwd. destruct (window_A t x) as [H1 H2]; [lia|done|].
    assert (NA * (t - 1 - c) + x < NA * (n - 1 - c))%nat by nia.
    replace (NA * (n - 1 - c) - Datatypes.S (NA * (t - 1 - c) + x))%nat
      with (NA * (n - 1 - c) - (NA * (t - 1 - c) + x) - 1)%nat by lia.
    apply pass_forwards; [done|done|lia].
  - intros c Hc. unfold p_fwd. rewrite Nat.sub_diag. cbn [for_]. rewrite loaded by done.
    rewrite <- (Nat.sub_0_r NB) at 1. apply rest_blocks_blk. lia.
  - intros c g x Hc Hg Hx. assert (Hb := blk_next c g x). rewrite bool_decide_true in Hb by done. apply Hb; lia.
  - intros c g x Hc Hg Hx. assert (Hb := blk_next c g x). rewrite bool_decide_false in Hb by lia. apply Hb; lia.
  - intros c g Hc Hg. by apply blk_end.
  - intros c g s Hs Hg Hfl. unfold p_flush. destruct (window_own s g) as [H1 H2]; [lia|done|done|].
    replace (c - Datatypes.S s)%nat with (c - s - 1)%nat by lia. apply pass_forwards; [done|done|lia].
  - intros c g Hc Hg Hfl. unfold p_flush. rewrite Nat.sub_diag. cbn [for_]. unfold emits, own_body.
    assert (Hd := drains c g Hc Hg). rewrite Hfl in Hd. rewrite Hd. cbn [opt].
    rewrite release_ok by (by apply window_own). by rewrite rest_blocks_blk by lia.
Qed.
End Call.

(** * Any number of calls, in any interleaving *)

(** The ends of the connections of a row of [n] cores. *)
Definition row_producer (n : nat) (c : chan) : nat :=
  match c with (_, O) => Datatypes.S n | (_, Datatypes.S i) => i end.
Definition row_consumer (c : chan) : nat := c.2.

Lemma for_wired {T} prod cons i0 m i (body : nat -> T -> (T -> proc) -> proc) st k :
  (forall i st k, (forall st', wired_proc prod cons i0 (k st')) -> wired_proc prod cons i0 (body i st k)) ->
  (forall st', wired_proc prod cons i0 (k st')) -> wired_proc prod cons i0 (for_ m i body st k).
Proof. intros Hb Hk. revert i st. induction m as [|m IH]; intros i st; cbn [for_]; auto. Qed.

Lemma opt_wired {T} prod cons i0 (x : option T) k :
  (forall st, wired_proc prod cons i0 (k st)) -> wired_proc prod cons i0 (opt x k).
Proof. intros H. by destruct x; cbn. Qed.

Lemma release_wired prod cons i0 c w k : prod c = i0 -> wired_proc prod cons i0 k ->
  wired_proc prod cons i0 (window_release size c w k).
Proof. intros. unfold window_release. by case_match. Qed.

Lemma pass_wired n i0 copy s i st k : (forall st', wired_proc (row_producer n) row_consumer i0 (k st')) ->
  wired_proc (row_producer n) row_consumer i0 (pass_body copy (s, i0) (s, Datatypes.S i0) i st k).
Proof.
  intros Hk. unfold pass_body. cbn. split; [done|]. split; [done|]. intros w. apply opt_wired. intros o.
  cbn. split; [done|]. by apply release_wired.
Qed.

Lemma core_wired n i0 more F by_ st k : (forall st', wired_proc (row_producer n) row_consumer i0 (k st')) ->
  wired_proc (row_producer n) row_consumer i0
    (core more F by_ (Data, i0) (Result, i0) (Data, Datatypes.S i0) (Result, Datatypes.S i0) st k).
Proof.
  intros Hk. unfold core. apply for_wired; [|intros st1; apply for_wired; [|intros st2; apply for_wired; [|done]]].
  - clear -Hk. intros i st' k' Hk'. unfold load_body. cbn. split; [done|]. intros w. apply opt_wired.
    intros st''. by cbn.
  - intros i st' k' Hk'. by apply pass_wired.
  - clear k Hk. intros g st' k Hk. unfold block_body. apply for_wired.
    + intros nn s1 k1 Hk1. apply for_wired; [|done]. intros w s2 k2 Hk2. unfold stage_body.
      destruct more; cbn.
      * split; [done|]. split; [done|]. intros win. apply opt_wired. intros [s3 o]. cbn. split; [done|].
        by apply release_wired.
      * split; [done|]. intros win. apply opt_wired. intros s3. by cbn.
    + intros s1. unfold finish_block. apply opt_wired. intros s2. destruct (ready g s2); [|done].
      apply for_wired; [intros; by apply pass_wired|]. intros s3. unfold own_body. cbn. split; [done|].
      apply opt_wired. intros [s4 o]. by apply release_wired.
Qed.

(** A core calls its kernel once per iteration of the graph. *)
Definition calls (kernel : S -> (S -> proc) -> proc) (m : nat) (st : S) : proc :=
  for_ m 0 (fun _ => kernel) st (fun _ => Done []).

Lemma send_wired n ws k : wired_proc (row_producer n) row_consumer (Datatypes.S n) k ->
  wired_proc (row_producer n) row_consumer (Datatypes.S n) (send ws k).
Proof. intros Hk. induction ws; by cbn. Qed.

Lemma collect_wired n m acc : wired_proc (row_producer n) row_consumer n (collect n m acc).
Proof. revert acc. induction m as [|m IH]; intros acc; cbn; auto. Qed.

Section Calls.
Context (n : nat) (cs0 : gmap chan buffers) (kernel : nat -> S -> (S -> proc) -> proc).
Context (T : nat) (ops outs : nat -> list (list Z)) (state : nat -> nat -> S).

(** The row at the start, with all operands to send and [count] windows to collect, and at the end. *)
Definition row_start (count : nat) (st0 : nat -> S) : network :=
  (net n (fun c => if decide (n <= c)%nat then collect n count [] else calls (kernel c) T (st0 c))
     (send (flat_map ops (seq 0 T)) (Done [])), cs0).

Definition row_end : network :=
  (net n (fun c => if decide (n <= c)%nat then Done (flat_map outs (seq 0 T)) else Done []) (Done []), cs0).

Hypothesis call : forall t fin rest k m acc, (t < T)%nat ->
  reach (net n (fun c => if decide (n <= c)%nat then collect n (length (outs t) + m) acc
                         else kernel c (state t c) (fin c)) (send (ops t ++ rest) k), cs0)
        (net n (fun c => if decide (n <= c)%nat then collect n m (acc ++ outs t)
                         else fin c (state (Datatypes.S t) c)) (send rest k), cs0).
Hypothesis kernel_wired : forall c st k, (c < n)%nat ->
  (forall st', wired_proc (row_producer n) row_consumer c (k st')) ->
  wired_proc (row_producer n) row_consumer c (kernel c st k).

Lemma calls_run_from t d acc : (t + d = T)%nat ->
  reach (net n (fun c => if decide (n <= c)%nat then collect n (length (flat_map outs (seq t d))) acc
                   else for_ d t (fun _ => kernel c) (state t c) (fun _ => Done []))
          (send (flat_map ops (seq t d)) (Done [])), cs0)
        (net n (fun c => if decide (n <= c)%nat then Done (acc ++ flat_map outs (seq t d)) else Done []) (Done []), cs0).
Proof.
  revert t acc. induction d as [|d IH]; intros t acc Ht; cbn [seq flat_map].
  - rewrite app_nil_r. apply reach_refl.
  - rewrite length_app. eapply reach_trans.
    + apply (call t (fun c st => for_ d (Datatypes.S t) (fun _ => kernel c) st (fun _ => Done []))). lia.
    + rewrite app_assoc. apply IH. lia.
Qed.

Lemma row_wired count st0 : wired (row_producer n) row_consumer (row_start count st0).
Proof.
  intros i p Hp. unfold row_start in Hp. cbn [fst] in Hp.
  destruct (decide (i <= n)%nat) as [Hi|Hi].
  - rewrite net_lookup in Hp by done. simplify_eq. case_decide.
    + assert (i = n) as -> by lia. apply collect_wired.
    + unfold calls. apply for_wired; [|done]. intros _ st k Hk. apply kernel_wired; [lia|done].
  - apply lookup_lt_Some in Hp as Hlt. unfold net in Hlt. rewrite length_app, length_map, length_seq in Hlt.
    cbn in Hlt. assert (i = Datatypes.S n) as -> by lia. rewrite net_source in Hp. simplify_eq.
    by apply send_wired.
Qed.

Lemma row_end_halted : halted row_end.
Proof.
  intros i. unfold fire, row_end. cbn [fst snd].
  destruct (net n _ (Done []) !! i) as [p|] eqn:Hp; [|done]. cbn [mbind option_bind].
  destruct (decide (i <= n)%nat) as [Hi|Hi].
  - rewrite net_lookup in Hp by done. simplify_eq. by case_decide.
  - apply lookup_lt_Some in Hp as Hlt. unfold net in Hlt. rewrite length_app, length_map, length_seq in Hlt.
    cbn in Hlt. assert (i = Datatypes.S n) as -> by lia. rewrite net_source in Hp. by simplify_eq.
Qed.

(** Whatever the interleaving of the cores, the row never stops before its end, and there the
    collector holds the results of all calls. *)
Lemma calls_run : exists total, forall l s,
  play l (row_start (length (flat_map outs (seq 0 T))) (state 0)) = Some s ->
  (length l <= total)%nat /\ (exists rest, play rest s = Some row_end) /\ (halted s -> s = row_end).
Proof.
  destruct (calls_run_from 0 T [] eq_refl) as [l0 H0]. exists (length l0). intros l s Hl.
  assert (Hf := row_end_halted). assert (Hw := row_wired (length (flat_map outs (seq 0 T))) (state 0)).
  destruct (every_schedule _ _ l0 l _ row_end s Hw H0 Hf Hl) as (rest & Hr & Hlen).
  split; [lia|]. split; [by exists rest|].
  by destruct (every_end _ _ l0 l _ row_end s Hw H0 Hf Hl) as [_ He].
Qed.
End Calls.
End Core.
