(* ===== verification/Tiles.v ===== *)
(** Lists cut into equal pieces, and sums over them.

    The operands of the matrix multiplication examples travel as windows of equal length, and the
    results of a core are gathered in a window from the pieces of several blocks.  This file has the
    facts about such lists that the two examples share. *)
From stdpp Require Import base list.
From Stdlib Require Import ZArith Lia.
From S2P Require Import Prelude Core.
Local Open Scope Z_scope.

(** * Pieces of equal length *)

(** The [i]-th piece of length [size]. *)
Definition piece (size : nat) (l : list Z) (i : nat) : list Z := take size (drop (i * size) l).

Definition pieces (size m : nat) (l : list Z) : list (list Z) := map (piece size l) (seq 0 m).

Lemma length_piece size l i : ((i + 1) * size <= length l)%nat -> length (piece size l i) = size.
Proof. intros H. unfold piece. rewrite length_take, length_drop. nia. Qed.

Lemma piece_lookup size l i j : (j < size)%nat -> piece size l i !! j = l !! (i * size + j)%nat.
Proof. intros H. unfold piece. by rewrite lookup_take_lt, lookup_drop by done. Qed.

Lemma piece_piece s s' m l i j : (s = m * s')%nat -> (j < m)%nat ->
  piece s' (piece s l i) j = piece s' l (i * m + j).
Proof.
  intros -> Hj. unfold piece. apply list_eq. intros x.
  destruct (decide (x < s')%nat) as [Hx|Hx].
  - rewrite !lookup_take_lt, !lookup_drop, lookup_take_lt, lookup_drop by nia. f_equal. nia.
  - rewrite !lookup_take_ge by lia. done.
Qed.

(** Consecutive pieces are the list they were cut from. *)
Lemma concat_pieces size l i m :
  concat (map (piece size l) (seq i m)) = take (m * size) (drop (i * size) l).
Proof.
  revert i; induction m as [|m IH]; intros i; cbn [seq map concat Nat.mul]; [done|].
  rewrite IH. unfold piece. replace (Datatypes.S i * size)%nat with (i * size + size)%nat by lia.
  rewrite <- drop_drop. apply take_take_drop.
Qed.

Lemma pieces_flat size m m' l :
  flat_map (fun c => map (fun x => piece size l (c * m' + x)) (seq 0 m')) (seq 0 m) = pieces size (m * m') l.
Proof.
  enough (H : forall c, flat_map (fun c => map (fun x => piece size l (c * m' + x)) (seq 0 m')) (seq c m)
    = map (piece size l) (seq (c * m') (m * m'))) by (apply (H 0%nat)).
  induction m as [|m IH]; intros c; cbn [seq flat_map Nat.mul]; [done|].
  rewrite IH, seq_app, map_app. f_equal; [|f_equal; f_equal; lia].
  rewrite <- (map_map (fun x => (c * m' + x)%nat) (piece size l)).
  f_equal. replace (seq (c * m') m') with (seq (c * m' + 0) m') by (f_equal; lia).
  clear. generalize (c * m')%nat 0%nat. induction m' as [|m' IH]; intros a b; [done|].
  cbn. f_equal. rewrite (IH a (Datatypes.S b)). f_equal. lia.
Qed.

(** A list built from pieces of equal length, by position. *)
Lemma concat_lookup (F : nat -> list Z) L m i j : (forall i, (i < m)%nat -> length (F i) = L) ->
  (i < m)%nat -> (j < L)%nat -> concat (map F (seq 0 m)) !! (i * L + j)%nat = F i !! j.
Proof.
  intros HF. enough (H : forall a d, (forall i, (a <= i < a + d)%nat -> length (F i) = L) -> (i < d)%nat ->
    (j < L)%nat -> concat (map F (seq a d)) !! (i * L + j)%nat = F (a + i)%nat !! j).
  { intros Hi Hj. apply (H 0%nat m); [|done|done]. intros. apply HF. lia. }
  clear HF. induction i as [|i IH]; intros a [|d] HL Hi Hj; try lia; cbn [seq map concat].
  - rewrite lookup_app_l by (rewrite HL; lia). by rewrite Nat.add_0_r.
  - rewrite lookup_app_r by (rewrite HL; nia). rewrite HL by lia.
    replace (Datatypes.S i * L + j - L)%nat with (i * L + j)%nat by lia.
    rewrite IH; [f_equal; f_equal; lia|intros; apply HL; lia|lia|lia].
Qed.

Lemma length_concat_const (F : nat -> list Z) L a m : (forall i, length (F i) = L) ->
  length (concat (map F (seq a m))) = (m * L)%nat.
Proof.
  intros HF. revert a. induction m as [|m IH]; intros a; cbn [seq map concat]; [done|].
  rewrite length_app, HF, IH. lia.
Qed.

(** * Sums *)

Definition zsum (l : list Z) : Z := foldr Z.add 0 l.

Lemma zsum_app l l' : zsum (l ++ l') = zsum l + zsum l'.
Proof. induction l as [|x l IH]; cbn; [done|]. unfold zsum in IH. rewrite IH. apply Z.add_assoc. Qed.

Lemma zsum_bound l lo hi : Forall (fun x => lo <= x <= hi) l ->
  lo * Z.of_nat (length l) <= zsum l <= hi * Z.of_nat (length l).
Proof. induction 1 as [|x l Hx _ IH]; unfold zsum in *; cbn [foldr length]; lia. Qed.

Lemma take_zip_with {X Y W} (f : X -> Y -> W) n l k : take n (zip_with f l k) = zip_with f (take n l) (take n k).
Proof. revert l k; induction n as [|n IH]; intros [|x l] [|y k]; cbn; try done; by rewrite ?IH, ?take_nil. Qed.

Lemma drop_zip_with {X Y W} (f : X -> Y -> W) n l k : drop n (zip_with f l k) = zip_with f (drop n l) (drop n k).
Proof.
  revert l k; induction n as [|n IH]; intros [|x l] [|y k]; cbn; try done.
  by rewrite zip_with_nil_r.
Qed.

(** * A window gathered from pieces

    A core gathers the pieces [E g] of the blocks, [G] to a window, and starts over with a cleared
    window. *)
Section Gather.
Context (G BL : nat).
Hypothesis G_pos : (0 < G)%nat.

Definition window_full (g : nat) : bool := (Datatypes.S g mod G =? 0)%nat.

Lemma mod_room g : (g mod G * BL + BL <= G * BL)%nat.
Proof. assert (g mod G < G)%nat by (apply Nat.mod_upper_bound; lia). nia. Qed.

Lemma window_full_spec g : window_full g = true <-> (g mod G = G - 1)%nat.
Proof.
  unfold window_full. rewrite Nat.eqb_eq. assert (Hm := Nat.mod_upper_bound g G ltac:(lia)).
  assert (Hd := Nat.div_mod_eq g G). split; intros H.
  - assert (Hd' := Nat.div_mod_eq (Datatypes.S g) G). rewrite H in Hd'.
    assert (Datatypes.S g / G = Datatypes.S (g / G))%nat as Hq by nia. rewrite Hq in Hd'. nia.
  - symmetry. apply (Nat.mod_unique _ _ (Datatypes.S (g / G))); nia.
Qed.

Lemma not_full_next g : window_full g = false -> (Datatypes.S g mod G = Datatypes.S (g mod G))%nat.
Proof.
  intros H. assert (Hn : (g mod G <> G - 1)%nat) by (intros He%window_full_spec; congruence).
  assert (Hm := Nat.mod_upper_bound g G ltac:(lia)). assert (Hd := Nat.div_mod_eq g G).
  symmetry. apply (Nat.mod_unique _ _ (g / G)); lia.
Qed.

Context (E : nat -> list Z).
Hypothesis piece_length : forall g, length (E g) = BL.

Definition put (arr : list Z) (g : nat) : list Z := splice arr (g mod G * BL) (E g).

Lemma length_put arr g : length arr = (G * BL)%nat -> length (put arr g) = (G * BL)%nat.
Proof.
  intros H. unfold put. assert (Hr := mod_room g). rewrite length_splice; [done|]. rewrite piece_length. lia.
Qed.

Context (start : list Z).
Hypothesis start_length : length start = (G * BL)%nat.

(** The window before block [g], and with the piece of block [g]. *)
Fixpoint gathered (g : nat) : list Z :=
  match g with
  | O => start
  | Datatypes.S g' => if window_full g' then replicate (G * BL) 0 else put (gathered g') g'
  end.

Lemma length_gathered g : length (gathered g) = (G * BL)%nat.
Proof.
  induction g as [|g IH]; cbn [gathered]; [done|]. destruct (window_full g); [apply length_replicate|].
  by apply length_put.
Qed.

Lemma gathered_prefix g :
  take (g mod G * BL) (gathered g) = concat (map E (seq (g - g mod G) (g mod G))).
Proof.
  induction g as [|g IH]; [by rewrite Nat.Div0.mod_0_l|]. cbn [gathered].
  destruct (window_full g) eqn:Hf.
  - unfold window_full in Hf. apply Nat.eqb_eq in Hf. by rewrite Hf.
  - rewrite not_full_next by done. assert (Hm := Nat.Div0.mod_le g G).
    replace (Datatypes.S g - Datatypes.S (g mod G))%nat with (g - g mod G)%nat by lia.
    rewrite seq_S, map_app, concat_app, <- IH. cbn [map concat]. rewrite app_nil_r.
    replace (g - g mod G + g mod G)%nat with g by lia.
    assert (Hr := mod_room g). assert (Hl := length_gathered g). unfold put, splice.
    rewrite app_assoc, take_app_le.
    + apply take_ge. rewrite length_app, length_take, piece_length. lia.
    + rewrite length_app, length_take, piece_length. lia.
Qed.

(** When the window is full it holds the pieces of the last [G] blocks. *)
Lemma put_full g : window_full g = true ->
  put (gathered g) g = concat (map E (seq (g - g mod G) G)).
Proof.
  intros Hf%window_full_spec. assert (Hm := Nat.Div0.mod_le g G).
  assert (Hr := mod_room g). assert (Hl := length_gathered g).
  assert (Hs := seq_S (g mod G) (g - g mod G)).
  replace (g - g mod G + g mod G)%nat with g in Hs by lia.
  replace (Datatypes.S (g mod G)) with G in Hs by lia. rewrite Hs.
  rewrite map_app, concat_app, <- gathered_prefix. cbn [map concat]. rewrite app_nil_r.
  unfold put, splice. rewrite drop_ge by (rewrite piece_length; nia). by rewrite app_nil_r.
Qed.
End Gather.

(** The full windows among the first [m * G] blocks. *)
Lemma flat_map_full {X} (G : nat) (F : nat -> list X) m : (0 < G)%nat ->
  flat_map (fun g => if window_full G g then F g else []) (seq 0 (m * G))
    = flat_map (fun i => F (i * G + (G - 1))%nat) (seq 0 m).
Proof.
  intros HG. induction m as [|m IH]; [done|].
  replace (Datatypes.S m * G)%nat with (m * G + G)%nat by lia.
  rewrite seq_app, seq_S, !flat_map_app, IH. f_equal. cbn [flat_map Nat.add]. rewrite app_nil_r.
  replace (seq (m * G) G) with (seq (m * G) (G - 1) ++ seq (m * G + (G - 1)) 1)
    by (rewrite <- seq_app; f_equal; lia).
  rewrite flat_map_app. cbn [seq flat_map].
  rewrite app_nil_r.
  assert (Hf : forall j, (j < G)%nat -> window_full G (m * G + j) = (j =? G - 1)%nat).
  { intros j Hj. assert (Hm : ((m * G + j) mod G = j)%nat).
    { rewrite Nat.add_comm, Nat.Div0.mod_add. by apply Nat.mod_small. }
    assert (Hs := window_full_spec G HG (m * G + j)). rewrite Hm in Hs.
    destruct (Nat.eqb_spec j (G - 1)) as [He|He]; [by apply Hs|].
    destruct (window_full G (m * G + j)); [|done]. exfalso. apply He. by apply Hs. }
  rewrite Hf, Nat.eqb_refl by lia.
  enough (H : forall a d, (a + d <= G - 1)%nat ->
    flat_map (fun g => if window_full G g then F g else []) (seq (m * G + a) d) = []).
  { specialize (H 0%nat (G - 1)%nat). rewrite Nat.add_0_r in H. by rewrite H by lia. }
  intros a d; revert a; induction d as [|d IHd]; intros a Ha; cbn [seq flat_map]; [done|].
  rewrite Hf by lia. destruct (Nat.eqb_spec a (G - 1)); [lia|].
  rewrite <- Nat.add_succ_r. apply IHd. lia.
Qed.

Lemma concat_flat_map {X} (F : X -> list (list Z)) l :
  concat (flat_map F l) = concat (map (fun x => concat (F x)) l).
Proof. induction l as [|x l IH]; cbn; [done|]. by rewrite concat_app, IH. Qed.
