(* ===== verification/RowProduct.v ===== *)
(** A row of cores that multiplies matrices, for any kernels of the common shape.

    The two matrix multiplication examples differ in the width of their numbers, in the unit that
    multiplies and in how many columns they stage before they multiply; the way the operands are
    divided among the cores, the order of the results and the bookkeeping of the windows is the same.
    This file proves it once: given what the array operations of a kernel do ([load_ok] to
    [wrap_ok]), a row of such kernels computes the entries of the product, call after call, in every
    interleaving ([row_product]). *)
From stdpp Require Import base list gmap.
From Stdlib Require Import ZArith Lia.
From S2P Require Import Prelude Windows.
From S2P Require Import Chain Core Tiles.
Local Open Scope Z_scope.

(** What the collector behind a row of [n] cores has received, once it has all it waits for. *)
Definition collected (n : nat) (s : network) : option (list Z) :=
  match s.1 !! n with Some (Done ws) => Some (concat ws) | _ => None end.

(** Several rows, each run in some interleaving of its cores until none of them can move; [outs r] is what
    the collector of row [r] has received. *)
Definition all_collected (rows cols : nat) (start : nat -> network) (outs : nat -> list Z) : Prop :=
  forall r, (r < rows)%nat -> exists l s, play l (start r) = Some s /\ halted s /\ collected cols s = Some (outs r).

(** Whatever interleaving of its cores a row runs in, it comes to an end: no run is longer than [total]
    moves, every run can be continued until none of the cores can move, and wherever it stops the
    collector has all it waits for. *)
Definition always_ends (rows cols : nat) (start : nat -> network) : Prop :=
  forall r, (r < rows)%nat -> exists total, forall l s, play l (start r) = Some s ->
    (length l <= total)%nat /\ (exists rest f, play rest s = Some f /\ halted f) /\
    (halted s -> is_Some (collected cols s)).

Lemma all_collected_exists rows cols start :
  (forall r, (r < rows)%nat -> exists l s out, play l (start r) = Some s /\ halted s /\ collected cols s = Some out) ->
  exists outs, all_collected rows cols start outs.
Proof.
  unfold all_collected. induction rows as [|n IH]; intros H; [exists (fun _ => []); lia|].
  destruct IH as [outs Ho]; [intros r Hr; apply H; lia|]. destruct (H n ltac:(lia)) as (l & s & out & Hn).
  exists (fun r => if decide (r = n) then out else outs r). intros r Hr. case_decide as He.
  - subst. eauto.
  - apply Ho. lia.
Qed.

Section RowProduct.
(** Cores; windows of a core's stripe; columns staged per block, their windows in two loops; blocks;
    elements of a window; rows of a core; length of rows and columns; blocks per window of results. *)
Context (n NA CPB NN NW NB WIN RPT NC G : nat).
Hypotheses (n_pos : (0 < n)%nat) (NN_pos : (0 < NN)%nat) (NW_pos : (0 < NW)%nat) (G_pos : (0 < G)%nat)
  (WIN_pos : (0 < WIN)%nat).
Hypothesis stripe_size : (NA * WIN = RPT * NC)%nat.
Hypothesis block_size : (NN * NW * WIN = CPB * NC)%nat.
Hypothesis window_size : (G * (CPB * RPT) = WIN)%nat.
Hypothesis blocks_size : (NB = NB / G * G)%nat.
Hypothesis columns : (NB * CPB = NC)%nat.

(** The state of a kernel before and after the arithmetic of block [g], from its arrays: the stripe, the
    staged columns, the window of results, and what else it keeps. *)
Context {S H : Type} (mk mkC : list Z -> list Z -> list Z -> H -> nat -> S) (okH : H -> Prop).
Context (good : Z -> Prop) (entryf : list Z -> list Z -> Z) (next : list Z -> list Z -> H -> H).
Context (load_window : nat -> list Z -> S -> option S).
Context (stage_window : nat -> nat -> list Z -> S -> option (S * list Z)).
Context (stage_last : nat -> nat -> list Z -> S -> option S).
Context (copy_data copy_result : list Z -> option (list Z)).
Context (compute : nat -> S -> option S) (ready : nat -> S -> bool) (drain : S -> option (S * list Z)).
Context (kernel : nat -> S -> (S -> proc) -> proc).

(** The results of the columns [blk] for the rows [a]. *)
Definition block_results (a blk : list Z) : list Z :=
  concat (map (fun nn => map (fun r => entryf (piece NC a r) (piece NC blk nn)) (seq 0 RPT)) (seq 0 CPB)).

Hypothesis load_ok : forall x w a sb intr h, length w = WIN -> (x * WIN + WIN <= length a)%nat ->
  load_window x w (mk a sb intr h 0) = Some (mk (splice a (x * WIN) w) sb intr h 0).
Hypothesis stage_ok : forall nn w win a sb intr h g, (nn < NN)%nat -> (w < NW)%nat -> length win = WIN ->
  ((nn * NW + w) * WIN + WIN <= length sb)%nat ->
  stage_window nn w win (mk a sb intr h g) = Some (mk a (splice sb ((nn * NW + w) * WIN) win) intr h g, win) /\
  stage_last nn w win (mk a sb intr h g) = Some (mk a (splice sb ((nn * NW + w) * WIN) win) intr h g).
Hypothesis compute_ok : forall g a blk intr h, (g < NB)%nat -> length a = (RPT * NC)%nat ->
  length blk = (CPB * NC)%nat -> length intr = WIN -> Forall good a -> Forall good blk -> okH h ->
  compute g (mk a blk intr h g)
    = Some (mkC a blk (splice intr (g mod G * (CPB * RPT)) (block_results a blk)) (next a blk h) g) /\
  okH (next a blk h).
Hypothesis ready_ok : forall g a sb intr h, ready g (mkC a sb intr h g) = window_full G g.
Hypothesis drain_ok : forall g a sb intr h, length intr = WIN ->
  if window_full G g then drain (mkC a sb intr h g) = Some (mk a sb (replicate WIN 0) h (Datatypes.S g), intr)
  else mk a sb intr h (Datatypes.S g) = mkC a sb intr h g.
Hypothesis wrap_ok : forall a sb intr h, mk a sb intr h NB = mk a sb intr h 0.
Hypothesis copy_ok : forall w, length w = WIN -> copy_data w = Some w /\ copy_result w = Some w.
Hypothesis kernel_shape : forall c st k, (c < n)%nat ->
  kernel c st k = row_core NA NN NW NB WIN load_window stage_window stage_last copy_data copy_result compute
                    ready drain n c st k.

Lemma block_results_length a blk : length (block_results a blk) = (CPB * RPT)%nat.
Proof. apply length_concat_const. intros. by rewrite length_map, length_seq. Qed.

(** * One call

    The rows of the left operand that go to this row of the array ([chunk]) and the columns of the
    right one ([panel]), one after the other. *)
Section OneCall.
Context (chunk panel : list Z).
Hypothesis chunk_length : length chunk = (n * (RPT * NC))%nat.
Hypothesis panel_length : length panel = (NB * (CPB * NC))%nat.
Hypothesis chunk_good : Forall good chunk.
Hypothesis panel_good : Forall good panel.

(** The arrays of the cores between two calls. *)
Context (a0 sb0 intr0 : nat -> list Z) (h0 : nat -> H).
Hypothesis a0_length : forall c, (c < n)%nat -> length (a0 c) = (RPT * NC)%nat.
Hypothesis sb0_length : forall c, (c < n)%nat -> length (sb0 c) = (CPB * NC)%nat.
Hypothesis intr0_length : forall c, (c < n)%nat -> length (intr0 c) = WIN.
Hypothesis h0_ok : forall c, (c < n)%nat -> okH (h0 c).

Definition op_A (c x : nat) : list Z := piece WIN chunk (c * NA + x).
Definition op_B (g x : nat) : list Z := piece WIN panel (g * (NN * NW) + x).

Definition a_of (c : nat) : list Z := piece (RPT * NC) chunk c.
Definition blk_of (g : nat) : list Z := piece (CPB * NC) panel g.
Definition results_of (c g : nat) : list Z := block_results (a_of c) (blk_of g).
Definition own_results (c g : nat) : list Z := concat (map (results_of c) (seq (g - g mod G) G)).

Definition sb_before (c g : nat) : list Z :=
  match g with O => sb0 c | Datatypes.S g' => blk_of g' end.
Definition intr_before (c g : nat) : list Z := gathered G (CPB * RPT) (results_of c) (intr0 c) g.
Fixpoint h_before (c g : nat) : H :=
  match g with O => h0 c | Datatypes.S g' => next (a_of c) (blk_of g') (h_before c g') end.

Definition st_A (c x : nat) : S :=
  mk (splice (a0 c) 0 (concat (map (op_A c) (seq 0 x)))) (sb0 c) (intr0 c) (h0 c) 0.
Definition st_B (c g x : nat) : S :=
  mk (a_of c) (splice (sb_before c g) 0 (concat (map (op_B g) (seq 0 x)))) (intr_before c g) (h_before c g) g.
Definition st_C (c g : nat) : S :=
  mkC (a_of c) (blk_of g) (put G (CPB * RPT) (results_of c) (intr_before c g) g) (h_before c (Datatypes.S g)) g.

Lemma op_A_length c x : (c < n)%nat -> (x < NA)%nat -> length (op_A c x) = WIN.
Proof.
  intros Hc Hx. apply length_piece. rewrite chunk_length, <- stripe_size.
  assert (c * NA + x + 1 <= n * NA)%nat by nia. nia.
Qed.

Lemma op_B_length g x : (g < NB)%nat -> (x < NN * NW)%nat -> length (op_B g x) = WIN.
Proof.
  intros Hg Hx. apply length_piece. rewrite panel_length, <- block_size.
  assert (g * (NN * NW) + x + 1 <= NB * (NN * NW))%nat by nia. nia.
Qed.

(** The windows of a list, one after the other. *)
Lemma prefix_length (f : nat -> list Z) m x : (forall i, (i < m)%nat -> length (f i) = WIN) -> (x <= m)%nat ->
  length (concat (map f (seq 0 x))) = (x * WIN)%nat.
Proof.
  intros Hf. induction x as [|x IH]; intros Hx; [done|].
  rewrite seq_S, map_app, concat_app, length_app, IH by lia. cbn [map concat Nat.add].
  rewrite app_nil_r, Hf by lia. lia.
Qed.

Lemma prefix_all l m m' c : concat (map (fun x => piece WIN l (c * m + x)) (seq 0 m')) = take (m' * WIN) (drop (c * m * WIN) l).
Proof.
  transitivity (concat (map (piece WIN l) (seq (c * m) m'))); [|apply concat_pieces].
  apply (f_equal (@concat Z)). replace (seq (c * m) m') with (seq (c * m + 0) m') by (f_equal; lia).
  rewrite <- fmap_add_seq. symmetry. apply (map_map (Nat.add (c * m))).
Qed.

Lemma op_A_all c : concat (map (op_A c) (seq 0 NA)) = a_of c.
Proof. unfold op_A. rewrite prefix_all. unfold a_of, piece. by rewrite <- (Nat.mul_assoc c), stripe_size. Qed.

Lemma op_B_all g : concat (map (op_B g) (seq 0 (NN * NW))) = blk_of g.
Proof. unfold op_B. rewrite prefix_all. unfold blk_of, piece. by rewrite <- (Nat.mul_assoc g), block_size. Qed.

Lemma a_of_length c : (c < n)%nat -> length (a_of c) = (RPT * NC)%nat.
Proof. intros Hc. apply length_piece. rewrite chunk_length. nia. Qed.

Lemma blk_of_length g : (g < NB)%nat -> length (blk_of g) = (CPB * NC)%nat.
Proof. intros Hg. apply length_piece. rewrite panel_length. nia. Qed.

Lemma piece_good size l i : Forall good l -> Forall good (piece size l i).
Proof. intros Hl. unfold piece. by apply Forall_take, Forall_drop. Qed.

Lemma intr_length c g : (c < n)%nat -> length (intr_before c g) = (G * (CPB * RPT))%nat.
Proof.
  intros Hc. apply length_gathered; [done|intros; apply block_results_length|].
  rewrite window_size. by apply intr0_length.
Qed.

Lemma sb_before_length c g : (c < n)%nat -> (g <= NB)%nat -> length (sb_before c g) = (CPB * NC)%nat.
Proof. intros Hc Hg. destruct g as [|g]; [by apply sb0_length|]. by apply blk_of_length. Qed.

Lemma splice_prefix (arr : list Z) (f : nat -> list Z) x :
  length (concat (map f (seq 0 x))) = (x * WIN)%nat -> (x * WIN + length (f x) <= length arr)%nat ->
  splice (splice arr 0 (concat (map f (seq 0 x)))) (x * WIN) (f x)
    = splice arr 0 (concat (map f (seq 0 (Datatypes.S x)))).
Proof.
  intros Hp Ha. assert (Hs := splice_splice arr 0 (concat (map f (seq 0 x))) (f x)).
  cbn [Nat.add] in Hs. rewrite Hp in Hs. rewrite Hs by lia. f_equal.
  rewrite seq_S, map_app, concat_app. cbn [map concat Nat.add]. by rewrite app_nil_r.
Qed.

Lemma call_loads c x : (c < n)%nat -> (x < NA)%nat ->
  load_window x (op_A c x) (st_A c x) = Some (st_A c (Datatypes.S x)).
Proof.
  intros Hc Hx. assert (Ha := a0_length c Hc). assert (Hw := op_A_length c x Hc Hx).
  assert (Hp := prefix_length (op_A c) NA x (fun i => op_A_length c i Hc) ltac:(lia)).
  assert (x * WIN + WIN <= NA * WIN)%nat by nia.
  unfold st_A. rewrite load_ok by (rewrite ?length_splice; lia).
  by rewrite splice_prefix by (rewrite ?Hw; lia).
Qed.

Lemma call_loaded c : (c < n)%nat -> st_A c NA = st_B c 0 0.
Proof.
  intros Hc. unfold st_A, st_B, intr_before. rewrite op_A_all.
  rewrite splice_all by (rewrite a_of_length, a0_length by done; done).
  cbn [seq map concat sb_before gathered h_before]. by rewrite splice_nil.
Qed.

Lemma call_stages c g nn w : (c < n)%nat -> (g < NB)%nat -> (nn < NN)%nat -> (w < NW)%nat ->
  let x := (nn * NW + w)%nat in
  stage_window nn w (op_B g x) (st_B c g x) = Some (st_B c g (Datatypes.S x), op_B g x) /\
  stage_last nn w (op_B g x) (st_B c g x) = Some (st_B c g (Datatypes.S x)).
Proof.
  intros Hc Hg Hnn Hw x. assert (Hx : (x < NN * NW)%nat) by (unfold x; nia).
  assert (Hb := sb_before_length c g Hc ltac:(lia)). assert (Hl := op_B_length g x Hg Hx).
  assert (Hp := prefix_length (op_B g) (NN * NW) x (fun i => op_B_length g i Hg) ltac:(lia)).
  assert (x * WIN + WIN <= NN * NW * WIN)%nat by nia.
  unfold st_B. rewrite <- splice_prefix by (rewrite ?Hl; lia).
  apply stage_ok; try done. fold x. rewrite length_splice; lia.
Qed.

Lemma h_before_ok c g : (c < n)%nat -> (g <= NB)%nat -> okH (h_before c g).
Proof.
  intros Hc. induction g as [|g IH]; intros Hg; cbn [h_before]; [by apply h0_ok|].
  apply (compute_ok g (a_of c) (blk_of g) (intr_before c g)); try apply piece_good; try done; try lia.
  - by apply a_of_length.
  - by apply blk_of_length.
  - rewrite intr_length by done. apply window_size.
  - apply IH. lia.
Qed.

Lemma call_computes c g : (c < n)%nat -> (g < NB)%nat ->
  compute g (st_B c g (NN * NW)) = Some (st_C c g) /\ ready g (st_C c g) = window_full G g.
Proof.
  intros Hc Hg. split; [|apply ready_ok]. unfold st_B, st_C. rewrite op_B_all.
  rewrite splice_all by (by rewrite blk_of_length, sb_before_length by lia).
  apply compute_ok; try apply piece_good; try done.
  - by apply a_of_length.
  - by apply blk_of_length.
  - rewrite intr_length by done. apply window_size.
  - apply h_before_ok; lia.
Qed.

Lemma call_drains c g : (c < n)%nat -> (g < NB)%nat ->
  if window_full G g then drain (st_C c g) = Some (st_B c (Datatypes.S g) 0, own_results c g)
  else st_B c (Datatypes.S g) 0 = st_C c g.
Proof.
  intros Hc Hg. assert (Hi := intr_length c g Hc). set (p := put G (CPB * RPT) (results_of c) (intr_before c g) g).
  assert (Hp : length p = WIN).
  { unfold p. rewrite length_put; [apply window_size|done|intros; apply block_results_length|done]. }
  assert (Hd := drain_ok g (a_of c) (blk_of g) p (h_before c (Datatypes.S g)) Hp).
  assert (Hn : intr_before c (Datatypes.S g) = if window_full G g then replicate WIN 0 else p).
  { unfold intr_before at 1. cbn [gathered]. by rewrite window_size. }
  unfold st_B, st_C. cbn [seq map concat sb_before]. rewrite splice_nil, Hn. fold p.
  destruct (window_full G g) eqn:Hf; [|exact Hd]. rewrite Hd. f_equal. f_equal.
  unfold p, intr_before, own_results. apply put_full; [done|intros; apply block_results_length| |done].
  rewrite window_size. by apply intr0_length.
Qed.

(** The row takes its operands and delivers its results. *)
Definition row_operands : list (list Z) := pieces WIN (n * NA) chunk ++ pieces WIN (NB * (NN * NW)) panel.
Definition row_output : list (list Z) := results n (window_full G) own_results NB.

Lemma own_results_length c g : length (own_results c g) = WIN.
Proof.
  unfold own_results. rewrite (length_concat_const _ (CPB * RPT)) by (intros; apply block_results_length).
  apply window_size.
Qed.

Lemma row_call cs0 cap fin rest k m acc :
  (forall s i, (i <= n)%nat -> cs0 !! (s, i) = Some (mkBuf [] (Datatypes.S (cap (s, i))))) ->
  reach (net n (fun c => if decide (n <= c)%nat then collect n (length row_output + m) acc
                         else kernel c (mk (a0 c) (sb0 c) (intr0 c) (h0 c) 0) (fin c))
           (send (row_operands ++ rest) k), cs0)
        (net n (fun c => if decide (n <= c)%nat then collect n m (acc ++ row_output)
                         else fin c (mk (a_of c) (sb_before c NB) (intr_before c NB) (h_before c NB) 0)) (send rest k), cs0).
Proof.
  intros idle.
  assert (Hcall := call_runs NA NN NW NB WIN load_window stage_window stage_last copy_data copy_result compute ready
    drain n cs0 cap idle n_pos NN_pos NW_pos (window_full G) op_A op_B own_results st_A st_B st_C).
  eassert (H' := Hcall _ _ _ _ _ _ _ _ fin rest k m acc). clear Hcall.
  unfold row_operands. rewrite <- !pieces_flat, <- app_assoc.
  assert (Hst : forall c, st_A c 0 = mk (a0 c) (sb0 c) (intr0 c) (h0 c) 0).
  { intros c. unfold st_A. cbn [seq map concat]. by rewrite splice_nil. }
  assert (Hen : forall c, st_B c NB 0 = mk (a_of c) (sb_before c NB) (intr_before c NB) (h_before c NB) 0).
  { intros c. unfold st_B. cbn [seq map concat]. by rewrite splice_nil, wrap_ok. }
  rewrite (net_ext n (fun c => if decide (n <= c)%nat then collect n (length row_output + m) acc else _)
    (fun c => if decide (n <= c)%nat then collect n (length row_output + m) acc
      else row_core NA NN NW NB WIN load_window stage_window stage_last copy_data copy_result
        compute ready drain n c (st_A c 0) (fin c))).
  2: { intros c Hc. case_decide; [done|]. by rewrite kernel_shape, Hst by lia. }
  rewrite (net_ext n (fun c => if decide (n <= c)%nat then collect n m (acc ++ row_output) else _)
    (fun c => if decide (n <= c)%nat then collect n m (acc ++ row_output) else fin c (st_B c NB 0))).
  2: { intros c Hc. case_decide; [done|]. by rewrite Hen. }
  exact H'.
  Unshelve.
  - intros t x Ht Hx. assert (Hl := op_A_length t x Ht Hx). split; [done|]. by apply copy_ok.
  - intros g x Hg Hx. by apply op_B_length.
  - intros c g _ _ _. assert (Hl := own_results_length c g). split; [done|]. by apply copy_ok.
  - intros c x Hc Hx. by apply call_loads.
  - intros c Hc. by apply call_loaded.
  - intros c g nn w Hc Hg Hnn Hw. by apply call_stages.
  - intros c g Hc Hg. by apply call_computes.
  - intros c g Hc Hg. by apply call_drains.
Qed.

Lemma row_window_length i :
  length (concat (map (fun c => own_results c (i * G + (G - 1))) (seq 0 n))) = (n * WIN)%nat.
Proof. apply length_concat_const. intros. apply own_results_length. Qed.

Lemma row_output_length : length (concat row_output) = (n * (RPT * NC))%nat.
Proof.
  unfold row_output, results. rewrite blocks_size, flat_map_full, concat_flat_map by done. unfold row_results.
  rewrite (length_concat_const _ (n * WIN)) by apply row_window_length.
  rewrite <- columns, <- window_size. rewrite blocks_size at 2. lia.
Qed.

(** A row delivers as many windows as it has been given of the left operand. *)
Lemma row_output_windows : length row_output = (n * NA)%nat.
Proof using stripe_size window_size columns G_pos WIN_pos.
  clear - stripe_size window_size columns G_pos WIN_pos.
  assert (Hn : (NA * G = NB)%nat).
  { assert (Hs : (NA * (G * (CPB * RPT)) = NB * CPB * RPT)%nat) by (rewrite window_size, columns, stripe_size; lia).
    assert (Hp : (CPB * RPT <> 0)%nat) by (intros He; rewrite He in window_size; lia).
    apply (Nat.mul_cancel_r _ _ (CPB * RPT) Hp). lia. }
  unfold row_output, results. rewrite <- Hn, flat_map_full by done. unfold row_results.
  clear Hn. generalize NA as m. induction m as [|m IH]; [cbn; lia|].
  rewrite seq_S, flat_map_app, length_app, IH. cbn [flat_map Nat.add].
  rewrite app_nil_r, length_map, length_seq. lia.
Qed.

(** The order of the results: for every group of columns that fills a window, the cores of the row
    in order, for each the columns of the group, for each the rows of the core. *)
Lemma row_output_entry i c m l : (i < NB / G)%nat -> (c < n)%nat -> (m < G * CPB)%nat -> (l < RPT)%nat ->
  concat row_output !! (i * (n * WIN) + (c * WIN + (m * RPT + l)))%nat
    = Some (entryf (piece NC chunk (c * RPT + l)) (piece NC panel (i * (G * CPB) + m))).
Proof.
  intros Hi Hc Hm Hl. assert (Hcpb : (0 < CPB)%nat) by nia.
  assert (Hw : (m * RPT + l < WIN)%nat) by (rewrite <- window_size; nia).
  unfold row_output, results. rewrite blocks_size, flat_map_full, concat_flat_map by done. unfold row_results.
  rewrite (concat_lookup (fun i => concat (map (fun c => own_results c (i * G + (G - 1))) (seq 0 n))) (n * WIN));
    [|intros; apply row_window_length|done|nia].
  rewrite (concat_lookup (fun c => own_results c (i * G + (G - 1))) WIN); [|intros; apply own_results_length|done..].
  unfold own_results. replace ((i * G + (G - 1)) mod G)%nat with (G - 1)%nat.
  2: { rewrite Nat.add_comm, Nat.Div0.mod_add. symmetry. apply Nat.mod_small. lia. }
  replace (i * G + (G - 1) - (G - 1))%nat with (i * G + 0)%nat by lia.
  rewrite <- fmap_add_seq. change (@fmap list list_fmap nat nat) with (@map nat nat). rewrite map_map.
  assert (Hd := Nat.div_mod_eq m CPB). set (q := (m / CPB)%nat) in *. set (r := (m mod CPB)%nat) in *.
  assert (Hr : (r < CPB)%nat) by (apply Nat.mod_upper_bound; lia). assert (Hq : (q < G)%nat) by nia.
  replace (m * RPT + l)%nat with (q * (CPB * RPT) + (r * RPT + l))%nat by nia.
  rewrite (concat_lookup (fun x => results_of c (i * G + x)) (CPB * RPT));
    [|intros; apply block_results_length|done|nia].
  unfold results_of, block_results.
  rewrite (concat_lookup _ RPT); [|intros; by rewrite length_map, length_seq|done|done].
  rewrite list_lookup_fmap, lookup_seq_lt by done. cbn [fmap option_fmap option_map Nat.add]. f_equal. f_equal.
  - unfold a_of. by apply piece_piece.
  - unfold blk_of. rewrite (piece_piece (CPB * NC) NC CPB) by done. f_equal. nia.
Qed.
End OneCall.

(** * A session: the kernels are called once per iteration *)

Section Session.
Context (cap : chan -> nat) (T : nat) (chunk panel : nat -> list Z).
Context (a_init sb_init intr_init : list Z) (h_init : H).
Hypotheses (a_init_length : length a_init = (RPT * NC)%nat) (sb_init_length : length sb_init = (CPB * NC)%nat)
  (intr_init_length : length intr_init = WIN) (h_init_ok : okH h_init).

(** The arrays of a core between two calls. *)
Record arrays := mkArrays { ar_a : list Z; ar_sb : list Z; ar_intr : list Z; ar_h : H }.

Definition statics_of (r : arrays) : S := mk (ar_a r) (ar_sb r) (ar_intr r) (ar_h r) 0.

Fixpoint arrays_at (t c : nat) : arrays :=
  match t with
  | O => mkArrays a_init sb_init intr_init h_init
  | Datatypes.S t' =>
    let before c := arrays_at t' c in
    mkArrays (a_of (chunk t') c) (sb_before (panel t') (fun c => ar_sb (before c)) c NB)
      (intr_before (chunk t') (panel t') (fun c => ar_intr (before c)) c NB)
      (h_before (chunk t') (panel t') (fun c => ar_h (before c)) c NB)
  end.

(** The row before it starts, with the operands of all iterations: the collector waits for as many
    windows as the row is sent of the left operand.  And the row when it has delivered. *)
Definition session_start : network :=
  row_start n (idle_buffers cap n) kernel T (fun t => row_operands (chunk t) (panel t)) (T * (n * NA))
    (fun _ => mk a_init sb_init intr_init h_init 0).

Definition session_end : network :=
  row_end n (idle_buffers cap n) T (fun t => row_output (chunk t) (panel t)).

Definition session_output : list Z := concat (flat_map (fun t => row_output (chunk t) (panel t)) (seq 0 T)).

Lemma session_end_collected : collected n session_end = Some session_output.
Proof.
  unfold collected, session_end, row_end. cbn [fst]. rewrite net_lookup by lia. by rewrite decide_True by lia.
Qed.

Hypothesis operands_ok : forall t, (t < T)%nat ->
  length (chunk t) = (n * (RPT * NC))%nat /\ length (panel t) = (NB * (CPB * NC))%nat /\
  Forall good (chunk t) /\ Forall good (panel t).

Lemma arrays_ready t c : (t <= T)%nat -> (c < n)%nat ->
  length (ar_a (arrays_at t c)) = (RPT * NC)%nat /\ length (ar_sb (arrays_at t c)) = (CPB * NC)%nat /\
  length (ar_intr (arrays_at t c)) = WIN /\ okH (ar_h (arrays_at t c)).
Proof.
  revert c. induction t as [|t IH]; intros c Ht Hc; [done|].
  destruct (operands_ok t ltac:(lia)) as (H1 & H2 & H3 & H4). cbn [arrays_at ar_a ar_sb ar_intr ar_h].
  split_and!.
  - by eapply a_of_length; try eassumption.
  - eapply sb_before_length; try eassumption; [|lia]. intros c' Hc'. apply IH; lia.
  - rewrite <- window_size. eapply intr_length; try eassumption. intros c' Hc'. apply IH; lia.
  - eapply h_before_ok with (intr0 := fun c => ar_intr (arrays_at t c)); try eassumption;
      try lia; intros c' Hc'; apply IH; lia.
Qed.

Lemma session_runs : exists total, forall l s, play l session_start = Some s ->
  (length l <= total)%nat /\ (exists rest, play rest s = Some session_end) /\ (halted s -> s = session_end).
Proof.
  assert (Hc : length (flat_map (fun t => row_output (chunk t) (panel t)) (seq 0 T)) = (T * (n * NA))%nat).
  { clear operands_ok. induction T as [|t IH]; [done|]. rewrite seq_S, flat_map_app, length_app, IH.
    cbn [flat_map Nat.add]. rewrite app_nil_r, row_output_windows. lia. }
  unfold session_start. rewrite <- Hc. clear Hc.
  apply (calls_run n _ kernel T _ _ (fun t c => statics_of (arrays_at t c))).
  - intros t fin rest k m acc Ht. destruct (operands_ok t Ht) as (H1 & H2 & H3 & H4).
    assert (Hr := fun c Hc => arrays_ready t c ltac:(lia) Hc).
    assert (Hcall := row_call (chunk t) (panel t) H1 H2 H3 H4 (fun c => ar_a (arrays_at t c))
      (fun c => ar_sb (arrays_at t c)) (fun c => ar_intr (arrays_at t c)) (fun c => ar_h (arrays_at t c))
      (fun c Hc => proj1 (Hr c Hc)) (fun c Hc => proj1 (proj2 (Hr c Hc)))
      (fun c Hc => proj1 (proj2 (proj2 (Hr c Hc)))) (fun c Hc => proj2 (proj2 (proj2 (Hr c Hc))))
      (idle_buffers cap n) cap fin rest k m acc). apply Hcall.
    intros s i Hi. by apply idle_buffers_lookup.
  - intros c st k Hc Hk. rewrite kernel_shape by done. unfold row_core. by apply core_wired.
Qed.

Lemma session_output_from a d : (a + d <= T)%nat ->
  length (concat (map (fun t => concat (row_output (chunk t) (panel t))) (seq a d))) = (d * (n * (RPT * NC)))%nat.
Proof.
  revert a. induction d as [|d IH]; intros a Ha; cbn [seq map concat]; [done|].
  rewrite length_app, IH by lia. destruct (operands_ok a ltac:(lia)) as (H1 & H2 & _).
  rewrite row_output_length by done. lia.
Qed.

Lemma session_output_entry t x : (t < T)%nat -> (x < n * (RPT * NC))%nat ->
  session_output !! (t * (n * (RPT * NC)) + x)%nat = concat (row_output (chunk t) (panel t)) !! x.
Proof.
  intros Ht Hx. unfold session_output. rewrite concat_flat_map.
  replace (seq 0 T) with (seq 0 t ++ seq t 1 ++ seq (t + 1) (T - t - 1)).
  2: { rewrite <- !seq_app. f_equal. lia. }
  assert (H1 := session_output_from 0 t ltac:(lia)).
  destruct (operands_ok t Ht) as (H2 & H3 & _). assert (H4 := row_output_length (chunk t) (panel t)).
  rewrite !map_app, !concat_app, lookup_app_r by lia. rewrite H1.
  replace (t * (n * (RPT * NC)) + x - t * (n * (RPT * NC)))%nat with x by lia.
  cbn [seq map concat]. rewrite app_nil_r. apply lookup_app_l. by rewrite H4.
Qed.

(** In every interleaving the row comes to an end, and only with all results, in the order of
    [row_output_entry]. *)
Lemma row_product : exists total, forall l s, play l session_start = Some s ->
  (length l <= total)%nat /\ (exists rest f, play rest s = Some f /\ halted f) /\
  (halted s -> exists out, collected n s = Some out /\ length out = (T * (n * (RPT * NC)))%nat /\
    forall t i c m k, (t < T)%nat -> (i < NB / G)%nat -> (c < n)%nat -> (m < G * CPB)%nat -> (k < RPT)%nat ->
      out !! (t * (n * (RPT * NC)) + (i * (n * WIN) + (c * WIN + (m * RPT + k))))%nat
        = Some (entryf (piece NC (chunk t) (c * RPT + k)) (piece NC (panel t) (i * (G * CPB) + m)))).
Proof.
  destruct session_runs as [total Ht]. exists total. intros l s Hl.
  destruct (Ht l s Hl) as (H1 & [rest Hr] & H3). split; [done|]. split.
  { exists rest. eexists. split; [done|]. apply row_end_halted. }
  intros Hh. rewrite (H3 Hh), session_end_collected. eexists. split; [done|]. split.
  - unfold session_output. rewrite concat_flat_map. by apply session_output_from.
  - intros t i c m k Ht' Hi Hc Hm Hk. destruct (operands_ok t Ht') as (Ho1 & Ho2 & Ho3 & Ho4).
    rewrite session_output_entry; [by apply row_output_entry|done|].
    rewrite <- columns, blocks_size. rewrite <- window_size.
    assert (m * RPT + k < G * CPB * RPT)%nat by nia.
    assert (c * (G * (CPB * RPT)) + (m * RPT + k) < n * (G * (CPB * RPT)))%nat by nia.
    nia.
Qed.
End Session.
End RowProduct.
