(* ===== verification/Oob.v ===== *)
(** The matrix multiplication example on rows of cores ([example/example_oob]).

    The array multiplies two square matrices of 32-bit integers.  The rows of the left operand are
    divided among the rows of the array and there among the cores; the right operand is streamed
    past all of them.  The three kernels (first, middle and last core of a row), the graph that
    connects them and the constants of the shipped configurations are here; OobHost.v has the host
    program.

    [row_computes] is the result: a row of cores, connected as the graph connects it, for any number
    of buffers per connection and any interleaving of the cores, never blocks for good, never leaves
    an array, and delivers the entries of the product in a fixed order, call after call. *)
From stdpp Require Import base list gmap.
From Stdlib Require Import ZArith Lia.
From S2P Require Import Prelude Windows.
From S2P Require Import Chain Core Tiles RowProduct.
Local Open Scope Z_scope.

(** * Configuration *)

(** The constants an architecture chooses; the others are derived.
    [example/example_oob/src/kernels/config.h:17-50] [NUM_HW_COLS, NUM_HW_ROWS, MAT_SIZE, WIN_SIZE] *)
Class OobConfig := { NUM_HW_COLS : nat; NUM_HW_ROWS : nat; MAT_SIZE : nat; WIN_SIZE : nat }.

Section Config.
Context {cfg : OobConfig}.

(** [example/example_oob/src/kernels/config.h:52-52] [NUM_COLS] *)
Definition NUM_COLS : nat := MAT_SIZE.

(** [example/example_oob/src/kernels/config.h:53-53] [NUM_ROWS] *)
Definition NUM_ROWS : nat := MAT_SIZE.

(** [example/example_oob/src/kernels/config.h:56-56] [VECTOR_LENGTH] *)
Definition VECTOR_LENGTH : nat := 8.

(** [example/example_oob/src/kernels/config.h:58-58] [NUM_ROWS_PER_HW_ROW] *)
Definition NUM_ROWS_PER_HW_ROW : nat := NUM_ROWS / NUM_HW_ROWS.

(** [example/example_oob/src/kernels/config.h:59-59] [NUM_ROWS_PER_TILE] *)
Definition NUM_ROWS_PER_TILE : nat := NUM_ROWS_PER_HW_ROW / NUM_HW_COLS.

(** [example/example_oob/src/kernels/config.h:61-61] [NUM_ELMNTS] *)
Definition NUM_ELMNTS : nat := NUM_ROWS * NUM_COLS.

(** [example/example_oob/src/kernels/config.h:62-62] [NUM_A_ELMNTS_PER_TILE] *)
Definition NUM_A_ELMNTS_PER_TILE : nat := (NUM_ROWS_PER_HW_ROW * NUM_COLS) / NUM_HW_COLS.

(** [example/example_oob/src/kernels/config.h:64-65] [MAT_A_CHUNK] *)
Definition MAT_A_CHUNK : nat := NUM_ROWS_PER_HW_ROW * NUM_COLS.

(** Columns of the right operand whose results fill a window. *)
Definition columns_per_window : nat := WIN_SIZE / NUM_ROWS_PER_TILE.

(** What the kernels need of the constants: everything divides, and the counts fit their types. *)
Class OobConfigOk : Prop := {
  cols_two : (2 <= NUM_HW_COLS)%nat;
  cols_bound : (NUM_HW_COLS <= 128)%nat;
  cols_pos : (0 < NUM_COLS)%nat;
  tile_rows_pos : (0 < NUM_ROWS_PER_TILE)%nat;
  win_pos : (0 < WIN_SIZE)%nat;
  win_vectors : WIN_SIZE = (WIN_SIZE / VECTOR_LENGTH * VECTOR_LENGTH)%nat;
  col_vectors : NUM_COLS = (NUM_COLS / VECTOR_LENGTH * VECTOR_LENGTH)%nat;
  col_windows : NUM_COLS = (NUM_COLS / WIN_SIZE * WIN_SIZE)%nat;
  tile_elements : NUM_A_ELMNTS_PER_TILE = (NUM_ROWS_PER_TILE * NUM_COLS)%nat;
  tile_windows : NUM_A_ELMNTS_PER_TILE = (NUM_A_ELMNTS_PER_TILE / WIN_SIZE * WIN_SIZE)%nat;
  win_columns : WIN_SIZE = (columns_per_window * NUM_ROWS_PER_TILE)%nat;
  full_windows : NUM_COLS = (NUM_COLS / columns_per_window * columns_per_window)%nat;
  row_tiles : NUM_ROWS_PER_HW_ROW = (NUM_HW_COLS * NUM_ROWS_PER_TILE)%nat;
  array_rows : NUM_ROWS = (NUM_HW_ROWS * NUM_ROWS_PER_HW_ROW)%nat;
  sums_bound : 9 * Z.of_nat NUM_COLS < 2 ^ 31;
  elements_bound : Z.of_nat (NUM_A_ELMNTS_PER_TILE * NUM_HW_COLS) < 2 ^ 32;
}.
End Config.

(** The shipped configurations of the architectures that run these kernels; on the first AIE
    generation the graph connects variants that use cascade streams. *)

(** [example/example_oob/src/kernels/config.h:35-38] [__AIE_ARCH__ == ARCH_AIEML] *)
Definition config_aieml : OobConfig :=
  {| NUM_HW_COLS := 38; NUM_HW_ROWS := 8; MAT_SIZE := 608; WIN_SIZE := 608 |}.

(** [example/example_oob/src/kernels/config.h:40-48] [AIE2PS, without and with _PALMYRA_] *)
Definition config_aie2ps (palmyra : bool) : OobConfig :=
  {| NUM_HW_COLS := if palmyra then 12 else 36; NUM_HW_ROWS := 4; MAT_SIZE := 576; WIN_SIZE := 576 |}.

(** [example/example_oob/src/kernels/config.h:17-25] [_APURPU_, for AIE2PS and for the others] *)
Definition config_apurpu (aie2ps : bool) : OobConfig :=
  {| NUM_HW_COLS := 30; NUM_HW_ROWS := if aie2ps then 4 else 8; MAT_SIZE := 480; WIN_SIZE := 480 |}.

Ltac config_ok := constructor; vm_compute; reflexivity || lia.

#[export] Instance config_aieml_ok : OobConfigOk (cfg := config_aieml).
Proof. config_ok. Qed.
#[export] Instance config_aie2ps_ok palmyra : OobConfigOk (cfg := config_aie2ps palmyra).
Proof. destruct palmyra; config_ok. Qed.
#[export] Instance config_apurpu_ok aie2ps : OobConfigOk (cfg := config_apurpu aie2ps).
Proof. destruct aie2ps; config_ok. Qed.

(** * The kernels *)

(** The vector operations of the core, per lane: the product of two vectors converted back to 32-bit
    lanes with no shift, and the sum of the lanes of a vector. *)
Class VectorUnit := { mul_lane : Z -> Z -> Z; reduce_add : list Z -> Z }.

(** Their documentation: a representable product is converted exactly, the sum is that of 32-bit
    unsigned integers. *)
Class VectorUnitSpec `{VectorUnit} : Prop := {
  mul_lane_exact x y : 0 <= x * y < 2 ^ 32 -> mul_lane x y = x * y;
  reduce_add_spec v : reduce_add v = u32 (zsum v);
}.

Section Kernels.
Context {cfg : OobConfig} {vu : VectorUnit}.

(** The static arrays and the counter of a kernel.
    [example/example_oob/src/kernels/one_input.cc:13-17] [a, b, intrmdtResult, count] *)
Record statics := mkStatics { k_a : list Z; k_b : list Z; k_intr : list Z; k_count : nat }.

(** [example/example_oob/src/kernels/one_input.cc:19-19] [currentCol] *)
Definition currentCol (coreid : Z) : Z := Z.shiftr (Z.land coreid 0x7F0000) 16.

(** [example/example_oob/src/kernels/one_input.cc:28-32] [window into a] *)
Definition read_a (i : nat) (win : list Z) (st : statics) : option statics :=
  a ← read_into VECTOR_LENGTH (WIN_SIZE / VECTOR_LENGTH) (k_a st) (i * WIN_SIZE) win;
  Some (mkStatics a (k_b st) (k_intr st) (k_count st)).

(** [example/example_oob/src/kernels/one_input.cc:44-44] [stripes to pass on] *)
Definition stripes_behind (coreid : Z) : nat :=
  Z.to_nat (u32 (Z.of_nat NUM_A_ELMNTS_PER_TILE * u32 (Z.of_nat NUM_HW_COLS - currentCol coreid - 1))
            / Z.of_nat WIN_SIZE).

(** [example/example_oob/src/kernels/one_input.cc:74-79] [window into b and on] *)
Definition read_b_on (_ w : nat) (win : list Z) (st : statics) : option (statics * list Z) :=
  '(b, _, out) ← loop (WIN_SIZE / VECTOR_LENGTH) 0 (fun x '(b, r, out) =>
      '(temp, r') ← window_readincr_v VECTOR_LENGTH win r;
      b' ← store_v b (w * WIN_SIZE + x * VECTOR_LENGTH) temp;
      v ← load_v VECTOR_LENGTH b' (w * WIN_SIZE + x * VECTOR_LENGTH);
      Some (b', r', out ++ v)) (k_b st, 0%nat, []);
  Some (mkStatics (k_a st) b (k_intr st) (k_count st), out).

(** [example/example_oob/src/kernels/one_output.cc:58-62] [window into b] *)
Definition read_b_last (_ w : nat) (win : list Z) (st : statics) : option statics :=
  b ← read_into VECTOR_LENGTH (WIN_SIZE / VECTOR_LENGTH) (k_b st) (w * WIN_SIZE) win;
  Some (mkStatics (k_a st) b (k_intr st) (k_count st)).

(** [example/example_oob/src/kernels/one_input.cc:93-103] [inner product] *)
Definition dot (a b : list Z) (k : nat) : option Z :=
  loop (NUM_COLS / VECTOR_LENGTH) 0 (fun l add_result =>
    va ← load_v VECTOR_LENGTH a (k * NUM_COLS + l * VECTOR_LENGTH);
    vb ← load_v VECTOR_LENGTH b (l * VECTOR_LENGTH);
    Some (u32 (add_result + reduce_add (zip_with mul_lane va vb)))) 0.

(** [example/example_oob/src/kernels/one_input.cc:92-105] [results of a column] *)
Definition multiply_column (_ : nat) (st : statics) : option statics :=
  loop NUM_ROWS_PER_TILE 0 (fun k st =>
    add_result ← dot (k_a st) (k_b st) k;
    intr ← store_v (k_intr st) (k_count st) [add_result];
    Some (mkStatics (k_a st) (k_b st) intr (S (k_count st)))) st.

(** [example/example_oob/src/kernels/one_input.cc:113-113] [window of results full] *)
Definition results_full (_ : nat) (st : statics) : bool := (k_count st =? WIN_SIZE)%nat.

(** [example/example_oob/src/kernels/one_input.cc:120-129] [write and clear the results] *)
Definition write_results (st : statics) : option (statics * list Z) :=
  '(intr, out) ← drain_into VECTOR_LENGTH (WIN_SIZE / VECTOR_LENGTH) (k_intr st);
  Some (mkStatics (k_a st) (k_b st) intr 0, out).

(** [example/example_oob/src/kernels/one_input.cc:48-49] [window to window] *)
Definition copy_vectors (win : list Z) : option (list Z) :=
  copy_window VECTOR_LENGTH (WIN_SIZE / VECTOR_LENGTH) win.

(** The first kernel of a row.
    [example/example_oob/src/kernels/one_input.cc:12-138] [OneInput] *)
Definition OneInput (coreid : Z) (dataIn dataOut result : chan) (st : statics) (k : statics -> proc) : proc :=
  for_ (NUM_A_ELMNTS_PER_TILE / WIN_SIZE) 0 (fun i st k =>
    AcqIn dataIn (fun w => opt (read_a i w st) (fun st => RelIn dataIn (k st)))) st (fun st =>
  for_ (stripes_behind coreid) 0 (fun _ st k =>
    AcqOut dataOut (AcqIn dataIn (fun w => opt (copy_vectors w) (fun o =>
      RelIn dataIn (window_release WIN_SIZE dataOut o (k st)))))) st (fun st =>
  for_ NUM_COLS 0 (fun i st k =>
    for_ (NUM_COLS / WIN_SIZE) 0 (fun w st k =>
      AcqOut dataOut (AcqIn dataIn (fun win => opt (read_b_on 0 w win st) (fun '(st, o) =>
        RelIn dataIn (window_release WIN_SIZE dataOut o (k st)))))) st (fun st =>
    opt (multiply_column i st) (fun st =>
    if results_full i st then
      AcqOut result (opt (write_results st) (fun '(st, o) => window_release WIN_SIZE result o (k st)))
    else k st))) st k)).

(** A middle kernel: it passes on the results of the cores before it.
    [example/example_oob/src/kernels/two_inputs.cc:13-150] [TwoInputs] *)
Definition TwoInputs (coreid : Z) (dataIn bypassResult dataOut result : chan) (st : statics)
    (k : statics -> proc) : proc :=
  for_ (NUM_A_ELMNTS_PER_TILE / WIN_SIZE) 0 (fun i st k =>
    AcqIn dataIn (fun w => opt (read_a i w st) (fun st => RelIn dataIn (k st)))) st (fun st =>
  for_ (stripes_behind coreid) 0 (fun _ st k =>
    AcqOut dataOut (AcqIn dataIn (fun w => opt (copy_vectors w) (fun o =>
      RelIn dataIn (window_release WIN_SIZE dataOut o (k st)))))) st (fun st =>
  for_ NUM_COLS 0 (fun i st k =>
    for_ (NUM_COLS / WIN_SIZE) 0 (fun w st k =>
      AcqOut dataOut (AcqIn dataIn (fun win => opt (read_b_on 0 w win st) (fun '(st, o) =>
        RelIn dataIn (window_release WIN_SIZE dataOut o (k st)))))) st (fun st =>
    opt (multiply_column i st) (fun st =>
    if results_full i st then
      for_ (Z.to_nat (currentCol coreid)) 0 (fun _ st k =>
        AcqOut result (AcqIn bypassResult (fun w => opt (copy_vectors w) (fun o =>
          RelIn bypassResult (window_release WIN_SIZE result o (k st)))))) st (fun st =>
      AcqOut result (opt (write_results st) (fun '(st, o) => window_release WIN_SIZE result o (k st))))
    else k st))) st k)).

(** The last kernel: there is no core behind it to pass operands to.
    [example/example_oob/src/kernels/one_output.cc:12-133] [OneOutput] *)
Definition OneOutput (coreid : Z) (dataIn bypassResult result : chan) (st : statics)
    (k : statics -> proc) : proc :=
  for_ (NUM_A_ELMNTS_PER_TILE / WIN_SIZE) 0 (fun i st k =>
    AcqIn dataIn (fun w => opt (read_a i w st) (fun st => RelIn dataIn (k st)))) st (fun st =>
  for_ NUM_COLS 0 (fun i st k =>
    for_ (NUM_COLS / WIN_SIZE) 0 (fun w st k =>
      AcqIn dataIn (fun win => opt (read_b_last 0 w win st) (fun st => RelIn dataIn (k st)))) st (fun st =>
    opt (multiply_column i st) (fun st =>
    if results_full i st then
      for_ (Z.to_nat (currentCol coreid)) 0 (fun _ st k =>
        AcqOut result (AcqIn bypassResult (fun w => opt (copy_vectors w) (fun o =>
          RelIn bypassResult (window_release WIN_SIZE result o (k st)))))) st (fun st =>
      AcqOut result (opt (write_results st) (fun '(st, o) => window_release WIN_SIZE result o (k st))))
    else k st))) st k).

(** The kernel at column [c] of a row and its connections.
    [example/example_oob/src/graph.h:25-48] [ConnectSystolicArray_Row_LToR] *)
Definition ConnectSystolicArray_Row_LToR (coreid : nat -> Z) (c : nat) : statics -> (statics -> proc) -> proc :=
  if (c =? 0)%nat then OneInput (coreid c) (Data, c) (Data, S c) (Result, S c)
  else if (c <? NUM_HW_COLS - 1)%nat then
    TwoInputs (coreid c) (Data, c) (Result, c) (Data, S c) (Result, S c)
  else OneOutput (coreid c) (Data, c) (Result, c) (Result, S c).

(** ** Their common shape *)

Definition oob_core : bool -> nat -> nat -> chan -> chan -> chan -> chan -> statics -> (statics -> proc) -> proc :=
  core (NUM_A_ELMNTS_PER_TILE / WIN_SIZE) 1 (NUM_COLS / WIN_SIZE) NUM_COLS WIN_SIZE read_a read_b_on read_b_last
    copy_vectors copy_vectors multiply_column results_full write_results.

Lemma OneInput_shape coreid din byp dout res st k :
  OneInput coreid din dout res st k = oob_core true (stripes_behind coreid) 0 din byp dout res st k.
Proof. reflexivity. Qed.

Lemma TwoInputs_shape coreid din byp dout res st k :
  TwoInputs coreid din byp dout res st k
    = oob_core true (stripes_behind coreid) (Z.to_nat (currentCol coreid)) din byp dout res st k.
Proof. reflexivity. Qed.

Lemma OneOutput_shape coreid din byp dout res st k :
  OneOutput coreid din byp res st k = oob_core false 0 (Z.to_nat (currentCol coreid)) din byp dout res st k.
Proof. reflexivity. Qed.
End Kernels.

(** * A row of cores *)

Section Row.
Context {cfg : OobConfig} {ok : OobConfigOk} {vu : VectorUnit} {vuok : VectorUnitSpec}.
(** The identifier of a core has its column in bits 16 to 22. *)
Context (coreid : nat -> Z).
Hypothesis coreid_column : forall c, (c < NUM_HW_COLS)%nat -> currentCol (coreid c) = Z.of_nat c.

Local Notation NA := (NUM_A_ELMNTS_PER_TILE / WIN_SIZE)%nat.
Local Notation NW := (NUM_COLS / WIN_SIZE)%nat.
Local Notation RPT := NUM_ROWS_PER_TILE.
Local Notation CPW := columns_per_window.

Lemma stripes_behind_count c : (c < NUM_HW_COLS)%nat ->
  stripes_behind (coreid c) = (NA * (NUM_HW_COLS - 1 - c))%nat.
Proof using ok coreid_column.
  intros Hc. unfold stripes_behind. rewrite coreid_column by done.
  assert (H1 := cols_bound). assert (H2 := elements_bound). assert (H3 := tile_windows). assert (H4 := win_pos).
  rewrite (wrap_u_small 32 (Z.of_nat NUM_HW_COLS - Z.of_nat c - 1)) by lia.
  replace (Z.of_nat NUM_HW_COLS - Z.of_nat c - 1) with (Z.of_nat (NUM_HW_COLS - 1 - c)) by lia.
  rewrite <- Nat2Z.inj_mul, wrap_u_small by nia. rewrite <- Nat2Z.inj_div, Nat2Z.id.
  rewrite H3 at 1. rewrite <- Nat.mul_assoc, (Nat.mul_comm WIN_SIZE), Nat.mul_assoc.
  by rewrite Nat.div_mul by lia.
Qed.

(** Every kernel of the row has the common shape. *)
Lemma row_shape c st k : (c < NUM_HW_COLS)%nat ->
  ConnectSystolicArray_Row_LToR coreid c st k
  = row_core NA 1 NW NUM_COLS WIN_SIZE read_a read_b_on read_b_last copy_vectors copy_vectors
      multiply_column results_full write_results NUM_HW_COLS c st k.
Proof using ok coreid_column.
  intros Hc. assert (H2 := cols_two). unfold ConnectSystolicArray_Row_LToR, row_core.
  assert (Hcol : Z.to_nat (currentCol (coreid c)) = c) by (rewrite coreid_column by done; lia).
  destruct (Nat.eqb_spec c 0) as [->|H0]; [|destruct (Nat.ltb_spec c (NUM_HW_COLS - 1))].
  - rewrite bool_decide_true by lia. rewrite (OneInput_shape _ _ (Result, 0%nat)).
    by rewrite stripes_behind_count by lia.
  - rewrite bool_decide_true by lia. rewrite TwoInputs_shape, Hcol. by rewrite stripes_behind_count by lia.
  - rewrite bool_decide_false by lia. rewrite (OneOutput_shape _ _ _ (Data, S c)), Hcol.
    by replace (NUM_HW_COLS - 1 - c)%nat with 0%nat by lia; rewrite Nat.mul_0_r.
Qed.

(** ** Array operations on whole windows *)

Lemma win_length : (WIN_SIZE / VECTOR_LENGTH * VECTOR_LENGTH = WIN_SIZE)%nat.
Proof using ok. symmetry. apply win_vectors. Qed.

Lemma read_a_window i win st : length win = WIN_SIZE -> (i * WIN_SIZE + WIN_SIZE <= length (k_a st))%nat ->
  read_a i win st = Some (mkStatics (splice (k_a st) (i * WIN_SIZE) win) (k_b st) (k_intr st) (k_count st)).
Proof using ok.
  intros Hw Ha. unfold read_a. by rewrite read_into_window by (rewrite win_length; lia).
Qed.

Lemma read_b_last_window nn w win st : length win = WIN_SIZE -> (w * WIN_SIZE + WIN_SIZE <= length (k_b st))%nat ->
  read_b_last nn w win st = Some (mkStatics (k_a st) (splice (k_b st) (w * WIN_SIZE) win) (k_intr st) (k_count st)).
Proof using ok.
  intros Hw Hb. unfold read_b_last. by rewrite read_into_window by (rewrite win_length; lia).
Qed.

Lemma read_b_on_window nn w win st : length win = WIN_SIZE -> (w * WIN_SIZE + WIN_SIZE <= length (k_b st))%nat ->
  read_b_on nn w win st
    = Some (mkStatics (k_a st) (splice (k_b st) (w * WIN_SIZE) win) (k_intr st) (k_count st), win).
Proof using ok.
  intros Hw Hb. unfold read_b_on. set (V := VECTOR_LENGTH). set (b := k_b st) in *.
  set (off := (w * WIN_SIZE)%nat) in *. assert (HV := win_length). fold V in HV.
  rewrite (loop_states (fun i => (splice b off (take (i * V) win), (i * V)%nat, take (i * V) win)) (WIN_SIZE / V)).
  - cbn [mbind option_bind]. by rewrite HV, take_ge by lia.
  - cbn. by rewrite take_0, splice_nil.
  - intros i Hi. assert (i * V + V <= WIN_SIZE)%nat by nia.
    unfold window_readincr_v.
    assert (Hl : length (take (i * V) win) = (i * V)%nat) by (rewrite length_take; lia).
    assert (Hv : length (take V (drop (i * V) win)) = V) by (rewrite length_take, length_drop; lia).
    rewrite (load_v_ok V win) by lia. cbn [mbind option_bind].
    rewrite store_v_ok by (rewrite length_splice; lia). cbn [mbind option_bind].
    assert (Hs := splice_splice b off (take (i * V) win) (take V (drop (i * V) win))).
    rewrite Hl, Hv in Hs. rewrite Hs by lia. rewrite take_take_drop.
    replace (i * V + V)%nat with (S i * V)%nat by lia.
    assert (Hl' : length (take (S i * V) win) = (S i * V)%nat) by (rewrite length_take; lia).
    rewrite load_v_ok by (rewrite length_splice; lia). cbn [mbind option_bind].
    enough (He : take V (drop (off + i * V) (splice b off (take (S i * V) win))) = take V (drop (i * V) win)).
    { rewrite He, take_take_drop. by replace (i * V + V)%nat with (S i * V)%nat by lia. }
    apply list_eq. intros j. destruct (decide (j < V)%nat) as [Hj|Hj].
    + rewrite !lookup_take_lt, !lookup_drop, splice_lookup by lia. rewrite decide_True by lia.
      rewrite lookup_take_lt by lia. f_equal. lia.
    + by rewrite !lookup_take_ge by lia.
Qed.

Lemma write_results_window st : length (k_intr st) = WIN_SIZE ->
  write_results st = Some (mkStatics (k_a st) (k_b st) (replicate WIN_SIZE 0) 0, k_intr st).
Proof using ok.
  intros Hi. unfold write_results. rewrite drain_into_all by (rewrite win_length; lia). by rewrite win_length.
Qed.

(** ** The inner product *)

Lemma u32_add_l x y : u32 (u32 x + y) = u32 (x + y).
Proof. unfold wrap_u. by rewrite Zplus_mod_idemp_l. Qed.

Lemma u32_add_r x y : u32 (x + u32 y) = u32 (x + y).
Proof. unfold wrap_u. by rewrite Zplus_mod_idemp_r. Qed.

(** The inner product of a row and a column, with the products as the vector unit converts them. *)
Definition inner (row col : list Z) : Z := u32 (zsum (zip_with mul_lane row col)).

Lemma dot_inner a b k : ((k + 1) * NUM_COLS <= length a)%nat -> length b = NUM_COLS ->
  dot a b k = Some (inner (piece NUM_COLS a k) b).
Proof using ok vuok.
  intros Ha Hb. unfold dot, inner. set (V := VECTOR_LENGTH). assert (HV := col_vectors). fold V in HV.
  set (z := zip_with mul_lane (piece NUM_COLS a k) b).
  assert (Hz : length z = NUM_COLS).
  { unfold z. rewrite length_zip_with_l_eq; rewrite length_piece; lia. }
  rewrite (loop_states (fun l => u32 (zsum (take (l * V) z))) (NUM_COLS / V)).
  - rewrite take_ge by lia. done.
  - done.
  - intros l Hl. assert (l * V + V <= NUM_COLS)%nat by nia.
    rewrite (load_v_ok V a) by nia. cbn [mbind option_bind].
    rewrite load_v_ok by lia. cbn [mbind option_bind].
    f_equal. rewrite reduce_add_spec, u32_add_l, u32_add_r, <- zsum_app. do 2 f_equal.
    replace (S l * V)%nat with (l * V + V)%nat by lia. rewrite <- take_take_drop. f_equal.
    unfold z. rewrite drop_zip_with, take_zip_with. f_equal.
    unfold piece. rewrite <- drop_drop. apply list_eq. intros j.
    destruct (decide (j < V)%nat).
    + rewrite !lookup_take_lt, !lookup_drop, lookup_take_lt, lookup_drop by lia. done.
    + by rewrite !lookup_take_ge by lia.
Qed.

Lemma multiply_column_states E g a b intr count : length E = RPT -> length b = NUM_COLS ->
  length a = (RPT * NUM_COLS)%nat -> (count + RPT <= length intr)%nat ->
  (forall k, (k < RPT)%nat -> E !! k = Some (inner (piece NUM_COLS a k) b)) ->
  multiply_column g (mkStatics a b intr count) = Some (mkStatics a b (splice intr count E) (count + RPT)).
Proof using ok vuok.
  intros HE Hb Ha Hc HEk. unfold multiply_column.
  rewrite (loop_states (fun k => mkStatics a b (splice intr count (take k E)) (count + k)) RPT).
  - by rewrite take_ge by lia.
  - by rewrite take_0, splice_nil, Nat.add_0_r.
  - intros k Hk. cbn [k_a k_b k_intr k_count].
    assert (Hl : length (take k E) = k) by (rewrite length_take; lia).
    rewrite dot_inner by nia. cbn [mbind option_bind].
    assert (Hs := splice_splice intr count (take k E) [inner (piece NUM_COLS a k) b]).
    rewrite Hl in Hs. cbn [length] in Hs.
    rewrite store_v_ok by (rewrite length_splice; cbn [length]; lia).
    cbn [mbind option_bind]. rewrite Hs by lia. do 2 f_equal; [|lia].
    f_equal. symmetry. apply take_S_r. by apply HEk.
Qed.

Lemma tile_split : (NA * WIN_SIZE = RPT * NUM_COLS)%nat.
Proof using ok. rewrite <- tile_elements. symmetry. apply tile_windows. Qed.

Lemma chunk_split : MAT_A_CHUNK = (NUM_HW_COLS * (RPT * NUM_COLS))%nat.
Proof using ok. unfold MAT_A_CHUNK. rewrite row_tiles. lia. Qed.

Lemma col_split : (NW * WIN_SIZE = NUM_COLS)%nat.
Proof using ok. symmetry. apply col_windows. Qed.

Lemma panel_split : NUM_ELMNTS = (NUM_COLS * NUM_COLS)%nat.
Proof. reflexivity. Qed.

Lemma cpw_pos : (0 < CPW)%nat.
Proof using ok. assert (H := win_columns). assert (H' := win_pos). nia. Qed.

Lemma nw_pos : (0 < NW)%nat.
Proof using ok.
  assert (H := col_split). assert (H1 := cols_pos). destruct NW; [|lia]. cbn in H. lia.
Qed.

(** ** A row, call after call *)

(** The statics before and after the arithmetic of column [g], from the arrays: the counter is the
    number of results gathered. *)
Definition mk_statics (a b intr : list Z) (_ : unit) (g : nat) : statics := mkStatics a b intr (g mod CPW * RPT).
Definition mk_computed (a b intr : list Z) (_ : unit) (g : nat) : statics :=
  mkStatics a b intr (g mod CPW * RPT + RPT).

(** The row before it starts, with the operands of [T] iterations: [chunk t] has the rows of the left
    operand that go to this row of the array, [panel t] the columns of the right one. *)
Definition oob_start (cap : chan -> nat) (T : nat) (chunk panel : nat -> list Z) : network :=
  session_start NUM_HW_COLS NA 1 NW NUM_COLS WIN_SIZE mk_statics (ConnectSystolicArray_Row_LToR coreid) cap T chunk panel (replicate NUM_A_ELMNTS_PER_TILE 0)
    (replicate NUM_COLS 0) (replicate WIN_SIZE 0) tt.

Lemma results_one a b : block_results 1 RPT NUM_COLS inner a b
  = map (fun k => inner (piece NUM_COLS a k) (piece NUM_COLS b 0)) (seq 0 RPT).
Proof. unfold block_results. cbn [seq map concat]. apply app_nil_r. Qed.

Lemma column_computed g a b intr h : length a = (RPT * NUM_COLS)%nat -> length b = NUM_COLS ->
  length intr = WIN_SIZE ->
  multiply_column g (mk_statics a b intr h g)
    = Some (mk_computed a b (splice intr (g mod CPW * (1 * RPT)) (block_results 1 RPT NUM_COLS inner a b)) tt g).
Proof using ok vuok.
  intros Ha Hb Hi. assert (Hm := mod_room CPW RPT cpw_pos g). assert (Hw := win_columns).
  unfold mk_statics, mk_computed. rewrite Nat.mul_1_l.
  apply multiply_column_states; [by rewrite results_one, length_map, length_seq|done|done|lia|].
  intros k Hk. rewrite results_one, list_lookup_fmap, lookup_seq_lt by done.
  assert (Hp : piece NUM_COLS b 0 = b) by (unfold piece; cbn; rewrite drop_0; apply take_ge; lia).
  cbn [fmap option_fmap option_map Nat.add]. by rewrite Hp.
Qed.

Lemma column_full g a b intr h : results_full g (mk_computed a b intr h g) = window_full CPW g.
Proof using ok.
  unfold results_full, mk_computed. cbn [k_count].
  assert (Hf := window_full_spec CPW cpw_pos g). assert (Hw := win_columns). assert (Hr := tile_rows_pos).
  assert (Hm := Nat.mod_upper_bound g CPW ltac:(assert (H := cpw_pos); lia)).
  destruct (Nat.eqb_spec (g mod CPW * RPT + RPT) WIN_SIZE) as [He|He];
    destruct (window_full CPW g) eqn:E; try done; exfalso.
  - assert (g mod CPW <> CPW - 1)%nat by (intros H; apply Hf in H; congruence). nia.
  - apply He. rewrite Hw, (proj1 Hf eq_refl). nia.
Qed.

Lemma column_drained g a b intr h : length intr = WIN_SIZE ->
  if window_full CPW g
  then write_results (mk_computed a b intr h g) = Some (mk_statics a b (replicate WIN_SIZE 0) h (S g), intr)
  else mk_statics a b intr h (S g) = mk_computed a b intr h g.
Proof using ok.
  intros Hi. destruct (window_full CPW g) eqn:Hf.
  - rewrite write_results_window by done. unfold mk_statics. unfold window_full in Hf. apply Nat.eqb_eq in Hf.
    by rewrite Hf.
  - unfold mk_statics, mk_computed. f_equal. rewrite not_full_next by (done || apply cpw_pos). lia.
Qed.

Lemma row_computes_all cap T chunk panel :
  (forall t, (t < T)%nat -> length (chunk t) = MAT_A_CHUNK /\ length (panel t) = NUM_ELMNTS) ->
  exists total, forall l s, play l (oob_start cap T chunk panel) = Some s ->
    (length l <= total)%nat /\ (exists rest f, play rest s = Some f /\ halted f) /\
    (halted s -> exists out, collected NUM_HW_COLS s = Some out /\ length out = (T * MAT_A_CHUNK)%nat /\
      forall t i c m k, (t < T)%nat -> (i < NUM_COLS / CPW)%nat -> (c < NUM_HW_COLS)%nat -> (m < CPW)%nat ->
        (k < RPT)%nat ->
        out !! (t * MAT_A_CHUNK + (i * (NUM_HW_COLS * WIN_SIZE) + (c * WIN_SIZE + (m * RPT + k))))%nat
          = Some (inner (piece NUM_COLS (chunk t) (c * RPT + k)) (piece NUM_COLS (panel t) (i * CPW + m)))).
Proof.
  intros Hlen. rewrite chunk_split.
  assert (HC : NUM_COLS = (NUM_COLS * 1)%nat) by lia.
  assert (H := row_product NUM_HW_COLS NA 1 1 NW NUM_COLS WIN_SIZE RPT NUM_COLS CPW
    ltac:(assert (H := cols_two); lia) ltac:(lia) nw_pos cpw_pos win_pos tile_split
    ltac:(rewrite Nat.mul_1_l, Nat.mul_1_l; apply col_split) ltac:(rewrite Nat.mul_1_l; symmetry; apply win_columns)
    full_windows ltac:(lia) mk_statics mk_computed (fun _ => True) (fun _ => True) inner (fun _ _ _ => tt)
    read_a read_b_on read_b_last copy_vectors copy_vectors multiply_column results_full write_results
    (ConnectSystolicArray_Row_LToR coreid)).
  rewrite Nat.mul_1_r in H. unfold oob_start. apply H; clear H.
  - intros x w a sb intr h Hw Ha. unfold mk_statics. by rewrite read_a_window.
  - intros nn w win a sb intr h g Hnn _ Hw Hs. assert (nn = 0%nat) as -> by lia. cbn [Nat.mul Nat.add] in *.
    unfold mk_statics. by rewrite read_b_on_window, read_b_last_window.
  - intros g a blk intr h Hg Ha Hb Hi _ _ _. split; [|done]. apply column_computed; [done|lia|done].
  - intros. apply column_full.
  - intros. by apply column_drained.
  - intros a sb intr h. unfold mk_statics. rewrite full_windows, Nat.Div0.mod_mul.
    by rewrite Nat.Div0.mod_0_l.
  - intros w Hw. assert (copy_vectors w = Some w) by (apply copy_window_id; by rewrite win_length). done.
  - intros c st k Hc. by apply row_shape.
  - rewrite length_replicate. apply tile_elements.
  - rewrite length_replicate. lia.
  - apply length_replicate.
  - done.
  - intros t Ht. destruct (Hlen t Ht) as [H1 H2]. rewrite <- chunk_split. split_and!; [done| |by apply Forall_true..].
    rewrite H2, panel_split. lia.
Qed.

(** C15: for any number of calls, operands, buffers per connection and any interleaving of the cores:
    no schedule is longer than a fixed number of moves, every schedule can be continued until all
    cores have finished, so no core waits for ever and none leaves an array, and when no core can
    move the collector holds, call after call, the inner products of the rows and columns in the
    order of the host's check. *)
Theorem row_computes cap T chunk panel :
  (forall t, (t < T)%nat -> length (chunk t) = MAT_A_CHUNK /\ length (panel t) = NUM_ELMNTS) ->
  exists total, forall l s, play l (oob_start cap T chunk panel) = Some s ->
    (length l <= total)%nat /\ (exists rest f, play rest s = Some f /\ halted f) /\
    (halted s -> exists out, collected NUM_HW_COLS s = Some out /\ length out = (T * MAT_A_CHUNK)%nat /\
      forall t i c m k, (t < T)%nat -> (i < NUM_COLS / CPW)%nat -> (c < NUM_HW_COLS)%nat -> (m < CPW)%nat ->
        (k < RPT)%nat ->
        out !! (t * MAT_A_CHUNK + (i * (NUM_HW_COLS * WIN_SIZE) + (c * WIN_SIZE + (m * RPT + k))))%nat
          = Some (inner (piece NUM_COLS (chunk t) (c * RPT + k)) (piece NUM_COLS (panel t) (i * CPW + m)))).
Proof.
  intros Hlen. apply row_computes_all. exact Hlen.
Qed.

(** Where the products are representable the inner product is that of the integers, modulo 2^32. *)
Lemma inner_exact row col : Forall2 (fun x y => 0 <= x * y < 2 ^ 32) row col ->
  inner row col = u32 (zsum (zip_with Z.mul row col)).
Proof using vuok.
  intros H. unfold inner. do 2 f_equal. induction H as [|x y row col Hxy _ IH]; cbn [zip_with]; [done|].
  by rewrite mul_lane_exact, IH.
Qed.
End Row.

(** * Instances *)

Module OobDemo.

(** A vector unit that truncates products. *)
Definition unit : VectorUnit := {| mul_lane x y := u32 (x * y); reduce_add v := u32 (zsum v) |}.

Lemma unit_ok : @VectorUnitSpec unit.
Proof. constructor; [|done]. intros x y H. by apply wrap_u_small. Qed.

(** Core identifiers of a row. *)
Definition ids (c : nat) : Z := Z.shiftl (Z.of_nat c) 16 + 3.

Lemma ids_column cols c : (cols <= 128)%nat -> (c < cols)%nat -> currentCol (ids c) = Z.of_nat c.
Proof.
  intros Hn Hc. assert (H : forallb (fun c => currentCol (ids c) =? Z.of_nat c) (seq 0 128) = true)
    by (vm_compute; reflexivity).
  rewrite forallb_forall in H. apply Z.eqb_eq, H, in_seq. lia.
Qed.

(** The smallest array of the right shape: one row of two cores, matrices of 16 rows. *)
Definition small : OobConfig := {| NUM_HW_COLS := 2; NUM_HW_ROWS := 1; MAT_SIZE := 16; WIN_SIZE := 16 |}.

Lemma small_ok : OobConfigOk (cfg := small).
Proof. config_ok. Qed.

(** Two orders of the same network, with one and with two buffers per connection: the last core sees the
    same product. *)
Definition numbers (n : nat) : list Z := map (fun i => (Z.of_nat i * 7) mod 11) (seq 0 n).

Definition finished (cap : nat) (order : list nat) : option (list Z) :=
  collected 2 (in_turns 2000 order (@oob_start small unit ids (fun _ => cap) 1
    (fun _ => numbers 256) (fun _ => numbers 256))).

Example order_does_not_matter :
  finished 0 [0; 1; 2; 3]%nat = finished 1 [3; 2; 1; 0; 3]%nat /\
  (finished 1 [3; 2; 1; 0; 3]%nat ≫= (fun out => out !! 37%nat)) =
    Some (zsum (zip_with Z.mul (piece 16 (numbers 256) 5) (piece 16 (numbers 256) 2))).
Proof. split; vm_compute; reflexivity. Qed.
End OobDemo.

Lemma row_computes_witness :
  exists total, forall l s,
    play l (@oob_start (config_aie2ps false) OobDemo.unit OobDemo.ids (fun _ => 1%nat) 2
      (fun _ => replicate (@MAT_A_CHUNK (config_aie2ps false)) 3)
      (fun _ => replicate (@NUM_ELMNTS (config_aie2ps false)) 5)) = Some s ->
    (length l <= total)%nat /\ (exists rest f, play rest s = Some f /\ halted f).
Proof.
  destruct (@row_computes (config_aie2ps false) (config_aie2ps_ok false) OobDemo.unit OobDemo.unit_ok
    OobDemo.ids (fun c => OobDemo.ids_column 36 c ltac:(lia)) (fun _ => 1%nat) 2
    (fun _ => replicate (@MAT_A_CHUNK (config_aie2ps false)) 3)
    (fun _ => replicate (@NUM_ELMNTS (config_aie2ps false)) 5)) as [total H].
  - intros t _. split; apply length_replicate.
  - exists total. intros l s Hl. destruct (H l s Hl) as (H1 & H2 & _). split; [exact H1|exact H2].
Defined.
