(* ===== verification/OobHost.v ===== *)
(** The host programs of the matrix multiplication example ([example/example_oob/src/graph.cpp] and
    [graph_new_api.cpp]).

    The program of [graph.cpp] fills two matrices, sends to every row of the array its part of the
    first and the whole of the second, and compares what comes back, which is in the order of the
    array, with the product the host computes.  [oob_test_passes] is the end-to-end statement: with
    the rows of Oob.v in between, under every interleaving, the comparison succeeds on every
    configuration those kernels allow, all shipped ones but that of the first AIE generation among them.  The array multiplies by the transpose of the matrix it is sent
    ([array_multiplies_by_transpose]); the test cannot notice, since its second matrix is constant.

    The second program ([graph_new_api.cpp]) gives each row of the array its own part of the second
    matrix as if it were the whole: all transfers but the first read past the end of the buffer
    ([new_api_reads_past_end]).  Its validation does not compare with a product ([validation_accepts]). *)
From stdpp Require Import base list gmap.
From Stdlib Require Import ZArith Lia.
From S2P Require Import Prelude Windows.
From S2P Require Import Chain Core Tiles RowProduct Oob.
Local Open Scope Z_scope.

Section Host.
Context {cfg : OobConfig}.

(** * [graph.cpp] *)

(** Matrices are stored row by row.
    [example/example_oob/src/graph.cpp:119-124] [input_a, input_b, output_aie, output_cpu] *)
Definition matrix (f : nat -> nat -> Z) : list Z :=
  flat_map (fun i => map (f i) (seq 0 NUM_COLS)) (seq 0 NUM_ROWS).

(** [example/example_oob/src/graph.cpp:128-131] [input_a] *)
Definition input_a (i j : nat) : Z :=
  let value := Z.of_nat (i * NUM_COLS + j) mod 10 in if value =? 0 then 1 else value.

(** [example/example_oob/src/graph.cpp:132-132] [input_b] *)
Definition input_b (_ _ : nat) : Z := 1.

(** What row [r] of the array is sent: its rows of the first matrix and the whole second one.
    [example/example_oob/src/graph.cpp:138-142] [input_a_hw_rows]
    *)
Definition input_a_hw_rows (a : nat -> nat -> Z) (r : nat) : list Z := piece MAT_A_CHUNK (matrix a) r.

(** [example/example_oob/src/graph.cpp:155-165] [gm2aie_nb] *)
Definition transfers (a b : nat -> nat -> Z) : list (nat * list Z * list Z) :=
  map (fun i => (i, input_a_hw_rows a i, matrix b)) (seq 0 NUM_HW_ROWS).

(** [example/example_oob/src/graph.cpp:194-196] [output_cpu] *)
Definition output_cpu (a b : nat -> nat -> Z) (i j : nat) : Z :=
  fold_left (fun s k => s32 (s + s32 (a i k * b k j))) (seq 0 NUM_COLS) 0.

(** [example/example_oob/src/graph.cpp:207-207] [dst_row] *)
Definition dst_row (j k l : nat) : nat := j * NUM_ROWS_PER_HW_ROW + k * NUM_ROWS_PER_TILE + l.

(** [example/example_oob/src/graph.cpp:208-208] [dst_col] *)
Definition dst_col (i m : nat) : nat := i * (WIN_SIZE / NUM_ROWS_PER_TILE) + m.

(** [example/example_oob/src/graph.cpp:209-209] [src_idx] *)
Definition src_idx (i j k m l : nat) : nat :=
  j * MAT_A_CHUNK + i * NUM_ROWS_PER_HW_ROW * (WIN_SIZE / NUM_ROWS_PER_TILE) + k * WIN_SIZE
  + m * NUM_ROWS_PER_TILE + l.

(** The comparison, with the first mismatch ending it; the words of the array are read as [int].
    [example/example_oob/src/graph.cpp:202-228] [main] *)
Definition check (a b : nat -> nat -> Z) (src : list Z) : Z :=
  if forallb (fun i => forallb (fun j => forallb (fun k => forallb (fun m => forallb (fun l =>
       match src !! src_idx i j k m l with
       | Some v => s32 v =? output_cpu a b (dst_row j k l) (dst_col i m)
       | None => false
       end)
     (seq 0 NUM_ROWS_PER_TILE)) (seq 0 (WIN_SIZE / NUM_ROWS_PER_TILE))) (seq 0 NUM_HW_COLS))
     (seq 0 NUM_HW_ROWS)) (seq 0 (NUM_COLS / (WIN_SIZE / NUM_ROWS_PER_TILE)))
  then 0 else -1.

(** ** Facts *)

Lemma matrix_length f : length (matrix f) = NUM_ELMNTS.
Proof.
  unfold matrix, NUM_ELMNTS.
  enough (H : forall n a, length (flat_map (fun i => map (f i) (seq 0 NUM_COLS)) (seq a n)) = (n * NUM_COLS)%nat)
    by apply H.
  induction n as [|n IH]; intros a; cbn [seq flat_map]; [done|].
  rewrite length_app, IH, length_map, length_seq. lia.
Qed.

Lemma matrix_row f i : (i < NUM_ROWS)%nat -> piece NUM_COLS (matrix f) i = map (f i) (seq 0 NUM_COLS).
Proof.
  intros Hi. apply list_eq. intros j. unfold matrix. rewrite flat_map_concat_map.
  destruct (decide (j < NUM_COLS)%nat) as [Hj|Hj].
  - rewrite piece_lookup by done. rewrite (concat_lookup _ NUM_COLS); [done| |done|done].
    intros. by rewrite length_map, length_seq.
  - rewrite !lookup_ge_None_2; [done|rewrite length_map, length_seq; lia|].
    unfold piece. rewrite length_take. lia.
Qed.

Context {ok : OobConfigOk}.

Lemma chunk_of_matrix a r : (r < NUM_HW_ROWS)%nat -> length (input_a_hw_rows a r) = MAT_A_CHUNK.
Proof.
  intros Hr. unfold input_a_hw_rows. apply length_piece. rewrite matrix_length.
  unfold NUM_ELMNTS, MAT_A_CHUNK. assert (Ha := array_rows).
  assert ((r + 1) * NUM_ROWS_PER_HW_ROW <= NUM_ROWS)%nat by nia.
  rewrite Nat.mul_assoc. by apply Nat.mul_le_mono_r.
Qed.

(** A sum that stays small is the same in [int], in unsigned words and in the integers. *)
Lemma fold_sum (f : nat -> Z) B : (forall k, 0 <= f k <= B) -> forall l s, 0 <= s ->
  s + B * Z.of_nat (length l) < 2 ^ 31 ->
  fold_left (fun s k => s32 (s + s32 (f k))) l s = s + zsum (map f l).
Proof.
  intros Hf. induction l as [|k l IH]; intros s Hs Hb; cbn [fold_left map zsum foldr length] in *; [lia|].
  assert (Hk := Hf k). assert (0 <= B * Z.of_nat (length l)) by nia.
  rewrite Nat2Z.inj_succ, Z.mul_succ_r in Hb.
  rewrite (wrap_s_small 32 (f k)) by (cbn; lia). rewrite (wrap_s_small 32 (s + f k)) by (cbn; lia).
  rewrite IH by lia. unfold zsum. lia.
Qed.

Lemma zip_map (f g : nat -> Z) l : zip_with Z.mul (map f l) (map g l) = map (fun k => f k * g k) l.
Proof. induction l as [|k l IH]; cbn; [done|]. by rewrite IH. Qed.

(** * The array between the two halves of the program *)

Context {vu : VectorUnit} {vuok : VectorUnitSpec}.
Context (coreid : nat -> nat -> Z) (cap : nat -> chan -> nat).
Hypothesis coreid_column : forall r c, (c < NUM_HW_COLS)%nat -> currentCol (coreid r c) = Z.of_nat c.

(** Every row has run, in some interleaving of its cores, until none of them can move; [outs r] is what
    row [r] has written to its part of the output. *)
Definition row_network (a b : nat -> nat -> Z) (r : nat) : network :=
  oob_start (coreid r) (cap r) 1 (fun _ => input_a_hw_rows a r) (fun _ => matrix b).

Definition array_done (a b : nat -> nat -> Z) : (nat -> list Z) -> Prop :=
  all_collected NUM_HW_ROWS NUM_HW_COLS (row_network a b).

Definition output_memory (outs : nat -> list Z) : list Z := concat (map outs (seq 0 NUM_HW_ROWS)).

(** The entries of the product in the order of the host. *)
Definition row_entries (a b : nat -> nat -> Z) (r : nat) (out : list Z) : Prop :=
  length out = MAT_A_CHUNK /\
  forall i k m l, (i < NUM_COLS / columns_per_window)%nat -> (k < NUM_HW_COLS)%nat ->
    (m < columns_per_window)%nat -> (l < NUM_ROWS_PER_TILE)%nat ->
    out !! (i * (NUM_HW_COLS * WIN_SIZE) + (k * WIN_SIZE + (m * NUM_ROWS_PER_TILE + l)))%nat
      = Some (inner (piece NUM_COLS (input_a_hw_rows a r) (k * NUM_ROWS_PER_TILE + l))
                (piece NUM_COLS (matrix b) (i * columns_per_window + m))).

Lemma row_finishes a b r : (r < NUM_HW_ROWS)%nat ->
  (exists l s out, play l (row_network a b r) = Some s /\ halted s /\ collected NUM_HW_COLS s = Some out) /\
  (forall l s out, play l (row_network a b r) = Some s -> halted s -> collected NUM_HW_COLS s = Some out ->
     row_entries a b r out).
Proof.
  intros Hr. destruct (row_computes_all (coreid r) (coreid_column r) (cap r) 1 (fun _ => input_a_hw_rows a r)
    (fun _ => matrix b) (fun _ _ => conj (chunk_of_matrix a r Hr) (matrix_length b))) as [total H].
  split.
  - destruct (H [] (row_network a b r) eq_refl) as (_ & (rest & f & Hf & Hh) & _).
    destruct (H rest f Hf) as (_ & _ & Ho). destruct (Ho Hh) as (out & Hc & _). by exists rest, f, out.
  - intros l s out Hl Hh Hc. destruct (H l s Hl) as (_ & _ & Ho). destruct (Ho Hh) as (out' & Hc' & Hlen & He).
    rewrite Hc in Hc'. simplify_eq. split; [lia|]. intros i k m x Hi Hk Hm Hx.
    exact (He 0%nat i k m x ltac:(lia) Hi Hk Hm Hx).
Qed.

Lemma array_ends a b : always_ends NUM_HW_ROWS NUM_HW_COLS (row_network a b).
Proof.
  intros r Hr. destruct (row_computes_all (coreid r) (coreid_column r) (cap r) 1 (fun _ => input_a_hw_rows a r)
    (fun _ => matrix b) (fun _ _ => conj (chunk_of_matrix a r Hr) (matrix_length b))) as [total H].
  exists total. intros l s Hl. destruct (H l s Hl) as (H1 & H2 & Ho). split; [done|]. split; [done|].
  intros Hh. destruct (Ho Hh) as (out & Hc & _). by exists out.
Qed.

Lemma array_finishes a b : exists outs, array_done a b outs.
Proof. apply all_collected_exists. intros r Hr. by apply row_finishes. Qed.

Lemma array_entries a b outs r : array_done a b outs -> (r < NUM_HW_ROWS)%nat -> row_entries a b r (outs r).
Proof.
  intros H Hr. destruct (H r Hr) as (l & s & Hl & Hs & Hc).
  destruct (row_finishes a b r Hr) as [_ Hf]. by eapply Hf.
Qed.

(** The word at the place the host looks for entry [dst_row], [dst_col]. *)
Lemma output_word a b outs i j k m l : array_done a b outs ->
  (i < NUM_COLS / columns_per_window)%nat -> (j < NUM_HW_ROWS)%nat -> (k < NUM_HW_COLS)%nat ->
  (m < columns_per_window)%nat -> (l < NUM_ROWS_PER_TILE)%nat ->
  output_memory outs !! src_idx i j k m l
    = Some (inner (map (a (dst_row j k l)) (seq 0 NUM_COLS)) (map (b (dst_col i m)) (seq 0 NUM_COLS))).
Proof.
  intros Hd Hi Hj Hk Hm Hl. assert (Ho := fun r => array_entries a b outs r Hd).
  assert (Hw := win_columns). assert (Hrt := row_tiles). assert (Har := array_rows). assert (Hf := full_windows).
  assert (Hlen : forall r, (r < NUM_HW_ROWS)%nat -> length (outs r) = MAT_A_CHUNK) by (intros r Hr; by apply Ho).
  assert (Hmr : (m * NUM_ROWS_PER_TILE + l < WIN_SIZE)%nat) by nia.
  assert (Hkr : (k * WIN_SIZE + (m * NUM_ROWS_PER_TILE + l) < NUM_HW_COLS * WIN_SIZE)%nat) by nia.
  assert (Hdc : (dst_col i m < NUM_COLS)%nat) by (unfold dst_col; fold columns_per_window; nia).
  assert (Hdr : (dst_row j k l < NUM_ROWS)%nat) by (unfold dst_row; nia).
  set (x := (i * (NUM_HW_COLS * WIN_SIZE) + (k * WIN_SIZE + (m * NUM_ROWS_PER_TILE + l)))%nat).
  assert (Hrw : (NUM_ROWS_PER_HW_ROW * columns_per_window = NUM_HW_COLS * WIN_SIZE)%nat) by nia.
  assert (Hx : (x < MAT_A_CHUNK)%nat) by (unfold MAT_A_CHUNK; rewrite Hf; unfold x; nia).
  replace (src_idx i j k m l) with (j * MAT_A_CHUNK + x)%nat
    by (unfold src_idx, x; fold columns_per_window; rewrite <- Nat.mul_assoc, Hrw; lia).
  unfold output_memory. rewrite (concat_lookup outs MAT_A_CHUNK) by done.
  unfold x. destruct (Ho j Hj) as [_ He]. rewrite He by done.
  unfold input_a_hw_rows. f_equal. f_equal.
  - rewrite (piece_piece MAT_A_CHUNK NUM_COLS NUM_ROWS_PER_HW_ROW) by (done || nia).
    rewrite matrix_row by (unfold dst_row in Hdr; lia). unfold dst_row. do 2 f_equal. lia.
  - rewrite matrix_row by (unfold dst_col in Hdc; fold columns_per_window in Hdc; unfold NUM_ROWS, NUM_COLS in *; lia).
    done.
Qed.

(** ** The comparison *)

(** Entry [i], [j] of the product of two matrices. *)
Definition product (a b : nat -> nat -> Z) (i j : nat) : Z :=
  zsum (map (fun k => a i k * b k j) (seq 0 NUM_COLS)).

Definition transpose (b : nat -> nat -> Z) (i j : nat) : Z := b j i.

(** Every entry has a place among the results. *)
Lemma places i j : (i < NUM_ROWS)%nat -> (j < NUM_COLS)%nat -> exists g r k m l,
  (g < NUM_COLS / columns_per_window)%nat /\ (r < NUM_HW_ROWS)%nat /\ (k < NUM_HW_COLS)%nat /\
  (m < columns_per_window)%nat /\ (l < NUM_ROWS_PER_TILE)%nat /\ dst_row r k l = i /\ dst_col g m = j.
Proof.
  intros Hi Hj. assert (Hc := cpw_pos). assert (Ht := tile_rows_pos). assert (Hrt := row_tiles).
  assert (Har := array_rows). assert (Hf := full_windows).
  assert (Hp : (0 < NUM_ROWS_PER_HW_ROW)%nat) by nia.
  exists (j / columns_per_window)%nat, (i / NUM_ROWS_PER_HW_ROW)%nat,
    (i mod NUM_ROWS_PER_HW_ROW / NUM_ROWS_PER_TILE)%nat, (j mod columns_per_window)%nat,
    (i mod NUM_ROWS_PER_HW_ROW mod NUM_ROWS_PER_TILE)%nat.
  assert (Hm := Nat.mod_upper_bound i NUM_ROWS_PER_HW_ROW ltac:(lia)).
  split_and!.
  - apply Nat.Div0.div_lt_upper_bound. nia.
  - apply Nat.Div0.div_lt_upper_bound. nia.
  - apply Nat.Div0.div_lt_upper_bound. nia.
  - apply Nat.mod_upper_bound. lia.
  - apply Nat.mod_upper_bound. lia.
  - unfold dst_row. rewrite <- Nat.add_assoc, (Nat.mul_comm _ NUM_ROWS_PER_TILE), <- Nat.div_mod_eq.
    rewrite Nat.mul_comm. symmetry. apply Nat.div_mod_eq.
  - unfold dst_col. fold columns_per_window. rewrite Nat.mul_comm. symmetry. apply Nat.div_mod_eq.
Qed.

(** With entries small enough that no sum overflows, the word for an entry is that of the product with
    the transpose. *)
Lemma word_product a b B i j : (forall i j k, 0 <= a i k * b k j <= B) -> (forall i j k, 0 <= a i k * b j k <= B) ->
  B * Z.of_nat NUM_COLS < 2 ^ 31 ->
  s32 (inner (map (a i) (seq 0 NUM_COLS)) (map (b j) (seq 0 NUM_COLS))) = product a (transpose b) i j /\
  output_cpu a b i j = product a b i j.
Proof.
  intros Hab Hab' HB. assert (HB0 : 0 <= B) by (specialize (Hab 0%nat 0%nat 0%nat); lia).
  assert (Hc := cols_pos). assert (HB1 : B < 2 ^ 31) by nia. split.
  - rewrite inner_exact.
    + rewrite zip_map. change (zsum _) with (product a (transpose b) i j).
      assert (Hs := zsum_bound (map (fun k => a i k * b j k) (seq 0 NUM_COLS)) 0 B).
      rewrite length_map, length_seq in Hs.
      assert (Hp : 0 <= product a (transpose b) i j < 2 ^ 31).
      { unfold product, transpose. destruct Hs; [|lia]. apply Forall_forall. intros x Hx.
        apply list_elem_of_In, in_map_iff in Hx as (k & <- & _). apply Hab'. }
      by rewrite (wrap_u_small 32), (wrap_s_small 32) by (cbn; lia).
    + apply Forall2_fmap, Forall_Forall2_diag, Forall_forall. intros k _. specialize (Hab' i j k). lia.
  - unfold output_cpu, product. rewrite (fold_sum (fun k => a i k * b k j) B); [lia|done|lia|].
    rewrite length_seq. lia.
Qed.

Lemma check_spec a b B outs :
  (forall i j k, 0 <= a i k * b k j <= B) -> (forall i j k, 0 <= a i k * b j k <= B) ->
  B * Z.of_nat NUM_COLS < 2 ^ 31 -> array_done a b outs ->
  (check a b (output_memory outs) = 0 <->
   forall i j, (i < NUM_ROWS)%nat -> (j < NUM_COLS)%nat -> product a (transpose b) i j = product a b i j).
Proof.
  intros Hab Hab' HB Hd.
  assert (Hcell : forall i j k m l, (i < NUM_COLS / columns_per_window)%nat -> (j < NUM_HW_ROWS)%nat ->
    (k < NUM_HW_COLS)%nat -> (m < columns_per_window)%nat -> (l < NUM_ROWS_PER_TILE)%nat ->
    match output_memory outs !! src_idx i j k m l with
    | Some v => s32 v =? output_cpu a b (dst_row j k l) (dst_col i m)
    | None => false
    end = (product a (transpose b) (dst_row j k l) (dst_col i m) =? product a b (dst_row j k l) (dst_col i m))).
  { intros i j k m l Hi Hj Hk Hm Hl. rewrite (output_word a b) by done.
    by destruct (word_product a b B (dst_row j k l) (dst_col i m) Hab Hab' HB) as [-> ->]. }
  unfold check. fold columns_per_window. destruct (forallb _ _) eqn:E.
  - split; [intros _|done]. intros i j Hi Hj.
    destruct (places i j Hi Hj) as (g & r & k & m & l & Hg & Hr & Hk & Hm & Hl & <- & <-).
    apply Z.eqb_eq. rewrite <- Hcell by done.
    assert (Hin : forall n x, (x < n)%nat -> In x (seq 0 n)) by (intros; apply in_seq; lia).
    rewrite forallb_forall in E. specialize (E g (Hin _ _ Hg)).
    rewrite forallb_forall in E. specialize (E r (Hin _ _ Hr)).
    rewrite forallb_forall in E. specialize (E k (Hin _ _ Hk)).
    rewrite forallb_forall in E. specialize (E m (Hin _ _ Hm)).
    rewrite forallb_forall in E. exact (E l (Hin _ _ Hl)).
  - split; [done|]. intros H. exfalso. rewrite <- not_true_iff_false in E. apply E. clear E.
    assert (Hc := cpw_pos). assert (Hf := full_windows). assert (Hrt := row_tiles). assert (Har := array_rows).
    apply forallb_forall. intros i Hi%in_seq. apply forallb_forall. intros j Hj%in_seq.
    apply forallb_forall. intros k Hk%in_seq. apply forallb_forall. intros m Hm%in_seq.
    apply forallb_forall. intros l Hl%in_seq. rewrite Hcell by lia. apply Z.eqb_eq. apply H.
    + assert (k * NUM_ROWS_PER_TILE + l < NUM_ROWS_PER_HW_ROW)%nat by nia. unfold dst_row. nia.
    + unfold dst_col. fold columns_per_window. nia.
Qed.

(** C16: for matrices of which the products of two entries are at least 0 and at most [B], with
    [B * NUM_COLS] below 2^31 so that no sum overflows, the comparison of the host succeeds exactly when
    the matrices have the same product whether the second is transposed or not: the array multiplies by
    the transpose of what it is sent.  In every interleaving of its cores a row makes a bounded number
    of moves, can go on until none of the cores can move, and then has delivered all its results. *)
Theorem array_multiplies_by_transpose a b B :
  (forall i j k, 0 <= a i k * b k j <= B) -> (forall i j k, 0 <= a i k * b j k <= B) ->
  B * Z.of_nat NUM_COLS < 2 ^ 31 ->
  always_ends NUM_HW_ROWS NUM_HW_COLS (row_network a b) /\ (exists outs, array_done a b outs) /\
  forall outs, array_done a b outs ->
    (check a b (output_memory outs) = 0 <->
     forall i j, (i < NUM_ROWS)%nat -> (j < NUM_COLS)%nat -> product a (transpose b) i j = product a b i j).
Proof.
  intros Hab Hab' HB. split; [apply array_ends|]. split; [apply array_finishes|].
  intros outs Hd. by apply (check_spec a b B).
Qed.

(** C12: the shipped test passes on every configuration the kernels of this file allow (the shipped ones of
    AIEML and AIE2PS are instances; on the first AIE generation, ARCH_AIE, the graph connects kernels that
    use cascade streams, which are not modelled), whatever the interleaving of the cores of every row.
    In every interleaving a row makes a bounded number of moves, can go on until none of the cores can
    move, and then has delivered all its results. *)
Theorem oob_test_passes :
  always_ends NUM_HW_ROWS NUM_HW_COLS (row_network input_a input_b) /\
  (exists outs, array_done input_a input_b outs) /\
  forall outs, array_done input_a input_b outs -> check input_a input_b (output_memory outs) = 0.
Proof.
  split; [apply array_ends|]. split; [apply array_finishes|]. intros outs Hd.
  assert (Hb : forall i k, 0 <= input_a i k * 1 <= 9).
  { intros i k. unfold input_a. assert (H := Z.mod_pos_bound (Z.of_nat (i * NUM_COLS + k)) 10 ltac:(lia)).
    destruct (Z.eqb_spec (Z.of_nat (i * NUM_COLS + k) mod 10) 0); lia. }
  assert (Hs := check_spec input_a input_b 9 outs (fun i _ k => Hb i k) (fun i _ k => Hb i k) sums_bound Hd).
  by apply Hs.
Qed.
End Host.

(** * [graph_new_api.cpp] *)

Section NewApi.
Context {cfg : OobConfig}.

(** The transfers of the second operand, as a row of the array, the first element read from [mem_in_b]
    and the number of elements; [mem_in_b] has [NUM_ELMNTS] elements.
    [example/example_oob/src/graph_new_api.cpp:77-92] [inputArrayB] *)
Definition inputArrayB (i : nat) : nat := i * MAT_A_CHUNK.

(** [example/example_oob/src/graph_new_api.cpp:104-109] [gm2aie_nb] *)
Definition new_api_transfers : list (nat * nat * nat) :=
  map (fun i => (i, inputArrayB i, NUM_ELMNTS)) (seq 0 NUM_HW_ROWS).

(** every transfer of the second operand but the first reads past the end of its buffer. *)
Theorem new_api_reads_past_end i off len : OobConfigOk -> In (i, off, len) new_api_transfers ->
  (off + len <= NUM_ELMNTS)%nat <-> i = 0%nat.
Proof.
  intros ok (j & [= -> <- <-] & _)%in_map_iff. unfold inputArrayB.
  assert (Hc := cols_pos). assert (Ht := tile_rows_pos). assert (Hrt := row_tiles). assert (H2 := cols_two).
  unfold MAT_A_CHUNK. assert (0 < NUM_ROWS_PER_HW_ROW * NUM_COLS)%nat by nia. split; [nia|]. intros ->. lia.
Qed.
End NewApi.

(** ** The validation of the second program *)

(** Elements that still have the initial value, elements that are zero.
    [example/example_oob/src/graph_new_api.cpp:123-144] [unchanged_count, zero_count] *)
Definition validation_counts (out : list Z) : Z * Z :=
  fold_left (fun '(unchanged, zero) v =>
    (if v =? 2 then s32 (unchanged + 1) else unchanged, if v =? 0 then s32 (zero + 1) else zero)) out (0, 0).

(** The exit code; [out] has the elements of all rows.
    [example/example_oob/src/graph_new_api.cpp:157-179] [main] *)
Definition validation (out : list Z) : Z :=
  let '(unchanged_count, zero_count) := validation_counts out in
  let nonzero_count := Z.of_nat (length out) - zero_count in
  if (unchanged_count >? 0) || (nonzero_count =? 0) then 1 else 0.

Definition occurrences (x : Z) (out : list Z) : Z := zsum (map (fun v => if v =? x then 1 else 0) out).

Lemma occurrences_range x out : 0 <= occurrences x out <= Z.of_nat (length out).
Proof.
  assert (H := zsum_bound (map (fun v => if v =? x then 1 else 0) out) 0 1). rewrite length_map in H.
  unfold occurrences. destruct H; [|lia]. apply Forall_forall. intros y Hy.
  apply list_elem_of_In, in_map_iff in Hy as (v & <- & _). destruct (v =? x); lia.
Qed.

Lemma occurrences_cons x v out : occurrences x (v :: out) = (if v =? x then 1 else 0) + occurrences x out.
Proof. reflexivity. Qed.

Lemma validation_counts_spec out : Z.of_nat (length out) < 2 ^ 31 ->
  validation_counts out = (occurrences 2 out, occurrences 0 out).
Proof.
  intros Hl. unfold validation_counts.
  enough (H : forall u z, 0 <= u -> 0 <= z -> u + Z.of_nat (length out) < 2 ^ 31 -> z + Z.of_nat (length out) < 2 ^ 31 ->
    fold_left (fun '(unchanged, zero) v =>
      (if v =? 2 then s32 (unchanged + 1) else unchanged, if v =? 0 then s32 (zero + 1) else zero)) out (u, z)
    = (u + occurrences 2 out, z + occurrences 0 out)) by (by rewrite H by lia).
  clear Hl. induction out as [|v out IH]; intros u z Hu Hz Hbu Hbz; cbn [fold_left length] in *.
  - by rewrite !Z.add_0_r.
  - rewrite Nat2Z.inj_succ in *. rewrite !(wrap_s_small 32) by (cbn; lia).
    rewrite IH by (destruct (v =? 2), (v =? 0); lia). rewrite !occurrences_cons.
    destruct (v =? 2), (v =? 0); f_equal; lia.
Qed.

Lemma occurrences_none x out : occurrences x out = 0 <-> x ∉ out.
Proof.
  induction out as [|v out IH]; [split; [intros _; apply not_elem_of_nil|done]|].
  rewrite occurrences_cons, not_elem_of_cons. assert (H := occurrences_range x out).
  destruct (Z.eqb_spec v x) as [->|Hne]; [split; [lia|by intros [? _]]|]. rewrite Z.add_0_l, IH. intuition congruence.
Qed.

Lemma occurrences_all x out : occurrences x out = Z.of_nat (length out) <-> Forall (eq x) out.
Proof.
  induction out as [|v out IH]; [split; [by constructor|done]|].
  rewrite occurrences_cons, Forall_cons. assert (H := occurrences_range x out). cbn [length].
  destruct (Z.eqb_spec v x) as [->|Hne]; rewrite Nat2Z.inj_succ; [rewrite <- IH; lia|].
  split; [lia|intros [-> _]; done].
Qed.

(** The second program accepts any output in which no element is 2 and some element is not 0: it does not
    compare with the product. *)
Lemma validation_accepts out : Z.of_nat (length out) < 2 ^ 31 ->
  validation out = 0 <-> 2 ∉ out /\ ~ Forall (eq 0) out.
Proof.
  intros Hl. unfold validation. rewrite validation_counts_spec by done.
  rewrite <- occurrences_none, <- occurrences_all. assert (H2 := occurrences_range 2 out).
  destruct (Z.gtb_spec (occurrences 2 out) 0), (Z.eqb_spec (Z.of_nat (length out) - occurrences 0 out) 0); cbn [orb]; lia.
Qed.

(** * Instances *)

Module OobHostDemo.

(** A second matrix that is not symmetric: the host reports a mismatch although the array has done what
    its kernels say. *)
Definition b_asym (i j : nat) : Z := if (i =? 0)%nat then Z.of_nat j mod 2 else 0.

(** Two rows of the array. *)
Definition two_rows : OobConfig := {| NUM_HW_COLS := 2; NUM_HW_ROWS := 2; MAT_SIZE := 32; WIN_SIZE := 32 |}.

Lemma two_rows_ok : OobConfigOk (cfg := two_rows).
Proof. config_ok. Qed.

Definition run_row (a b : nat -> nat -> Z) : option (list Z) :=
  collected 2 (in_turns 2000 [0; 1; 2; 3]%nat
    (@oob_start OobDemo.small OobDemo.unit OobDemo.ids (fun _ => 1%nat) 1
      (fun _ => @input_a_hw_rows OobDemo.small a 0) (fun _ => @matrix OobDemo.small b))).

Example mismatch_reported :
  (@check OobDemo.small (@input_a OobDemo.small) input_b <$> run_row (@input_a OobDemo.small) input_b) = Some 0 /\
  (@check OobDemo.small (@input_a OobDemo.small) b_asym <$> run_row (@input_a OobDemo.small) b_asym) = Some (-1).
Proof. split; vm_compute; reflexivity. Qed.
End OobHostDemo.

Lemma oob_test_passes_witness :
  (exists outs, @array_done (config_aie2ps true) OobDemo.unit (fun _ => OobDemo.ids) (fun _ _ => 1%nat)
     (@input_a (config_aie2ps true)) input_b outs) /\
  forall outs, @array_done (config_aie2ps true) OobDemo.unit (fun _ => OobDemo.ids) (fun _ _ => 1%nat)
     (@input_a (config_aie2ps true)) input_b outs ->
   @check (config_aie2ps true) (@input_a (config_aie2ps true)) input_b (@output_memory (config_aie2ps true) outs) = 0.
Proof.
  exact (proj2 (@oob_test_passes (config_aie2ps true) (config_aie2ps_ok true) OobDemo.unit OobDemo.unit_ok
    (fun _ => OobDemo.ids) (fun _ _ => 1%nat) (fun _ c => OobDemo.ids_column 12 c ltac:(lia)))).
Defined.

Lemma array_multiplies_by_transpose_witness :
  exists outs, @array_done OobDemo.small OobDemo.unit (fun _ => OobDemo.ids) (fun _ _ => 1%nat)
     (fun _ _ => 1) OobHostDemo.b_asym outs.
Proof.
  refine (proj1 (proj2 (@array_multiplies_by_transpose OobDemo.small OobDemo.small_ok OobDemo.unit OobDemo.unit_ok
    (fun _ => OobDemo.ids) (fun _ _ => 1%nat) (fun _ c => OobDemo.ids_column 2 c ltac:(lia))
    (fun _ _ => 1) OobHostDemo.b_asym 1 _ _ _))).
  - intros i j k. unfold OobHostDemo.b_asym. destruct (k =? 0)%nat; [|lia].
    assert (H := Z.mod_pos_bound (Z.of_nat j) 2 ltac:(lia)). lia.
  - intros i j k. unfold OobHostDemo.b_asym. destruct (j =? 0)%nat; [|lia].
    assert (H := Z.mod_pos_bound (Z.of_nat k) 2 ltac:(lia)). lia.
  - vm_compute. reflexivity.
Defined.

Lemma new_api_reads_past_end_witness : (512 + 1024 <= 1024)%nat <-> 1%nat = 0%nat.
Proof.
  apply (@new_api_reads_past_end OobHostDemo.two_rows 1 512 1024 OobHostDemo.two_rows_ok).
  vm_compute. right. by left.
Defined.
