(* ===== verification/Gemm.v ===== *)
(** The 8-bit matrix multiplication example on a 4 by 4 array ([example/example_oob_4x4]).

    The array multiplies panels of 8-bit integers on its matrix engine: the columns of the right
    operand are staged in blocks of eight, transposed into the layout of the engine, multiplied with
    the rows of a core in tiles and narrowed to 8 bits by saturation.  The three kernels and the
    engine's part of the work ([mmul_gemm.h]) are here; the row of cores is in GemmRow.v, the host
    program in GemmHost.v.

    [block_computed] says what the engine's loops leave in the window of results, [block_repeated] that
    the repetitions of the performance probe change nothing. *)
From stdpp Require Import base list gmap.
From Stdlib Require Import ZArith Lia.
From S2P Require Import Prelude Windows.
From S2P Require Import Chain Core Tiles RowProduct.
Local Open Scope Z_scope.

(** * Configuration *)

(** What a build may choose; the array is 4 by 4 on every architecture.
    [example/example_oob_4x4/src/kernels/config.h:83-90] [PANEL_SIZE, NUM_PANELS] *)
Class GemmConfig := { PANEL_SIZE : nat; NUM_PANELS : nat; CEILING_REPEAT : nat }.

(** [example/example_oob_4x4/src/kernels/config.h:175-177] [shipped values] *)
Definition shipped : GemmConfig := {| PANEL_SIZE := 256; NUM_PANELS := 1; CEILING_REPEAT := 1 |}.

Section Config.
Context {cfg : GemmConfig}.

(** [example/example_oob_4x4/src/kernels/config.h:48-51] [NUM_HW_COLS] *)
Definition NUM_HW_COLS : nat := 4.

(** [example/example_oob_4x4/src/kernels/config.h:53-53] [NUM_HW_ROWS] *)
Definition NUM_HW_ROWS : nat := 4.

(** [example/example_oob_4x4/src/kernels/config.h:94-94] [WIN_SIZE] *)
Definition WIN_SIZE : nat := PANEL_SIZE.

(** [example/example_oob_4x4/src/kernels/config.h:102-102] [NUM_COLS] *)
Definition NUM_COLS : nat := PANEL_SIZE.

(** [example/example_oob_4x4/src/kernels/config.h:97-97] [MATRIX_SIZE] *)
Definition MATRIX_SIZE : nat := NUM_PANELS * PANEL_SIZE.

(** [example/example_oob_4x4/src/kernels/config.h:130-130] [VEC_IN] *)
Definition VEC_IN : nat := 32.

(** [example/example_oob_4x4/src/kernels/config.h:131-131] [VEC_OUT] *)
Definition VEC_OUT : nat := 32.

(** [example/example_oob_4x4/src/kernels/config.h:134-134] [NUM_ROWS_PER_HW_ROW] *)
Definition NUM_ROWS_PER_HW_ROW : nat := PANEL_SIZE / NUM_HW_ROWS.

(** [example/example_oob_4x4/src/kernels/config.h:135-135] [NUM_ROWS_PER_TILE] *)
Definition NUM_ROWS_PER_TILE : nat := NUM_ROWS_PER_HW_ROW / NUM_HW_COLS.

(** [example/example_oob_4x4/src/kernels/config.h:157-157] [MM_M] *)
Definition MM_M : nat := 4.

(** [example/example_oob_4x4/src/kernels/config.h:158-158] [MM_K] *)
Definition MM_K : nat := 16.

(** [example/example_oob_4x4/src/kernels/config.h:159-159] [MM_N] *)
Definition MM_N : nat := 8.

(** [example/example_oob_4x4/src/kernels/config.h:180-180] [MM_M_SUB] *)
Definition MM_M_SUB : nat := NUM_ROWS_PER_TILE / MM_M.

(** [example/example_oob_4x4/src/kernels/config.h:181-181] [MM_K_STEPS] *)
Definition MM_K_STEPS : nat := NUM_COLS / MM_K.

(** [example/example_oob_4x4/src/kernels/config.h:182-182] [MM_N_BLOCKS] *)
Definition MM_N_BLOCKS : nat := NUM_COLS / MM_N.

(** [example/example_oob_4x4/src/kernels/config.h:183-183] [MM_NBLK_PER_FLUSH] *)
Definition MM_NBLK_PER_FLUSH : nat := (WIN_SIZE / NUM_ROWS_PER_TILE) / MM_N.

(** [example/example_oob_4x4/src/kernels/config.h:185-185] [NUM_ELMNTS] *)
Definition NUM_ELMNTS : nat := PANEL_SIZE * NUM_COLS.

(** [example/example_oob_4x4/src/kernels/config.h:192-192] [NUM_A_ELMNTS_PER_TILE] *)
Definition NUM_A_ELMNTS_PER_TILE : nat := (NUM_ROWS_PER_HW_ROW * NUM_COLS) / NUM_HW_COLS.

(** [example/example_oob_4x4/src/kernels/config.h:197-197] [MAT_A_CHUNK] *)
Definition MAT_A_CHUNK : nat := NUM_ROWS_PER_HW_ROW * NUM_COLS.

(** What the kernels need of the constants. *)
Class GemmConfigOk : Prop := {
  g_tile_rows_pos : (0 < NUM_ROWS_PER_TILE)%nat;
  g_win_vectors : WIN_SIZE = (WIN_SIZE / VEC_IN * VEC_IN)%nat;
  g_tile_elements : NUM_A_ELMNTS_PER_TILE = (NUM_ROWS_PER_TILE * NUM_COLS)%nat;
  g_row_tiles : NUM_ROWS_PER_HW_ROW = (NUM_HW_COLS * NUM_ROWS_PER_TILE)%nat;
  g_panel_rows : PANEL_SIZE = (NUM_HW_ROWS * NUM_ROWS_PER_HW_ROW)%nat;
  g_sub_rows : NUM_ROWS_PER_TILE = (MM_M_SUB * MM_M)%nat;
  g_k_steps : NUM_COLS = (MM_K_STEPS * MM_K)%nat;
  g_n_blocks : NUM_COLS = (MM_N_BLOCKS * MM_N)%nat;
  g_flush : WIN_SIZE = (MM_NBLK_PER_FLUSH * (MM_N * NUM_ROWS_PER_TILE))%nat;
  g_flushes : MM_N_BLOCKS = (MM_N_BLOCKS / MM_NBLK_PER_FLUSH * MM_NBLK_PER_FLUSH)%nat;
  g_repeat : (1 <= CEILING_REPEAT)%nat;
  g_sum_bound : 16384 * Z.of_nat NUM_COLS < 2 ^ 31;
  g_elements_bound : Z.of_nat (NUM_A_ELMNTS_PER_TILE * NUM_HW_COLS) < 2 ^ 32;
}.
End Config.

#[export] Instance shipped_ok : @GemmConfigOk shipped.
Proof. constructor; vm_compute; reflexivity || lia. Qed.

(** * The matrix engine *)

(** The engine multiplies a 4 by 16 tile, row by row, with a 16 by 8 tile, row by row, into an
    accumulator of 32 lanes; an 8 by 16 vector can be transposed. *)
Class MatrixEngine := {
  accum : Type;
  mm_start : accum;
  mm_mul : list Z -> list Z -> accum;
  mm_mac : accum -> list Z -> list Z -> accum;
  mm_to_vector : accum -> list Z;
  mm_lane : accum -> nat -> Z;
  v_transpose : list Z -> nat -> nat -> list Z;
}.

Definition at_ (l : list Z) (i : nat) : Z := default 0 (l !! i).

(** Entry [m], [n] of the product of two tiles. *)
Definition tile_product (av bv : list Z) (m n : nat) : Z :=
  zsum (map (fun k => at_ av (m * MM_K + k) * at_ bv (k * MM_N + n)) (seq 0 MM_K)).

(** The documentation of the engine: exact as long as the accumulators do not overflow. *)
Class MatrixEngineSpec `{MatrixEngine} : Prop := {
  mm_mul_lane av bv m n : (m < MM_M)%nat -> (n < MM_N)%nat -> - 2 ^ 31 <= tile_product av bv m n < 2 ^ 31 ->
    mm_lane (mm_mul av bv) (m * MM_N + n) = tile_product av bv m n;
  mm_mac_lane c av bv m n : (m < MM_M)%nat -> (n < MM_N)%nat ->
    - 2 ^ 31 <= mm_lane c (m * MM_N + n) + tile_product av bv m n < 2 ^ 31 ->
    mm_lane (mm_mac c av bv) (m * MM_N + n) = mm_lane c (m * MM_N + n) + tile_product av bv m n;
  mm_to_vector_lane c i : (i < MM_M * MM_N)%nat -> - 2 ^ 31 <= mm_lane c i < 2 ^ 31 ->
    mm_to_vector c !! i = Some (mm_lane c i);
  v_transpose_length v r c : length v = (r * c)%nat -> length (v_transpose v r c) = (r * c)%nat;
  v_transpose_lookup v r c i j : length v = (r * c)%nat -> (i < r)%nat -> (j < c)%nat ->
    v_transpose v r c !! (j * r + i)%nat = v !! (i * c + j)%nat;
}.

Section Kernels.
Context {cfg : GemmConfig} {me : MatrixEngine}.

(** * The engine's part of a kernel *)

(** [rows] vectors of length [len] from rows of an array, one after the other: the loads and the
    [concat] of the sources. *)
Definition gather_rows (rows len : nat) (arr : list Z) (off : nat -> nat) : option (list Z) :=
  loop rows 0 (fun i acc => v ← load_v len arr (off i); Some (acc ++ v)) [].

(** Staging the columns: from column by column to the layout of the engine.
    [example/example_oob_4x4/src/kernels/mmul_gemm.h:53-71] [mm_stage_b_transpose] *)
Definition mm_stage_b_transpose (bstage bbuf : list Z) : option (list Z) :=
  loop MM_K_STEPS 0 (fun ks bbuf =>
    nmaj ← gather_rows MM_N MM_K bstage (fun n => n * NUM_COLS + ks * MM_K)%nat;
    store_v bbuf (ks * (MM_K * MM_N)) (v_transpose nmaj MM_N MM_K)) bbuf.

(** Narrowing of a result.
    [example/example_oob_4x4/src/kernels/mmul_gemm.h:103-105] [GEMM_C_T] *)
Definition saturate (v : Z) : Z := s8 (if v >? 127 then 127 else if v <? -128 then -128 else v).

(** The product of one group of four rows over the whole length.
    [example/example_oob_4x4/src/kernels/mmul_gemm.h:80-93] [mul, mac] *)
Definition mm_accumulate (a bbuf : list Z) (ms : nat) : option accum :=
  loop MM_K_STEPS 0 (fun ks C =>
    av ← gather_rows MM_M MM_K a (fun r => (ms * MM_M + r) * NUM_COLS + ks * MM_K)%nat;
    bv ← load_v (MM_K * MM_N) bbuf (ks * (MM_K * MM_N));
    Some (if (ks =? 0)%nat then mm_mul av bv else mm_mac C av bv)) mm_start.

(** [example/example_oob_4x4/src/kernels/mmul_gemm.h:73-108] [mm_compute_nblock] *)
Definition mm_compute_nblock (a bbuf intr : list Z) (nb : nat) : option (list Z) :=
  let flush_blk := (nb mod MM_NBLK_PER_FLUSH)%nat in
  loop MM_M_SUB 0 (fun ms intr =>
    C ← mm_accumulate a bbuf ms;
    let cv := mm_to_vector C in
    loop MM_M 0 (fun mrow intr =>
      loop MM_N 0 (fun nn intr =>
        v ← cv !! (mrow * MM_N + nn)%nat;
        store_v intr ((flush_blk * MM_N + nn) * NUM_ROWS_PER_TILE + ms * MM_M + mrow) [saturate v]) intr) intr) intr.

(** * The kernels *)

(** [example/example_oob_4x4/src/kernels/one_input.cc:14-20] [a, bbuf, bstage, intrmdtResult] *)
Record statics := mkStatics { k_a : list Z; k_bbuf : list Z; k_bstage : list Z; k_intr : list Z }.

(** [example/example_oob_4x4/src/kernels/one_input.cc:23-23] [currentCol] *)
Definition currentCol (coreid : Z) : Z := Z.shiftr (Z.land coreid 0x7F0000) 16.

(** [example/example_oob_4x4/src/kernels/one_input.cc:28-32] [window into a] *)
Definition read_a (i : nat) (win : list Z) (st : statics) : option statics :=
  a ← read_into VEC_IN (WIN_SIZE / VEC_IN) (k_a st) (i * WIN_SIZE) win;
  Some (mkStatics a (k_bbuf st) (k_bstage st) (k_intr st)).

(** [example/example_oob_4x4/src/kernels/one_input.cc:37-37] [stripes to pass on] *)
Definition stripes_behind (coreid : Z) : nat :=
  Z.to_nat (u32 (Z.of_nat NUM_A_ELMNTS_PER_TILE * u32 (Z.of_nat NUM_HW_COLS - currentCol coreid - 1))
            / Z.of_nat WIN_SIZE).

(** [example/example_oob_4x4/src/kernels/one_input.cc:56-65] [window into bstage and on] *)
Definition stage_on (nn w : nat) (win : list Z) (st : statics) : option (statics * list Z) :=
  '(bstage, _, out) ← loop (WIN_SIZE / VEC_IN) 0 (fun x '(bstage, r, out) =>
      '(temp, r') ← window_readincr_v VEC_IN win r;
      bstage' ← store_v bstage (nn * NUM_COLS + (w * WIN_SIZE + x * VEC_IN)) temp;
      Some (bstage', r', out ++ temp)) (k_bstage st, 0%nat, []);
  Some (mkStatics (k_a st) (k_bbuf st) bstage (k_intr st), out).

(** [example/example_oob_4x4/src/kernels/one_output.cc:45-53] [window into bstage] *)
Definition stage_last (nn w : nat) (win : list Z) (st : statics) : option statics :=
  bstage ← read_into VEC_IN (WIN_SIZE / VEC_IN) (k_bstage st) (nn * NUM_COLS + w * WIN_SIZE) win;
  Some (mkStatics (k_a st) (k_bbuf st) bstage (k_intr st)).

(** [example/example_oob_4x4/src/kernels/one_input.cc:71-76] [the arithmetic of a block] *)
Definition multiply_block (nb : nat) (st : statics) : option statics :=
  bbuf ← mm_stage_b_transpose (k_bstage st) (k_bbuf st);
  intr ← loop CEILING_REPEAT 0 (fun _ intr => mm_compute_nblock (k_a st) bbuf intr nb) (k_intr st);
  Some (mkStatics (k_a st) bbuf (k_bstage st) intr).

(** [example/example_oob_4x4/src/kernels/one_input.cc:78-78] [window of results full] *)
Definition results_full (nb : nat) (_ : statics) : bool :=
  (nb mod MM_NBLK_PER_FLUSH =? MM_NBLK_PER_FLUSH - 1)%nat.

(** [example/example_oob_4x4/src/kernels/one_input.cc:80-85] [write and clear the results] *)
Definition write_results (st : statics) : option (statics * list Z) :=
  '(intr, out) ← drain_into VEC_OUT (WIN_SIZE / VEC_OUT) (k_intr st);
  Some (mkStatics (k_a st) (k_bbuf st) (k_bstage st) intr, out).

(** [example/example_oob_4x4/src/kernels/one_input.cc:40-41] [window to window] *)
Definition copy_in (win : list Z) : option (list Z) := copy_window VEC_IN (WIN_SIZE / VEC_IN) win.

(** [example/example_oob_4x4/src/kernels/two_inputs.cc:82-85] [window to window] *)
Definition copy_out (win : list Z) : option (list Z) := copy_window VEC_OUT (WIN_SIZE / VEC_OUT) win.

(** The first kernel of a row.
    [example/example_oob_4x4/src/kernels/one_input.cc:13-89] [OneInput] *)
Definition OneInput (coreid : Z) (dataIn dataOut result : chan) (st : statics) (k : statics -> proc) : proc :=
  for_ (NUM_A_ELMNTS_PER_TILE / WIN_SIZE) 0 (fun i st k =>
    AcqIn dataIn (fun w => opt (read_a i w st) (fun st => RelIn dataIn (k st)))) st (fun st =>
  for_ (stripes_behind coreid) 0 (fun _ st k =>
    AcqOut dataOut (AcqIn dataIn (fun w => opt (copy_in w) (fun o =>
      RelIn dataIn (window_release WIN_SIZE dataOut o (k st)))))) st (fun st =>
  for_ MM_N_BLOCKS 0 (fun nb st k =>
    for_ MM_N 0 (fun nn st k =>
      for_ (NUM_COLS / WIN_SIZE) 0 (fun w st k =>
        AcqOut dataOut (AcqIn dataIn (fun win => opt (stage_on nn w win st) (fun '(st, o) =>
          RelIn dataIn (window_release WIN_SIZE dataOut o (k st)))))) st k) st (fun st =>
    opt (multiply_block nb st) (fun st =>
    if results_full nb st then
      AcqOut result (opt (write_results st) (fun '(st, o) => window_release WIN_SIZE result o (k st)))
    else k st))) st k)).

(** A middle kernel.
    [example/example_oob_4x4/src/kernels/two_inputs.cc:13-100] [TwoInputs] *)
Definition TwoInputs (coreid : Z) (dataIn bypassResult dataOut result : chan) (st : statics)
    (k : statics -> proc) : proc :=
  for_ (NUM_A_ELMNTS_PER_TILE / WIN_SIZE) 0 (fun i st k =>
    AcqIn dataIn (fun w => opt (read_a i w st) (fun st => RelIn dataIn (k st)))) st (fun st =>
  for_ (stripes_behind coreid) 0 (fun _ st k =>
    AcqOut dataOut (AcqIn dataIn (fun w => opt (copy_in w) (fun o =>
      RelIn dataIn (window_release WIN_SIZE dataOut o (k st)))))) st (fun st =>
  for_ MM_N_BLOCKS 0 (fun nb st k =>
    for_ MM_N 0 (fun nn st k =>
      for_ (NUM_COLS / WIN_SIZE) 0 (fun w st k =>
        AcqOut dataOut (AcqIn dataIn (fun win => opt (stage_on nn w win st) (fun '(st, o) =>
          RelIn dataIn (window_release WIN_SIZE dataOut o (k st)))))) st k) st (fun st =>
    opt (multiply_block nb st) (fun st =>
    if results_full nb st then
      for_ (Z.to_nat (currentCol coreid)) 0 (fun _ st k =>
        AcqOut result (AcqIn bypassResult (fun w => opt (copy_out w) (fun o =>
          RelIn bypassResult (window_release WIN_SIZE result o (k st)))))) st (fun st =>
      AcqOut result (opt (write_results st) (fun '(st, o) => window_release WIN_SIZE result o (k st))))
    else k st))) st k)).

(** The last kernel of a row.
    [example/example_oob_4x4/src/kernels/one_output.cc:13-87] [OneOutput] *)
Definition OneOutput (coreid : Z) (dataIn bypassResult result : chan) (st : statics)
    (k : statics -> proc) : proc :=
  for_ (NUM_A_ELMNTS_PER_TILE / WIN_SIZE) 0 (fun i st k =>
    AcqIn dataIn (fun w => opt (read_a i w st) (fun st => RelIn dataIn (k st)))) st (fun st =>
  for_ MM_N_BLOCKS 0 (fun nb st k =>
    for_ MM_N 0 (fun nn st k =>
      for_ (NUM_COLS / WIN_SIZE) 0 (fun w st k =>
        AcqIn dataIn (fun win => opt (stage_last nn w win st) (fun st => RelIn dataIn (k st)))) st k) st (fun st =>
    opt (multiply_block nb st) (fun st =>
    if results_full nb st then
      for_ (Z.to_nat (currentCol coreid)) 0 (fun _ st k =>
        AcqOut result (AcqIn bypassResult (fun w => opt (copy_out w) (fun o =>
          RelIn bypassResult (window_release WIN_SIZE result o (k st)))))) st (fun st =>
      AcqOut result (opt (write_results st) (fun '(st, o) => window_release WIN_SIZE result o (k st))))
    else k st))) st k).

(** The kernel at column [c] of a row and its connections.
    [example/example_oob_4x4/src/graph.h:25-49] [ConnectSystolicArray_Row_LToR] *)
Definition ConnectSystolicArray_Row_LToR (coreid : nat -> Z) (c : nat) : statics -> (statics -> proc) -> proc :=
  if (c =? 0)%nat then OneInput (coreid c) (Data, c) (Data, S c) (Result, S c)
  else if (c <? NUM_HW_COLS - 1)%nat then
    TwoInputs (coreid c) (Data, c) (Result, c) (Data, S c) (Result, S c)
  else OneOutput (coreid c) (Data, c) (Result, c) (Result, S c).

Definition gemm_core : bool -> nat -> nat -> chan -> chan -> chan -> chan -> statics -> (statics -> proc) -> proc :=
  core (NUM_A_ELMNTS_PER_TILE / WIN_SIZE) MM_N (NUM_COLS / WIN_SIZE) MM_N_BLOCKS WIN_SIZE read_a stage_on stage_last
    copy_in copy_out multiply_block results_full write_results.

Lemma OneInput_gemm coreid din byp dout res st k :
  OneInput coreid din dout res st k = gemm_core true (stripes_behind coreid) 0 din byp dout res st k.
Proof. reflexivity. Qed.

Lemma TwoInputs_gemm coreid din byp dout res st k :
  TwoInputs coreid din byp dout res st k
    = gemm_core true (stripes_behind coreid) (Z.to_nat (currentCol coreid)) din byp dout res st k.
Proof. reflexivity. Qed.

Lemma OneOutput_gemm coreid din byp dout res st k :
  OneOutput coreid din byp res st k = gemm_core false 0 (Z.to_nat (currentCol coreid)) din byp dout res st k.
Proof. reflexivity. Qed.
End Kernels.

(** * What the engine's loops compute *)

Section Engine.
Context {cfg : GemmConfig} {ok : GemmConfigOk} {me : MatrixEngine} {mespec : MatrixEngineSpec}.

Definition is_int8 (z : Z) : Prop := -128 <= z <= 127.

Lemma at_lookup l i : (i < length l)%nat -> l !! i = Some (at_ l i).
Proof. intros Hi. unfold at_. destruct (lookup_lt_is_Some_2 l i Hi) as [x ->]. done. Qed.

Lemma at_int8 l i : Forall is_int8 l -> is_int8 (at_ l i).
Proof.
  intros H. unfold at_. destruct (l !! i) as [x|] eqn:E; [|unfold is_int8; cbn; lia].
  rewrite Forall_lookup in H. by apply (H i).
Qed.

Lemma int8_product x y : is_int8 x -> is_int8 y -> - 16384 <= x * y <= 16384.
Proof. unfold is_int8. intros. nia. Qed.

Lemma gather_rows_ok rows len arr off : (forall i, (i < rows)%nat -> (off i + len <= length arr)%nat) ->
  gather_rows rows len arr off = Some (concat (map (fun i => take len (drop (off i) arr)) (seq 0 rows))).
Proof.
  intros H. unfold gather_rows.
  rewrite (loop_states (fun m => concat (map (fun i => take len (drop (off i) arr)) (seq 0 m))) rows); try done.
  intros i Hi. rewrite load_v_ok by auto. cbn [mbind option_bind]. f_equal.
  rewrite seq_S, map_app, concat_app. cbn [map concat Nat.add]. by rewrite app_nil_r.
Qed.

Lemma gathered_at rows len (arr : list Z) (off : nat -> nat) i j : (forall i, (i < rows)%nat -> (off i + len <= length arr)%nat) ->
  (i < rows)%nat -> (j < len)%nat ->
  concat (map (fun i => take len (drop (off i) arr)) (seq 0 rows)) !! (i * len + j)%nat = arr !! (off i + j)%nat.
Proof.
  intros H Hi Hj. rewrite (concat_lookup (fun i => take len (drop (off i) arr)) len); [|..|done|done].
  - by rewrite lookup_take_lt, lookup_drop.
  - intros x Hx. rewrite length_take, length_drop. specialize (H x Hx). lia.
Qed.

Lemma gathered_length rows len (arr : list Z) (off : nat -> nat) : (forall i, (i < rows)%nat -> (off i + len <= length arr)%nat) ->
  length (concat (map (fun i => take len (drop (off i) arr)) (seq 0 rows))) = (rows * len)%nat.
Proof.
  intros H. enough (He : forall m, (m <= rows)%nat ->
    length (concat (map (fun i => take len (drop (off i) arr)) (seq 0 m))) = (m * len)%nat) by (by apply He).
  induction m as [|m IH]; intros Hm; [done|].
  rewrite seq_S, map_app, concat_app, length_app, IH by lia. cbn [map concat Nat.add].
  rewrite app_nil_r, length_take, length_drop. specialize (H m ltac:(lia)). lia.
Qed.

(** ** The staged columns *)

(** The layout of the engine: entry [k] of column [nn] is at [k * MM_N + nn]. *)
Definition staged (bstage bbuf : list Z) : Prop :=
  length bbuf = (NUM_COLS * MM_N)%nat /\
  forall k nn, (k < NUM_COLS)%nat -> (nn < MM_N)%nat -> bbuf !! (k * MM_N + nn)%nat = bstage !! (nn * NUM_COLS + k)%nat.

Definition transposed_step (bstage : list Z) (ks : nat) : list Z :=
  v_transpose (concat (map (fun n => take MM_K (drop (n * NUM_COLS + ks * MM_K) bstage)) (seq 0 MM_N))) MM_N MM_K.

Definition transposed (bstage : list Z) : list Z := concat (map (transposed_step bstage) (seq 0 MM_K_STEPS)).

Lemma step_bounds (bstage : list Z) ks : length bstage = (MM_N * NUM_COLS)%nat -> (ks < MM_K_STEPS)%nat ->
  forall n, (n < MM_N)%nat -> (n * NUM_COLS + ks * MM_K + MM_K <= length bstage)%nat.
Proof using ok.
  intros Hb Hk n Hn. assert (H := g_k_steps). assert (ks * MM_K + MM_K <= NUM_COLS)%nat by nia. nia.
Qed.

Lemma transposed_step_length bstage ks : length bstage = (MM_N * NUM_COLS)%nat -> (ks < MM_K_STEPS)%nat ->
  length (transposed_step bstage ks) = (MM_K * MM_N)%nat.
Proof using ok mespec.
  intros Hb Hk. unfold transposed_step. rewrite v_transpose_length; [lia|].
  apply gathered_length. intros n Hn. by apply step_bounds.
Qed.

Lemma transposed_prefix bstage m : length bstage = (MM_N * NUM_COLS)%nat -> (m <= MM_K_STEPS)%nat ->
  length (concat (map (transposed_step bstage) (seq 0 m))) = (m * (MM_K * MM_N))%nat.
Proof using ok mespec.
  intros Hb. induction m as [|m IH]; intros Hm; [done|].
  rewrite seq_S, map_app, concat_app, length_app, IH by lia. cbn [map concat Nat.add].
  rewrite app_nil_r, transposed_step_length by (done || lia). lia.
Qed.

Lemma stage_transpose bstage bbuf : length bstage = (MM_N * NUM_COLS)%nat -> length bbuf = (NUM_COLS * MM_N)%nat ->
  mm_stage_b_transpose bstage bbuf = Some (transposed bstage) /\ staged bstage (transposed bstage).
Proof using ok mespec.
  intros Hs Hb. assert (Hk := g_k_steps).
  assert (Hlen : length (transposed bstage) = (NUM_COLS * MM_N)%nat).
  { unfold transposed. rewrite transposed_prefix by (done || lia). nia. }
  split; [|split; [done|]].
  - unfold mm_stage_b_transpose.
    rewrite (loop_states (fun m => splice bbuf 0 (concat (map (transposed_step bstage) (seq 0 m)))) MM_K_STEPS).
    + fold (transposed bstage). by rewrite splice_all by lia.
    + cbn. by rewrite splice_nil.
    + intros ks Hks. rewrite gather_rows_ok by (by apply step_bounds). cbn [mbind option_bind].
      fold (transposed_step bstage ks). assert (Hl := transposed_step_length bstage ks Hs Hks).
      assert (Hp := transposed_prefix bstage ks Hs ltac:(lia)).
      assert (ks * (MM_K * MM_N) + MM_K * MM_N <= length bbuf)%nat by nia.
      rewrite store_v_ok by (rewrite ?length_splice; lia). f_equal.
      assert (Hsp := splice_splice bbuf 0 (concat (map (transposed_step bstage) (seq 0 ks))) (transposed_step bstage ks)).
      cbn [Nat.add] in Hsp. rewrite Hp in Hsp. rewrite Hsp by lia. f_equal.
      rewrite seq_S, map_app, concat_app. cbn [map concat Nat.add]. by rewrite app_nil_r.
  - intros k nn Hkk Hn. assert (Hd := Nat.div_mod_eq k MM_K).
    set (q := (k / MM_K)%nat) in *. set (r := (k mod MM_K)%nat) in *.
    assert (Hr : (r < MM_K)%nat) by (apply Nat.mod_upper_bound; unfold MM_K; lia).
    assert (Hq : (q < MM_K_STEPS)%nat) by nia.
    replace (k * MM_N + nn)%nat with (q * (MM_K * MM_N) + (r * MM_N + nn))%nat by nia.
    unfold transposed. rewrite (concat_lookup (transposed_step bstage) (MM_K * MM_N)); [..|nia].
    + unfold transposed_step. rewrite v_transpose_lookup; [|..|done|done].
      * rewrite gathered_at; [f_equal; lia|by apply step_bounds|done..].
      * apply gathered_length. by apply step_bounds.
    + intros i Hi. by apply transposed_step_length.
    + done.
Qed.

(** ** The product of four rows *)

(** The products of the entries of row [r] and column [nn]. *)
Definition products (a blk : list Z) (r nn : nat) : list Z :=
  zip_with Z.mul (piece NUM_COLS a r) (piece NUM_COLS blk nn).

Lemma piece_int8 size l i : Forall is_int8 l -> Forall is_int8 (piece size l i).
Proof. intros H. unfold piece. by apply Forall_take, Forall_drop. Qed.

Lemma products_lookup a blk r nn k : ((r + 1) * NUM_COLS <= length a)%nat -> ((nn + 1) * NUM_COLS <= length blk)%nat ->
  (k < NUM_COLS)%nat -> products a blk r nn !! k = Some (at_ a (r * NUM_COLS + k) * at_ blk (nn * NUM_COLS + k)).
Proof.
  intros Ha Hb Hk. unfold products. rewrite lookup_zip_with, !piece_lookup by done.
  rewrite (at_lookup a), (at_lookup blk) by nia. done.
Qed.

Lemma products_length a blk r nn : ((r + 1) * NUM_COLS <= length a)%nat -> ((nn + 1) * NUM_COLS <= length blk)%nat ->
  length (products a blk r nn) = NUM_COLS.
Proof. intros Ha Hb. unfold products. rewrite length_zip_with_l_eq; rewrite !length_piece; done. Qed.

Lemma products_prefix_range a blk r nn x : Forall is_int8 a -> Forall is_int8 blk ->
  ((r + 1) * NUM_COLS <= length a)%nat -> ((nn + 1) * NUM_COLS <= length blk)%nat ->
  - 2 ^ 31 <= zsum (take x (products a blk r nn)) < 2 ^ 31.
Proof using ok.
  intros Ha Hb Hla Hlb. assert (Hs := g_sum_bound).
  assert (Hf : Forall (fun z => - 16384 <= z <= 16384) (take x (products a blk r nn))).
  { apply Forall_take. apply Forall_lookup. intros i z. unfold products. rewrite lookup_zip_with.
    destruct (piece NUM_COLS a r !! i) as [u|] eqn:Hu; [|done].
    destruct (piece NUM_COLS blk nn !! i) as [v|] eqn:Hv; [|done]. intros [= <-].
    apply int8_product; (eapply (Forall_lookup_1 is_int8); [|eassumption]); by apply piece_int8. }
  apply zsum_bound in Hf. assert (Hl := products_length a blk r nn Hla Hlb).
  rewrite length_take in Hf. assert (Hm : (Nat.min x (length (products a blk r nn)) <= NUM_COLS)%nat) by lia. lia.
Qed.

(** One step of the engine adds sixteen products. *)
Lemma tile_step a blk bbuf ms ks m nn : length a = (NUM_ROWS_PER_TILE * NUM_COLS)%nat ->
  length blk = (MM_N * NUM_COLS)%nat -> staged blk bbuf -> (ms < MM_M_SUB)%nat -> (ks < MM_K_STEPS)%nat ->
  (m < MM_M)%nat -> (nn < MM_N)%nat ->
  tile_product (concat (map (fun r => take MM_K (drop ((ms * MM_M + r) * NUM_COLS + ks * MM_K) a)) (seq 0 MM_M)))
    (take (MM_K * MM_N) (drop (ks * (MM_K * MM_N)) bbuf)) m nn
  = zsum (take MM_K (drop (ks * MM_K) (products a blk (ms * MM_M + m) nn))).
Proof using ok.
  intros Ha Hb [Hsl Hs] Hms Hks Hm Hn. assert (Hk := g_k_steps). assert (Hr := g_sub_rows).
  assert (Hin : (ks * MM_K + MM_K <= NUM_COLS)%nat) by nia.
  assert (Hrow : forall r, (r < MM_M)%nat -> ((ms * MM_M + r + 1) * NUM_COLS <= length a)%nat).
  { intros r Hr'. rewrite Ha. apply Nat.mul_le_mono_r. nia. }
  assert (Hpl := products_length a blk (ms * MM_M + m) nn (Hrow m Hm) ltac:(nia)).
  unfold tile_product. f_equal. apply list_eq. intros k.
  destruct (decide (k < MM_K)%nat) as [Hk'|Hk'].
  2: { rewrite !lookup_ge_None_2; [done|rewrite length_take; lia|rewrite length_map, length_seq; lia]. }
  rewrite lookup_take_lt, lookup_drop, products_lookup by (try apply Hrow; nia).
  change @map with (fun A B => @fmap list list_fmap A B). cbv beta.
  rewrite list_lookup_fmap, lookup_seq_lt by done. cbn [fmap option_fmap option_map Nat.add]. do 2 f_equal.
  - unfold at_. rewrite (gathered_at MM_M MM_K a); [do 2 f_equal; lia| |done|done].
    intros r Hr'. specialize (Hrow r Hr'). lia.
  - unfold at_. rewrite lookup_take_lt, lookup_drop by nia.
    replace (ks * (MM_K * MM_N) + (k * MM_N + nn))%nat with ((ks * MM_K + k) * MM_N + nn)%nat by lia.
    by rewrite Hs by (done || nia).
Qed.

Lemma accumulated a blk bbuf ms : length a = (NUM_ROWS_PER_TILE * NUM_COLS)%nat ->
  length blk = (MM_N * NUM_COLS)%nat -> Forall is_int8 a -> Forall is_int8 blk -> staged blk bbuf ->
  (ms < MM_M_SUB)%nat ->
  exists C, mm_accumulate a bbuf ms = Some C /\
    forall m nn, (m < MM_M)%nat -> (nn < MM_N)%nat ->
      mm_to_vector C !! (m * MM_N + nn)%nat = Some (zsum (products a blk (ms * MM_M + m) nn)).
Proof using ok mespec.
  intros Ha Hb Hga Hgb Hst Hms. assert (Hk := g_k_steps). assert (Hr := g_sub_rows).
  assert (Hrow : forall r, (r < MM_M)%nat -> ((ms * MM_M + r + 1) * NUM_COLS <= length a)%nat).
  { intros r Hr'. rewrite Ha. apply Nat.mul_le_mono_r. nia. }
  assert (Hcol : forall nn, (nn < MM_N)%nat -> ((nn + 1) * NUM_COLS <= length blk)%nat) by nia.
  assert (Hrange := fun m nn x Hm Hn =>
    products_prefix_range a blk (ms * MM_M + m) nn x Hga Hgb (Hrow m Hm) (Hcol nn Hn)).
  assert (Hpos : (0 < NUM_COLS)%nat).
  { assert (H1 := g_tile_rows_pos). assert (H2 := g_row_tiles). assert (H3 := g_panel_rows). unfold NUM_COLS, NUM_HW_ROWS, NUM_HW_COLS in *. lia. }
  unfold mm_accumulate.
  match goal with |- context [loop MM_K_STEPS 0 ?body ?start] =>
  destruct (loop_invariant (fun ks C => ks = 0%nat \/ forall m nn, (m < MM_M)%nat -> (nn < MM_N)%nat ->
    mm_lane C (m * MM_N + nn) = zsum (take (ks * MM_K) (products a blk (ms * MM_M + m) nn))) MM_K_STEPS
    body start) as (C & HC & [H0|Hl]); [by left| |lia| ] end.
  - intros ks C Hks HP. assert (Hin : (ks * MM_K + MM_K <= NUM_COLS)%nat) by nia.
    rewrite gather_rows_ok by (intros r Hr'; specialize (Hrow r Hr'); lia). cbn [mbind option_bind].
    rewrite load_v_ok by (destruct Hst as [-> _]; nia). cbn [mbind option_bind].
    eexists. split; [done|right]. intros m nn Hm Hn.
    assert (Ht := tile_step a blk bbuf ms ks m nn Ha Hb Hst Hms Hks Hm Hn).
    assert (Hx := Hrange m nn (Datatypes.S ks * MM_K)%nat Hm Hn).
    replace (Datatypes.S ks * MM_K)%nat with (ks * MM_K + MM_K)%nat in * by lia.
    rewrite <- take_take_drop, zsum_app, <- Ht in Hx |- *.
    destruct (Nat.eqb_spec ks 0) as [->|Hne].
    + cbn [Nat.mul take] in *. rewrite mm_mul_lane by (done || exact Hx). done.
    + destruct HP as [?|HP]; [done|]. rewrite <- (HP m nn Hm Hn) in Hx |- *. by apply mm_mac_lane.
  - exists C. split; [done|]. intros m nn Hm Hn. rewrite mm_to_vector_lane; rewrite ?Hl by done.
    + f_equal. f_equal. apply take_ge. rewrite products_length by auto. lia.
    + nia.
    + by apply Hrange.
Qed.

(** ** The window of results *)

(** The narrowed inner product of a row and a column. *)
Definition saturated_product (row col : list Z) : Z := saturate (zsum (zip_with Z.mul row col)).

Definition mm_block (a blk : list Z) : list Z := block_results MM_N NUM_ROWS_PER_TILE NUM_COLS saturated_product a blk.

Lemma mm_block_length a blk : length (mm_block a blk) = (MM_N * NUM_ROWS_PER_TILE)%nat.
Proof. apply block_results_length. Qed.

Lemma mm_block_lookup a blk nn r : (nn < MM_N)%nat -> (r < NUM_ROWS_PER_TILE)%nat ->
  mm_block a blk !! (nn * NUM_ROWS_PER_TILE + r)%nat = Some (saturate (zsum (products a blk r nn))).
Proof.
  intros Hn Hr. unfold mm_block, block_results.
  rewrite (concat_lookup _ NUM_ROWS_PER_TILE); [|intros; by rewrite length_map, length_seq|done|done].
  rewrite list_lookup_fmap, lookup_seq_lt by done. done.
Qed.

(** The entries of the first [m] rows are there, those of the next row for the first [nn] columns. *)
Definition rows_done (m nn x : nat) : Prop :=
  (x mod NUM_ROWS_PER_TILE < m)%nat \/
  (x mod NUM_ROWS_PER_TILE = m /\ x / NUM_ROWS_PER_TILE < nn)%nat.

Lemma rows_done_next m nn x : rows_done m (Datatypes.S nn) x ->
  rows_done m nn x \/ x = (nn * NUM_ROWS_PER_TILE + m)%nat.
Proof using ok.
  unfold rows_done. assert (Hp := g_tile_rows_pos). assert (Hd := Nat.div_mod_eq x NUM_ROWS_PER_TILE). intros [H|[H1 H2]]; [auto|].
  destruct (decide (x / NUM_ROWS_PER_TILE = nn)%nat) as [<-|]; [right; lia|left; right; lia].
Qed.

Lemma rows_done_row m x : (x < MM_N * NUM_ROWS_PER_TILE)%nat -> rows_done (Datatypes.S m) 0 x -> rows_done m MM_N x.
Proof using ok.
  unfold rows_done. assert (Hp := g_tile_rows_pos). intros Hx [H|H]; [|lia].
  assert (x / NUM_ROWS_PER_TILE < MM_N)%nat by (apply Nat.Div0.div_lt_upper_bound; lia). lia.
Qed.

Lemma block_computed a blk bbuf intr nb : length a = (NUM_ROWS_PER_TILE * NUM_COLS)%nat ->
  length blk = (MM_N * NUM_COLS)%nat -> Forall is_int8 a -> Forall is_int8 blk -> staged blk bbuf ->
  (nb mod MM_NBLK_PER_FLUSH * (MM_N * NUM_ROWS_PER_TILE) + MM_N * NUM_ROWS_PER_TILE <= length intr)%nat ->
  mm_compute_nblock a bbuf intr nb
    = Some (splice intr (nb mod MM_NBLK_PER_FLUSH * (MM_N * NUM_ROWS_PER_TILE)) (mm_block a blk)).
Proof using ok mespec.
  intros Ha Hb Hga Hgb Hst. assert (HE := mm_block_length a blk). assert (Hr := g_sub_rows).
  unfold mm_compute_nblock. set (fb := (nb mod MM_NBLK_PER_FLUSH)%nat).
  set (base := (fb * (MM_N * NUM_ROWS_PER_TILE))%nat). intros Hi. rewrite <- HE in Hi.
  match goal with |- loop MM_M_SUB 0 ?body _ = _ =>
  destruct (loop_invariant (fun ms => written intr base (mm_block a blk) (rows_done (ms * MM_M) 0)) MM_M_SUB
    body intr) as (out & -> & Hout) end.
  - apply written_none. unfold rows_done. cbn. intros. lia.
  - intros ms l Hms Hl. destruct (accumulated a blk bbuf ms Ha Hb Hga Hgb Hst Hms) as (C & -> & HC).
    cbn [mbind option_bind].
    match goal with |- context [loop MM_M 0 ?body _] =>
    destruct (loop_invariant (fun m => written intr base (mm_block a blk) (rows_done (ms * MM_M + m) 0)) MM_M
      body l) as (out & -> & Hout) end.
    + by rewrite Nat.add_0_r.
    + clear l Hl. intros m l Hm Hl.
      match goal with |- context [loop MM_N 0 ?body _] =>
      destruct (loop_invariant (fun nn => written intr base (mm_block a blk) (rows_done (ms * MM_M + m) nn)) MM_N
        body l) as (out & -> & Hout) end; [done| |].
      * clear l Hl. intros nn l Hn Hl. rewrite HC by done. cbn [mbind option_bind].
        replace ((fb * MM_N + nn) * NUM_ROWS_PER_TILE + ms * MM_M + m)%nat
          with (base + (nn * NUM_ROWS_PER_TILE + (ms * MM_M + m)))%nat by (unfold base; lia).
        destruct (written_entry intr base (mm_block a blk) (rows_done (ms * MM_M + m) nn) l (nn * NUM_ROWS_PER_TILE + (ms * MM_M + m))
          (saturate (zsum (products a blk (ms * MM_M + m) nn))) Hi) as (l' & -> & Hl'); [|exact Hl|].
        { apply mm_block_lookup; [done|nia]. }
        exists l'. split; [done|]. eapply written_mono; [|exact Hl']. intros x _. apply rows_done_next.
      * exists out. split; [done|]. eapply written_mono; [|exact Hout]. intros x Hx. rewrite HE in Hx.
        rewrite Nat.add_succ_r. by apply rows_done_row.
    + exists out. split; [done|]. by replace (Datatypes.S ms * MM_M)%nat with (ms * MM_M + MM_M)%nat by lia.
  - f_equal. eapply written_all; [exact Hi| |exact Hout]. intros x _. left. rewrite <- Hr.
    apply Nat.mod_upper_bound. assert (Hp := g_tile_rows_pos). lia.
Qed.

(** Repeating the arithmetic of a block changes nothing, as the kernels say of their probe. *)
Lemma splice_twice (arr v : list Z) off : (off + length v <= length arr)%nat ->
  splice (splice arr off v) off v = splice arr off v.
Proof.
  intros H. apply list_eq. intros i. rewrite !splice_lookup by (rewrite ?length_splice; done).
  by case_decide.
Qed.

Lemma block_repeated a blk bbuf intr nb : length a = (NUM_ROWS_PER_TILE * NUM_COLS)%nat ->
  length blk = (MM_N * NUM_COLS)%nat -> Forall is_int8 a -> Forall is_int8 blk -> staged blk bbuf ->
  (nb mod MM_NBLK_PER_FLUSH * (MM_N * NUM_ROWS_PER_TILE) + MM_N * NUM_ROWS_PER_TILE <= length intr)%nat ->
  loop CEILING_REPEAT 0 (fun _ intr => mm_compute_nblock a bbuf intr nb) intr
    = Some (splice intr (nb mod MM_NBLK_PER_FLUSH * (MM_N * NUM_ROWS_PER_TILE)) (mm_block a blk)).
Proof using ok mespec.
  intros Ha Hb Hga Hgb Hst Hi. assert (Hrep := g_repeat). assert (HE := mm_block_length a blk).
  destruct (loop_invariant (fun i l => l = if (i =? 0)%nat then intr else
    splice intr (nb mod MM_NBLK_PER_FLUSH * (MM_N * NUM_ROWS_PER_TILE)) (mm_block a blk)) CEILING_REPEAT
    (fun _ intr => mm_compute_nblock a bbuf intr nb) intr) as (out & -> & ->); [done| |].
  - intros i l _ ->. eexists. split; [|done]. destruct (i =? 0)%nat.
    + by apply block_computed.
    + rewrite (block_computed a blk) by (rewrite ?length_splice by (rewrite HE; done); done).
      by rewrite splice_twice by (rewrite HE; done).
  - by destruct (Nat.eqb_spec CEILING_REPEAT 0); [lia|].
Qed.
End Engine.
