(* ===== verification/GemmRow.v ===== *)
(** A row of cores of the 8-bit matrix multiplication example ([example/example_oob_4x4]).

    The kernels of Gemm.v, connected in a row, are an instance of RowProduct.v: every interleaving of
    the cores ends, with the narrowed inner products of the rows and columns ([gemm_row_computes]). *)
From stdpp Require Import base list gmap.
From Stdlib Require Import ZArith Lia.
From S2P Require Import Prelude Windows.
From S2P Require Import Chain Core Tiles RowProduct.
From S2P Require Import Gemm.
Local Open Scope Z_scope.

Section Row.
Context {cfg : GemmConfig} {ok : GemmConfigOk} {me : MatrixEngine} {mespec : MatrixEngineSpec}.
(** The identifier of a core has its column in bits 16 to 22. *)
Context (coreid : nat -> Z).
Hypothesis coreid_column : forall c, (c < NUM_HW_COLS)%nat -> currentCol (coreid c) = Z.of_nat c.

Local Notation NA := (NUM_A_ELMNTS_PER_TILE / WIN_SIZE)%nat.
Local Notation NW := (NUM_COLS / WIN_SIZE)%nat.
Local Notation RPT := NUM_ROWS_PER_TILE.
Local Notation G := MM_NBLK_PER_FLUSH.

Lemma panel_pos : (0 < PANEL_SIZE)%nat.
Proof using ok.
  assert (H1 := g_tile_rows_pos). assert (H2 := g_row_tiles). assert (H3 := g_panel_rows).
  unfold NUM_HW_ROWS, NUM_HW_COLS in *. lia.
Qed.

Lemma one_window : NW = 1%nat.
Proof using ok. unfold NUM_COLS, WIN_SIZE. apply Nat.div_same. assert (H := panel_pos). lia. Qed.

Lemma gemm_stripe_windows : NA = RPT.
Proof using ok.
  rewrite g_tile_elements. unfold WIN_SIZE, NUM_COLS. apply Nat.div_mul. assert (H := panel_pos). lia.
Qed.

Lemma flush_pos : (0 < G)%nat.
Proof using ok. assert (H := g_flush). assert (H' := panel_pos). unfold WIN_SIZE in H. destruct G; lia. Qed.

Lemma gemm_chunk_split : MAT_A_CHUNK = (NUM_HW_COLS * (RPT * NUM_COLS))%nat.
Proof using ok. unfold MAT_A_CHUNK. rewrite g_row_tiles. lia. Qed.

Lemma gemm_panel_split : NUM_ELMNTS = (MM_N_BLOCKS * (MM_N * NUM_COLS))%nat.
Proof using ok. unfold NUM_ELMNTS. change PANEL_SIZE with NUM_COLS. rewrite g_n_blocks at 1. lia. Qed.

Lemma gemm_stripes_behind c : (c < NUM_HW_COLS)%nat ->
  stripes_behind (coreid c) = (NA * (NUM_HW_COLS - 1 - c))%nat.
Proof using ok coreid_column.
  intros Hc. unfold stripes_behind. rewrite coreid_column by done.
  assert (H1 : (NUM_HW_COLS <= 128)%nat) by (unfold NUM_HW_COLS; lia).
  assert (H2 := g_elements_bound). assert (H4 := panel_pos).
  assert (H3 : NUM_A_ELMNTS_PER_TILE = (NA * WIN_SIZE)%nat) by (rewrite gemm_stripe_windows; apply g_tile_elements).
  rewrite (wrap_u_small 32 (Z.of_nat NUM_HW_COLS - Z.of_nat c - 1)) by lia.
  replace (Z.of_nat NUM_HW_COLS - Z.of_nat c - 1) with (Z.of_nat (NUM_HW_COLS - 1 - c)) by lia.
  rewrite <- Nat2Z.inj_mul, wrap_u_small by nia. rewrite <- Nat2Z.inj_div, Nat2Z.id.
  rewrite H3 at 1. rewrite <- Nat.mul_assoc, (Nat.mul_comm WIN_SIZE), Nat.mul_assoc.
  by rewrite Nat.div_mul by (unfold WIN_SIZE; lia).
Qed.

(** Every kernel of the row has the common shape. *)
Lemma gemm_row_shape c st k : (c < NUM_HW_COLS)%nat ->
  ConnectSystolicArray_Row_LToR coreid c st k
  = row_core NA MM_N NW MM_N_BLOCKS WIN_SIZE read_a stage_on stage_last copy_in copy_out
      multiply_block results_full write_results NUM_HW_COLS c st k.
Proof using ok coreid_column.
  intros Hc. unfold ConnectSystolicArray_Row_LToR, row_core.
  assert (Hcol : Z.to_nat (currentCol (coreid c)) = c) by (rewrite coreid_column by done; lia).
  destruct (Nat.eqb_spec c 0) as [->|H0]; [|destruct (Nat.ltb_spec c (NUM_HW_COLS - 1))].
  - rewrite bool_decide_true by (unfold NUM_HW_COLS; lia). rewrite (OneInput_gemm _ _ (Result, 0%nat)).
    by rewrite gemm_stripes_behind by lia.
  - rewrite bool_decide_true by lia. rewrite TwoInputs_gemm, Hcol. by rewrite gemm_stripes_behind by lia.
  - rewrite bool_decide_false by lia. rewrite (OneOutput_gemm _ _ _ (Data, S c)), Hcol.
    by replace (NUM_HW_COLS - 1 - c)%nat with 0%nat by lia; rewrite Nat.mul_0_r.
Qed.

(** ** Array operations on whole windows *)

Lemma gemm_vectors : (WIN_SIZE / VEC_IN * VEC_IN = WIN_SIZE)%nat.
Proof using ok. symmetry. apply g_win_vectors. Qed.

Lemma gemm_read_a i win st : length win = WIN_SIZE -> (i * WIN_SIZE + WIN_SIZE <= length (k_a st))%nat ->
  read_a i win st = Some (mkStatics (splice (k_a st) (i * WIN_SIZE) win) (k_bbuf st) (k_bstage st) (k_intr st)).
Proof using ok. intros Hw Ha. unfold read_a. by rewrite read_into_window by (rewrite gemm_vectors; lia). Qed.

Lemma gemm_stage_last nn w win st : length win = WIN_SIZE ->
  (nn * NUM_COLS + w * WIN_SIZE + WIN_SIZE <= length (k_bstage st))%nat ->
  stage_last nn w win st
    = Some (mkStatics (k_a st) (k_bbuf st) (splice (k_bstage st) (nn * NUM_COLS + w * WIN_SIZE) win) (k_intr st)).
Proof using ok. intros Hw Ha. unfold stage_last. by rewrite read_into_window by (rewrite gemm_vectors; lia). Qed.

Lemma gemm_stage_on nn w win st : length win = WIN_SIZE ->
  (nn * NUM_COLS + w * WIN_SIZE + WIN_SIZE <= length (k_bstage st))%nat ->
  stage_on nn w win st
    = Some (mkStatics (k_a st) (k_bbuf st) (splice (k_bstage st) (nn * NUM_COLS + w * WIN_SIZE) win) (k_intr st), win).
Proof using ok.
  intros Hw Hb. unfold stage_on. set (off := (nn * NUM_COLS + w * WIN_SIZE)%nat) in *. set (b := k_bstage st) in *.
  assert (Hv := gemm_vectors).
  rewrite (loop_states (fun x => (splice b off (take (x * VEC_IN) win), (x * VEC_IN)%nat, take (x * VEC_IN) win))
    (WIN_SIZE / VEC_IN)).
  - rewrite Hv, !take_ge by lia. done.
  - cbn. by rewrite splice_nil.
  - intros x Hx. assert (Hin : (x * VEC_IN + VEC_IN <= WIN_SIZE)%nat) by nia. unfold window_readincr_v.
    rewrite load_v_ok by lia. cbn [mbind option_bind].
    assert (Hl : length (take (x * VEC_IN) win) = (x * VEC_IN)%nat) by (rewrite length_take; lia).
    assert (Hl' : length (take VEC_IN (drop (x * VEC_IN) win)) = VEC_IN) by (rewrite length_take, length_drop; lia).
    replace (nn * NUM_COLS + (w * WIN_SIZE + x * VEC_IN))%nat with (off + x * VEC_IN)%nat by (unfold off; lia).
    rewrite store_v_ok by (rewrite length_splice; lia). cbn [mbind option_bind].
    assert (Hs := splice_splice b off (take (x * VEC_IN) win) (take VEC_IN (drop (x * VEC_IN) win))).
    rewrite Hl, Hl' in Hs. rewrite Hs by lia. rewrite take_take_drop.
    by replace (x * VEC_IN + VEC_IN)%nat with (S x * VEC_IN)%nat by lia.
Qed.

Lemma gemm_write_results st : length (k_intr st) = WIN_SIZE ->
  write_results st = Some (mkStatics (k_a st) (k_bbuf st) (k_bstage st) (replicate WIN_SIZE 0), k_intr st).
Proof using ok.
  intros Hi. unfold write_results. change VEC_OUT with VEC_IN.
  rewrite drain_into_all by (rewrite gemm_vectors; lia). by rewrite gemm_vectors.
Qed.

(** ** The arithmetic of a block *)

(** The statics of a kernel from its arrays; the transposed columns are rewritten by every block. *)
Definition gemm_statics (a bstage intr bbuf : list Z) (_ : nat) : statics := mkStatics a bbuf bstage intr.

Lemma block_step g a blk intr bbuf : length a = (RPT * NUM_COLS)%nat -> length blk = (MM_N * NUM_COLS)%nat ->
  length intr = WIN_SIZE -> Forall is_int8 a -> Forall is_int8 blk -> length bbuf = (NUM_COLS * MM_N)%nat ->
  multiply_block g (gemm_statics a blk intr bbuf g)
    = Some (gemm_statics a blk (splice intr (g mod G * (MM_N * RPT)) (mm_block a blk)) (transposed blk) g) /\
  length (transposed blk) = (NUM_COLS * MM_N)%nat.
Proof using ok mespec.
  intros Ha Hb Hi Hga Hgb Hl. destruct (stage_transpose blk bbuf Hb Hl) as [Ht Hst].
  assert (Hm := mod_room G (MM_N * RPT) flush_pos g). assert (Hf := g_flush).
  split; [|apply Hst]. unfold multiply_block, gemm_statics. cbn [k_a k_bbuf k_bstage k_intr].
  rewrite Ht. cbn [mbind option_bind]. by rewrite (block_repeated a blk) by (done || lia).
Qed.

Lemma block_full g st : results_full g st = window_full G g.
Proof using ok.
  unfold results_full. assert (H := window_full_spec G flush_pos g).
  destruct (Nat.eqb_spec (g mod G) (G - 1)) as [He|He], (window_full G g) eqn:E; try done; exfalso.
  - apply H in He. congruence.
  - by apply He, H.
Qed.

(** ** Call after call *)

(** The row before it starts, with the operands of [T] iterations; static arrays start cleared. *)
Definition gemm_start (cap : chan -> nat) (T : nat) (chunk panel : nat -> list Z) : network :=
  session_start NUM_HW_COLS NA MM_N NW MM_N_BLOCKS WIN_SIZE gemm_statics
    (ConnectSystolicArray_Row_LToR coreid) cap T chunk panel
    (replicate NUM_A_ELMNTS_PER_TILE 0) (replicate (MM_N * NUM_COLS) 0) (replicate WIN_SIZE 0)
    (replicate (NUM_COLS * MM_N) 0).

Lemma gemm_row_all cap T chunk panel :
  (forall t, (t < T)%nat -> length (chunk t) = MAT_A_CHUNK /\ length (panel t) = NUM_ELMNTS /\
    Forall is_int8 (chunk t) /\ Forall is_int8 (panel t)) ->
  exists total, forall l s, play l (gemm_start cap T chunk panel) = Some s ->
    (length l <= total)%nat /\ (exists rest f, play rest s = Some f /\ halted f) /\
    (halted s -> exists out, collected NUM_HW_COLS s = Some out /\ length out = (T * MAT_A_CHUNK)%nat /\
      forall t i c m k, (t < T)%nat -> (i < MM_N_BLOCKS / G)%nat -> (c < NUM_HW_COLS)%nat ->
        (m < G * MM_N)%nat -> (k < RPT)%nat ->
        out !! (t * MAT_A_CHUNK + (i * (NUM_HW_COLS * WIN_SIZE) + (c * WIN_SIZE + (m * RPT + k))))%nat
          = Some (saturated_product (piece NUM_COLS (chunk t) (c * RPT + k))
              (piece NUM_COLS (panel t) (i * (G * MM_N) + m)))).
Proof.
  intros Hlen. rewrite gemm_chunk_split. unfold gemm_start.
  apply (row_product NUM_HW_COLS NA MM_N MM_N NW MM_N_BLOCKS WIN_SIZE RPT NUM_COLS G
    ltac:(unfold NUM_HW_COLS; lia) ltac:(unfold MM_N; lia) ltac:(rewrite one_window; lia) flush_pos panel_pos
    ltac:(rewrite gemm_stripe_windows; done) ltac:(rewrite one_window; unfold WIN_SIZE, NUM_COLS; lia)
    ltac:(symmetry; apply g_flush) g_flushes ltac:(symmetry; apply g_n_blocks)
    gemm_statics gemm_statics (fun bbuf => length bbuf = (NUM_COLS * MM_N)%nat) is_int8 saturated_product
    (fun _ blk _ => transposed blk) read_a stage_on stage_last copy_in copy_out multiply_block results_full
    write_results (ConnectSystolicArray_Row_LToR coreid)).
  - intros x w a sb intr h Hw Ha. unfold gemm_statics. by rewrite gemm_read_a.
  - intros nn w win a sb intr h g Hnn Hw Hwin Hs. rewrite one_window in *. unfold gemm_statics.
    assert (w = 0%nat) as -> by lia. change NUM_COLS with WIN_SIZE in *.
    replace ((nn * 1 + 0) * WIN_SIZE)%nat with (nn * NUM_COLS + 0 * WIN_SIZE)%nat in * by (change NUM_COLS with WIN_SIZE; lia).
    by rewrite gemm_stage_on, gemm_stage_last.
  - intros g a blk intr h _ Ha Hb Hi Hga Hgb Hh. by apply block_step.
  - intros. apply block_full.
  - intros g a sb intr h Hi. destruct (window_full G g); [|done]. by rewrite gemm_write_results.
  - done.
  - intros w Hw. assert (copy_in w = Some w) by (apply copy_window_id; by rewrite gemm_vectors). done.
  - intros c st k Hc. by apply gemm_row_shape.
  - rewrite length_replicate. apply g_tile_elements.
  - apply length_replicate.
  - apply length_replicate.
  - apply length_replicate.
  - intros t Ht. destruct (Hlen t Ht) as (H1 & H2 & H3 & H4).
    split_and!; [by rewrite H1, gemm_chunk_split|by rewrite H2, gemm_panel_split|done|done].
Qed.

(** C13: for any number of calls, 8-bit operands, buffers per connection and any interleaving of the
    cores: the schedules are bounded, every schedule can be continued until all cores have finished,
    and when no core can move the collector holds, call after call, the inner products of the rows and
    columns narrowed to 8 bits by saturation, in the order of the kernels' write. *)
Theorem gemm_row_computes cap T chunk panel :
  (forall t, (t < T)%nat -> length (chunk t) = MAT_A_CHUNK /\ length (panel t) = NUM_ELMNTS /\
    Forall is_int8 (chunk t) /\ Forall is_int8 (panel t)) ->
  exists total, forall l s, play l (gemm_start cap T chunk panel) = Some s ->
    (length l <= total)%nat /\ (exists rest f, play rest s = Some f /\ halted f) /\
    (halted s -> exists out, collected NUM_HW_COLS s = Some out /\ length out = (T * MAT_A_CHUNK)%nat /\
      forall t i c m k, (t < T)%nat -> (i < MM_N_BLOCKS / G)%nat -> (c < NUM_HW_COLS)%nat ->
        (m < G * MM_N)%nat -> (k < RPT)%nat ->
        out !! (t * MAT_A_CHUNK + (i * (NUM_HW_COLS * WIN_SIZE) + (c * WIN_SIZE + (m * RPT + k))))%nat
          = Some (saturated_product (piece NUM_COLS (chunk t) (c * RPT + k))
              (piece NUM_COLS (panel t) (i * (G * MM_N) + m)))).
Proof. intros Hlen. apply gemm_row_all. exact Hlen. Qed.
End Row.

(** * Instances *)

Module GemmDemo.

(** An exact engine. *)
Definition engine : MatrixEngine := {|
  accum := nat -> Z;
  mm_start := fun _ => 0;
  mm_mul av bv := fun i => tile_product av bv (i / MM_N) (i mod MM_N);
  mm_mac c av bv := fun i => c i + tile_product av bv (i / MM_N) (i mod MM_N);
  mm_to_vector c := map c (seq 0 (MM_M * MM_N));
  mm_lane c i := c i;
  v_transpose v r c := map (fun i => at_ v ((i mod r) * c + i / r)) (seq 0 (r * c));
|}.

Lemma map_seq_lookup (f : nat -> Z) n i : (i < n)%nat -> map f (seq 0 n) !! i = Some (f i).
Proof.
  intros Hi. change (map f (seq 0 n)) with (f <$> seq 0 n).
  by rewrite list_lookup_fmap, lookup_seq_lt by done.
Qed.

Lemma lane_split n m i : (i < n)%nat -> ((m * n + i) / n = m /\ (m * n + i) mod n = i)%nat.
Proof.
  intros Hi. split.
  - symmetry. apply (Nat.div_unique _ _ _ i); lia.
  - symmetry. apply (Nat.mod_unique _ _ m); lia.
Qed.

Lemma engine_ok : @MatrixEngineSpec engine.
Proof.
  constructor; cbn [mm_lane mm_mul mm_mac mm_to_vector v_transpose engine].
  - intros av bv m n _ Hn _. by destruct (lane_split MM_N m n Hn) as [-> ->].
  - intros c av bv m n _ Hn _. by destruct (lane_split MM_N m n Hn) as [-> ->].
  - intros c i Hi _. by apply map_seq_lookup.
  - intros v r c _. by rewrite length_map, length_seq.
  - intros v r c i j Hv Hi Hj. rewrite map_seq_lookup by nia. destruct (lane_split r j i Hi) as [-> ->].
    symmetry. apply at_lookup. nia.
Qed.

(** Core identifiers of a row. *)
Definition ids (c : nat) : Z := Z.shiftl (Z.of_nat c) 16 + 3.

Lemma gemm_ids_column c : (c < NUM_HW_COLS)%nat -> currentCol (ids c) = Z.of_nat c.
Proof.
  intros Hc. assert (H : forallb (fun c => currentCol (ids c) =? Z.of_nat c) (seq 0 4) = true)
    by (vm_compute; reflexivity).
  rewrite forallb_forall in H. apply Z.eqb_eq, H, in_seq. unfold NUM_HW_COLS in Hc. lia.
Qed.

(** The smallest panels of the right shape, and signed operands whose products exceed 8 bits. *)
Definition small : GemmConfig := {| PANEL_SIZE := 64; NUM_PANELS := 1; CEILING_REPEAT := 2 |}.

Lemma small_panel_ok : @GemmConfigOk small.
Proof. constructor; vm_compute; reflexivity || lia. Qed.

Definition numbers (n : nat) : list Z := map (fun i => (Z.of_nat i * 7) mod 11 - 5) (seq 0 n).

Definition finished (order : list nat) : option (list Z) :=
  collected 4 (in_turns 3000 order (@gemm_start small engine ids (fun _ => 1%nat) 1
    (fun _ => numbers 1024) (fun _ => numbers 4096))).
(** Two orders of the cores, the same results: some narrowed, some not. *)
Example gemm_order_does_not_matter :
  finished [0; 1; 2; 3; 4; 5]%nat = finished [5; 3; 4; 1; 2; 0; 3]%nat /\
  (take 4 <$> finished [0; 1; 2; 3; 4; 5]%nat) = Some [127; -128; -128; 52].
Proof. split; vm_compute; reflexivity. Qed.
End GemmDemo.

Lemma gemm_row_computes_witness :
  exists total, forall l s,
    play l (@gemm_start shipped GemmDemo.engine GemmDemo.ids (fun _ => 1%nat) 2
      (fun _ => replicate (@MAT_A_CHUNK shipped) 3) (fun _ => replicate (@NUM_ELMNTS shipped) (-2))) = Some s ->
    (length l <= total)%nat /\ (exists rest f, play rest s = Some f /\ halted f).
Proof.
  destruct (@gemm_row_computes shipped shipped_ok GemmDemo.engine GemmDemo.engine_ok
    GemmDemo.ids GemmDemo.gemm_ids_column (fun _ => 1%nat) 2
    (fun _ => replicate (@MAT_A_CHUNK shipped) 3) (fun _ => replicate (@NUM_ELMNTS shipped) (-2))) as [total H].
  - intros t _. split_and!; [apply length_replicate..| |]; apply Forall_replicate; unfold is_int8; lia.
  - exists total. intros l s Hl. destruct (H l s Hl) as (H1 & H2 & _). split; [exact H1|exact H2].
Defined.
