(* ===== verification/GemmHost.v ===== *)
(** The host program of the 8-bit matrix multiplication example ([example/example_oob_4x4/src/graph.cpp]).

    The program packs two matrices of [NUM_PANELS] by [NUM_PANELS] panels for the device, runs the array
    once for every product of two panels, adds up what comes back, and at the end compares five samples
    of the result with the values it expects, sorted.  [blocked_product] says what the sums are, under
    every interleaving of the cores of GemmRow.v: the narrowed products of the panels, added.  Since
    every panel is narrowed to 8 bits on its own, this is the narrowed product only for a single panel:
    the verification passes exactly then ([verification_passes_iff_one_panel]). *)
From stdpp Require Import base list gmap sorting.
From Stdlib Require Import ZArith Lia.
From S2P Require Import Prelude Windows.
From S2P Require Import Chain Core Tiles RowProduct.
From S2P Require Import Gemm GemmRow.
Local Open Scope Z_scope.

Section Host.
Context {cfg : GemmConfig}.
Local Notation NP := NUM_PANELS.
Local Notation P := PANEL_SIZE.

(** * Packing *)

(** The rows of the left operand for the four rows of the array, panel by panel.
    [example/example_oob_4x4/src/graph.cpp:225-236] [dev_A] *)
Definition dev_A (Afull : nat -> nat -> Z) : list Z :=
  flat_map (fun m_panel => flat_map (fun k_panel => flat_map (fun r => flat_map (fun lr =>
    let grow := (m_panel * P + r * NUM_ROWS_PER_HW_ROW + lr)%nat in
    map (fun c => Afull grow (k_panel * P + c)%nat) (seq 0 P))
  (seq 0 NUM_ROWS_PER_HW_ROW)) (seq 0 NUM_HW_ROWS)) (seq 0 NP)) (seq 0 NP).

(** The panels of the right operand, each transposed.
    [example/example_oob_4x4/src/graph.cpp:239-246] [dev_B] *)
Definition dev_B (Bfull : nat -> nat -> Z) : list Z :=
  flat_map (fun k_panel => flat_map (fun n_panel => flat_map (fun col =>
    map (fun l => Bfull (k_panel * P + l)%nat (n_panel * P + col)%nat) (seq 0 P))
  (seq 0 P)) (seq 0 NP)) (seq 0 NP).

(** [example/example_oob_4x4/src/graph.cpp:130-132] [devA_off] *)
Definition devA_off (mp kp r : nat) : nat := ((mp * NP + kp) * NUM_HW_ROWS + r) * MAT_A_CHUNK.

(** [example/example_oob_4x4/src/graph.cpp:133-135] [devB_off] *)
Definition devB_off (kp np_ : nat) : nat := (kp * NP + np_) * NUM_ELMNTS.

(** * The products of the panels *)

(** The iterations, in the order of the nested loops.
    [example/example_oob_4x4/src/graph.cpp:265-265] [total_panel_mul_iters] *)
Definition total_panel_mul_iters : nat := NP * NP * NP.

(** [example/example_oob_4x4/src/graph.cpp:291-294] [m_panel, n_panel, k_panel] *)
Definition iteration (m_panel n_panel k_panel : nat) : nat := (m_panel * NP + n_panel) * NP + k_panel.

(** [example/example_oob_4x4/src/graph.cpp:292-292] [m_panel] *)
Definition m_panel_of (t : nat) : nat := t / NP / NP.

(** [example/example_oob_4x4/src/graph.cpp:293-293] [n_panel] *)
Definition n_panel_of (t : nat) : nat := t / NP mod NP.

(** [example/example_oob_4x4/src/graph.cpp:294-294] [k_panel] *)
Definition k_panel_of (t : nat) : nat := t mod NP.

(** What row [r] of the array is sent in iteration [t].
    [example/example_oob_4x4/src/graph.cpp:305-310] [gm2aie_nb] *)
Definition sent_A (Afull : nat -> nat -> Z) (r t : nat) : list Z :=
  take MAT_A_CHUNK (drop (devA_off (m_panel_of t) (k_panel_of t) r) (dev_A Afull)).

(** [example/example_oob_4x4/src/graph.cpp:311-313] [gm2aie_nb] *)
Definition sent_B (Bfull : nat -> nat -> Z) (t : nat) : list Z :=
  take NUM_ELMNTS (drop (devB_off (k_panel_of t) (n_panel_of t)) (dev_B Bfull)).

(** What the rows have written after iteration [t]; [outs r] is all that row [r] writes.
    [example/example_oob_4x4/src/graph.cpp:318-328] [aie2gm_nb] *)
Definition mem_out (outs : nat -> list Z) (t : nat) : list Z :=
  concat (map (fun r => take MAT_A_CHUNK (drop (t * MAT_A_CHUNK) (outs r))) (seq 0 NUM_HW_ROWS)).

(** The sum over the panels of a row and a column of panels.
    [example/example_oob_4x4/src/graph.cpp:372-377] [cAcc] *)
Definition cAcc (outs : nat -> list Z) (m_panel n_panel : nat) : list Z :=
  fold_left (fun acc k_panel =>
      let out := mem_out outs (iteration m_panel n_panel k_panel) in
      if (k_panel =? 0)%nat then out else zip_with (fun x y => s32 (x + y)) acc out)
    (seq 0 NP) (replicate (NUM_HW_ROWS * MAT_A_CHUNK) 0).

(** [example/example_oob_4x4/src/graph.cpp:385-390] [all_C] *)
Definition all_C (outs : nat -> list Z) : list Z :=
  flat_map (fun m_panel => flat_map (fun n_panel => cAcc outs m_panel n_panel) (seq 0 NP)) (seq 0 NP).

(** * Verification *)

(** [example/example_oob_4x4/src/graph.cpp:218-220] [Aval] *)
Definition Aval (row : nat) : Z := s8 (Z.of_nat row mod 7 + 1).

(** [example/example_oob_4x4/src/graph.cpp:221-223] [Afull] *)
Definition Afull_shipped (r _ : nat) : Z := Aval r.

(** [example/example_oob_4x4/src/graph.cpp:106-106] [Bfull] *)
Definition Bfull_shipped (_ _ : nat) : Z := 1.

(** [example/example_oob_4x4/src/graph.cpp:625-625] [SpotSample] *)
Record SpotSample := mkSpot { m_panel : nat; n_panel : nat; chain : nat }.

(** [example/example_oob_4x4/src/graph.cpp:629-635] [spots] *)
Definition spots : list SpotSample :=
  [mkSpot 0 0 0; mkSpot 0 0 (NUM_HW_ROWS - 1); mkSpot (NP - 1) 0 2; mkSpot 0 (NP - 1) 1;
   mkSpot (NP - 1) (NP - 1) (NUM_HW_ROWS - 1)].

(** [example/example_oob_4x4/src/graph.cpp:641-644] [got] *)
Definition got (all : list Z) (s : SpotSample) : list Z :=
  let panel_base := ((m_panel s * NP + n_panel s) * NUM_HW_ROWS * MAT_A_CHUNK)%nat in
  take MAT_A_CHUNK (drop (panel_base + chain s * MAT_A_CHUNK) all).

(** [example/example_oob_4x4/src/graph.cpp:647-654] [rowsum] *)
Definition rowsum (grow : nat) : Z :=
  let v := s32 (s32 (Z.of_nat MATRIX_SIZE) * (Z.of_nat grow mod 7 + 1)) in
  if v >? 127 then 127 else if v <? -128 then -128 else v.

(** [example/example_oob_4x4/src/graph.cpp:645-657] [exp] *)
Definition expected (s : SpotSample) : list Z :=
  flat_map (fun lr => replicate P (rowsum (m_panel s * P + chain s * NUM_ROWS_PER_HW_ROW + lr)))
    (seq 0 NUM_ROWS_PER_HW_ROW).

(** [example/example_oob_4x4/src/graph.cpp:658-660] [got == exp] *)
Definition spot_ok (all : list Z) (s : SpotSample) : bool :=
  bool_decide (merge_sort Z.le (got all s) = merge_sort Z.le (expected s)).

(** The exit code on hardware.
    [example/example_oob_4x4/src/graph.cpp:636-689] [main] *)
Definition verification (all : list Z) : Z := if forallb (spot_ok all) spots then 0 else 1.
End Host.

(** * What the array is sent *)

Lemma flat_map_length_const (F : nat -> list Z) L m : (forall i, (i < m)%nat -> length (F i) = L) ->
  length (flat_map F (seq 0 m)) = (m * L)%nat.
Proof.
  induction m as [|m IH]; intros HF; [done|]. rewrite seq_S, flat_map_app, length_app, IH by auto.
  cbn [flat_map Nat.add]. rewrite app_nil_r, HF by lia. lia.
Qed.

Lemma flat_map_piece (F : nat -> list Z) L m i : (forall i, (i < m)%nat -> length (F i) = L) -> (i < m)%nat ->
  piece L (flat_map F (seq 0 m)) i = F i.
Proof.
  intros HF Hi. apply list_eq. intros j. rewrite flat_map_concat_map.
  destruct (decide (j < L)%nat) as [Hj|Hj].
  - rewrite piece_lookup by done. by rewrite (concat_lookup F L) by auto.
  - rewrite !lookup_ge_None_2; [done|rewrite HF by done; lia|]. unfold piece. rewrite length_take. lia.
Qed.

(** A piece of one of the lists that were put one after the other. *)
Lemma flat_map_inner_piece (F : nat -> list Z) L s k m i j : (forall i, (i < m)%nat -> length (F i) = L) -> (L = k * s)%nat ->
  (i < m)%nat -> (j < k)%nat -> piece s (flat_map F (seq 0 m)) (i * k + j) = piece s (F i) j.
Proof.
  intros HF HL Hi Hj. rewrite <- (piece_piece L s k) by done. by rewrite flat_map_piece.
Qed.

Section Sent.
Context {cfg : GemmConfig} {ok : GemmConfigOk}.
Local Notation NP := NUM_PANELS.
Local Notation P := PANEL_SIZE.

Lemma map_seq_length (f : nat -> Z) n : length (map f (seq 0 n)) = n.
Proof. by rewrite length_map, length_seq. Qed.

Lemma sent_A_panel Afull r t : (t < total_panel_mul_iters)%nat -> (r < NUM_HW_ROWS)%nat ->
  sent_A Afull r t = flat_map (fun lr =>
    map (fun c => Afull (m_panel_of t * P + r * NUM_ROWS_PER_HW_ROW + lr)%nat (k_panel_of t * P + c)%nat) (seq 0 P))
  (seq 0 NUM_ROWS_PER_HW_ROW).
Proof.
  unfold total_panel_mul_iters. intros Ht Hr. assert (HNP : (0 < NP)%nat) by nia.
  assert (Hm : (m_panel_of t < NP)%nat) by (unfold m_panel_of; repeat apply Nat.Div0.div_lt_upper_bound; lia).
  assert (Hk : (k_panel_of t < NP)%nat) by (apply Nat.mod_upper_bound; lia).
  change (sent_A Afull r t)
    with (piece MAT_A_CHUNK (dev_A Afull) ((m_panel_of t * NP + k_panel_of t) * NUM_HW_ROWS + r)).
  assert (H1 : forall f : nat -> nat -> Z, length (flat_map (fun lr => map (f lr) (seq 0 P)) (seq 0 NUM_ROWS_PER_HW_ROW)) = MAT_A_CHUNK).
  { intros f. apply flat_map_length_const. intros. apply map_seq_length. }
  assert (H2 : forall f : nat -> nat -> nat -> Z, length (flat_map (fun r => flat_map (fun lr => map (f r lr) (seq 0 P))
    (seq 0 NUM_ROWS_PER_HW_ROW)) (seq 0 NUM_HW_ROWS)) = (NUM_HW_ROWS * MAT_A_CHUNK)%nat).
  { intros f. apply flat_map_length_const. intros. apply (H1 (f i)). }
  unfold dev_A. rewrite Nat.mul_add_distr_r, <- Nat.add_assoc, <- Nat.mul_assoc.
  rewrite (flat_map_inner_piece _ (NP * (NUM_HW_ROWS * MAT_A_CHUNK)) MAT_A_CHUNK (NP * NUM_HW_ROWS)); [|..|done|nia].
  - rewrite (flat_map_inner_piece _ (NUM_HW_ROWS * MAT_A_CHUNK) MAT_A_CHUNK NUM_HW_ROWS); [|intros i _; apply (H2 (fun r lr c => _))|done..].
    rewrite flat_map_piece; [done|intros i _; apply (H1 (fun lr c => _))|done].
  - intros i _. apply flat_map_length_const. intros j _. apply (H2 (fun r lr c => _)).
  - lia.
Qed.

Lemma sent_B_panel Bfull t : (t < total_panel_mul_iters)%nat ->
  sent_B Bfull t = flat_map (fun col =>
    map (fun l => Bfull (k_panel_of t * P + l)%nat (n_panel_of t * P + col)%nat) (seq 0 P)) (seq 0 P).
Proof.
  unfold total_panel_mul_iters. intros Ht. assert (HNP : (0 < NP)%nat) by nia.
  assert (Hk : (k_panel_of t < NP)%nat) by (apply Nat.mod_upper_bound; lia).
  assert (Hn : (n_panel_of t < NP)%nat) by (apply Nat.mod_upper_bound; lia).
  change (sent_B Bfull t) with (piece NUM_ELMNTS (dev_B Bfull) (k_panel_of t * NP + n_panel_of t)).
  assert (H1 : forall f : nat -> nat -> Z, length (flat_map (fun col => map (f col) (seq 0 P)) (seq 0 P)) = NUM_ELMNTS).
  { intros f. apply flat_map_length_const. intros. apply map_seq_length. }
  unfold dev_B. rewrite (flat_map_inner_piece _ (NP * NUM_ELMNTS) NUM_ELMNTS NP); [|..|done|done|done].
  - rewrite flat_map_piece; [done|intros i _; apply (H1 (fun col l => _))|done].
  - intros i _. apply flat_map_length_const. intros j _. apply (H1 (fun col l => _)).
Qed.
End Sent.

(** * The array between the two halves of the program *)

Section Array.
Context {cfg : GemmConfig} {ok : GemmConfigOk} {me : MatrixEngine} {mespec : MatrixEngineSpec}.
Context (coreid : nat -> nat -> Z) (cap : nat -> chan -> nat).
Hypothesis coreid_column : forall r c, (c < NUM_HW_COLS)%nat -> currentCol (coreid r c) = Z.of_nat c.
Local Notation NP := NUM_PANELS.
Local Notation P := PANEL_SIZE.
Local Notation RPT := NUM_ROWS_PER_TILE.
Local Notation G := MM_NBLK_PER_FLUSH.

(** Row [r] of the array with the operands of all iterations. *)
Definition gemm_network (Afull Bfull : nat -> nat -> Z) (r : nat) : network :=
  gemm_start (coreid r) (cap r) total_panel_mul_iters (sent_A Afull r) (sent_B Bfull).

Definition gemm_done (Afull Bfull : nat -> nat -> Z) : (nat -> list Z) -> Prop :=
  all_collected NUM_HW_ROWS NUM_HW_COLS (gemm_network Afull Bfull).

(** Where the kernels write the entry for row [k] of core [c] and column [m] of group [i]. *)
Definition place (i c m k : nat) : nat := i * (NUM_HW_COLS * WIN_SIZE) + (c * WIN_SIZE + (m * RPT + k)).

(** The narrowed product of two panels. *)
Definition panel_product (Afull Bfull : nat -> nat -> Z) (mp np kp i j : nat) : Z :=
  saturate (zsum (map (fun l => Afull (mp * P + i)%nat (kp * P + l)%nat * Bfull (kp * P + l)%nat (np * P + j)%nat)
    (seq 0 P))).

Lemma zip_map_mul (f g : nat -> Z) l : zip_with Z.mul (map f l) (map g l) = map (fun k => f k * g k) l.
Proof. induction l as [|k l IH]; cbn; [done|]. by rewrite IH. Qed.

Lemma rows_of_row : NUM_ROWS_PER_HW_ROW = (NUM_HW_COLS * RPT)%nat.
Proof using ok. apply g_row_tiles. Qed.

Section Run.
Context (Afull Bfull : nat -> nat -> Z).
Hypothesis A_int8 : forall i j, is_int8 (Afull i j).
Hypothesis B_int8 : forall i j, is_int8 (Bfull i j).

Lemma flat_map_map_good (f : nat -> nat -> Z) m n : (forall i j, is_int8 (f i j)) ->
  Forall is_int8 (flat_map (fun i => map (f i) (seq 0 n)) (seq 0 m)).
Proof.
  intros Hf. apply Forall_forall. intros x Hx. apply list_elem_of_In, in_flat_map in Hx as (i & _ & Hx).
  apply in_map_iff in Hx as (j & <- & _). apply Hf.
Qed.

Lemma sent_ok r t : (r < NUM_HW_ROWS)%nat -> (t < total_panel_mul_iters)%nat ->
  length (sent_A Afull r t) = MAT_A_CHUNK /\ length (sent_B Bfull t) = NUM_ELMNTS /\
  Forall is_int8 (sent_A Afull r t) /\ Forall is_int8 (sent_B Bfull t).
Proof using A_int8 B_int8.
  intros Hr Ht. rewrite sent_A_panel, sent_B_panel by done. split_and!.
  - apply flat_map_length_const. intros. apply map_seq_length.
  - apply flat_map_length_const. intros. apply map_seq_length.
  - by apply (flat_map_map_good (fun lr c => Afull (m_panel_of t * P + r * NUM_ROWS_PER_HW_ROW + lr)%nat _)).
  - by apply (flat_map_map_good (fun col l => Bfull _ (n_panel_of t * P + col)%nat)).
Qed.

Definition out_entries (r : nat) (out : list Z) : Prop :=
  length out = (total_panel_mul_iters * MAT_A_CHUNK)%nat /\
  forall t i c m k, (t < total_panel_mul_iters)%nat -> (i < MM_N_BLOCKS / G)%nat -> (c < NUM_HW_COLS)%nat ->
    (m < G * MM_N)%nat -> (k < RPT)%nat ->
    out !! (t * MAT_A_CHUNK + place i c m k)%nat
      = Some (panel_product Afull Bfull (m_panel_of t) (n_panel_of t) (k_panel_of t)
          (r * NUM_ROWS_PER_HW_ROW + (c * RPT + k)) (i * (G * MM_N) + m)).

Lemma entry_product r t i c m k : (r < NUM_HW_ROWS)%nat -> (t < total_panel_mul_iters)%nat ->
  (i < MM_N_BLOCKS / G)%nat -> (c < NUM_HW_COLS)%nat -> (m < G * MM_N)%nat -> (k < RPT)%nat ->
  saturated_product (piece NUM_COLS (sent_A Afull r t) (c * RPT + k)) (piece NUM_COLS (sent_B Bfull t) (i * (G * MM_N) + m))
  = panel_product Afull Bfull (m_panel_of t) (n_panel_of t) (k_panel_of t)
      (r * NUM_ROWS_PER_HW_ROW + (c * RPT + k)) (i * (G * MM_N) + m).
Proof using ok.
  intros Hr Ht Hi Hc Hm Hk. rewrite sent_A_panel, sent_B_panel by done.
  assert (Hrow := rows_of_row). assert (Hnb := g_n_blocks). assert (Hfl := g_flushes).
  assert (Hm' : (i * (G * MM_N) + m < P)%nat) by (change P with NUM_COLS; nia).
  change NUM_COLS with P in *.
  rewrite !flat_map_piece by (nia || (intros; apply map_seq_length)).
  unfold saturated_product, panel_product. rewrite zip_map_mul. do 2 f_equal.
  apply map_ext. intros l. do 2 f_equal. lia.
Qed.

Lemma gemm_row_finishes r : (r < NUM_HW_ROWS)%nat ->
  (exists l s out, play l (gemm_network Afull Bfull r) = Some s /\ halted s /\ collected NUM_HW_COLS s = Some out) /\
  (forall l s out, play l (gemm_network Afull Bfull r) = Some s -> halted s -> collected NUM_HW_COLS s = Some out ->
     out_entries r out).
Proof using All.
  intros Hr. destruct (gemm_row_all (coreid r) (coreid_column r) (cap r) total_panel_mul_iters (sent_A Afull r)
    (sent_B Bfull) (fun t Ht => sent_ok r t Hr Ht)) as [total H].
  split.
  - destruct (H [] (gemm_network Afull Bfull r) eq_refl) as (_ & (rest & f & Hf & Hh) & _).
    destruct (H rest f Hf) as (_ & _ & Ho). destruct (Ho Hh) as (out & Hc & _). by exists rest, f, out.
  - intros l s out Hl Hh Hc. destruct (H l s Hl) as (_ & _ & Ho). destruct (Ho Hh) as (out' & Hc' & Hlen & He).
    rewrite Hc in Hc'. simplify_eq. split; [done|]. intros t i c m k Ht Hi Hcc Hm Hk.
    unfold place. rewrite He by done. by rewrite entry_product.
Qed.

Lemma gemm_ends : always_ends NUM_HW_ROWS NUM_HW_COLS (gemm_network Afull Bfull).
Proof using All.
  intros r Hr. destruct (gemm_row_all (coreid r) (coreid_column r) (cap r) total_panel_mul_iters (sent_A Afull r)
    (sent_B Bfull) (fun t Ht => sent_ok r t Hr Ht)) as [total H].
  exists total. intros l s Hl. destruct (H l s Hl) as (H1 & H2 & Ho). split; [done|]. split; [done|].
  intros Hh. destruct (Ho Hh) as (out & Hc & _). by exists out.
Qed.

Lemma gemm_finishes : exists outs, gemm_done Afull Bfull outs.
Proof using All. apply all_collected_exists. intros r Hr. by apply gemm_row_finishes. Qed.

Lemma gemm_entries outs r : gemm_done Afull Bfull outs -> (r < NUM_HW_ROWS)%nat -> out_entries r (outs r).
Proof using All.
  intros H Hr. destruct (H r Hr) as (l & s & Hl & Hs & Hc).
  destruct (gemm_row_finishes r Hr) as [_ Hf]. by eapply Hf.
Qed.

(** ** The sums of the host *)

Lemma place_bound i c m k : (i < MM_N_BLOCKS / G)%nat -> (c < NUM_HW_COLS)%nat -> (m < G * MM_N)%nat ->
  (k < RPT)%nat -> (place i c m k < MAT_A_CHUNK)%nat.
Proof using ok.
  intros Hi Hc Hm Hk. unfold place, MAT_A_CHUNK. assert (Hrow := rows_of_row). assert (Hfl := g_flush).
  assert (Hnb := g_n_blocks). assert (Hfs := g_flushes).
  assert (m * RPT + k < WIN_SIZE)%nat by nia.
  assert (c * WIN_SIZE + (m * RPT + k) < NUM_HW_COLS * WIN_SIZE)%nat by nia.
  rewrite Hnb, Hfs. set (I := (MM_N_BLOCKS / G)%nat) in *.
  replace (NUM_ROWS_PER_HW_ROW * (I * G * MM_N))%nat with (I * (NUM_HW_COLS * WIN_SIZE))%nat by nia. nia.
Qed.

Lemma iteration_spec mp np kp : (mp < NP)%nat -> (np < NP)%nat -> (kp < NP)%nat ->
  (iteration mp np kp < total_panel_mul_iters)%nat /\ m_panel_of (iteration mp np kp) = mp /\
  n_panel_of (iteration mp np kp) = np /\ k_panel_of (iteration mp np kp) = kp.
Proof.
  intros Hm Hn Hk. unfold iteration, total_panel_mul_iters, m_panel_of, n_panel_of, k_panel_of.
  destruct (GemmDemo.lane_split NP (mp * NP + np) kp Hk) as [-> ->].
  destruct (GemmDemo.lane_split NP mp np Hn) as [-> ->]. split_and!; [nia|done..].
Qed.

Lemma panel_product_range mp np kp i j : -128 <= panel_product Afull Bfull mp np kp i j <= 127.
Proof. unfold panel_product, saturate. set (v := zsum _). clearbody v.
  destruct (Z.gtb_spec v 127); [by vm_compute|]. destruct (Z.ltb_spec v (-128)); [by vm_compute|].
  rewrite wrap_s_small; cbn; lia.
Qed.

Lemma mem_out_length outs t : gemm_done Afull Bfull outs -> (t < total_panel_mul_iters)%nat ->
  length (mem_out outs t) = (NUM_HW_ROWS * MAT_A_CHUNK)%nat.
Proof using All.
  intros Hd Ht. unfold mem_out. rewrite <- flat_map_concat_map. apply flat_map_length_const. intros r Hr.
  destruct (gemm_entries outs r Hd Hr) as [Hl _]. apply (length_piece MAT_A_CHUNK (outs r) t). nia.
Qed.

Lemma mem_out_entry outs mp np kp r i c m k : gemm_done Afull Bfull outs ->
  (mp < NP)%nat -> (np < NP)%nat -> (kp < NP)%nat -> (r < NUM_HW_ROWS)%nat -> (i < MM_N_BLOCKS / G)%nat ->
  (c < NUM_HW_COLS)%nat -> (m < G * MM_N)%nat -> (k < RPT)%nat ->
  mem_out outs (iteration mp np kp) !! (r * MAT_A_CHUNK + place i c m k)%nat
    = Some (panel_product Afull Bfull mp np kp (r * NUM_ROWS_PER_HW_ROW + (c * RPT + k)) (i * (G * MM_N) + m)).
Proof using All.
  intros Hd Hmp Hnp Hkp Hr Hi Hc Hm Hk. destruct (iteration_spec mp np kp Hmp Hnp Hkp) as (Ht & H1 & H2 & H3).
  assert (Hp := place_bound i c m k Hi Hc Hm Hk).
  change (mem_out outs (iteration mp np kp)) with
    (concat (map (fun r => piece MAT_A_CHUNK (outs r) (iteration mp np kp)) (seq 0 NUM_HW_ROWS))).
  rewrite (concat_lookup (fun r => piece MAT_A_CHUNK (outs r) (iteration mp np kp)) MAT_A_CHUNK); [|..|done|done].
  - rewrite piece_lookup by done. destruct (gemm_entries outs r Hd Hr) as [_ He].
    rewrite He by done. by rewrite H1, H2, H3.
  - intros x Hx. destruct (gemm_entries outs x Hd Hx) as [Hl _]. apply length_piece. nia.
Qed.

(** Adding up with [int]s that stay small. *)
Lemma accumulate_length (out : nat -> list Z) L z n : length z = L -> (forall kp, (kp < n)%nat -> length (out kp) = L) ->
  length (fold_left (fun acc kp => if (kp =? 0)%nat then out kp else zip_with (fun x y => s32 (x + y)) acc (out kp))
    (seq 0 n) z) = L.
Proof.
  intros Hz. induction n as [|n IH]; intros Ho; [done|]. rewrite seq_S, fold_left_app. cbn [fold_left Nat.add].
  destruct (n =? 0)%nat; [auto|]. rewrite length_zip_with, IH, Ho by auto. lia.
Qed.

Lemma accumulate_entry (out : nat -> list Z) (v : nat -> Z) x z n : (0 < n)%nat ->
  (forall kp, (kp < n)%nat -> out kp !! x = Some (v kp) /\ -128 <= v kp <= 127) -> 128 * Z.of_nat n < 2 ^ 31 ->
  fold_left (fun acc kp => if (kp =? 0)%nat then out kp else zip_with (fun x y => s32 (x + y)) acc (out kp))
    (seq 0 n) z !! x = Some (zsum (map v (seq 0 n))).
Proof.
  intros Hn Ho. induction n as [|n IH]; intros Hb; [lia|].
  rewrite seq_S, fold_left_app, map_app, zsum_app. cbn [fold_left Nat.add map zsum foldr].
  destruct (Ho n ltac:(lia)) as [He Hr]. destruct (Nat.eqb_spec n 0) as [->|Hn0].
  - rewrite He. f_equal. cbn. lia.
  - rewrite lookup_zip_with, IH, He by (lia || auto). cbn. f_equal. rewrite wrap_s_small; [lia|lia|].
    assert (Hs := zsum_bound (map v (seq 0 n)) (-128) 127). rewrite length_map, length_seq in Hs.
    destruct Hs as [H1 H2]; [|cbn; lia]. apply Forall_forall. intros y Hy.
    apply list_elem_of_In, in_map_iff in Hy as (kp & <- & Hk%in_seq). apply Ho. lia.
Qed.

Lemma cAcc_length outs mp np : gemm_done Afull Bfull outs -> (mp < NP)%nat -> (np < NP)%nat ->
  length (cAcc outs mp np) = (NUM_HW_ROWS * MAT_A_CHUNK)%nat.
Proof using All.
  intros Hd Hm Hn. unfold cAcc. apply (accumulate_length (fun kp => mem_out outs (iteration mp np kp))).
  - apply length_replicate.
  - intros kp Hk. apply mem_out_length; [done|]. by apply iteration_spec.
Qed.

Lemma got_row outs mp np r : gemm_done Afull Bfull outs -> (mp < NP)%nat -> (np < NP)%nat -> (r < NUM_HW_ROWS)%nat ->
  got (all_C outs) (mkSpot mp np r) = piece MAT_A_CHUNK (cAcc outs mp np) r.
Proof using All.
  intros Hd Hm Hn Hr. unfold got. cbn [m_panel n_panel chain].
  replace ((mp * NP + np) * NUM_HW_ROWS * MAT_A_CHUNK + r * MAT_A_CHUNK)%nat
    with ((mp * (NP * NUM_HW_ROWS) + (np * NUM_HW_ROWS + r)) * MAT_A_CHUNK)%nat by lia.
  fold (piece MAT_A_CHUNK (all_C outs) (mp * (NP * NUM_HW_ROWS) + (np * NUM_HW_ROWS + r))). unfold all_C.
  rewrite (flat_map_inner_piece _ (NP * (NUM_HW_ROWS * MAT_A_CHUNK)) MAT_A_CHUNK (NP * NUM_HW_ROWS)); [|..|done|nia].
  - apply (flat_map_inner_piece _ (NUM_HW_ROWS * MAT_A_CHUNK)); [|done..]. intros i Hi. by apply cAcc_length.
  - intros i Hi. apply flat_map_length_const. intros j Hj. by apply cAcc_length.
  - lia.
Qed.

Hypothesis panels_pos : (0 < NP)%nat.
Hypothesis panels_bound : 128 * Z.of_nat NP < 2 ^ 31.

Lemma got_entry outs mp np r i c m k : gemm_done Afull Bfull outs -> (mp < NP)%nat -> (np < NP)%nat ->
  (r < NUM_HW_ROWS)%nat -> (i < MM_N_BLOCKS / G)%nat -> (c < NUM_HW_COLS)%nat -> (m < G * MM_N)%nat -> (k < RPT)%nat ->
  got (all_C outs) (mkSpot mp np r) !! place i c m k
    = Some (zsum (map (fun kp => panel_product Afull Bfull mp np kp (r * NUM_ROWS_PER_HW_ROW + (c * RPT + k))
        (i * (G * MM_N) + m)) (seq 0 NP))).
Proof using All.
  intros Hd Hmp Hnp Hr Hi Hc Hm Hk. rewrite got_row by done.
  rewrite piece_lookup by (by apply place_bound).
  unfold cAcc. apply (accumulate_entry (fun kp => mem_out outs (iteration mp np kp))); [done| |done].
  intros kp Hkp. split; [by apply mem_out_entry|apply panel_product_range].
Qed.
End Run.

(** C14: for any 8-bit matrices of at least one and, so that no sum overflows, less than 2^24 panels a
    side: in every interleaving of its cores a row makes a bounded number of moves, can go on until none
    of the cores can move, and then has delivered all its results; and the host's result has, at the place the kernels give an entry, the sum over the panels
    of the products of its row and its column within a panel, each narrowed to 8 bits. *)
Theorem blocked_product Afull Bfull : (forall i j, is_int8 (Afull i j)) -> (forall i j, is_int8 (Bfull i j)) ->
  (0 < NP)%nat -> 128 * Z.of_nat NP < 2 ^ 31 ->
  always_ends NUM_HW_ROWS NUM_HW_COLS (gemm_network Afull Bfull) /\ (exists outs, gemm_done Afull Bfull outs) /\
  forall outs mp np r i c m k, gemm_done Afull Bfull outs -> (mp < NP)%nat -> (np < NP)%nat ->
    (r < NUM_HW_ROWS)%nat -> (i < MM_N_BLOCKS / G)%nat -> (c < NUM_HW_COLS)%nat -> (m < G * MM_N)%nat -> (k < RPT)%nat ->
    got (all_C outs) (mkSpot mp np r) !! place i c m k
      = Some (zsum (map (fun kp => panel_product Afull Bfull mp np kp (r * NUM_ROWS_PER_HW_ROW + (c * RPT + k))
          (i * (G * MM_N) + m)) (seq 0 NP))).
Proof.
  intros HA HB Hp Hb. split; [by apply gemm_ends|]. split; [by apply gemm_finishes|]. intros. by apply got_entry.
Qed.

(** ** The samples *)

Lemma chunk_groups : MAT_A_CHUNK = (MM_N_BLOCKS / G * (NUM_HW_COLS * WIN_SIZE))%nat.
Proof using ok.
  assert (Hrow := rows_of_row). assert (Hfl := g_flush). assert (Hnb := g_n_blocks). assert (Hfs := g_flushes).
  unfold MAT_A_CHUNK. set (I := (MM_N_BLOCKS / G)%nat) in *. nia.
Qed.

(** Every index of a row's results is a place. *)
Lemma place_of x : (x < MAT_A_CHUNK)%nat -> exists i c m k, (i < MM_N_BLOCKS / G)%nat /\ (c < NUM_HW_COLS)%nat /\
  (m < G * MM_N)%nat /\ (k < RPT)%nat /\ x = place i c m k.
Proof using ok.
  intros Hx. assert (Hrow := rows_of_row). assert (Hfl := g_flush). assert (Hp := g_tile_rows_pos).
  assert (Hw : (0 < WIN_SIZE)%nat) by apply panel_pos. assert (Hch := chunk_groups).
  exists (x / WIN_SIZE / NUM_HW_COLS)%nat, (x / WIN_SIZE mod NUM_HW_COLS)%nat, (x mod WIN_SIZE / RPT)%nat,
    (x mod WIN_SIZE mod RPT)%nat.
  assert (Hm := Nat.mod_upper_bound x WIN_SIZE ltac:(lia)).
  split_and!.
  - apply Nat.Div0.div_lt_upper_bound, Nat.Div0.div_lt_upper_bound. lia.
  - apply Nat.mod_upper_bound. unfold NUM_HW_COLS. lia.
  - apply Nat.Div0.div_lt_upper_bound. lia.
  - apply Nat.mod_upper_bound. lia.
  - unfold place. assert (H1 := Nat.div_mod_eq x WIN_SIZE). assert (H2 := Nat.div_mod_eq (x / WIN_SIZE) NUM_HW_COLS).
    assert (H3 := Nat.div_mod_eq (x mod WIN_SIZE) RPT). nia.
Qed.

(** Results that depend on the row only, in the order of the kernels. *)
Definition by_rows (v : nat -> Z) : list Z :=
  flat_map (fun _ => flat_map (fun c => flat_map (fun _ => map (fun k => v (c * RPT + k)%nat) (seq 0 RPT))
    (seq 0 (G * MM_N))) (seq 0 NUM_HW_COLS)) (seq 0 (MM_N_BLOCKS / G)).

Lemma window_of_rows : (G * MM_N * RPT = WIN_SIZE)%nat.
Proof using ok. rewrite g_flush. lia. Qed.

Lemma by_rows_lookup v i c m k : (i < MM_N_BLOCKS / G)%nat -> (c < NUM_HW_COLS)%nat -> (m < G * MM_N)%nat ->
  (k < RPT)%nat -> by_rows v !! place i c m k = Some (v (c * RPT + k)%nat).
Proof using ok.
  intros Hi Hc Hm Hk. assert (Hw := window_of_rows).
  assert (L1 : forall c, length (flat_map (fun _ : nat => map (fun k => v (c * RPT + k)%nat) (seq 0 RPT))
    (seq 0 (G * MM_N))) = WIN_SIZE).
  { intros. rewrite (flat_map_length_const _ RPT); [done|]. intros. apply map_seq_length. }
  assert (m * RPT + k < WIN_SIZE)%nat by nia.
  assert (c * WIN_SIZE + (m * RPT + k) < NUM_HW_COLS * WIN_SIZE)%nat by nia.
  unfold by_rows, place. rewrite flat_map_concat_map.
  rewrite (concat_lookup _ (NUM_HW_COLS * WIN_SIZE)); [|intros; by apply flat_map_length_const|done|done].
  rewrite flat_map_concat_map, (concat_lookup _ WIN_SIZE); [|intros; apply L1|done|done].
  rewrite flat_map_concat_map, (concat_lookup _ RPT); [|intros; apply map_seq_length|done|done].
  rewrite list_lookup_fmap, lookup_seq_lt by done. done.
Qed.

Lemma by_rows_length v : length (by_rows v) = MAT_A_CHUNK.
Proof using ok.
  assert (Hw := window_of_rows). unfold by_rows. rewrite (flat_map_length_const _ (NUM_HW_COLS * WIN_SIZE)).
  - symmetry. apply chunk_groups.
  - intros. apply flat_map_length_const. intros. rewrite (flat_map_length_const _ RPT); [done|].
    intros. apply map_seq_length.
Qed.

Lemma got_by_rows Afull Bfull outs mp np r v : (forall i j, is_int8 (Afull i j)) -> (forall i j, is_int8 (Bfull i j)) ->
  (0 < NP)%nat -> 128 * Z.of_nat NP < 2 ^ 31 -> gemm_done Afull Bfull outs ->
  (mp < NP)%nat -> (np < NP)%nat -> (r < NUM_HW_ROWS)%nat ->
  (forall i j, (i < NUM_ROWS_PER_HW_ROW)%nat ->
    zsum (map (fun kp => panel_product Afull Bfull mp np kp (r * NUM_ROWS_PER_HW_ROW + i) j) (seq 0 NP)) = v i) ->
  got (all_C outs) (mkSpot mp np r) = by_rows v.
Proof using coreid_column mespec ok.
  intros HA HB Hp Hb Hd Hmp Hnp Hr Hv. assert (Hrow := rows_of_row). apply list_eq. intros x.
  destruct (decide (x < MAT_A_CHUNK)%nat) as [Hx|Hx].
  - destruct (place_of x Hx) as (i & c & m & k & Hi & Hc & Hm & Hk & ->).
    rewrite by_rows_lookup by done. rewrite (got_entry Afull Bfull) by done. f_equal. apply Hv. nia.
  - rewrite !lookup_ge_None_2; [done|rewrite by_rows_length; lia|].
    unfold got. rewrite length_take. lia.
Qed.
End Array.

(** ** Sorted comparison *)

Lemma flat_map_cons_perm (f : Z -> list Z) l : flat_map (fun x => x :: f x) l ≡ₚ l ++ flat_map f l.
Proof.
  induction l as [|x l IH]; cbn [flat_map app]; [done|]. rewrite IH. apply Permutation_skip.
  rewrite !app_assoc. apply Permutation_app_tail, Permutation_app_comm.
Qed.

Lemma flat_map_repeat_perm (l : list Z) a n : flat_map (fun _ : nat => l) (seq a n) ≡ₚ flat_map (replicate n) l.
Proof.
  revert a. induction n as [|n IH]; intros a; cbn [seq flat_map replicate].
  - induction l as [|x l IHl]; cbn; [done|]. apply IHl.
  - rewrite IH. symmetry. apply (flat_map_cons_perm (replicate n)).
Qed.

Lemma flat_map_ext_perm (f g : nat -> list Z) l : (forall x, f x ≡ₚ g x) -> flat_map f l ≡ₚ flat_map g l.
Proof. intros H. induction l as [|x l IH]; cbn; [done|]. by rewrite (H x), IH. Qed.

Lemma flat_map_replicate_twice a b (l : list Z) :
  flat_map (replicate a) (flat_map (replicate b) l) = flat_map (replicate (b * a)) l.
Proof.
  induction l as [|x l IH]; cbn [flat_map]; [done|]. rewrite flat_map_app, IH. f_equal. clear IH.
  induction b as [|b IHb]; cbn [replicate flat_map Nat.mul]; [done|]. by rewrite IHb, replicate_add.
Qed.

Lemma flat_map_flat_map_replicate (f : nat -> list Z) n l :
  flat_map (fun c => flat_map (replicate n) (f c)) l = flat_map (replicate n) (flat_map f l).
Proof. induction l as [|c l IH]; cbn [flat_map]; [done|]. by rewrite flat_map_app, IH. Qed.

Lemma flat_map_rows (v : nat -> Z) n m : flat_map (fun c => map (fun k => v (c * m + k)%nat) (seq 0 m)) (seq 0 n)
  = map v (seq 0 (n * m)).
Proof.
  induction n as [|n IH]; [done|]. rewrite seq_S, flat_map_app, IH. cbn [flat_map Nat.add]. rewrite app_nil_r.
  replace (S n * m)%nat with (n * m + m)%nat by lia. rewrite seq_app, map_app. f_equal.
  replace (seq (0 + n * m) m) with (seq (n * m + 0) m) by (f_equal; lia). rewrite <- fmap_add_seq.
  symmetry. apply (map_map (Nat.add (n * m))).
Qed.

Lemma by_rows_perm {cfg : GemmConfig} {ok : GemmConfigOk} v :
  by_rows v ≡ₚ flat_map (fun lr => replicate PANEL_SIZE (v lr)) (seq 0 NUM_ROWS_PER_HW_ROW).
Proof.
  unfold by_rows. rewrite flat_map_repeat_perm.
  transitivity (flat_map (replicate (MM_N_BLOCKS / MM_NBLK_PER_FLUSH)) (flat_map (fun c =>
    flat_map (replicate (MM_NBLK_PER_FLUSH * MM_N)) (map (fun k => v (c * NUM_ROWS_PER_TILE + k)%nat)
      (seq 0 NUM_ROWS_PER_TILE))) (seq 0 NUM_HW_COLS))).
  { apply Permutation_flat_map, flat_map_ext_perm. intros c. apply flat_map_repeat_perm. }
  rewrite flat_map_flat_map_replicate, flat_map_replicate_twice, flat_map_rows, <- g_row_tiles.
  assert (Hnb := g_n_blocks). assert (Hfs := g_flushes).
  replace (MM_NBLK_PER_FLUSH * MM_N * (MM_N_BLOCKS / MM_NBLK_PER_FLUSH))%nat with PANEL_SIZE
    by (change PANEL_SIZE with NUM_COLS; nia).
  by rewrite !flat_map_concat_map, map_map.
Qed.

Lemma sorted_equal (l k : list Z) : merge_sort Z.le l = merge_sort Z.le k <-> l ≡ₚ k.
Proof.
  split; intros H.
  - by rewrite <- (merge_sort_Permutation Z.le l), H, merge_sort_Permutation.
  - apply (Sorted_unique Z.le); [apply Sorted_merge_sort, _..|]. by rewrite !merge_sort_Permutation.
Qed.

(** ** The shipped operands *)

Section Verification.
Context {cfg : GemmConfig} {ok : GemmConfigOk} {me : MatrixEngine} {mespec : MatrixEngineSpec}.
Context (coreid : nat -> nat -> Z) (cap : nat -> chan -> nat).
Hypothesis coreid_column : forall r c, (c < NUM_HW_COLS)%nat -> currentCol (coreid r c) = Z.of_nat c.
Local Notation NP := NUM_PANELS.
Local Notation P := PANEL_SIZE.

Lemma Aval_value row : Aval row = Z.of_nat row mod 7 + 1.
Proof.
  assert (H := Z.mod_pos_bound (Z.of_nat row) 7 ltac:(lia)). unfold Aval. apply wrap_s_small; cbn; lia.
Qed.

Lemma zsum_const (x : Z) n : zsum (map (fun _ => x) (seq 0 n)) = Z.of_nat n * x.
Proof.
  induction n as [|n IH]; [done|]. rewrite seq_S, map_app, zsum_app, IH. cbn [map zsum foldr Nat.add]. lia.
Qed.

Lemma saturate_clamp v : saturate v = if v >? 127 then 127 else if v <? -128 then -128 else v.
Proof.
  unfold saturate. destruct (Z.gtb_spec v 127); [done|]. destruct (Z.ltb_spec v (-128)); [done|].
  apply wrap_s_small; cbn; lia.
Qed.

Lemma shipped_entry mp np r i j :
  zsum (map (fun kp => panel_product Afull_shipped Bfull_shipped mp np kp (r * NUM_ROWS_PER_HW_ROW + i) j) (seq 0 NP))
  = Z.of_nat NP * saturate (Z.of_nat P * Aval (mp * P + r * NUM_ROWS_PER_HW_ROW + i)).
Proof.
  unfold panel_product, Afull_shipped, Bfull_shipped. rewrite zsum_const. f_equal. f_equal.
  rewrite zsum_const, Nat.add_assoc. lia.
Qed.

(** The smallest panel has 64 rows. *)
Lemma panel_at_least : (64 <= P)%nat.
Proof using ok.
  assert (H1 := g_tile_rows_pos). assert (H2 := g_row_tiles). assert (H3 := g_panel_rows). assert (H4 := g_sub_rows).
  unfold NUM_HW_ROWS, NUM_HW_COLS, MM_M in *. destruct MM_M_SUB; lia.
Qed.

(** What the host has and what it expects for an entry of a row. *)
Lemma spot_value grow : (0 < NP)%nat -> 128 * Z.of_nat MATRIX_SIZE < 2 ^ 31 ->
  let v := Z.of_nat NP * saturate (Z.of_nat P * Aval grow) in
  rowsum grow <= 127 /\ (NP = 1%nat -> v = rowsum grow) /\ ((2 <= NP)%nat -> 128 <= v).
Proof using ok.
  intros Hp Hb v. assert (H64 := panel_at_least). unfold v, rowsum, MATRIX_SIZE in *. rewrite Aval_value, saturate_clamp.
  set (y := Z.of_nat grow mod 7). assert (Hy : 0 <= y < 7) by (apply Z.mod_pos_bound; lia).
  rewrite (wrap_s_small 32 (Z.of_nat (NP * P))) by (cbn; lia).
  rewrite (wrap_s_small 32 (_ * _)) by (cbn; nia).
  assert (64 <= Z.of_nat P * (y + 1)) by nia.
  split_and!.
  - destruct (Z.gtb_spec (Z.of_nat (NP * P) * (y + 1)) 127); [lia|].
    destruct (Z.ltb_spec (Z.of_nat (NP * P) * (y + 1)) (-128)); lia.
  - intros ->. by rewrite Nat.mul_1_l, Z.mul_1_l.
  - intros H2. destruct (Z.gtb_spec (Z.of_nat P * (y + 1)) 127); [nia|].
    destruct (Z.ltb_spec (Z.of_nat P * (y + 1)) (-128)); nia.
Qed.

Lemma spot_result outs mp np r : (0 < NP)%nat -> 128 * Z.of_nat MATRIX_SIZE < 2 ^ 31 ->
  gemm_done coreid cap Afull_shipped Bfull_shipped outs -> (mp < NP)%nat -> (np < NP)%nat -> (r < NUM_HW_ROWS)%nat ->
  spot_ok (all_C outs) (mkSpot mp np r) = bool_decide (NP = 1%nat).
Proof using All.
  intros Hp Hb Hd Hmp Hnp Hr. assert (H64 := panel_at_least).
  assert (Hrow : (0 < NUM_ROWS_PER_HW_ROW)%nat).
  { assert (H1 := g_tile_rows_pos). assert (H2 := g_row_tiles). unfold NUM_HW_COLS in H2. lia. }
  assert (HA : forall i j, is_int8 (Afull_shipped i j)).
  { intros i j. unfold Afull_shipped, is_int8. rewrite Aval_value.
    assert (H := Z.mod_pos_bound (Z.of_nat i) 7 ltac:(lia)). lia. }
  set (v := fun i => Z.of_nat NP * saturate (Z.of_nat P * Aval (mp * P + r * NUM_ROWS_PER_HW_ROW + i))).
  unfold spot_ok. rewrite (got_by_rows coreid cap coreid_column Afull_shipped Bfull_shipped outs mp np r v); try done;
    [|unfold MATRIX_SIZE in Hb; nia|intros; apply shipped_entry].
  apply bool_decide_ext. rewrite sorted_equal, by_rows_perm. unfold expected. cbn [m_panel chain].
  assert (Hv : forall i, rowsum (mp * P + r * NUM_ROWS_PER_HW_ROW + i) <= 127 /\
    (NP = 1%nat -> v i = rowsum (mp * P + r * NUM_ROWS_PER_HW_ROW + i)) /\ ((2 <= NP)%nat -> 128 <= v i))
    by (intros i; by apply spot_value).
  split.
  - intros Hperm. destruct (decide (NP = 1%nat)) as [|Hne]; [done|]. exfalso.
    assert (Hin : v 0%nat ∈ flat_map (fun lr => replicate P (v lr)) (seq 0 NUM_ROWS_PER_HW_ROW)).
    { apply list_elem_of_In, in_flat_map. exists 0%nat. split; [apply in_seq; lia|].
      apply list_elem_of_In, elem_of_replicate. split; [done|lia]. }
    rewrite Hperm in Hin. apply list_elem_of_In, in_flat_map in Hin as (lr & _ & Hin).
    apply list_elem_of_In, elem_of_replicate in Hin as [He _].
    destruct (Hv 0%nat) as (_ & _ & H2). destruct (Hv lr) as (H1 & _). specialize (H2 ltac:(lia)). lia.
  - intros H1. rewrite !flat_map_concat_map.
    erewrite map_ext; [done|]. intros lr. cbn beta. f_equal. by apply Hv.
Qed.

(** C17: whatever the interleaving of the cores, the shipped verification succeeds exactly when the matrices
    have a single panel: with more, every panel is narrowed to 8 bits before the host adds them up, and the
    sums exceed the narrowed values the host expects. *)
Theorem verification_passes_iff_one_panel : (0 < NP)%nat -> 128 * Z.of_nat MATRIX_SIZE < 2 ^ 31 ->
  (exists outs, gemm_done coreid cap Afull_shipped Bfull_shipped outs) /\
  forall outs, gemm_done coreid cap Afull_shipped Bfull_shipped outs ->
    (verification (all_C outs) = 0 <-> NP = 1%nat).
Proof.
  intros Hp Hb. split.
  - apply gemm_finishes; [done| |done]. intros i j. unfold Afull_shipped, is_int8. rewrite Aval_value.
    assert (H := Z.mod_pos_bound (Z.of_nat i) 7 ltac:(lia)). lia.
  - intros outs Hd. unfold verification, spots. cbn [forallb].
    rewrite !spot_result by (done || (unfold NUM_HW_ROWS; lia)). by case_bool_decide.
Qed.
End Verification.

(** Blocked matrices of two panels: the rows end, the verification fails. *)
Module GemmHostDemo.
Definition two_panels : GemmConfig := {| PANEL_SIZE := 64; NUM_PANELS := 2; CEILING_REPEAT := 1 |}.

Lemma two_panels_ok : @GemmConfigOk two_panels.
Proof. constructor; vm_compute; reflexivity || lia. Qed.

Definition signed (i j : nat) : Z := Z.of_nat (i + 3 * j) mod 9 - 4.

Lemma signed_int8 i j : is_int8 (signed i j).
Proof. unfold signed, is_int8. assert (H := Z.mod_pos_bound (Z.of_nat (i + 3 * j)) 9 ltac:(lia)). lia. Qed.
End GemmHostDemo.

Lemma blocked_product_witness :
  exists outs, @gemm_done GemmHostDemo.two_panels GemmDemo.engine (fun _ => GemmDemo.ids) (fun _ _ => 1%nat)
    GemmHostDemo.signed GemmHostDemo.signed outs.
Proof.
  refine (proj1 (proj2 (@blocked_product GemmHostDemo.two_panels GemmHostDemo.two_panels_ok GemmDemo.engine
    GemmDemo.engine_ok (fun _ => GemmDemo.ids) (fun _ _ => 1%nat) (fun _ => GemmDemo.gemm_ids_column)
    GemmHostDemo.signed GemmHostDemo.signed GemmHostDemo.signed_int8 GemmHostDemo.signed_int8 _ _))).
  - vm_compute. lia.
  - vm_compute. reflexivity.
Defined.

Lemma verification_passes_iff_one_panel_witness :
  (exists outs, @gemm_done shipped GemmDemo.engine (fun _ => GemmDemo.ids) (fun _ _ => 1%nat)
     (@Afull_shipped) (@Bfull_shipped) outs) /\
  forall outs, @gemm_done shipped GemmDemo.engine (fun _ => GemmDemo.ids) (fun _ _ => 1%nat)
     (@Afull_shipped) (@Bfull_shipped) outs ->
   (@verification shipped (@all_C shipped outs) = 0 <-> @NUM_PANELS shipped = 1%nat).
Proof.
  apply (@verification_passes_iff_one_panel shipped shipped_ok GemmDemo.engine
    GemmDemo.engine_ok (fun _ => GemmDemo.ids) (fun _ _ => 1%nat) (fun _ => GemmDemo.gemm_ids_column)).
  - vm_compute. lia.
  - vm_compute. reflexivity.
Defined.
